(* ===== verification/_CoqProject ===== *)
-Q . S2P
Prelude.v
Physical.v
Paging.v
VirtMem.v
Bytes.v
Vfs.v
Storage.v
DiskLayout.v
CottonFS.v
CottonMeta.v
CottonInodes.v
CottonMount.v
CottonFile.v
CottonData.v
CottonDurable.v
CottonDir.v
CottonNames.v
Process.v
Scheduler.v
SchedulerSpec.v
Locks.v
Sync.v
RamFS.v
DevFS.v
Files.v
FilesSpec.v
RamSpec.v
SystemFS.v
Syscall.v
SyscallSpec.v
Str.v
ShellText.v
Browser.v
BrowserSpec.v
Html.v
HtmlSpec.v
Layout.v
LayoutSpec.v
Keyboard.v
KeyboardSpec.v
Console.v
ConsoleSpec.v
Mouse.v
Ports.v
Ps2.v
Ata.v
AtaDrive.v
AtaSpec.v
Rtl8139.v
Rtl8139Spec.v
NetStack.v
NetStackSpec.v
NetDevice.v
Http.v
HttpSpec.v
Editor.v
EditorSpec.v
Windows.v
Desktop.v
DesktopSpec.v
Graphics.v
GraphicsSpec.v
Draw.v
DrawSpec.v
Descriptors.v
Interrupts.v
InterruptSpec.v
Machine.v
MachineSpec.v
Boot.v
BootSpec.v
Task.v
TaskSpec.v
GuiLoop.v
Shell.v
ShellSpec.v
Userspace.v
UserspaceSpec.v
Startup.v
StartupSpec.v
