(* ===== verification/Prelude.v ===== *)
(** * CottonOS: a verification library

    CottonOS is a small x86_64 kernel in Rust ([src/kernel/src]): memory management,
    processes, locks, file systems, device drivers, a network stack around the
    smoltcp crate, a text browser and a graphical desktop.  This library translates
    the parts that carry its own logic and proves what makes them correct.

    ** How the code is represented

    - A [w]-bit integer is a [Z]; wrap-around is written out with [wrap] ([u8] ..
      [u64]) wherever the operands of the source can leave the range: the kernel is
      built with [--release].  Positions in a string or vector are [nat] where the
      source can only hold positions of something in memory.
    - A [Result] is [res], whose third value is a panic ([panic = "abort"]).  Code on a
      mutable state is in the state monad [M] of this file: an error keeps the state
      reached so far, as an early return does.
    - Strings are the lists of their bytes; Str.v has the methods of [str] with the
      panics of slices inside a character.
    - [[T; N]] statics are [arr], vectors are lists, maps are [gmap].
    - A loop without a structural measure takes fuel and returns [None] when it is
      used up.  Where the fuel stands for the length of the input ([chars],
      [from_utf8_lossy], [skip_ws], [read_string] with its 4097 bytes,
      [entity_digits], [line_end]) the definition itself passes enough; for the
      loops that wait or parse, a theorem states how much is enough
      ([decode_chunked_terminates], [render_html_doc_ok], [layout_spec],
      [network_deadlines], [sleep_loses_process], [walk_terminates],
      [fetch_arrives], [fetch_returns], [commands_return], [init_ps2_spec]).
    - Threads are transition systems over their atomic operations, interleaved under
      sequential consistency; the weaker orderings of the source are not modelled.

    ** The files

    - This file, Bytes.v, Str.v: integers, results, loops, arrays, bytes, strings.
    - Memory.  Physical.v: the frame allocator and the heap ([mm/physical.rs],
      [mm/heap.rs], [mm/mod.rs]); it provides frames through the class [FrameSource].
      Paging.v: the four-level tables ([arch/x86_64/paging.rs]) in a memory of
      words.  VirtMem.v: address spaces ([mm/virtual_mem.rs]).
      Theorems: a frame has one owner; [map_page] changes one translation where no 2 MB
      page lies (and corrupts those of the boot mapping); regions are disjoint and
      backed, and unmapping returns their frames, but for new page tables.
    - Interrupts ([arch/x86_64]).  Descriptors.v: the packed tables; Interrupts.v: the
      entry points as instructions on registers and memory, and the dispatch of the
      lines to handlers that spin when the interrupted code holds one of their locks;
      InterruptSpec.v: an interrupt leaves the code it interrupts as it was, each line
      has its own handler, and a held lock stops it for ever.
      Machine.v: timer, serial port, local APIC, identification and their start;
      MachineSpec.v: what they do on chips that behave as documented.
    - Start-up.  Boot.v: the Multiboot tags and the choice of the console
      ([main.rs]).  BootSpec.v: the memory map and the frame buffer of a table are
      found, whatever its entry sizes, type numbers and colour information, and the walk ends unless a tag has size 0.  Startup.v: the state of all
      parts and [kernel_main], which runs the initialisations of [main.rs], [mm/mod.rs],
      [drivers/mod.rs], [fs/mod.rs] and [syscall/mod.rs] on it, with the two entries
      and the panic handler.  StartupSpec.v: when the kernel has started, the
      invariants of the parts hold together.
    - Processes.  Process.v and Scheduler.v ([proc]) over the frame allocator,
      SchedulerSpec.v: invariant of all operations, round robin, fork.  Task.v
      ([task.rs]): the switch between the desktop and a fetch, on registers and a
      memory of words, and the slices of a fetch; TaskSpec.v: a task gets its
      registers back, and a page that is asked for arrives.
    - Locks.v, Sync.v ([sync]): exclusion of [Mutex], [RecursiveMutex], [RwLock];
      conservation of [Semaphore]; [Once] runs its closure once.
    - Files.  Vfs.v has the traits [Inode] and [FileSystem] as classes, Files.v
      paths, mounts and descriptors ([fs/mod.rs]) for any instance of them.
      FilesSpec.v proves path resolution and reading back from the laws [FileLaws],
      which RamSpec.v proves of RamFS.v.  DevFS.v is [fs/devfs.rs]; SystemFS.v puts
      the file systems together as [init] does.
    - CottonFS ([fs/cottonfs.rs]) over the class [BlockDevice] of Storage.v: the
      structures on disk (DiskLayout.v), the operations (CottonFS.v), bitmaps
      (CottonMeta.v), inode table (CottonInodes.v), mounting (CottonMount.v),
      contents (CottonFile.v, CottonData.v, CottonDurable.v), directories
      (CottonDir.v, CottonNames.v).  Theorems: what is written is read back, also
      after the file system is mounted again.
    - Devices.  Ports.v: the class of port I/O.  Ata.v with the protocol of a drive
      (AtaDrive.v) and AtaSpec.v: transfers move the sectors, but the flush after a
      write meets a busy drive; Keyboard.v and KeyboardSpec.v; Mouse.v;
      Ps2.v: the set-up of keyboard and mouse on a controller that
      follows the documents; Console.v and ConsoleSpec.v, with the writer of
      [bootloader/src/vga.rs]; Graphics.v and GraphicsSpec.v
      ([drivers/graphics.rs]): what a drawing operation leaves on each pixel, and the
      swap of the buffers; Rtl8139.v with DMA as a class and Rtl8139Spec.v: the
      receive ring is a queue.
    - NetStack.v: the functions around smoltcp, which is the class [Smoltcp];
      NetStackSpec.v: sending and the deadlines.  NetDevice.v: the card as the device
      of the stack, the building of the stack and [init]: frames go on
      the wire in their order, and there is a stack exactly when there is a card.
    - Browser.v, Html.v, Layout.v ([browser.rs]) and their Spec files: URLs, chunked
      bodies, the document of a page, word wrap.  Http.v: the requests and the stream
      and random numbers of [crypto/tls.rs]; HttpSpec.v: a fetch returns, and its text
      is what the socket gave, and the random numbers do not stick at zero unless
      [rdrand] makes them.
    - Shell ([shell.rs]).  ShellText.v: numbers, addresses, paths, names and help.
      Shell.v: the commands of the terminal and the console; its [execute_command] is
      what Desktop.v has as a parameter.  ShellSpec.v: what is written is shown, the
      working directory stays clean, commands return.
    - Desktop ([gui/mod.rs]).  Editor.v and EditorSpec.v: the text editor is a text
      with a cursor and a history.  Windows.v: the windows and their contents.
      Desktop.v: what the mouse, the keys and a page that arrives do to them, with
      the command interpreter as a parameter.  DesktopSpec.v: an invariant of all
      events, and the history of the file manager.  Draw.v: the drawing of everything
      as lists of calls on the back buffer; DrawSpec.v: the screen shows at a point the
      window that a click there reaches, a terminal draws in its box, and clicks in the
      editor, the file grid and on links reach what is drawn there.  GuiLoop.v: a turn
      of the loop composed of input, layout, frame and fetch, with the invariant of the
      windows after any number of turns.
    - Syscall.v, SyscallSpec.v: the system calls and the entry from the interrupt.
    - Userspace.v, UserspaceSpec.v: the library and the shell of [src/userspace] over a
      trap into any kernel; typing, directories and numbers, and what they do over the
      kernel of Syscall.v.

    ** What is assumed of other code

    Each is a class, with its laws stated as documented and an instance that satisfies
    them for the witnesses: the disk ([BlockDevice], [ReliableDevice]; RamDisk), the
    ATA protocol (AtaDrive.v, with simulated drives), DMA and the RTL8139
    ([Dma], [ReceiveRing], [TransmitRing]; simulated cards), the keyboard controller
    ([Controller]), smoltcp ([Smoltcp], [SmoltcpLaws],
    [ReceiveLaws]), embedded-tls ([Tls], [TlsLaws], [TlsSafe]), the interrupt controllers
    ([Pic8259]), the serial port ([Uart]) and the calling convention of compiled
    functions ([Compiled]).

    ** What is not modelled

    - The gradient of [drivers/graphics.rs], which is in [f32].
    - In the handlers coordinates do not wrap: they stay far below 2^31; in Draw.v they
      are taken modulo 2^32 when a call is made.
    - The record layer and the handshake of TLS: the embedded-tls crate.
    - Inline assembly, except the context switch and the interrupt entries, which run
      on registers and memory; TLB and cache maintenance.
    - aarch64 branches.
    - Interrupts that arrive while the kernel starts.
    - Lines printed on the console on the way, unless they are what a function returns.
      *)

From stdpp Require Export base tactics gmap list list_numbers strings.
From Stdlib Require Export ZArith Lia.

Declare Scope cotton_scope.
Delimit Scope cotton_scope with cotton.
#[export] Set Default Proof Using "Type".
#[global] Open Scope Z_scope.

(** ** Machine integers

    A w-bit unsigned integer of the source is a [Z] in [0, 2^w).  The kernel is
    built with [--release], where [+], [-] and [*] wrap; [wrap w] is that
    wrap-around and is written out wherever the source's operands can leave the
    range. *)

Definition wrap (w z : Z) : Z := z mod 2 ^ w.

Definition in_range (w z : Z) : Prop := 0 ≤ z < 2 ^ w.

#[export] Instance in_range_dec w z : Decision (in_range w z).
Proof. unfold in_range. apply _. Defined.

Definition u8 : Z → Z := wrap 8.
Definition u16 : Z → Z := wrap 16.
Definition u32 : Z → Z := wrap 32.
Definition u64 : Z → Z := wrap 64.

(** Rust's [!x] on a w-bit unsigned integer. *)
Definition not_w (w x : Z) : Z := Z.lxor x (Z.ones w).

(** Two's-complement reading of the low [w] bits ([as i8], [as i32]). *)
Definition to_signed (w x : Z) : Z :=
  let y := wrap w x in if y <? 2 ^ (w - 1) then y else y - 2 ^ w.

(** [saturating_sub] and [saturating_add] of unsigned integers. *)
Definition sat_sub (a b : Z) : Z := Z.max 0 (a - b).

(** ** Results

    [Result<T, &'static str>] of the source, plus the third outcome a call can
    have: the kernel is built with [panic = "abort"]. *)

Inductive res (A : Type) : Type :=
| Ok (a : A)
| Err (e : string)
| Panic.
Arguments Ok {A} a.
Arguments Err {A} e.
Arguments Panic {A}.

#[export] Instance res_eq_dec {A} `{EqDecision A} : EqDecision (res A).
Proof. solve_decision. Defined.

#[export] Instance Ok_inj {A} : Inj (=) (=) (@Ok A).
Proof. by intros a b [= ->]. Qed.

(** [opt.ok_or(e)] *)
Definition ok_or {A} (o : option A) (e : string) : res A :=
  match o with Some a => Ok a | None => Err e end.

(** [r.ok()] *)
Definition res_ok {A} (r : res A) : option A :=
  match r with Ok a => Some a | _ => None end.

#[export] Instance res_ret : MRet res := @Ok.
#[export] Instance res_bind : MBind res := λ _ _ f m,
  match m with Ok a => f a | Err e => Err e | Panic => Panic end.

(** A computation over a state [S]: what the source's [&mut self] methods that
    return a [Result] are.  An [Err] keeps the state reached so far, as an early
    return through [?] does. *)
Definition M (S A : Type) : Type := S → res A * S.

#[export] Instance M_ret {S} : MRet (M S) := λ _ a s, (Ok a, s).
#[export] Instance M_bind {S} : MBind (M S) := λ _ _ f m s,
  match m s with
  | (Ok a, s') => f a s'
  | (Err e, s') => (Err e, s')
  | (Panic, s') => (Panic, s')
  end.

Definition m_get {S} : M S S := λ s, (Ok s, s).
Definition m_modify {S} (f : S → S) : M S unit := λ s, (Ok tt, f s).
Definition m_fail {S A} (e : string) : M S A := λ s, (Err e, s).
Definition m_panic {S A} : M S A := λ s, (Panic, s).
Definition m_lift {S A} (r : res A) : M S A := λ s, (r, s).

(** [let _ = m;]: the error is dropped, the state it left is not. *)
Definition m_ignore {S A} (m : M S A) : M S unit := λ s,
  match m s with
  | (Ok _, s') => (Ok tt, s')
  | (Err _, s') => (Ok tt, s')
  | (Panic, s') => (Panic, s')
  end.

Definition m_guard {S} (b : bool) (e : string) : M S unit :=
  if b then mret tt else m_fail e.

(** ** Loops

    [for i in lo..hi] over a state, over a state with an early [return], and
    with a fallible body. *)

Fixpoint iter_from {S} (n : nat) (i : Z) (f : Z → S → S) (s : S) : S :=
  match n with
  | O => s
  | S n' => iter_from n' (i + 1) f (f i s)
  end.

Definition for_range {S} (lo hi : Z) (f : Z → S → S) (s : S) : S :=
  iter_from (Z.to_nat (hi - lo)) lo f s.

(** The body returns [Some r] to leave the enclosing function with [r]. *)
Fixpoint iter_ret {S R} (n : nat) (i : Z) (f : Z → S → option R * S) (s : S)
    : option R * S :=
  match n with
  | O => (None, s)
  | S n' =>
      match f i s with
      | (Some r, s') => (Some r, s')
      | (None, s') => iter_ret n' (i + 1) f s'
      end
  end.

Definition for_ret {S R} (lo hi : Z) (f : Z → S → option R * S) (s : S)
    : option R * S :=
  iter_ret (Z.to_nat (hi - lo)) lo f s.

Fixpoint iter_m {S} (n : nat) (i : Z) (f : Z → M S unit) : M S unit :=
  match n with
  | O => mret tt
  | S n' => f i ;; iter_m n' (i + 1) f
  end.

Definition for_m {S} (lo hi : Z) (f : Z → M S unit) : M S unit :=
  iter_m (Z.to_nat (hi - lo)) lo f.

Fixpoint iter_list {S A} (l : list A) (f : A → S → S) (s : S) : S :=
  match l with
  | [] => s
  | x :: l' => iter_list l' f (f x s)
  end.

(** The first index of [lo..hi] with [p]. *)
Fixpoint find_from (n : nat) (i : Z) (p : Z → bool) : option Z :=
  match n with
  | O => None
  | S n' => if p i then Some i else find_from n' (i + 1) p
  end.

Definition find_range (lo hi : Z) (p : Z → bool) : option Z :=
  find_from (Z.to_nat (hi - lo)) lo p.

(** How many indices of [lo..lo+n] satisfy [p]. *)
Fixpoint count_from (n : nat) (i : Z) (p : Z → bool) : Z :=
  match n with
  | O => 0
  | S n' => (if p i then 1 else 0) + count_from n' (i + 1) p
  end.

Definition count_range (lo hi : Z) (p : Z → bool) : Z :=
  count_from (Z.to_nat (hi - lo)) lo p.

(** ** Fixed-size arrays

    [[T; N]] initialised to one value, as a finite map of the cells written
    since: constant-size statics of a megabyte stay cheap to evaluate.  Reads
    and writes are guarded by the callers exactly where the source's are. *)

Record arr (A : Type) : Type := Arr {
  arr_len : Z;
  arr_dflt : A;
  arr_map : gmap Z A;
}.
Arguments Arr {A} _ _ _.
Arguments arr_len {A} _.
Arguments arr_dflt {A} _.
Arguments arr_map {A} _.

Definition arr_new {A} (n : Z) (x : A) : arr A := Arr n x ∅.

Definition arr_get {A} (a : arr A) (i : Z) : A := default (arr_dflt a) (arr_map a !! i).

Definition arr_set {A} (a : arr A) (i : Z) (x : A) : arr A :=
  Arr (arr_len a) (arr_dflt a) (<[i := x]> (arr_map a)).

(** [for x in a.iter_mut() { *x = v }] *)
Definition arr_fill {A} (a : arr A) (x : A) : arr A := Arr (arr_len a) x ∅.

(** ** Bits of a byte *)

(** [byte & (1 << i) != 0] *)
Definition bit_on (byte i : Z) : bool := negb (Z.land byte (Z.shiftl 1 i) =? 0).
(** [byte | (1 << i)] *)
Definition bit_set (byte i : Z) : Z := Z.lor byte (Z.shiftl 1 i).
(** [byte & !(1 << i)] on a [u8] *)
Definition bit_clear (byte i : Z) : Z := Z.land byte (not_w 8 (Z.shiftl 1 i)).

(** ** Automation *)

Create HintDb cotton discriminated.
Create Rewrite HintDb cotton_rw.

(** Split a boolean test of the source into its two cases, with the [Prop] each
    decides. *)
Ltac bdestruct_ltb :=
  match goal with
  | |- context [?a <? ?b] => destruct (Z.ltb_spec a b)
  | |- context [?a <=? ?b] => destruct (Z.leb_spec a b)
  | |- context [?a =? ?b] => destruct (Z.eqb_spec a b)
  end.

Ltac bool_hyps :=
  repeat match goal with
  | H : (_ <? _) = true |- _ => apply Z.ltb_lt in H
  | H : (_ <? _) = false |- _ => apply Z.ltb_ge in H
  | H : (_ <=? _) = true |- _ => apply Z.leb_le in H
  | H : (_ <=? _) = false |- _ => apply Z.leb_gt in H
  | H : (_ =? _) = true |- _ => apply Z.eqb_eq in H
  | H : (_ =? _) = false |- _ => apply Z.eqb_neq in H
  | H : negb _ = true |- _ => apply negb_true_iff in H
  | H : negb _ = false |- _ => apply negb_false_iff in H
  | H : _ && _ = true |- _ => apply andb_true_iff in H as [??]
  | H : _ || _ = false |- _ => apply orb_false_iff in H as [??]
  end.

(** Linear arithmetic with division and modulo by constants. *)
Ltac zdiv := Z.to_euclidean_division_equations; lia.

(** ** Lemmas on machine integers *)

Lemma wrap_small w z : in_range w z → wrap w z = z.
Proof. unfold in_range, wrap. apply Z.mod_small. Qed.

Lemma wrap_range w z : 0 ≤ w → in_range w (wrap w z).
Proof. intros. apply Z.mod_pos_bound. apply Z.pow_pos_nonneg; lia. Qed.

Lemma u64_small z : 0 ≤ z < 2 ^ 64 → u64 z = z.
Proof. apply wrap_small. Qed.

Lemma u64_range z : 0 ≤ u64 z < 2 ^ 64.
Proof. apply (wrap_range 64). lia. Qed.

Lemma wrap_land w z : 0 ≤ w → wrap w z = Z.land z (Z.ones w).
Proof. intros. symmetry. by apply Z.land_ones. Qed.

Lemma to_signed_range w x : 0 < w → - 2 ^ (w - 1) ≤ to_signed w x < 2 ^ (w - 1).
Proof.
  intros Hw. unfold to_signed, wrap.
  assert (2 ^ w = 2 * 2 ^ (w - 1)) as E by (rewrite <- Z.pow_succ_r by lia; f_equal; lia).
  pose proof (Z.mod_pos_bound x (2 ^ w) ltac:(lia)).
  bdestruct_ltb; lia.
Qed.

(** ** Lemmas on bits *)

Lemma not_w_testbit w x n :
  0 ≤ n < w → Z.testbit (not_w w x) n = negb (Z.testbit x n).
Proof.
  intros. unfold not_w. rewrite Z.lxor_spec, Z.ones_spec_low by lia. by rewrite xorb_true_r.
Qed.

Lemma shiftl_1_testbit i n : 0 ≤ i → Z.testbit (Z.shiftl 1 i) n = bool_decide (n = i).
Proof.
  intros Hi. rewrite Z.shiftl_1_l.
  destruct (decide (n = i)) as [->|Hne].
  - rewrite Z.pow2_bits_true by lia. by rewrite bool_decide_eq_true_2.
  - rewrite Z.pow2_bits_false by congruence. by rewrite bool_decide_eq_false_2.
Qed.

Lemma bit_on_testbit b i : 0 ≤ i → bit_on b i = Z.testbit b i.
Proof.
  intros Hi. unfold bit_on. destruct (Z.eqb_spec (Z.land b (Z.shiftl 1 i)) 0) as [E|E]; simpl.
  - apply (f_equal (λ x, Z.testbit x i)) in E.
    rewrite Z.land_spec, Z.bits_0, shiftl_1_testbit, bool_decide_eq_true_2, andb_true_r in E by done.
    done.
  - destruct (Z.testbit b i) eqn:Hb; [done|]. exfalso. apply E.
    apply Z.bits_inj'. intros n Hn. rewrite Z.land_spec, Z.bits_0, shiftl_1_testbit by done.
    case_bool_decide; subst; [by rewrite Hb|by rewrite andb_false_r].
Qed.

Lemma bit_set_testbit b i n :
  0 ≤ i → Z.testbit (bit_set b i) n = bool_decide (n = i) || Z.testbit b n.
Proof. intros. unfold bit_set. by rewrite Z.lor_spec, shiftl_1_testbit, orb_comm. Qed.

Lemma bit_clear_testbit b i n :
  0 ≤ i → 0 ≤ n < 8 →
  Z.testbit (bit_clear b i) n = negb (bool_decide (n = i)) && Z.testbit b n.
Proof.
  intros. unfold bit_clear.
  rewrite Z.land_spec, not_w_testbit, shiftl_1_testbit, andb_comm; done.
Qed.

(** Reading one bit of the byte array after setting or clearing one. *)
Lemma bit_on_set b i j :
  0 ≤ i → 0 ≤ j → bit_on (bit_set b i) j = bool_decide (j = i) || bit_on b j.
Proof. intros. rewrite !bit_on_testbit by done. by apply bit_set_testbit. Qed.

Lemma bit_on_clear b i j :
  0 ≤ i → 0 ≤ j < 8 → bit_on (bit_clear b i) j = negb (bool_decide (j = i)) && bit_on b j.
Proof. intros. rewrite !bit_on_testbit by lia. apply bit_clear_testbit; lia. Qed.

Lemma lxor_range a b : 0 ≤ a < 2 ^ 64 → 0 ≤ b < 2 ^ 64 → 0 ≤ Z.lxor a b < 2 ^ 64.
Proof.
  intros Ha Hb. assert (0 ≤ Z.lxor a b) by (apply Z.lxor_nonneg; lia). split; [done|].
  destruct (decide (Z.lxor a b = 0)) as [->|Hne]; [lia|]. apply Z.log2_lt_pow2; [lia|].
  pose proof (Z.log2_lxor a b ltac:(lia) ltac:(lia)) as Hl.
  assert (∀ z, 0 ≤ z < 2 ^ 64 → Z.log2 z < 64) as Hlog.
  { intros z Hz. destruct (decide (z = 0)) as [->|]; [done|]. apply Z.log2_lt_pow2; lia. }
  pose proof (Hlog a Ha). pose proof (Hlog b Hb). lia.
Qed.

(** Disjoint fields of a word add up. *)
Lemma lor_shiftl a b k : 0 ≤ k → 0 ≤ a < 2 ^ k → Z.lor a (Z.shiftl b k) = a + b * 2 ^ k.
Proof.
  intros Hk Ha. rewrite <-Z.shiftl_mul_pow2 by done.
  assert (Z.land a (Z.shiftl b k) = 0) as H0.
  { apply Z.bits_inj'. intros n Hn. rewrite Z.land_spec, Z.shiftl_spec, Z.bits_0 by done.
    destruct (Z.lt_ge_cases n k); [rewrite (Z.testbit_neg_r b) by lia; apply andb_false_r|].
    destruct (decide (a = 0)) as [->|]; [by rewrite Z.bits_0|].
    rewrite (Z.bits_above_log2 a); [done|lia|]. apply Z.log2_lt_pow2; [lia|].
    apply (Z.lt_le_trans _ (2 ^ k)); [lia|]. by apply Z.pow_le_mono_r. }
  rewrite <-Z.lxor_lor by done. symmetry. by apply Z.add_nocarry_lxor.
Qed.

Lemma arr_get_set_eq {A} (a : arr A) i x : arr_get (arr_set a i x) i = x.
Proof. unfold arr_get, arr_set; simpl. by rewrite lookup_insert_eq. Qed.

Lemma arr_get_set_ne {A} (a : arr A) i j x : i ≠ j → arr_get (arr_set a i x) j = arr_get a j.
Proof. intros. unfold arr_get, arr_set; simpl. by rewrite lookup_insert_ne. Qed.

Lemma arr_get_set {A} (a : arr A) i j x :
  arr_get (arr_set a i x) j = if decide (i = j) then x else arr_get a j.
Proof. destruct (decide _) as [->|]; [apply arr_get_set_eq|by apply arr_get_set_ne]. Qed.

Lemma arr_get_fill {A} (a : arr A) x i : arr_get (arr_fill a x) i = x.
Proof. unfold arr_get, arr_fill; simpl. by rewrite lookup_empty. Qed.

Lemma arr_get_new {A} n (x : A) i : arr_get (arr_new n x) i = x.
Proof. unfold arr_get, arr_new; simpl. by rewrite lookup_empty. Qed.

(** ** Lemmas on loops *)

Lemma iter_from_ind {S} (P : Z → S → Prop) (f : Z → S → S) n :
  ∀ i s, P i s → (∀ j s, i ≤ j < i + Z.of_nat n → P j s → P (j + 1) (f j s)) →
  P (i + Z.of_nat n) (iter_from n i f s).
Proof.
  induction n as [|n IH]; intros i s H0 Hstep; simpl.
  - by rewrite Z.add_0_r.
  - replace (i + Z.of_nat (Datatypes.S n)) with ((i + 1) + Z.of_nat n) by lia.
    apply IH; [apply Hstep; [lia|done]|]. intros j s' Hj. apply Hstep. lia.
Qed.

(** The loop rule: an invariant indexed by the loop variable. *)
Lemma for_range_ind {S} (P : Z → S → Prop) (f : Z → S → S) lo hi s :
  lo ≤ hi → P lo s → (∀ j s, lo ≤ j < hi → P j s → P (j + 1) (f j s)) →
  P hi (for_range lo hi f s).
Proof.
  intros Hle H0 Hstep. unfold for_range.
  replace hi with (lo + Z.of_nat (Z.to_nat (hi - lo))) at 1 by lia.
  apply iter_from_ind; [done|]. intros j s' Hj. apply Hstep. lia.
Qed.

(** The same for an invariant that does not mention the loop variable; the
    range may then be empty in either direction. *)
Lemma for_range_inv {S} (P : S → Prop) (f : Z → S → S) lo hi s :
  P s → (∀ j s, lo ≤ j < hi → P s → P (f j s)) → P (for_range lo hi f s).
Proof.
  intros H0 Hstep. destruct (Z.le_ge_cases lo hi).
  - by apply (for_range_ind (λ _, P)).
  - unfold for_range. by replace (Z.to_nat (hi - lo)) with O by lia.
Qed.

Lemma for_range_empty {S} (f : Z → S → S) lo hi s : hi ≤ lo → for_range lo hi f s = s.
Proof. intros. unfold for_range. by replace (Z.to_nat (hi - lo)) with O by lia. Qed.

Lemma for_range_step {S} (f : Z → S → S) lo hi s :
  lo < hi → for_range lo hi f s = for_range (lo + 1) hi f (f lo s).
Proof.
  intros. unfold for_range.
  by replace (Z.to_nat (hi - lo)) with (Datatypes.S (Z.to_nat (hi - (lo + 1)))) by lia.
Qed.

Lemma find_from_Some n : ∀ i p k, find_from n i p = Some k →
  i ≤ k < i + Z.of_nat n ∧ p k = true ∧ ∀ j, i ≤ j < k → p j = false.
Proof.
  induction n as [|n IH]; intros i p k H; simpl in *; [done|].
  destruct (p i) eqn:Hp; simplify_eq.
  - split_and!; [lia|lia|done|intros; lia].
  - apply IH in H as (?&?&Hlt). split_and!; [lia|lia|done|].
    intros j Hj. destruct (decide (j = i)) as [->|]; [done|]. apply Hlt. lia.
Qed.

Lemma find_from_None n : ∀ i p, find_from n i p = None →
  ∀ j, i ≤ j < i + Z.of_nat n → p j = false.
Proof.
  induction n as [|n IH]; intros i p H j Hj; simpl in *; [lia|].
  destruct (p i) eqn:Hp; simplify_eq.
  destruct (decide (j = i)) as [->|]; [done|]. eapply IH; [done|lia].
Qed.

Lemma find_range_Some lo hi p k : find_range lo hi p = Some k →
  lo ≤ k < hi ∧ p k = true ∧ ∀ j, lo ≤ j < k → p j = false.
Proof.
  intros (?&?&?)%find_from_Some. split_and!; [lia| lia | done | done].
Qed.

Lemma find_range_None lo hi p : find_range lo hi p = None →
  ∀ j, lo ≤ j < hi → p j = false.
Proof. intros H j Hj. eapply find_from_None; [done|lia]. Qed.

Lemma find_range_Some_iff lo hi p k :
  lo ≤ k < hi → p k = true → (∀ j, lo ≤ j < k → p j = false) → find_range lo hi p = Some k.
Proof.
  intros Hk Hp Hlt. destruct (find_range lo hi p) as [k'|] eqn:E.
  - apply find_range_Some in E as (?&?&Hlt'). f_equal.
    destruct (Z.lt_total k k') as [|[|]]; [|done|].
    + rewrite Hlt' in Hp; [done|lia].
    + rewrite Hlt in H0; [done|lia].
  - eapply find_range_None in E; [|exact Hk]. congruence.
Qed.

(** A [for] loop whose body either leaves with a result at the first index that
    satisfies [p] or changes nothing is a search. *)
Lemma for_ret_find {S R} (p : Z → bool) (g : Z → S → R * S) (f : Z → S → option R * S) lo hi s :
  (∀ i, lo ≤ i < hi → f i s = if p i then (Some (g i s).1, (g i s).2) else (None, s)) →
  for_ret lo hi f s =
    match find_range lo hi p with
    | Some i => (Some (g i s).1, (g i s).2)
    | None => (None, s)
    end.
Proof.
  unfold for_ret, find_range. intros Hf.
  assert (∀ i, lo ≤ i < lo + Z.of_nat (Z.to_nat (hi - lo)) →
    f i s = if p i then (Some (g i s).1, (g i s).2) else (None, s)) as Hf'.
  { intros. apply Hf. lia. }
  clear Hf. revert Hf'. generalize (Z.to_nat (hi - lo)) as n. intros n. clear hi. revert lo.
  induction n as [|n IH]; intros lo Hf; simpl; [done|].
  rewrite Hf by lia. destruct (p lo); [done|]. apply IH. intros. apply Hf. lia.
Qed.

Lemma iter_ret_ind {S R} (P : Z → S → Prop) (Q : R → S → Prop)
    (f : Z → S → option R * S) n : ∀ lo s,
  P lo s →
  (∀ i s, lo ≤ i < lo + Z.of_nat n → P i s →
    match f i s with (Some r, s') => Q r s' | (None, s') => P (i + 1) s' end) →
  match iter_ret n lo f s with
  | (Some r, s') => Q r s' | (None, s') => P (lo + Z.of_nat n) s'
  end.
Proof.
  induction n as [|n IH]; intros lo s HP Hf; simpl.
  - by rewrite Z.add_0_r.
  - specialize (Hf lo s ltac:(lia) HP) as Hlo. destruct (f lo s) as [[r|] s']; [done|].
    replace (lo + Z.of_nat (Datatypes.S n)) with ((lo + 1) + Z.of_nat n) by lia.
    apply IH; [done|]. intros. apply Hf; [lia|done].
Qed.

(** The rule of a [for] loop that may leave early: [P] while it runs, [Q] for the
    result it leaves with. *)
Lemma for_ret_ind {S R} (P : Z → S → Prop) (Q : R → S → Prop)
    (f : Z → S → option R * S) lo hi s :
  lo ≤ hi → P lo s →
  (∀ i s, lo ≤ i < hi → P i s →
    match f i s with (Some r, s') => Q r s' | (None, s') => P (i + 1) s' end) →
  match for_ret lo hi f s with (Some r, s') => Q r s' | (None, s') => P hi s' end.
Proof.
  intros Hle HP Hf. unfold for_ret.
  pose proof (iter_ret_ind P Q f (Z.to_nat (hi - lo)) lo s HP) as H.
  replace (lo + Z.of_nat (Z.to_nat (hi - lo))) with hi in H by lia. by apply H.
Qed.

Lemma for_ret_empty {S R} (f : Z → S → option R * S) lo hi s :
  hi ≤ lo → for_ret lo hi f s = (None, s).
Proof. intros. unfold for_ret. by replace (Z.to_nat (hi - lo)) with O by lia. Qed.

(** ** Counting *)

Lemma count_from_ext n : ∀ i p q,
  (∀ j, i ≤ j < i + Z.of_nat n → p j = q j) → count_from n i p = count_from n i q.
Proof.
  induction n as [|n IH]; intros i p q H; simpl; [done|].
  rewrite (H i) by lia. f_equal. apply IH. intros. apply H. lia.
Qed.

Lemma count_from_bounds n : ∀ i p, 0 ≤ count_from n i p ≤ Z.of_nat n.
Proof.
  induction n as [|n IH]; intros i p; simpl; [lia|]. specialize (IH (i + 1) p).
  destruct (p i); lia.
Qed.

Lemma count_range_ext lo hi p q :
  (∀ j, lo ≤ j < hi → p j = q j) → count_range lo hi p = count_range lo hi q.
Proof. intros H. apply count_from_ext. intros. apply H. lia. Qed.

Lemma count_range_bounds lo hi p : lo ≤ hi → 0 ≤ count_range lo hi p ≤ hi - lo.
Proof. intros. unfold count_range. pose proof (count_from_bounds (Z.to_nat (hi - lo)) lo p). lia. Qed.

Lemma count_range_step lo hi p :
  lo < hi → count_range lo hi p = (if p lo then 1 else 0) + count_range (lo + 1) hi p.
Proof.
  intros. unfold count_range.
  by replace (Z.to_nat (hi - lo)) with (Datatypes.S (Z.to_nat (hi - (lo + 1)))) by lia.
Qed.

(** Turning one index off lowers the count by one. *)
Lemma count_range_off lo hi p q k :
  lo ≤ k < hi → p k = true → q k = false → (∀ j, lo ≤ j < hi → j ≠ k → p j = q j) →
  count_range lo hi p = count_range lo hi q + 1.
Proof.
  unfold count_range. intros Hk Hp Hq Hne.
  assert (∀ j, lo ≤ j < lo + Z.of_nat (Z.to_nat (hi - lo)) → j ≠ k → p j = q j) as Hne'.
  { intros. apply Hne; [lia|done]. }
  assert (lo ≤ k < lo + Z.of_nat (Z.to_nat (hi - lo))) as Hk' by lia.
  clear Hk Hne. revert Hk' Hne'. generalize (Z.to_nat (hi - lo)) as n. intros n. clear hi. revert lo.
  induction n as [|n IH]; intros lo Hk Hne; simpl; [lia|].
  destruct (decide (k = lo)) as [->|Hkl].
  - rewrite Hp, Hq, (count_from_ext n (lo + 1) p q); [lia|]. intros. apply Hne; lia.
  - rewrite (Hne lo) by lia. rewrite IH; [lia|lia|]. intros. apply Hne; [lia|done].
Qed.

Lemma count_range_pos lo hi p k : lo ≤ k < hi → p k = true → 0 < count_range lo hi p.
Proof.
  intros Hk Hp. set (q j := if decide (j = k) then false else p j).
  rewrite (count_range_off lo hi p q k); [|done|done| |].
  - pose proof (count_range_bounds lo hi q). lia.
  - unfold q. by rewrite decide_True.
  - intros. unfold q. by rewrite decide_False.
Qed.

Lemma count_range_zero lo hi p : (∀ j, lo ≤ j < hi → p j = false) → count_range lo hi p = 0.
Proof.
  unfold count_range. intros H.
  assert (∀ j, lo ≤ j < lo + Z.of_nat (Z.to_nat (hi - lo)) → p j = false) as H'.
  { intros. apply H. lia. }
  clear H. revert H'. generalize (Z.to_nat (hi - lo)) as n. intros n. clear hi. revert lo.
  induction n as [|n IH]; intros lo H; simpl; [done|].
  rewrite (H lo) by lia. rewrite IH; [done|]. intros. apply H. lia.
Qed.

(** Only the indices below [m] can satisfy [p]. *)
Lemma count_range_le lo hi m p :
  lo ≤ m → (∀ j, lo ≤ j < hi → p j = true → j < m) → count_range lo hi p ≤ m - lo.
Proof.
  unfold count_range. intros Hm H.
  assert (∀ j, lo ≤ j < lo + Z.of_nat (Z.to_nat (hi - lo)) → p j = true → j < m) as H'.
  { intros. apply H; [lia|done]. }
  clear H. revert H'. generalize (Z.to_nat (hi - lo)) as n. intros n. clear hi.
  revert lo Hm. induction n as [|n IH]; intros lo Hm H; simpl; [lia|].
  destruct (decide (lo = m)) as [->|].
  - destruct (p m) eqn:E; [apply H in E; lia|].
    rewrite (count_from_ext n (m + 1) p (λ _, false)).
    + clear. generalize (m + 1). induction n; intros; simpl; [lia|]. specialize (IHn (z + 1)). lia.
    + intros j Hj. destruct (p j) eqn:E'; [|done]. apply H in E'; lia.
  - pose proof (IH (lo + 1) ltac:(lia) ltac:(intros; apply H; [lia|done])). case_match; lia.
Qed.

(** ** Lemmas on the state monad *)

Lemma M_bind_Ok {S A B} (m : M S A) (f : A → M S B) s b s' :
  (m ≫= f) s = (Ok b, s') → ∃ a s1, m s = (Ok a, s1) ∧ f a s1 = (Ok b, s').
Proof.
  unfold mbind, M_bind. destruct (m s) as [[a| |] s1] eqn:E; intros H; simplify_eq. eauto.
Qed.

Lemma M_bind_run {S A B} (m : M S A) (f : A → M S B) s a s1 :
  m s = (Ok a, s1) → (m ≫= f) s = f a s1.
Proof. unfold mbind, M_bind. by intros ->. Qed.

Lemma M_ret_run {S A B} (a : A) (f : A → M S B) s : (mret a ≫= f) s = f a s.
Proof. done. Qed.

Lemma M_get_run {S B} (f : S → M S B) s : (m_get ≫= f) s = f s s.
Proof. done. Qed.

Lemma M_modify_run {S B} (g : S → S) (f : unit → M S B) s : (m_modify g ≫= f) s = f tt (g s).
Proof. done. Qed.

Lemma M_lift_run {S A B} (a : A) (f : A → M S B) s : (m_lift (Ok a) ≫= f) s = f a s.
Proof. done. Qed.

Lemma M_guard_run {S B} b e (f : unit → M S B) s : b = true → (m_guard b e ≫= f) s = f tt s.
Proof. by intros ->. Qed.

(** The rule of a loop with a fallible body: [P] while it runs, [Q] for the state an
    error leaves. *)
Lemma iter_m_ind {S} (P : Z → S → Prop) (Q : string → S → Prop) (f : Z → M S unit) n : ∀ lo s,
  P lo s →
  (∀ i s, lo ≤ i < lo + Z.of_nat n → P i s →
    match f i s with (Ok _, s') => P (i + 1) s' | (Err e, s') => Q e s' | (Panic, _) => False end) →
  match iter_m n lo f s with
  | (Ok _, s') => P (lo + Z.of_nat n) s' | (Err e, s') => Q e s' | (Panic, _) => False
  end.
Proof.
  induction n as [|n IH]; intros lo s HP Hf; cbn [iter_m].
  - by rewrite Z.add_0_r.
  - unfold mbind, M_bind. specialize (Hf lo s ltac:(lia) HP) as Hlo.
    destruct (f lo s) as [[[]|e|] s']; [|done|done].
    replace (lo + Z.of_nat (Datatypes.S n)) with ((lo + 1) + Z.of_nat n) by lia.
    apply IH; [done|]. intros. apply Hf; [lia|done].
Qed.

Lemma for_m_ind {S} (P : Z → S → Prop) (Q : string → S → Prop) (f : Z → M S unit) lo hi s :
  lo ≤ hi → P lo s →
  (∀ i s, lo ≤ i < hi → P i s →
    match f i s with (Ok _, s') => P (i + 1) s' | (Err e, s') => Q e s' | (Panic, _) => False end) →
  match for_m lo hi f s with
  | (Ok _, s') => P hi s' | (Err e, s') => Q e s' | (Panic, _) => False
  end.
Proof.
  intros Hle HP Hf. unfold for_m. pose proof (iter_m_ind P Q f (Z.to_nat (hi - lo)) lo s HP) as H.
  replace (lo + Z.of_nat (Z.to_nat (hi - lo))) with hi in H by lia. by apply H.
Qed.

Lemma for_m_empty {S} (f : Z → M S unit) lo hi s : hi ≤ lo → for_m lo hi f s = (Ok tt, s).
Proof. intros. unfold for_m. by replace (Z.to_nat (hi - lo)) with O by lia. Qed.

(** The rule when no turn of the loop fails. *)
Lemma for_m_ok {S} (P : Z → S → Prop) (f : Z → M S unit) lo hi s :
  lo ≤ hi → P lo s →
  (∀ i s, lo ≤ i < hi → P i s → ∃ s', f i s = (Ok tt, s') ∧ P (i + 1) s') →
  ∃ s', for_m lo hi f s = (Ok tt, s') ∧ P hi s'.
Proof.
  intros Hle HP Hf. pose proof (for_m_ind P (λ _ _, False) f lo hi s Hle HP) as G.
  assert (∀ i s, lo ≤ i < hi → P i s →
    match f i s with (Ok _, s') => P (i + 1) s' | (Err _, _) => False | (Panic, _) => False end) as Hf'.
  { intros i s1 Hi H1. destruct (Hf i s1 Hi H1) as (s2 & -> & H2). done. }
  specialize (G Hf'). destruct (for_m lo hi f s) as [[[]|e|] s']; [eauto|done|done].
Qed.

#[export] Hint Resolve u64_range : cotton.
#[export] Hint Rewrite @arr_get_set_eq @arr_get_fill @arr_get_new : cotton_rw.

Arguments bit_on : simpl never.
Arguments bit_set : simpl never.
Arguments bit_clear : simpl never.
Arguments arr_get : simpl never.
Arguments arr_set : simpl never.
Arguments for_range : simpl never.
Arguments for_ret : simpl never.
Arguments for_m : simpl never.
Arguments find_range : simpl never.
Arguments count_range : simpl never.
