(* ===== verification/Physical.v ===== *)
(** * Physical memory: [mm/mod.rs], [mm/physical.rs], [mm/heap.rs]

    The bitmap frame allocator, the boot memory map it is initialised from, the
    page arithmetic and the kernel heap's growth.  [alloc_inv] is the invariant
    of the allocator (free counter, total, next-free hint); [run_ops] replays a
    sequence of calls on the global allocator.  The last section is the interface
    the paging and process code sees: [FrameSource]. *)

From S2P Require Import Prelude.
From Stdlib Require Import Btauto.

(** ** Constants *)

Definition PAGE_SIZE : Z := 4096.
Definition PAGE_SHIFT : Z := 12.
Definition MAX_PHYSICAL_MEMORY : Z := 4 * 1024 * 1024 * 1024.
Definition MAX_PAGES : Z := MAX_PHYSICAL_MEMORY / PAGE_SIZE.
Definition BITMAP_SIZE : Z := MAX_PAGES / 8.
Definition HEAP_START : Z := 0x02000000.
Definition HEAP_SIZE : Z := 32 * 1024 * 1024.
Definition MAX_HEAP_SIZE : Z := 128 * 1024 * 1024.

(** ** Boot information *)

Inductive MemoryType : Type :=
| Available | Reserved | AcpiReclaimable | AcpiNvs | BadMemory
| Kernel | Bootloader | Framebuffer | PageTables.

#[export] Instance MemoryType_eq_dec : EqDecision MemoryType.
Proof. solve_decision. Defined.

Record MemoryMapEntry : Type := mkEntry {
  base : Z;
  length_ : Z;
  mem_type : MemoryType;
}.

(** The fields of [BootInfo] this component reads.  [memory_map] is [None] for a
    null pointer and otherwise the [memory_map_entries] entries it points to. *)
Record BootInfo : Type := mkBoot {
  memory_map : option (list MemoryMapEntry);
  kernel_start : Z;
  kernel_end : Z;
}.

(** [boot_info.memory_map.is_null() || boot_info.memory_map_entries == 0] *)
Definition no_memory_map (b : BootInfo) : bool :=
  match memory_map b with None | Some [] => true | Some _ => false end.

Definition map_entries (b : BootInfo) : list MemoryMapEntry := default [] (memory_map b).

Record MemoryStats : Type := mkStats {
  total_memory : Z;
  available_memory : Z;
  used_memory : Z;
  st_free_pages : Z;
  st_used_pages : Z;
}.

Definition MEMORY_STATS0 : MemoryStats := mkStats 0 0 0 0 0.

(** ** Page arithmetic *)

Definition page_align_down (addr : Z) : Z := Z.land addr (not_w 64 (PAGE_SIZE - 1)).
Definition page_align_up (addr : Z) : Z :=
  Z.land (u64 (u64 (addr + PAGE_SIZE) - 1)) (not_w 64 (PAGE_SIZE - 1)).
Definition addr_to_page (addr : Z) : Z := Z.shiftr addr PAGE_SHIFT.
Definition page_to_addr (page : Z) : Z := u64 (Z.shiftl page PAGE_SHIFT).

(** ** The memory map and the statistics *)

Definition parse_memory_map (b : BootInfo) (st : MemoryStats) : MemoryStats :=
  if no_memory_map b then
    mkStats (128 * 1024 * 1024) (64 * 1024 * 1024) (used_memory st) (st_free_pages st)
      (st_used_pages st)
  else
    iter_list (map_entries b) (λ e st,
      let st := mkStats (u64 (total_memory st + length_ e)) (available_memory st)
                  (used_memory st) (st_free_pages st) (st_used_pages st) in
      if decide (mem_type e = Available) then
        mkStats (total_memory st) (u64 (available_memory st + length_ e))
          (used_memory st) (st_free_pages st) (st_used_pages st)
      else st) st.

Definition update_stats (free used : Z) (st : MemoryStats) : MemoryStats :=
  mkStats (total_memory st) (available_memory st) (u64 (used * PAGE_SIZE)) free used.

(** ** The frame allocator *)

Record FrameAllocator : Type := mkFA {
  bitmap : arr Z;
  first_free : Z;
  total_pages : Z;
  free_pages : Z;
}.

Definition new : FrameAllocator := mkFA (arr_new BITMAP_SIZE 0xFF) 0 0 0.

Definition set_first_free (n : Z) (fa : FrameAllocator) : FrameAllocator :=
  mkFA (bitmap fa) n (total_pages fa) (free_pages fa).

Definition mark_allocated (page : Z) (fa : FrameAllocator) : FrameAllocator :=
  if MAX_PAGES <=? page then fa
  else
    let byte := page / 8 in
    let bit := page mod 8 in
    if negb (bit_on (arr_get (bitmap fa) byte) bit) then
      mkFA (arr_set (bitmap fa) byte (bit_set (arr_get (bitmap fa) byte) bit))
        (first_free fa) (total_pages fa)
        (if 0 <? free_pages fa then free_pages fa - 1 else free_pages fa)
    else fa.

Definition mark_free (page : Z) (fa : FrameAllocator) : FrameAllocator :=
  if MAX_PAGES <=? page then fa
  else
    let byte := page / 8 in
    let bit := page mod 8 in
    if bit_on (arr_get (bitmap fa) byte) bit then
      mkFA (arr_set (bitmap fa) byte (bit_clear (arr_get (bitmap fa) byte) bit))
        (first_free fa) (Z.max (total_pages fa) (page + 1)) (free_pages fa + 1)
    else fa.

Definition is_allocated (fa : FrameAllocator) (page : Z) : bool :=
  if MAX_PAGES <=? page then true
  else bit_on (arr_get (bitmap fa) (page / 8)) (page mod 8).

(** One entry of the memory map: its whole pages below 4 GB become free. *)
Definition init_entry (e : MemoryMapEntry) (fa : FrameAllocator) : FrameAllocator :=
  if decide (mem_type e = Available) then
    let start := page_align_up (base e) / PAGE_SIZE in
    let end_ := page_align_down (u64 (base e + length_ e)) / PAGE_SIZE in
    for_range start end_ (λ page fa,
      if page <? MAX_PAGES then mark_free page fa else fa) fa
  else fa.

(** [init] in the source's order: everything allocated, the available memory
    freed, the reserved ranges taken back, then the hint and the statistics. *)
Definition init_available (b : BootInfo) (fa : FrameAllocator) : FrameAllocator :=
  let fa := mkFA (arr_fill (bitmap fa) 0xFF) (first_free fa) (total_pages fa) (free_pages fa) in
  if no_memory_map b then
    for_range (0x100000 / PAGE_SIZE) (0x8000000 / PAGE_SIZE) mark_free fa
  else iter_list (map_entries b) init_entry fa.

Definition init_reserve (b : BootInfo) (fa : FrameAllocator) : FrameAllocator :=
  let fa := for_range 0 (0x100000 / PAGE_SIZE) mark_allocated fa in
  let kernel_start := kernel_start b / PAGE_SIZE in
  let kernel_end := u64 (Z.max (kernel_end b) 0x800000 + PAGE_SIZE - 1) / PAGE_SIZE in
  let fa :=
    if 0 <? kernel_start then for_range kernel_start kernel_end mark_allocated fa else fa in
  for_range (HEAP_START / PAGE_SIZE) ((HEAP_START + HEAP_SIZE) / PAGE_SIZE) mark_allocated fa.

Definition init_hint (fa : FrameAllocator) : FrameAllocator :=
  snd (for_ret 0 MAX_PAGES (λ i fa,
    if negb (is_allocated fa i) then (Some tt, set_first_free i fa) else (None, fa))
    (set_first_free 0 fa)).

Definition FA_init (b : BootInfo) (fa : FrameAllocator) (st : MemoryStats)
    : FrameAllocator * MemoryStats :=
  let fa := init_hint (init_reserve b (init_available b fa)) in
  (fa, update_stats (free_pages fa) (u64 (total_pages fa - free_pages fa)) st).

(** The body both loops of [alloc] share. *)
Definition alloc_body (page : Z) (fa : FrameAllocator) : option Z * FrameAllocator :=
  if negb (is_allocated fa page) then
    (Some (page * PAGE_SIZE), set_first_free (page + 1) (mark_allocated page fa))
  else (None, fa).

Definition alloc (fa : FrameAllocator) : option Z * FrameAllocator :=
  match for_ret (first_free fa) MAX_PAGES alloc_body fa with
  | (Some addr, fa) => (Some addr, fa)
  | (None, fa) => for_ret 0 (first_free fa) alloc_body fa
  end.

(** The loop of [alloc_contiguous] carries its locals [start] and [found]. *)
Definition contiguous_body (count page : Z) (s : FrameAllocator * Z * Z)
    : option Z * (FrameAllocator * Z * Z) :=
  let '(fa, start, found) := s in
  if negb (is_allocated fa page) then
    let start := if found =? 0 then page else start in
    let found := found + 1 in
    if found =? count then
      (Some (start * PAGE_SIZE),
        (for_range start (start + count) mark_allocated fa, start, found))
    else (None, (fa, start, found))
  else (None, (fa, start, 0)).

Definition alloc_contiguous (count : Z) (fa : FrameAllocator) : option Z * FrameAllocator :=
  if count =? 0 then (None, fa)
  else if count =? 1 then alloc fa
  else
    let start := first_free fa in
    match for_ret start MAX_PAGES (contiguous_body count) (fa, start, 0) with
    | (r, (fa, _, _)) => (r, fa)
    end.

Definition free (addr : Z) (fa : FrameAllocator) : FrameAllocator :=
  let page := addr / PAGE_SIZE in
  if (page <? MAX_PAGES) && is_allocated fa page then
    let fa := mark_free page fa in
    if page <? first_free fa then set_first_free page fa else fa
  else fa.

Definition free_contiguous (addr count : Z) (fa : FrameAllocator) : FrameAllocator :=
  let start_page := addr / PAGE_SIZE in
  let fa := for_range 0 count (λ i fa,
    let page := start_page + i in
    if page <? MAX_PAGES then mark_free page fa else fa) fa in
  if start_page <? first_free fa then set_first_free start_page fa else fa.

Definition free_count (fa : FrameAllocator) : Z := free_pages fa.
Definition total_count (fa : FrameAllocator) : Z := total_pages fa.

Definition reserve_range (start end_ : Z) (fa : FrameAllocator) : FrameAllocator :=
  for_range (start / PAGE_SIZE) (u64 (end_ + PAGE_SIZE - 1) / PAGE_SIZE) mark_allocated fa.

(** [stats()]: total, used and free bytes. *)
Definition stats (fa : FrameAllocator) : Z * Z * Z :=
  let total := total_count fa * PAGE_SIZE in
  let free := free_count fa * PAGE_SIZE in
  (total, u64 (total - free), free).

(** ** The kernel heap

    The linked-list allocator behind it is a dependency; what the source keeps
    itself is [HEAP_END]. *)

Record Heap : Type := mkHeap { HEAP_END : Z }.

Definition heap_init : Heap := mkHeap (HEAP_START + HEAP_SIZE).

Definition heap_size (h : Heap) : Z := u64 (HEAP_END h - HEAP_START).

Definition extend_heap (additional : Z) : M (Heap * FrameAllocator) unit := λ '(h, fa),
  if MAX_HEAP_SIZE <? u64 (u64 (HEAP_END h - HEAP_START) + additional)
  then (Err "Maximum heap size exceeded", (h, fa))
  else
    let num_pages := u64 (additional + PAGE_SIZE - 1) / PAGE_SIZE in
    let grow := u64 (num_pages * PAGE_SIZE) in
    let fa := reserve_range (HEAP_END h) (u64 (HEAP_END h + grow)) fa in
    (Ok tt, (mkHeap (u64 (HEAP_END h + grow)), fa)).

(** ** Calls on the global allocator *)

Inductive op : Type :=
| OpAlloc                          (* alloc_frame *)
| OpAllocFrames (count : Z)        (* alloc_frames *)
| OpFree (addr : Z)                (* free_frame *)
| OpFreeFrames (addr count : Z)    (* free_frames *)
| OpReserve (start end_ : Z).      (* reserve_range *)

(** One call, and the physical range [(address, frames)] it hands out. *)
Definition run_op (o : op) (fa : FrameAllocator) : option (Z * Z) * FrameAllocator :=
  match o with
  | OpAlloc => let '(r, fa) := alloc fa in ((λ a, (a, 1)) <$> r, fa)
  | OpAllocFrames n => let '(r, fa) := alloc_contiguous n fa in ((λ a, (a, n)) <$> r, fa)
  | OpFree a => (None, free a fa)
  | OpFreeFrames a n => (None, free_contiguous a n fa)
  | OpReserve s e => (None, reserve_range s e fa)
  end.

Fixpoint run_ops (os : list op) (fa : FrameAllocator) : list (Z * Z) * FrameAllocator :=
  match os with
  | [] => ([], fa)
  | o :: os =>
      let '(r, fa) := run_op o fa in
      let '(rs, fa) := run_ops os fa in
      (option_list r ++ rs, fa)
  end.

(** ** Specification vocabulary *)

Definition is_free (fa : FrameAllocator) (p : Z) : bool := negb (is_allocated fa p).

(** The free counter and the total are what the bitmap says. *)
Definition count_ok (fa : FrameAllocator) : Prop :=
  free_pages fa = count_range 0 MAX_PAGES (is_free fa) ∧
  0 ≤ total_pages fa ≤ MAX_PAGES ∧
  ∀ p, 0 ≤ p → is_free fa p = true → p < total_pages fa.

(** Every page below the hint is allocated. *)
Definition hint_ok (fa : FrameAllocator) : Prop :=
  0 ≤ first_free fa ≤ MAX_PAGES ∧ ∀ p, 0 ≤ p < first_free fa → is_allocated fa p = true.

Definition alloc_inv (fa : FrameAllocator) : Prop := count_ok fa ∧ hint_ok fa.

(** The heap's end is page aligned, between the initial and the maximal size. *)
Definition heap_ok (h : Heap) : Prop :=
  HEAP_START + HEAP_SIZE ≤ HEAP_END h ≤ HEAP_START + MAX_HEAP_SIZE ∧
  HEAP_END h mod PAGE_SIZE = 0.

(** The pages [start, start+count) are all free. *)
Definition run_free (fa : FrameAllocator) (start count : Z) : Prop :=
  ∀ p, start ≤ p < start + count → is_allocated fa p = false.

(** What a request for [count >= 1] frames returns: the lowest free run, which
    is then allocated, or nothing when no run of that length is free. *)
Definition alloc_result (fa : FrameAllocator) (count : Z) (r : option Z) (fa' : FrameAllocator)
    : Prop :=
  match r with
  | Some a => ∃ s, a = s * PAGE_SIZE ∧ 0 ≤ s ∧ s + count ≤ MAX_PAGES ∧ run_free fa s count ∧
      (∀ s', 0 ≤ s' < s → ¬ run_free fa s' count) ∧
      (∀ q, 0 ≤ q →
        is_allocated fa' q = bool_decide (s ≤ q < s + count) || is_allocated fa q)
  | None => fa' = fa ∧ ∀ s, 0 ≤ s → ¬ run_free fa s count
  end.

(** The invariant of the loop in [alloc_contiguous] before it looks at page [i]:
    the last [found] pages are free, the run cannot be extended downwards, and no
    run of [count] pages ends at or before [i]. *)
Definition contiguous_inv (fa : FrameAllocator) (count i : Z) (s : FrameAllocator * Z * Z) : Prop :=
  let '(fa', start, found) := s in
  fa' = fa ∧ 0 ≤ found < count ∧ (0 < found → start = i - found) ∧
  first_free fa ≤ i - found ∧ run_free fa (i - found) found ∧
  (i - found = first_free fa ∨ is_allocated fa (i - found - 1) = true) ∧
  ∀ t, 0 ≤ t → t + count ≤ i → ¬ run_free fa t count.

(** A call whose arguments are machine words and, for the frees, whose frames
    lie outside [lo, hi) pages. *)
Definition op_ok (lo hi : Z) (o : op) : Prop :=
  match o with
  | OpAlloc => True
  | OpAllocFrames n => 0 ≤ n
  | OpFree a => 0 ≤ a ∧ ¬ (lo ≤ a / PAGE_SIZE < hi)
  | OpFreeFrames a n =>
      0 ≤ a ∧ 0 ≤ n ∧ (hi ≤ a / PAGE_SIZE ∨ a / PAGE_SIZE + n ≤ lo)
  | OpReserve s e => 0 ≤ s ∧ 0 ≤ e
  end.

Definition is_free_op (o : op) : bool :=
  match o with OpFree _ | OpFreeFrames _ _ => true | _ => false end.

(** The page numbers of a physical range. *)
Definition range_pages (r : Z * Z) : list Z := seqZ (r.1 / PAGE_SIZE) r.2.

(** Callers that only free what they were handed: the allocator together with the
    set of pages its callers hold. *)
Definition pages_of (r : Z * Z) : gset Z := list_to_set (range_pages r).

Inductive own_step : FrameAllocator * gset Z → op → option (Z * Z) → FrameAllocator * gset Z → Prop :=
| own_alloc fa own o r fa' :
    is_free_op o = false → op_ok 0 0 o → run_op o fa = (r, fa') →
    own_step (fa, own) o r (fa', from_option pages_of ∅ r ∪ own)
| own_free fa own a :
    0 ≤ a → pages_of (a, 1) ⊆ own →
    own_step (fa, own) (OpFree a) None (free a fa, own ∖ pages_of (a, 1))
| own_free_frames fa own a n :
    0 ≤ a → 0 ≤ n → pages_of (a, n) ⊆ own →
    own_step (fa, own) (OpFreeFrames a n) None (free_contiguous a n fa, own ∖ pages_of (a, n)).

(** The states the callers can reach after [init] on the boot information. *)
Inductive own_reachable (b : BootInfo) (st : MemoryStats) : FrameAllocator * gset Z → Prop :=
| own_boot : own_reachable b st ((FA_init b new st).1, ∅)
| own_next s o r s' : own_reachable b st s → own_step s o r s' → own_reachable b st s'.

(** Held pages and pages the boot did not free are marked allocated. *)
Definition own_inv (b : BootInfo) (st : MemoryStats) (s : FrameAllocator * gset Z) : Prop :=
  alloc_inv s.1 ∧
  (∀ p, p ∈ s.2 → is_allocated s.1 p = true ∧ 0 ≤ p ∧ is_free (FA_init b new st).1 p = true) ∧
  (∀ p, 0 ≤ p → is_free (FA_init b new st).1 p = false → is_allocated s.1 p = true).

(** The whole pages of a memory-map entry, below 4 GB. *)
Definition entry_covers (p : Z) (e : MemoryMapEntry) : bool :=
  bool_decide (mem_type e = Available) &&
  bool_decide (page_align_up (base e) / PAGE_SIZE ≤ p
               < page_align_down (u64 (base e + length_ e)) / PAGE_SIZE) &&
  bool_decide (p < MAX_PAGES).

(** What the boot loader reports as usable RAM. *)
Definition boot_available (b : BootInfo) (p : Z) : bool :=
  if no_memory_map b then bool_decide (0x100000 / PAGE_SIZE ≤ p < 0x8000000 / PAGE_SIZE)
  else existsb (entry_covers p) (map_entries b).

(** What [init] takes back: low memory, the kernel image window, the heap. *)
Definition boot_reserved (b : BootInfo) (p : Z) : bool :=
  bool_decide (p < 0x100000 / PAGE_SIZE) ||
  (bool_decide (0 < kernel_start b / PAGE_SIZE) &&
   bool_decide (kernel_start b / PAGE_SIZE ≤ p
                < u64 (Z.max (kernel_end b) 0x800000 + PAGE_SIZE - 1) / PAGE_SIZE)) ||
  bool_decide (HEAP_START / PAGE_SIZE ≤ p < (HEAP_START + HEAP_SIZE) / PAGE_SIZE).

(** ** The interface to the rest of the kernel

    What page-table and process code may assume of [alloc_frame] and
    [free_frame]. *)

Class FrameSource (F : Type) : Type := {
  fs_alloc : F → option Z * F;
  fs_free : Z → F → F;
  (** the frame at a page-aligned address is available *)
  fs_avail : F → Z → Prop;
  fs_wf : F → Prop;
}.

Class FrameSourceLaws (F : Type) `{FrameSource F} : Prop := {
  fs_alloc_wf f : fs_wf f → fs_wf (fs_alloc f).2;
  fs_alloc_some f a f' : fs_wf f → fs_alloc f = (Some a, f') →
    fs_avail f a ∧ ¬ fs_avail f' a ∧ 0 ≤ a < 2 ^ 32 ∧ a mod 4096 = 0;
  fs_alloc_frame f a f' b : fs_wf f → fs_alloc f = (Some a, f') → b ≠ a →
    fs_avail f' b ↔ fs_avail f b;
  fs_alloc_none f f' : fs_wf f → fs_alloc f = (None, f') →
    f' = f ∧ ∀ b, ¬ fs_avail f b;
  fs_free_wf f a : fs_wf f → 0 ≤ a → fs_wf (fs_free a f);
  fs_free_avail f a b : 0 ≤ a < 2 ^ 32 → a mod 4096 = 0 →
    fs_avail (fs_free a f) b ↔ fs_avail f b ∨ b = a;
}.

#[export] Instance FrameAllocator_source : FrameSource FrameAllocator := {|
  fs_alloc := alloc;
  fs_free := free;
  fs_avail fa a := 0 ≤ a ∧ a mod PAGE_SIZE = 0 ∧ is_free fa (a / PAGE_SIZE) = true;
  fs_wf := alloc_inv;
|}.

(** ** Reading the bitmap after one mark *)

Lemma MAX_PAGES_val : MAX_PAGES = 1048576.
Proof. reflexivity. Qed.

(** A page below [MAX_PAGES] indexes a byte of the bitmap, so the guarded
    accesses never leave the array. *)
Lemma page_byte_in_bitmap p : 0 ≤ p < MAX_PAGES → 0 ≤ p / 8 < BITMAP_SIZE.
Proof. change BITMAP_SIZE with 131072. rewrite MAX_PAGES_val. intros. zdiv. Qed.

Lemma same_byte_same_bit p q : p / 8 = q / 8 → p mod 8 = q mod 8 → p = q.
Proof. zdiv. Qed.

Lemma is_allocated_ge fa p : MAX_PAGES ≤ p → is_allocated fa p = true.
Proof. intros. unfold is_allocated. by rewrite (proj2 (Z.leb_le _ _)). Qed.

Lemma is_allocated_mark_allocated fa p q :
  0 ≤ p → 0 ≤ q →
  is_allocated (mark_allocated p fa) q = bool_decide (q = p) || is_allocated fa q.
Proof.
  intros Hp Hq. pose proof (Z.mod_pos_bound p 8 ltac:(lia)). pose proof (Z.mod_pos_bound q 8 ltac:(lia)).
  unfold mark_allocated, is_allocated.
  destruct (Z.leb_spec MAX_PAGES p), (Z.leb_spec MAX_PAGES q); rewrite ?orb_true_r; try done.
  { rewrite bool_decide_eq_false_2; [done|lia]. }
  destruct (bit_on (arr_get (bitmap fa) (p / 8)) (p mod 8)) eqn:E; simpl.
  - case_bool_decide; subst; [by rewrite E|done].
  - rewrite arr_get_set. destruct (decide _) as [Hb|Hb].
    + rewrite bit_on_set by lia. rewrite Hb. f_equal. apply bool_decide_ext.
      split; intros; subst; [|done]. by apply same_byte_same_bit.
    + rewrite bool_decide_eq_false_2; [done|]. congruence.
Qed.

Lemma is_allocated_mark_free fa p q :
  0 ≤ p < MAX_PAGES → 0 ≤ q →
  is_allocated (mark_free p fa) q = negb (bool_decide (q = p)) && is_allocated fa q.
Proof.
  intros Hp Hq. pose proof (Z.mod_pos_bound p 8 ltac:(lia)). pose proof (Z.mod_pos_bound q 8 ltac:(lia)).
  unfold mark_free, is_allocated.
  destruct (Z.leb_spec MAX_PAGES p), (Z.leb_spec MAX_PAGES q); try lia.
  { rewrite bool_decide_eq_false_2 by lia. done. }
  destruct (bit_on (arr_get (bitmap fa) (p / 8)) (p mod 8)) eqn:E; simpl.
  - rewrite arr_get_set. destruct (decide _) as [Hb|Hb].
    + rewrite bit_on_clear by lia. rewrite Hb. f_equal. f_equal. apply bool_decide_ext.
      split; intros; subst; [|done]. by apply same_byte_same_bit.
    + rewrite bool_decide_eq_false_2; [done|]. congruence.
  - case_bool_decide; subst; [by rewrite E|done].
Qed.

Lemma is_allocated_set_first_free n fa p :
  is_allocated (set_first_free n fa) p = is_allocated fa p.
Proof. done. Qed.

Lemma first_free_mark_allocated p fa : first_free (mark_allocated p fa) = first_free fa.
Proof. unfold mark_allocated. by repeat case_match. Qed.

Lemma first_free_mark_free p fa : first_free (mark_free p fa) = first_free fa.
Proof. unfold mark_free. by repeat case_match. Qed.

Lemma mark_allocated_noop p fa : is_allocated fa p = true → mark_allocated p fa = fa.
Proof. unfold mark_allocated, is_allocated. case_match; [done|]. by intros ->. Qed.

(** The effect of a loop of marks on the bitmap. *)
Lemma is_allocated_mark_range fa lo hi q :
  0 ≤ lo → 0 ≤ q →
  is_allocated (for_range lo hi mark_allocated fa) q =
    bool_decide (lo ≤ q < hi) || is_allocated fa q.
Proof.
  intros Hlo Hq. destruct (Z.le_ge_cases lo hi) as [Hle|Hge].
  - refine (for_range_ind (λ i fa',
      is_allocated fa' q = bool_decide (lo ≤ q < i) || is_allocated fa q) _ _ _ _ Hle _ _).
    + rewrite bool_decide_eq_false_2; [done|lia].
    + intros j fa' Hj IH. rewrite is_allocated_mark_allocated, IH by lia.
      rewrite orb_assoc. f_equal. repeat case_bool_decide; try done; lia.
  - rewrite for_range_empty by lia. rewrite bool_decide_eq_false_2; [done|lia].
Qed.

(** ** The free counter *)

Lemma is_free_range fa p : 0 ≤ p → is_free fa p = true → p < MAX_PAGES.
Proof.
  intros Hp Hf. destruct (Z.le_gt_cases MAX_PAGES p); [|done].
  unfold is_free in Hf. by rewrite is_allocated_ge in Hf.
Qed.

Lemma count_ok_mark_allocated p fa : 0 ≤ p → count_ok fa → count_ok (mark_allocated p fa).
Proof.
  intros Hp (Hc & Ht & Hb). destruct (is_free fa p) eqn:Hf; last first.
  { unfold is_free in Hf. apply negb_false_iff in Hf. by rewrite mark_allocated_noop. }
  pose proof (is_free_range _ _ Hp Hf) as Hlt.
  assert (0 < free_pages fa) as Hpos by (rewrite Hc; by apply (count_range_pos _ _ _ p)).
  assert (free_pages (mark_allocated p fa) = free_pages fa - 1 ∧
          total_pages (mark_allocated p fa) = total_pages fa) as [Efp Etp].
  { unfold mark_allocated, is_free, is_allocated in *.
    destruct (Z.leb_spec MAX_PAGES p); [done|]. rewrite Hf; simpl.
    destruct (Z.ltb_spec 0 (free_pages fa)); lia. }
  unfold count_ok. rewrite Efp, Etp. split_and!; [|lia|lia|].
  - rewrite Hc. erewrite (count_range_off 0 MAX_PAGES (is_free fa) (is_free (mark_allocated p fa)) p);
      [lia|lia|done| |].
    + unfold is_free. rewrite is_allocated_mark_allocated by lia. by rewrite bool_decide_eq_true_2.
    + intros j Hj Hne. unfold is_free.
      rewrite is_allocated_mark_allocated by lia. by rewrite bool_decide_eq_false_2.
  - intros q Hq Hfq. apply Hb; [done|]. revert Hfq. unfold is_free.
    rewrite is_allocated_mark_allocated by lia. by case_bool_decide.
Qed.

Lemma count_ok_mark_free p fa : 0 ≤ p → count_ok fa → count_ok (mark_free p fa).
Proof.
  intros Hp (Hc & Ht & Hb). destruct (Z.le_gt_cases MAX_PAGES p) as [|Hlt].
  { unfold mark_free. by rewrite (proj2 (Z.leb_le _ _)). }
  destruct (is_allocated fa p) eqn:Ha; last first.
  { unfold mark_free. unfold is_allocated in Ha. case_match; [done|]. by rewrite Ha. }
  assert (free_pages (mark_free p fa) = free_pages fa + 1 ∧
          total_pages (mark_free p fa) = Z.max (total_pages fa) (p + 1)) as [Efp Etp].
  { unfold mark_free, is_allocated in *. destruct (Z.leb_spec MAX_PAGES p); [lia|]. by rewrite Ha. }
  unfold count_ok. rewrite Efp, Etp. split_and!; [|lia|lia|].
  - rewrite Hc. erewrite (count_range_off 0 MAX_PAGES (is_free (mark_free p fa)) (is_free fa) p);
      [lia|lia| | |].
    + unfold is_free. rewrite is_allocated_mark_free by lia. by rewrite bool_decide_eq_true_2.
    + unfold is_free. by rewrite Ha.
    + intros j Hj Hne. unfold is_free.
      rewrite is_allocated_mark_free by lia. by rewrite bool_decide_eq_false_2.
  - intros q Hq. unfold is_free. rewrite is_allocated_mark_free by lia.
    case_bool_decide; subst; simpl; [lia|]. intros Hfq. specialize (Hb q Hq Hfq). lia.
Qed.

Lemma count_ok_set_first_free n fa : count_ok (set_first_free n fa) ↔ count_ok fa.
Proof. done. Qed.

#[export] Hint Resolve count_ok_mark_allocated count_ok_mark_free : cotton.

Lemma count_ok_for_range f lo hi fa :
  (∀ p fa, lo ≤ p < hi → count_ok fa → count_ok (f p fa)) → count_ok fa →
  count_ok (for_range lo hi f fa).
Proof. intros Hf Hc. apply for_range_inv; [done|]. intros. by apply Hf. Qed.

Lemma first_free_for_range f lo hi fa :
  (∀ p fa, first_free (f p fa) = first_free fa) →
  first_free (for_range lo hi f fa) = first_free fa.
Proof.
  intros Hf. apply (for_range_inv (λ fa', first_free fa' = first_free fa)); [done|].
  intros. by rewrite Hf.
Qed.

(** ** [alloc] as a search for the lowest free page *)

Lemma alloc_search fa lo hi :
  for_ret lo hi alloc_body fa =
    match find_range lo hi (is_free fa) with
    | Some p => (Some (p * PAGE_SIZE), set_first_free (p + 1) (mark_allocated p fa))
    | None => (None, fa)
    end.
Proof.
  (* the search predicate is that of the state the loop started in: the body
     leaves the state alone until it leaves the loop *)
  set (n := Z.to_nat (hi - lo)). unfold for_ret, find_range. fold n.
  clearbody n. revert lo. induction n as [|n IH]; intros lo; simpl; [done|].
  change (is_free fa lo) with (negb (is_allocated fa lo)).
  unfold alloc_body at 1. destruct (is_allocated fa lo); simpl; [apply IH|done].
Qed.

Lemma alloc_lowest fa :
  hint_ok fa →
  alloc fa =
    match find_range 0 MAX_PAGES (is_free fa) with
    | Some p => (Some (p * PAGE_SIZE), set_first_free (p + 1) (mark_allocated p fa))
    | None => (None, fa)
    end.
Proof.
  intros [Hff Hhint]. unfold alloc. rewrite !alloc_search.
  assert (∀ p, 0 ≤ p < first_free fa → is_free fa p = false) as Hlow.
  { intros p Hp. unfold is_free. by rewrite Hhint. }
  destruct (find_range (first_free fa) MAX_PAGES (is_free fa)) as [p|] eqn:E.
  - apply find_range_Some in E as (Hp & Hfp & Hlt).
    rewrite (find_range_Some_iff 0 MAX_PAGES (is_free fa) p); [done|lia|done|].
    intros j Hj. destruct (Z.lt_ge_cases j (first_free fa)); [apply Hlow; lia|apply Hlt; lia].
  - rewrite alloc_search.
    destruct (find_range 0 (first_free fa) (is_free fa)) as [p|] eqn:E2.
    { apply find_range_Some in E2 as (? & Hfp & _). by rewrite Hlow in Hfp. }
    destruct (find_range 0 MAX_PAGES (is_free fa)) as [p|] eqn:E3; [|done].
    apply find_range_Some in E3 as (? & Hfp & _).
    destruct (Z.lt_ge_cases p (first_free fa)).
    + rewrite Hlow in Hfp; [done|lia].
    + eapply find_range_None in E; [|split; [done|lia]]. congruence.
Qed.

(** ** [init] *)

Lemma page_align_up_nonneg a : 0 ≤ page_align_up a.
Proof. unfold page_align_up. apply Z.land_nonneg. left. apply (u64_range _). Qed.

Lemma is_allocated_init_entry e fa q :
  0 ≤ q → is_allocated (init_entry e fa) q = negb (entry_covers q e) && is_allocated fa q.
Proof.
  intros Hq. unfold init_entry, entry_covers.
  destruct (decide (mem_type e = Available)) as [Ha|Ha]; last by rewrite bool_decide_eq_false_2.
  rewrite (bool_decide_eq_true_2 _ Ha); simpl.
  pose proof (page_align_up_nonneg (base e)).
  set (lo := page_align_up (base e) / PAGE_SIZE). set (hi := page_align_down _ / PAGE_SIZE).
  assert (0 ≤ lo) as Hlo by (apply Z.div_pos; [done|unfold PAGE_SIZE; lia]).
  clearbody lo hi. destruct (Z.le_ge_cases lo hi) as [Hle|Hge].
  - refine (for_range_ind (λ i fa', is_allocated fa' q =
      negb (bool_decide (lo ≤ q < i) && bool_decide (q < MAX_PAGES)) && is_allocated fa q)
      _ _ _ _ Hle _ _).
    + rewrite (bool_decide_eq_false_2 (lo ≤ q < lo)); [done|lia].
    + intros j fa' Hj IH. destruct (Z.ltb_spec j MAX_PAGES).
      * rewrite is_allocated_mark_free, IH by lia. rewrite andb_assoc. f_equal.
        repeat case_bool_decide; try done; lia.
      * rewrite IH. f_equal. f_equal. repeat case_bool_decide; try done; lia.
  - rewrite for_range_empty by lia. rewrite bool_decide_eq_false_2; [done|lia].
Qed.

Lemma is_allocated_init_entries es fa q :
  0 ≤ q →
  is_allocated (iter_list es init_entry fa) q = negb (existsb (entry_covers q) es) && is_allocated fa q.
Proof.
  intros Hq. revert fa. induction es as [|e es IH]; intros fa; simpl; [done|].
  rewrite IH, is_allocated_init_entry by done. rewrite negb_orb. btauto.
Qed.

Lemma is_allocated_free_range fa lo hi q :
  0 ≤ lo → hi ≤ MAX_PAGES → 0 ≤ q →
  is_allocated (for_range lo hi mark_free fa) q = negb (bool_decide (lo ≤ q < hi)) && is_allocated fa q.
Proof.
  intros Hlo Hhi Hq. destruct (Z.le_ge_cases lo hi) as [Hle|Hge].
  - refine (for_range_ind (λ i fa', is_allocated fa' q =
      negb (bool_decide (lo ≤ q < i)) && is_allocated fa q) _ _ _ _ Hle _ _).
    + rewrite bool_decide_eq_false_2; [done|lia].
    + intros j fa' Hj IH. rewrite is_allocated_mark_free, IH by lia. rewrite andb_assoc. f_equal.
      repeat case_bool_decide; try done; lia.
  - rewrite for_range_empty by lia. rewrite bool_decide_eq_false_2; [done|lia].
Qed.

Lemma count_ok_init_entry e fa : count_ok fa → count_ok (init_entry e fa).
Proof.
  intros Hc. unfold init_entry. case_decide; [|done].
  apply count_ok_for_range; [|done]. intros p fa' Hp Hc'. case_match; [|done].
  apply count_ok_mark_free; [|done].
  assert (0 ≤ page_align_up (base e) / PAGE_SIZE); [|lia].
  apply Z.div_pos; [apply page_align_up_nonneg|unfold PAGE_SIZE; lia].
Qed.

Lemma count_ok_init_entries es fa : count_ok fa → count_ok (iter_list es init_entry fa).
Proof. revert fa. induction es; simpl; auto using count_ok_init_entry. Qed.

(** The state [init] starts marking from: every page allocated. *)
Lemma is_allocated_fresh fa p :
  is_allocated (mkFA (arr_fill (bitmap fa) 0xFF) (first_free fa) (total_pages fa) (free_pages fa)) p
  = true.
Proof.
  unfold is_allocated; simpl. case_match; [done|]. rewrite arr_get_fill.
  pose proof (Z.mod_pos_bound p 8 ltac:(lia)).
  rewrite bit_on_testbit by lia. change 255 with (Z.ones 8). apply Z.ones_spec_low. lia.
Qed.

Lemma count_ok_fresh : count_ok (mkFA (arr_fill (bitmap new) 0xFF) 0 0 0).
Proof.
  assert (∀ p, is_free (mkFA (arr_fill (bitmap new) 0xFF) 0 0 0) p = false) as Hf.
  { intros p. unfold is_free. by rewrite (is_allocated_fresh new). }
  pose proof MAX_PAGES_val. unfold count_ok. simpl. split_and!; [|lia|lia|].
  - rewrite count_range_zero; [done|]. intros. apply Hf.
  - intros p _ Hp. by rewrite Hf in Hp.
Qed.

Lemma hint_search fa lo hi :
  for_ret lo hi (λ i fa,
    if negb (is_allocated fa i) then (Some tt, set_first_free i fa) else (None, fa)) fa =
  match find_range lo hi (is_free fa) with
  | Some i => (Some tt, set_first_free i fa)
  | None => (None, fa)
  end.
Proof.
  unfold for_ret, find_range. generalize (Z.to_nat (hi - lo)) as n. intros n. revert lo.
  induction n as [|n IH]; intros lo; simpl; [done|].
  change (is_free fa lo) with (negb (is_allocated fa lo)).
  destruct (is_allocated fa lo); simpl; [apply IH|done].
Qed.

Lemma init_hint_eq fa :
  init_hint fa =
    match find_range 0 MAX_PAGES (is_free fa) with
    | Some i => set_first_free i fa
    | None => set_first_free 0 fa
    end.
Proof.
  unfold init_hint. rewrite hint_search.
  change (is_free (set_first_free 0 fa)) with (is_free fa). by case_match.
Qed.

Lemma is_allocated_init_hint fa p : is_allocated (init_hint fa) p = is_allocated fa p.
Proof. rewrite init_hint_eq. by case_match. Qed.

Lemma init_hint_inv fa : count_ok fa → alloc_inv (init_hint fa).
Proof.
  rewrite init_hint_eq. intros Hc. pose proof MAX_PAGES_val.
  destruct (find_range 0 MAX_PAGES (is_free fa)) as [i|] eqn:E; split; try done.
  - apply find_range_Some in E as (Hi & _ & Hlt). split; simpl; [lia|].
    intros p Hp. specialize (Hlt p Hp). unfold is_free in Hlt. by apply negb_false_iff in Hlt.
  - split; simpl; [lia|]. intros. lia.
Qed.

Lemma is_allocated_init_available b p :
  0 ≤ p → is_allocated (init_available b new) p = negb (boot_available b p).
Proof.
  intros Hp. unfold init_available, boot_available. destruct (no_memory_map b).
  - rewrite is_allocated_free_range by (done || (pose proof MAX_PAGES_val; lia)).
    by rewrite (is_allocated_fresh new), andb_true_r.
  - rewrite is_allocated_init_entries by done. by rewrite (is_allocated_fresh new), andb_true_r.
Qed.

Lemma is_allocated_init_reserve b fa p :
  0 ≤ p → 0 ≤ kernel_start b →
  is_allocated (init_reserve b fa) p = boot_reserved b p || is_allocated fa p.
Proof.
  intros Hp Hk. unfold init_reserve, boot_reserved.
  assert (0 ≤ kernel_start b / PAGE_SIZE) by (apply Z.div_pos; [done|unfold PAGE_SIZE; lia]).
  rewrite is_allocated_mark_range; [|done|done].
  rewrite (bool_decide_ext (p < 0x100000 / PAGE_SIZE) (0 ≤ p < 0x100000 / PAGE_SIZE)) by lia.
  destruct (Z.ltb_spec 0 (kernel_start b / PAGE_SIZE)).
  - rewrite !is_allocated_mark_range by lia. rewrite (bool_decide_eq_true_2 (0 < _)) by done. btauto.
  - rewrite is_allocated_mark_range by lia. rewrite (bool_decide_eq_false_2 (0 < _)) by lia. btauto.
Qed.

Lemma count_ok_init_available b : count_ok (init_available b new).
Proof.
  unfold init_available. destruct (no_memory_map b).
  - apply count_ok_for_range; [|apply count_ok_fresh].
    intros q fa Hq. apply count_ok_mark_free. revert Hq. change (0x100000 / PAGE_SIZE) with 256. lia.
  - apply count_ok_init_entries, count_ok_fresh.
Qed.

Lemma count_ok_mark_range lo hi fa :
  0 ≤ lo → count_ok fa → count_ok (for_range lo hi mark_allocated fa).
Proof. intros. apply count_ok_for_range; [|done]. intros. apply count_ok_mark_allocated; [lia|done]. Qed.

Lemma count_ok_init_reserve b fa : 0 ≤ kernel_start b → count_ok fa → count_ok (init_reserve b fa).
Proof.
  intros Hk Hc. unfold init_reserve.
  assert (0 ≤ kernel_start b / PAGE_SIZE) by (apply Z.div_pos; [done|unfold PAGE_SIZE; lia]).
  apply count_ok_mark_range; [done|]. case_match.
  - apply count_ok_mark_range; [done|]. by apply count_ok_mark_range.
  - by apply count_ok_mark_range.
Qed.

(** The bitmap and the invariant after [init]. *)
Lemma FA_init_bitmap b st p :
  0 ≤ p → 0 ≤ kernel_start b →
  is_free (FA_init b new st).1 p = boot_available b p && negb (boot_reserved b p).
Proof.
  intros Hp Hk. unfold FA_init, is_free. cbn [fst].
  rewrite is_allocated_init_hint, is_allocated_init_reserve, is_allocated_init_available by done.
  btauto.
Qed.

Lemma FA_init_alloc_inv b st : 0 ≤ kernel_start b → alloc_inv (FA_init b new st).1.
Proof.
  intros Hk. unfold FA_init. cbn [fst]. apply init_hint_inv, count_ok_init_reserve; [done|].
  apply count_ok_init_available.
Qed.

(** ** Contiguous allocation *)

Lemma alloc_result_1 fa : hint_ok fa → alloc_result fa 1 (alloc fa).1 (alloc fa).2.
Proof.
  intros Hh. rewrite alloc_lowest by done.
  destruct (find_range 0 MAX_PAGES (is_free fa)) as [p|] eqn:E; simpl.
  - apply find_range_Some in E as (Hp & Hfp & Hlt). exists p. unfold is_free in *.
    split_and!; [done|lia|lia| | |].
    + intros q Hq. replace q with p by lia. by apply negb_true_iff.
    + intros s Hs Hr. specialize (Hlt s Hs). rewrite Hr in Hlt; [done|lia].
    + intros q Hq. rewrite is_allocated_set_first_free, is_allocated_mark_allocated by lia.
      f_equal. apply bool_decide_ext. lia.
  - split; [done|]. intros s Hs Hr. specialize (Hr s ltac:(lia)).
    destruct (Z.le_gt_cases MAX_PAGES s); [by rewrite is_allocated_ge in Hr|].
    eapply find_range_None in E; [|split; [exact Hs|done]]. unfold is_free in E. by rewrite Hr in E.
Qed.

Lemma contiguous_body_inv fa count i s :
  2 ≤ count → hint_ok fa → 0 ≤ i < MAX_PAGES → contiguous_inv fa count i s →
  match contiguous_body count i s with
  | (Some a, s') => alloc_result fa count (Some a) s'.1.1
  | (None, s') => contiguous_inv fa count (i + 1) s'
  end.
Proof.
  intros Hc [Hff Hhint] Hi. destruct s as [[fa' start] found].
  intros (-> & Hfound & Hstart & Hlo & Hrun & Hmax & Hno). unfold contiguous_body.
  destruct (is_allocated fa i) eqn:Ha; simpl.
  - split_and!; [done|lia|lia|lia|lia| | |].
    + intros q Hq. lia.
    + right. by replace (i + 1 - 0 - 1) with i by lia.
    + intros t Ht Hle Hr. destruct (decide (t + count ≤ i)); [by eapply Hno|].
      rewrite Hr in Ha; [done|lia].
  - assert ((if found =? 0 then i else start) = i - found) as ->.
    { destruct (Z.eqb_spec found 0); [lia|]. apply Hstart. lia. }
    assert (run_free fa (i - found) (found + 1)) as Hrun'.
    { intros q Hq. destruct (decide (q = i)) as [->|]; [done|]. apply Hrun. lia. }
    destruct (Z.eqb_spec (found + 1) count) as [E|E]; simpl.
    + exists (i - found). split_and!; [done|lia|lia|by rewrite <- E| |].
      * intros t Ht. apply Hno; lia.
      * intros q Hq. apply is_allocated_mark_range; lia.
    + replace (i + 1 - (found + 1)) with (i - found) by lia.
      split_and!; [done|lia|lia|lia|lia|done|done|].
      intros t Ht Hle Hr. destruct (decide (t + count ≤ i)); [by eapply Hno|].
      destruct Hmax as [Hmax|Hmax].
      * specialize (Hr t ltac:(lia)). rewrite Hhint in Hr; [done|lia].
      * rewrite Hr in Hmax; [done|lia].
Qed.

Lemma alloc_contiguous_result fa count :
  1 ≤ count → hint_ok fa →
  alloc_result fa count (alloc_contiguous count fa).1 (alloc_contiguous count fa).2.
Proof.
  intros Hc Hh. unfold alloc_contiguous.
  destruct (Z.eqb_spec count 0); [lia|].
  destruct (Z.eqb_spec count 1) as [->|]; [by apply alloc_result_1|].
  pose proof Hh as [Hff Hhint].
  pose proof (for_ret_ind (contiguous_inv fa count) (λ a s', alloc_result fa count (Some a) s'.1.1)
    (contiguous_body count) (first_free fa) MAX_PAGES (fa, first_free fa, 0)) as H.
  destruct (for_ret (first_free fa) MAX_PAGES (contiguous_body count) (fa, first_free fa, 0))
    as [[a|] [[fa' start] found]]; simpl in *.
  - apply H; [lia| |].
    + split_and!; [done|lia|lia|lia|lia|intros q Hq; lia|left; lia|].
      intros t Ht Hle Hr. specialize (Hr t ltac:(lia)). rewrite Hhint in Hr; [done|lia].
    + intros i s Hi Hs. apply contiguous_body_inv; [lia|done|lia|done].
  - destruct H as (-> & ? & ? & ? & ? & ? & Hno); [lia| | |].
    + split_and!; [done|lia|lia|lia|lia|intros q Hq; lia|left; lia|].
      intros t Ht Hle Hr. specialize (Hr t ltac:(lia)). rewrite Hhint in Hr; [done|lia].
    + intros i s Hi Hs. apply contiguous_body_inv; [lia|done|lia|done].
    + split; [done|]. intros t Ht Hr. destruct (decide (t + count ≤ MAX_PAGES)).
      * by eapply Hno.
      * specialize (Hr (Z.max t MAX_PAGES) ltac:(lia)). rewrite is_allocated_ge in Hr; [done|lia].
Qed.

(** ** The invariant is kept by every call *)

Lemma hint_ok_mono fa fa' :
  first_free fa' = first_free fa →
  (∀ p, 0 ≤ p → is_allocated fa p = true → is_allocated fa' p = true) →
  hint_ok fa → hint_ok fa'.
Proof. intros E Hm [Hff Hh]. split; rewrite E; [done|]. intros p Hp. apply Hm; [lia|auto]. Qed.

Lemma alloc_inv_mark_range lo hi fa :
  0 ≤ lo → alloc_inv fa → alloc_inv (for_range lo hi mark_allocated fa).
Proof.
  intros Hlo [Hc Hh]. split; [by apply count_ok_mark_range|].
  apply (hint_ok_mono fa); [|intros p Hp Ha|done].
  - apply first_free_for_range. intros. apply first_free_mark_allocated.
  - rewrite is_allocated_mark_range, Ha by done. apply orb_true_r.
Qed.

Lemma alloc_inv_alloc fa : alloc_inv fa → alloc_inv (alloc fa).2.
Proof.
  intros [Hc Hh]. rewrite alloc_lowest by done.
  destruct (find_range 0 MAX_PAGES (is_free fa)) as [p|] eqn:E; simpl; [|done].
  apply find_range_Some in E as (Hp & _ & Hlt). split.
  - apply count_ok_set_first_free, count_ok_mark_allocated; [lia|done].
  - split; simpl; [lia|]. intros q Hq.
    rewrite is_allocated_set_first_free, is_allocated_mark_allocated by lia.
    case_bool_decide; [done|]. specialize (Hlt q ltac:(lia)). by apply negb_false_iff in Hlt.
Qed.

Lemma alloc_inv_alloc_contiguous fa count : alloc_inv fa → alloc_inv (alloc_contiguous count fa).2.
Proof.
  intros Hinv. unfold alloc_contiguous. destruct (count =? 0); [done|].
  destruct (count =? 1); [by apply alloc_inv_alloc|]. destruct Hinv as [Hc Hh].
  pose proof Hh as [Hff _].
  pose proof (for_ret_ind (λ _ s, s.1.1 = fa ∧ 0 ≤ s.1.2) (λ (_ : Z) s, alloc_inv s.1.1)
    (contiguous_body count) (first_free fa) MAX_PAGES (fa, first_free fa, 0)) as H.
  destruct (for_ret (first_free fa) MAX_PAGES (contiguous_body count) (fa, first_free fa, 0))
    as [[a|] [[fa' start] found]]; simpl in *.
  1: apply H. 4: enough (fa' = fa ∧ 0 ≤ start) as [-> _] by done; apply H.
  all: try lia; try (split; [done|lia]).
  all: intros i [[fa1 start1] found1] Hi [E Hs]; simpl in *; subst fa1; unfold contiguous_body;
    destruct (negb _); [destruct (_ =? count)|]; simpl;
    try (apply alloc_inv_mark_range; [by case_match; lia|done]); split; [done|case_match; lia|done|lia].
Qed.

(** The [if page < self.first_free { self.first_free = page }] of both frees. *)
Lemma alloc_inv_lower_hint p fa :
  0 ≤ p → count_ok fa → 0 ≤ first_free fa ≤ MAX_PAGES →
  (∀ q, 0 ≤ q < Z.min p (first_free fa) → is_allocated fa q = true) →
  alloc_inv (if p <? first_free fa then set_first_free p fa else fa).
Proof.
  intros Hp Hc Hff Hlow. destruct (Z.ltb_spec p (first_free fa)); split.
  - by apply count_ok_set_first_free.
  - split; simpl; [lia|]. intros q Hq. apply Hlow. lia.
  - done.
  - split; [lia|]. intros q Hq. apply Hlow. lia.
Qed.

Lemma alloc_inv_free a fa : 0 ≤ a → alloc_inv fa → alloc_inv (free a fa).
Proof.
  intros Ha [Hc [Hff Hh]]. unfold free. assert (0 ≤ a / PAGE_SIZE) as Hp by (apply Z.div_pos; [done|unfold PAGE_SIZE; lia]).
  generalize dependent (a / PAGE_SIZE). intros p Hp.
  destruct (Z.ltb_spec p MAX_PAGES); [simpl|done]. destruct (is_allocated fa p); [|done].
  assert (count_ok (mark_free p fa)) by by apply count_ok_mark_free.
  assert (∀ q, 0 ≤ q < Z.min p (first_free fa) → is_allocated (mark_free p fa) q = true) as Hlow.
  { intros q Hq. rewrite is_allocated_mark_free, Hh by lia. rewrite bool_decide_eq_false_2; [done|lia]. }
  by apply alloc_inv_lower_hint; rewrite ?first_free_mark_free.
Qed.

(** The loop of [free_contiguous]. *)
Lemma is_allocated_free_loop fa start count q :
  0 ≤ start → 0 ≤ q →
  is_allocated (for_range 0 count (λ i fa,
    if start + i <? MAX_PAGES then mark_free (start + i) fa else fa) fa) q =
  negb (bool_decide (start ≤ q < start + count) && bool_decide (q < MAX_PAGES)) && is_allocated fa q.
Proof.
  intros Hs Hq. destruct (Z.le_ge_cases 0 count) as [Hle|Hge].
  - refine (for_range_ind (λ i fa', is_allocated fa' q =
      negb (bool_decide (start ≤ q < start + i) && bool_decide (q < MAX_PAGES)) && is_allocated fa q)
      _ _ _ _ Hle _ _).
    + rewrite (bool_decide_eq_false_2 (start ≤ q < start + 0)); [done|lia].
    + intros j fa' Hj IH. destruct (Z.ltb_spec (start + j) MAX_PAGES).
      * rewrite is_allocated_mark_free, IH by lia. rewrite andb_assoc. f_equal.
        repeat case_bool_decide; try done; lia.
      * rewrite IH. f_equal. f_equal. repeat case_bool_decide; try done; lia.
  - rewrite for_range_empty by lia. rewrite bool_decide_eq_false_2; [done|lia].
Qed.

Lemma alloc_inv_free_contiguous a n fa :
  0 ≤ a → alloc_inv fa → alloc_inv (free_contiguous a n fa).
Proof.
  intros Ha [Hc [Hff Hh]]. unfold free_contiguous.
  assert (0 ≤ a / PAGE_SIZE) as Hp by (apply Z.div_pos; [done|unfold PAGE_SIZE; lia]).
  generalize dependent (a / PAGE_SIZE). intros p Hp.
  set (fa' := for_range 0 n _ fa).
  assert (count_ok fa') as Hc'.
  { apply count_ok_for_range; [|done]. intros i fa1 Hi Hc1. case_match; [|done].
    apply count_ok_mark_free; [lia|done]. }
  assert (first_free fa' = first_free fa) as Hff'.
  { apply first_free_for_range. intros. case_match; [apply first_free_mark_free|done]. }
  assert (∀ q, 0 ≤ q < Z.min p (first_free fa) → is_allocated fa' q = true) as Hlow.
  { intros q Hq. subst fa'. rewrite is_allocated_free_loop, Hh by lia.
    rewrite bool_decide_eq_false_2; [done|lia]. }
  by apply alloc_inv_lower_hint; rewrite ?Hff'.
Qed.

Lemma alloc_inv_reserve_range s e fa : 0 ≤ s → alloc_inv fa → alloc_inv (reserve_range s e fa).
Proof.
  intros Hs Hinv. unfold reserve_range. apply alloc_inv_mark_range; [|done].
  apply Z.div_pos; [done|unfold PAGE_SIZE; lia].
Qed.

#[export] Hint Resolve alloc_inv_alloc alloc_inv_alloc_contiguous alloc_inv_free
  alloc_inv_free_contiguous alloc_inv_reserve_range : cotton.

Lemma alloc_inv_run_op lo hi o fa : op_ok lo hi o → alloc_inv fa → alloc_inv (run_op o fa).2.
Proof.
  intros Hok Hinv. destruct o as [|n|a|a n|s e]; simpl in *.
  - pose proof (alloc_inv_alloc fa Hinv). by destruct (alloc fa).
  - pose proof (alloc_inv_alloc_contiguous fa n Hinv). by destruct (alloc_contiguous n fa).
  - apply alloc_inv_free; tauto.
  - apply alloc_inv_free_contiguous; tauto.
  - apply alloc_inv_reserve_range; tauto.
Qed.

(** ** The free counter across an allocation *)

Lemma free_pages_mark_allocated p fa :
  0 ≤ p → is_free fa p = true → count_ok fa →
  free_pages (mark_allocated p fa) = free_pages fa - 1.
Proof.
  intros Hp Hf (Hc & _ & _). pose proof (is_free_range _ _ Hp Hf).
  assert (0 < free_pages fa) by (rewrite Hc; by apply (count_range_pos _ _ _ p)).
  unfold mark_allocated, is_free, is_allocated in *. case_match; [done|]. rewrite Hf. simpl.
  case_match; bool_hyps; lia.
Qed.

Lemma free_pages_mark_run s count fa :
  0 ≤ s → 0 ≤ count → run_free fa s count → count_ok fa →
  free_pages (for_range s (s + count) mark_allocated fa) = free_pages fa - count.
Proof.
  intros Hs Hn Hr Hc.
  assert (free_pages (for_range s (s + count) mark_allocated fa) = free_pages fa - (s + count - s) ∧
    count_ok (for_range s (s + count) mark_allocated fa) ∧
    ∀ q, s + count ≤ q < s + count →
      is_allocated (for_range s (s + count) mark_allocated fa) q = false) as [E _]; [|lia].
  refine (for_range_ind (λ i fa', free_pages fa' = free_pages fa - (i - s) ∧ count_ok fa' ∧
    ∀ q, i ≤ q < s + count → is_allocated fa' q = false) mark_allocated _ _ _ _ _ _); [lia| |].
  - split_and!; [lia|done|]. intros q Hq. apply Hr. lia.
  - intros j fa' Hj (E & Hc' & Hrest). split_and!.
    + rewrite free_pages_mark_allocated; [lia|lia| |done]. unfold is_free. rewrite Hrest; [done|lia].
    + apply count_ok_mark_allocated; [lia|done].
    + intros q Hq. rewrite is_allocated_mark_allocated, Hrest by lia.
      rewrite bool_decide_eq_false_2; [done|lia].
Qed.

(** What [alloc] and [alloc_contiguous] leave: the run marked, perhaps a new
    hint. *)
Lemma alloc_contiguous_state fa count a fa' :
  1 ≤ count → hint_ok fa → alloc_contiguous count fa = (Some a, fa') →
  ∃ s h, a = s * PAGE_SIZE ∧ 0 ≤ s ∧
    fa' = set_first_free h (for_range s (s + count) mark_allocated fa).
Proof.
  intros Hc Hh. unfold alloc_contiguous. destruct (Z.eqb_spec count 0); [lia|].
  destruct (Z.eqb_spec count 1) as [->|].
  - rewrite alloc_lowest by done.
    destruct (find_range 0 MAX_PAGES (is_free fa)) as [p|] eqn:E; intros; simplify_eq.
    apply find_range_Some in E as (Hp & _). exists p, (p + 1). split_and!; [done|lia|].
    rewrite for_range_step, for_range_empty by lia. done.
  - pose proof Hh as [Hff _].
    pose proof (for_ret_ind (λ _ s, s.1.1 = fa ∧ 0 ≤ s.1.2)
      (λ a s, ∃ t h, a = t * PAGE_SIZE ∧ 0 ≤ t ∧
        s.1.1 = set_first_free h (for_range t (t + count) mark_allocated fa))
      (contiguous_body count) (first_free fa) MAX_PAGES (fa, first_free fa, 0)) as H.
    destruct (for_ret _ _ _ _) as [[a'|] [[fa1 start] found]]; intros E; simplify_eq/=.
    apply H; [lia|split; [done|lia]|].
    intros i [[fa2 start2] found2] Hi [E Hs]; simpl in *; subst fa2. unfold contiguous_body.
    destruct (negb _); [destruct (_ =? count)|]; simpl; try (split; [done|try case_match; lia]).
    exists (if found2 =? 0 then i else start2), (first_free fa).
    split_and!; [done|case_match; lia|].
    set (fb := for_range _ _ _ _). replace (first_free fa) with (first_free fb); [by destruct fb|].
    apply first_free_for_range. intros. apply first_free_mark_allocated.
Qed.

(** ** Traces *)

Lemma op_free_keeps lo hi o fa p :
  is_free_op o = true → op_ok lo hi o → lo ≤ p < hi → 0 ≤ p →
  is_allocated fa p = true → is_allocated (run_op o fa).2 p = true.
Proof.
  destruct o as [| |a|a n|]; try done; simpl; intros _ Hok Hp Hp0 Ha.
  - assert (0 ≤ a / PAGE_SIZE) by (apply Z.div_pos; [tauto|unfold PAGE_SIZE; lia]).
    unfold free. case_match; [|done]. bool_hyps.
    assert (is_allocated (mark_free (a / PAGE_SIZE) fa) p = true) as E.
    { rewrite is_allocated_mark_free, Ha by lia. rewrite bool_decide_eq_false_2; [done|lia]. }
    by case_match.
  - assert (0 ≤ a / PAGE_SIZE) by (apply Z.div_pos; [tauto|unfold PAGE_SIZE; lia]).
    unfold free_contiguous.
    assert (is_allocated (for_range 0 n (λ i fa, if a / PAGE_SIZE + i <? MAX_PAGES
      then mark_free (a / PAGE_SIZE + i) fa else fa) fa) p = true) as E.
    { rewrite is_allocated_free_loop, Ha by lia. rewrite bool_decide_eq_false_2; [done|lia]. }
    by case_match.
Qed.

(** What one call does to the pages: it hands out a run that was free, and apart
    from the frees it only allocates. *)
Lemma run_op_hands_out lo hi o fa r fa' :
  alloc_inv fa → op_ok lo hi o → run_op o fa = (r, fa') →
  match r with
  | Some (a, n) => ∃ s, a = s * PAGE_SIZE ∧ 0 ≤ s ∧ 1 ≤ n ∧ run_free fa s n ∧
      (∀ q, 0 ≤ q → is_allocated fa' q = bool_decide (s ≤ q < s + n) || is_allocated fa q)
  | None => is_free_op o = false →
      ∀ q, 0 ≤ q → is_allocated fa q = true → is_allocated fa' q = true
  end.
Proof.
  intros [Hc Hh] Hok Hrun. destruct o as [|n|a|a n|s e]; simpl in *.
  - pose proof (alloc_result_1 fa Hh) as Hr. destruct (alloc fa) as [[a|] fa1]; simplify_eq/=.
    + destruct Hr as (s & -> & ? & ? & Hrf & ? & Hq). exists s. by split_and!.
    + by destruct Hr as [-> _].
  - destruct (decide (n = 0)) as [->|].
    { unfold alloc_contiguous in Hrun. by simplify_eq/=. }
    pose proof (alloc_contiguous_result fa n ltac:(lia) Hh) as Hr.
    destruct (alloc_contiguous n fa) as [[a|] fa1]; simplify_eq/=.
    + destruct Hr as (s & -> & ? & ? & Hrf & ? & Hq). exists s. split_and!; [done..|lia|done|done].
    + by destruct Hr as [-> _].
  - simplify_eq. done.
  - simplify_eq. done.
  - simplify_eq. intros _ q Hq Ha. unfold reserve_range.
    rewrite is_allocated_mark_range, Ha; [apply orb_true_r|apply Z.div_pos; [tauto|unfold PAGE_SIZE; lia]|done].
Qed.

Lemma run_op_keeps lo hi o fa p :
  alloc_inv fa → op_ok lo hi o → lo ≤ p < hi → 0 ≤ p →
  is_allocated fa p = true → is_allocated (run_op o fa).2 p = true.
Proof.
  intros Hinv Hok Hp Hp0 Ha. destruct (is_free_op o) eqn:Ef; [by apply (op_free_keeps lo hi)|].
  destruct (run_op o fa) as [r fa'] eqn:E. pose proof (run_op_hands_out _ _ _ _ _ _ Hinv Hok E) as H.
  destruct r as [[a n]|]; simpl; [|by apply H].
  destruct H as (s & _ & _ & _ & _ & Hq). rewrite Hq, Ha by done. apply orb_true_r.
Qed.

Lemma range_pages_elem s n p :
  p ∈ range_pages (s * PAGE_SIZE, n) ↔ s ≤ p < s + n.
Proof.
  unfold range_pages; simpl. rewrite Z.div_mul by (unfold PAGE_SIZE; lia).
  rewrite elem_of_seqZ. lia.
Qed.

Lemma elem_of_pages_of a n p : p ∈ pages_of (a, n) ↔ a / PAGE_SIZE ≤ p < a / PAGE_SIZE + n.
Proof. unfold pages_of, range_pages. rewrite elem_of_list_to_set, elem_of_seqZ. simpl. lia. Qed.

Lemma pages_of_run s n p : p ∈ pages_of (s * PAGE_SIZE, n) ↔ s ≤ p < s + n.
Proof. rewrite elem_of_pages_of, Z.div_mul; [done|unfold PAGE_SIZE; lia]. Qed.

(** A free clears exactly the pages it is given, when they lie below 4 GB. *)
Lemma is_allocated_free a fa q :
  0 ≤ a → 0 ≤ q →
  is_allocated (free a fa) q =
    negb (bool_decide (q = a / PAGE_SIZE) && bool_decide (q < MAX_PAGES)) && is_allocated fa q.
Proof.
  intros Ha Hq. assert (0 ≤ a / PAGE_SIZE) by (apply Z.div_pos; [done|unfold PAGE_SIZE; lia]).
  unfold free. set (p := a / PAGE_SIZE) in *. clearbody p.
  destruct (Z.ltb_spec p MAX_PAGES); simpl; last first.
  { destruct (decide (q = p)) as [->|]; [|by rewrite bool_decide_eq_false_2].
    rewrite (bool_decide_eq_false_2 (p < MAX_PAGES)) by lia. by rewrite andb_false_r. }
  destruct (is_allocated fa p) eqn:E.
  - transitivity (is_allocated (mark_free p fa) q); [by case_match|].
    rewrite is_allocated_mark_free by lia. f_equal. f_equal. repeat case_bool_decide; done || lia.
  - destruct (decide (q = p)) as [->|]; [by rewrite E, andb_false_r|by rewrite bool_decide_eq_false_2].
Qed.

Lemma is_allocated_free_contiguous a n fa q :
  0 ≤ a → 0 ≤ q →
  is_allocated (free_contiguous a n fa) q =
    negb (bool_decide (a / PAGE_SIZE ≤ q < a / PAGE_SIZE + n) && bool_decide (q < MAX_PAGES))
    && is_allocated fa q.
Proof.
  intros Ha Hq. assert (0 ≤ a / PAGE_SIZE) by (apply Z.div_pos; [done|unfold PAGE_SIZE; lia]).
  rewrite <- is_allocated_free_loop by done. unfold free_contiguous. by case_match.
Qed.

#[local] Opaque FA_init.

Lemma own_inv_alloc b st fa own o r fa' :
  is_free_op o = false → op_ok 0 0 o → run_op o fa = (r, fa') → own_inv b st (fa, own) →
  own_inv b st (fa', from_option pages_of ∅ r ∪ own) ∧
  (∀ p, p ∈ from_option pages_of ∅ r →
    0 ≤ p ∧ (p ∉ own) ∧ is_free (FA_init b new st).1 p = true).
Proof.
  intros Hf Hok Hrun (Hinv & Hown & Hres). simpl in *.
  pose proof (alloc_inv_run_op _ _ _ _ Hok Hinv) as Hinv'. rewrite Hrun in Hinv'. simpl in Hinv'.
  pose proof (run_op_hands_out _ _ _ _ _ _ Hinv Hok Hrun) as H.
  assert (∀ q, 0 ≤ q → is_allocated fa q = true → is_allocated fa' q = true) as Hmono.
  { intros q Hq Ha. destruct r as [[a n]|]; [|by apply H].
    destruct H as (s & _ & _ & _ & _ & E). by rewrite E, Ha, orb_true_r. }
  assert (∀ p, p ∈ from_option pages_of ∅ r → 0 ≤ p ∧ is_allocated fa p = false ∧
    is_allocated fa' p = true ∧ is_free (FA_init b new st).1 p = true) as Hr.
  { destruct r as [[a n]|]; simpl; [|by intros ? ?%not_elem_of_empty]. destruct H as (s & -> & Hs & Hn & Hrf & E).
    intros p Hp%pages_of_run. assert (0 ≤ p) by lia.
    split_and!; [lia|by apply Hrf| |].
    - rewrite E by lia. by rewrite bool_decide_eq_true_2.
    - destruct (is_free _ p) eqn:Eb; [done|]. specialize (Hres p ltac:(lia) Eb).
      rewrite Hrf in Hres; [done|lia]. }
  split; [split_and!; simpl; [done| |]|].
  - intros p [Hp|Hp]%elem_of_union; [destruct (Hr p Hp) as (?&?&?&?); done|].
    destruct (Hown p Hp) as (?&?&?). eauto.
  - intros p Hp Hb. apply Hmono; [done|]. by apply Hres.
  - intros p Hp. destruct (Hr p Hp) as (?&Ha&?&?). split_and!; [done| |done].
    intros Ho. destruct (Hown p Ho) as [Ha' _]. congruence.
Qed.

Lemma own_inv_shrink b st fa own fa' a n :
  alloc_inv fa' →
  (∀ q, 0 ≤ q → is_allocated fa' q =
    negb (bool_decide (a / PAGE_SIZE ≤ q < a / PAGE_SIZE + n) && bool_decide (q < MAX_PAGES))
    && is_allocated fa q) →
  pages_of (a, n) ⊆ own → own_inv b st (fa, own) → own_inv b st (fa', own ∖ pages_of (a, n)).
Proof.
  intros Hinv E Hsub (_ & Hown & Hres). simpl in *. split_and!; simpl; [done| |].
  - intros p [Hp Hnp]%elem_of_difference. destruct (Hown p Hp) as (Ha & Hp0 & ?).
    split_and!; [|done|done]. rewrite E, Ha by done. rewrite elem_of_pages_of in Hnp.
    by rewrite (bool_decide_eq_false_2 (_ ≤ _ < _)).
  - intros p Hp Hb. rewrite E, (Hres p Hp Hb) by done.
    rewrite (bool_decide_eq_false_2 (_ ≤ _ < _)); [done|].
    intros Hin%elem_of_pages_of%Hsub. destruct (Hown p Hin) as (_ & _ & Hc). congruence.
Qed.

Lemma own_inv_step b st s o r s' : own_step s o r s' → own_inv b st s → own_inv b st s'.
Proof.
  intros Hstep Hinv. destruct Hstep as [fa own o r fa' Hf Hok Hrun|fa own a Ha Hsub|fa own a n Ha Hn Hsub].
  - eapply own_inv_alloc; eauto.
  - apply own_inv_shrink with fa; [apply alloc_inv_free; [done|apply Hinv]| |done|done].
    intros q Hq. rewrite is_allocated_free by done. f_equal. f_equal. f_equal.
    apply bool_decide_ext. lia.
  - apply own_inv_shrink with fa; [apply alloc_inv_free_contiguous; [done|apply Hinv]| |done|done].
    intros q Hq. by apply is_allocated_free_contiguous.
Qed.

Lemma own_inv_reachable b st s : 0 ≤ kernel_start b → own_reachable b st s → own_inv b st s.
Proof.
  intros Hk H. induction H as [|s o r s' _ IH Hstep]; [|by apply (own_inv_step b st s o r)].
  split_and!; simpl; [by apply FA_init_alloc_inv|by intros ? ?%not_elem_of_empty|].
  intros p _ Hp. unfold is_free in Hp. by apply negb_false_iff.
Qed.

#[local] Transparent FA_init.

(** ** The interface laws *)

Lemma addr_page_inj a b : a mod PAGE_SIZE = 0 → b mod PAGE_SIZE = 0 →
  a / PAGE_SIZE = b / PAGE_SIZE → a = b.
Proof. unfold PAGE_SIZE. intros. zdiv. Qed.

(** What one frame allocation does, in the terms of the interface. *)
Lemma alloc_frame_effect f a f' :
  alloc_inv f → alloc f = (Some a, f') →
  fs_avail f a ∧ ¬ fs_avail f' a ∧ 0 ≤ a < 2 ^ 32 ∧ a mod 4096 = 0 ∧
  ∀ b, b ≠ a → fs_avail f' b ↔ fs_avail f b.
Proof.
  intros [Hc Hh] E. pose proof (alloc_result_1 f Hh) as Hr. rewrite E in Hr.
  destruct Hr as (s & -> & Hs0 & Hs & Hrf & _ & Hq). rewrite MAX_PAGES_val in Hs. simpl.
  rewrite Z.mod_mul, Z.div_mul by done. unfold is_free. split_and!; try (unfold PAGE_SIZE; lia).
  - rewrite Hrf; [done|lia].
  - intros (_ & _ & Hf). rewrite Hq, bool_decide_eq_true_2 in Hf by lia. done.
  - by rewrite Z.mod_mul.
  - intros b Hne.
    assert (0 ≤ b → b mod PAGE_SIZE = 0 →
      is_allocated f' (b / PAGE_SIZE) = is_allocated f (b / PAGE_SIZE)) as Eb.
    { intros H0 Hm. assert (0 ≤ b / PAGE_SIZE) by (by apply Z.div_pos).
      rewrite Hq by done. rewrite bool_decide_eq_false_2; [done|]. intros ?. apply Hne.
      apply addr_page_inj; [done|by rewrite Z.mod_mul|]. rewrite Z.div_mul by done. lia. }
    split; intros (?&?&?); (split_and!; [done|done|]); [rewrite <- Eb|rewrite Eb]; done.
Qed.

#[export] Instance FrameAllocator_laws : FrameSourceLaws FrameAllocator.
Proof.
  split.
  - apply alloc_inv_alloc.
  - intros f a f' Hinv E. destruct (alloc_frame_effect f a f' Hinv E) as (?&?&?&?&?). done.
  - intros f a f' b Hinv E. destruct (alloc_frame_effect f a f' Hinv E) as (?&?&?&?&H). apply H.
  - intros f f' [Hc Hh] E. pose proof (alloc_result_1 f Hh) as Hr. simpl in E. rewrite E in Hr. simpl in Hr.
    destruct Hr as [-> Hno]. split; [done|]. intros b (Hb0 & _ & Hf).
    assert (0 ≤ b / PAGE_SIZE) as Hp by (by apply Z.div_pos). apply (Hno _ Hp).
    intros q Hq. replace q with (b / PAGE_SIZE) by lia. by apply negb_true_iff.
  - intros f a Hinv Ha. by apply alloc_inv_free.
  - intros f a b [Ha Ha'] Ham. simpl. unfold is_free.
    assert (∀ b, 0 ≤ b → 0 ≤ b / PAGE_SIZE) as Hdiv by (intros; by apply Z.div_pos).
    assert (a / PAGE_SIZE < MAX_PAGES) as Hlt by (rewrite MAX_PAGES_val; unfold PAGE_SIZE; zdiv).
    split.
    + intros (Hb & Hbm & Hf). rewrite is_allocated_free in Hf by auto.
      destruct (decide (b / PAGE_SIZE = a / PAGE_SIZE)) as [E|E]; [right; by apply addr_page_inj|left].
      by rewrite bool_decide_eq_false_2 in Hf.
    + intros [(Hb & Hbm & Hf)| ->]; (split_and!; [done|done|]); rewrite is_allocated_free by auto.
      * apply negb_true_iff in Hf. by rewrite Hf, andb_false_r.
      * by rewrite !bool_decide_eq_true_2.
Qed.

(** The statistics [init] publishes. *)
Lemma FA_init_stats b fa st :
  (FA_init b fa st).2 =
    update_stats (free_pages (FA_init b fa st).1)
      (u64 (total_pages (FA_init b fa st).1 - free_pages (FA_init b fa st).1)) st.
Proof. unfold FA_init. cbn [fst snd]. reflexivity. Qed.

(** ** Counting lemmas for the properties *)

Lemma free_le_total fa : count_ok fa → 0 ≤ free_pages fa ≤ total_pages fa.
Proof.
  intros (E & Ht & Hb). rewrite E. pose proof (count_range_bounds 0 MAX_PAGES (is_free fa) ltac:(done)).
  pose proof (count_range_le 0 MAX_PAGES (total_pages fa) (is_free fa) ltac:(lia)
    ltac:(intros; apply Hb; [lia|done])). lia.
Qed.

(** The counter is determined by the bitmap. *)
Lemma free_pages_ext fa fa' :
  count_ok fa → count_ok fa' → (∀ p, 0 ≤ p → is_allocated fa' p = is_allocated fa p) →
  free_pages fa' = free_pages fa.
Proof.
  intros (E & _) (E' & _) H. rewrite E, E'. apply count_range_ext. intros j Hj. unfold is_free.
  rewrite H; [done|lia].
Qed.

Lemma free_pages_alloc_contiguous fa count a fa' :
  1 ≤ count → alloc_inv fa → alloc_contiguous count fa = (Some a, fa') →
  free_pages fa' = free_pages fa - count.
Proof.
  intros Hn [Hc Hh] E. pose proof (alloc_contiguous_result fa count Hn Hh) as Hr.
  destruct (alloc_contiguous_state fa count a fa' Hn Hh E) as (s & h & -> & Hs & ->).
  rewrite E in Hr. destruct Hr as (s' & Hs' & _ & _ & Hrf & _). simpl in *.
  apply Z.mul_cancel_r in Hs' as ->; [|done]. apply free_pages_mark_run; [lia|lia|done|done].
Qed.

(** [stats()] never underflows. *)
Lemma stats_exact fa :
  alloc_inv fa →
  stats fa = (total_count fa * PAGE_SIZE, (total_count fa - free_count fa) * PAGE_SIZE,
              free_count fa * PAGE_SIZE).
Proof.
  intros [Hc _]. pose proof (free_le_total fa Hc). destruct Hc as (_ & Ht & _).
  rewrite MAX_PAGES_val in Ht. unfold stats, total_count, free_count, PAGE_SIZE. cbn zeta.
  rewrite u64_small by lia. f_equal. f_equal. lia.
Qed.

(** The guard of [extend_heap] when no addition wraps. *)
Lemma heap_ok_size h : heap_ok h → heap_size h = HEAP_END h - HEAP_START.
Proof.
  unfold heap_ok, heap_size, HEAP_START, HEAP_SIZE, MAX_HEAP_SIZE. intros [? _].
  apply u64_small. lia.
Qed.

Lemma heap_ok_init : heap_ok heap_init.
Proof. by vm_compute. Qed.

(** Rounding the request up to whole pages. *)
Lemma round_pages n : 0 ≤ n →
  n ≤ (n + PAGE_SIZE - 1) / PAGE_SIZE * PAGE_SIZE < n + PAGE_SIZE.
Proof. unfold PAGE_SIZE. intros. zdiv. Qed.

Lemma extend_heap_ok additional h fa :
  heap_ok h → 0 ≤ additional < 2 ^ 63 → heap_size h + additional ≤ MAX_HEAP_SIZE →
  let grow := (additional + PAGE_SIZE - 1) / PAGE_SIZE * PAGE_SIZE in
  extend_heap additional (h, fa) =
    (Ok tt, (mkHeap (HEAP_END h + grow), reserve_range (HEAP_END h) (HEAP_END h + grow) fa)).
Proof.
  intros Hh Ha Hle grow. pose proof (heap_ok_size h Hh) as Es. pose proof (round_pages additional ltac:(lia)).
  destruct Hh as [Hr _]. unfold HEAP_START, HEAP_SIZE, MAX_HEAP_SIZE in *. unfold extend_heap.
  fold (heap_size h). rewrite (u64_small (heap_size h + additional)) by lia.
  rewrite (proj2 (Z.ltb_ge _ _)) by done. cbn zeta.
  rewrite (u64_small (additional + _ - 1)) by (unfold PAGE_SIZE; lia). fold grow. unfold PAGE_SIZE in *.
  fold grow in H. rewrite (u64_small grow), (u64_small (HEAP_END h + grow)) by lia. done.
Qed.

(** ** Properties *)

(** C1: [alloc_frames(count)] returns the lowest run of [count] free frames and
    marks exactly that run allocated, or returns [None] only when no such run
    exists and then changes nothing; the free counter drops by [count] exactly
    on success, and the allocator's invariant is kept. *)
Theorem alloc_frames_spec fa count :
  alloc_inv fa → 1 ≤ count →
  let '(r, fa') := alloc_contiguous count fa in
  alloc_result fa count r fa' ∧ alloc_inv fa' ∧
  free_count fa' = free_count fa - (if r is Some _ then count else 0).
Proof.
  intros Hinv Hn. pose proof Hinv as [Hc Hh].
  pose proof (alloc_contiguous_result fa count Hn Hh) as Hr.
  pose proof (alloc_inv_alloc_contiguous fa count Hinv) as Hinv'.
  destruct (alloc_contiguous count fa) as [r fa'] eqn:E. simpl in *.
  split; [done|]. split; [done|].
  unfold free_count. destruct r as [a|]; [by eapply free_pages_alloc_contiguous|].
  destruct Hr as [-> _]. lia.
Qed.

(** C2: callers that free only what they hold never receive, in any interleaving
    of [alloc_frame], [alloc_frames], [free_frame], [free_frames] and
    [reserve_range] after [init], a page another caller still holds, a page that
    is not usable RAM, or a page of the low megabyte, the kernel image or the
    heap. *)
Theorem alloc_exclusive b st s o r s' :
  0 ≤ kernel_start b → own_reachable b st s → own_step s o (Some r) s' →
  alloc_inv s'.1 ∧
  ∀ p, p ∈ pages_of r →
    0 ≤ p ∧ (p ∉ s.2) ∧ boot_available b p = true ∧ boot_reserved b p = false.
Proof.
  intros Hk Hs Hstep. apply own_inv_reachable in Hs; [|done].
  split; [by eapply own_inv_step|]. intros p Hp.
  inversion Hstep as [fa own o' r' fa' Hf Hok Hrun| |]; subst.
  destruct (own_inv_alloc _ _ _ _ _ _ _ Hf Hok Hrun Hs) as [_ H].
  destruct (H p Hp) as (Hp0 & Hno & Hfree). split_and!; [done|done|..];
    rewrite FA_init_bitmap in Hfree by done; by apply andb_true_iff in Hfree as [? ?%negb_true_iff].
Qed.

(** C3: after [init] a page is free exactly when the boot memory map reports it
    as whole available RAM below 4 GB and it is outside the reserved ranges; the
    counters agree with the bitmap and the published statistics with the
    counters. *)
Theorem init_exact b st :
  0 ≤ kernel_start b →
  let '(fa, st') := FA_init b new st in
  (∀ p, 0 ≤ p → is_free fa p = boot_available b p && negb (boot_reserved b p)) ∧
  alloc_inv fa ∧
  st_free_pages st' = free_count fa ∧
  st_free_pages st' + st_used_pages st' = total_count fa.
Proof.
  intros Hk. pose proof (FA_init_alloc_inv b st Hk) as [Hc Hh].
  pose proof (λ p Hp, FA_init_bitmap b st p Hp Hk) as Hb. pose proof (FA_init_stats b new st) as Est.
  destruct (FA_init b new st) as [fa st']. cbn [fst snd] in *. subst st'.
  split; [done|]. split; [done|]. split; [done|].
  pose proof (free_le_total fa Hc). destruct Hc as (_ & Ht & _). rewrite MAX_PAGES_val in Ht.
  unfold total_count. simpl. rewrite u64_small; lia.
Qed.

(** Freeing what [alloc_frames] returned restores every page's status and the
    free counter, and the next-free hint then reaches the freed run again. *)
Theorem free_alloc_roundtrip fa count a fa' :
  alloc_inv fa → 1 ≤ count → alloc_contiguous count fa = (Some a, fa') →
  (∀ p, 0 ≤ p → is_allocated (free_contiguous a count fa') p = is_allocated fa p) ∧
  free_count (free_contiguous a count fa') = free_count fa ∧
  alloc_inv (free_contiguous a count fa') ∧
  (alloc_contiguous count (free_contiguous a count fa')).1 = Some a.
Proof.
  intros Hinv Hn E. pose proof Hinv as [Hc Hh].
  pose proof (alloc_contiguous_result fa count Hn Hh) as Hr.
  pose proof (alloc_inv_alloc_contiguous fa count Hinv) as Hinv'. rewrite E in Hr, Hinv'. simpl in *.
  destruct Hr as (s & -> & Hs & Hle & Hrf & Hlow & Hq). set (fb := free_contiguous _ _ _).
  assert (0 ≤ s * PAGE_SIZE) by (unfold PAGE_SIZE; lia).
  assert (alloc_inv fb) as Hinvb by by apply alloc_inv_free_contiguous.
  assert (∀ p, 0 ≤ p → is_allocated fb p = is_allocated fa p) as Heq.
  { intros p Hp. unfold fb. rewrite is_allocated_free_contiguous, Hq, Z.div_mul by done.
    case_bool_decide; simpl; [|done]. rewrite bool_decide_eq_true_2, Hrf by lia. done. }
  split_and!; [done| |done|].
  - apply free_pages_ext; [done|apply Hinvb|done].
  - pose proof (alloc_contiguous_result fb count Hn (proj2 Hinvb)) as Hr'.
    destruct (alloc_contiguous count fb) as [[a'|] fc]; simpl in *; last first.
    { destruct Hr' as [_ Hno]. exfalso. apply (Hno s Hs). intros p Hp. rewrite Heq by lia. auto. }
    destruct Hr' as (t & -> & Ht & _ & Hrt & Hlt & _). do 2 f_equal.
    destruct (Z.lt_total s t) as [Hst|[|Hst]]; [exfalso|done|exfalso].
    + apply (Hlt s ltac:(lia)). intros p Hp. rewrite Heq by lia. auto.
    + apply (Hlow t ltac:(lia)). intros p Hp. rewrite <- Heq by lia. auto.
Qed.

(** [extend_heap] grows the heap by the request rounded up to whole pages and
    reserves exactly those frames, or fails with the size limit and changes
    nothing; the heap stays page aligned and at most [MAX_HEAP_SIZE] long. *)
Theorem extend_heap_spec h fa additional :
  heap_ok h → alloc_inv fa → 0 ≤ additional < 2 ^ 63 →
  match extend_heap additional (h, fa) with
  | (Ok _, (h', fa')) =>
      heap_ok h' ∧ alloc_inv fa' ∧
      heap_size h + additional ≤ heap_size h' < heap_size h + additional + PAGE_SIZE ∧
      ∀ p, 0 ≤ p → is_allocated fa' p =
        bool_decide (HEAP_END h ≤ p * PAGE_SIZE < HEAP_END h') || is_allocated fa p
  | (Err _, s') => MAX_HEAP_SIZE < heap_size h + additional ∧ s' = (h, fa)
  | (Panic, _) => False
  end.
Proof.
  intros Hh Hinv Ha. pose proof (heap_ok_size h Hh) as Es.
  destruct (Z.le_gt_cases (heap_size h + additional) MAX_HEAP_SIZE) as [Hle|Hgt].
  - rewrite extend_heap_ok by done. cbn zeta. pose proof (round_pages additional ltac:(lia)) as Hg.
    set (grow := _ * PAGE_SIZE) in *. assert (grow mod PAGE_SIZE = 0) as Hgm by by apply Z.mod_mul.
    assert (heap_ok (mkHeap (HEAP_END h + grow))) as Hh'.
    { destruct Hh as [Hr Hm]. rewrite Es in Hle. split; simpl.
      - unfold HEAP_START, HEAP_SIZE, MAX_HEAP_SIZE, PAGE_SIZE in *. zdiv.
      - rewrite Z.add_mod, Hm, Hgm by done. done. }
    split; [done|]. split; [apply alloc_inv_reserve_range; [unfold heap_ok, HEAP_START, HEAP_SIZE in Hh; lia|done]|].
    split; [rewrite (heap_ok_size _ Hh'), Es; simpl; lia|]. intros p Hp.
    destruct Hh as [Hr Hm], Hh' as [Hr' Hm']. clearbody grow. simpl in *. unfold reserve_range.
    unfold HEAP_START, HEAP_SIZE, MAX_HEAP_SIZE, PAGE_SIZE in *. rewrite u64_small by lia.
    rewrite is_allocated_mark_range by (done || zdiv). f_equal. apply bool_decide_ext. zdiv.
  - destruct Hh as [Hr _]. unfold extend_heap. fold (heap_size h).
    unfold HEAP_START, HEAP_SIZE, MAX_HEAP_SIZE in *.
    rewrite (u64_small (heap_size h + additional)), (proj2 (Z.ltb_lt _ _)) by lia.
    split; [lia|done].
Qed.

(** The guard of [extend_heap] is computed with wrapping additions: a request near
    [2^64] passes it and moves the heap's end back to its start. *)
Lemma extend_heap_guard_wraps fa :
  ∃ fa', extend_heap (2 ^ 64 - HEAP_SIZE) (heap_init, fa) = (Ok tt, (mkHeap HEAP_START, fa')).
Proof. eexists. reflexivity. Qed.

(** The frames the heap grows into are not asked for: the outcome does not depend
    on whether they were already handed out. *)
Lemma extend_heap_ignores_owners n h fa fa' :
  (extend_heap n (h, fa)).1 = (extend_heap n (h, fa')).1 ∧
  (extend_heap n (h, fa)).2.1 = (extend_heap n (h, fa')).2.1.
Proof. unfold extend_heap. by case_match. Qed.

(** ** Witnesses *)

#[local] Opaque FA_init.

(** An allocator with two free pages. *)
Definition fa_two : FrameAllocator := mark_free 5 (mark_free 4 new).

Lemma alloc_inv_fa_two : alloc_inv fa_two.
Proof.
  split; [repeat (apply count_ok_mark_free; [done|]); apply count_ok_fresh|].
  split; [by vm_compute|]. intros p Hp. change (first_free fa_two) with 0 in Hp. lia.
Qed.

Definition boot0 : BootInfo := mkBoot None 0x100000 0x400000.

Lemma alloc_frames_spec_witness :
  alloc_inv fa_two ∧
  let '(r, fa') := alloc_contiguous 2 fa_two in
  alloc_result fa_two 2 r fa' ∧ alloc_inv fa' ∧
  free_count fa' = free_count fa_two - (if r is Some _ then 2 else 0).
Proof.
  split; [apply alloc_inv_fa_two|]. apply (alloc_frames_spec fa_two 2); [apply alloc_inv_fa_two|lia].
Defined.

Lemma alloc_at fa p :
  hint_ok fa → 0 ≤ p < MAX_PAGES → is_free fa p = true →
  (∀ j, 0 ≤ j < p → is_free fa j = false) → (alloc fa).1 = Some (p * PAGE_SIZE).
Proof. intros Hh Hp Hf Hlt. rewrite alloc_lowest by done. by rewrite (find_range_Some_iff _ _ _ p). Qed.

Lemma boot0_alloc :
  (alloc (FA_init boot0 new MEMORY_STATS0).1).1 = Some 0x800000.
Proof.
  pose proof (FA_init_alloc_inv boot0 MEMORY_STATS0 ltac:(by vm_compute)) as [_ Hh].
  apply (alloc_at _ 2048); [exact Hh|by vm_compute|..].
  - rewrite FA_init_bitmap by done. reflexivity.
  - intros j Hj. rewrite FA_init_bitmap by (done || lia). apply andb_false_iff. right.
    apply negb_false_iff. unfold boot_reserved. simpl.
    rewrite (bool_decide_ext (j < _) (j < 256)) by done.
    rewrite (bool_decide_ext (_ ≤ j < _) (256 ≤ j < 2048)) by done.
    repeat case_bool_decide; try done; lia.
Qed.

Lemma own_step_alloc fa own a :
  (alloc fa).1 = Some a →
  own_step (fa, own) OpAlloc (Some (a, 1)) ((alloc fa).2, pages_of (a, 1) ∪ own).
Proof.
  intros E. apply (own_alloc fa own OpAlloc (Some (a, 1))); [done|done|]. simpl.
  destruct (alloc fa) as [r fa']. simpl in E. by rewrite E.
Qed.

Lemma alloc_exclusive_witness :
  let fa := (FA_init boot0 new MEMORY_STATS0).1 in
  alloc_inv (alloc fa).2 ∧
  ∀ p, p ∈ pages_of (0x800000, 1) →
    0 ≤ p ∧ (p ∉ (∅ : gset Z)) ∧ boot_available boot0 p = true ∧ boot_reserved boot0 p = false.
Proof.
  exact (alloc_exclusive boot0 MEMORY_STATS0 _ OpAlloc _ _ ltac:(by vm_compute)
    (own_boot boot0 MEMORY_STATS0)
    (own_step_alloc (FA_init boot0 new MEMORY_STATS0).1 ∅ 0x800000 boot0_alloc)).
Defined.

Lemma init_exact_witness :
  let '(fa, st') := FA_init boot0 new MEMORY_STATS0 in
  (∀ p, 0 ≤ p → is_free fa p = boot_available boot0 p && negb (boot_reserved boot0 p)) ∧
  alloc_inv fa ∧
  st_free_pages st' = free_count fa ∧
  st_free_pages st' + st_used_pages st' = total_count fa.
Proof. exact (init_exact boot0 MEMORY_STATS0 ltac:(by vm_compute)). Defined.

Lemma fa_two_alloc : (alloc_contiguous 2 fa_two).1 = Some 0x4000.
Proof. reflexivity. Qed.

Lemma free_alloc_roundtrip_witness :
  let fa' := (alloc_contiguous 2 fa_two).2 in
  (∀ p, 0 ≤ p → is_allocated (free_contiguous 0x4000 2 fa') p = is_allocated fa_two p) ∧
  free_count (free_contiguous 0x4000 2 fa') = free_count fa_two ∧
  alloc_inv (free_contiguous 0x4000 2 fa') ∧
  (alloc_contiguous 2 (free_contiguous 0x4000 2 fa')).1 = Some 0x4000.
Proof.
  apply (free_alloc_roundtrip fa_two 2 0x4000); [apply alloc_inv_fa_two|lia|].
  rewrite <- fa_two_alloc. apply surjective_pairing.
Defined.

Lemma extend_heap_spec_witness :
  match extend_heap 5000 (heap_init, fa_two) with
  | (Ok _, (h', fa')) =>
      heap_ok h' ∧ alloc_inv fa' ∧
      heap_size heap_init + 5000 ≤ heap_size h' < heap_size heap_init + 5000 + PAGE_SIZE ∧
      ∀ p, 0 ≤ p → is_allocated fa' p =
        bool_decide (HEAP_END heap_init ≤ p * PAGE_SIZE < HEAP_END h') || is_allocated fa_two p
  | (Err _, s') => MAX_HEAP_SIZE < heap_size heap_init + 5000 ∧ s' = (heap_init, fa_two)
  | (Panic, _) => False
  end.
Proof. apply (extend_heap_spec heap_init fa_two 5000); [apply heap_ok_init|apply alloc_inv_fa_two|lia]. Defined.
