(* ===== verification/Paging.v ===== *)
(** * Page tables: [arch/x86_64/paging.rs]

    The four-level tables of the kernel, kept in physical memory: [init] builds
    the identity mapping of the first 4 GB out of 2 MB pages, [map_page],
    [unmap_page] and [translate] walk it.  Physical memory is a finite map from
    the addresses of 8-byte words to their values; the frame allocator is any
    implementation of [FrameSource].  [pt_wf] is the invariant: every table is a
    frame the allocator no longer offers, and each is reached along one path of
    indices (the two PML4 slots [init] aims at the same PDPT count as one). *)

From S2P Require Import Prelude Physical.

#[local] Set Default Proof Using "Type*".

(** ** Entries *)

Definition PRESENT : Z := Z.shiftl 1 0.
Definition WRITABLE : Z := Z.shiftl 1 1.
Definition USER : Z := Z.shiftl 1 2.
Definition NO_CACHE : Z := Z.shiftl 1 4.
Definition HUGE_PAGE : Z := Z.shiftl 1 7.
Definition NO_EXECUTE : Z := Z.shiftl 1 63.

Definition ADDR_MASK : Z := 0x000FFFFFFFFFF000.
Definition FLAGS_MASK : Z := 0xFFF0000000000FFF.

(** A [PageTableEntry] is its [u64]. *)
Definition PTE_empty : Z := 0.
Definition PTE_new (addr flags : Z) : Z := Z.lor (Z.land addr ADDR_MASK) flags.
Definition is_present (e : Z) : bool := negb (Z.land e PRESENT =? 0).
Definition is_writable (e : Z) : bool := negb (Z.land e WRITABLE =? 0).
Definition is_user (e : Z) : bool := negb (Z.land e USER =? 0).
Definition is_huge (e : Z) : bool := negb (Z.land e HUGE_PAGE =? 0).
Definition pte_addr (e : Z) : Z := Z.land e ADDR_MASK.
Definition pte_flags (e : Z) : Z := Z.land e FLAGS_MASK.
Definition set_addr (addr e : Z) : Z := Z.lor (Z.land e FLAGS_MASK) (Z.land addr ADDR_MASK).
Definition set_flags (flags e : Z) : Z := Z.lor (Z.land e ADDR_MASK) flags.

(** ** Indices *)

Record PageTableIndices : Type := mkIndices {
  pml4 : Z; pdpt : Z; pd : Z; pt : Z; offset : Z;
}.

Definition from_addr (addr : Z) : PageTableIndices :=
  mkIndices (Z.land (Z.shiftr addr 39) 0x1FF) (Z.land (Z.shiftr addr 30) 0x1FF)
    (Z.land (Z.shiftr addr 21) 0x1FF) (Z.land (Z.shiftr addr 12) 0x1FF) (Z.land addr 0xFFF).

(** ** Memory *)

(** Where the linker put the kernel's static tables. *)
Record Layout : Type := mkLayout {
  KERNEL_PML4 : Z;
  KERNEL_PDPT : Z;
  KERNEL_PD : Z → Z;
}.

Record PT (F : Type) : Type := mkPT { mem : gmap Z Z; frames : F }.
Arguments mkPT {F} _ _.
Arguments mem {F} _.
Arguments frames {F} _.

Definition rd (m : gmap Z Z) (a : Z) : Z := default 0 (m !! a).

(** The address of entry [i] of the table at [t]. *)
Definition slot (t i : Z) : Z := t + 8 * i.

(** [write_bytes(table, 0, 1)] *)
Definition zero_table (t : Z) (m : gmap Z Z) : gmap Z Z :=
  for_range 0 512 (λ i m, <[slot t i := 0]> m) m.

Section Paging.
Context {F : Type} `{FrameSource F}.
Variable L : Layout.

Definition pt_write (a v : Z) : M (PT F) unit :=
  m_modify (λ s, mkPT (<[a := v]> (mem s)) (frames s)).

Definition alloc_frame (err : string) : M (PT F) Z := λ s,
  let '(r, fr) := fs_alloc (frames s) in (ok_or r err, mkPT (mem s) fr).

(** [init] stores into the statics and loads CR3. *)
Definition paging_init (m : gmap Z Z) : gmap Z Z :=
  let m := <[slot (KERNEL_PML4 L) 0 := PTE_new (KERNEL_PDPT L) (Z.lor PRESENT WRITABLE)]> m in
  let m := <[slot (KERNEL_PML4 L) 511 := PTE_new (KERNEL_PDPT L) (Z.lor PRESENT WRITABLE)]> m in
  for_range 0 4 (λ i m,
    let m := <[slot (KERNEL_PDPT L) i := PTE_new (KERNEL_PD L i) (Z.lor PRESENT WRITABLE)]> m in
    for_range 0 512 (λ j m,
      <[slot (KERNEL_PD L i) j :=
          PTE_new ((i * 512 + j) * 0x200000) (Z.lor (Z.lor PRESENT WRITABLE) HUGE_PAGE)]> m) m) m.

(** "Get or create" of one level: the table the entry at [a] points to. *)
Definition ensure_table (a : Z) (err : string) : M (PT F) Z :=
  s ← m_get;
  (if negb (is_present (rd (mem s) a)) then
     phys ← alloc_frame err;
     pt_write a (PTE_new phys (Z.lor PRESENT WRITABLE));;
     m_modify (λ s, mkPT (zero_table (pte_addr (rd (mem s) a)) (mem s)) (frames s))
   else mret tt);;
  s ← m_get;
  mret (pte_addr (rd (mem s) a)).

Definition map_page (virt phys flags : Z) : M (PT F) unit :=
  let indices := from_addr virt in
  pdpt_t ← ensure_table (slot (KERNEL_PML4 L) (pml4 indices)) "Failed to allocate PDPT";
  pd_t ← ensure_table (slot pdpt_t (pdpt indices)) "Failed to allocate PD";
  pt_t ← ensure_table (slot pd_t (pd indices)) "Failed to allocate PT";
  pt_write (slot pt_t (pt indices)) (PTE_new phys flags).

Definition unmap_page (virt : Z) : M (PT F) Z :=
  let indices := from_addr virt in
  s ← m_get;
  let pml4_entry := rd (mem s) (slot (KERNEL_PML4 L) (pml4 indices)) in
  m_guard (is_present pml4_entry) "PML4 entry not present";;
  let pdpt_entry := rd (mem s) (slot (pte_addr pml4_entry) (pdpt indices)) in
  m_guard (is_present pdpt_entry) "PDPT entry not present";;
  let pd_entry := rd (mem s) (slot (pte_addr pdpt_entry) (pd indices)) in
  m_guard (is_present pd_entry) "PD entry not present";;
  let a := slot (pte_addr pd_entry) (pt indices) in
  let pt_entry := rd (mem s) a in
  m_guard (is_present pt_entry) "PT entry not present";;
  pt_write a PTE_empty;;
  mret (pte_addr pt_entry).

Definition translate (m : gmap Z Z) (virt : Z) : option Z :=
  let indices := from_addr virt in
  let pml4_entry := rd m (slot (KERNEL_PML4 L) (pml4 indices)) in
  if negb (is_present pml4_entry) then None
  else
    let pdpt_entry := rd m (slot (pte_addr pml4_entry) (pdpt indices)) in
    if negb (is_present pdpt_entry) then None
    else if is_huge pdpt_entry then Some (u64 (pte_addr pdpt_entry + Z.land virt 0x3FFFFFFF))
    else
      let pd_entry := rd m (slot (pte_addr pdpt_entry) (pd indices)) in
      if negb (is_present pd_entry) then None
      else if is_huge pd_entry then Some (u64 (pte_addr pd_entry + Z.land virt 0x1FFFFF))
      else
        let pt_entry := rd m (slot (pte_addr pd_entry) (pt indices)) in
        if negb (is_present pt_entry) then None
        else Some (u64 (pte_addr pt_entry + offset indices)).

(** ** Specification vocabulary *)

(** The paths of indices: entry [i] of the table reached along [π] leads along
    [child π i]; the PML4 slots 0 and 511 hold the same PDPT. *)
Definition child (π : list Z) (i : Z) : list Z :=
  match π with [] => [if i =? 511 then 0 else i] | _ => π ++ [i] end.

(** The indices of an address, in the order of the walk. *)
Definition idx (k : nat) (v : Z) : Z :=
  match k with
  | 0%nat => pml4 (from_addr v)
  | 1%nat => pdpt (from_addr v)
  | 2%nat => pd (from_addr v)
  | _ => pt (from_addr v)
  end.

(** The path of the table that holds level [k]'s entry for [v]. *)
Fixpoint path (k : nat) (v : Z) : list Z :=
  match k with O => [] | S k => child (path k v) (idx k v) end.

(** Two addresses of the same page, up to the aliased PML4 slots. *)
Definition same_page (v w : Z) : Prop := path 4 v = path 4 w.

(** The tables, with the path each is reached along. *)
Record pt_wf (own : gmap Z (list Z)) (s : PT F) : Prop := mk_pt_wf {
  wf_root : own !! KERNEL_PML4 L = Some [];
  wf_table : ∀ t π, own !! t = Some π →
    0 ≤ t < 2 ^ 52 ∧ t mod 4096 = 0 ∧ ¬ fs_avail (frames s) t ∧ (length π ≤ 3)%nat;
  wf_entry : ∀ t π i, own !! t = Some π → 0 ≤ i < 512 → (length π < 3)%nat →
    is_present (rd (mem s) (slot t i)) = true →
    (length π = 2%nat ∧ is_huge (rd (mem s) (slot t i)) = true) ∨
    (is_huge (rd (mem s) (slot t i)) = false ∧
     own !! pte_addr (rd (mem s) (slot t i)) = Some (child π i));
  wf_frames : fs_wf (frames s);
}.

(** The walk from the table [t] that holds level [4 - n]'s entry: the leaf it ends
    at, with the leaf's level (0 a 4 KB page, 1 a 2 MB page, 2 a 1 GB page). *)
Fixpoint walk (m : gmap Z Z) (n : nat) (t v : Z) : option (nat * Z) :=
  match n with
  | O => None
  | S n =>
      let e := rd m (slot t (idx (3 - n) v)) in
      if negb (is_present e) then None
      else if bool_decide (n = 0%nat) || (bool_decide (n < 3)%nat && is_huge e) then Some (n, e)
      else walk m n (pte_addr e) v
  end.

Definition leaf_mask (n : nat) : Z :=
  match n with O => 0xFFF | 1%nat => 0x1FFFFF | _ => 0x3FFFFFFF end.

(** No 2 MB page covers [v]. *)
Definition not_huge (m : gmap Z Z) (v : Z) : Prop :=
  ∀ e, walk m 4 (KERNEL_PML4 L) v ≠ Some (1%nat, e).

(** The walk of [v] gets to the table [t] at level [k]. *)
Inductive reaches (m : gmap Z Z) (v : Z) : nat → Z → Prop :=
| reaches_root : reaches m v 0 (KERNEL_PML4 L)
| reaches_next k t :
    reaches m v k t → is_present (rd m (slot t (idx k v))) = true →
    is_huge (rd m (slot t (idx k v))) = false →
    reaches m v (S k) (pte_addr (rd m (slot t (idx k v)))).

(** Between two states tables are only added, out of frames that were available,
    and frames are only taken. *)
Definition grown (own own' : gmap Z (list Z)) (s s' : PT F) : Prop :=
  own ⊆ own' ∧
  (∀ t, is_Some (own' !! t) → is_Some (own !! t) ∨ fs_avail (frames s) t) ∧
  (∀ b, fs_avail (frames s') b → fs_avail (frames s) b) ∧
  ∀ b, fs_avail (frames s) b → fs_avail (frames s') b ∨ is_Some (own' !! b).

(** What a "get or create" level promises. *)
Definition ensured (own : gmap Z (list Z)) (s : PT F) (t : Z) (π : list Z) (i : Z)
    (r : res Z * PT F) : Prop :=
  match r with
  | (Ok t', s') => ∃ own', pt_wf own' s' ∧ grown own own' s s' ∧ own' !! t' = Some (child π i) ∧
      is_present (rd (mem s') (slot t i)) = true ∧ is_huge (rd (mem s') (slot t i)) = false ∧
      pte_addr (rd (mem s') (slot t i)) = t' ∧
      (∀ u ρ j, own !! u = Some ρ → 0 ≤ j < 512 → is_present (rd (mem s) (slot u j)) = true →
        rd (mem s') (slot u j) = rd (mem s) (slot u j)) ∧
      ∀ v, walk (mem s') 4 (KERNEL_PML4 L) v = walk (mem s) 4 (KERNEL_PML4 L) v
  | (Err _, s') => s' = s ∧ ∀ b, ¬ fs_avail (frames s) b
  | (Panic, _) => False
  end.

(** The three levels above the leaf: the page table of [virt], or no memory. *)
Definition get_pt (virt : Z) : M (PT F) Z :=
  let indices := from_addr virt in
  pdpt_t ← ensure_table (slot (KERNEL_PML4 L) (pml4 indices)) "Failed to allocate PDPT";
  pd_t ← ensure_table (slot pdpt_t (pdpt indices)) "Failed to allocate PD";
  ensure_table (slot pd_t (pd indices)) "Failed to allocate PT".

(** The linker's placement: page-aligned, distinct tables. *)
Definition is_static (t : Z) : Prop :=
  t = KERNEL_PML4 L ∨ t = KERNEL_PDPT L ∨ ∃ i, 0 ≤ i < 4 ∧ t = KERNEL_PD L i.

Record layout_ok : Prop := mk_layout_ok {
  lo_aligned : ∀ t, is_static t → 0 ≤ t < 2 ^ 52 ∧ t mod 4096 = 0;
  lo_pdpt : KERNEL_PML4 L ≠ KERNEL_PDPT L;
  lo_pd : ∀ i, 0 ≤ i < 4 → KERNEL_PD L i ≠ KERNEL_PML4 L ∧ KERNEL_PD L i ≠ KERNEL_PDPT L;
  lo_inj : ∀ i j, 0 ≤ i < 4 → 0 ≤ j < 4 → KERNEL_PD L i = KERNEL_PD L j → i = j;
}.

(** The tables [init] fills and the path each is reached along. *)
Definition own_init : gmap Z (list Z) :=
  <[KERNEL_PML4 L := []]> (<[KERNEL_PDPT L := [0]]>
    (<[KERNEL_PD L 0 := [0; 0]]> (<[KERNEL_PD L 1 := [0; 1]]>
      (<[KERNEL_PD L 2 := [0; 2]]> (<[KERNEL_PD L 3 := [0; 3]]> ∅))))).

(** The static tables before [init]: all zero. *)
Definition statics_zero (m : gmap Z Z) : Prop :=
  ∀ t j, t = KERNEL_PML4 L ∨ t = KERNEL_PDPT L → 0 ≤ j < 512 → rd m (slot t j) = 0.

Definition table_entry (a : Z) : Z := PTE_new a (Z.lor PRESENT WRITABLE).
Definition huge_entry (n : Z) : Z :=
  PTE_new (n * 0x200000) (Z.lor (Z.lor PRESENT WRITABLE) HUGE_PAGE).

(** The entries of the kernel tables once [i] page directories are filled. *)
Record init_entries (i : Z) (m : gmap Z Z) : Prop := mk_init_entries {
  ie_pml4 : ∀ j, 0 ≤ j < 512 → rd m (slot (KERNEL_PML4 L) j) =
    if (j =? 0) || (j =? 511) then table_entry (KERNEL_PDPT L) else 0;
  ie_pdpt : ∀ j, 0 ≤ j < 512 → rd m (slot (KERNEL_PDPT L) j) =
    if j <? i then table_entry (KERNEL_PD L j) else 0;
  ie_pd : ∀ k j, 0 ≤ k < i → 0 ≤ j < 512 →
    rd m (slot (KERNEL_PD L k) j) = huge_entry (k * 512 + j);
}.

End Paging.

(** ** Bits of an entry *)

Lemma ADDR_MASK_shift : ADDR_MASK = Z.shiftl (Z.ones 40) 12.
Proof. reflexivity. Qed.

Lemma land_ADDR_MASK x : Z.land x ADDR_MASK = (x / 4096) mod 2 ^ 40 * 4096.
Proof.
  rewrite ADDR_MASK_shift. rewrite <- Z.land_ones by lia. change 4096 with (2 ^ 12).
  rewrite <- Z.shiftr_div_pow2, <- Z.shiftl_mul_pow2 by lia.
  apply Z.bits_inj'. intros n Hn. rewrite Z.land_spec. destruct (Z.lt_ge_cases n 12).
  - rewrite !Z.shiftl_spec_low by lia. by rewrite andb_false_r.
  - rewrite !Z.shiftl_spec, Z.land_spec, Z.shiftr_spec by lia. do 2 f_equal. lia.
Qed.

Lemma land_ADDR_MASK_testbit x n :
  0 ≤ n → Z.testbit (Z.land x ADDR_MASK) n = bool_decide (12 ≤ n < 52) && Z.testbit x n.
Proof.
  intros Hn. rewrite ADDR_MASK_shift, Z.land_spec, andb_comm. f_equal.
  destruct (Z.lt_ge_cases n 12).
  - rewrite Z.shiftl_spec_low, bool_decide_eq_false_2 by lia. done.
  - rewrite Z.shiftl_spec by lia. destruct (Z.lt_ge_cases n 52).
    + rewrite Z.ones_spec_low, bool_decide_eq_true_2 by lia. done.
    + rewrite Z.ones_spec_high, bool_decide_eq_false_2 by lia. done.
Qed.

Lemma pte_addr_aligned e : 0 ≤ pte_addr e < 2 ^ 52 ∧ pte_addr e mod 4096 = 0.
Proof. unfold pte_addr. rewrite land_ADDR_MASK. pose proof (Z.mod_pos_bound (e / 4096) (2 ^ 40)). zdiv. Qed.

Lemma land_ADDR_MASK_frame a : 0 ≤ a < 2 ^ 52 → a mod 4096 = 0 → Z.land a ADDR_MASK = a.
Proof. intros. rewrite land_ADDR_MASK, Z.mod_small; zdiv. Qed.

Lemma land_shiftl_testbit x i : 0 ≤ i → negb (Z.land x (Z.shiftl 1 i) =? 0) = Z.testbit x i.
Proof. apply bit_on_testbit. Qed.

Lemma is_present_testbit e : is_present e = Z.testbit e 0.
Proof. by apply land_shiftl_testbit. Qed.

Lemma is_huge_testbit e : is_huge e = Z.testbit e 7.
Proof. by apply land_shiftl_testbit. Qed.

Lemma PTE_new_testbit a f n :
  0 ≤ n → Z.testbit (PTE_new a f) n = bool_decide (12 ≤ n < 52) && Z.testbit a n || Z.testbit f n.
Proof. intros. unfold PTE_new. by rewrite Z.lor_spec, land_ADDR_MASK_testbit. Qed.

Lemma is_present_new a f : is_present (PTE_new a f) = is_present f.
Proof. by rewrite !is_present_testbit, PTE_new_testbit. Qed.

Lemma is_huge_new a f : is_huge (PTE_new a f) = is_huge f.
Proof. by rewrite !is_huge_testbit, PTE_new_testbit. Qed.

(** The address of a fresh entry, for flags outside the address field. *)
Lemma pte_addr_new a f : Z.land f ADDR_MASK = 0 → pte_addr (PTE_new a f) = Z.land a ADDR_MASK.
Proof.
  intros Hf. unfold pte_addr, PTE_new. rewrite Z.land_lor_distr_l, Hf, Z.lor_0_r.
  by rewrite <- Z.land_assoc, Z.land_diag.
Qed.

Lemma pte_addr_new_frame a f :
  Z.land f ADDR_MASK = 0 → 0 ≤ a < 2 ^ 52 → a mod 4096 = 0 → pte_addr (PTE_new a f) = a.
Proof. intros. rewrite pte_addr_new by done. by apply land_ADDR_MASK_frame. Qed.

(** ** Indices and slots *)

Lemma land_511 x : Z.land x 511 = x mod 512.
Proof. change 511 with (Z.ones 9). by rewrite Z.land_ones. Qed.

Lemma idx_range k v : 0 ≤ idx k v < 512.
Proof.
  unfold idx, from_addr. destruct k as [|[|[|k]]]; simpl; rewrite land_511; by apply Z.mod_pos_bound.
Qed.

Lemma slot_inj t u i j :
  t mod 4096 = 0 → u mod 4096 = 0 → 0 ≤ i < 512 → 0 ≤ j < 512 → slot t i = slot u j → t = u ∧ i = j.
Proof. unfold slot. intros. zdiv. Qed.

Lemma rd_insert m a v x : rd (<[a := v]> m) x = if decide (a = x) then v else rd m x.
Proof.
  unfold rd. destruct (decide (a = x)) as [->|]; [by rewrite lookup_insert_eq|by rewrite lookup_insert_ne].
Qed.

Lemma rd_insert_eq m a v : rd (<[a := v]> m) a = v.
Proof. rewrite rd_insert. by rewrite decide_True. Qed.

Lemma rd_insert_ne m a v x : a ≠ x → rd (<[a := v]> m) x = rd m x.
Proof. intros. rewrite rd_insert. by rewrite decide_False. Qed.

(** A loop that stores to the slots [0, n) of a table. *)
Lemma rd_fill f t n m x :
  0 ≤ n →
  rd (for_range 0 n (λ i m, <[slot t i := f i]> m) m) x =
    if decide (slot t 0 ≤ x < slot t n ∧ (x - t) mod 8 = 0) then f ((x - t) / 8) else rd m x.
Proof.
  intros Hn.
  refine (for_range_ind (λ i m', rd m' x = if decide (slot t 0 ≤ x < slot t i ∧ (x - t) mod 8 = 0)
    then f ((x - t) / 8) else rd m x) _ _ _ _ Hn _ _).
  - rewrite decide_False; [done|]. lia.
  - intros i m' Hi IH. rewrite rd_insert, IH. unfold slot. destruct (decide (t + 8 * i = x)) as [<-|Hne].
    + rewrite decide_True by (split; [lia|zdiv]). f_equal. zdiv.
    + destruct (decide (t + 8 * 0 ≤ x < t + 8 * i ∧ _)) as [Hd|Hd].
      * rewrite decide_True; [done|]. split; [lia|tauto].
      * rewrite decide_False; [done|]. intros [Hx Hm]. apply Hd. split; [|done]. zdiv.
Qed.

Lemma rd_zero_table_in t m i : 0 ≤ i < 512 → rd (zero_table t m) (slot t i) = 0.
Proof.
  intros Hi. unfold zero_table. rewrite (rd_fill (λ _, 0)) by lia. rewrite decide_True; [done|].
  unfold slot. split; [lia|zdiv].
Qed.

Lemma rd_zero_table_out t u m i :
  t ≠ u → t mod 4096 = 0 → u mod 4096 = 0 → 0 ≤ i < 512 →
  rd (zero_table t m) (slot u i) = rd m (slot u i).
Proof.
  intros Hne Ht Hu Hi. unfold zero_table. rewrite (rd_fill (λ _, 0)) by lia.
  rewrite decide_False; [done|]. unfold slot. intros [? _]. apply Hne. zdiv.
Qed.

(** ** Paths *)

Lemma child_length π i : length (child π i) = S (length π).
Proof. destruct π; simpl; [done|]. rewrite length_app. simpl. lia. Qed.

Lemma path_length k v : length (path k v) = k.
Proof. induction k; simpl; [done|]. by rewrite child_length, IHk. Qed.

Lemma same_page_iff v w : same_page v w ↔ path 3 v = path 3 w ∧ idx 3 v = idx 3 w.
Proof.
  unfold same_page. change (path 4 v) with (child (path 3 v) (idx 3 v)).
  change (path 4 w) with (child (path 3 w) (idx 3 w)).
  pose proof (path_length 3 v) as Hv. pose proof (path_length 3 w) as Hw.
  destruct (path 3 v) as [|a l]; [done|]. destruct (path 3 w) as [|b l']; [done|].
  generalize (idx 3 v) (idx 3 w). intros i j. simpl. rewrite !app_comm_cons. split; [intros [? [=]]%app_inj_tail; done|by intros [-> ->]].
Qed.

Lemma walk_zero m n a v : (∀ i, 0 ≤ i < 512 → rd m (slot a i) = 0) → walk m n a v = None.
Proof. intros Hz. destruct n; simpl; [done|]. rewrite Hz by apply idx_range. done. Qed.

Section Proofs.
Context {F : Type} `{FrameSourceLaws F}.
Variable L : Layout.

Lemma grown_refl own (s : PT F) : grown own own s s.
Proof. split_and!; [done|by left|done|by left]. Qed.

Lemma grown_trans own1 own2 own3 (s1 s2 s3 : PT F) :
  grown own1 own2 s1 s2 → grown own2 own3 s2 s3 → grown own1 own3 s1 s3.
Proof.
  intros (Ha & Hb & Hc & Hd) (Ha' & Hb' & Hc' & Hd'). split_and!; [by trans own2| |naive_solver|].
  - intros t [Ht|Ht]%Hb'; naive_solver.
  - intros b [Hs|[π Hs]]%Hd; [by apply Hd'|]. right. exists π. by eapply lookup_weaken.
Qed.

#[local] Abbreviation root := (KERNEL_PML4 L).

Lemma translate_walk m v :
  translate L m v =
    match walk m 4 root v with
    | Some (n, e) => Some (u64 (pte_addr e + Z.land v (leaf_mask n)))
    | None => None
    end.
Proof.
  unfold translate, walk, idx, leaf_mask. simpl. repeat (case_match; simpl in *; simplify_eq; try done).
Qed.

(** Two memories that agree on the entries of every table but one slot. *)
Lemma pt_wf_child own (s : PT F) t π i :
  pt_wf L own s → own !! t = Some π → 0 ≤ i < 512 → (length π < 3)%nat →
  is_present (rd (mem s) (slot t i)) = true → is_huge (rd (mem s) (slot t i)) = false →
  own !! pte_addr (rd (mem s) (slot t i)) = Some (child π i).
Proof. intros W Ht Hi Hl Hp Hh. destruct (wf_entry _ _ _ W t π i Ht Hi Hl Hp) as [[_ ?]|[_ ?]]; congruence. Qed.

(** Linking a zeroed frame into an empty slot changes no translation. *)
Lemma walk_grow own (s : PT F) m' t0 π0 i0 a e :
  pt_wf L own s → own !! t0 = Some π0 → (length π0 < 3)%nat →
  is_present (rd (mem s) (slot t0 i0)) = false →
  pte_addr e = a → is_huge e = false →
  (∀ i, 0 ≤ i < 512 → rd m' (slot a i) = 0) →
  (∀ t π i, own !! t = Some π → 0 ≤ i < 512 →
    rd m' (slot t i) = if decide (t = t0 ∧ i = i0) then e else rd (mem s) (slot t i)) →
  ∀ n t π v, own !! t = Some π → (length π + n = 4)%nat → walk m' n t v = walk (mem s) n t v.
Proof.
  intros W Ht0 Hl0 Hnp Ha Heh Hz Hrd n. induction n as [|n IH]; intros t π v Ht Hn; [done|].
  cbn [walk]. pose proof (idx_range (3 - n) v) as Hi. set (i := idx (3 - n) v) in *.
  rewrite (Hrd t π i Ht Hi). destruct (decide _) as [[-> ->]|Hne].
  - rewrite Hnp. simpl. assert (π0 = π) as -> by congruence.
    rewrite Heh, andb_false_r, bool_decide_eq_false_2, Ha, walk_zero by (done || lia).
    by destruct (negb _).
  - destruct (is_present (rd (mem s) (slot t i))) eqn:Hp; simpl; [|done].
    destruct (bool_decide (n = 0%nat)) eqn:En; simpl; [done|]. apply bool_decide_eq_false in En.
    destruct (bool_decide (n < 3)%nat && is_huge _) eqn:Eh; [done|].
    destruct (wf_entry _ _ _ W t π i Ht Hi ltac:(lia) Hp) as [[Hl2 Hh]|[_ Hc]].
    + rewrite Hh, bool_decide_eq_true_2 in Eh by lia. done.
    + apply IH with (child π i); [done|]. rewrite child_length. lia.
Qed.

(** Writing a leaf entry changes no other page. *)
Lemma walk_leaf_write own (s : PT F) t0 v0 e :
  pt_wf L own s → own !! t0 = Some (path 3 v0) →
  ∀ n k t w, own !! t = Some (path k w) → (k + n = 4)%nat → ¬ same_page v0 w →
  walk (<[slot t0 (idx 3 v0) := e]> (mem s)) n t w = walk (mem s) n t w.
Proof.
  intros W Ht0 n. induction n as [|n IH]; intros k t w Ht Hk Hne; [done|].
  cbn [walk]. replace (3 - n)%nat with k by lia. pose proof (idx_range k w) as Hi.
  destruct (wf_table _ _ _ W t _ Ht) as (_ & Hta & _). destruct (wf_table _ _ _ W t0 _ Ht0) as (_ & Ht0a & _).
  rewrite rd_insert_ne.
  - destruct (is_present (rd (mem s) (slot t (idx k w)))) eqn:Hp; simpl; [|done].
    destruct (bool_decide (n = 0%nat)) eqn:En; simpl; [done|]. apply bool_decide_eq_false in En.
    destruct (bool_decide (n < 3)%nat && is_huge _) eqn:Eh; [done|].
    destruct (wf_entry _ _ _ W t _ (idx k w) Ht Hi ltac:(rewrite path_length; lia) Hp) as [[Hl2 Hh]|[_ Hc]].
    + rewrite path_length in Hl2. rewrite Hh, bool_decide_eq_true_2 in Eh by lia. done.
    + apply IH with (S k); [done|lia|done].
  - intros E. apply slot_inj in E as [-> Ei]; [|done|done|apply idx_range|done].
    assert (path 3 v0 = path k w) as Ep by congruence.
    assert (k = 3%nat) as -> by (by rewrite <- (path_length k w), <- Ep, path_length).
    apply Hne, same_page_iff. done.
Qed.

Lemma pt_wf_leaf_write own (s : PT F) t0 π0 i0 e :
  pt_wf L own s → own !! t0 = Some π0 → length π0 = 3%nat → 0 ≤ i0 < 512 →
  pt_wf L own (mkPT (<[slot t0 i0 := e]> (mem s)) (frames s)).
Proof.
  intros W Ht0 Hl0 Hi0. destruct (wf_table _ _ _ W t0 _ Ht0) as (_ & Ht0a & _).
  split; simpl; [apply W|apply W| |apply W].
  intros t π i Ht Hi Hl. destruct (wf_table _ _ _ W t _ Ht) as (_ & Hta & _).
  rewrite rd_insert_ne; [by apply W|].
  intros [-> _]%slot_inj; try done. rewrite Ht0 in Ht. simplify_eq. lia.
Qed.

(** One level of the walk. *)
Lemma walk_step m n t v :
  (0 < n)%nat → is_present (rd m (slot t (idx (3 - n) v))) = true →
  is_huge (rd m (slot t (idx (3 - n) v))) = false →
  walk m (S n) t v = walk m n (pte_addr (rd m (slot t (idx (3 - n) v)))) v.
Proof.
  intros Hn Hp Hh. cbn [walk]. rewrite Hp, Hh, andb_false_r, bool_decide_eq_false_2 by lia. done.
Qed.

(** The new table's frame joins the tables. *)
Lemma pt_wf_grow own (s : PT F) fr t π i a :
  let e := PTE_new a (Z.lor PRESENT WRITABLE) in
  let m' := zero_table a (<[slot t i := e]> (mem s)) in
  pt_wf L own s → own !! t = Some π → (length π < 3)%nat → 0 ≤ i < 512 →
  fs_alloc (frames s) = (Some a, fr) →
  pt_wf L (<[a := child π i]> own) (mkPT m' fr) ∧ own !! a = None ∧ pte_addr e = a ∧
  (∀ j, 0 ≤ j < 512 → rd m' (slot a j) = 0) ∧
  (∀ t2 π2 j, own !! t2 = Some π2 → 0 ≤ j < 512 →
    rd m' (slot t2 j) = if decide (t2 = t ∧ j = i) then e else rd (mem s) (slot t2 j)).
Proof.
  intros e m' W Ht Hl Hi Ea.
  destruct (fs_alloc_some _ _ _ (wf_frames _ _ _ W) Ea) as (Hav & Hnav & Har & Haa).
  assert (own !! a = None) as Hfresh.
  { destruct (own !! a) eqn:E; [|done]. by destruct (wf_table _ _ _ W a _ E) as (_ & _ & ? & _). }
  assert (pte_addr e = a) as He by (apply pte_addr_new_frame; [done|lia|done]).
  assert (∀ j, 0 ≤ j < 512 → rd m' (slot a j) = 0) as Hz by (intros; by apply rd_zero_table_in).
  assert (∀ t2 π2 j, own !! t2 = Some π2 → 0 ≤ j < 512 →
    rd m' (slot t2 j) = if decide (t2 = t ∧ j = i) then e else rd (mem s) (slot t2 j)) as Hrd.
  { intros t2 π2 j Ht2 Hj. destruct (wf_table _ _ _ W t2 _ Ht2) as (_ & Ht2a & _).
    destruct (wf_table _ _ _ W t _ Ht) as (_ & Hta & _).
    unfold m'. rewrite rd_zero_table_out by (done || congruence). rewrite rd_insert.
    destruct (decide (slot t i = slot t2 j)) as [Es|Es].
    - apply slot_inj in Es as [-> ->]; try done. by rewrite decide_True.
    - rewrite decide_False; [done|]. by intros [-> ->]. }
  assert (is_huge e = false) as Heh by (unfold e; by rewrite is_huge_new).
  clearbody m' e. split; [|done]. split; simpl.
  - rewrite lookup_insert_ne; [apply W|]. intros ->. by rewrite (wf_root _ _ _ W) in Hfresh.
  - intros t2 π2. rewrite lookup_insert_Some. intros [[<- <-]|[Hne Ht2]].
    + rewrite child_length. split_and!; try done; lia.
    + destruct (wf_table _ _ _ W t2 _ Ht2) as (?&?&?&?). split; [done|]. split; [done|].
      split; [|done]. intros Hav2. by apply (fs_alloc_frame _ _ _ t2 (wf_frames _ _ _ W) Ea) in Hav2.
  - intros t2 π2 j. rewrite lookup_insert_Some. intros [[<- <-]|[Hne Ht2]] Hj Hl2.
    { rewrite Hz by done. intros Hp. discriminate Hp. }
    rewrite (Hrd t2 π2 j Ht2 Hj). destruct (decide _) as [[-> ->]|].
    + intros _. right. split; [done|].
      rewrite He, lookup_insert_eq. congruence.
    + intros Hp. destruct (wf_entry _ _ _ W t2 _ j Ht2 Hj Hl2 Hp) as [?|[? Hc]]; [by left|right].
      split; [done|]. rewrite lookup_insert_ne; [done|]. congruence.
  - pose proof (fs_alloc_wf _ (wf_frames _ _ _ W)) as Hw. by rewrite Ea in Hw.
Qed.

Lemma ensure_table_present own (s : PT F) t π i err :
  pt_wf L own s → own !! t = Some π → (length π < 3)%nat → 0 ≤ i < 512 →
  is_present (rd (mem s) (slot t i)) = true → is_huge (rd (mem s) (slot t i)) = false →
  ensured L own s t π i (ensure_table (slot t i) err s).
Proof.
  intros W Ht Hl Hi Hp Hh. unfold ensure_table, mbind, M_bind, m_get. cbn beta iota.
  rewrite Hp. simpl. exists own. split_and!; try done; [apply grown_refl|by apply pt_wf_child].
Qed.

Lemma ensure_table_spec own (s : PT F) t π i err :
  pt_wf L own s → own !! t = Some π → (length π < 3)%nat → 0 ≤ i < 512 →
  (is_present (rd (mem s) (slot t i)) = true → is_huge (rd (mem s) (slot t i)) = false) →
  ensured L own s t π i (ensure_table (slot t i) err s).
Proof.
  intros W Ht Hl Hi Hh. destruct (is_present (rd (mem s) (slot t i))) eqn:Hp.
  { apply ensure_table_present; auto. }
  unfold ensure_table, mbind, M_bind, m_get, alloc_frame, pt_write, m_modify. cbn beta iota.
  rewrite Hp. cbn [negb]. destruct (fs_alloc (frames s)) as [[a|] fr] eqn:Ea; cbn [ok_or].
  - destruct (pt_wf_grow own s fr t π i a W Ht Hl Hi Ea) as (W' & Hfresh & He & Hz & Hrd).
    cbn [mem frames]. rewrite rd_insert_eq. rewrite He. set (e := PTE_new a _) in *.
    set (m' := zero_table a _) in *. unfold ensured. cbn [mem frames].
    assert (rd m' (slot t i) = e) as Hslot by (rewrite (Hrd t π i Ht Hi); by rewrite decide_True).
    assert (is_huge e = false) as Heh by (unfold e; by rewrite is_huge_new).
    assert (is_present e = true) as Hep by (unfold e; by rewrite is_present_new).
    clearbody m' e. rewrite Hslot, He. exists (<[a := child π i]> own).
    cbn [mem]. rewrite Hslot.
    split_and!; try done; [|by rewrite lookup_insert_eq| |].
    { destruct (fs_alloc_some _ _ _ (wf_frames _ _ _ W) Ea) as (Hav & Hnav & _).
      split_and!; [by apply insert_subseteq| | |]; cbn [frames].
      - intros t2 [π2 [[<- _]|[_ Ht2]]%lookup_insert_Some]; [by right|by left].
      - intros b Hb. destruct (decide (b = a)) as [->|]; [done|].
        by apply (fs_alloc_frame _ _ _ b (wf_frames _ _ _ W) Ea).
      - intros b Hb. destruct (decide (b = a)) as [->|]; [right; rewrite lookup_insert_eq; by eexists|left].
        by apply (fs_alloc_frame _ _ _ b (wf_frames _ _ _ W) Ea). }
    + intros u ρ j Hu Hj Hpj. rewrite (Hrd u ρ j Hu Hj). destruct (decide _) as [[-> ->]|]; congruence.
    + intros v. by apply (walk_grow own s m' t π i a e W Ht Hl Hp He Heh Hz Hrd 4 root []); [apply W|].
  - destruct (fs_alloc_none _ _ (wf_frames _ _ _ W) Ea) as [-> Hno]. by destruct s.
Qed.

(** ** [map_page] *)

Lemma not_huge_walk (m m' : gmap Z Z) v :
  (∀ w, walk m' 4 root w = walk m 4 root w) → not_huge L m v → not_huge L m' v.
Proof. intros E Hn e. rewrite E. apply Hn. Qed.

Lemma translate_ext (m m' : gmap Z Z) :
  (∀ w, walk m' 4 root w = walk m 4 root w) → ∀ w, translate L m' w = translate L m w.
Proof. intros E w. by rewrite !translate_walk, E. Qed.

(** ** Reaching a table *)

Lemma reaches_own own (s : PT F) v k t :
  pt_wf L own s → reaches L (mem s) v k t → (k ≤ 3)%nat → own !! t = Some (path k v).
Proof.
  intros W Hr. induction Hr as [|k t Hr IH Hp Hh]; intros Hk; [apply W|].
  apply pt_wf_child; [done|apply IH; lia|apply idx_range|rewrite path_length; lia|done|done].
Qed.

Lemma reaches_walk m v k t :
  reaches L m v k t → (k ≤ 3)%nat → walk m 4 root v = walk m (4 - k) t v.
Proof.
  intros Hr. induction Hr as [|k t Hr IH Hp Hh]; intros Hk; [done|].
  rewrite IH by lia. replace (4 - k)%nat with (S (4 - S k)) by lia.
  rewrite walk_step; replace (3 - (4 - S k))%nat with k by lia; done || lia.
Qed.

Lemma reaches_mono own (s : PT F) m' v k t :
  pt_wf L own s → (k ≤ 3)%nat →
  (∀ u ρ j, own !! u = Some ρ → (length ρ < 3)%nat → 0 ≤ j < 512 →
    is_present (rd (mem s) (slot u j)) = true → rd m' (slot u j) = rd (mem s) (slot u j)) →
  reaches L (mem s) v k t → reaches L m' v k t.
Proof.
  intros W Hk Hm Hr. induction Hr as [|k t Hr IH Hp Hh]; [constructor|].
  pose proof (reaches_own _ _ _ _ _ W Hr ltac:(lia)) as Ht.
  rewrite <- (Hm t (path k v) (idx k v)) by (done || (rewrite ?path_length; lia) || apply idx_range).
  constructor; [apply IH; lia|..];
    rewrite (Hm t (path k v)) by (done || (rewrite ?path_length; lia) || apply idx_range); done.
Qed.

(** Along an address no 2 MB page covers, no present entry is huge. *)
Lemma not_huge_level own (s : PT F) t k v :
  pt_wf L own s → not_huge L (mem s) v → reaches L (mem s) v k t → (k < 3)%nat →
  is_present (rd (mem s) (slot t (idx k v))) = true → is_huge (rd (mem s) (slot t (idx k v))) = false.
Proof.
  intros W Hnh Hr Hk Hp. pose proof (reaches_own _ _ _ _ _ W Hr ltac:(lia)) as Ht.
  destruct (wf_entry _ _ _ W t _ _ Ht (idx_range k v) ltac:(rewrite path_length; lia) Hp)
    as [[H2 Hh]|[? _]]; [|done].
  rewrite path_length in H2. subst k. destruct (Hnh (rd (mem s) (slot t (idx 2 v)))).
  rewrite (reaches_walk _ _ _ _ Hr) by lia. cbn [walk Nat.sub]. by rewrite Hp, Hh.
Qed.

(** The walk stops at an absent entry. *)
Lemma walk_absent m v k t :
  reaches L m v k t → (k ≤ 3)%nat → is_present (rd m (slot t (idx k v))) = false →
  walk m 4 root v = None.
Proof.
  intros Hr Hk Hp. rewrite (reaches_walk _ _ _ _ Hr) by done.
  replace (4 - k)%nat with (S (3 - k)) by lia. cbn [walk].
  replace (3 - (3 - k))%nat with k by lia. by rewrite Hp.
Qed.

(** One level down along [v]. *)
Lemma descend own (s : PT F) t k v err :
  pt_wf L own s → not_huge L (mem s) v → reaches L (mem s) v k t → (k < 3)%nat →
  match ensure_table (slot t (idx k v)) err s with
  | (Ok t', s') => (∃ own', pt_wf L own' s' ∧ grown own own' s s') ∧
      reaches L (mem s') v (S k) t' ∧
      ∀ w, walk (mem s') 4 root w = walk (mem s) 4 root w
  | (Err _, s') => s' = s ∧ ∀ b, ¬ fs_avail (frames s) b
  | (Panic, _) => False
  end.
Proof.
  intros W Hnh Hr Hk. pose proof (idx_range k v) as Hi.
  pose proof (reaches_own _ _ _ _ _ W Hr ltac:(lia)) as Ht.
  pose proof (not_huge_level own s t k v W Hnh Hr Hk) as Hh.
  pose proof (ensure_table_spec own s t (path k v) (idx k v) err W Ht
    ltac:(rewrite path_length; lia) Hi Hh) as E. unfold ensured in E.
  destruct (ensure_table _ err s) as [[t'|e|] s']; [|done|done].
  destruct E as (own' & W' & Hg & Ht' & Hp' & Hh' & <- & Hold & Hsame).
  split_and!; [eauto| |done]. constructor; [|done|done].
  apply (reaches_mono own s); [done|lia| |done]. intros. by apply (Hold _ ρ).
Qed.

(** Three levels down: the page table of [virt]. *)
Lemma get_pt_spec own (s : PT F) virt :
  pt_wf L own s → not_huge L (mem s) virt →
  match get_pt L virt s with
  | (Ok t', s') => (∃ own', pt_wf L own' s' ∧ grown own own' s s') ∧
      reaches L (mem s') virt 3 t' ∧
      ∀ w, walk (mem s') 4 root w = walk (mem s) 4 root w
  | (Err e, s') => (∃ own', pt_wf L own' s' ∧ grown own own' s s') ∧ (∀ b, ¬ fs_avail (frames s') b) ∧
      ∀ w, walk (mem s') 4 root w = walk (mem s) 4 root w
  | (Panic, _) => False
  end.
Proof.
  intros W Hnh. unfold get_pt, mbind, M_bind.
  pose proof (descend own s root 0 virt "Failed to allocate PDPT" W Hnh ltac:(constructor) ltac:(lia)) as D.
  change (pml4 (from_addr virt)) with (idx 0 virt).
  destruct (ensure_table _ "Failed to allocate PDPT" s) as [[t1|e|] s1];
    [|destruct D as [-> ?]; eauto using grown_refl|done].
  destruct D as ((own1 & W1 & G1) & Hr1 & Hs1). apply (not_huge_walk _ _ _ Hs1) in Hnh.
  pose proof (descend own1 s1 t1 1 virt "Failed to allocate PD" W1 Hnh Hr1 ltac:(lia)) as D.
  change (pdpt (from_addr virt)) with (idx 1 virt).
  destruct (ensure_table _ "Failed to allocate PD" s1) as [[t2|e|] s2];
    [|destruct D as [-> ?]; eauto|done].
  destruct D as ((own2 & W2 & G2) & Hr2 & Hs2). apply (not_huge_walk _ _ _ Hs2) in Hnh.
  pose proof (grown_trans _ _ _ _ _ _ G1 G2) as G12.
  pose proof (descend own2 s2 t2 2 virt "Failed to allocate PT" W2 Hnh Hr2 ltac:(lia)) as D.
  change (pd (from_addr virt)) with (idx 2 virt).
  destruct (ensure_table _ "Failed to allocate PT" s2) as [[t3|e|] s3]; [| |done].
  - destruct D as ((own3 & W3 & G3) & ? & Hs3).
    split; [exists own3; split; [done|by eapply grown_trans]|].
    split; [done|]. intros w. by rewrite Hs3, Hs2, Hs1.
  - destruct D as [-> Hno]. split_and!; [eauto|done|]. intros w. by rewrite Hs2, Hs1.
Qed.

Lemma map_page_get_pt virt phys flags (s : PT F) :
  map_page L virt phys flags s =
    match get_pt L virt s with
    | (Ok t, s') => (Ok tt, mkPT (<[slot t (idx 3 virt) := PTE_new phys flags]> (mem s')) (frames s'))
    | (Err e, s') => (Err e, s')
    | (Panic, s') => (Panic, s')
    end.
Proof using Type.
  unfold map_page, get_pt, mbind, M_bind.
  by repeat (match goal with |- context [match ensure_table ?a ?e ?s with _ => _ end] =>
    destruct (ensure_table a e s) as [[?|?|] ?] end).
Qed.

(** Writing the leaf entry of [v]'s page table. *)
Lemma leaf_write_spec own (s : PT F) t v e :
  pt_wf L own s → reaches L (mem s) v 3 t →
  let s' := mkPT (<[slot t (idx 3 v) := e]> (mem s)) (frames s) in
  pt_wf L own s' ∧ walk (mem s') 4 root v = (if is_present e then Some (0%nat, e) else None) ∧
  ∀ w, ¬ same_page v w → walk (mem s') 4 root w = walk (mem s) 4 root w.
Proof.
  intros W Hr s'. pose proof (reaches_own _ _ _ _ _ W Hr ltac:(lia)) as Ht.
  assert (pt_wf L own s') as W'.
  { apply (pt_wf_leaf_write _ _ _ (path 3 v)); [done|done|apply path_length|apply idx_range]. }
  assert (reaches L (mem s') v 3 t) as Hr'.
  { apply (reaches_mono own s); [done|lia| |done]. intros u ρ j Hu Hl Hj _. simpl.
    destruct (wf_table _ _ _ W u _ Hu) as (_ & ? & _). destruct (wf_table _ _ _ W t _ Ht) as (_ & ? & _).
    apply rd_insert_ne. intros [-> _]%slot_inj; try done; [|apply (idx_range 3)].
    rewrite Ht in Hu. apply (inj Some) in Hu as <-. rewrite path_length in Hl. lia. }
  split; [done|]. split.
  - rewrite (reaches_walk _ _ _ _ Hr') by lia. cbn [walk Nat.sub]. unfold s'. cbn [mem].
    rewrite rd_insert_eq. by destruct (is_present e).
  - intros w Hne. unfold s'. cbn [mem].
    rewrite (walk_leaf_write own s t v e W Ht 4 0); [done|apply W|done|done].
Qed.

End Proofs.

(** ** [init] *)

Lemma slot_ne t u i j :
  t ≠ u → t mod 4096 = 0 → u mod 4096 = 0 → 0 ≤ i < 512 → 0 ≤ j < 512 → slot t i ≠ slot u j.
Proof. intros Hne Ht Hu Hi Hj E. by apply slot_inj in E as [? _]. Qed.

Lemma rd_fill_in f t m j :
  0 ≤ j < 512 → rd (for_range 0 512 (λ i m, <[slot t i := f i]> m) m) (slot t j) = f j.
Proof.
  intros Hj. rewrite rd_fill by lia. unfold slot. rewrite decide_True by (split; [lia|zdiv]). f_equal. zdiv.
Qed.

Lemma rd_fill_out f t u m j :
  t ≠ u → t mod 4096 = 0 → u mod 4096 = 0 → 0 ≤ j < 512 →
  rd (for_range 0 512 (λ i m, <[slot t i := f i]> m) m) (slot u j) = rd m (slot u j).
Proof.
  intros Hne Ht Hu Hj. rewrite rd_fill by lia. rewrite decide_False; [done|].
  unfold slot. intros [? _]. apply Hne. zdiv.
Qed.

Section Init.
Variable L : Layout.

Lemma layout_facts :
  layout_ok L →
  KERNEL_PML4 L mod 4096 = 0 ∧ KERNEL_PDPT L mod 4096 = 0 ∧
  ∀ i, 0 ≤ i < 4 → 0 ≤ KERNEL_PD L i < 2 ^ 52 ∧ KERNEL_PD L i mod 4096 = 0.
Proof.
  intros HL. split_and!; [apply HL; by left|apply HL; right; by left|].
  intros i Hi. apply HL. right; right. eauto.
Qed.

Lemma paging_init_entries m : layout_ok L → statics_zero L m → init_entries L 4 (paging_init L m).
Proof.
  intros HL Hz. destruct (layout_facts HL) as (Ha4 & Ha3 & Hpd). pose proof (lo_pdpt _ HL) as Hne.
  unfold paging_init.
  refine (for_range_ind (init_entries L) _ _ _ _ _ _ _); [lia| |].
  - split; [| |intros; lia]; intros j Hj; rewrite !rd_insert.
    + destruct (Z.eqb_spec j 0) as [->|]; simpl.
      * rewrite (decide_True (P := slot _ 0 = _)) by done. by case_decide.
      * destruct (Z.eqb_spec j 511) as [->|]; [by rewrite decide_True|].
        rewrite !decide_False; [apply Hz; [by left|done]|unfold slot; lia|unfold slot; lia].
    + rewrite !decide_False by (apply slot_ne; done || lia).
      rewrite (proj2 (Z.ltb_ge _ _)) by lia. apply Hz; [by right|done].
  - intros i m' Hi [H4 H3 H2]. destruct (Hpd i Hi) as [_ Hai]. destruct (lo_pd _ HL i Hi) as [Hi4 Hi3]. split.
    + intros j Hj. rewrite rd_fill_out, rd_insert_ne by (done || (apply slot_ne; done || lia)). by apply H4.
    + intros j Hj. rewrite rd_fill_out by done. rewrite rd_insert, H3 by done.
      destruct (decide _) as [E|E].
      * apply slot_inj in E as [_ <-]; [|done|done|lia|done]. rewrite (proj2 (Z.ltb_lt _ _)) by lia. done.
      * destruct (Z.ltb_spec j i), (Z.ltb_spec j (i + 1)); try done; try lia.
        destruct E. f_equal. lia.
    + intros k j Hk Hj. destruct (decide (k = i)) as [->|Hki].
      * apply (rd_fill_in (λ j, PTE_new ((i * 512 + j) * 0x200000) _)). done.
      * destruct (Hpd k ltac:(lia)) as [_ Hak]. destruct (lo_pd _ HL k ltac:(lia)) as [Hk4 Hk3].
        assert (KERNEL_PD L i ≠ KERNEL_PD L k) by (intros E; apply Hki, (lo_inj _ HL); [lia|lia|done]).
        rewrite rd_fill_out by done. rewrite rd_insert_ne by (apply slot_ne; done || lia). apply H2; lia.
Qed.

Lemma own_init_inv t π :
  own_init L !! t = Some π →
  (t = KERNEL_PML4 L ∧ π = []) ∨ (t = KERNEL_PDPT L ∧ π = [0]) ∨
  ∃ i, 0 ≤ i < 4 ∧ t = KERNEL_PD L i ∧ π = [0; i].
Proof.
  unfold own_init. rewrite !lookup_insert_Some, lookup_empty.
  intros [[<- <-]|[_ [[<- <-]|[_ [[<- <-]|[_ [[<- <-]|[_ [[<- <-]|[_ [[<- <-]|[_ [=]]]]]]]]]]]]].
  - by left.
  - right; by left.
  - right; right. by exists 0.
  - right; right. by exists 1.
  - right; right. by exists 2.
  - right; right. by exists 3.
Qed.

Lemma own_init_PDPT : layout_ok L → own_init L !! KERNEL_PDPT L = Some [0].
Proof. intros HL. unfold own_init. by rewrite lookup_insert_ne, lookup_insert_eq by apply HL. Qed.

Lemma own_init_PD i : layout_ok L → 0 ≤ i < 4 → own_init L !! KERNEL_PD L i = Some [0; i].
Proof.
  intros HL Hi. unfold own_init. destruct (lo_pd _ HL i Hi).
  rewrite !(lookup_insert_ne _ _ (KERNEL_PD L i) []), (lookup_insert_ne _ _ (KERNEL_PD L i) [0]) by done.
  assert (∀ j, 0 ≤ j < 4 → j ≠ i → KERNEL_PD L j ≠ KERNEL_PD L i) as Hne.
  { intros j Hj Hji E. apply Hji, (lo_inj _ HL); done. }
  assert (i = 0 ∨ i = 1 ∨ i = 2 ∨ i = 3) as [->|[->|[->| ->]]] by lia;
    rewrite ?(lookup_insert_ne _ (KERNEL_PD L 0)), ?(lookup_insert_ne _ (KERNEL_PD L 1)),
      ?(lookup_insert_ne _ (KERNEL_PD L 2)) by (apply Hne; lia); by rewrite lookup_insert_eq.
Qed.

(** The entries [init] writes. *)
Lemma table_entry_facts a : 0 ≤ a < 2 ^ 52 → a mod 4096 = 0 →
  is_present (table_entry a) = true ∧ is_huge (table_entry a) = false ∧ pte_addr (table_entry a) = a.
Proof.
  intros. unfold table_entry. rewrite is_present_new, is_huge_new. split_and!; [done|done|].
  by apply pte_addr_new_frame.
Qed.

Lemma huge_entry_facts n : 0 ≤ n < 2048 →
  is_present (huge_entry n) = true ∧ is_huge (huge_entry n) = true ∧
  pte_addr (huge_entry n) = n * 0x200000.
Proof.
  intros. unfold huge_entry. rewrite is_present_new, is_huge_new. split_and!; [done|done|].
  apply pte_addr_new_frame; [done|lia|zdiv].
Qed.

Lemma paging_init_wf {F} `{FrameSource F} m (fr : F) :
  layout_ok L → statics_zero L m → fs_wf fr → (∀ t, is_static L t → ¬ fs_avail fr t) →
  pt_wf L (own_init L) (mkPT (paging_init L m) fr).
Proof.
  intros HL Hz Hfr Hna. destruct (paging_init_entries m HL Hz) as [E4 E3 E2].
  destruct (layout_facts HL) as (_ & Ha3 & Hpd).
  assert (0 ≤ KERNEL_PDPT L < 2 ^ 52) as Hr3 by (apply (lo_aligned _ HL); right; by left).
  split; cbn [mem frames]; [unfold own_init; apply lookup_insert_eq| | |exact Hfr].
  - intros t π Ht. assert (is_static L t ∧ (length π ≤ 3)%nat) as [Hs Hl].
    { apply own_init_inv in Ht as [[-> ->]|[[-> ->]|(i & Hi & -> & ->)]]; (split; [|simpl; lia]);
        [by left|right; by left|right; right; eauto]. }
    destruct (lo_aligned _ HL t Hs). split_and!; try lia; try done. by apply Hna.
  - intros t π j Ht Hj Hl Hp.
    apply own_init_inv in Ht as [[-> ->]|[[-> ->]|(i & Hi & -> & ->)]].
    + rewrite E4 in * by done. destruct (_ || _) eqn:Ej; [|done]. right.
      destruct (table_entry_facts (KERNEL_PDPT L) Hr3 Ha3) as (_ & Hh & Hpa). split; [done|].
      rewrite Hpa, own_init_PDPT by done. do 2 f_equal. unfold child.
      destruct (Z.eqb_spec j 511); [done|]. destruct (Z.eqb_spec j 0) as [->|]; [done|]. done.
    + rewrite E3 in * by done. destruct (Z.ltb_spec j 4); [|done]. right.
      destruct (Hpd j ltac:(lia)) as [Hrj Haj].
      destruct (table_entry_facts (KERNEL_PD L j) Hrj Haj) as (_ & Hh & Hpa). split; [done|].
      rewrite Hpa, own_init_PD by (done || lia). done.
    + rewrite E2 by done. left. split; [done|]. apply huge_entry_facts. lia.
Qed.

(** The walk after [init]. *)
Lemma walk_init m v :
  layout_ok L → init_entries L 4 m →
  walk m 4 (KERNEL_PML4 L) v =
    if ((idx 0 v =? 0) || (idx 0 v =? 511)) && (idx 1 v <? 4)
    then Some (1%nat, huge_entry (idx 1 v * 512 + idx 2 v)) else None.
Proof.
  intros HL [E4 E3 E2].
  destruct (layout_facts HL) as (_ & Ha3 & Hpd).
  assert (0 ≤ KERNEL_PDPT L < 2 ^ 52) as Hr3 by (apply (lo_aligned _ HL); right; by left).
  destruct (table_entry_facts (KERNEL_PDPT L) Hr3 Ha3) as (Hp & Hh & Hpa).
  pose proof (idx_range 0 v). pose proof (idx_range 1 v). pose proof (idx_range 2 v).
  cbn [walk Nat.sub]. rewrite E4 by done.
  set (i0 := idx 0 v) in *. set (i1 := idx 1 v) in *. set (i2 := idx 2 v) in *. clearbody i0 i1 i2.
  destruct ((i0 =? 0) || (i0 =? 511)); [|reflexivity]. rewrite Hp. cbn [negb andb].
  rewrite bool_decide_eq_false_2, bool_decide_eq_false_2 by lia. cbn [orb andb].
  rewrite Hpa, E3 by done. destruct (Z.ltb_spec i1 4); [|reflexivity].
  destruct (Hpd i1 ltac:(lia)) as [Hrj Haj].
  destruct (table_entry_facts _ Hrj Haj) as (Hp1 & Hh1 & Hpa1).
  rewrite Hp1, Hh1. cbn [negb]. rewrite andb_false_r, bool_decide_eq_false_2 by lia. cbn [orb].
  rewrite Hpa1, E2 by lia. destruct (huge_entry_facts (i1 * 512 + i2)) as (Hp2 & Hh2 & _); [lia|].
  rewrite Hp2, Hh2. reflexivity.
Qed.

End Init.

(** ** Addresses *)

Lemma idx_val v :
  idx 0 v = (v / 2 ^ 39) mod 512 ∧ idx 1 v = (v / 2 ^ 30) mod 512 ∧
  idx 2 v = (v / 2 ^ 21) mod 512 ∧ idx 3 v = (v / 2 ^ 12) mod 512 ∧
  offset (from_addr v) = v mod 4096.
Proof.
  unfold idx, from_addr. cbn [pml4 pdpt pd pt offset].
  change 4095 with (Z.ones 12). rewrite !land_511, !Z.shiftr_div_pow2, Z.land_ones by lia. done.
Qed.

(** The bits of an address below bit 39, split as the walk does. *)
Lemma low_bits_split v :
  v mod 2 ^ 39 = (idx 1 v * 512 + idx 2 v) * 0x200000 + Z.land v 0x1FFFFF.
Proof.
  destruct (idx_val v) as (_ & -> & -> & _). change 0x1FFFFF with (Z.ones 21). rewrite Z.land_ones by lia.
  change (2 ^ 39) with (2 ^ 21 * (512 * 512)). rewrite Z.rem_mul_r by lia.
  rewrite Z.rem_mul_r by lia. rewrite Z.div_div by lia. change (2 ^ 21 * 512) with (2 ^ 30). lia.
Qed.

Lemma idx_1_lt v : idx 1 v < 4 ↔ v mod 2 ^ 39 < 2 ^ 32.
Proof.
  rewrite low_bits_split. change 0x1FFFFF with (Z.ones 21). rewrite Z.land_ones by lia.
  pose proof (idx_range 1 v). pose proof (idx_range 2 v). pose proof (Z.mod_pos_bound v (2 ^ 21)).
  lia.
Qed.

Lemma offset_range v : 0 ≤ offset (from_addr v) < 4096.
Proof. destruct (idx_val v) as (_ & _ & _ & _ & ->). by apply Z.mod_pos_bound. Qed.

Lemma phys_small e v : u64 (pte_addr e + offset (from_addr v)) = pte_addr e + offset (from_addr v).
Proof. pose proof (pte_addr_aligned e). pose proof (offset_range v). apply u64_small. lia. Qed.

Lemma FLAGS_MASK_not : FLAGS_MASK = Z.lxor (Z.ones 64) ADDR_MASK.
Proof. reflexivity. Qed.

Lemma land_FLAGS_MASK_testbit x n :
  0 ≤ n → Z.testbit (Z.land x FLAGS_MASK) n =
    bool_decide (n < 64) && negb (bool_decide (12 ≤ n < 52)) && Z.testbit x n.
Proof.
  intros Hn. pose proof (land_ADDR_MASK_testbit (Z.ones 64) n Hn) as Hm.
  rewrite Z.land_spec in Hm. rewrite FLAGS_MASK_not, Z.land_spec, Z.lxor_spec, andb_comm. f_equal.
  destruct (Z.lt_ge_cases n 64).
  - rewrite Z.ones_spec_low in * by lia. rewrite andb_true_r in Hm. simpl in Hm. rewrite Hm.
    rewrite (bool_decide_eq_true_2 (n < 64)) by done. done.
  - rewrite (bool_decide_eq_false_2 (n < 64)) by lia. rewrite Z.ones_spec_high by lia.
    change ADDR_MASK with (Z.shiftl (Z.ones 40) 12).
    rewrite Z.shiftl_spec, Z.ones_spec_high by lia. done.
Qed.

Lemma testbit_high x w n : 0 ≤ w → 0 ≤ x < 2 ^ w → w ≤ n → Z.testbit x n = false.
Proof.
  intros Hw Hx Hn. destruct (Z.eq_dec x 0) as [->|]; [apply Z.bits_0|].
  apply Z.bits_above_log2; [lia|]. apply Z.log2_lt_pow2; [lia|].
  apply Z.lt_le_trans with (2 ^ w); [lia|]. by apply Z.pow_le_mono_r; lia.
Qed.

Lemma testbit_field f n : Z.land f ADDR_MASK = 0 → 12 ≤ n < 52 → Z.testbit f n = false.
Proof.
  intros Hf Hn. apply (f_equal (λ x, Z.testbit x n)) in Hf.
  rewrite land_ADDR_MASK_testbit, Z.bits_0, bool_decide_eq_true_2 in Hf by lia. done.
Qed.

(** Equality of two words built from the fields of words, bit by bit. *)
Ltac pte_bits :=
  apply Z.bits_inj'; intros n Hn;
  repeat first [rewrite land_ADDR_MASK_testbit by done | rewrite land_FLAGS_MASK_testbit by done
    | rewrite Z.lor_spec | rewrite Z.land_spec];
  (destruct (decide (12 ≤ n < 52)) as [H1|H1];
    [rewrite ?(bool_decide_eq_true_2 (12 ≤ n < 52)) by done
    |rewrite ?(bool_decide_eq_false_2 (12 ≤ n < 52)) by done]);
  (destruct (decide (n < 64)) as [H2|H2];
    [rewrite ?(bool_decide_eq_true_2 (n < 64)) by done
    |rewrite ?(bool_decide_eq_false_2 (n < 64)) by done]).

(** ** Properties *)

(** The accessors of a page-table entry partition its 64 bits: address and
    flags recombine to the entry, setting one keeps the other, and a new entry
    reads back the frame and the flags it was made from. *)
Theorem pte_fields e addr flags :
  0 ≤ e < 2 ^ 64 → 0 ≤ flags < 2 ^ 64 → Z.land flags ADDR_MASK = 0 →
  Z.lor (pte_addr e) (pte_flags e) = e ∧
  pte_addr (set_addr addr e) = Z.land addr ADDR_MASK ∧
  pte_flags (set_addr addr e) = pte_flags e ∧
  pte_addr (set_flags flags e) = pte_addr e ∧
  pte_flags (set_flags flags e) = flags ∧
  pte_addr (PTE_new addr flags) = Z.land addr ADDR_MASK ∧
  pte_flags (PTE_new addr flags) = flags.
Proof.
  intros He Hf Hz. pose proof (λ n, testbit_high e 64 n ltac:(lia) He) as He'.
  pose proof (λ n, testbit_high flags 64 n ltac:(lia) Hf) as Hf'.
  pose proof (testbit_field flags) as Hz'. unfold pte_addr, pte_flags, set_addr, set_flags, PTE_new.
  split_and!; pte_bits; try rewrite (He' n) by lia; try rewrite (Hf' n) by lia;
    try rewrite (Hz' n) by done; cbn [negb andb orb]; rewrite ?orb_false_r; done.
Qed.

(** ** [map_page] on the boot mapping *)

Lemma ensure_table_hit {F} `{FrameSource F} a err (s : PT F) :
  is_present (rd (mem s) a) = true → ensure_table a err s = (Ok (pte_addr (rd (mem s) a)), s).
Proof. intros Hp. unfold ensure_table, mbind, M_bind, m_get. cbn beta iota. by rewrite Hp. Qed.

(** The "page table" [map_page] finds under a boot mapping is the 2 MB page. *)
Lemma get_pt_boot (L : Layout) {F} `{FrameSource F} m (fr : F) v :
  layout_ok L → statics_zero L m → 0 ≤ v < 2 ^ 32 →
  get_pt L v (mkPT (paging_init L m) fr) =
    (Ok (v / 0x200000 * 0x200000), mkPT (paging_init L m) fr).
Proof.
  intros HL Hz Hv. destruct (paging_init_entries L m HL Hz) as [E4 E3 E2].
  destruct (layout_facts L HL) as (_ & Ha3 & Hpd).
  assert (0 ≤ KERNEL_PDPT L < 2 ^ 52) as Hr3 by (apply (lo_aligned _ HL); right; by left).
  destruct (table_entry_facts (KERNEL_PDPT L) Hr3 Ha3) as (Hp & _ & Hpa).
  destruct (idx_val v) as (I0 & _). pose proof (low_bits_split v) as Hs. pose proof (idx_1_lt v) as I1.
  rewrite Z.mod_small in Hs, I1 by lia. pose proof (idx_range 1 v). pose proof (idx_range 2 v).
  assert (Z.land v 0x1FFFFF = v mod 2 ^ 21) as El by (change 0x1FFFFF with (Z.ones 21); by rewrite Z.land_ones).
  assert (v / 0x200000 = idx 1 v * 512 + idx 2 v) as Ed by (rewrite El in Hs; zdiv).
  assert (idx 0 v = 0) as I0' by (rewrite I0, Z.div_small by lia; done).
  destruct (Hpd (idx 1 v) ltac:(lia)) as [Hrj Haj]. destruct (table_entry_facts _ Hrj Haj) as (Hp1 & _ & Hpa1).
  destruct (huge_entry_facts (idx 1 v * 512 + idx 2 v)) as (Hp2 & _ & Hpa2); [lia|].
  unfold get_pt, mbind, M_bind. change (pml4 (from_addr v)) with (idx 0 v).
  change (pdpt (from_addr v)) with (idx 1 v). change (pd (from_addr v)) with (idx 2 v).
  rewrite ensure_table_hit; cbn [mem]; rewrite I0', E4 by lia; cbn [orb Z.eqb]; [|done]. rewrite Hpa.
  rewrite ensure_table_hit; cbn [mem]; rewrite E3, (proj2 (Z.ltb_lt _ _)) by lia; [|done]. rewrite Hpa1.
  rewrite ensure_table_hit; cbn [mem]; rewrite E2 by lia; [|done]. by rewrite Hpa2, <- Ed.
Qed.

(** C4: [init] identity-maps exactly the first 4 GB, at the bottom of the address
    space and again under PML4 slot 511; every other address is unmapped, and the
    tables satisfy the invariant [map_page] relies on. *)
Theorem paging_init_identity (L : Layout) m {F} `{FrameSource F} (fr : F) :
  layout_ok L → statics_zero L m → fs_wf fr → (∀ t, is_static L t → ¬ fs_avail fr t) →
  pt_wf L (own_init L) (mkPT (paging_init L m) fr) ∧
  ∀ v, 0 ≤ v < 2 ^ 64 →
    translate L (paging_init L m) v =
      if bool_decide (((v / 2 ^ 39) mod 512 = 0 ∨ (v / 2 ^ 39) mod 512 = 511) ∧ v mod 2 ^ 39 < 2 ^ 32)
      then Some (v mod 2 ^ 39) else None.
Proof.
  intros HL Hz Hfr Hna. split; [by apply paging_init_wf|]. intros v Hv.
  rewrite translate_walk, walk_init; [|done|by apply paging_init_entries].
  destruct (idx_val v) as (E0 & _).
  pose proof (idx_1_lt v) as H1. pose proof (low_bits_split v) as Hlow.
  pose proof (idx_range 1 v). pose proof (idx_range 2 v). rewrite <- E0.
  assert (((idx 0 v =? 0) || (idx 0 v =? 511)) && (idx 1 v <? 4) =
    bool_decide ((idx 0 v = 0 ∨ idx 0 v = 511) ∧ v mod 2 ^ 39 < 2 ^ 32)) as ->.
  { apply eq_true_iff_eq. rewrite bool_decide_eq_true, andb_true_iff, orb_true_iff, !Z.eqb_eq, Z.ltb_lt.
    tauto. }
  case_bool_decide as Hd; [|done]. destruct Hd as [_ Hd]. apply H1 in Hd.
  destruct (huge_entry_facts (idx 1 v * 512 + idx 2 v)) as (_ & _ & ->); [lia|].
  cbn [leaf_mask]. rewrite <- Hlow, u64_small; [done|].
  pose proof (Z.mod_pos_bound v (2 ^ 39) ltac:(lia)). lia.
Qed.

Section Ops.
Context {F : Type} `{FrameSourceLaws F}.
Variable L : Layout.

(** [map_page] at the level of the walks. *)
Lemma map_page_walk own (s : PT F) virt phys flags :
  pt_wf L own s → not_huge L (mem s) virt → is_present flags = true →
  match map_page L virt phys flags s with
  | (Ok _, s') =>
      (∃ own', pt_wf L own' s' ∧ grown own own' s s') ∧
      walk (mem s') 4 (KERNEL_PML4 L) virt = Some (0%nat, PTE_new phys flags) ∧
      ∀ w, ¬ same_page virt w → walk (mem s') 4 (KERNEL_PML4 L) w = walk (mem s) 4 (KERNEL_PML4 L) w
  | (Err _, s') =>
      (∃ own', pt_wf L own' s' ∧ grown own own' s s') ∧ (∀ b, ¬ fs_avail (frames s') b) ∧
      ∀ w, walk (mem s') 4 (KERNEL_PML4 L) w = walk (mem s) 4 (KERNEL_PML4 L) w
  | (Panic, _) => False
  end.
Proof.
  intros W Hnh Hp. rewrite map_page_get_pt. pose proof (get_pt_spec L own s virt W Hnh) as G.
  destruct (get_pt L virt s) as [[t|e|] s1]; [|done|done].
  destruct G as ((own' & W' & G) & Hr & Hsame).
  destruct (leaf_write_spec L own' s1 t virt (PTE_new phys flags) W' Hr) as (W2 & Ht & Ho).
  split; [exists own'; split; [done|exact G]|]. split; [by rewrite Ht, is_present_new, Hp|].
  intros w Hne. by rewrite Ho, Hsame.
Qed.

Lemma translate_leaf m v e :
  walk m 4 (KERNEL_PML4 L) v = Some (0%nat, e) → translate L m v = Some (pte_addr e + v mod 4096).
Proof.
  intros E. rewrite translate_walk, E. change (leaf_mask 0) with 0xFFF.
  change (Z.land v 0xFFF) with (offset (from_addr v)). rewrite phys_small. do 2 f_equal. apply idx_val.
Qed.

(** C5: when no 2 MB page covers [virt], and the flags have the present bit and no bits
    of an address, [map_page] either makes [virt] translate to the frame it was given
    and leaves every other page's translation alone, or fails because physical memory
    is exhausted and then changes no translation; the table invariant is kept either
    way.  ([map_page] does not look for 2 MB pages: what it does to one of the boot
    mapping is [map_page_boot_corrupts].) *)
Theorem map_page_spec own (s : PT F) virt phys flags :
  pt_wf L own s → not_huge L (mem s) virt → is_present flags = true → Z.land flags ADDR_MASK = 0 →
  match map_page L virt phys flags s with
  | (Ok _, s') =>
      (∃ own', pt_wf L own' s') ∧
      translate L (mem s') virt = Some (Z.land phys ADDR_MASK + virt mod 4096) ∧
      ∀ w, ¬ same_page virt w → translate L (mem s') w = translate L (mem s) w
  | (Err _, s') =>
      (∃ own', pt_wf L own' s') ∧ (∀ b, ¬ fs_avail (frames s') b) ∧
      ∀ w, translate L (mem s') w = translate L (mem s) w
  | (Panic, _) => False
  end.
Proof.
  intros W Hnh Hp Hf. pose proof (map_page_walk own s virt phys flags W Hnh Hp) as G.
  destruct (map_page L virt phys flags s) as [[[]|e|] s']; [| |done].
  - destruct G as ((own' & W' & _) & Hw & Ho). split_and!; [eauto| |].
    + rewrite (translate_leaf _ _ _ Hw), pte_addr_new; done.
    + intros w Hne. by rewrite !translate_walk, Ho.
  - destruct G as ((own' & W' & _) & Hno & Hsame). split_and!; [eauto|done|]. by apply translate_ext.
Qed.

(** [unmap_page] at the level of the walks. *)
Lemma unmap_page_walk own (s : PT F) virt :
  pt_wf L own s → not_huge L (mem s) virt →
  match unmap_page L virt s with
  | (Ok phys, s') =>
      pt_wf L own s' ∧ frames s' = frames s ∧
      (∃ e, walk (mem s) 4 (KERNEL_PML4 L) virt = Some (0%nat, e) ∧ phys = pte_addr e) ∧
      walk (mem s') 4 (KERNEL_PML4 L) virt = None ∧
      ∀ w, ¬ same_page virt w → walk (mem s') 4 (KERNEL_PML4 L) w = walk (mem s) 4 (KERNEL_PML4 L) w
  | (Err _, s') => s' = s ∧ walk (mem s) 4 (KERNEL_PML4 L) virt = None
  | (Panic, _) => False
  end.
Proof.
  intros W Hnh. pose proof (reaches_root L (mem s) virt) as R0.
  assert (∀ k t, reaches L (mem s) virt k t → (k < 3)%nat →
    is_present (rd (mem s) (slot t (idx k virt))) = true →
    reaches L (mem s) virt (S k) (pte_addr (rd (mem s) (slot t (idx k virt))))) as Next.
  { intros k t Hr Hk Hp. constructor; [done..|]. by apply (not_huge_level L own). }
  unfold unmap_page, mbind, M_bind, m_get, m_guard, mret, M_ret, m_fail, pt_write, m_modify. cbn beta iota zeta.
  change (pml4 (from_addr virt)) with (idx 0 virt). change (pdpt (from_addr virt)) with (idx 1 virt).
  change (pd (from_addr virt)) with (idx 2 virt). change (pt (from_addr virt)) with (idx 3 virt).
  destruct (is_present (rd (mem s) (slot (KERNEL_PML4 L) (idx 0 virt)))) eqn:P0;
    [|split; [done|by apply (walk_absent L _ _ 0 (KERNEL_PML4 L)); [|lia|]]].
  apply Next in R0; [|lia|done]. set (t1 := pte_addr _) in *.
  destruct (is_present (rd (mem s) (slot t1 (idx 1 virt)))) eqn:P1;
    [|split; [done|by apply (walk_absent L _ _ 1 t1); [|lia|]]].
  apply Next in R0; [|lia|done]. set (t2 := pte_addr (rd _ (slot t1 _))) in *.
  destruct (is_present (rd (mem s) (slot t2 (idx 2 virt)))) eqn:P2;
    [|split; [done|by apply (walk_absent L _ _ 2 t2); [|lia|]]].
  apply Next in R0; [|lia|done]. set (t3 := pte_addr (rd _ (slot t2 _))) in *.
  destruct (is_present (rd (mem s) (slot t3 (idx 3 virt)))) eqn:P3;
    [|split; [done|by apply (walk_absent L _ _ 3 t3); [|lia|]]].
  destruct (leaf_write_spec L own s t3 virt PTE_empty W R0) as (W' & Ht & Ho).
  split; [done|]. split; [done|]. split; [|done].
  eexists. split; [|reflexivity]. rewrite (reaches_walk L _ _ _ _ R0) by lia. cbn [walk Nat.sub]. by rewrite P3.
Qed.

(** When no 2 MB page covers [virt], [unmap_page] fails exactly on unmapped
    addresses and then changes nothing; otherwise it returns the frame [virt]
    was mapped to, unmaps that page and no other, and keeps the table invariant. *)
Theorem unmap_page_spec own (s : PT F) virt :
  pt_wf L own s → not_huge L (mem s) virt →
  match unmap_page L virt s with
  | (Ok phys, s') =>
      pt_wf L own s' ∧ frames s' = frames s ∧
      translate L (mem s) virt = Some (phys + virt mod 4096) ∧ phys mod 4096 = 0 ∧
      translate L (mem s') virt = None ∧
      ∀ w, ¬ same_page virt w → translate L (mem s') w = translate L (mem s) w
  | (Err _, s') => s' = s ∧ translate L (mem s) virt = None
  | (Panic, _) => False
  end.
Proof.
  intros W Hnh. pose proof (unmap_page_walk own s virt W Hnh) as U.
  destruct (unmap_page L virt s) as [[phys|e|] s']; [| |done].
  - destruct U as (W' & Hf & (e & He & ->) & Hn & Ho). split; [done|]. split; [done|].
    split; [by apply translate_leaf|]. split; [apply pte_addr_aligned|].
    split; [by rewrite translate_walk, Hn|]. intros w Hne. by rewrite !translate_walk, Ho.
  - destruct U as [-> Hn]. split; [done|]. by rewrite translate_walk, Hn.
Qed.
End Ops.

(** On an address of the boot mapping [map_page] reports success, but stores
    the entry into the 2 MB page that covers the address instead of a page table:
    the translation is still the identity (unless that page holds a kernel table). *)
Theorem map_page_boot_corrupts (L : Layout) m {F} `{FrameSource F} (fr : F) v phys flags :
  layout_ok L → statics_zero L m → 0 ≤ v < 2 ^ 32 →
  (∀ t, is_static L t → t ≠ v / 0x200000 * 0x200000) →
  let s := mkPT (paging_init L m) fr in
  let a := slot (v / 0x200000 * 0x200000) (idx 3 v) in
  map_page L v phys flags s = (Ok tt, mkPT (<[a := PTE_new phys flags]> (mem s)) fr) ∧
  ∀ w, translate L (<[a := PTE_new phys flags]> (mem s)) w = translate L (mem s) w.
Proof.
  intros HL Hz Hv Hne s a. split.
  { rewrite map_page_get_pt. unfold s. by rewrite get_pt_boot. }
  pose proof (paging_init_entries L m HL Hz) as E. unfold s. cbn [mem].
  set (m' := <[a := PTE_new phys flags]> (paging_init L m)).
  assert (∀ t j, is_static L t → 0 ≤ j < 512 → rd m' (slot t j) = rd (paging_init L m) (slot t j)) as Hrd.
  { intros t j Ht Hj. apply rd_insert_ne. unfold a. destruct (lo_aligned _ HL t Ht).
    apply slot_ne; [by intros <-; apply (Hne _ Ht)|zdiv|done|apply idx_range|done]. }
  assert (init_entries L 4 m') as E'.
  { destruct E as [E4 E3 E2]. split; intros; rewrite Hrd; auto; [by left|right; by left|].
    right; right. eexists. split; [|done]. done. }
  intros w. by rewrite !translate_walk, !walk_init.
Qed.

(** ** Witnesses *)

(** Free frames for three tables, static tables above them. *)
Definition fa_four : FrameAllocator := mark_free 7 (mark_free 6 fa_two).
Definition L0 : Layout := mkLayout 0x300000 0x301000 (λ i, 0x302000 + i * 0x1000).
Definition boot_pt : PT FrameAllocator := mkPT (paging_init L0 ∅) fa_four.

Lemma alloc_inv_fa_four : alloc_inv fa_four.
Proof.
  destruct alloc_inv_fa_two as [Hc _].
  split; [do 2 (apply count_ok_mark_free; [done|]); exact Hc|].
  split; [by vm_compute|]. intros p Hp. change (first_free fa_four) with 0 in Hp. lia.
Qed.

Lemma L0_ok : layout_ok L0.
Proof.
  split; simpl.
  - intros t [->|[->|(i & Hi & ->)]]; simpl; [done|done|split; [lia|zdiv]].
  - done.
  - lia.
  - lia.
Qed.

Lemma L0_zero : statics_zero L0 ∅.
Proof. intros t j _ _. unfold rd. by rewrite lookup_empty. Qed.

Lemma L0_static t : is_static L0 t → ¬ fs_avail fa_four t.
Proof.
  assert (∀ p, 768 ≤ p < 774 → is_free fa_four p = false) as Hf.
  { intros p Hp. assert (p = 768 ∨ p = 769 ∨ p = 770 ∨ p = 771 ∨ p = 772 ∨ p = 773)
      as [->|[->|[->|[->|[->| ->]]]]] by lia; reflexivity. }
  intros Ht (_ & _ & Hav). rewrite Hf in Hav; [done|]. unfold PAGE_SIZE.
  destruct Ht as [->|[->|(i & Hi & ->)]]; simpl; [done|done|zdiv].
Qed.

Lemma boot_pt_wf : pt_wf L0 (own_init L0) boot_pt.
Proof. apply paging_init_wf; [apply L0_ok|apply L0_zero|apply alloc_inv_fa_four|apply L0_static]. Qed.

(** The second 512 GB of the address space are unmapped. *)
Lemma boot_pt_not_huge : not_huge L0 (mem boot_pt) (2 ^ 39).
Proof.
  intros e. unfold boot_pt. cbn [mem].
  rewrite walk_init; [discriminate|apply L0_ok|apply paging_init_entries; [apply L0_ok|apply L0_zero]].
Qed.

Lemma pte_fields_witness :
  Z.lor (pte_addr 0x5003) (pte_flags 0x5003) = 0x5003 ∧
  pte_addr (set_addr 0x7123 0x5003) = Z.land 0x7123 ADDR_MASK ∧
  pte_flags (set_addr 0x7123 0x5003) = pte_flags 0x5003 ∧
  pte_addr (set_flags USER 0x5003) = pte_addr 0x5003 ∧
  pte_flags (set_flags USER 0x5003) = USER ∧
  pte_addr (PTE_new 0x7123 USER) = Z.land 0x7123 ADDR_MASK ∧
  pte_flags (PTE_new 0x7123 USER) = USER.
Proof. exact (pte_fields 0x5003 0x7123 USER ltac:(lia) ltac:(by vm_compute) eq_refl). Defined.

Lemma paging_init_identity_witness :
  pt_wf L0 (own_init L0) (mkPT (paging_init L0 ∅) fa_four) ∧
  ∀ v, 0 ≤ v < 2 ^ 64 →
    translate L0 (paging_init L0 ∅) v =
      if bool_decide (((v / 2 ^ 39) mod 512 = 0 ∨ (v / 2 ^ 39) mod 512 = 511) ∧ v mod 2 ^ 39 < 2 ^ 32)
      then Some (v mod 2 ^ 39) else None.
Proof.
  exact (paging_init_identity L0 ∅ fa_four L0_ok L0_zero alloc_inv_fa_four L0_static).
Defined.

Lemma map_page_spec_witness :
  match map_page L0 (2 ^ 39) 0x9000 (Z.lor PRESENT WRITABLE) boot_pt with
  | (Ok _, s') =>
      (∃ own', pt_wf L0 own' s') ∧
      translate L0 (mem s') (2 ^ 39) = Some (Z.land 0x9000 ADDR_MASK + 2 ^ 39 mod 4096) ∧
      ∀ w, ¬ same_page (2 ^ 39) w → translate L0 (mem s') w = translate L0 (mem boot_pt) w
  | (Err _, s') =>
      (∃ own', pt_wf L0 own' s') ∧ (∀ b, ¬ fs_avail (frames s') b) ∧
      ∀ w, translate L0 (mem s') w = translate L0 (mem boot_pt) w
  | (Panic, _) => False
  end.
Proof.
  exact (map_page_spec L0 (own_init L0) boot_pt (2 ^ 39) 0x9000 (Z.lor PRESENT WRITABLE)
    boot_pt_wf boot_pt_not_huge eq_refl eq_refl).
Defined.

Lemma unmap_page_spec_witness :
  match unmap_page L0 (2 ^ 39) boot_pt with
  | (Ok phys, s') =>
      pt_wf L0 (own_init L0) s' ∧ frames s' = frames boot_pt ∧
      translate L0 (mem boot_pt) (2 ^ 39) = Some (phys + 2 ^ 39 mod 4096) ∧ phys mod 4096 = 0 ∧
      translate L0 (mem s') (2 ^ 39) = None ∧
      ∀ w, ¬ same_page (2 ^ 39) w → translate L0 (mem s') w = translate L0 (mem boot_pt) w
  | (Err _, s') => s' = boot_pt ∧ translate L0 (mem boot_pt) (2 ^ 39) = None
  | (Panic, _) => False
  end.
Proof. exact (unmap_page_spec L0 (own_init L0) boot_pt (2 ^ 39) boot_pt_wf boot_pt_not_huge). Defined.

Lemma map_page_boot_corrupts_witness :
  let s := mkPT (paging_init L0 ∅) fa_four in
  let a := slot (0x500000 / 0x200000 * 0x200000) (idx 3 0x500000) in
  map_page L0 0x500000 0x9000 (Z.lor PRESENT WRITABLE) s =
    (Ok tt, mkPT (<[a := PTE_new 0x9000 (Z.lor PRESENT WRITABLE)]> (mem s)) fa_four) ∧
  ∀ w, translate L0 (<[a := PTE_new 0x9000 (Z.lor PRESENT WRITABLE)]> (mem s)) w = translate L0 (mem s) w.
Proof.
  assert (∀ t, is_static L0 t → t ≠ 0x500000 / 0x200000 * 0x200000) as Hne.
  { intros t [->|[->|(i & Hi & ->)]]; simpl; [done|done|]. change (0x500000 / 0x200000 * 0x200000) with 0x400000. lia. }
  exact (map_page_boot_corrupts L0 ∅ fa_four 0x500000 0x9000 (Z.lor PRESENT WRITABLE)
    L0_ok L0_zero ltac:(lia) Hne).
Defined.
