(* ===== verification/VirtMem.v ===== *)
(** * Address spaces: [mm/virtual_mem.rs]

    The list of regions an [AddressSpace] keeps, and the operations that map,
    unmap and place them.  Every space maps through the kernel's page tables
    ([Paging]): [page_table_root] is allocated and zeroed but never walked. *)

From S2P Require Import Prelude Physical Paging.
From Stdlib Require Import Sorting.Sorted.

#[local] Set Default Proof Using "Type*".

(** ** Regions *)

(** [VmFlags], a [u32] of [bitflags]. *)
Definition VM_READ : Z := Z.shiftl 1 0.
Definition VM_WRITE : Z := Z.shiftl 1 1.
Definition VM_EXECUTE : Z := Z.shiftl 1 2.
Definition VM_USER : Z := Z.shiftl 1 3.
Definition VM_MMIO : Z := Z.shiftl 1 7.
Definition contains (flags f : Z) : bool := Z.land flags f =? f.

Record VmRegion : Type := mkRegion {
  vm_start : Z; vm_end : Z; vm_flags : Z; vm_name : string;
}.

Record AddressSpace : Type := mkAS {
  page_table_root : Z;
  regions : list VmRegion;
  as_pid : Z;
}.

Definition set_regions (rs : list VmRegion) (a : AddressSpace) : AddressSpace :=
  mkAS (page_table_root a) rs (as_pid a).

Definition vm_to_arch_flags (vf : Z) : Z :=
  let arch_flags := PRESENT in
  let arch_flags := if contains vf VM_WRITE then Z.lor arch_flags WRITABLE else arch_flags in
  let arch_flags := if contains vf VM_USER then Z.lor arch_flags USER else arch_flags in
  let arch_flags := if negb (contains vf VM_EXECUTE) then Z.lor arch_flags NO_EXECUTE else arch_flags in
  if contains vf VM_MMIO then Z.lor arch_flags NO_CACHE else arch_flags.

(** [region] of the overlap test, as [map_region] writes it. *)
Definition overlaps (start end_ : Z) (r : VmRegion) : bool :=
  (start <? vm_end r) && (vm_start r <? end_).

(** [(size + PAGE_SIZE - 1) / PAGE_SIZE] in [usize]. *)
Definition num_pages (size : Z) : Z := u64 (size + PAGE_SIZE - 1) / PAGE_SIZE.

(** [sort_by_key(|r| r.start)]: the stable sort. *)
Fixpoint insert_region (r : VmRegion) (l : list VmRegion) : list VmRegion :=
  match l with
  | [] => [r]
  | r' :: l' => if vm_start r <=? vm_start r' then r :: l else r' :: insert_region r l'
  end.

Definition sort_regions (l : list VmRegion) : list VmRegion := foldr insert_region [] l.

(** The loop of [find_free_region]: an early return, or the final [current]. *)
Fixpoint scan_regions (size current : Z) (l : list VmRegion) : Z + Z :=
  match l with
  | [] => inr current
  | r :: l =>
      if (current <=? vm_start r) && (size <=? vm_start r - current) then inl current
      else scan_regions size (vm_end r) l
  end.

Definition find_free_region (size vf : Z) (a : AddressSpace) : option Z :=
  let start_addr := if contains vf VM_USER then 0x10000000 else 0x00100000 in
  let end_addr := if contains vf VM_USER then 0x00007FFFFFFF0000 else 0x40000000 in
  match scan_regions size start_addr (sort_regions (regions a)) with
  | inl current => Some current
  | inr current => if u64 (current + size) <=? end_addr then Some current else None
  end.

(** Regions are non-empty, do not wrap, and do not overlap. *)
Definition apart (r r' : VmRegion) : Prop := vm_end r ≤ vm_start r' ∨ vm_end r' ≤ vm_start r.

Fixpoint pairwise_apart (l : list VmRegion) : Prop :=
  match l with [] => True | r :: l => Forall (apart r) l ∧ pairwise_apart l end.

Definition regions_ok (l : list VmRegion) : Prop :=
  Forall (λ r, 0 ≤ vm_start r < vm_end r ∧ vm_end r < 2 ^ 63) l ∧ pairwise_apart l.

Section VirtMem.
Context {F : Type} `{FrameSource F}.
Variable L : Layout.

(** [AddressSpace::new] *)
Definition AddressSpace_new (pid : Z) (s : PT F) : option AddressSpace * PT F :=
  match fs_alloc (frames s) with
  | (Some root, fr) => (Some (mkAS root [] pid), mkPT (zero_table root (mem s)) fr)
  | (None, fr) => (None, mkPT (mem s) fr)
  end.

Definition AS_map_page (virt phys vf : Z) : M (PT F) unit :=
  map_page L virt phys (vm_to_arch_flags vf).

Definition map_region_page (start vf i : Z) : M (PT F) unit :=
  let virt := u64 (start + u64 (i * PAGE_SIZE)) in
  phys ← alloc_frame "Out of physical memory";
  AS_map_page virt phys vf.

Definition map_region (start size vf : Z) (name : string)
    : M (AddressSpace * PT F) unit := λ '(a, s),
  let end_ := u64 (start + size) in
  if existsb (overlaps start end_) (regions a)
  then (Err "Region overlaps with existing region", (a, s))
  else
    let a := set_regions (regions a ++ [mkRegion start end_ vf name]) a in
    let '(r, s) := for_m 0 (num_pages size) (map_region_page start vf) s in
    (r, (a, s)).

Definition AS_unmap_page (virt : Z) : M (PT F) unit :=
  phys ← unmap_page L virt;
  m_modify (λ s, mkPT (mem s) (fs_free phys (frames s))).

(** [position(|r| r.start == start)] and [remove]. *)
Fixpoint remove_region (start : Z) (l : list VmRegion) : option (VmRegion * list VmRegion) :=
  match l with
  | [] => None
  | r :: l =>
      if vm_start r =? start then Some (r, l)
      else match remove_region start l with
           | Some (r', l') => Some (r', r :: l')
           | None => None
           end
  end.

Definition unmap_region_page (start i : Z) : M (PT F) unit :=
  AS_unmap_page (u64 (start + u64 (i * PAGE_SIZE))).

Definition unmap_region (start : Z) : M (AddressSpace * PT F) unit := λ '(a, s),
  match remove_region start (regions a) with
  | None => (Err "Region not found", (a, s))
  | Some (region, rest) =>
      let n := num_pages (u64 (vm_end region - vm_start region)) in
      let '(r, s) := for_m 0 n (unmap_region_page (vm_start region)) s in
      (r, (set_regions rest a, s))
  end.

(** The kernel's own space: [KERNEL_ADDRESS_SPACE]. *)
Definition kernel_map (virt phys size vf : Z) : M (option AddressSpace * PT F) unit := λ '(kas, s),
  match kas with
  | Some a =>
      let '(r, s) := for_m 0 (num_pages size) (λ i,
        AS_map_page (u64 (virt + u64 (i * PAGE_SIZE))) (u64 (phys + u64 (i * PAGE_SIZE))) vf) s in
      (r, (kas, s))
  | None => (Err "Kernel address space not initialized", (kas, s))
  end.

Definition kernel_alloc (size vf : Z) (st : option AddressSpace * PT F)
    : option Z * (option AddressSpace * PT F) :=
  match st with
  | (Some a, s) =>
      match find_free_region size vf a with
      | None => (None, (Some a, s))
      | Some virt =>
          match map_region virt size vf "kernel_alloc" (a, s) with
          | (Ok _, (a, s)) => (Some virt, (Some a, s))
          | (_, (a, s)) => (None, (Some a, s))
          end
      end
  | (None, s) => (None, (None, s))
  end.

(** ** Specification vocabulary *)

(** Page [j] of a region. *)
Definition page_at (start j : Z) : Z := start + j * PAGE_SIZE.

(** [w] lies in none of the first [n] pages from [start]. *)
Definition outside (start n w : Z) : Prop := ∀ j, 0 ≤ j < n → ¬ same_page (page_at start j) w.

(** A page-aligned range of the lower half. *)
Definition user_range (start n : Z) : Prop :=
  0 ≤ start ∧ start mod PAGE_SIZE = 0 ∧ 0 ≤ n ∧ start + n * PAGE_SIZE ≤ 2 ^ 47.

(** The frames [fs] back the pages of [start, ...] and nothing else; the other frames
    taken since [s0] are page tables. *)
Definition backed (start : Z) (fs : list Z) (own : gmap Z (list Z)) (s0 s : PT F) : Prop :=
  NoDup fs ∧
  (∀ f, f ∈ fs → fs_avail (frames s0) f ∧ ¬ fs_avail (frames s) f ∧ own !! f = None ∧
     0 ≤ f < 2 ^ 32 ∧ f mod PAGE_SIZE = 0) ∧
  (∀ b, fs_avail (frames s) b → fs_avail (frames s0) b) ∧
  ∀ b, fs_avail (frames s0) b → fs_avail (frames s) b ∨ b ∈ fs ∨ is_Some (own !! b).

(** The state of [map_region]'s loop before page [i]. *)
Definition map_inv (start vf : Z) (s0 : PT F) (i : Z) (s : PT F) : Prop :=
  ∃ own fs, pt_wf L own s ∧ Z.of_nat (length fs) = i ∧ backed start fs own s0 s ∧
    (∀ j f, fs !! Z.to_nat j = Some f → 0 ≤ j →
       walk (mem s) 4 (KERNEL_PML4 L) (page_at start j) = Some (0%nat, PTE_new f (vm_to_arch_flags vf))) ∧
    ∀ w, outside start i w → walk (mem s) 4 (KERNEL_PML4 L) w = walk (mem s0) 4 (KERNEL_PML4 L) w.

(** What a failure of the loop leaves: no frame, and nothing changed outside. *)
Definition map_failed (start n : Z) (s0 s : PT F) : Prop :=
  (∃ own, pt_wf L own s) ∧ (∀ b, ¬ fs_avail (frames s) b) ∧
  ∀ w, outside start n w → walk (mem s) 4 (KERNEL_PML4 L) w = walk (mem s0) 4 (KERNEL_PML4 L) w.

(** The state of [unmap_region]'s loop before page [i], from a state [s1] whose
    pages are backed by [fs]. *)
Definition unmap_inv (start : Z) (fs : list Z) (own : gmap Z (list Z)) (s1 : PT F) (i : Z) (s : PT F)
    : Prop :=
  pt_wf L own s ∧
  (∀ j, 0 ≤ j < i → walk (mem s) 4 (KERNEL_PML4 L) (page_at start j) = None) ∧
  (∀ w, outside start i w → walk (mem s) 4 (KERNEL_PML4 L) w = walk (mem s1) 4 (KERNEL_PML4 L) w) ∧
  ∀ b, fs_avail (frames s) b ↔ fs_avail (frames s1) b ∨ b ∈ take (Z.to_nat i) fs.

End VirtMem.

(** ** Pages and addresses *)

Lemma arch_flags_ok vf :
  is_present (vm_to_arch_flags vf) = true ∧ Z.land (vm_to_arch_flags vf) ADDR_MASK = 0.
Proof.
  unfold vm_to_arch_flags.
  destruct (contains vf VM_WRITE), (contains vf VM_USER), (contains vf VM_EXECUTE),
    (contains vf VM_MMIO); split; reflexivity.
Qed.

(** The indices of an address of the lower half are its page number's digits. *)
Lemma idx_low v :
  0 ≤ v < 2 ^ 47 →
  v / 4096 = ((idx 0 v * 512 + idx 1 v) * 512 + idx 2 v) * 512 + idx 3 v ∧ idx 0 v < 256.
Proof.
  intros Hv. destruct (idx_val v) as (E0 & E1 & E2 & E3 & _).
  assert (idx 0 v = v / 2 ^ 39) as G by (rewrite E0; apply Z.mod_small; zdiv).
  rewrite E1, E2, E3, G. split; [|zdiv].
  change (2 ^ 39) with (4096 * 512 * 512 * 512). change (2 ^ 30) with (4096 * 512 * 512).
  change (2 ^ 21) with (4096 * 512). change (2 ^ 12) with 4096. rewrite <- !Z.div_div by lia. zdiv.
Qed.

Lemma idx_low_eq v w :
  0 ≤ v < 2 ^ 47 → 0 ≤ w < 2 ^ 47 → v / 4096 = w / 4096 → ∀ k, idx k v = idx k w.
Proof.
  intros Hv Hw E. destruct (idx_low v Hv) as [Ev _], (idx_low w Hw) as [Ew _].
  pose proof (λ k, idx_range k v) as Rv. pose proof (λ k, idx_range k w) as Rw.
  pose proof (Rv 0%nat). pose proof (Rv 1%nat). pose proof (Rv 2%nat). pose proof (Rv 3%nat).
  pose proof (Rw 0%nat). pose proof (Rw 1%nat). pose proof (Rw 2%nat). pose proof (Rw 3%nat).
  intros [|[|[|k]]]; [lia|lia|lia|]. change (idx 3 v = idx 3 w). lia.
Qed.

Lemma path_4 v : path 4 v = [if idx 0 v =? 511 then 0 else idx 0 v; idx 1 v; idx 2 v; idx 3 v].
Proof. reflexivity. Qed.

(** In the lower half the PML4 alias plays no role: pages are page numbers. *)
Lemma same_page_low v w :
  0 ≤ v < 2 ^ 47 → 0 ≤ w < 2 ^ 47 → same_page v w ↔ v / 4096 = w / 4096.
Proof.
  intros Hv Hw. split.
  - destruct (idx_low v Hv) as [Ev Hv0], (idx_low w Hw) as [Ew Hw0].
    unfold same_page. rewrite !path_4, (proj2 (Z.eqb_neq (idx 0 v) 511)), (proj2 (Z.eqb_neq (idx 0 w) 511)) by lia.
    rewrite Ev, Ew. generalize (idx 0 v) (idx 1 v) (idx 2 v) (idx 3 v) (idx 0 w) (idx 1 w) (idx 2 w) (idx 3 w).
    by intros * [= -> -> -> ->].
  - intros E. unfold same_page. by rewrite !path_4, !(idx_low_eq v w Hv Hw E).
Qed.

(** Addresses of one page have the same walk. *)
Lemma walk_idx m n v w : (∀ k, idx k v = idx k w) → ∀ t, walk m n t v = walk m n t w.
Proof. intros E. induction n as [|n IH]; intros t; cbn [walk]; [done|]. by rewrite E, IH. Qed.

Lemma page_at_range start n j :
  user_range start n → 0 ≤ j < n →
  0 ≤ page_at start j < 2 ^ 47 ∧ page_at start j mod PAGE_SIZE = 0 ∧
  u64 (start + u64 (j * PAGE_SIZE)) = page_at start j.
Proof.
  unfold user_range, page_at, PAGE_SIZE. intros (H0 & Hm & Hn & Hle) Hj.
  rewrite (u64_small (j * 4096)) by lia. rewrite u64_small by lia. split; [lia|]. split; [zdiv|done].
Qed.

Lemma page_at_distinct start n i j :
  user_range start n → 0 ≤ i < n → 0 ≤ j < n → i ≠ j → ¬ same_page (page_at start i) (page_at start j).
Proof.
  intros Hr Hi Hj Hne. destruct (page_at_range _ _ _ Hr Hi) as (Ri & _), (page_at_range _ _ _ Hr Hj) as (Rj & _).
  rewrite same_page_low by done. unfold page_at, PAGE_SIZE in *. destruct Hr as (_ & Hm & _). unfold PAGE_SIZE in Hm. zdiv.
Qed.

Lemma outside_page start n i : user_range start n → 0 ≤ i < n → outside start i (page_at start i).
Proof. intros Hr Hi j Hj. apply (page_at_distinct start n); [done|lia|done|lia]. Qed.

(** Every address of the range lies in one of its pages. *)
Lemma in_range_page start n v :
  user_range start n → start ≤ v < start + n * PAGE_SIZE →
  0 ≤ (v - start) / PAGE_SIZE < n ∧ 0 ≤ v < 2 ^ 47 ∧
  page_at start ((v - start) / PAGE_SIZE) / 4096 = v / 4096.
Proof. unfold user_range, page_at, PAGE_SIZE. intros (H0 & Hm & Hn & Hle) Hv. zdiv. Qed.

Section Proofs.
Context {F : Type} `{FrameSourceLaws F}.
Variable L : Layout.

(** A frame taken for data keeps the tables' invariant and is not a table. *)
Lemma pt_wf_data own (s : PT F) a fr :
  pt_wf L own s → fs_alloc (frames s) = (Some a, fr) →
  pt_wf L own (mkPT (mem s) fr) ∧ own !! a = None ∧
  fs_avail (frames s) a ∧ ¬ fs_avail fr a ∧ 0 ≤ a < 2 ^ 32 ∧ a mod PAGE_SIZE = 0 ∧
  ∀ b, fs_avail fr b → fs_avail (frames s) b.
Proof.
  intros W E. destruct (fs_alloc_some _ _ _ (wf_frames _ _ _ W) E) as (Ha & Hna & Hr & Hm).
  assert (∀ b, fs_avail fr b → fs_avail (frames s) b) as Hmono.
  { intros b Hb. destruct (decide (b = a)) as [->|]; [done|].
    by apply (fs_alloc_frame _ _ _ b (wf_frames _ _ _ W) E). }
  split.
  - split; [apply W| |apply W|].
    + intros t π Ht. destruct (wf_table _ _ _ W t π Ht) as (?&?&Hnt&?). split; [done|]. split; [done|].
      split; [|done]. intros Hb. by apply Hnt, Hmono.
    + pose proof (fs_alloc_wf _ (wf_frames _ _ _ W)) as Hw. by rewrite E in Hw.
  - split; [|done]. destruct (own !! a) eqn:Eo; [|done].
    by destruct (wf_table _ _ _ W a _ Eo) as (_ & _ & ? & _).
Qed.

(** Frames already handed out stay outside a growing set of tables. *)
Lemma backed_step start fs own own' (s0 s s1 s2 : PT F) a fr :
  backed start fs own s0 s → pt_wf L own s → fs_alloc (frames s) = (Some a, fr) →
  s1 = mkPT (mem s) fr → grown own own' s1 s2 → backed start (fs ++ [a]) own' s0 s2.
Proof.
  intros (Hnd & Hfs & Hmono & Hgone) W E -> (Hsub & Hnew & Hav & Hlost).
  destruct (pt_wf_data own s a fr W E) as (_ & Hoa & Haa & Hna & Hra & Hma & Hm). cbn [frames] in *.
  assert (∀ f, ¬ fs_avail fr f → own !! f = None → own' !! f = None) as Hout.
  { intros f Hf Ho. destruct (own' !! f) eqn:Ef; [|done].
    destruct (Hnew f ltac:(by eexists)) as [[? ?]|?]; [congruence|done]. }
  split_and!.
  - apply NoDup_app. split; [done|]. split; [|apply NoDup_singleton].
    intros f Hf ->%list_elem_of_singleton. destruct (Hfs a Hf) as (_ & Hn & _). done.
  - intros f [Hf| ->%list_elem_of_singleton]%elem_of_app.
    + destruct (Hfs f Hf) as (? & Hn & ? & ? & ?). split; [done|].
      split; [by intros Hb%Hav%Hm|]. split; [|done]. apply Hout; [by intros Hb%Hm|done].
    + split; [by apply Hmono|]. split; [by intros Hb%Hav|]. split; [by apply Hout|done].
  - intros b Hb. by apply Hmono, Hm, Hav.
  - intros b [Hb|[Hb|[π Hb]]]%Hgone.
    + destruct (decide (b = a)) as [->|Hne]; [right; left; apply elem_of_app; right; by apply list_elem_of_singleton|].
      destruct (Hlost b) as [?|?]; [by apply (fs_alloc_frame _ _ _ b (wf_frames _ _ _ W) E)|by left|by right; right].
    + right. left. apply elem_of_app. by left.
    + right. right. exists π. by eapply lookup_weaken.
Qed.

Lemma map_region_page_step start n vf (s0 : PT F) i s :
  user_range start n → 0 ≤ i < n → (∀ j, 0 ≤ j < n → not_huge L (mem s0) (page_at start j)) →
  map_inv L start vf s0 i s →
  match map_region_page L start vf i s with
  | (Ok _, s') => map_inv L start vf s0 (i + 1) s'
  | (Err _, s') => map_failed L start n s0 s'
  | (Panic, _) => False
  end.
Proof.
  intros Hr Hi Hnh (own & fs & W & Hlen & Hb & Hw & Ho).
  unfold map_region_page, AS_map_page, alloc_frame, mbind, M_bind.
  destruct (page_at_range _ _ _ Hr Hi) as (_ & _ & ->).
  destruct (fs_alloc (frames s)) as [[a|] fr] eqn:E; cbn [ok_or].
  - destruct (pt_wf_data own s a fr W E) as (W1 & _).
    destruct (arch_flags_ok vf) as [Hp Hz].
    assert (not_huge L (mem s) (page_at start i)) as Hnhi.
    { intros e. rewrite Ho by (by apply (outside_page start n)). by apply Hnh. }
    pose proof (map_page_walk L own _ (page_at start i) a _ W1 Hnhi Hp) as G.
    destruct (map_page L _ a _ _) as [[[]|e|] s2]; [| |done].
    + destruct G as ((own' & W2 & G) & Hnew & Hold). exists own', (fs ++ [a]).
      split; [done|]. split; [rewrite length_app; simpl; lia|].
      split; [by eapply backed_step|]. split.
      * intros j f Hj Hj0. apply lookup_app_Some in Hj as [Hj|[Hge Hj]].
        -- pose proof (lookup_lt_Some _ _ _ Hj). rewrite Hold; [by apply Hw|].
           apply (page_at_distinct start n); [done|done|lia|lia].
        -- apply list_lookup_singleton_Some in Hj as [Hj <-]. replace j with i by lia. done.
      * intros w Hout. rewrite Hold by (apply Hout; lia). apply Ho. intros j Hj. apply Hout. lia.
    + destruct G as ((own' & W2 & _) & Hno & Hold). split_and!; [eauto|done|].
      intros w Hout. rewrite Hold. apply Ho. intros j Hj. apply Hout. lia.
  - destruct (fs_alloc_none _ _ (wf_frames _ _ _ W) E) as [-> Hno].
    split_and!; [exists own; by destruct s|done|]. intros w Hout. apply Ho. intros j Hj. apply Hout. lia.
Qed.

Lemma map_loop start n vf own (s0 : PT F) :
  user_range start n → (∀ j, 0 ≤ j < n → not_huge L (mem s0) (page_at start j)) → pt_wf L own s0 →
  match for_m 0 n (map_region_page L start vf) s0 with
  | (Ok _, s') => map_inv L start vf s0 n s'
  | (Err _, s') => map_failed L start n s0 s'
  | (Panic, _) => False
  end.
Proof.
  intros Hr Hnh W. apply for_m_ind; [apply Hr| |].
  - exists own, []. split; [done|]. split; [done|]. split; [|split; [|done]].
    + split_and!; [constructor|by intros f ?%elem_of_nil|done|by left].
    + intros j f Hj. by rewrite lookup_nil in Hj.
  - intros i s Hi. by apply map_region_page_step.
Qed.

(** Returning a data frame keeps the tables' invariant. *)
Lemma pt_wf_free own (s : PT F) f :
  pt_wf L own s → own !! f = None → 0 ≤ f < 2 ^ 32 → f mod PAGE_SIZE = 0 →
  pt_wf L own (mkPT (mem s) (fs_free f (frames s))).
Proof.
  intros W Ho Hr Hm. split; [apply W| |apply W|].
  - intros t π Ht. destruct (wf_table _ _ _ W t π Ht) as (?&?&Hnt&?). split; [done|]. split; [done|].
    split; [|done]. cbn [frames]. rewrite fs_free_avail by done. intros [?| ->]; [done|congruence].
  - cbn [frames]. apply fs_free_wf; [apply W|lia].
Qed.

Lemma unmap_region_page_step start n vf own fs (s1 : PT F) i s :
  user_range start n → 0 ≤ i < n → Z.of_nat (length fs) = n →
  (∀ f, f ∈ fs → own !! f = None ∧ 0 ≤ f < 2 ^ 32 ∧ f mod PAGE_SIZE = 0) →
  (∀ j f, fs !! Z.to_nat j = Some f → 0 ≤ j → walk (mem s1) 4 (KERNEL_PML4 L) (page_at start j) =
     Some (0%nat, PTE_new f (vm_to_arch_flags vf))) →
  unmap_inv L start fs own s1 i s →
  match unmap_region_page L start i s with
  | (Ok _, s') => unmap_inv L start fs own s1 (i + 1) s'
  | _ => False
  end.
Proof.
  intros Hr Hi Hlen Hfs Hw (W & Hnone & Ho & Hav).
  unfold unmap_region_page, AS_unmap_page, mbind, M_bind, m_modify.
  destruct (page_at_range _ _ _ Hr Hi) as (_ & _ & ->).
  destruct (lookup_lt_is_Some_2 fs (Z.to_nat i)) as [f Hf]; [lia|].
  destruct (Hfs f ltac:(by eapply list_elem_of_lookup_2)) as (Hof & Hrf & Hmf).
  assert (walk (mem s) 4 (KERNEL_PML4 L) (page_at start i) = Some (0%nat, PTE_new f (vm_to_arch_flags vf))) as Hwi.
  { rewrite Ho by (by apply (outside_page start n)). apply Hw; [done|lia]. }
  assert (not_huge L (mem s) (page_at start i)) as Hnh by (intros e; rewrite Hwi; discriminate).
  pose proof (unmap_page_walk L own s _ W Hnh) as U.
  destruct (unmap_page L (page_at start i) s) as [[phys|e|] s2]; [| |done].
  - destruct U as (W2 & Hfr & (e & He & ->) & Hn2 & Ho2). rewrite Hwi in He. injection He as <-.
    destruct (arch_flags_ok vf) as [_ Hz]. rewrite pte_addr_new_frame by (done || lia). split_and!.
    + by apply pt_wf_free.
    + intros j Hj. cbn [mem]. destruct (decide (j = i)) as [->|]; [done|].
      rewrite Ho2; [apply Hnone; lia|]. apply (page_at_distinct start n); [done|lia|lia|done].
    + intros w Hout. cbn [mem]. rewrite Ho2 by (apply Hout; lia). apply Ho. intros j Hj. apply Hout. lia.
    + intros b. cbn [frames]. rewrite fs_free_avail, Hfr, Hav by done.
      replace (Z.to_nat (i + 1)) with (S (Z.to_nat i)) by lia. rewrite (take_S_r _ _ f) by done.
      rewrite elem_of_app, list_elem_of_singleton. tauto.
  - destruct U as [-> Hn]. congruence.
Qed.

Lemma unmap_loop start n vf own fs (s1 : PT F) :
  user_range start n → Z.of_nat (length fs) = n →
  (∀ f, f ∈ fs → own !! f = None ∧ 0 ≤ f < 2 ^ 32 ∧ f mod PAGE_SIZE = 0) →
  (∀ j f, fs !! Z.to_nat j = Some f → 0 ≤ j → walk (mem s1) 4 (KERNEL_PML4 L) (page_at start j) =
     Some (0%nat, PTE_new f (vm_to_arch_flags vf))) →
  pt_wf L own s1 →
  match for_m 0 n (unmap_region_page L start) s1 with
  | (Ok _, s') => unmap_inv L start fs own s1 n s'
  | _ => False
  end.
Proof.
  intros Hr Hlen Hfs Hw W.
  pose proof (for_m_ind (unmap_inv L start fs own s1) (λ _ _, False) (unmap_region_page L start) 0 n s1) as Ind.
  enough (match for_m 0 n (unmap_region_page L start) s1 with
    | (Ok _, s') => unmap_inv L start fs own s1 n s' | (Err _, _) => False | (Panic, _) => False end) as G
    by (destruct (for_m 0 n _ s1) as [[]]; done).
  apply Ind; [apply Hr| |].
  - split; [done|]. split; [intros; lia|]. split; [done|]. intros b. rewrite take_0, elem_of_nil. tauto.
  - intros i s Hi Hinv. pose proof (unmap_region_page_step start n vf own fs s1 i s Hr Hi Hlen Hfs Hw Hinv) as G.
    destruct (unmap_region_page L start i s) as [[]]; done.
Qed.
End Proofs.

(** ** Regions and placement *)

Lemma num_pages_eq start n size :
  user_range start n → n = (size + PAGE_SIZE - 1) / PAGE_SIZE → 0 ≤ size →
  num_pages size = n ∧ u64 (start + size) = start + size.
Proof.
  unfold user_range, num_pages, PAGE_SIZE. intros (H0 & Hm & Hn & Hle) -> Hs.
  rewrite !u64_small by zdiv. done.
Qed.

Lemma remove_region_last start l r :
  Forall (λ r, vm_start r ≠ start) l → vm_start r = start →
  remove_region start (l ++ [r]) = Some (r, l).
Proof.
  intros Hl Hr. induction Hl as [|r' l Hr' Hl IH]; cbn [app remove_region].
  - by rewrite (proj2 (Z.eqb_eq _ _)).
  - rewrite (proj2 (Z.eqb_neq _ _)) by done. by rewrite IH.
Qed.

Lemma insert_region_perm r l : insert_region r l ≡ₚ r :: l.
Proof.
  induction l as [|r' l IH]; simpl; [done|]. case_match; [done|]. rewrite IH. by constructor.
Qed.

Lemma sort_regions_perm l : sort_regions l ≡ₚ l.
Proof. induction l as [|r l IH]; simpl; [done|]. by rewrite insert_region_perm, IH. Qed.

Lemma pairwise_apart_perm l l' : l ≡ₚ l' → pairwise_apart l → pairwise_apart l'.
Proof.
  assert (∀ r r', apart r r' → apart r' r) as Sym by (unfold apart; tauto).
  induction 1 as [|r l l' Hp IH|r r' l|l1 l2 l3 _ IH1 _ IH2]; cbn [pairwise_apart]; [done| | |auto].
  - intros [Hf Hl]. split; [by rewrite <- Hp|auto].
  - rewrite !Forall_cons. intros [[Ha Hf] [Hf' Hl]]. split; [split; [by apply Sym|done]|done].
Qed.

Lemma pairwise_apart_snoc l r :
  pairwise_apart l → Forall (λ r', apart r' r) l → pairwise_apart (l ++ [r]).
Proof.
  induction l as [|r' l IH]; cbn [app pairwise_apart]; [by intros _ _|].
  intros [Hf Hl] [Ha Hfl]%Forall_cons. split; [|by apply IH].
  apply Forall_app. split; [done|]. by constructor.
Qed.

Lemma overlaps_apart s e r : s < e → vm_start r < vm_end r →
  overlaps s e r = false ↔ vm_end r ≤ s ∨ e ≤ vm_start r.
Proof. unfold overlaps. rewrite andb_false_iff, !Z.ltb_ge. lia. Qed.

Lemma sort_regions_sorted l : StronglySorted (λ r r', vm_start r ≤ vm_start r') (sort_regions l).
Proof.
  induction l as [|r l IH]; simpl; [constructor|]. induction IH as [|r' l' Hs IH Hf]; simpl.
  - by repeat constructor.
  - destruct (Z.leb_spec (vm_start r) (vm_start r')).
    + constructor; [by constructor|]. constructor; [done|].
      eapply Forall_impl; [exact Hf|]. simpl. lia.
    + constructor; [done|]. rewrite insert_region_perm. constructor; [lia|done].
Qed.

(** The scan over sorted, disjoint regions: the place it returns is clear of all of
    them. *)
Lemma scan_regions_spec size (l : list VmRegion) : ∀ (ds : list VmRegion) c,
  0 ≤ size → StronglySorted (λ r r', vm_start r ≤ vm_start r') l → pairwise_apart l →
  Forall (λ r, vm_start r < vm_end r) l →
  (∀ d, d ∈ ds → vm_end d ≤ c) → (∀ d r, d ∈ ds → r ∈ l → vm_end d ≤ vm_start r) →
  match scan_regions size c l with
  | inl x => (x = c ∨ ∃ r, r ∈ l ∧ x = vm_end r) ∧
      ∀ r, r ∈ ds ∨ r ∈ l → vm_end r ≤ x ∨ x + size ≤ vm_start r
  | inr x => (x = c ∨ ∃ r, r ∈ l ∧ x = vm_end r) ∧ ∀ r, r ∈ ds ∨ r ∈ l → vm_end r ≤ x
  end.
Proof.
  induction l as [|r l IH]; intros ds c Hsz Hs Hap Hne Hds Hdl; cbn [scan_regions].
  - split; [by left|]. intros r [Hr|?%elem_of_nil]; [auto|done].
  - inversion_clear Hs as [|? ? Hs' Hf]. destruct Hap as [Hfa Hap']. rewrite Forall_cons in Hne.
    rewrite Forall_forall in Hf, Hfa. destruct Hne as [Hr Hne].
    destruct ((c <=? vm_start r) && (size <=? vm_start r - c)) eqn:Ec.
    + apply andb_true_iff in Ec as [Ec1%Z.leb_le Ec2%Z.leb_le].
      split; [by left|]. intros r' [Hr'|[->|Hr']%elem_of_cons]; [left; auto|right; lia|].
      right. specialize (Hf r' Hr'). simpl in Hf. lia.
    + assert (∀ d, d ∈ r :: ds → vm_end d ≤ vm_end r) as Hds'.
      { intros d [->|Hd]%elem_of_cons; [done|]. specialize (Hdl d r Hd ltac:(left)). lia. }
      assert (∀ d r', d ∈ r :: ds → r' ∈ l → vm_end d ≤ vm_start r') as Hdl'.
      { intros d r' [->|Hd]%elem_of_cons Hr'; [|apply Hdl; [done|by right]].
        rewrite Forall_forall in Hne. specialize (Hf r' Hr'). specialize (Hfa r' Hr').
        specialize (Hne r' Hr'). unfold apart in Hfa. simpl in *. lia. }
      pose proof (IH (r :: ds) (vm_end r) Hsz Hs' Hap' Hne Hds' Hdl') as G.
      destruct (scan_regions size (vm_end r) l) as [x|x]; destruct G as [Hx Hall];
        (split; [right; destruct Hx as [->|(r' & ? & ->)]; [exists r|exists r']; (split; [by constructor|done])|]);
        intros r' [Hr'|[->|Hr']%elem_of_cons]; apply Hall; rewrite elem_of_cons; tauto.
Qed.

(** ** Properties *)

(** C6: on a page-aligned range of the lower half that no 2 MB page covers, [map_region] refuses
    exactly the ranges that overlap a region; otherwise it adds the region and
    either backs every page with a frame of its own - free before, in use after,
    never a page table - and changes no other translation, or runs out of frames
    and has then added the region all the same. *)
Theorem map_region_spec {F} `{FrameSourceLaws F} L own (s : PT F) a start size vf name n :
  pt_wf L own s → user_range start n → 0 ≤ size → n = (size + PAGE_SIZE - 1) / PAGE_SIZE →
  (∀ j, 0 ≤ j < n → not_huge L (mem s) (page_at start j)) →
  let new := set_regions (regions a ++ [mkRegion start (start + size) vf name]) a in
  let clash := existsb (overlaps start (start + size)) (regions a) in
  match map_region L start size vf name (a, s) with
  | (Ok _, (a', s')) => clash = false ∧ a' = new ∧ ∃ own' fs,
      pt_wf L own' s' ∧ Z.of_nat (length fs) = n ∧ backed start fs own' s s' ∧
      (∀ v, start ≤ v < start + n * PAGE_SIZE → ∃ f,
         fs !! Z.to_nat ((v - start) / PAGE_SIZE) = Some f ∧
         translate L (mem s') v = Some (f + v mod 4096)) ∧
      ∀ w, outside start n w → translate L (mem s') w = translate L (mem s) w
  | (Err _, (a', s')) =>
      (clash = true ∧ a' = a ∧ s' = s) ∨
      (clash = false ∧ a' = new ∧ (∃ own', pt_wf L own' s') ∧ (∀ b, ¬ fs_avail (frames s') b) ∧
       ∀ w, outside start n w → translate L (mem s') w = translate L (mem s) w)
  | (Panic, _) => False
  end.
Proof.
  intros W Hr Hsz -> Hnh new clash. set (n := _ / _) in *.
  destruct (num_pages_eq start n size Hr eq_refl Hsz) as [En Es].
  unfold map_region. rewrite Es, En. fold clash. destruct clash; [by left|].
  pose proof (map_loop L start n vf own s Hr Hnh W) as G.
  destruct (for_m 0 n _ s) as [[[]|e|] s']; [| |done].
  - split; [done|]. split; [done|]. destruct G as (own' & fs & W' & Hlen & Hb & Hw & Ho).
    exists own', fs. split; [done|]. split; [done|]. split; [done|]. split.
    + intros v Hv. destruct (in_range_page start n v Hr Hv) as (Hj & Hv47 & Epage).
      set (j := (v - start) / PAGE_SIZE) in *. destruct (page_at_range _ _ _ Hr Hj) as (Hp47 & _).
      destruct (lookup_lt_is_Some_2 fs (Z.to_nat j)) as [f Hf]; [lia|]. exists f. split; [done|].
      destruct Hb as (_ & Hfs & _). destruct (Hfs f ltac:(by eapply list_elem_of_lookup_2)) as (_ & _ & _ & Hrf & Hmf).
      destruct (arch_flags_ok vf) as [_ Hz].
      erewrite translate_leaf; [rewrite (pte_addr_new_frame f); [done|done|lia|done]|].
      rewrite <- (Hw j f Hf ltac:(lia)). symmetry. apply walk_idx. by apply idx_low_eq.
    + intros w Hout. by rewrite !translate_walk, Ho.
  - right. split; [done|]. split; [done|]. destruct G as (Hw & Hno & Ho).
    split; [done|]. split; [done|]. intros w Hout. by rewrite !translate_walk, Ho.
Qed.

(** C7: [unmap_region] after a successful [map_region] of a page-aligned range of the
    lower half that no 2 MB page covers, where no region starts: the region list is
    the old one, every page of the region is unmapped, every other translation is the
    one from before both, and exactly the frames that backed the region are returned.
    Of the frames that were free before, all are free again but those that became
    page tables on the way, which stay in use. *)
Theorem map_unmap_roundtrip {F} `{FrameSourceLaws F} L own (s : PT F) a start size vf name n a1 s1 :
  pt_wf L own s → user_range start n → 0 ≤ size → n = (size + PAGE_SIZE - 1) / PAGE_SIZE →
  (∀ j, 0 ≤ j < n → not_huge L (mem s) (page_at start j)) →
  Forall (λ r, vm_start r ≠ start) (regions a) →
  map_region L start size vf name (a, s) = (Ok tt, (a1, s1)) →
  ∃ s2 own2 fs, unmap_region L start (a1, s1) = (Ok tt, (a, s2)) ∧ pt_wf L own2 s2 ∧
    Z.of_nat (length fs) = n ∧ backed start fs own2 s s1 ∧
    (∀ j, 0 ≤ j < n → translate L (mem s2) (page_at start j) = None) ∧
    (∀ w, outside start n w → translate L (mem s2) w = translate L (mem s) w) ∧
    (∀ b, fs_avail (frames s2) b ↔ fs_avail (frames s1) b ∨ b ∈ fs) ∧
    ∀ b, fs_avail (frames s2) b ↔ fs_avail (frames s) b ∧ own2 !! b = None.
Proof.
  intros W Hr Hsz -> Hnh Hne. set (n := _ / _) in *.
  destruct (num_pages_eq start n size Hr eq_refl Hsz) as [En Es].
  unfold map_region. rewrite Es, En. destruct (existsb _ _); [done|].
  pose proof (map_loop L start n vf own s Hr Hnh W) as G.
  destruct (for_m 0 n _ s) as [[[]|e|] s'] eqn:Eloop; [|done|done]. intros [= <- <-].
  destruct G as (own' & fs & W' & Hlen & Hb & Hw & Ho). pose proof Hb as (_ & Hfs & Hmono & Hgone).
  assert (∀ f, f ∈ fs → own' !! f = None ∧ 0 ≤ f < 2 ^ 32 ∧ f mod PAGE_SIZE = 0) as Hfs'.
  { intros f Hf. destruct (Hfs f Hf) as (_ & _ & ? & ? & ?). done. }
  pose proof (unmap_loop L start n vf own' fs s' Hr Hlen Hfs' Hw W') as U.
  unfold unmap_region. cbn [regions set_regions]. rewrite remove_region_last by done. cbn [vm_start vm_end].
  replace (start + size - start) with size by lia.
  rewrite (u64_small size) by (unfold user_range, PAGE_SIZE in Hr; subst n; unfold PAGE_SIZE in *; zdiv).
  rewrite En. destruct (for_m 0 n (unmap_region_page L start) s') as [[[]|e|] s2]; [|done|done].
  destruct U as (W2 & Hnone & Ho2 & Hav). exists s2, own', fs. split; [by destruct a|].
  assert (∀ b, fs_avail (frames s2) b ↔ fs_avail (frames s') b ∨ b ∈ fs) as Hback by (intros b; by rewrite Hav, take_ge by lia).
  split_and!; [done..| | |done|].
  - intros j Hj. by rewrite translate_walk, Hnone.
  - intros w Hout. by rewrite !translate_walk, Ho2, Ho.
  - intros b. rewrite Hback. split.
    + intros [Hb'|Hb']; [|by destruct (Hfs b Hb') as (? & _ & ? & _)]. split; [by apply Hmono|].
      destruct (own' !! b) as [π|] eqn:Eo; [|done]. by destruct (wf_table _ _ _ W' b π Eo) as (_ & _ & ? & _).
    + intros [[?|[?|[π Eo]]]%Hgone Hn]; [by left|by right|congruence].
Qed.

(** In a space whose regions are disjoint [find_free_region] only returns
    places where the new region overlaps no other, so that adding it there keeps
    the regions disjoint; the place is the bottom of the range or the end of a
    region. *)
Theorem find_free_region_spec a size vf x r :
  regions_ok (regions a) → 0 < size < 2 ^ 62 → find_free_region size vf a = Some x →
  x + size < 2 ^ 63 →
  vm_start r = x → vm_end r = x + size →
  existsb (overlaps x (x + size)) (regions a) = false ∧
  regions_ok (regions a ++ [r]) ∧
  (x = (if contains vf VM_USER then 0x10000000 else 0x100000) ∨
   ∃ r', r' ∈ regions a ∧ x = vm_end r').
Proof.
  intros [Hwf Hap] Hsz Hx Hbound Hrs Hre. unfold find_free_region in Hx.
  set (c := if contains vf VM_USER then 0x10000000 else 0x100000) in *.
  pose proof (sort_regions_perm (regions a)) as Hp.
  assert (Forall (λ r, vm_start r < vm_end r) (sort_regions (regions a))) as Hne.
  { rewrite Hp. eapply Forall_impl; [exact Hwf|]. simpl. lia. }
  pose proof (scan_regions_spec size (sort_regions (regions a)) [] c ltac:(lia)
    (sort_regions_sorted _) (pairwise_apart_perm _ _ (symmetry Hp) Hap) Hne
    ltac:(by intros d ?%elem_of_nil) ltac:(by intros d r' ?%elem_of_nil)) as G.
  assert ((x = c ∨ ∃ r', r' ∈ regions a ∧ x = vm_end r') ∧
    ∀ r', r' ∈ regions a → vm_end r' ≤ x ∨ x + size ≤ vm_start r') as [Hplace Hclear].
  { destruct (scan_regions size c _) as [y|y]; [|destruct (_ <=? _); [|done]]; injection Hx as <-;
      destruct G as [Hpl Hall]; (split; [destruct Hpl as [?|(r' & Hr' & ?)]; [by left|right; exists r'; by rewrite <- Hp]|]);
      intros r' Hr'; specialize (Hall r' ltac:(right; by rewrite Hp)); tauto. }
  assert (0 ≤ x) as Hx0.
  { destruct Hplace as [->|(r' & Hr' & ->)]; [subst c; by case_match|].
    rewrite Forall_forall in Hwf. specialize (Hwf r' Hr'). simpl in Hwf. lia. }
  split; [|split; [|done]].
  - apply not_true_iff_false. intros Ho. apply existsb_exists in Ho as (r' & Hr'%list_elem_of_In & Ho).
    rewrite Forall_forall in Hwf. specialize (Hwf r' Hr'). specialize (Hclear r' Hr'). simpl in Hwf.
    apply not_false_iff_true in Ho. apply Ho, overlaps_apart; lia.
  - split.
    + apply Forall_app. split; [done|]. constructor; [lia|done].
    + apply pairwise_apart_snoc; [done|]. apply Forall_forall. intros r' Hr'. unfold apart.
      rewrite Hrs, Hre. by apply Hclear.
Qed.

(** ** Placement, by example *)

(** A region below the bottom of the range pulls the search below it. *)
Lemma find_free_region_below_start :
  find_free_region 0x1000 VM_READ (mkAS 0 [mkRegion 0 0x1000 VM_READ "low"] 0) = Some 0x1000.
Proof. reflexivity. Qed.

(** The end of a region is used as it is: after a region of 100 bytes the next one
    starts in the same page. *)
Lemma find_free_region_unaligned :
  find_free_region 100 VM_READ (mkAS 0 [mkRegion 0x100000 (0x100000 + 100) VM_READ "kernel_alloc"] 0)
    = Some (0x100000 + 100) ∧
  same_page 0x100000 (0x100000 + 100).
Proof. split; reflexivity. Qed.

(** The first kernel allocation after boot: it lies in the identity mapping, and
    [map_page] stores the entry into the low memory that mapping covers. *)
Lemma kernel_alloc_boot {F} `{FrameSource F} L m (fr fr' : F) a root :
  layout_ok L → statics_zero L m → fs_alloc fr = (Some a, fr') →
  let s := mkPT (paging_init L m) fr in
  let vf := Z.lor VM_READ VM_WRITE in
  kernel_alloc L 0x1000 vf (Some (mkAS root [] 0), s) =
    (Some 0x100000,
      (Some (mkAS root [mkRegion 0x100000 0x101000 vf "kernel_alloc"] 0),
       mkPT (<[0x800 := PTE_new a (vm_to_arch_flags vf)]> (paging_init L m)) fr')).
Proof.
  intros HL Hz Ea s vf. unfold kernel_alloc.
  change (find_free_region 0x1000 vf (mkAS root [] 0)) with (Some 0x100000).
  unfold map_region. cbn [regions existsb]. change (num_pages 0x1000) with 1.
  unfold for_m. change (Z.to_nat (1 - 0)) with 1%nat. cbn [iter_m].
  unfold map_region_page, AS_map_page, alloc_frame, mbind, M_bind, s. cbn [frames mem]. rewrite Ea. cbn [ok_or].
  change (u64 (0x100000 + u64 (0 * PAGE_SIZE))) with 0x100000.
  rewrite map_page_get_pt, get_pt_boot by (done || lia). reflexivity.
Qed.

(** ** Witnesses *)

(** An empty root table and four free frames. *)
Definition pt0 : PT FrameAllocator := mkPT ∅ fa_four.
Definition as0 : AddressSpace := mkAS 0x5000 [mkRegion 0x100000 0x200000 VM_READ "text"] 1.

Lemma pt0_wf : pt_wf L0 {[ 0x300000 := [] ]} pt0.
Proof.
  split; cbn [mem frames pt0].
  - by rewrite lookup_singleton_eq.
  - intros t π [<- <-]%lookup_singleton_Some. split; [lia|]. split; [done|].
    split; [|simpl; lia]. apply L0_static. by left.
  - intros t π i [<- <-]%lookup_singleton_Some _ _. unfold rd. by rewrite lookup_empty.
  - apply alloc_inv_fa_four.
Qed.

Lemma pt0_not_huge v : not_huge L0 (mem pt0) v.
Proof. intros e. cbn [mem pt0]. by rewrite walk_zero by (intros; unfold rd; by rewrite lookup_empty). Qed.

Lemma map_ok_example : (map_region L0 (2 ^ 39) 0x1000 VM_READ "data" (as0, pt0)).1 = Ok tt.
Proof. vm_compute. reflexivity. Qed.

Lemma user_range_example : user_range (2 ^ 39) 1.
Proof. by vm_compute. Qed.

Lemma map_region_spec_witness :
  let new := set_regions (regions as0 ++ [mkRegion (2 ^ 39) (2 ^ 39 + 0x1000) VM_READ "data"]) as0 in
  let clash := existsb (overlaps (2 ^ 39) (2 ^ 39 + 0x1000)) (regions as0) in
  match map_region L0 (2 ^ 39) 0x1000 VM_READ "data" (as0, pt0) with
  | (Ok _, (a', s')) => clash = false ∧ a' = new ∧ ∃ own' fs,
      pt_wf L0 own' s' ∧ Z.of_nat (length fs) = 1 ∧ backed (2 ^ 39) fs own' pt0 s' ∧
      (∀ v, 2 ^ 39 ≤ v < 2 ^ 39 + 1 * PAGE_SIZE → ∃ f,
         fs !! Z.to_nat ((v - 2 ^ 39) / PAGE_SIZE) = Some f ∧
         translate L0 (mem s') v = Some (f + v mod 4096)) ∧
      ∀ w, outside (2 ^ 39) 1 w → translate L0 (mem s') w = translate L0 (mem pt0) w
  | (Err _, (a', s')) =>
      (clash = true ∧ a' = as0 ∧ s' = pt0) ∨
      (clash = false ∧ a' = new ∧ (∃ own', pt_wf L0 own' s') ∧ (∀ b, ¬ fs_avail (frames s') b) ∧
       ∀ w, outside (2 ^ 39) 1 w → translate L0 (mem s') w = translate L0 (mem pt0) w)
  | (Panic, _) => False
  end.
Proof.
  exact (map_region_spec L0 _ pt0 as0 (2 ^ 39) 0x1000 VM_READ "data" 1 pt0_wf
    user_range_example ltac:(lia) eq_refl (λ j _, pt0_not_huge _)).
Defined.

Lemma map_unmap_roundtrip_witness :
  let r := map_region L0 (2 ^ 39) 0x1000 VM_READ "data" (as0, pt0) in
  ∃ s2 own2 fs, unmap_region L0 (2 ^ 39) r.2 = (Ok tt, (as0, s2)) ∧ pt_wf L0 own2 s2 ∧
    Z.of_nat (length fs) = 1 ∧ backed (2 ^ 39) fs own2 pt0 r.2.2 ∧
    (∀ j, 0 ≤ j < 1 → translate L0 (mem s2) (page_at (2 ^ 39) j) = None) ∧
    (∀ w, outside (2 ^ 39) 1 w → translate L0 (mem s2) w = translate L0 (mem pt0) w) ∧
    (∀ b, fs_avail (frames s2) b ↔ fs_avail (frames r.2.2) b ∨ b ∈ fs) ∧
    ∀ b, fs_avail (frames s2) b ↔ fs_avail (frames pt0) b ∧ own2 !! b = None.
Proof.
  cbv zeta. pose proof map_ok_example as E.
  destruct (map_region L0 (2 ^ 39) 0x1000 VM_READ "data" (as0, pt0)) as [r [a1 s1]] eqn:Er.
  cbn [fst] in E. rewrite E in Er. cbn [snd].
  assert (Forall (λ r, vm_start r ≠ 2 ^ 39) (regions as0)) as Hne.
  { constructor; [|constructor]. simpl. lia. }
  exact (map_unmap_roundtrip L0 _ pt0 as0 (2 ^ 39) 0x1000 VM_READ "data" 1 a1 s1 pt0_wf
    user_range_example ltac:(lia) eq_refl (λ j _, pt0_not_huge _) Hne Er).
Defined.

Lemma find_free_region_spec_witness :
  let r := mkRegion 0x200000 0x201000 VM_READ "new" in
  find_free_region 0x1000 VM_READ (mkAS 0 [mkRegion 0x100000 0x200000 VM_READ "text"] 1) = Some 0x200000 ∧
  existsb (overlaps 0x200000 (0x200000 + 0x1000)) [mkRegion 0x100000 0x200000 VM_READ "text"] = false ∧
  regions_ok ([mkRegion 0x100000 0x200000 VM_READ "text"] ++ [r]) ∧
  (0x200000 = (if contains VM_READ VM_USER then 0x10000000 else 0x100000) ∨
   ∃ r', r' ∈ [mkRegion 0x100000 0x200000 VM_READ "text"] ∧ 0x200000 = vm_end r').
Proof.
  intros r. split; [reflexivity|].
  exact (find_free_region_spec (mkAS 0 [mkRegion 0x100000 0x200000 VM_READ "text"] 1) 0x1000 VM_READ 0x200000 r
    ltac:(split; [repeat constructor; simpl; lia|repeat constructor]) ltac:(lia) eq_refl ltac:(lia) eq_refl eq_refl).
Defined.
