(* ===== verification/Bytes.v ===== *)
(** * Bytes

    Byte buffers as [list Z]: the [copy_from_slice] and [resize] of the source,
    little-endian fields as [repr(C)] structures are laid out on x86_64, and
    [String::from_utf8_lossy].  [le_take] reads the next field of a structure;
    the round-trip lemmas rewrite with [le_take_le]. *)

From S2P Require Import Prelude.

Definition is_byte (b : Z) : Prop := 0 ≤ b < 256.
Definition is_bytes (l : list Z) : Prop := Forall is_byte l.

(** [l.len()] *)
Definition len {A} (l : list A) : Z := Z.of_nat (length l).

(** [&l[off..off + n]], for ranges inside the buffer. *)
Definition slice {A} (off n : Z) (l : list A) : list A := take (Z.to_nat n) (drop (Z.to_nat off) l).

(** [l[off..off + bs.len()].copy_from_slice(bs)] *)
Definition splice {A} (off : Z) (bs l : list A) : list A :=
  take (Z.to_nat off) l ++ bs ++ drop (Z.to_nat off + length bs) l.

(** [l.resize(n, x)] *)
Definition vec_resize {A} (n : Z) (x : A) (l : list A) : list A :=
  take (Z.to_nat n) l ++ replicate (Z.to_nat n - length l) x.

(** [vec![x; n]] *)
Definition zeros (n : Z) : list Z := replicate (Z.to_nat n) 0.

(** A byte string with [buf] written at [offset]. *)
Definition write_at (offset : Z) (buf data : list Z) : list Z :=
  splice offset buf (if len data <? offset + len buf then vec_resize (offset + len buf) 0 data else data).

(** The bytes of a string literal. *)
Definition bytes_of_string (s : string) : list Z :=
  map (λ c, Z.of_N (Ascii.N_of_ascii c)) (String.list_ascii_of_string s).

(** ** Little-endian fields *)

Fixpoint le (n : nat) (z : Z) : list Z :=
  match n with O => [] | S n => z mod 256 :: le n (z / 256) end.

Fixpoint le_decode (l : list Z) : Z :=
  match l with [] => 0 | b :: l => b + 256 * le_decode l end.

(** The next [n]-byte field, and what follows it. *)
Definition le_take (n : nat) (l : list Z) : Z * list Z := (le_decode (take n l), drop n l).

(** The next [k] fields of [n] bytes: an array. *)
Fixpoint le_take_list (n k : nat) (l : list Z) : list Z * list Z :=
  match k with
  | O => ([], l)
  | S k => let '(x, l) := le_take n l in let '(xs, l) := le_take_list n k l in (x :: xs, l)
  end.

Definition le_list (n : nat) (xs : list Z) : list Z := concat (map (le n) xs).

(** ** UTF-8

    [from_utf8_lossy] replaces every maximal prefix of an ill-formed sequence by
    U+FFFD.  [utf8_step] returns the length of the well-formed character at the
    head of the bytes, or the number of bytes to skip. *)

Definition is_cont (b : Z) : bool := (0x80 <=? b) && (b <=? 0xBF).

Definition utf8_step (l : list Z) : nat + nat :=
  match l with
  | [] => inr 1%nat
  | b0 :: l =>
      if b0 <? 0x80 then inl 1%nat
      else if (0xC2 <=? b0) && (b0 <=? 0xDF) then
        match l with b1 :: _ => if is_cont b1 then inl 2%nat else inr 1%nat | [] => inr 1%nat end
      else if (0xE0 <=? b0) && (b0 <=? 0xEF) then
        match l with
        | b1 :: l =>
            let lo := if b0 =? 0xE0 then 0xA0 else 0x80 in
            let hi := if b0 =? 0xED then 0x9F else 0xBF in
            if (lo <=? b1) && (b1 <=? hi) then
              match l with b2 :: _ => if is_cont b2 then inl 3%nat else inr 2%nat | [] => inr 2%nat end
            else inr 1%nat
        | [] => inr 1%nat
        end
      else if (0xF0 <=? b0) && (b0 <=? 0xF4) then
        match l with
        | b1 :: l =>
            let lo := if b0 =? 0xF0 then 0x90 else 0x80 in
            let hi := if b0 =? 0xF4 then 0x8F else 0xBF in
            if (lo <=? b1) && (b1 <=? hi) then
              match l with
              | b2 :: l =>
                  if is_cont b2 then
                    match l with b3 :: _ => if is_cont b3 then inl 4%nat else inr 3%nat | [] => inr 3%nat end
                  else inr 2%nat
              | [] => inr 2%nat
              end
            else inr 1%nat
        | [] => inr 1%nat
        end
      else inr 1%nat
  end.

Fixpoint utf8_lossy_fuel (fuel : nat) (l : list Z) : list Z :=
  match fuel, l with
  | _, [] => []
  | O, _ => []
  | S fuel, _ =>
      match utf8_step l with
      | inl n => take n l ++ utf8_lossy_fuel fuel (drop n l)
      | inr n => [0xEF; 0xBF; 0xBD] ++ utf8_lossy_fuel fuel (drop n l)
      end
  end.

Definition from_utf8_lossy (l : list Z) : list Z := utf8_lossy_fuel (length l) l.

(** What a [&str] is: a sequence of well-formed characters. *)
Inductive valid_utf8 : list Z → Prop :=
| valid_nil : valid_utf8 []
| valid_char l n : utf8_step l = inl n → (n ≤ length l)%nat → valid_utf8 (drop n l) → valid_utf8 l.

(** ** Lengths and slices *)

Lemma len_nonneg {A} (l : list A) : 0 ≤ len l.
Proof. unfold len. lia. Qed.

Lemma len_app {A} (l k : list A) : len (l ++ k) = len l + len k.
Proof. unfold len. rewrite length_app. lia. Qed.

Lemma len_replicate {A} n (x : A) : 0 ≤ n → len (replicate (Z.to_nat n) x) = n.
Proof. unfold len. rewrite length_replicate. lia. Qed.

Lemma len_zeros n : 0 ≤ n → len (zeros n) = n.
Proof. apply len_replicate. Qed.

Lemma len_slice {A} off n (l : list A) : 0 ≤ off → 0 ≤ n → off + n ≤ len l → len (slice off n l) = n.
Proof. unfold len, slice. intros. rewrite length_take, length_drop. lia. Qed.

Lemma len_splice {A} off (bs l : list A) :
  0 ≤ off → off + len bs ≤ len l → len (splice off bs l) = len l.
Proof. unfold len, splice. intros. rewrite !length_app, length_take, length_drop. lia. Qed.

Lemma len_resize {A} n (x : A) l : 0 ≤ n → len (vec_resize n x l) = n.
Proof. unfold len, vec_resize. intros. rewrite length_app, length_take, length_replicate. lia. Qed.

Lemma slice_splice_same {A} off (bs l : list A) :
  0 ≤ off → off + len bs ≤ len l → slice off (len bs) (splice off bs l) = bs.
Proof.
  unfold len, slice, splice. intros. rewrite drop_app_length' by (rewrite length_take; lia).
  rewrite take_app_length' by lia. done.
Qed.

Lemma lookup_slice {A} off n (l : list A) i :
  slice off n l !! i = if decide (i < Z.to_nat n)%nat then l !! (Z.to_nat off + i)%nat else None.
Proof. unfold slice. rewrite lookup_take, lookup_drop. by repeat case_decide. Qed.

Lemma lookup_splice {A} off (bs l : list A) i :
  0 ≤ off → off + len bs ≤ len l →
  splice off bs l !! i =
    if decide (Z.to_nat off ≤ i < Z.to_nat off + length bs)%nat
    then bs !! (i - Z.to_nat off)%nat else l !! i.
Proof.
  unfold len, splice. intros. destruct (decide (i < Z.to_nat off)%nat).
  - rewrite decide_False, lookup_app_l by (rewrite ?length_take; lia). by rewrite lookup_take, decide_True.
  - rewrite lookup_app_r by (rewrite length_take; lia). rewrite length_take.
    replace (i - Z.to_nat off `min` length l)%nat with (i - Z.to_nat off)%nat by lia. case_decide.
    + by rewrite lookup_app_l by lia.
    + rewrite lookup_app_r, lookup_drop by lia. f_equal. lia.
Qed.

Lemma slice_splice_other {A} off off' n (bs l : list A) :
  0 ≤ off → off + len bs ≤ len l → 0 ≤ off' → 0 ≤ n →
  off' + n ≤ off ∨ off + len bs ≤ off' → slice off' n (splice off bs l) = slice off' n l.
Proof.
  intros ? Hle ? ? Hd. apply list_eq. intros i. rewrite !lookup_slice. case_decide; [|done].
  rewrite lookup_splice by done. rewrite decide_False; [done|]. unfold len in *. lia.
Qed.

Lemma slice_all {A} n (l : list A) : len l = n → slice 0 n l = l.
Proof. unfold len, slice. intros. rewrite drop_0. apply take_ge. lia. Qed.

(** Two consecutive slices. *)
Lemma slice_app {A} off n m (l : list A) :
  0 ≤ off → 0 ≤ n → 0 ≤ m → slice off n l ++ slice (off + n) m l = slice off (n + m) l.
Proof.
  intros. unfold slice. rewrite !Z2Nat.inj_add by done. rewrite <- drop_drop.
  rewrite Nat.add_comm at 1. apply list_eq. intros i.
  destruct (decide (i < length (take (Z.to_nat n) (drop (Z.to_nat off) l)))%nat) as [Hi|Hi].
  - rewrite lookup_app_l by done. rewrite length_take in Hi. rewrite !lookup_take, !decide_True by lia. done.
  - rewrite lookup_app_r by lia. rewrite length_take in *. rewrite !lookup_take, !lookup_drop.
    destruct (decide (Z.to_nat n ≤ length (drop (Z.to_nat off) l))%nat).
    + rewrite Nat.min_l in * by lia. repeat case_decide; try lia; [f_equal; lia|done].
    + rewrite Nat.min_r in * by lia. rewrite !length_drop in *.
      repeat case_decide; rewrite ?lookup_ge_None_2 by lia; done.
Qed.

Lemma is_bytes_app l k : is_bytes (l ++ k) ↔ is_bytes l ∧ is_bytes k.
Proof. apply Forall_app. Qed.

Lemma is_bytes_take n l : is_bytes l → is_bytes (take n l).
Proof. apply Forall_take. Qed.

Lemma is_bytes_drop n l : is_bytes l → is_bytes (drop n l).
Proof. apply Forall_drop. Qed.

Lemma is_bytes_slice off n l : is_bytes l → is_bytes (slice off n l).
Proof. intros. by apply is_bytes_take, is_bytes_drop. Qed.

Lemma is_bytes_splice off bs l : is_bytes bs → is_bytes l → is_bytes (splice off bs l).
Proof. intros. unfold splice. rewrite !is_bytes_app. auto using is_bytes_take, is_bytes_drop. Qed.

Lemma is_bytes_replicate n x : is_byte x → is_bytes (replicate n x).
Proof. intros. by apply Forall_replicate. Qed.

Lemma is_bytes_zeros n : is_bytes (zeros n).
Proof. by apply is_bytes_replicate. Qed.

Lemma is_bytes_resize n l : is_bytes l → is_bytes (vec_resize n 0 l).
Proof. intros. apply is_bytes_app. split; [by apply is_bytes_take|by apply is_bytes_replicate]. Qed.

#[export] Hint Resolve len_nonneg is_bytes_take is_bytes_drop is_bytes_slice is_bytes_splice
  is_bytes_zeros is_bytes_resize : cotton.

(** ** Fields *)

Lemma length_le n z : length (le n z) = n.
Proof. revert z. induction n; intros z; simpl; auto. Qed.

Lemma is_bytes_le n z : is_bytes (le n z).
Proof.
  revert z. induction n as [|n IH]; intros z; simpl; [constructor|].
  constructor; [apply Z.mod_pos_bound; lia|apply IH].
Qed.

Lemma le_decode_le n z : 0 ≤ z < 2 ^ (8 * Z.of_nat n) → le_decode (le n z) = z.
Proof.
  revert z. induction n as [|n IH]; intros z Hz; cbn [le le_decode].
  - change (2 ^ (8 * Z.of_nat 0)) with 1 in Hz. lia.
  - rewrite IH; [pose proof (Z.div_mod z 256); lia|].
    replace (8 * Z.of_nat (S n)) with (8 + 8 * Z.of_nat n) in Hz by lia.
    rewrite Z.pow_add_r in Hz by lia. change (2 ^ 8) with 256 in Hz. zdiv.
Qed.

Lemma le_decode_range l : is_bytes l → 0 ≤ le_decode l < 2 ^ (8 * len l).
Proof.
  unfold len. induction 1 as [|b l Hb Hl IH]; cbn [le_decode length]; [done|].
  replace (8 * Z.of_nat (S (length l))) with (8 + 8 * Z.of_nat (length l)) by lia.
  rewrite Z.pow_add_r by lia. change (2 ^ 8) with 256. unfold is_byte in Hb. lia.
Qed.

(** Reading back the field at the head of the bytes. *)
Lemma le_take_le n z l : 0 ≤ z < 2 ^ (8 * Z.of_nat n) → le_take n (le n z ++ l) = (z, l).
Proof.
  intros Hz. unfold le_take. rewrite take_app_length', drop_app_length' by (by rewrite length_le).
  by rewrite le_decode_le.
Qed.

Lemma le_take_bytes bs l : le_take (length bs) (bs ++ l) = (le_decode bs, l).
Proof. unfold le_take. by rewrite take_app_length, drop_app_length. Qed.

Lemma le_take_list_le n xs l :
  Forall (λ z, 0 ≤ z < 2 ^ (8 * Z.of_nat n)) xs →
  le_take_list n (length xs) (le_list n xs ++ l) = (xs, l).
Proof.
  unfold le_list. induction 1 as [|x xs Hx Hxs IH]; cbn [le_take_list length map concat]; [done|].
  rewrite <- app_assoc, le_take_le by done. by rewrite IH.
Qed.

Lemma length_le_list n xs : length (le_list n xs) = (n * length xs)%nat.
Proof.
  unfold le_list. induction xs as [|x xs IH]; cbn [map concat length]; [lia|].
  rewrite length_app, length_le, IH. lia.
Qed.

Lemma is_bytes_le_list n xs : is_bytes (le_list n xs).
Proof.
  unfold le_list. induction xs; cbn [map concat]; [constructor|].
  apply is_bytes_app. split; [apply is_bytes_le|done].
Qed.

#[export] Hint Resolve is_bytes_le is_bytes_le_list : cotton.

(** ** UTF-8 *)

Lemma utf8_step_pos l n : utf8_step l = inl n → (1 ≤ n)%nat.
Proof. unfold utf8_step. intros H. repeat (case_match; simplify_eq; try lia). Qed.

Lemma utf8_lossy_valid l : valid_utf8 l → ∀ fuel, (length l ≤ fuel)%nat → utf8_lossy_fuel fuel l = l.
Proof.
  induction 1 as [|l n Hs Hle Hv IH]; intros fuel Hf; [by destruct fuel|].
  pose proof (utf8_step_pos _ _ Hs). destruct l as [|b l']; [simpl in Hle; lia|].
  destruct fuel as [|fuel]; [simpl in Hf; lia|]. cbn [utf8_lossy_fuel]. rewrite Hs.
  rewrite IH; [by rewrite take_drop|]. rewrite length_drop. simpl in *. lia.
Qed.

(** The lossy conversion is the identity on the bytes of a [&str]. *)
Lemma from_utf8_lossy_valid l : valid_utf8 l → from_utf8_lossy l = l.
Proof. intros Hv. by apply utf8_lossy_valid. Qed.

Lemma valid_utf8_ascii l : Forall (λ b, 0 ≤ b < 128) l → valid_utf8 l.
Proof.
  induction 1 as [|b l Hb Hl IH]; [constructor|]. apply (valid_char _ 1); [|simpl; lia|done].
  simpl. by rewrite (proj2 (Z.ltb_lt _ _)) by lia.
Qed.

(** ** Writing into a byte string *)

Lemma write_at_bytes offset buf data : is_bytes buf → is_bytes data → is_bytes (write_at offset buf data).
Proof.
  intros. unfold write_at. apply is_bytes_splice; [done|]. case_match; [by apply is_bytes_resize|done].
Qed.

Lemma len_write_at offset buf data :
  0 ≤ offset → len (write_at offset buf data) = Z.max (len data) (offset + len buf).
Proof.
  intros Ho. pose proof (len_nonneg buf). unfold write_at. destruct (Z.ltb_spec (len data) (offset + len buf)).
  - rewrite len_splice; rewrite ?len_resize by lia; lia.
  - rewrite len_splice by lia. lia.
Qed.

(** Every byte of the result: the buffer's, the old one, or a zero in a gap. *)
Lemma write_at_lookup offset buf data i :
  0 ≤ offset →
  write_at offset buf data !! i =
    if decide (Z.to_nat offset ≤ i < Z.to_nat offset + length buf)%nat then buf !! (i - Z.to_nat offset)%nat
    else if decide (i < length data)%nat then data !! i
    else if decide (i < Z.to_nat offset)%nat then Some 0 else None.
Proof.
  intros Ho. unfold write_at. pose proof (len_nonneg buf).
  destruct (Z.ltb_spec (len data) (offset + len buf)) as [Hlt|Hge].
  - rewrite lookup_splice by (rewrite ?len_resize by lia; lia). case_decide as Hin; [done|].
    unfold vec_resize. rewrite take_ge by (unfold len in *; lia). case_decide as Hd.
    + by rewrite lookup_app_l by done.
    + rewrite lookup_app_r by lia. unfold len in *. case_decide as Hoff.
      * apply lookup_replicate. split; [done|lia].
      * apply lookup_ge_None_2. rewrite length_replicate. lia.
  - rewrite lookup_splice by lia. unfold len in *. case_decide as Hin; [done|].
    case_decide as Hd; [done|]. rewrite lookup_ge_None_2 by lia.
    case_decide; [lia|done].
Qed.
