(* ===== verification/Vfs.v ===== *)
(** * The file-system interface: [fs/vfs.rs]

    The data the file systems exchange with the rest of the kernel. *)

From stdpp Require Import sorting.
From S2P Require Import Prelude Bytes.

Inductive FileType : Type :=
| Regular | Directory | CharDevice | BlockDeviceType | Fifo | Socket | Symlink.

#[export] Instance FileType_eq_dec : EqDecision FileType.
Proof. solve_decision. Defined.

(** [FileMode], a [u16] of [bitflags]. *)
Definition OWNER_READ : Z := 256.
Definition OWNER_WRITE : Z := 128.
Definition OWNER_EXEC : Z := 64.
Definition GROUP_READ : Z := 32.
Definition GROUP_WRITE : Z := 16.
Definition GROUP_EXEC : Z := 8.
Definition OTHER_READ : Z := 4.
Definition OTHER_WRITE : Z := 2.
Definition OTHER_EXEC : Z := 1.
Definition lor_all : list Z → Z := foldr Z.lor 0.
Definition OWNER_RWX : Z := lor_all [OWNER_READ; OWNER_WRITE; OWNER_EXEC].
Definition GROUP_RWX : Z := lor_all [GROUP_READ; GROUP_WRITE; GROUP_EXEC].
Definition OTHER_RWX : Z := lor_all [OTHER_READ; OTHER_WRITE; OTHER_EXEC].
Definition DEFAULT_FILE : Z := lor_all [OWNER_READ; OWNER_WRITE; GROUP_READ; OTHER_READ].
Definition DEFAULT_DIR : Z := lor_all [OWNER_RWX; GROUP_READ; GROUP_EXEC; OTHER_READ; OTHER_EXEC].
Definition mode_all : Z := lor_all [OWNER_RWX; GROUP_RWX; OTHER_RWX].
Definition from_bits_truncate (bits : Z) : Z := Z.land bits mode_all.

Record Stat : Type := mkStat {
  st_dev : Z; st_ino : Z; st_mode : Z; st_nlink : Z; st_uid : Z; st_gid : Z; st_rdev : Z;
  st_size : Z; st_blksize : Z; st_blocks : Z; st_atime : Z; st_mtime : Z; st_ctime : Z;
  st_file_type : FileType;
}.

Definition Stat_default : Stat := mkStat 0 0 DEFAULT_FILE 1 0 0 0 0 4096 0 0 0 0 Regular.

(** Names are the bytes of a [String]. *)
Record DirEntry : Type := mkDirEntry { de_name : list Z; de_file_type : FileType; de_inode : Z }.

Record FsStats : Type := mkFsStats {
  fs_block_size : Z; fs_total_blocks : Z; fs_free_blocks : Z; fs_total_inodes : Z; fs_free_inodes : Z;
}.

(** ** The traits

    [dyn Inode]: a handle [I] whose operations act on a store [S].  [inode_read]
    returns the bytes it copies into a buffer of [n] bytes. *)

Class InodeOps (S I : Type) : Type := {
  inode_ino : I → M S Z;
  inode_file_type : I → M S FileType;
  inode_stat : I → M S Stat;
  inode_read : I → Z → Z → M S (list Z);
  inode_write : I → Z → list Z → M S Z;
  inode_readdir : I → M S (list DirEntry);
  inode_lookup : I → list Z → M S (option I);
  inode_create : I → list Z → M S I;
  inode_mkdir : I → list Z → M S I;
  inode_unlink : I → list Z → M S unit;
  inode_truncate : I → Z → M S unit;
  inode_sync_ : I → M S unit;
}.

(** [dyn FileSystem] *)
Class FileSystemOps (S I F : Type) : Type := {
  fs_name : F → string;
  fs_root : F → M S I;
  fs_sync_ : F → M S unit;
  fs_statfs : F → M S FsStats;
}.

(** The default methods of the traits. *)
Definition default_regular {S A} : M S A := m_fail "Not a regular file".
Definition default_directory {S A} : M S A := m_fail "Not a directory".
Definition default_unsupported {S A} : M S A := m_fail "Operation not supported".
Definition default_sync {S} : M S unit := mret tt.
Definition default_ioctl {S A} : M S A := m_fail "Not a device".
Definition default_statfs {S A} : M S A := m_fail "Not implemented".

(** ** Names in the order of a [BTreeMap<String, _>] *)

Fixpoint bytes_leb (a b : list Z) : bool :=
  match a, b with
  | [], _ => true
  | _, [] => false
  | x :: a, y :: b => if x <? y then true else if y <? x then false else bytes_leb a b
  end.

Definition entry_le {A} (a b : list Z * A) : Prop := bytes_leb a.1 b.1 = true.

#[export] Instance entry_le_dec {A} (a b : list Z * A) : Decision (entry_le a b).
Proof. unfold entry_le. apply _. Defined.

Definition map_entries {A} (m : gmap (list Z) A) : list (list Z * A) := merge_sort entry_le (map_to_list m).
