(* ===== verification/Storage.v ===== *)
(** * Storage: [drivers/storage/mod.rs]

    The interface of a block device, [BlockDevice], with the laws its clients
    rely on; the partition tables [read_mbr] and [read_gpt] parse from one. *)

From S2P Require Import Prelude Bytes.

(** ** Block devices

    [bd_read start count] fills a buffer of [count] 512-byte sectors;
    [bd_write] stores one. *)

Class BlockDevice (D : Type) : Type := {
  bd_total_blocks : D → Z;
  bd_read : D → Z → Z → res (list Z);
  bd_write : Z → Z → list Z → D → res unit * D;
}.

(** A transfer that succeeds moves whole sectors, a write is read back, and
    sectors outside it are untouched; the size of the device does not change. *)
Class BlockDeviceLaws (D : Type) `{BlockDevice D} : Prop := {
  bd_read_bytes d s n bs : bd_read d s n = Ok bs → 0 ≤ n → len bs = n * 512 ∧ is_bytes bs;
  bd_read_written d d' s n bs :
    bd_write s n bs d = (Ok tt, d') → len bs = n * 512 → is_bytes bs → bd_read d' s n = Ok bs;
  bd_read_other d d' s n bs s' n' :
    bd_write s n bs d = (Ok tt, d') → s' + n' ≤ s ∨ s + n ≤ s' → bd_read d' s' n' = bd_read d s' n';
  bd_write_total d d' s n bs : bd_write s n bs d = (Ok tt, d') → bd_total_blocks d' = bd_total_blocks d;
}.

(** Transfers inside the device succeed. *)
Class ReliableDevice (D : Type) `{BlockDevice D} : Prop := {
  bd_read_ok d s n : 0 ≤ s → 0 < n ≤ 255 → s + n ≤ bd_total_blocks d → ∃ bs, bd_read d s n = Ok bs;
  bd_write_ok d s n bs : 0 ≤ s → 0 < n ≤ 255 → s + n ≤ bd_total_blocks d →
    len bs = n * 512 → ∃ d', bd_write s n bs d = (Ok tt, d');
}.

(** ** Master boot record *)

Record MbrPartition : Type := mkMbr {
  status : Z;
  first_chs : list Z;
  part_type : Z;
  last_chs : list Z;
  first_lba : Z;
  sector_count : Z;
}.

Definition is_active (p : MbrPartition) : bool := status p =? 0x80.
Definition mbr_is_valid (p : MbrPartition) : bool :=
  negb (part_type p =? 0) && (0 <? sector_count p).

Definition MbrPartition_parse (l : list Z) : MbrPartition :=
  let '(status, l) := le_take 1 l in
  let '(first_chs, l) := (take 3 l, drop 3 l) in
  let '(part_type, l) := le_take 1 l in
  let '(last_chs, l) := (take 3 l, drop 3 l) in
  let '(first_lba, l) := le_take 4 l in
  let '(sector_count, _) := le_take 4 l in
  mkMbr status first_chs part_type last_chs first_lba sector_count.

Definition MbrPartition_bytes (p : MbrPartition) : list Z :=
  le 1 (status p) ++ first_chs p ++ le 1 (part_type p) ++ last_chs p ++
  le 4 (first_lba p) ++ le 4 (sector_count p).

Definition nthZ (l : list Z) (i : Z) : Z := default 0 (l !! Z.to_nat i).

(** [read_mbr] on the sector it read. *)
Definition parse_mbr (buf : list Z) : res (list MbrPartition) :=
  if negb (nthZ buf 510 =? 0x55) || negb (nthZ buf 511 =? 0xAA) then Err "Invalid MBR signature"
  else Ok (map (λ i, MbrPartition_parse (drop (Z.to_nat (446 + i * 16)) buf)) (seqZ 0 4)).

(** ** GUID partition table *)

Record GptHeader : Type := mkGptH {
  signature : list Z;
  revision : Z;
  header_size : Z;
  header_crc32 : Z;
  gpt_reserved : Z;
  current_lba : Z;
  backup_lba : Z;
  first_usable_lba : Z;
  last_usable_lba : Z;
  disk_guid : list Z;
  partition_entry_lba : Z;
  num_partition_entries : Z;
  partition_entry_size : Z;
  partition_entry_crc32 : Z;
}.

Definition EFI_PART : list Z := [0x45; 0x46; 0x49; 0x20; 0x50; 0x41; 0x52; 0x54].

Definition gpt_header_is_valid (h : GptHeader) : bool := bool_decide (signature h = EFI_PART).

Definition GptHeader_parse (l : list Z) : GptHeader :=
  let '(signature, l) := (take 8 l, drop 8 l) in
  let '(revision, l) := le_take 4 l in
  let '(header_size, l) := le_take 4 l in
  let '(header_crc32, l) := le_take 4 l in
  let '(reserved, l) := le_take 4 l in
  let '(current_lba, l) := le_take 8 l in
  let '(backup_lba, l) := le_take 8 l in
  let '(first_usable_lba, l) := le_take 8 l in
  let '(last_usable_lba, l) := le_take 8 l in
  let '(disk_guid, l) := (take 16 l, drop 16 l) in
  let '(partition_entry_lba, l) := le_take 8 l in
  let '(num_partition_entries, l) := le_take 4 l in
  let '(partition_entry_size, l) := le_take 4 l in
  let '(partition_entry_crc32, _) := le_take 4 l in
  mkGptH signature revision header_size header_crc32 reserved current_lba backup_lba
    first_usable_lba last_usable_lba disk_guid partition_entry_lba num_partition_entries
    partition_entry_size partition_entry_crc32.

Record GptPartition : Type := mkGptP {
  type_guid : list Z;
  unique_guid : list Z;
  gp_first_lba : Z;
  gp_last_lba : Z;
  attributes : Z;
  gp_name : list Z;
}.

Definition gpt_is_valid (p : GptPartition) : bool := negb (bool_decide (type_guid p = zeros 16)).

Definition GptPartition_parse (l : list Z) : GptPartition :=
  let '(type_guid, l) := (take 16 l, drop 16 l) in
  let '(unique_guid, l) := (take 16 l, drop 16 l) in
  let '(first_lba, l) := le_take 8 l in
  let '(last_lba, l) := le_take 8 l in
  let '(attributes, l) := le_take 8 l in
  let '(name, _) := le_take_list 2 36 l in
  mkGptP type_guid unique_guid first_lba last_lba attributes name.

Section Tables.
Context {D : Type} `{BlockDevice D}.

(** The bytes that follow the 512-byte sector buffer in memory: an entry size that
    does not divide a sector makes [read_unaligned] run past it. *)
Variable beyond : list Z.

Definition read_mbr (d : D) : res (list MbrPartition) :=
  buf ← bd_read d 0 1; parse_mbr buf.

(** The entries of one sector, while fewer than [limit] were collected. *)
Fixpoint gpt_sector (n : nat) (i size limit : Z) (buf : list Z) (acc : list GptPartition)
    : list GptPartition :=
  match n with
  | O => acc
  | S n =>
      if limit <=? len acc then acc
      else
        let entry := GptPartition_parse (drop (Z.to_nat (i * size)) (buf ++ beyond)) in
        gpt_sector n (i + 1) size limit buf (if gpt_is_valid entry then acc ++ [entry] else acc)
  end.

Fixpoint gpt_sectors (n : nat) (lba per size limit : Z) (d : D) (acc : list GptPartition)
    : res (list GptPartition) :=
  match n with
  | O => Ok acc
  | S n =>
      buf ← bd_read d lba 1;
      gpt_sectors n (u64 (lba + 1)) per size limit d (gpt_sector (Z.to_nat per) 0 size limit buf acc)
  end.

(** The divisions panic on a zero divisor. *)
Definition read_gpt (d : D) : res (list GptPartition) :=
  buf ← bd_read d 1 1;
  let header := GptHeader_parse buf in
  if negb (gpt_header_is_valid header) then Err "Invalid GPT signature"
  else if partition_entry_size header =? 0 then Panic
  else
    let per := 512 / partition_entry_size header in
    if per =? 0 then Panic
    else
      let sectors_needed := (num_partition_entries header + per - 1) / per in
      gpt_sectors (Z.to_nat sectors_needed) (partition_entry_lba header) per
        (partition_entry_size header) (num_partition_entries header) d [].

End Tables.

(** ** A device in memory

    The laws of [BlockDevice] hold of a device that stores its bytes. *)

Module RamDisk.

Record ram_disk : Type := mkRam {
  sectors : Z;
  byte : Z → Z;
}.

Definition ram_read (d : ram_disk) (s n : Z) : res (list Z) :=
  if (0 <=? s) && (s + n <=? sectors d) then Ok (map (λ i, u8 (byte d i)) (seqZ (s * 512) (n * 512)))
  else Err "Read error".

Definition ram_write (s n : Z) (bs : list Z) (d : ram_disk) : res unit * ram_disk :=
  if (0 <=? s) && (s + n <=? sectors d) then
    (Ok tt, mkRam (sectors d) (λ i,
      if (s * 512 <=? i) && (i <? (s + n) * 512) then nthZ bs (i - s * 512) else byte d i))
  else (Err "Write error", d).

#[export] Instance ram_device : BlockDevice ram_disk := {
  bd_total_blocks := sectors;
  bd_read := ram_read;
  bd_write := ram_write;
}.

Lemma list_eq_nthZ n (bs : list Z) off :
  len bs = n → is_bytes bs → map (λ i, u8 (nthZ bs (i - off))) (seqZ off n) = bs.
Proof.
  unfold len. intros Hl Hb. apply list_eq. intros i. rewrite list_lookup_fmap.
  destruct (decide (i < length bs)%nat) as [Hi|Hi].
  - rewrite lookup_seqZ_lt by lia. cbn [fmap option_fmap option_map]. unfold nthZ.
    replace (Z.to_nat (off + Z.of_nat i - off)) with i by lia.
    destruct (lookup_lt_is_Some_2 bs i Hi) as [b E]. rewrite E. cbn [default]. f_equal.
    apply wrap_small. by eapply Forall_lookup_1 in E.
  - by rewrite lookup_seqZ_ge, lookup_ge_None_2 by lia.
Qed.

#[export] Instance ram_laws : BlockDeviceLaws ram_disk.
Proof.
  split; cbn [bd_read bd_write bd_total_blocks ram_device]; unfold ram_read, ram_write.
  - intros d s n bs E Hn. destruct (_ && _); [|done]. injection E as <-. split.
    + unfold len. rewrite length_map, length_seqZ. lia.
    + apply Forall_map, Forall_true. intros i. by apply wrap_range.
  - intros d d' s n bs E Hl Hb. destruct (_ && _) eqn:Hr; [|done]. injection E as <-. cbn [sectors byte].
    rewrite Hr. f_equal. etrans; [|by apply (list_eq_nthZ (n * 512) bs (s * 512))].
    apply map_ext_in. intros i Hi%list_elem_of_In%elem_of_seqZ.
    rewrite (proj2 (Z.leb_le _ _)), (proj2 (Z.ltb_lt _ _)) by lia. done.
  - intros d d' s n bs s' n' E Hd. destruct (_ && _) eqn:Hr; [|done]. injection E as <-. cbn [sectors byte].
    destruct ((0 <=? s') && (s' + n' <=? sectors d)); [|done]. f_equal. apply map_ext_in. intros i Hi%list_elem_of_In%elem_of_seqZ.
    destruct (Z.leb_spec (s * 512) i), (Z.ltb_spec i ((s + n) * 512)); cbn [andb]; try done. lia.
  - intros d d' s n bs E. destruct (_ && _); [|done]. by injection E as <-.
Qed.

#[export] Instance ram_reliable : ReliableDevice ram_disk.
Proof.
  split; cbn [bd_read bd_write bd_total_blocks ram_device]; unfold ram_read, ram_write; intros.
  - rewrite !(proj2 (Z.leb_le _ _)) by lia. eauto.
  - rewrite !(proj2 (Z.leb_le _ _)) by lia. eauto.
Qed.

(** A device of zeros. *)
Definition ram_zero (n : Z) : ram_disk := mkRam n (λ _, 0).

End RamDisk.
