(* ===== verification/DiskLayout.v ===== *)
(** * The on-disk structures of CottonFS: [fs/cottonfs.rs], first part

    Constants, the three [repr(C)] structures with the byte images [ptr::read] and
    [from_raw_parts] give them on x86_64 (padding included), and the bitmaps.
    A [DiskInode] is 168 bytes long although its table slots have 128, and a
    [DiskDirEntry] 72 although its comment says 64. *)

From S2P Require Import Prelude Bytes Vfs.

(** ** Constants *)

Definition BLOCK_SIZE : Z := 4096.
Definition SECTORS_PER_BLOCK : Z := 8.
Definition FS_MAGIC : Z := 0x43544653.
Definition FS_VERSION : Z := 2.
Definition SUPERBLOCK_BLOCK : Z := 0.
Definition INODE_BITMAP_START : Z := 1.
Definition INODE_BITMAP_BLOCKS : Z := 31.
Definition DATA_BITMAP_START : Z := 32.
Definition DATA_BITMAP_BLOCKS : Z := 32.
Definition INODE_TABLE_START : Z := 64.
Definition INODE_TABLE_BLOCKS : Z := 64.
Definition DATA_BLOCKS_START : Z := 128.
Definition DISK_INODE_SIZE : Z := 128.
Definition MAX_INODES : Z := INODE_TABLE_BLOCKS * BLOCK_SIZE / DISK_INODE_SIZE.
Definition MAX_FILENAME : Z := 60.
Definition DIRECT_BLOCKS : Z := 12.
Definition ROOT_INODE : Z := 1.

(** ** Structures *)

Record Superblock : Type := mkSB {
  magic : Z;
  version : Z;
  block_size : Z;
  total_blocks : Z;
  total_inodes : Z;
  free_blocks : Z;
  free_inodes : Z;
  root_inode : Z;
  mount_count : Z;
  last_mount_time : Z;
  sb_reserved : list Z;
}.

Definition Superblock_new (total : Z) : Superblock :=
  mkSB FS_MAGIC FS_VERSION BLOCK_SIZE total MAX_INODES (sat_sub total DATA_BLOCKS_START)
    (MAX_INODES - 1) ROOT_INODE 1 0 (zeros 64).

(** [block_size] and [mount_count] are followed by four bytes of padding, which
    the source leaves unspecified; here they are written as zero. *)
Definition Superblock_bytes (sb : Superblock) : list Z :=
  le 4 (magic sb) ++ le 4 (version sb) ++ le 4 (block_size sb) ++ le 4 0 ++
  le 8 (total_blocks sb) ++ le 8 (total_inodes sb) ++ le 8 (free_blocks sb) ++
  le 8 (free_inodes sb) ++ le 8 (root_inode sb) ++ le 4 (mount_count sb) ++ le 4 0 ++
  le 8 (last_mount_time sb) ++ sb_reserved sb.

Definition Superblock_parse (l : list Z) : Superblock :=
  let '(magic, l) := le_take 4 l in
  let '(version, l) := le_take 4 l in
  let '(block_size, l) := le_take 4 l in
  let '(_, l) := le_take 4 l in
  let '(total_blocks, l) := le_take 8 l in
  let '(total_inodes, l) := le_take 8 l in
  let '(free_blocks, l) := le_take 8 l in
  let '(free_inodes, l) := le_take 8 l in
  let '(root_inode, l) := le_take 8 l in
  let '(mount_count, l) := le_take 4 l in
  let '(_, l) := le_take 4 l in
  let '(last_mount_time, l) := le_take 8 l in
  mkSB magic version block_size total_blocks total_inodes free_blocks free_inodes root_inode
    mount_count last_mount_time (take 64 l).

Record DiskInode : Type := mkDI {
  di_mode : Z;
  di_file_type : Z;
  di_pad1 : Z;
  di_uid : Z;
  di_gid : Z;
  di_size : Z;
  di_blocks : Z;
  di_atime : Z;
  di_mtime : Z;
  di_ctime : Z;
  di_nlink : Z;
  di_pad2 : Z;
  direct : list Z;
  indirect : Z;
}.

Definition new_file : DiskInode :=
  mkDI DEFAULT_FILE 1 0 0 0 0 0 0 0 0 1 0 (zeros DIRECT_BLOCKS) 0.
Definition new_dir : DiskInode :=
  mkDI DEFAULT_DIR 2 0 0 0 0 0 0 0 0 2 0 (zeros DIRECT_BLOCKS) 0.

Definition di_is_free (d : DiskInode) : bool := di_file_type d =? 0.

Definition file_type_of (t : Z) : FileType :=
  if t =? 1 then Regular else if t =? 2 then Directory else if t =? 3 then Symlink else Regular.

Definition get_file_type (d : DiskInode) : FileType := file_type_of (di_file_type d).

(** [gid] is followed by four bytes of padding. *)
Definition DiskInode_bytes (d : DiskInode) : list Z :=
  le 2 (di_mode d) ++ le 1 (di_file_type d) ++ le 1 (di_pad1 d) ++ le 4 (di_uid d) ++
  le 4 (di_gid d) ++ le 4 0 ++ le 8 (di_size d) ++ le 8 (di_blocks d) ++ le 8 (di_atime d) ++
  le 8 (di_mtime d) ++ le 8 (di_ctime d) ++ le 4 (di_nlink d) ++ le 4 (di_pad2 d) ++
  le_list 8 (direct d) ++ le 8 (indirect d).

Definition DiskInode_parse (l : list Z) : DiskInode :=
  let '(mode, l) := le_take 2 l in
  let '(file_type, l) := le_take 1 l in
  let '(pad1, l) := le_take 1 l in
  let '(uid, l) := le_take 4 l in
  let '(gid, l) := le_take 4 l in
  let '(_, l) := le_take 4 l in
  let '(size, l) := le_take 8 l in
  let '(blocks, l) := le_take 8 l in
  let '(atime, l) := le_take 8 l in
  let '(mtime, l) := le_take 8 l in
  let '(ctime, l) := le_take 8 l in
  let '(nlink, l) := le_take 4 l in
  let '(pad2, l) := le_take 4 l in
  let '(direct, l) := le_take_list 8 12 l in
  let '(indirect, l) := le_take 8 l in
  mkDI mode file_type pad1 uid gid size blocks atime mtime ctime nlink pad2 direct indirect.

Record DiskDirEntry : Type := mkDDE {
  dde_inode : Z;
  dde_name_len : Z;
  dde_file_type : Z;
  dde_pad : list Z;
  dde_name : list Z;
}.

Definition file_type_code (t : FileType) : Z :=
  match t with Regular => 1 | Directory => 2 | Symlink => 3 | _ => 0 end.

Definition DiskDirEntry_new (inode : Z) (name : list Z) (ft : FileType) : DiskDirEntry :=
  let n := Z.min (len name) MAX_FILENAME in
  mkDDE inode n (file_type_code ft) (zeros 2) (splice 0 (take (Z.to_nat n) name) (zeros MAX_FILENAME)).

(** [&self.name[..len]] panics for a stored length beyond the array. *)
Definition get_name (e : DiskDirEntry) : res (list Z) :=
  if MAX_FILENAME <? dde_name_len e then Panic
  else Ok (from_utf8_lossy (take (Z.to_nat (dde_name_len e)) (dde_name e))).

Definition dde_is_empty (e : DiskDirEntry) : bool := dde_inode e =? 0.

Definition DIR_ENTRY_SIZE : Z := 72.

Definition DiskDirEntry_bytes (e : DiskDirEntry) : list Z :=
  le 8 (dde_inode e) ++ le 1 (dde_name_len e) ++ le 1 (dde_file_type e) ++ dde_pad e ++ dde_name e.

Definition DiskDirEntry_parse (l : list Z) : DiskDirEntry :=
  let '(inode, l) := le_take 8 l in
  let '(name_len, l) := le_take 1 l in
  let '(file_type, l) := le_take 1 l in
  mkDDE inode name_len file_type (take 2 l) (take 60 (drop 2 l)).

(** The entries of a directory's data, in order; the free slots are dropped. *)
Definition parse_entries (data : list Z) : list DiskDirEntry :=
  filter (λ e, dde_is_empty e = false)
    (map (λ i, DiskDirEntry_parse (slice (i * DIR_ENTRY_SIZE) DIR_ENTRY_SIZE data))
       (seqZ 0 (len data / DIR_ENTRY_SIZE))).

Definition entries_bytes (es : list DiskDirEntry) : list Z := concat (map DiskDirEntry_bytes es).

(** ** Bitmaps *)

Definition byte_at (bm : list Z) (i : Z) : Z := default 0 (bm !! Z.to_nat i).

Definition get_bit (bm : list Z) (index : Z) : bool :=
  if len bm <=? index / 8 then false
  else Z.land (Z.shiftr (byte_at bm (index / 8)) (index mod 8)) 1 =? 1.

Definition set_bit (index : Z) (bm : list Z) : list Z :=
  if index / 8 <? len bm
  then <[Z.to_nat (index / 8) := bit_set (byte_at bm (index / 8)) (index mod 8)]> bm else bm.

Definition clear_bit (index : Z) (bm : list Z) : list Z :=
  if index / 8 <? len bm
  then <[Z.to_nat (index / 8) := bit_clear (byte_at bm (index / 8)) (index mod 8)]> bm else bm.

(** ** Specification vocabulary *)

Definition u64_ok (z : Z) : Prop := 0 ≤ z < 2 ^ 64.
Definition u32_ok (z : Z) : Prop := 0 ≤ z < 2 ^ 32.

Definition Superblock_ok (sb : Superblock) : Prop :=
  u32_ok (magic sb) ∧ u32_ok (version sb) ∧ u32_ok (block_size sb) ∧ u64_ok (total_blocks sb) ∧
  u64_ok (total_inodes sb) ∧ u64_ok (free_blocks sb) ∧ u64_ok (free_inodes sb) ∧
  u64_ok (root_inode sb) ∧ u32_ok (mount_count sb) ∧ u64_ok (last_mount_time sb) ∧
  length (sb_reserved sb) = 64%nat ∧ is_bytes (sb_reserved sb).

Definition DiskInode_ok (d : DiskInode) : Prop :=
  0 ≤ di_mode d < 2 ^ 16 ∧ 0 ≤ di_file_type d < 2 ^ 8 ∧ 0 ≤ di_pad1 d < 2 ^ 8 ∧
  u32_ok (di_uid d) ∧ u32_ok (di_gid d) ∧ u64_ok (di_size d) ∧ u64_ok (di_blocks d) ∧
  u64_ok (di_atime d) ∧ u64_ok (di_mtime d) ∧ u64_ok (di_ctime d) ∧ u32_ok (di_nlink d) ∧
  u32_ok (di_pad2 d) ∧ length (direct d) = 12%nat ∧ Forall u64_ok (direct d) ∧ u64_ok (indirect d).

Definition DiskDirEntry_ok (e : DiskDirEntry) : Prop :=
  u64_ok (dde_inode e) ∧ 0 ≤ dde_name_len e ≤ MAX_FILENAME ∧ 0 ≤ dde_file_type e < 2 ^ 8 ∧
  length (dde_pad e) = 2%nat ∧ is_bytes (dde_pad e) ∧
  length (dde_name e) = 60%nat ∧ is_bytes (dde_name e).

(** What a table slot holds of an inode: the pointers beyond the eighth are those
    of the bytes that follow the slot. *)
Definition slot_image (d : DiskInode) (after : list Z) : DiskInode :=
  let '(hi, l) := le_take_list 8 4 after in
  let '(ind, _) := le_take 8 l in
  mkDI (di_mode d) (di_file_type d) (di_pad1 d) (di_uid d) (di_gid d) (di_size d) (di_blocks d)
    (di_atime d) (di_mtime d) (di_ctime d) (di_nlink d) (di_pad2 d) (take 8 (direct d) ++ hi) ind.

(** ** Sizes *)

Ltac solve_length :=
  repeat (rewrite length_app || rewrite length_le || rewrite length_le_list); cbn [length]; lia.

Lemma length_Superblock_bytes sb : length (sb_reserved sb) = 64%nat → length (Superblock_bytes sb) = 136%nat.
Proof. intros H. unfold Superblock_bytes. solve_length. Qed.

Lemma length_DiskInode_bytes d : length (direct d) = 12%nat → length (DiskInode_bytes d) = 168%nat.
Proof. intros H. unfold DiskInode_bytes. solve_length. Qed.

Lemma length_DiskDirEntry_bytes e :
  length (dde_pad e) = 2%nat → length (dde_name e) = 60%nat → length (DiskDirEntry_bytes e) = 72%nat.
Proof. intros H1 H2. unfold DiskDirEntry_bytes. solve_length. Qed.

Lemma is_bytes_DiskInode_bytes d : is_bytes (DiskInode_bytes d).
Proof. unfold DiskInode_bytes. rewrite !is_bytes_app. auto 20 with cotton. Qed.

Lemma is_bytes_DiskDirEntry_bytes e : is_bytes (dde_pad e) → is_bytes (dde_name e) → is_bytes (DiskDirEntry_bytes e).
Proof. intros. unfold DiskDirEntry_bytes. rewrite !is_bytes_app. auto 20 with cotton. Qed.

Lemma is_bytes_Superblock_bytes sb : is_bytes (sb_reserved sb) → is_bytes (Superblock_bytes sb).
Proof. intros. unfold Superblock_bytes. rewrite !is_bytes_app. auto 20 with cotton. Qed.

#[export] Hint Resolve is_bytes_DiskInode_bytes is_bytes_DiskDirEntry_bytes is_bytes_Superblock_bytes : cotton.

(** ** Round trips *)

(** Parse one field after another. *)
Ltac parse_fields := repeat (rewrite le_take_le by (unfold u64_ok, u32_ok in *; simpl; lia); cbn beta iota).

Lemma Superblock_roundtrip sb rest :
  Superblock_ok sb → Superblock_parse (Superblock_bytes sb ++ rest) = sb.
Proof.
  intros (?&?&?&?&?&?&?&?&?&?&Hr&_). unfold Superblock_parse, Superblock_bytes.
  rewrite <- !app_assoc. parse_fields. rewrite take_app_length' by done. by destruct sb.
Qed.

Lemma DiskDirEntry_roundtrip e rest :
  DiskDirEntry_ok e → DiskDirEntry_parse (DiskDirEntry_bytes e ++ rest) = e.
Proof.
  intros (?&?&?&Hp&_&Hn&_). unfold DiskDirEntry_parse, DiskDirEntry_bytes, MAX_FILENAME in *.
  rewrite <- !app_assoc. parse_fields.
  rewrite (take_app_length' (dde_pad e)), (drop_app_length' (dde_pad e)), take_app_length' by done. by destruct e.
Qed.

Lemma le_take_list_plus n a b l :
  le_take_list n (a + b) l =
    let '(xs, l1) := le_take_list n a l in let '(ys, l2) := le_take_list n b l1 in (xs ++ ys, l2).
Proof.
  revert l. induction a as [|a IH]; intros l; cbn [le_take_list Nat.add app].
  - by destruct (le_take_list n b l).
  - unfold le_take at 1 2. rewrite IH. destruct (le_take_list n a (drop n l)) as [xs l1].
    by destruct (le_take_list n b l1).
Qed.

Lemma le_take_list_exact n k xs l :
  length xs = k → Forall (λ z, 0 ≤ z < 2 ^ (8 * Z.of_nat n)) xs →
  le_take_list n k (le_list n xs ++ l) = (xs, l).
Proof. intros <-. apply le_take_list_le. Qed.

(** The part of an inode's image that fits its slot. *)
Lemma take_DiskInode_bytes d :
  length (direct d) = 12%nat →
  take 128 (DiskInode_bytes d) =
    le 2 (di_mode d) ++ le 1 (di_file_type d) ++ le 1 (di_pad1 d) ++ le 4 (di_uid d) ++
    le 4 (di_gid d) ++ le 4 0 ++ le 8 (di_size d) ++ le 8 (di_blocks d) ++ le 8 (di_atime d) ++
    le 8 (di_mtime d) ++ le 8 (di_ctime d) ++ le 4 (di_nlink d) ++ le 4 (di_pad2 d) ++
    le_list 8 (take 8 (direct d)).
Proof.
  intros Hd. unfold DiskInode_bytes.
  assert (le_list 8 (direct d) = le_list 8 (take 8 (direct d)) ++ le_list 8 (drop 8 (direct d))) as ->.
  { unfold le_list. rewrite <- concat_app, <- map_app. by rewrite take_drop. }
  rewrite !app_assoc. rewrite <- (app_assoc _ _ (le 8 (indirect d))).
  apply take_app_length'. rewrite ?length_app, ?length_le, length_le_list, length_take. lia.
Qed.

(** What [read_disk_inode] sees of what [write_disk_inode] stored. *)
Lemma DiskInode_slot_roundtrip d after :
  DiskInode_ok d → DiskInode_parse (take 128 (DiskInode_bytes d) ++ after) = slot_image d after.
Proof.
  intros (?&?&?&?&?&?&?&?&?&?&?&?&Hl&Hd&?). rewrite take_DiskInode_bytes by done.
  unfold DiskInode_parse, slot_image. rewrite <- !app_assoc. parse_fields.
  change 12%nat with (8 + 4)%nat. rewrite le_take_list_plus, le_take_list_exact;
    [|by rewrite length_take, Hl|].
  - destruct (le_take_list 8 4 after) as [hi l]. by destruct (le_take 8 l).
  - apply Forall_take. eapply Forall_impl; [exact Hd|]. intros x Hx. unfold u64_ok in Hx. simpl. lia.
Qed.

Lemma slot_image_low d after : length (direct d) = 12%nat → take 8 (direct (slot_image d after)) = take 8 (direct d).
Proof.
  intros Hd. unfold slot_image. destruct (le_take_list 8 4 after) as [hi l]. destruct (le_take 8 l). cbn [direct].
  apply take_app_length'. rewrite length_take. lia.
Qed.

(** ** Directory data *)

Lemma entries_bytes_length es :
  Forall DiskDirEntry_ok es → len (entries_bytes es) = DIR_ENTRY_SIZE * len es.
Proof.
  unfold entries_bytes, len. induction 1 as [|e es (_&_&_&Hp&_&Hn&_) Hes IH]; cbn [map concat length]; [done|].
  rewrite length_app, length_DiskDirEntry_bytes by done. unfold DIR_ENTRY_SIZE in *. lia.
Qed.

Lemma is_bytes_entries es : Forall DiskDirEntry_ok es → is_bytes (entries_bytes es).
Proof.
  unfold entries_bytes. induction 1 as [|e es (_&_&_&_&?&_&?) Hes IH]; cbn [map concat]; [constructor|].
  apply is_bytes_app. auto with cotton.
Qed.

Lemma slice_cons_block {A} n i (b l : list A) :
  len b = n → 0 ≤ n → 0 ≤ i → slice ((i + 1) * n) n (b ++ l) = slice (i * n) n l.
Proof.
  unfold len, slice. intros Hb Hn Hi. rewrite drop_app_ge by lia. do 2 f_equal. lia.
Qed.

Lemma map_seqZ_S {A} (f : Z → A) n : 0 ≤ n → map f (seqZ 0 (n + 1)) = f 0 :: map (λ i, f (i + 1)) (seqZ 0 n).
Proof.
  intros Hn. rewrite seqZ_cons by lia. cbn [map]. f_equal. replace (Z.pred (n + 1)) with n by lia.
  change (Z.succ 0) with (0 + 1). rewrite <- (Z.add_comm 1 0), <- fmap_add_seqZ. rewrite map_map.
  apply map_ext. intros. f_equal. lia.
Qed.

Lemma parse_entries_cons e data :
  DiskDirEntry_ok e → dde_inode e ≠ 0 →
  parse_entries (DiskDirEntry_bytes e ++ data) = e :: parse_entries data.
Proof.
  intros He Hne. pose proof He as (_&_&_&Hp&_&Hn&_).
  assert (len (DiskDirEntry_bytes e) = DIR_ENTRY_SIZE) as Hlen
    by (unfold len; rewrite length_DiskDirEntry_bytes; done).
  unfold parse_entries. rewrite len_app, Hlen. unfold DIR_ENTRY_SIZE in *.
  replace ((72 + len data) / 72) with (len data / 72 + 1) by zdiv.
  rewrite map_seqZ_S by (apply Z.div_pos; [apply len_nonneg|done]).
  rewrite filter_cons. change (0 * 72) with 0.
  replace (slice 0 72 (DiskDirEntry_bytes e ++ data)) with (DiskDirEntry_bytes e ++ []).
  2:{ rewrite app_nil_r. unfold slice. rewrite drop_0. symmetry. apply take_app_length'. unfold len in Hlen. lia. }
  rewrite DiskDirEntry_roundtrip by done. rewrite decide_True by (by apply Z.eqb_neq).
  f_equal. f_equal. apply map_ext_in. intros i Hi%list_elem_of_In%elem_of_seqZ.
  by rewrite slice_cons_block by (done || lia).
Qed.

Lemma parse_entries_zeros n : parse_entries (replicate n 0) = [].
Proof.
  unfold parse_entries. apply elem_of_nil_inv. intros e [E He]%list_elem_of_filter.
  apply list_elem_of_fmap in He as (i & -> & _). apply Z.eqb_neq in E. apply E.
  unfold slice. rewrite drop_replicate, take_replicate. generalize (Z.to_nat DIR_ENTRY_SIZE `min` (n - Z.to_nat (i * DIR_ENTRY_SIZE)))%nat.
  intros m. unfold DiskDirEntry_parse, le_take. cbn [dde_inode]. rewrite take_replicate.
  generalize (8 `min` m)%nat. intros k. induction k as [|k IH]; cbn [replicate le_decode]; lia.
Qed.

(** A directory's entries read back from its data, whatever zeros follow. *)
Lemma parse_entries_roundtrip es n :
  Forall DiskDirEntry_ok es → Forall (λ e, dde_inode e ≠ 0) es →
  parse_entries (entries_bytes es ++ replicate n 0) = es.
Proof.
  intros Hok. induction Hok as [|e es He Hes IH]; intros Hne; cbn [entries_bytes map concat].
  - apply parse_entries_zeros.
  - inversion_clear Hne. unfold entries_bytes in *. cbn [map concat]. rewrite <- app_assoc.
    rewrite parse_entries_cons by done. f_equal. by apply IH.
Qed.

(** ** Bitmaps *)

Lemma get_bit_testbit bm i :
  0 ≤ i → get_bit bm i = (i / 8 <? len bm) && Z.testbit (byte_at bm (i / 8)) (i mod 8).
Proof.
  intros Hi. unfold get_bit. rewrite Z.leb_antisym. destruct (i / 8 <? len bm); cbn [negb andb]; [|done].
  pose proof (Z.mod_pos_bound i 8 ltac:(lia)).
  rewrite (Z.land_ones _ 1 ltac:(lia) : Z.land _ 1 = _). change (2 ^ 1) with 2.
  rewrite Z.shiftr_div_pow2, <- Z.testbit_spec' by lia. by destruct (Z.testbit _ _).
Qed.

Lemma byte_at_insert bm i j v :
  0 ≤ i → 0 ≤ j → i < len bm →
  byte_at (<[Z.to_nat i := v]> bm) j = if decide (i = j) then v else byte_at bm j.
Proof.
  unfold byte_at, len. intros. destruct (decide (i = j)) as [->|].
  - by rewrite list_lookup_insert_eq by lia.
  - by rewrite list_lookup_insert_ne by lia.
Qed.

Lemma len_set_bit i bm : len (set_bit i bm) = len bm.
Proof. unfold set_bit, len. case_match; [by rewrite length_insert|done]. Qed.

Lemma len_clear_bit i bm : len (clear_bit i bm) = len bm.
Proof. unfold clear_bit, len. case_match; [by rewrite length_insert|done]. Qed.

Lemma get_set_bit bm i j :
  0 ≤ i → 0 ≤ j →
  get_bit (set_bit i bm) j = (bool_decide (j = i) && (i / 8 <? len bm)) || get_bit bm j.
Proof.
  intros Hi Hj. rewrite !get_bit_testbit, len_set_bit by done. unfold set_bit.
  pose proof (Z.mod_pos_bound i 8 ltac:(lia)). pose proof (Z.mod_pos_bound j 8 ltac:(lia)).
  assert (0 ≤ i / 8) by (by apply Z.div_pos). assert (0 ≤ j / 8) by (by apply Z.div_pos).
  destruct (Z.ltb_spec (i / 8) (len bm)); [|by rewrite andb_false_r].
  rewrite byte_at_insert by done. rewrite andb_true_r. destruct (decide (i / 8 = j / 8)) as [E|E].
  - rewrite bit_set_testbit, <- E, (proj2 (Z.ltb_lt _ _)) by (done || lia). cbn [andb]. f_equal.
    apply bool_decide_ext. split; [intros; zdiv|by intros ->].
  - rewrite bool_decide_eq_false_2; [done|congruence].
Qed.

Lemma get_clear_bit bm i j :
  0 ≤ i → 0 ≤ j → get_bit (clear_bit i bm) j = negb (bool_decide (j = i)) && get_bit bm j.
Proof.
  intros Hi Hj. rewrite !get_bit_testbit, len_clear_bit by done. unfold clear_bit.
  pose proof (Z.mod_pos_bound i 8 ltac:(lia)). pose proof (Z.mod_pos_bound j 8 ltac:(lia)).
  assert (0 ≤ i / 8) by (by apply Z.div_pos). assert (0 ≤ j / 8) by (by apply Z.div_pos).
  destruct (Z.ltb_spec (i / 8) (len bm)).
  - rewrite byte_at_insert by done. destruct (decide (i / 8 = j / 8)) as [E|E].
    + rewrite bit_clear_testbit, <- E, (proj2 (Z.ltb_lt _ _)) by (done || lia). cbn [andb]. f_equal. f_equal.
      apply bool_decide_ext. split; [intros; zdiv|by intros ->].
    + rewrite bool_decide_eq_false_2; [done|congruence].
  - destruct (decide (j = i)) as [->|]; [|by rewrite bool_decide_eq_false_2].
    rewrite (proj2 (Z.ltb_ge _ _)) by done. by rewrite andb_false_r.
Qed.

Lemma is_byte_bits x : (∀ n, 8 ≤ n → Z.testbit x n = false) → is_byte x.
Proof.
  intros Hx. assert (x = x mod 2 ^ 8) as ->; [|apply Z.mod_pos_bound; lia].
  apply Z.bits_inj'. intros n Hn. destruct (Z.lt_ge_cases n 8).
  - by rewrite Z.mod_pow2_bits_low.
  - rewrite Z.mod_pow2_bits_high by lia. by apply Hx.
Qed.

Lemma byte_bits x n : is_byte x → 8 ≤ n → Z.testbit x n = false.
Proof.
  unfold is_byte. intros Hx Hn. destruct (Z.eq_dec x 0) as [->|]; [apply Z.bits_0|].
  apply Z.bits_above_log2; [lia|]. apply Z.lt_le_trans with 8; [|done]. apply Z.log2_lt_pow2; lia.
Qed.

Lemma bit_set_byte b i : is_byte b → 0 ≤ i < 8 → is_byte (bit_set b i).
Proof.
  intros Hb Hi. apply is_byte_bits. intros n Hn.
  rewrite bit_set_testbit, bool_decide_eq_false_2, byte_bits by (done || lia). done.
Qed.

Lemma bit_clear_byte b i : is_byte b → is_byte (bit_clear b i).
Proof.
  intros Hb. apply is_byte_bits. intros n Hn. unfold bit_clear. by rewrite Z.land_spec, byte_bits.
Qed.

Lemma byte_at_byte bm i : is_bytes bm → is_byte (byte_at bm i).
Proof.
  intros Hbm. unfold byte_at. destruct (bm !! Z.to_nat i) eqn:E; [|by vm_compute].
  by eapply Forall_lookup_1 in Hbm.
Qed.

Lemma is_bytes_set_bit i bm : 0 ≤ i → is_bytes bm → is_bytes (set_bit i bm).
Proof.
  intros Hi Hbm. unfold set_bit. case_match; [|done]. apply Forall_insert; [done|].
  apply bit_set_byte; [by apply byte_at_byte|apply Z.mod_pos_bound; lia].
Qed.

Lemma is_bytes_clear_bit i bm : 0 ≤ i → is_bytes bm → is_bytes (clear_bit i bm).
Proof.
  intros Hi Hbm. unfold clear_bit. case_match; [|done]. apply Forall_insert; [done|].
  by apply bit_clear_byte, byte_at_byte.
Qed.
