(* ===== verification/CottonFS.v ===== *)
(** * CottonFS: [fs/cottonfs.rs], the file system

    The state is the device, the cached superblock and bitmaps, and the in-memory
    inodes.  An [Arc<CottonInode>] is an object number into [objects]; the cache
    maps inode numbers to the objects it holds, and an object a caller still
    holds outlives its removal from the cache.  Every operation is a computation
    in [M (FS D)]: an error returned through [?] keeps the state reached. *)

From stdpp Require Import sorting.
From S2P Require Import Prelude Bytes Vfs Storage DiskLayout.

Record CottonInode : Type := mkCI {
  ci_ino : Z;
  ci_file_type : FileType;
  ci_disk : DiskInode;
  dir_entries : option (list DiskDirEntry);
  file_data : option (list Z);
  dirty : Z;
}.

Definition set_ci_disk (d : DiskInode) (c : CottonInode) : CottonInode :=
  mkCI (ci_ino c) (ci_file_type c) d (dir_entries c) (file_data c) (dirty c).
Definition set_dir_entries (e : option (list DiskDirEntry)) (c : CottonInode) : CottonInode :=
  mkCI (ci_ino c) (ci_file_type c) (ci_disk c) e (file_data c) (dirty c).
Definition set_file_data (e : option (list Z)) (c : CottonInode) : CottonInode :=
  mkCI (ci_ino c) (ci_file_type c) (ci_disk c) (dir_entries c) e (dirty c).
Definition set_dirty (n : Z) (c : CottonInode) : CottonInode :=
  mkCI (ci_ino c) (ci_file_type c) (ci_disk c) (dir_entries c) (file_data c) n.

(** Field updates of the on-disk inode. *)
Definition set_direct (l : list Z) (d : DiskInode) : DiskInode :=
  mkDI (di_mode d) (di_file_type d) (di_pad1 d) (di_uid d) (di_gid d) (di_size d) (di_blocks d)
    (di_atime d) (di_mtime d) (di_ctime d) (di_nlink d) (di_pad2 d) l (indirect d).
Definition set_size_blocks (size blocks : Z) (d : DiskInode) : DiskInode :=
  mkDI (di_mode d) (di_file_type d) (di_pad1 d) (di_uid d) (di_gid d) size blocks
    (di_atime d) (di_mtime d) (di_ctime d) (di_nlink d) (di_pad2 d) (direct d) (indirect d).

Definition direct_at (d : DiskInode) (i : Z) : Z := default 0 (direct d !! Z.to_nat i).

Record FS (D : Type) : Type := mkFS {
  device : D;
  superblock : Superblock;
  inode_bitmap : list Z;
  data_bitmap : list Z;
  inode_cache : gmap Z Z;
  objects : gmap Z CottonInode;
  next_object : Z;
  root : Z;
}.
Arguments mkFS {D} _ _ _ _ _ _ _ _.
Arguments device {D} _.
Arguments superblock {D} _.
Arguments inode_bitmap {D} _.
Arguments data_bitmap {D} _.
Arguments inode_cache {D} _.
Arguments objects {D} _.
Arguments next_object {D} _.
Arguments root {D} _.

Definition upd_free_inodes (n : Z) (sb : Superblock) : Superblock :=
  mkSB (magic sb) (version sb) (block_size sb) (total_blocks sb) (total_inodes sb) (free_blocks sb)
    n (root_inode sb) (mount_count sb) (last_mount_time sb) (sb_reserved sb).
Definition upd_free_blocks (n : Z) (sb : Superblock) : Superblock :=
  mkSB (magic sb) (version sb) (block_size sb) (total_blocks sb) (total_inodes sb) n
    (free_inodes sb) (root_inode sb) (mount_count sb) (last_mount_time sb) (sb_reserved sb).

Record StorageInfo : Type := mkSI {
  si_total_bytes : Z; si_used_bytes : Z; si_free_bytes : Z;
  si_total_inodes : Z; si_used_inodes : Z; si_free_inodes : Z;
}.

Definition usage_percent (i : StorageInfo) : Z :=
  if si_total_bytes i =? 0 then 0 else u64 (si_used_bytes i * 100) / si_total_bytes i.

(** The order of a [BTreeMap]'s entries. *)
Definition ino_le (a b : Z * Z) : Prop := a.1 ≤ b.1.

#[export] Instance ino_le_dec a b : Decision (ino_le a b).
Proof. unfold ino_le. apply _. Defined.

Section CottonFS.
Context {D : Type} `{BlockDevice D}.

(** The bytes that follow a one-block buffer on the heap: [read_disk_inode] reads
    past the buffer for the last slot of a block. *)
Variable beyond : list Z.

Definition set_device (d : D) (s : FS D) : FS D :=
  mkFS d (superblock s) (inode_bitmap s) (data_bitmap s) (inode_cache s) (objects s) (next_object s) (root s).
Definition set_superblock (sb : Superblock) (s : FS D) : FS D :=
  mkFS (device s) sb (inode_bitmap s) (data_bitmap s) (inode_cache s) (objects s) (next_object s) (root s).
Definition set_inode_bitmap (b : list Z) (s : FS D) : FS D :=
  mkFS (device s) (superblock s) b (data_bitmap s) (inode_cache s) (objects s) (next_object s) (root s).
Definition set_data_bitmap (b : list Z) (s : FS D) : FS D :=
  mkFS (device s) (superblock s) (inode_bitmap s) b (inode_cache s) (objects s) (next_object s) (root s).
Definition set_cache (c : gmap Z Z) (s : FS D) : FS D :=
  mkFS (device s) (superblock s) (inode_bitmap s) (data_bitmap s) c (objects s) (next_object s) (root s).
Definition set_objects (m : gmap Z CottonInode) (s : FS D) : FS D :=
  mkFS (device s) (superblock s) (inode_bitmap s) (data_bitmap s) (inode_cache s) m (next_object s) (root s).
Definition set_next_object (n : Z) (s : FS D) : FS D :=
  mkFS (device s) (superblock s) (inode_bitmap s) (data_bitmap s) (inode_cache s) (objects s) n (root s).
Definition set_root (o : Z) (s : FS D) : FS D :=
  mkFS (device s) (superblock s) (inode_bitmap s) (data_bitmap s) (inode_cache s) (objects s) (next_object s) o.

(** ** Blocks *)

Definition read_block (block : Z) : M (FS D) (list Z) := λ s,
  (bd_read (device s) (u64 (block * SECTORS_PER_BLOCK)) SECTORS_PER_BLOCK, s).

Definition write_block (block : Z) (buf : list Z) : M (FS D) unit := λ s,
  let '(r, d) := bd_write (u64 (block * SECTORS_PER_BLOCK)) SECTORS_PER_BLOCK buf (device s) in
  (r, set_device d s).

(** ** Metadata on disk *)

Definition sync_superblock : M (FS D) unit :=
  s ← m_get;
  write_block SUPERBLOCK_BLOCK (splice 0 (Superblock_bytes (superblock s)) (zeros BLOCK_SIZE)).

Definition sync_bitmap (start n : Z) (bitmap : list Z) : M (FS D) unit :=
  for_m 0 n (λ i, write_block (start + i) (slice (i * BLOCK_SIZE) BLOCK_SIZE bitmap)).

Definition sync_inode_bitmap : M (FS D) unit :=
  s ← m_get; sync_bitmap INODE_BITMAP_START INODE_BITMAP_BLOCKS (inode_bitmap s).

Definition sync_data_bitmap : M (FS D) unit :=
  s ← m_get; sync_bitmap DATA_BITMAP_START DATA_BITMAP_BLOCKS (data_bitmap s).

Definition inodes_per_block : Z := BLOCK_SIZE / DISK_INODE_SIZE.
Definition inode_block (ino : Z) : Z := INODE_TABLE_START + ino / inodes_per_block.
Definition inode_offset (ino : Z) : Z := ino mod inodes_per_block * DISK_INODE_SIZE.

Definition read_disk_inode (ino : Z) : M (FS D) DiskInode :=
  buf ← read_block (inode_block ino);
  mret (DiskInode_parse (drop (Z.to_nat (inode_offset ino)) (buf ++ beyond))).

Definition write_disk_inode (ino : Z) (inode : DiskInode) : M (FS D) unit :=
  buf ← read_block (inode_block ino);
  write_block (inode_block ino)
    (splice (inode_offset ino) (take (Z.to_nat DISK_INODE_SIZE) (DiskInode_bytes inode)) buf).

(** ** Allocation *)

Definition alloc_inode : M (FS D) Z :=
  s ← m_get;
  let sb := superblock s in
  if free_inodes sb =? 0 then m_fail "No free inodes"
  else
    match find_range 1 MAX_INODES (λ i, negb (get_bit (inode_bitmap s) i)) with
    | Some i =>
        m_modify (λ s, set_superblock (upd_free_inodes (free_inodes sb - 1) sb)
                         (set_inode_bitmap (set_bit i (inode_bitmap s)) s));;
        sync_inode_bitmap;;
        sync_superblock;;
        mret i
    | None => m_fail "No free inodes"
    end.

Definition free_inode (ino : Z) : M (FS D) unit :=
  if ino =? ROOT_INODE then m_fail "Cannot free root inode"
  else
    m_modify (λ s,
      let s := set_inode_bitmap (clear_bit ino (inode_bitmap s)) s in
      let s := set_superblock (upd_free_inodes (u64 (free_inodes (superblock s) + 1)) (superblock s)) s in
      set_cache (delete ino (inode_cache s)) s);;
    sync_inode_bitmap;;
    sync_superblock.

Definition alloc_block : M (FS D) Z :=
  s ← m_get;
  let sb := superblock s in
  if free_blocks sb =? 0 then m_fail "No free blocks"
  else
    let max_blocks := sat_sub (total_blocks sb) DATA_BLOCKS_START in
    match find_range 0 max_blocks (λ i, negb (get_bit (data_bitmap s) i)) with
    | Some i =>
        m_modify (λ s, set_superblock (upd_free_blocks (free_blocks sb - 1) sb)
                         (set_data_bitmap (set_bit i (data_bitmap s)) s));;
        sync_data_bitmap;;
        sync_superblock;;
        mret (DATA_BLOCKS_START + i)
    | None => m_fail "No free blocks"
    end.

Definition free_block (block : Z) : M (FS D) unit :=
  if block <? DATA_BLOCKS_START then m_fail "Invalid block number"
  else
    let index := block - DATA_BLOCKS_START in
    s ← m_get;
    if negb (get_bit (data_bitmap s) index) then mret tt
    else
      m_modify (λ s,
        let s := set_data_bitmap (clear_bit index (data_bitmap s)) s in
        set_superblock (upd_free_blocks (u64 (free_blocks (superblock s) + 1)) (superblock s)) s);;
      sync_data_bitmap;;
      sync_superblock.

(** ** In-memory inodes *)

Definition get_obj (o : Z) : M (FS D) CottonInode := λ s,
  match objects s !! o with Some c => (Ok c, s) | None => (Panic, s) end.

Definition upd_obj (o : Z) (f : CottonInode → CottonInode) : M (FS D) unit :=
  m_modify (λ s, set_objects (alter f o (objects s)) s).

(** [Arc::new] *)
Definition new_obj (c : CottonInode) : M (FS D) Z := λ s,
  let o := next_object s in
  (Ok o, set_next_object (o + 1) (set_objects (<[o := c]> (objects s)) s)).

Definition load_inode_internal (ino : Z) : M (FS D) Z :=
  s ← m_get;
  match inode_cache s !! ino with
  | Some o => mret o
  | None =>
      disk_inode ← read_disk_inode ino;
      if di_is_free disk_inode then m_fail "Inode is not allocated"
      else
        o ← new_obj (mkCI ino (get_file_type disk_inode) disk_inode None None 0);
        m_modify (λ s, set_cache (<[ino := o]> (inode_cache s)) s);;
        mret o
  end.

Definition load_inode (ino : Z) : M (FS D) Z := load_inode_internal ino.

(** The loops over the direct blocks of [load_dir_entries] and [load_file_data]. *)
Fixpoint read_dir_blocks (blocks : list Z) : M (FS D) (list Z) :=
  match blocks with
  | [] => mret []
  | b :: blocks =>
      if b =? 0 then mret []
      else
        buf ← read_block b;
        rest ← read_dir_blocks blocks;
        mret (buf ++ rest)
  end.

Definition load_dir_entries (o : Z) : M (FS D) unit :=
  c ← get_obj o;
  m_guard (bool_decide (ci_file_type c = Directory)) "Not a directory";;
  data ← read_dir_blocks (direct (ci_disk c));
  upd_obj o (set_dir_entries (Some (parse_entries data))).

Fixpoint read_file_blocks (blocks : list Z) (remaining : Z) : M (FS D) (list Z) :=
  match blocks with
  | [] => mret []
  | b :: blocks =>
      if (remaining =? 0) || (b =? 0) then mret []
      else
        buf ← read_block b;
        let to_read := Z.min remaining BLOCK_SIZE in
        rest ← read_file_blocks blocks (remaining - to_read);
        mret (take (Z.to_nat to_read) buf ++ rest)
  end.

Definition load_file_data (o : Z) : M (FS D) unit :=
  c ← get_obj o;
  m_guard (bool_decide (ci_file_type c = Regular)) "Not a regular file";;
  data ← read_file_blocks (direct (ci_disk c)) (di_size (ci_disk c));
  upd_obj o (set_file_data (Some data)).

Definition blocks_for (n : Z) : Z := (n + BLOCK_SIZE - 1) / BLOCK_SIZE.

(** One turn of the "allocate and write" loop of both save functions. *)
Definition save_block (o : Z) (data : list Z) (i : Z) : M (FS D) unit :=
  c ← get_obj o;
  (if direct_at (ci_disk c) i =? 0 then
     b ← alloc_block;
     upd_obj o (λ c, set_ci_disk (set_direct (<[Z.to_nat i := b]> (direct (ci_disk c))) (ci_disk c)) c)
   else mret tt);;
  c ← get_obj o;
  let offset := i * BLOCK_SIZE in
  let end_ := Z.min (offset + BLOCK_SIZE) (len data) in
  write_block (direct_at (ci_disk c) i) (splice 0 (slice offset (end_ - offset) data) (zeros BLOCK_SIZE)).

Definition release_block (o : Z) (i : Z) : M (FS D) unit :=
  c ← get_obj o;
  if negb (direct_at (ci_disk c) i =? 0) then
    m_ignore (free_block (direct_at (ci_disk c) i));;
    upd_obj o (λ c, set_ci_disk (set_direct (<[Z.to_nat i := 0]> (direct (ci_disk c))) (ci_disk c)) c)
  else mret tt.

(** The common end of both save functions. *)
Definition store_inode (o : Z) (data : list Z) : M (FS D) unit :=
  upd_obj o (λ c, set_ci_disk (set_size_blocks (len data) (blocks_for (len data)) (ci_disk c)) c);;
  c ← get_obj o;
  write_disk_inode (ci_ino c) (ci_disk c);;
  upd_obj o (set_dirty 0).

Definition save_dir_entries (o : Z) : M (FS D) unit :=
  c ← get_obj o;
  m_guard (bool_decide (ci_file_type c = Directory)) "Not a directory";;
  entries ← m_lift (ok_or (dir_entries c) "Directory not loaded");
  let data := entries_bytes entries in
  for_m 0 (Z.min (blocks_for (len data)) DIRECT_BLOCKS) (save_block o data);;
  store_inode o data.

Definition save_file_data (o : Z) : M (FS D) unit :=
  c ← get_obj o;
  m_guard (bool_decide (ci_file_type c = Regular)) "Not a regular file";;
  data ← m_lift (ok_or (file_data c) "File data not loaded");
  for_m 0 (Z.min (blocks_for (len data)) DIRECT_BLOCKS) (save_block o data);;
  for_m (blocks_for (len data)) DIRECT_BLOCKS (release_block o);;
  store_inode o data.

(** ** The [Inode] operations *)

Definition stat (o : Z) : M (FS D) Stat :=
  c ← get_obj o;
  let d := ci_disk c in
  mret (mkStat 1 (ci_ino c) (from_bits_truncate (di_mode d)) (di_nlink d) (di_uid d) (di_gid d) 0
    (di_size d) BLOCK_SIZE (di_blocks d) (di_atime d) (di_mtime d) (di_ctime d) (ci_file_type c)).

(** The bytes [read] copies into a buffer of [n] bytes. *)
Definition read (o offset n : Z) : M (FS D) (list Z) :=
  c ← get_obj o;
  m_guard (bool_decide (ci_file_type c = Regular)) "Not a regular file";;
  (if decide (file_data c = None) then load_file_data o else mret tt);;
  c ← get_obj o;
  data ← m_lift (ok_or (file_data c) "Failed to load file data");
  if len data <=? offset then mret []
  else
    let to_read := Z.min n (len data - offset) in
    mret (slice offset to_read data).

(** The cached data after [get_or_insert_with(Vec::new)]. *)
Definition cached_data (c : CottonInode) : list Z := default [] (file_data c).

Definition write (o offset : Z) (buf : list Z) : M (FS D) Z :=
  c ← get_obj o;
  m_guard (bool_decide (ci_file_type c = Regular)) "Not a regular file";;
  (if decide (file_data c = None) then m_ignore (load_file_data o) else mret tt);;
  c ← get_obj o;
  let data := cached_data c in
  let end_ := u64 (offset + len buf) in
  let data := if len data <? end_ then vec_resize end_ 0 data else data in
  if (end_ <? offset) || (len data <? end_) then m_panic
  else
    upd_obj o (set_file_data (Some (splice offset buf data)));;
    upd_obj o (set_dirty 1);;
    save_file_data o;;
    mret (len buf).

Definition truncate (o size : Z) : M (FS D) unit :=
  c ← get_obj o;
  m_guard (bool_decide (ci_file_type c = Regular)) "Not a regular file";;
  (if decide (file_data c = None) then m_ignore (load_file_data o) else mret tt);;
  upd_obj o (λ c, set_file_data (Some (vec_resize size 0 (cached_data c))) c);;
  upd_obj o (set_dirty 1);;
  save_file_data o.

Definition to_DirEntry (e : DiskDirEntry) : res DirEntry :=
  name ← get_name e;
  mret (mkDirEntry name (file_type_of (dde_file_type e)) (dde_inode e)).

Definition readdir (o : Z) : M (FS D) (list DirEntry) :=
  c ← get_obj o;
  m_guard (bool_decide (ci_file_type c = Directory)) "Not a directory";;
  (if decide (dir_entries c = None) then load_dir_entries o else mret tt);;
  c ← get_obj o;
  entries ← m_lift (ok_or (dir_entries c) "Failed to load directory");
  rest ← m_lift (mapM to_DirEntry entries);
  mret (mkDirEntry (bytes_of_string ".") Directory (ci_ino c)
        :: mkDirEntry (bytes_of_string "..") Directory (ci_ino c) :: rest).

(** The position of the first entry with the name. *)
Fixpoint position (name : list Z) (es : list DiskDirEntry) : res (option nat) :=
  match es with
  | [] => Ok None
  | e :: es =>
      n ← get_name e;
      if decide (n = name) then Ok (Some 0%nat)
      else r ← position name es; Ok (option_map S r)
  end.

Definition lookup (o : Z) (name : list Z) : M (FS D) (option Z) :=
  c ← get_obj o;
  m_guard (bool_decide (ci_file_type c = Directory)) "Not a directory";;
  if decide (name = bytes_of_string ".") then mret None
  else if decide (name = bytes_of_string "..") then mret None
  else
    (if decide (dir_entries c = None) then load_dir_entries o else mret tt);;
    c ← get_obj o;
    entries ← m_lift (ok_or (dir_entries c) "Failed to load directory");
    found ← m_lift (position name entries);
    match found ≫= (entries !!.) with
    | Some e => i ← load_inode (dde_inode e); mret (Some i)
    | None => mret None
    end.

(** [create] and [mkdir] differ in the message, the new inode and its type. *)
Definition new_child (exists_msg : string) (inode : DiskInode) (ft : FileType) (o : Z) (name : list Z)
    : M (FS D) Z :=
  c ← get_obj o;
  m_guard (bool_decide (ci_file_type c = Directory)) "Not a directory";;
  m_guard (len name <=? MAX_FILENAME) "Filename too long";;
  (if decide (dir_entries c = None) then m_ignore (load_dir_entries o) else mret tt);;
  c ← get_obj o;
  found ← m_lift (position name (default [] (dir_entries c)));
  m_guard (bool_decide (found = None)) exists_msg;;
  ino ← alloc_inode;
  write_disk_inode ino inode;;
  upd_obj o (λ c, set_dir_entries (Some (default [] (dir_entries c) ++ [DiskDirEntry_new ino name ft])) c);;
  upd_obj o (set_dirty 1);;
  save_dir_entries o;;
  load_inode ino.

Definition create : Z → list Z → M (FS D) Z := new_child "File exists" new_file Regular.
Definition mkdir : Z → list Z → M (FS D) Z := new_child "Directory exists" new_dir Directory.

Definition unlink (o : Z) (name : list Z) : M (FS D) unit :=
  c ← get_obj o;
  m_guard (bool_decide (ci_file_type c = Directory)) "Not a directory";;
  (if decide (dir_entries c = None) then load_dir_entries o else mret tt);;
  c ← get_obj o;
  entries ← m_lift (ok_or (dir_entries c) "Failed to load directory");
  found ← m_lift (position name entries);
  match found with
  | None => m_fail "File not found"
  | Some pos =>
      let inode_to_free := from_option dde_inode 0 (entries !! pos) in
      upd_obj o (set_dir_entries (Some (delete pos entries)));;
      upd_obj o (set_dirty 1);;
      save_dir_entries o;;
      free_inode inode_to_free
  end.

Definition inode_sync (o : Z) : M (FS D) unit :=
  c ← get_obj o;
  if dirty c =? 0 then mret tt
  else match ci_file_type c with
       | Regular => save_file_data o
       | Directory => save_dir_entries o
       | _ => mret tt
       end.

(** ** The [FileSystem] operations *)

(** The cached inodes in the order of a [BTreeMap]. *)
Definition cached_objects (s : FS D) : list Z :=
  map snd (merge_sort ino_le (map_to_list (inode_cache s))).

Fixpoint sync_all (os : list Z) : M (FS D) unit :=
  match os with
  | [] => mret tt
  | o :: os =>
      c ← get_obj o;
      (if negb (dirty c =? 0) then inode_sync o else mret tt);;
      sync_all os
  end.

Definition fs_sync : M (FS D) unit :=
  s ← m_get;
  sync_all (cached_objects s);;
  sync_superblock;;
  sync_inode_bitmap;;
  sync_data_bitmap.

Definition get_stats (s : FS D) : FsStats :=
  let sb := superblock s in
  mkFsStats (block_size sb) (sat_sub (total_blocks sb) DATA_BLOCKS_START) (free_blocks sb)
    (total_inodes sb) (free_inodes sb).

Definition fs_get_storage_info (s : FS D) : StorageInfo :=
  let sb := superblock s in
  let total_data_blocks := sat_sub (total_blocks sb) DATA_BLOCKS_START in
  let used_blocks := sat_sub total_data_blocks (free_blocks sb) in
  mkSI (u64 (total_data_blocks * BLOCK_SIZE)) (u64 (used_blocks * BLOCK_SIZE))
    (u64 (free_blocks sb * BLOCK_SIZE)) (total_inodes sb) (u64 (total_inodes sb - free_inodes sb))
    (free_inodes sb).

(** ** Formatting and mounting *)

Definition format : M (FS D) unit :=
  sync_superblock;;
  sync_inode_bitmap;;
  sync_data_bitmap;;
  write_disk_inode ROOT_INODE new_dir.

Definition read_bitmap (start n : Z) : M (FS D) (list Z) :=
  blocks ← mapM (λ i, read_block (start + i)) (seqZ 0 n);
  mret (concat blocks).

(** [new_placeholder] is the object the root field holds until the root is loaded. *)
Definition new_placeholder (ino : Z) : CottonInode := mkCI ino Directory new_dir None None 0.

Definition is_formatted (sb : Superblock) : bool :=
  (magic sb =? FS_MAGIC) && (version sb =? FS_VERSION).

Definition CottonFS_new : M (FS D) unit :=
  buf ← read_block SUPERBLOCK_BLOCK;
  let sb := Superblock_parse buf in
  s ← m_get;
  let needs_format := negb (is_formatted sb) in
  let sb := if needs_format then Superblock_new (bd_total_blocks (device s)) else sb in
  inode_bm ← (if needs_format
              then mret (set_bit ROOT_INODE (zeros (INODE_BITMAP_BLOCKS * BLOCK_SIZE)))
              else read_bitmap INODE_BITMAP_START INODE_BITMAP_BLOCKS);
  data_bm ← (if needs_format then mret (zeros (DATA_BITMAP_BLOCKS * BLOCK_SIZE))
             else read_bitmap DATA_BITMAP_START DATA_BITMAP_BLOCKS);
  m_modify (λ s, mkFS (device s) sb inode_bm data_bm ∅ {[ 0 := new_placeholder ROOT_INODE ]} 1 0);;
  (if needs_format then format else mret tt);;
  r ← load_inode_internal ROOT_INODE;
  m_modify (set_root r).

End CottonFS.

(** [get_storage_info()]: the same figures from the mounted root's [statfs]. *)
Definition storage_info_of_stats (st : FsStats) : StorageInfo :=
  let used_blocks := sat_sub (fs_total_blocks st) (fs_free_blocks st) in
  mkSI (u64 (fs_total_blocks st * fs_block_size st)) (u64 (used_blocks * fs_block_size st))
    (u64 (fs_free_blocks st * fs_block_size st)) (fs_total_inodes st)
    (sat_sub (fs_total_inodes st) (fs_free_inodes st)) (fs_free_inodes st).
