(* ===== verification/CottonMeta.v ===== *)
(** * CottonFS: metadata

    Theorems on the first layer of [CottonFS]: block transfers, the bitmaps and the
    superblock on disk, the allocators, the inode table slots, and mounting.
    [fs_wf] is the invariant of the cached metadata. *)

From S2P Require Import Prelude Bytes Vfs Storage DiskLayout CottonFS.

#[local] Set Default Proof Using "Type*".

(** ** Specification vocabulary *)

(** Block numbers whose sector number is a [u64]. *)
Definition block_ok (b : Z) : Prop := 0 ≤ b < 2 ^ 61.

Definition is_block (buf : list Z) : Prop := len buf = BLOCK_SIZE ∧ is_bytes buf.

(** Clear bits of a bitmap below a bound. *)
Definition clear_bits (n : Z) (bm : list Z) : Z := count_range 0 n (λ i, negb (get_bit bm i)).

Section Spec.
Context {D : Type} `{BlockDevice D}.

(** Block [b] of a device. *)
Definition disk_read (d : D) (b : Z) : res (list Z) :=
  bd_read d (u64 (b * SECTORS_PER_BLOCK)) SECTORS_PER_BLOCK.

(** At most the blocks of [P] differ. *)
Definition changed (P : Z → Prop) (d d' : D) : Prop :=
  bd_total_blocks d' = bd_total_blocks d ∧
  ∀ b, block_ok b → ¬ P b → disk_read d' b = disk_read d b.

(** The device holds the metadata area. *)
Definition holds_metadata (d : D) : Prop := DATA_BLOCKS_START * SECTORS_PER_BLOCK ≤ bd_total_blocks d.

(** The cached bitmaps have their size, the superblock's fields fit, and its
    counters agree with the bitmaps. *)
Record fs_wf (s : FS D) : Prop := mk_fs_wf {
  wf_inode_bitmap : len (inode_bitmap s) = INODE_BITMAP_BLOCKS * BLOCK_SIZE ∧ is_bytes (inode_bitmap s);
  wf_data_bitmap : len (data_bitmap s) = DATA_BITMAP_BLOCKS * BLOCK_SIZE ∧ is_bytes (data_bitmap s);
  wf_superblock : Superblock_ok (superblock s);
  wf_total : total_blocks (superblock s) - DATA_BLOCKS_START ≤ DATA_BITMAP_BLOCKS * BLOCK_SIZE * 8;
  wf_free_blocks : free_blocks (superblock s) =
    clear_bits (sat_sub (total_blocks (superblock s)) DATA_BLOCKS_START) (data_bitmap s);
  wf_free_inodes : free_inodes (superblock s) = clear_bits MAX_INODES (inode_bitmap s);
  wf_inode_0 : get_bit (inode_bitmap s) 0 = false;
  wf_device : holds_metadata (device s);
}.

(** What the metadata blocks of a device hold. *)
Definition superblock_on_disk (sb : Superblock) (d : D) : Prop :=
  disk_read d SUPERBLOCK_BLOCK = Ok (splice 0 (Superblock_bytes sb) (zeros BLOCK_SIZE)).

Definition bitmap_on_disk (start n : Z) (bm : list Z) (d : D) : Prop :=
  ∀ i, 0 ≤ i < n → disk_read d (start + i) = Ok (slice (i * BLOCK_SIZE) BLOCK_SIZE bm).

Definition inode_bitmap_on_disk (bm : list Z) (d : D) : Prop :=
  bitmap_on_disk INODE_BITMAP_START INODE_BITMAP_BLOCKS bm d.
Definition data_bitmap_on_disk (bm : list Z) (d : D) : Prop :=
  bitmap_on_disk DATA_BITMAP_START DATA_BITMAP_BLOCKS bm d.

(** The blocks an allocation of a data block or of an inode rewrites. *)
Definition data_metadata (b : Z) : Prop :=
  b = SUPERBLOCK_BLOCK ∨ DATA_BITMAP_START ≤ b < DATA_BITMAP_START + DATA_BITMAP_BLOCKS.
Definition inode_metadata (b : Z) : Prop :=
  b = SUPERBLOCK_BLOCK ∨ INODE_BITMAP_START ≤ b < INODE_BITMAP_START + INODE_BITMAP_BLOCKS.

(** How many data blocks the superblock counts. *)
Definition max_blocks (s : FS D) : Z := sat_sub (total_blocks (superblock s)) DATA_BLOCKS_START.

(** The bitmap of the data blocks is [bm] in [s'], in the cache and on disk, and
    the superblock counts its free blocks; only that metadata changed. *)
Definition data_bitmap_now (bm : list Z) (s s' : FS D) : Prop :=
  ∃ d', s' = set_device d' (set_superblock
          (upd_free_blocks (clear_bits (max_blocks s) bm) (superblock s)) (set_data_bitmap bm s)) ∧
    data_bitmap_on_disk bm d' ∧ superblock_on_disk (superblock s') d' ∧
    changed data_metadata (device s) d'.

(** The same for the inode bitmap. *)
Definition inode_bitmap_now (bm : list Z) (s s' : FS D) : Prop :=
  ∃ d', s' = set_device d' (set_superblock
          (upd_free_inodes (clear_bits MAX_INODES bm) (superblock s)) (set_inode_bitmap bm s)) ∧
    inode_bitmap_on_disk bm d' ∧ superblock_on_disk (superblock s') d' ∧
    changed inode_metadata (device s) d'.

(** The inode a table slot holds, as [read_disk_inode] reads it. *)
Definition disk_inode (beyond : list Z) (d : D) (ino : Z) : res DiskInode :=
  buf ← disk_read d (inode_block ino);
  mret (DiskInode_parse (drop (Z.to_nat (inode_offset ino)) (buf ++ beyond))).

End Spec.

(** ** Blocks *)

Section Blocks.
Context {D : Type} `{BlockDeviceLaws D}.
Implicit Types (d : D) (s : FS D).

Lemma sector_small b : block_ok b → u64 (b * SECTORS_PER_BLOCK) = b * 8.
Proof. unfold block_ok, SECTORS_PER_BLOCK. intros. apply u64_small. lia. Qed.

Lemma disk_read_block d b buf : disk_read d b = Ok buf → is_block buf.
Proof.
  unfold disk_read. intros E. apply bd_read_bytes in E as [Hl Hb]; [|done].
  split; [|done]. rewrite Hl. reflexivity.
Qed.

Lemma changed_refl P d : changed P d d.
Proof. by split. Qed.

Lemma changed_trans P d1 d2 d3 : changed P d1 d2 → changed P d2 d3 → changed P d1 d3.
Proof. intros [T1 R1] [T2 R2]. split; [congruence|]. intros b Hb HP. by rewrite R2, R1. Qed.

Lemma changed_mono (P Q : Z → Prop) d d' : (∀ b, P b → Q b) → changed P d d' → changed Q d d'.
Proof. intros HPQ [T R]. split; [done|]. intros b Hb HQ. apply R; auto. Qed.

Lemma changed_metadata P d d' : changed P d d' → holds_metadata d → holds_metadata d'.
Proof. intros [T _]. unfold holds_metadata. by rewrite T. Qed.

(** A block write that succeeded. *)
Lemma write_block_inv b buf s s' :
  block_ok b → is_block buf → write_block b buf s = (Ok tt, s') →
  ∃ d', s' = set_device d' s ∧ disk_read d' b = Ok buf ∧ changed (λ b', b' = b) (device s) d'.
Proof.
  intros Hb [Hl Hby]. unfold write_block. destruct (bd_write _ _ buf (device s)) as [r d'] eqn:E.
  intros [= -> <-]. exists d'. split; [done|]. split.
  - unfold disk_read. by eapply bd_read_written; [exact E|rewrite Hl|].
  - split; [by eapply bd_write_total|]. intros b' Hb' Hne. unfold disk_read.
    rewrite !sector_small by done. rewrite sector_small in E by done.
    eapply bd_read_other; [exact E|]. unfold SECTORS_PER_BLOCK. lia.
Qed.

Lemma write_block_ok `{!ReliableDevice D} b buf s :
  block_ok b → is_block buf → (b + 1) * 8 ≤ bd_total_blocks (device s) →
  ∃ d', write_block b buf s = (Ok tt, set_device d' s) ∧ disk_read d' b = Ok buf ∧
    changed (λ b', b' = b) (device s) d'.
Proof.
  intros Hb Hbuf Ht. pose proof Hbuf as [Hl _].
  destruct (bd_write_ok (device s) (b * 8) 8 buf) as [d' E]; [unfold block_ok in Hb; lia|lia|lia|by rewrite Hl|].
  assert (write_block b buf s = (Ok tt, set_device d' s)) as Ew.
  { unfold write_block. rewrite sector_small by done. change SECTORS_PER_BLOCK with 8. by rewrite E. }
  destruct (write_block_inv b buf s _ Hb Hbuf Ew) as (d2 & E2 & Hr & Hc).
  apply (f_equal device) in E2. simpl in E2. subst d2. eauto.
Qed.

Lemma disk_read_ok `{!ReliableDevice D} d b :
  block_ok b → (b + 1) * 8 ≤ bd_total_blocks d → ∃ buf, disk_read d b = Ok buf ∧ is_block buf.
Proof.
  intros Hb Ht. destruct (bd_read_ok d (b * 8) 8) as [bs E]; [unfold block_ok in Hb; lia|lia|lia|].
  exists bs. assert (disk_read d b = Ok bs) as Er by (unfold disk_read; by rewrite sector_small).
  split; [done|]. by eapply disk_read_block.
Qed.

Lemma read_block_run s b : read_block b s = (disk_read (device s) b, s).
Proof. done. Qed.

Lemma set_device_twice d d' s : set_device d (set_device d' s) = set_device d s.
Proof. done. Qed.

Lemma device_set_device d s : device (set_device d s) = d.
Proof. done. Qed.

(** ** Superblock and bitmaps on disk *)

Lemma superblock_block sb : Superblock_ok sb → is_block (splice 0 (Superblock_bytes sb) (zeros BLOCK_SIZE)).
Proof.
  intros (_&_&_&_&_&_&_&_&_&_&Hl&Hb). pose proof (length_Superblock_bytes sb Hl) as Hlen. split.
  - rewrite len_splice; [by apply len_zeros|done|].
    rewrite len_zeros by done. unfold len. rewrite Hlen. done.
  - apply is_bytes_splice; [by apply is_bytes_Superblock_bytes|apply is_bytes_zeros].
Qed.

Lemma bitmap_block bm n i :
  len bm = n * BLOCK_SIZE → is_bytes bm → 0 ≤ i < n → is_block (slice (i * BLOCK_SIZE) BLOCK_SIZE bm).
Proof.
  unfold is_block, BLOCK_SIZE. intros Hl Hb Hi. split; [apply len_slice; lia|by apply is_bytes_slice].
Qed.

Lemma sync_superblock_ok `{!ReliableDevice D} s :
  Superblock_ok (superblock s) → holds_metadata (device s) →
  ∃ d', sync_superblock s = (Ok tt, set_device d' s) ∧ superblock_on_disk (superblock s) d' ∧
    changed (λ b, b = SUPERBLOCK_BLOCK) (device s) d'.
Proof.
  intros Hsb Hd. apply write_block_ok; [by vm_compute|by apply superblock_block|].
  unfold holds_metadata, DATA_BLOCKS_START, SECTORS_PER_BLOCK, SUPERBLOCK_BLOCK in *. lia.
Qed.

Lemma sync_bitmap_ok `{!ReliableDevice D} start n bm s :
  0 ≤ start → 0 ≤ n → start + n ≤ DATA_BLOCKS_START → len bm = n * BLOCK_SIZE → is_bytes bm →
  holds_metadata (device s) →
  ∃ d', sync_bitmap start n bm s = (Ok tt, set_device d' s) ∧ bitmap_on_disk start n bm d' ∧
    changed (λ b, start ≤ b < start + n) (device s) d'.
Proof.
  intros Hs Hn Hle Hl Hb Hd. unfold DATA_BLOCKS_START in Hle. unfold sync_bitmap.
  destruct (for_m_ok (λ i s', ∃ d', s' = set_device d' s ∧ bitmap_on_disk start i bm d' ∧
      changed (λ b, start ≤ b < start + n) (device s) d')
    (λ i, write_block (start + i) (slice (i * BLOCK_SIZE) BLOCK_SIZE bm)) 0 n s Hn) as (s' & -> & d' & -> & ? & ?).
  - exists (device s). split; [by destruct s|]. split; [intros i Hi; lia|apply changed_refl].
  - intros i s2 Hi (d2 & -> & Hbm & Hc).
    assert (block_ok (start + i)) as Hok by (unfold block_ok; lia).
    destruct (write_block_ok (start + i) (slice (i * BLOCK_SIZE) BLOCK_SIZE bm) (set_device d2 s))
      as (d3 & -> & Hr & Hc3); [done|by apply (bitmap_block _ n)| |].
    { rewrite device_set_device, (proj1 Hc). unfold holds_metadata, DATA_BLOCKS_START, SECTORS_PER_BLOCK in Hd. lia. }
    rewrite device_set_device in Hc3. eexists. split; [done|]. exists d3. split; [done|]. split.
    + intros j Hj. destruct (decide (j = i)) as [->|]; [done|].
      rewrite (proj2 Hc3); [apply Hbm; lia|unfold block_ok; lia|lia].
    + eapply changed_trans; [exact Hc|]. eapply changed_mono; [|exact Hc3]. simpl. lia.
  - by exists d'.
Qed.

End Blocks.

(** ** Counting clear bits *)

Lemma clear_bits_set n bm i :
  0 ≤ i < n → i / 8 < len bm → get_bit bm i = false → clear_bits n (set_bit i bm) = clear_bits n bm - 1.
Proof.
  intros Hi Hl Hb. unfold clear_bits.
  rewrite (count_range_off 0 n (λ j, negb (get_bit bm j)) (λ j, negb (get_bit (set_bit i bm) j)) i); [lia|lia| | |].
  - by rewrite Hb.
  - rewrite get_set_bit by lia. by rewrite bool_decide_eq_true_2, (proj2 (Z.ltb_lt _ _)).
  - intros j Hj Hne. rewrite get_set_bit by lia. by rewrite bool_decide_eq_false_2.
Qed.

Lemma clear_bits_clear n bm i :
  0 ≤ i < n → get_bit bm i = true → clear_bits n (clear_bit i bm) = clear_bits n bm + 1.
Proof.
  intros Hi Hb. unfold clear_bits.
  rewrite (count_range_off 0 n (λ j, negb (get_bit (clear_bit i bm) j)) (λ j, negb (get_bit bm j)) i); [lia|lia| | |].
  - rewrite get_clear_bit by lia. by rewrite bool_decide_eq_true_2.
  - by rewrite Hb.
  - intros j Hj Hne. rewrite get_clear_bit by lia. by rewrite bool_decide_eq_false_2.
Qed.

Lemma clear_bits_zero n bm : 0 ≤ n → clear_bits n bm = 0 ↔ ∀ i, 0 ≤ i < n → get_bit bm i = true.
Proof.
  intros Hn. split.
  - intros E i Hi. destruct (get_bit bm i) eqn:Hb; [done|].
    assert (0 < clear_bits n bm); [|lia]. apply (count_range_pos _ _ _ i); [done|]. by rewrite Hb.
  - intros Hall. apply count_range_zero. intros i Hi. by rewrite Hall.
Qed.

Lemma clear_bits_bounds n bm : 0 ≤ n → 0 ≤ clear_bits n bm ≤ n.
Proof. intros. pose proof (count_range_bounds 0 n (λ i, negb (get_bit bm i)) ltac:(lia)). unfold clear_bits. lia. Qed.

Lemma Superblock_ok_free_blocks n sb : u64_ok n → Superblock_ok sb → Superblock_ok (upd_free_blocks n sb).
Proof. unfold Superblock_ok. cbn. tauto. Qed.

Lemma Superblock_ok_free_inodes n sb : u64_ok n → Superblock_ok sb → Superblock_ok (upd_free_inodes n sb).
Proof. unfold Superblock_ok. cbn. tauto. Qed.

(** ** The allocators *)

Section Alloc.
Context {D : Type} `{BlockDeviceLaws D, !ReliableDevice D}.
Implicit Types (d : D) (s : FS D).

(** Writing one bitmap and then the superblock. *)
Lemma sync_two_ok start n bm s (m : M (FS D) unit) :
  m s = sync_bitmap start n bm s →
  1 ≤ start → 0 ≤ n → start + n ≤ DATA_BLOCKS_START → len bm = n * BLOCK_SIZE → is_bytes bm →
  Superblock_ok (superblock s) → holds_metadata (device s) →
  ∃ d', (m;; sync_superblock) s = (Ok tt, set_device d' s) ∧
    bitmap_on_disk start n bm d' ∧ superblock_on_disk (superblock s) d' ∧
    changed (λ b, b = SUPERBLOCK_BLOCK ∨ start ≤ b < start + n) (device s) d'.
Proof.
  intros Em Hs Hn Hle Hl Hb Hsb Hd.
  destruct (sync_bitmap_ok start n bm s ltac:(lia) Hn Hle Hl Hb Hd) as (d1 & E1 & Hbm & C1).
  rewrite <- Em in E1. rewrite (M_bind_run _ _ _ _ _ E1).
  destruct (sync_superblock_ok (set_device d1 s) Hsb (changed_metadata _ _ _ C1 Hd)) as (d2 & E2 & Hs2 & C2).
  rewrite E2, set_device_twice. exists d2. split; [done|]. rewrite device_set_device in C2. split; [|split; [done|]].
  - intros i Hi. rewrite (proj2 C2); [by apply Hbm|unfold block_ok, DATA_BLOCKS_START in *; lia|].
    unfold SUPERBLOCK_BLOCK. lia.
  - eapply changed_trans; eapply changed_mono; [|exact C1| |exact C2]; simpl; tauto.
Qed.

(** [alloc_block] once its search has found index [i]. *)
Lemma alloc_block_at i s :
  fs_wf s → free_blocks (superblock s) ≠ 0 →
  find_range 0 (sat_sub (total_blocks (superblock s)) DATA_BLOCKS_START)
    (λ i, negb (get_bit (data_bitmap s) i)) = Some i →
  ∃ d', alloc_block s = (Ok (DATA_BLOCKS_START + i),
      set_device d' (set_superblock (upd_free_blocks (free_blocks (superblock s) - 1) (superblock s))
        (set_data_bitmap (set_bit i (data_bitmap s)) s))) ∧
    data_bitmap_on_disk (set_bit i (data_bitmap s)) d' ∧
    superblock_on_disk (upd_free_blocks (free_blocks (superblock s) - 1) (superblock s)) d' ∧
    changed (λ b, b = SUPERBLOCK_BLOCK ∨ DATA_BITMAP_START ≤ b < DATA_BITMAP_START + DATA_BITMAP_BLOCKS)
      (device s) d'.
Proof.
  intros W Hf Hfind. pose proof (find_range_Some _ _ _ _ Hfind) as (Hi & _).
  destruct (wf_data_bitmap _ W) as [Hl Hb]. pose proof (wf_superblock _ W) as Hsb.
  set (sb' := upd_free_blocks _ _). set (s1 := set_superblock sb' _).
  assert (Superblock_ok sb') as Hsb'.
  { apply Superblock_ok_free_blocks; [|done]. destruct Hsb as (_&_&_&_&_&?&_). unfold u64_ok in *. lia. }
  destruct (sync_two_ok DATA_BITMAP_START DATA_BITMAP_BLOCKS (set_bit i (data_bitmap s)) s1 sync_data_bitmap)
    as (d' & E & Hbm & Hs & Hc); try done.
  { by rewrite len_set_bit. }
  { apply is_bytes_set_bit; [lia|done]. }
  { apply W. }
  exists d'. split; [|done]. unfold alloc_block, mbind at 1, M_bind at 1, m_get.
  rewrite (proj2 (Z.eqb_neq _ _)) by done. rewrite Hfind. unfold m_modify, mbind at 1, M_bind at 1. cbn beta iota.
  fold sb'. fold s1. unfold mbind at 1, M_bind at 1 in E.
  unfold mbind at 1, M_bind at 1. destruct (sync_data_bitmap s1) as [[[]| |] s2]; [|done|done].
  unfold mbind, M_bind. by rewrite E.
Qed.

(** The state after an update of the data bitmap's bit [i]. *)
Lemma fs_wf_data bm n s d' :
  fs_wf s → len bm = len (data_bitmap s) → is_bytes bm → holds_metadata d' →
  n = clear_bits (sat_sub (total_blocks (superblock s)) DATA_BLOCKS_START) bm →
  fs_wf (set_device d' (set_superblock (upd_free_blocks n (superblock s)) (set_data_bitmap bm s))).
Proof.
  intros W Hl Hb Hd Hn. destruct (wf_data_bitmap _ W) as [Hl0 _]. split; cbn; try apply W; try done.
  - split; [congruence|done].
  - apply Superblock_ok_free_blocks; [|apply W]. pose proof (wf_superblock _ W) as (_&_&_&Ht&_).
    pose proof (clear_bits_bounds (sat_sub (total_blocks (superblock s)) DATA_BLOCKS_START) bm
      ltac:(unfold sat_sub; lia)). unfold u64_ok, sat_sub, DATA_BLOCKS_START in *. lia.
Qed.

Lemma fs_wf_inode bm n s d' :
  fs_wf s → len bm = len (inode_bitmap s) → is_bytes bm → holds_metadata d' →
  n = clear_bits MAX_INODES bm → get_bit bm 0 = false →
  fs_wf (set_device d' (set_superblock (upd_free_inodes n (superblock s)) (set_inode_bitmap bm s))).
Proof.
  intros W Hl Hb Hd Hn H0bit. destruct (wf_inode_bitmap _ W) as [Hl0 _]. split; cbn; try apply W; try done.
  - split; [congruence|done].
  - apply Superblock_ok_free_inodes; [|apply W].
    pose proof (clear_bits_bounds MAX_INODES bm ltac:(by vm_compute)) as Hc.
    change MAX_INODES with 2048 in *. unfold u64_ok. lia.
Qed.

(** A caller's cache changes nothing the invariant speaks of. *)
Lemma fs_wf_cache c s : fs_wf s → fs_wf (set_cache c s).
Proof. intros W. by split; apply W. Qed.

Lemma fs_wf_device d s : fs_wf s → holds_metadata d → fs_wf (set_device d s).
Proof using Type. intros [] Hd. by constructor. Qed.

Lemma free_block_at b s :
  fs_wf s → DATA_BLOCKS_START ≤ b → b - DATA_BLOCKS_START < sat_sub (total_blocks (superblock s)) DATA_BLOCKS_START →
  get_bit (data_bitmap s) (b - DATA_BLOCKS_START) = true →
  let sb' := upd_free_blocks (free_blocks (superblock s) + 1) (superblock s) in
  let bm' := clear_bit (b - DATA_BLOCKS_START) (data_bitmap s) in
  ∃ d', free_block b s = (Ok tt, set_device d' (set_superblock sb' (set_data_bitmap bm' s))) ∧
    data_bitmap_on_disk bm' d' ∧ superblock_on_disk sb' d' ∧
    changed (λ b, b = SUPERBLOCK_BLOCK ∨ DATA_BITMAP_START ≤ b < DATA_BITMAP_START + DATA_BITMAP_BLOCKS)
      (device s) d'.
Proof.
  intros W Hb Hlt Hbit sb' bm'. destruct (wf_data_bitmap _ W) as [Hl Hby].
  assert (free_blocks (superblock s) + 1 ≤ sat_sub (total_blocks (superblock s)) DATA_BLOCKS_START) as Hle.
  { rewrite (wf_free_blocks _ W).
    rewrite <- (clear_bits_clear _ _ (b - DATA_BLOCKS_START)) by (done || lia).
    apply clear_bits_bounds. unfold sat_sub. lia. }
  pose proof (wf_superblock _ W) as (_&_&_&Ht&_&Hf&_).
  assert (u64 (free_blocks (superblock s) + 1) = free_blocks (superblock s) + 1) as Eu.
  { apply u64_small. unfold u64_ok, sat_sub, DATA_BLOCKS_START in *. lia. }
  set (s1 := set_superblock sb' (set_data_bitmap bm' s)).
  destruct (sync_two_ok DATA_BITMAP_START DATA_BITMAP_BLOCKS bm' s1 sync_data_bitmap)
    as (d' & E & Hbm & Hs & Hc); try done.
  { unfold bm'. by rewrite len_clear_bit. }
  { apply is_bytes_clear_bit; [lia|done]. }
  { apply Superblock_ok_free_blocks; [|apply W]. unfold u64_ok, sat_sub, DATA_BLOCKS_START in *. lia. }
  { apply W. }
  exists d'. split; [|done]. unfold free_block, mbind, M_bind, m_get, m_modify.
  rewrite (proj2 (Z.ltb_ge _ _)) by done. rewrite Hbit. cbn [negb]. cbn beta iota.
  cbn [superblock set_data_bitmap]. rewrite Eu. fold bm'. fold sb'. fold s1.
  unfold mbind, M_bind in E. exact E.
Qed.

(** [alloc_inode] once its search has found inode [i]. *)
Lemma alloc_inode_at i s :
  fs_wf s → free_inodes (superblock s) ≠ 0 →
  find_range 1 MAX_INODES (λ i, negb (get_bit (inode_bitmap s) i)) = Some i →
  let sb' := upd_free_inodes (free_inodes (superblock s) - 1) (superblock s) in
  let bm' := set_bit i (inode_bitmap s) in
  ∃ d', alloc_inode s = (Ok i, set_device d' (set_superblock sb' (set_inode_bitmap bm' s))) ∧
    inode_bitmap_on_disk bm' d' ∧ superblock_on_disk sb' d' ∧
    changed (λ b, b = SUPERBLOCK_BLOCK ∨ INODE_BITMAP_START ≤ b < INODE_BITMAP_START + INODE_BITMAP_BLOCKS)
      (device s) d'.
Proof.
  intros W Hf Hfind sb' bm'. pose proof (find_range_Some _ _ _ _ Hfind) as (Hi & _).
  destruct (wf_inode_bitmap _ W) as [Hl Hb]. pose proof (wf_superblock _ W) as Hsb.
  set (s1 := set_superblock sb' (set_inode_bitmap bm' s)).
  destruct (sync_two_ok INODE_BITMAP_START INODE_BITMAP_BLOCKS bm' s1 sync_inode_bitmap)
    as (d' & E & Hbm & Hs & Hc); try done.
  { unfold bm'. by rewrite len_set_bit. }
  { apply is_bytes_set_bit; [lia|done]. }
  { apply Superblock_ok_free_inodes; [|done]. destruct Hsb as (_&_&_&_&_&_&?&_). unfold u64_ok in *. lia. }
  { apply W. }
  exists d'. split; [|done]. unfold alloc_inode, mbind at 1, M_bind at 1, m_get.
  rewrite (proj2 (Z.eqb_neq _ _)) by done. rewrite Hfind. unfold m_modify, mbind at 1, M_bind at 1. cbn beta iota.
  fold sb'. fold bm'. fold s1. unfold mbind at 1, M_bind at 1 in E.
  unfold mbind at 1, M_bind at 1. destruct (sync_inode_bitmap s1) as [[[]| |] s2]; [|done|done].
  unfold mbind, M_bind. by rewrite E.
Qed.

Lemma free_inode_at ino s :
  fs_wf s → 1 < ino < MAX_INODES → get_bit (inode_bitmap s) ino = true →
  let sb' := upd_free_inodes (free_inodes (superblock s) + 1) (superblock s) in
  let bm' := clear_bit ino (inode_bitmap s) in
  ∃ d', free_inode ino s = (Ok tt,
      set_cache (delete ino (inode_cache s)) (set_device d' (set_superblock sb' (set_inode_bitmap bm' s)))) ∧
    inode_bitmap_on_disk bm' d' ∧ superblock_on_disk sb' d' ∧
    changed (λ b, b = SUPERBLOCK_BLOCK ∨ INODE_BITMAP_START ≤ b < INODE_BITMAP_START + INODE_BITMAP_BLOCKS)
      (device s) d'.
Proof.
  intros W Hi Hbit sb' bm'. destruct (wf_inode_bitmap _ W) as [Hl Hby].
  assert (free_inodes (superblock s) + 1 ≤ MAX_INODES) as Hle.
  { rewrite (wf_free_inodes _ W). rewrite <- (clear_bits_clear _ _ ino) by (done || lia).
    apply clear_bits_bounds. lia. }
  pose proof (wf_superblock _ W) as (_&_&_&_&_&_&Hf&_). change MAX_INODES with 2048 in *.
  assert (u64 (free_inodes (superblock s) + 1) = free_inodes (superblock s) + 1) as Eu.
  { apply u64_small. unfold u64_ok in *. lia. }
  set (s1 := set_cache (delete ino (inode_cache s)) (set_superblock sb' (set_inode_bitmap bm' s))).
  destruct (sync_two_ok INODE_BITMAP_START INODE_BITMAP_BLOCKS bm' s1 sync_inode_bitmap)
    as (d' & E & Hbm & Hs & Hc); try done.
  { unfold bm'. by rewrite len_clear_bit. }
  { apply is_bytes_clear_bit; [lia|done]. }
  { apply Superblock_ok_free_inodes; [|apply W]. unfold u64_ok in *. lia. }
  { apply W. }
  exists d'. split; [|done]. unfold free_inode, mbind, M_bind, m_modify.
  rewrite (proj2 (Z.eqb_neq _ _)) by (unfold ROOT_INODE; lia). cbn beta iota.
  cbn [superblock set_inode_bitmap inode_cache set_superblock]. rewrite Eu. fold bm'. fold sb'. fold s1.
  unfold mbind, M_bind in E. exact E.
Qed.

Lemma alloc_block_result s :
  fs_wf s →
  match alloc_block s with
  | (Ok b, s') => ∃ i, b = DATA_BLOCKS_START + i ∧ 0 ≤ i < max_blocks s ∧
      get_bit (data_bitmap s) i = false ∧ (∀ j, 0 ≤ j < i → get_bit (data_bitmap s) j = true) ∧
      data_bitmap_now (set_bit i (data_bitmap s)) s s' ∧
      free_blocks (superblock s') = free_blocks (superblock s) - 1 ∧ fs_wf s'
  | (Err e, s') => e = "No free blocks"%string ∧ s' = s ∧
      ∀ i, 0 ≤ i < max_blocks s → get_bit (data_bitmap s) i = true
  | (Panic, _) => False
  end.
Proof.
  intros W. pose proof (wf_free_blocks _ W) as Ef. fold (max_blocks s) in Ef.
  assert (0 ≤ max_blocks s) as Hm by (unfold max_blocks, sat_sub; lia).
  destruct (decide (free_blocks (superblock s) = 0)) as [E0|Hne].
  { unfold alloc_block, mbind, M_bind, m_get. rewrite (proj2 (Z.eqb_eq _ _)) by done.
    split; [done|]. split; [done|]. rewrite E0 in Ef. by apply clear_bits_zero. }
  destruct (find_range 0 (max_blocks s) (λ i, negb (get_bit (data_bitmap s) i))) as [i|] eqn:Hfind.
  - destruct (alloc_block_at i s W Hne Hfind) as (d' & -> & Hbm & Hs & Hc).
    apply find_range_Some in Hfind as (Hi & Hb%negb_true_iff & Hlow).
    assert (i / 8 < len (data_bitmap s)) as Hib.
    { destruct (wf_data_bitmap _ W) as [-> _]. pose proof (wf_total _ W). unfold max_blocks, sat_sub in Hi. zdiv. }
    assert (clear_bits (max_blocks s) (set_bit i (data_bitmap s)) = free_blocks (superblock s) - 1) as Ec.
    { rewrite clear_bits_set; [lia|lia|done|done]. }
    exists i. split; [done|]. split; [done|]. split; [done|]. split; [|split; [|split; [done|]]].
    + intros j Hj. specialize (Hlow j Hj). by apply negb_false_iff in Hlow.
    + exists d'. rewrite Ec. done.
    + apply fs_wf_data; [done|apply len_set_bit|apply is_bytes_set_bit; [lia|apply W]| |by rewrite <- Ec].
      eapply changed_metadata; [exact Hc|apply W].
  - exfalso. apply Hne. rewrite Ef. apply clear_bits_zero; [done|]. intros j Hj.
    pose proof (find_range_None _ _ _ Hfind j Hj) as Hb. by apply negb_false_iff in Hb.
Qed.

Lemma free_block_result s b :
  fs_wf s → DATA_BLOCKS_START ≤ b < DATA_BLOCKS_START + max_blocks s →
  if get_bit (data_bitmap s) (b - DATA_BLOCKS_START)
  then ∃ s', free_block b s = (Ok tt, s') ∧
    data_bitmap_now (clear_bit (b - DATA_BLOCKS_START) (data_bitmap s)) s s' ∧
    free_blocks (superblock s') = free_blocks (superblock s) + 1 ∧ fs_wf s'
  else free_block b s = (Ok tt, s).
Proof.
  intros W Hb. destruct (get_bit (data_bitmap s) (b - DATA_BLOCKS_START)) eqn:Hbit.
  - destruct (free_block_at b s W ltac:(lia) ltac:(unfold max_blocks in Hb; lia) Hbit) as (d' & E & Hbm & Hs & Hc).
    assert (clear_bits (max_blocks s) (clear_bit (b - DATA_BLOCKS_START) (data_bitmap s)) =
      free_blocks (superblock s) + 1) as Ec.
    { rewrite clear_bits_clear by (done || lia). by rewrite (wf_free_blocks _ W). }
    eexists. split; [exact E|]. split; [|split; [done|]].
    + exists d'. rewrite Ec. done.
    + apply fs_wf_data; [done|apply len_clear_bit|apply is_bytes_clear_bit; [lia|apply W]| |by rewrite <- Ec].
      eapply changed_metadata; [exact Hc|apply W].
  - unfold free_block, mbind, M_bind, m_get. rewrite (proj2 (Z.ltb_ge _ _)) by lia. by rewrite Hbit.
Qed.

Lemma upd_free_blocks_back n m sb : n = free_blocks sb → upd_free_blocks n (upd_free_blocks m sb) = sb.
Proof. intros ->. by destruct sb. Qed.

Lemma alloc_inode_result s :
  fs_wf s →
  match alloc_inode s with
  | (Ok i, s') => 1 ≤ i < MAX_INODES ∧
      get_bit (inode_bitmap s) i = false ∧ (∀ j, 1 ≤ j < i → get_bit (inode_bitmap s) j = true) ∧
      inode_bitmap_now (set_bit i (inode_bitmap s)) s s' ∧
      free_inodes (superblock s') = free_inodes (superblock s) - 1 ∧ fs_wf s'
  | (Err e, s') => e = "No free inodes"%string ∧ s' = s ∧
      ∀ i, 1 ≤ i < MAX_INODES → get_bit (inode_bitmap s) i = true
  | (Panic, _) => False
  end.
Proof.
  intros W. pose proof (wf_free_inodes _ W) as Ef. change MAX_INODES with 2048 in *.
  destruct (decide (free_inodes (superblock s) = 0)) as [E0|Hne].
  { unfold alloc_inode, mbind, M_bind, m_get. rewrite (proj2 (Z.eqb_eq _ _)) by done.
    split; [done|]. split; [done|]. rewrite E0 in Ef. intros i Hi.
    by apply (proj1 (clear_bits_zero 2048 (inode_bitmap s) ltac:(lia))); [done|lia]. }
  destruct (find_range 1 2048 (λ i, negb (get_bit (inode_bitmap s) i))) as [i|] eqn:Hfind.
  - destruct (alloc_inode_at i s W Hne Hfind) as (d' & -> & Hbm & Hs & Hc).
    apply find_range_Some in Hfind as (Hi & Hb%negb_true_iff & Hlow).
    assert (i / 8 < len (inode_bitmap s)) as Hib.
    { destruct (wf_inode_bitmap _ W) as [-> _]. unfold INODE_BITMAP_BLOCKS, BLOCK_SIZE. zdiv. }
    assert (clear_bits 2048 (set_bit i (inode_bitmap s)) = free_inodes (superblock s) - 1) as Ec.
    { rewrite clear_bits_set by (done || lia). lia. }
    split; [done|]. split; [done|]. split; [|split; [|split; [done|]]].
    + intros j Hj. specialize (Hlow j Hj). by apply negb_false_iff in Hlow.
    + exists d'. change MAX_INODES with 2048. rewrite Ec. done.
    + apply fs_wf_inode; [done|apply len_set_bit|apply is_bytes_set_bit; [lia|apply W]| |by rewrite <- Ec|].
      * eapply changed_metadata; [exact Hc|apply W].
      * rewrite get_set_bit, bool_decide_eq_false_2 by lia. apply W.
  - unfold alloc_inode, mbind, M_bind, m_get. rewrite (proj2 (Z.eqb_neq _ _)) by done.
    change MAX_INODES with 2048. rewrite Hfind. split; [done|]. split; [done|]. intros j Hj.
    pose proof (find_range_None _ _ _ Hfind j Hj) as Hb. by apply negb_false_iff in Hb.
Qed.

Lemma free_inode_result s ino :
  fs_wf s → 1 < ino < MAX_INODES → get_bit (inode_bitmap s) ino = true →
  ∃ s1, free_inode ino s = (Ok tt, set_cache (delete ino (inode_cache s)) s1) ∧
    inode_bitmap_now (clear_bit ino (inode_bitmap s)) s s1 ∧
    free_inodes (superblock s1) = free_inodes (superblock s) + 1 ∧ fs_wf s1.
Proof.
  intros W Hi Hbit. destruct (free_inode_at ino s W Hi Hbit) as (d' & E & Hbm & Hs & Hc).
  assert (clear_bits MAX_INODES (clear_bit ino (inode_bitmap s)) = free_inodes (superblock s) + 1) as Ec.
  { rewrite clear_bits_clear by (done || lia). by rewrite (wf_free_inodes _ W). }
  eexists. split; [exact E|]. split; [|split; [done|]].
  - exists d'. rewrite Ec. done.
  - apply fs_wf_inode; [done|apply len_clear_bit|apply is_bytes_clear_bit; [lia|apply W]| |by rewrite <- Ec|].
    + eapply changed_metadata; [exact Hc|apply W].
    + rewrite get_clear_bit by lia. rewrite (wf_inode_0 _ W). apply andb_false_r.
Qed.

(** ** Properties *)

(** [alloc_block] hands out the lowest data block whose bit is clear, sets
    exactly that bit, counts one block less and stores both the bitmap and the
    superblock; it fails exactly when every block is in use and then changes
    nothing.  [free_block] undoes it, bitmap and superblock.  The metadata
    invariant is kept. *)
Theorem alloc_block_spec s :
  fs_wf s →
  match alloc_block s with
  | (Ok b, s') => ∃ i, b = DATA_BLOCKS_START + i ∧ 0 ≤ i < max_blocks s ∧
      get_bit (data_bitmap s) i = false ∧ (∀ j, 0 ≤ j < i → get_bit (data_bitmap s) j = true) ∧
      data_bitmap_now (set_bit i (data_bitmap s)) s s' ∧
      free_blocks (superblock s') = free_blocks (superblock s) - 1 ∧ fs_wf s' ∧
      ∃ s2, free_block b s' = (Ok tt, s2) ∧ superblock s2 = superblock s ∧
        (∀ i, 0 ≤ i → get_bit (data_bitmap s2) i = get_bit (data_bitmap s) i) ∧ fs_wf s2
  | (Err e, s') => e = "No free blocks"%string ∧ s' = s ∧
      ∀ i, 0 ≤ i < max_blocks s → get_bit (data_bitmap s) i = true
  | (Panic, _) => False
  end.
Proof.
  intros W. pose proof (alloc_block_result s W) as R. destruct (alloc_block s) as [[b|e|] s']; [|done|done].
  destruct R as (i & -> & Hi & Hb & Hlow & Hnow & Hf & W'). exists i.
  split; [done|]. split; [done|]. split; [done|]. split; [done|]. split; [done|]. split; [done|]. split; [done|].
  destruct Hnow as (d1 & E1 & _). pose proof (f_equal data_bitmap E1) as Ebm. cbn in Ebm.
  assert (max_blocks s' = max_blocks s) as Em by (by rewrite E1).
  assert (i / 8 < len (data_bitmap s)) as Hib.
  { destruct (wf_data_bitmap _ W) as [-> _]. pose proof (wf_total _ W). unfold max_blocks, sat_sub in Hi. zdiv. }
  pose proof (free_block_result s' (DATA_BLOCKS_START + i) W' ltac:(rewrite Em; lia)) as R2.
  replace (DATA_BLOCKS_START + i - DATA_BLOCKS_START) with i in R2 by lia.
  rewrite Ebm, get_set_bit, bool_decide_eq_true_2, (proj2 (Z.ltb_lt _ _)) in R2 by (done || lia).
  destruct R2 as (s2 & E2 & (d2 & E2s & _) & Hf2 & W2). exists s2. split; [done|]. split; [|split; [|done]].
  - assert (superblock s2 = upd_free_blocks (free_blocks (superblock s)) (superblock s')) as ->.
    { rewrite E2s in Hf2 |- *. cbn in Hf2 |- *. f_equal. lia. }
    rewrite E1. by apply upd_free_blocks_back.
  - intros j Hj. rewrite E2s. cbn. rewrite get_clear_bit, get_set_bit by lia.
    destruct (decide (j = i)) as [->|]; [by rewrite bool_decide_eq_true_2|].
    by rewrite bool_decide_eq_false_2.
Qed.

(** [alloc_inode] hands out the lowest inode from 1 whose bit is clear, sets
    exactly that bit, counts one inode less and stores bitmap and superblock; it
    fails exactly when every inode from 1 is in use and then changes nothing.
    [free_inode] undoes it and drops the inode from the cache. *)
Theorem alloc_inode_spec s :
  fs_wf s → get_bit (inode_bitmap s) ROOT_INODE = true →
  match alloc_inode s with
  | (Ok ino, s') => 1 < ino < MAX_INODES ∧
      get_bit (inode_bitmap s) ino = false ∧ (∀ j, 1 ≤ j < ino → get_bit (inode_bitmap s) j = true) ∧
      inode_bitmap_now (set_bit ino (inode_bitmap s)) s s' ∧
      free_inodes (superblock s') = free_inodes (superblock s) - 1 ∧ fs_wf s' ∧
      ∃ s2, free_inode ino s' = (Ok tt, s2) ∧ free_inodes (superblock s2) = free_inodes (superblock s) ∧
        (∀ i, 0 ≤ i → get_bit (inode_bitmap s2) i = get_bit (inode_bitmap s) i) ∧
        inode_cache s2 = delete ino (inode_cache s) ∧ fs_wf s2
  | (Err e, s') => e = "No free inodes"%string ∧ s' = s ∧
      ∀ i, 1 ≤ i < MAX_INODES → get_bit (inode_bitmap s) i = true
  | (Panic, _) => False
  end.
Proof.
  intros W Hroot. pose proof (alloc_inode_result s W) as R. destruct (alloc_inode s) as [[i|e|] s']; [|done|done].
  destruct R as (Hi & Hb & Hlow & Hnow & Hf & W').
  assert (i ≠ 1) as Hne by (intros ->; unfold ROOT_INODE in Hroot; congruence).
  split; [lia|]. split; [done|]. split; [done|]. split; [done|]. split; [done|]. split; [done|].
  destruct Hnow as (d1 & E1 & _). pose proof (f_equal inode_bitmap E1) as Ebm. cbn in Ebm.
  assert (i / 8 < len (inode_bitmap s)) as Hib.
  { destruct (wf_inode_bitmap _ W) as [-> _]. change MAX_INODES with 2048 in Hi.
    unfold INODE_BITMAP_BLOCKS, BLOCK_SIZE. zdiv. }
  destruct (free_inode_result s' i W' ltac:(lia)) as (s2 & E2 & (d2 & E2s & _) & Hf2 & W2).
  { rewrite Ebm, get_set_bit by lia. by rewrite bool_decide_eq_true_2, (proj2 (Z.ltb_lt _ _)). }
  eexists. split; [exact E2|]. split; [cbn; lia|]. split; [|split; [by rewrite E1|by apply fs_wf_cache]].
  intros j Hj. rewrite E2s. cbn. rewrite Ebm, get_clear_bit, get_set_bit by lia.
  destruct (decide (j = i)) as [->|]; [by rewrite bool_decide_eq_true_2|]. by rewrite bool_decide_eq_false_2.
Qed.
End Alloc.
