(* ===== verification/CottonInodes.v ===== *)
(** * CottonFS: the inode table

    What [write_disk_inode] stores and [read_disk_inode] reads.  A slot has 128 of
    the 168 bytes of a [DiskInode], so an inode read back has the fields and the
    first eight pointers written ([slot_part]); its other pointers are the first
    bytes of the next slot. *)

From S2P Require Import Prelude Bytes Vfs Storage DiskLayout CottonFS CottonMeta.

#[local] Set Default Proof Using "Type*".

(** The part of an inode its slot holds. *)
Definition slot_part (d : DiskInode) : DiskInode := slot_image d [].

(** The first eight bytes of a slot, as the pointer they are read as. *)
Definition slot_head (d : DiskInode) : Z :=
  di_mode d + 2 ^ 16 * (di_file_type d + 2 ^ 8 * (di_pad1 d + 2 ^ 8 * di_uid d)).

Definition ino_ok (ino : Z) : Prop := 0 ≤ ino < MAX_INODES.

(** ** Parsing *)

Lemma take_drop_take {A} n k m (l : list A) :
  (k + n ≤ m)%nat → take n (drop k (take m l)) = take n (drop k l).
Proof.
  intros. apply list_eq. intros i. rewrite !lookup_take, !lookup_drop, lookup_take.
  case_decide; [|done]. by rewrite decide_True by lia.
Qed.

(** The fields of an inode's slot, each at its offset. *)
Definition field (k n : nat) (l : list Z) : Z := le_decode (take n (drop k l)).

Lemma le_take_drop k n l : le_take n (drop k l) = (field k n l, drop (k + n) l).
Proof. unfold le_take, field. by rewrite drop_drop. Qed.

Lemma field_take k n m l : (k + n ≤ m)%nat → field k n (take m l) = field k n l.
Proof. intros. unfold field. by rewrite take_drop_take. Qed.

Lemma le_take_list_S n k l :
  le_take_list n (S k) l = let '(x, l) := le_take n l in let '(xs, l) := le_take_list n k l in (x :: xs, l).
Proof. done. Qed.

Lemma le_take_list_drop n k off l :
  le_take_list n k (drop off l) =
    (map (λ i, field (off + n * i) n l) (seq 0 k), drop (off + n * k) l).
Proof.
  revert off. induction k as [|k IH]; intros off.
  - cbn. by rewrite Nat.mul_0_r, Nat.add_0_r.
  - rewrite le_take_list_S, le_take_drop, IH. cbn [seq map]. rewrite <- seq_shift, map_map.
    rewrite Nat.mul_0_r, Nat.add_0_r. f_equal; [f_equal; apply map_ext; intros i; f_equal; lia|f_equal; lia].
Qed.

Lemma DiskInode_parse_fields l :
  DiskInode_parse l =
    mkDI (field 0 2 l) (field 2 1 l) (field 3 1 l) (field 4 4 l) (field 8 4 l) (field 16 8 l)
      (field 24 8 l) (field 32 8 l) (field 40 8 l) (field 48 8 l) (field 56 4 l) (field 60 4 l)
      (map (λ i, field (64 + 8 * i) 8 l) (seq 0 12)) (field 160 8 l).
Proof.
  unfold DiskInode_parse. rewrite <- (drop_0 l) at 1.
  do 13 (rewrite le_take_drop; cbn [Nat.add]). rewrite le_take_list_drop.
  change (64 + 8 * 12)%nat with 160%nat. by rewrite le_take_drop.
Qed.

Lemma slot_part_fields d :
  slot_part d = mkDI (di_mode d) (di_file_type d) (di_pad1 d) (di_uid d) (di_gid d) (di_size d) (di_blocks d)
    (di_atime d) (di_mtime d) (di_ctime d) (di_nlink d) (di_pad2 d) (take 8 (direct d) ++ [0; 0; 0; 0]) 0.
Proof. done. Qed.

Lemma slot_part_take l : slot_part (DiskInode_parse (take 128 l)) = slot_part (DiskInode_parse l).
Proof.
  rewrite !DiskInode_parse_fields, !slot_part_fields.
  cbn [di_mode di_file_type di_pad1 di_uid di_gid di_size di_blocks di_atime di_mtime di_ctime di_nlink di_pad2 direct].
  cbn [take app seq map firstn]. by rewrite !field_take by lia.
Qed.

Lemma slot_part_image d after : length (direct d) = 12%nat → slot_part (slot_image d after) = slot_part d.
Proof.
  intros Hd. rewrite !slot_part_fields. rewrite slot_image_low by done.
  unfold slot_image. destruct (le_take_list 8 4 after) as [hi l]. by destruct (le_take 8 l).
Qed.

(** The pointers of the slot are the ones written. *)
Lemma slot_part_direct d d' i :
  slot_part d = slot_part d' → (i < 8)%nat → direct d !! i = direct d' !! i.
Proof.
  intros E Hi. rewrite <- (lookup_take_lt (direct d) 8 i), <- (lookup_take_lt (direct d') 8 i) by done.
  apply (f_equal direct) in E. rewrite !slot_part_fields in E. cbn [direct] in E.
  by apply app_inj_2 in E as [-> _].
Qed.

Lemma field_range k n l : is_bytes l → 0 ≤ field k n l < 2 ^ (8 * Z.of_nat n).
Proof.
  intros Hl. unfold field.
  pose proof (le_decode_range (take n (drop k l)) ltac:(auto with cotton)) as Hr.
  assert (2 ^ (8 * len (take n (drop k l))) ≤ 2 ^ (8 * Z.of_nat n)); [|lia].
  apply Z.pow_le_mono_r; [done|]. unfold len. rewrite length_take. lia.
Qed.

Lemma DiskInode_parse_ok l : is_bytes l → DiskInode_ok (DiskInode_parse l).
Proof.
  intros Hl. rewrite DiskInode_parse_fields. unfold DiskInode_ok, u32_ok, u64_ok.
  cbn [di_mode di_file_type di_pad1 di_uid di_gid di_size di_blocks di_atime di_mtime di_ctime di_nlink
    di_pad2 direct indirect].
  do 12 (split; [match goal with |- 0 ≤ field ?k ?n _ < _ => exact (field_range k n l Hl) end|]).
  split; [done|]. split; [|exact (field_range 160 8 l Hl)].
  apply Forall_map, Forall_forall. intros i _. exact (field_range (64 + 8 * i) 8 l Hl).
Qed.

Lemma new_dir_ok : DiskInode_ok new_dir.
Proof.
  unfold DiskInode_ok, u32_ok, u64_ok. do 12 (split; [by vm_compute|]). split; [done|].
  split; [apply Forall_replicate; lia|by vm_compute].
Qed.

Lemma new_file_ok : DiskInode_ok new_file.
Proof.
  unfold DiskInode_ok, u32_ok, u64_ok. do 12 (split; [by vm_compute|]). split; [done|].
  split; [apply Forall_replicate; lia|by vm_compute].
Qed.

(** ** Slots *)

Lemma inode_block_range ino : ino_ok ino → INODE_TABLE_START ≤ inode_block ino < DATA_BLOCKS_START.
Proof.
  unfold ino_ok, inode_block, inodes_per_block. change MAX_INODES with 2048.
  change (BLOCK_SIZE / DISK_INODE_SIZE) with 32. unfold INODE_TABLE_START, DATA_BLOCKS_START. intros. zdiv.
Qed.

Lemma inode_offset_range ino : 0 ≤ inode_offset ino ≤ BLOCK_SIZE - 128.
Proof.
  unfold inode_offset, inodes_per_block. change (BLOCK_SIZE / DISK_INODE_SIZE) with 32.
  unfold DISK_INODE_SIZE, BLOCK_SIZE. pose proof (Z.mod_pos_bound ino 32 ltac:(lia)). lia.
Qed.

(** Different inodes of one block have disjoint slots. *)
Lemma inode_offset_disjoint ino ino' :
  inode_block ino = inode_block ino' → ino ≠ ino' →
  inode_offset ino + 128 ≤ inode_offset ino' ∨ inode_offset ino' + 128 ≤ inode_offset ino.
Proof.
  unfold inode_block, inode_offset, inodes_per_block. change (BLOCK_SIZE / DISK_INODE_SIZE) with 32.
  unfold DISK_INODE_SIZE. intros Hb Hne. zdiv.
Qed.

Lemma len_slot d : length (direct d) = 12%nat → len (take (Z.to_nat DISK_INODE_SIZE) (DiskInode_bytes d)) = 128.
Proof.
  intros Hd. unfold len. rewrite length_take, length_DiskInode_bytes by done. done.
Qed.

Section Slots.
Context {D : Type} `{BlockDeviceLaws D}.
Variable beyond : list Z.
Implicit Types (d : D) (s : FS D).

(** What the slot of an inode holds. *)
Definition disk_slot (d : D) (ino : Z) : res DiskInode :=
  buf ← disk_read d (inode_block ino);
  Ok (slot_part (DiskInode_parse (slice (inode_offset ino) 128 buf))).

Lemma disk_slot_frame P d d' ino :
  changed P d d' → ino_ok ino → ¬ P (inode_block ino) → disk_slot d' ino = disk_slot d ino.
Proof.
  intros [_ C] Hi HP. unfold disk_slot. rewrite C; [done| |done].
  pose proof (inode_block_range _ Hi). unfold block_ok, DATA_BLOCKS_START, INODE_TABLE_START in *. lia.
Qed.

(** Reading an inode gives at least what its slot holds. *)
Lemma read_disk_inode_slot s ino di s' :
  read_disk_inode beyond ino s = (Ok di, s') → s' = s ∧ disk_slot (device s) ino = Ok (slot_part di).
Proof.
  unfold read_disk_inode. intros (buf & s1 & E & Hr)%M_bind_Ok. rewrite read_block_run in E.
  injection E as E <-. injection Hr as <- <-. split; [done|].
  unfold disk_slot. rewrite E. cbn [mbind res_bind]. f_equal.
  rewrite <- (slot_part_take (drop _ (buf ++ beyond))).
  unfold slice. f_equal. f_equal. apply disk_read_block in E as [Hl _].
  pose proof (inode_offset_range ino). change (Z.to_nat 128) with 128%nat. rewrite skipn_app, take_app_le; [done|].
  rewrite length_drop. unfold len, BLOCK_SIZE in *. lia.
Qed.

Lemma read_disk_inode_ok `{!ReliableDevice D} s ino :
  is_bytes beyond → ino_ok ino → holds_metadata (device s) →
  ∃ di, read_disk_inode beyond ino s = (Ok di, s) ∧ DiskInode_ok di ∧
    disk_slot (device s) ino = Ok (slot_part di).
Proof.
  intros Hby Hi Hd. pose proof (inode_block_range ino Hi).
  destruct (disk_read_ok (device s) (inode_block ino)) as (buf & Er & Hbuf).
  { unfold block_ok, INODE_TABLE_START, DATA_BLOCKS_START in *. lia. }
  { unfold holds_metadata, DATA_BLOCKS_START, SECTORS_PER_BLOCK in *. lia. }
  assert (read_disk_inode beyond ino s =
    (Ok (DiskInode_parse (drop (Z.to_nat (inode_offset ino)) (buf ++ beyond))), s)) as E.
  { unfold read_disk_inode. rewrite (M_bind_run _ _ _ buf s); [done|]. by rewrite read_block_run, Er. }
  eexists. split; [exact E|]. split; [|by apply (read_disk_inode_slot _ _ _ _ E)].
  apply DiskInode_parse_ok, is_bytes_drop, is_bytes_app. split; [apply Hbuf|done].
Qed.

(** Storing an inode in a block. *)
Lemma slot_stored ino inode buf :
  DiskInode_ok inode → len buf = BLOCK_SIZE →
  slice (inode_offset ino) 128
    (splice (inode_offset ino) (take (Z.to_nat DISK_INODE_SIZE) (DiskInode_bytes inode)) buf) =
  take 128 (DiskInode_bytes inode).
Proof.
  intros (_&_&_&_&_&_&_&_&_&_&_&_&Hl&_) Hb. pose proof (inode_offset_range ino).
  rewrite <- (len_slot inode) at 1 by done. apply slice_splice_same; [lia|]. rewrite len_slot by done. lia.
Qed.

Lemma write_disk_inode_ok `{!ReliableDevice D} s ino inode :
  DiskInode_ok inode → ino_ok ino → holds_metadata (device s) →
  ∃ d' buf, write_disk_inode ino inode s = (Ok tt, set_device d' s) ∧
    changed (λ b, b = inode_block ino) (device s) d' ∧
    disk_read (device s) (inode_block ino) = Ok buf ∧
    disk_read d' (inode_block ino) =
      Ok (splice (inode_offset ino) (take (Z.to_nat DISK_INODE_SIZE) (DiskInode_bytes inode)) buf).
Proof.
  intros Hok Hi Hd. pose proof (inode_block_range ino Hi). pose proof (inode_offset_range ino).
  assert (length (direct inode) = 12%nat) as Hl by apply Hok.
  assert (block_ok (inode_block ino)) as Hbo.
  { unfold block_ok, INODE_TABLE_START, DATA_BLOCKS_START in *. lia. }
  assert ((inode_block ino + 1) * 8 ≤ bd_total_blocks (device s)) as Hle.
  { unfold holds_metadata, DATA_BLOCKS_START, SECTORS_PER_BLOCK in *. lia. }
  destruct (disk_read_ok (device s) (inode_block ino) Hbo Hle) as (buf & Er & Hbuf & Hbb).
  destruct (write_block_ok (inode_block ino) (splice (inode_offset ino)
    (take (Z.to_nat DISK_INODE_SIZE) (DiskInode_bytes inode)) buf) s) as (d' & Ew & Hr & Hc); [done| |done|].
  { split; [rewrite len_splice by (rewrite ?len_slot by done; lia); done|auto with cotton]. }
  exists d', buf. split; [|done]. unfold write_disk_inode.
  rewrite (M_bind_run _ _ _ buf s); [done|]. by rewrite read_block_run, Er.
Qed.

Lemma write_disk_inode_slots `{!ReliableDevice D} s ino inode :
  DiskInode_ok inode → ino_ok ino → holds_metadata (device s) →
  ∃ d', write_disk_inode ino inode s = (Ok tt, set_device d' s) ∧
    changed (λ b, b = inode_block ino) (device s) d' ∧
    disk_slot d' ino = Ok (slot_part inode) ∧
    (∀ ino', ino_ok ino' → ino' ≠ ino → disk_slot d' ino' = disk_slot (device s) ino').
Proof.
  intros Hok Hi Hd. destruct (write_disk_inode_ok s ino inode Hok Hi Hd) as (d' & buf & E & Hc & Er & Er').
  pose proof (disk_read_block _ _ _ Er) as [Hl _]. exists d'. split; [done|]. split; [done|]. split.
  - unfold disk_slot. rewrite Er'. cbn [mbind res_bind]. f_equal. rewrite slot_stored by done.
    assert (length (direct inode) = 12%nat) as Hld by apply Hok.
    rewrite <- (app_nil_r (take 128 _)), DiskInode_slot_roundtrip by done. by apply slot_part_image.
  - intros ino' Hi' Hne. destruct (decide (inode_block ino' = inode_block ino)) as [Hb|Hb].
    + unfold disk_slot. rewrite Hb, Er, Er'. cbn [mbind res_bind]. do 3 f_equal.
      assert (length (direct inode) = 12%nat) as Hld by apply Hok.
      pose proof (inode_offset_range ino). pose proof (inode_offset_range ino').
      apply slice_splice_other; rewrite ?len_slot by done; try lia.
      destruct (inode_offset_disjoint ino ino'); [done|done|by right|by left].
    + by apply (disk_slot_frame _ _ _ _ Hc).
Qed.

(** ** Properties *)

(** An inode read back has the fields and the first eight pointers that were
    written, and writing one inode leaves what the slots of all others hold, and
    all other blocks of the device, unchanged. *)
Theorem inode_slot_spec `{!ReliableDevice D} s ino inode :
  is_bytes beyond → DiskInode_ok inode → ino_ok ino → holds_metadata (device s) →
  ∃ d', write_disk_inode ino inode s = (Ok tt, set_device d' s) ∧
    changed (λ b, b = inode_block ino) (device s) d' ∧
    (∃ di, read_disk_inode beyond ino (set_device d' s) = (Ok di, set_device d' s) ∧
      slot_part di = slot_part inode ∧ take 8 (direct di) = take 8 (direct inode)) ∧
    ∀ ino', ino_ok ino' → ino' ≠ ino →
      ∃ di di', read_disk_inode beyond ino' s = (Ok di, s) ∧
        read_disk_inode beyond ino' (set_device d' s) = (Ok di', set_device d' s) ∧ slot_part di' = slot_part di.
Proof.
  intros Hby Hok Hi Hd. destruct (write_disk_inode_slots s ino inode Hok Hi Hd) as (d' & E & C & Hs & Hother).
  pose proof (changed_metadata _ _ _ C Hd) as Hd'. exists d'. split; [done|]. split; [done|]. split.
  - destruct (read_disk_inode_ok (set_device d' s) ino Hby Hi Hd') as (di & Er & Hdi & Hs').
    rewrite device_set_device, Hs in Hs'. apply (inj Ok) in Hs'. exists di. split; [done|]. split; [done|].
    apply list_eq. intros i. rewrite !lookup_take. case_decide; [|done]. by apply slot_part_direct.
  - intros ino' Hi' Hne. destruct (read_disk_inode_ok s ino' Hby Hi' Hd) as (di & Er & _ & Hs1).
    destruct (read_disk_inode_ok (set_device d' s) ino' Hby Hi' Hd') as (di' & Er' & _ & Hs2).
    rewrite device_set_device, Hother, Hs1 in Hs2 by done. apply (inj Ok) in Hs2. by exists di, di'.
Qed.

(** The first bytes of a slot, read as a pointer of the slot before it. *)
Lemma slot_head_bytes inode l :
  DiskInode_ok inode → field 0 8 (take 128 (DiskInode_bytes inode) ++ l) = slot_head inode.
Proof using Type.
  intros (Hm&Ht&Hp&Hu&_&_&_&_&_&_&_&_&Hl&_). rewrite take_DiskInode_bytes by done.
  unfold field, slot_head, u32_ok in *. rewrite drop_0, <- !app_assoc.
  assert (∀ (z : Z) rest, 0 ≤ z < 2 ^ 32 → take 4 (le 4 z ++ rest) = le 4 z) as H4.
  { intros. by rewrite take_app_length'. }
  cbn [le app firstn]. cbn [le_decode].
  rewrite !Z.div_div by lia. 
  pose proof (Z.div_mod (di_mode inode) 256 ltac:(lia)).
  Z.to_euclidean_division_equations; lia.
Qed.

(** The ninth pointer of an inode is made of the fields of the next one: a file of
    more than eight blocks is not read back from its own blocks. *)
Theorem inode_slot_overlap `{!ReliableDevice D} s ino inode :
  is_bytes beyond → DiskInode_ok inode → ino_ok ino → ino_ok (ino + 1) → ino mod 32 ≠ 31 →
  holds_metadata (device s) →
  ∃ d' di, write_disk_inode (ino + 1) inode s = (Ok tt, set_device d' s) ∧
    read_disk_inode beyond ino (set_device d' s) = (Ok di, set_device d' s) ∧
    direct di !! 8%nat = Some (slot_head inode).
Proof.
  intros Hby Hok Hi Hi' Hm Hd. destruct (write_disk_inode_ok s (ino + 1) inode Hok Hi' Hd) as (d' & buf & E & C & Er & Er').
  pose proof (disk_read_block _ _ _ Er) as [Hlen _].
  assert (inode_block (ino + 1) = inode_block ino ∧ inode_offset (ino + 1) = inode_offset ino + 128) as [Eb Eo].
  { unfold inode_block, inode_offset, inodes_per_block. change (BLOCK_SIZE / DISK_INODE_SIZE) with 32.
    unfold DISK_INODE_SIZE. split; zdiv. }
  set (buf' := splice _ _ _) in Er'.
  assert (read_block (inode_block ino) (set_device d' s) = (Ok buf', set_device d' s)) as Eb'.
  { rewrite read_block_run, device_set_device, <- Eb. by rewrite Er'. }
  exists d'. eexists. split; [exact E|]. split; [unfold read_disk_inode; by rewrite (M_bind_run _ _ _ _ _ Eb')|].
  unfold buf'.
  rewrite DiskInode_parse_fields. cbn [direct]. set (l := drop _ _).
  change (Some (field (64 + 8 * 8) 8 l) = Some (slot_head inode)). f_equal.
  change (64 + 8 * 8)%nat with 128%nat. unfold l, field. rewrite drop_drop.
  pose proof (inode_offset_range ino). pose proof (inode_offset_range (ino + 1)).
  assert (length (direct inode) = 12%nat) as Hl by apply Hok. pose proof (len_slot _ Hl) as Hls.
  replace (Z.to_nat (inode_offset ino) + 128)%nat with (Z.to_nat (inode_offset (ino + 1))) by lia.
  unfold splice. rewrite <- !app_assoc.
  rewrite drop_app_length' by (rewrite length_take; unfold len, BLOCK_SIZE in *; lia).
  rewrite <- (slot_head_bytes inode (drop (Z.to_nat (inode_offset (ino + 1)) +
    length (take (Z.to_nat DISK_INODE_SIZE) (DiskInode_bytes inode))) buf ++ beyond)) by done.
  unfold field. by rewrite drop_0.
Qed.

End Slots.
