(* ===== verification/CottonMount.v ===== *)
(** * CottonFS: formatting, mounting and syncing

    A mounted file system whose cached metadata is on the device ([disk_synced]),
    and the theorems that [CottonFS::new] establishes it on a blank device,
    restores it from a formatted one, and that [sync] re-establishes it. *)

From stdpp Require Import sorting.
From S2P Require Import Prelude Bytes Vfs Storage DiskLayout CottonFS CottonMeta CottonInodes.

#[local] Set Default Proof Using "Type*".

(** ** Bitmaps of zeros *)

Lemma get_bit_zeros n i : 0 ≤ i → get_bit (zeros n) i = false.
Proof.
  intros Hi. rewrite get_bit_testbit by done. unfold byte_at, zeros.
  destruct (replicate _ 0 !! _) as [x|] eqn:E; cbn [default].
  - apply lookup_replicate in E as [-> _]. by rewrite Z.bits_0, andb_false_r.
  - by rewrite Z.bits_0, andb_false_r.
Qed.

Lemma count_range_all lo hi p : lo ≤ hi → (∀ j, lo ≤ j < hi → p j = true) → count_range lo hi p = hi - lo.
Proof.
  unfold count_range. intros Hle Hp. replace (hi - lo) with (Z.of_nat (Z.to_nat (hi - lo))) at 2 by lia.
  assert (∀ j, lo ≤ j < lo + Z.of_nat (Z.to_nat (hi - lo)) → p j = true) as Hp' by (intros; apply Hp; lia).
  clear Hp Hle. revert Hp'. generalize (Z.to_nat (hi - lo)) as n. intros n. clear hi. revert lo.
  induction n as [|n IH]; intros lo Hp; cbn [count_from]; [done|].
  rewrite (Hp lo) by lia. rewrite IH; [lia|]. intros. apply Hp. lia.
Qed.

Lemma clear_bits_zeros n k : 0 ≤ n → clear_bits n (zeros k) = n.
Proof.
  intros Hn. unfold clear_bits. rewrite count_range_all; [lia|done|].
  intros j Hj. by rewrite get_bit_zeros by lia.
Qed.

(** The blocks of a bitmap make it up. *)
Lemma concat_slices {A} (n : nat) k (bm : list A) :
  0 ≤ k → len bm = Z.of_nat n * k → concat (map (λ i, slice (i * k) k bm) (seqZ 0 (Z.of_nat n))) = bm.
Proof.
  intros Hk Hl.
  assert (∀ m, (m ≤ n)%nat →
    concat (map (λ i, slice (i * k) k bm) (seqZ 0 (Z.of_nat m))) = slice 0 (Z.of_nat m * k) bm) as Hm.
  { induction m as [|m IH]; intros Hm; [by unfold slice|].
    rewrite Nat2Z.inj_succ, <- Z.add_1_r, seqZ_app by lia. rewrite map_app, concat_app, IH by lia.
    cbn [seqZ]. replace (seqZ (0 + Z.of_nat m) 1) with [Z.of_nat m] by (cbn; f_equal; lia).
    cbn [map concat]. rewrite app_nil_r.
    replace ((Z.of_nat m + 1) * k) with (Z.of_nat m * k + k) by lia.
    rewrite <- (slice_app 0 (Z.of_nat m * k) k) by lia. done. }
  rewrite Hm by done. by apply slice_all.
Qed.

Lemma M_mapM_ok {S A B} (f : A → M S B) (g : A → B) l s :
  (∀ x, x ∈ l → f x s = (Ok (g x), s)) → mapM f l s = (Ok (map g l), s).
Proof.
  induction l as [|x l IH]; intros Hf; cbn [mapM map]; [done|].
  rewrite (M_bind_run _ _ _ (g x) s) by (apply Hf; by left).
  rewrite (M_bind_run _ _ _ (map g l) s); [done|]. apply IH. intros y Hy. apply Hf. by right.
Qed.

Lemma slot_free di p : slot_part di = slot_part p → di_is_free di = di_is_free p.
Proof. intros E. unfold di_is_free. apply (f_equal di_file_type) in E. cbn in E. by rewrite E. Qed.

Section Mount.
Context {D : Type} `{BlockDeviceLaws D, !ReliableDevice D}.
Variable beyond : list Z.
Hypothesis Hbeyond : is_bytes beyond.
Implicit Types (d : D) (s : FS D).

(** The cached metadata is what the device holds. *)
Record disk_synced s : Prop := mk_disk_synced {
  ds_superblock : superblock_on_disk (superblock s) (device s);
  ds_inode_bitmap : inode_bitmap_on_disk (inode_bitmap s) (device s);
  ds_data_bitmap : data_bitmap_on_disk (data_bitmap s) (device s);
}.

(** A freshly loaded root directory. *)
Definition root_loaded s : Prop :=
  inode_cache s = {[ ROOT_INODE := root s ]} ∧
  ∃ di, objects s !! root s = Some (mkCI ROOT_INODE (get_file_type di) di None None 0) ∧
    di_is_free di = false ∧ DiskInode_ok di ∧ disk_slot (device s) ROOT_INODE = Ok (slot_part di).

(** Blocks other than the three metadata areas. *)
Definition metadata (b : Z) : Prop := 0 ≤ b < INODE_TABLE_START.

Lemma read_bitmap_ok start n bm s :
  0 ≤ start → bitmap_on_disk start (Z.of_nat n) bm (device s) → len bm = Z.of_nat n * BLOCK_SIZE →
  read_bitmap start (Z.of_nat n) s = (Ok bm, s).
Proof using H0.
  intros Hs Hbm Hl. unfold read_bitmap.
  rewrite (M_bind_run _ _ _ (map (λ i, slice (i * BLOCK_SIZE) BLOCK_SIZE bm) (seqZ 0 (Z.of_nat n))) s).
  - unfold mret, M_ret. by rewrite concat_slices.
  - apply (M_mapM_ok _ (λ i, slice (i * BLOCK_SIZE) BLOCK_SIZE bm)). intros i Hi%elem_of_seqZ.
    rewrite read_block_run. rewrite Hbm by lia. done.
Qed.

(** The last steps of [CottonFS::new]. *)
Lemma mount_root p s :
  holds_metadata (device s) → inode_cache s = ∅ →
  disk_slot (device s) ROOT_INODE = Ok (slot_part p) → di_is_free p = false →
  ∃ s', (r ← load_inode_internal beyond ROOT_INODE; m_modify (set_root r)) s = (Ok tt, s') ∧
    root_loaded s' ∧ device s' = device s ∧ superblock s' = superblock s ∧
    inode_bitmap s' = inode_bitmap s ∧ data_bitmap s' = data_bitmap s.
Proof.
  intros Hd Hc Hslot Hp.
  destruct (read_disk_inode_ok beyond s ROOT_INODE Hbeyond) as (di & Er & Hok & Hs); [by vm_compute|done|].
  rewrite Hslot in Hs. apply (inj Ok) in Hs.
  assert (di_is_free di = false) as Hfree.
  { rewrite <- Hp. by apply slot_free. }
  eexists. split.
  - unfold load_inode_internal. unfold mbind, M_bind, m_get. rewrite Hc, lookup_empty. rewrite Er, Hfree.
    cbn [new_obj]. unfold m_modify, mret, M_ret, new_obj. cbn. reflexivity.
  - cbn. split; [|done]. split; [by rewrite Hc|].
    exists di. cbn. rewrite lookup_insert_eq. split; [done|]. split; [done|]. split; [done|]. exact (eq_trans Hslot (f_equal Ok Hs)).
Qed.

(** [format] on the state [CottonFS::new] builds for a blank device. *)
Lemma format_ok s :
  fs_wf s → ∃ d', format s = (Ok tt, set_device d' s) ∧ disk_synced (set_device d' s) ∧
    disk_slot d' ROOT_INODE = Ok (slot_part new_dir) ∧ bd_total_blocks d' = bd_total_blocks (device s).
Proof.
  intros W. unfold format. pose proof (wf_device _ W) as Hd.
  destruct (sync_superblock_ok s) as (d1 & E1 & Hs1 & C1); [apply W|done|].
  rewrite (M_bind_run _ _ _ _ _ E1).
  pose proof (changed_metadata _ _ _ C1 Hd) as Hd1.
  destruct (wf_inode_bitmap _ W) as [Hli Hbi]. destruct (wf_data_bitmap _ W) as [Hld Hbd].
  destruct (sync_bitmap_ok INODE_BITMAP_START INODE_BITMAP_BLOCKS (inode_bitmap s) (set_device d1 s))
    as (d2 & E2 & Hb2 & C2); try done. rewrite device_set_device in C2. rewrite set_device_twice in E2.
  pose proof (changed_metadata _ _ _ C2 Hd1) as Hd2.
  assert (sync_inode_bitmap (set_device d1 s) = (Ok tt, set_device d2 s)) as E2' by exact E2.
  rewrite (M_bind_run _ _ _ _ _ E2').
  destruct (sync_bitmap_ok DATA_BITMAP_START DATA_BITMAP_BLOCKS (data_bitmap s) (set_device d2 s))
    as (d3 & E3 & Hb3 & C3); try done. rewrite device_set_device in C3. rewrite set_device_twice in E3.
  pose proof (changed_metadata _ _ _ C3 Hd2) as Hd3.
  assert (sync_data_bitmap (set_device d2 s) = (Ok tt, set_device d3 s)) as E3' by exact E3.
  rewrite (M_bind_run _ _ _ _ _ E3').
  destruct (write_disk_inode_slots (set_device d3 s) ROOT_INODE new_dir) as (d4 & E4 & C4 & Hs4 & _).
  { apply new_dir_ok. } { by vm_compute. } { done. }
  rewrite E4, set_device_twice. rewrite device_set_device in C4. exists d4.
  split; [done|]. split; [|split; [done|by rewrite (proj1 C4), (proj1 C3), (proj1 C2), (proj1 C1)]].
  change (inode_block ROOT_INODE) with 64 in C4.
  unfold superblock_on_disk, inode_bitmap_on_disk, data_bitmap_on_disk, bitmap_on_disk in *.
  split; cbn [superblock inode_bitmap data_bitmap device set_device];
    unfold superblock_on_disk, inode_bitmap_on_disk, data_bitmap_on_disk, bitmap_on_disk;
    unfold SUPERBLOCK_BLOCK, INODE_BITMAP_START, INODE_BITMAP_BLOCKS, DATA_BITMAP_START, DATA_BITMAP_BLOCKS in *.
  - rewrite (proj2 C4), (proj2 C3), (proj2 C2); try done; unfold block_ok; lia.
  - intros i Hi. rewrite (proj2 C4), (proj2 C3), Hb2; try done; unfold block_ok; lia.
  - intros i Hi. rewrite (proj2 C4), Hb3; try done; unfold block_ok; lia.
Qed.

(** ** Mounting *)

(** The file system [CottonFS::new] builds for a device that is not formatted. *)
Definition blank_fs d : FS D :=
  mkFS d (Superblock_new (bd_total_blocks d)) (set_bit ROOT_INODE (zeros (INODE_BITMAP_BLOCKS * BLOCK_SIZE)))
    (zeros (DATA_BITMAP_BLOCKS * BLOCK_SIZE)) ∅ {[ 0 := new_placeholder ROOT_INODE ]} 1 0.

(** The blocks of the device's size all have a bit in the data bitmap. *)
Definition bitmap_covers d : Prop :=
  bd_total_blocks d - DATA_BLOCKS_START ≤ DATA_BITMAP_BLOCKS * BLOCK_SIZE * 8.

Lemma blank_wf d : holds_metadata d → bitmap_covers d → fs_wf (blank_fs d).
Proof using Type.
  intros Hd Hc. split; cbn [blank_fs inode_bitmap data_bitmap superblock device].
  - split; [rewrite len_set_bit; by apply len_zeros|].
    apply is_bytes_set_bit; [done|apply is_bytes_zeros].
  - split; [by apply len_zeros|apply is_bytes_zeros].
  - assert (0 ≤ bd_total_blocks d < 2 ^ 63) as Hr.
    { unfold holds_metadata, bitmap_covers, DATA_BLOCKS_START, SECTORS_PER_BLOCK, DATA_BITMAP_BLOCKS, BLOCK_SIZE in *. lia. }
    unfold Superblock_ok, Superblock_new, u32_ok, u64_ok, sat_sub.
    cbn [magic version block_size total_blocks total_inodes free_blocks free_inodes root_inode mount_count
      last_mount_time sb_reserved]. unfold DATA_BLOCKS_START.
    do 3 (split; [by vm_compute|]). split; [lia|]. split; [by vm_compute|]. split; [lia|].
    do 4 (split; [by vm_compute|]). split; [done|apply is_bytes_zeros].
  - exact Hc.
  - cbn [Superblock_new free_blocks total_blocks]. rewrite clear_bits_zeros; [done|unfold sat_sub; lia].
  - change (free_inodes (Superblock_new (bd_total_blocks d))) with (MAX_INODES - 1).
    rewrite clear_bits_set; [by rewrite clear_bits_zeros|done| |by apply get_bit_zeros].
    rewrite len_zeros by done. by vm_compute.
  - rewrite get_set_bit, get_bit_zeros by done. done.
  - done.
Qed.

Lemma mount_blank s0 buf :
  disk_read (device s0) SUPERBLOCK_BLOCK = Ok buf → is_formatted (Superblock_parse buf) = false →
  CottonFS_new beyond s0 =
    (format;; (r ← load_inode_internal beyond ROOT_INODE; m_modify (set_root r))) (blank_fs (device s0)).
Proof using H0.
  intros Er Hf. unfold CottonFS_new.
  rewrite (M_bind_run _ _ _ buf s0) by (by rewrite read_block_run, Er). cbv zeta.
  rewrite M_get_run, Hf. cbn [negb]. by rewrite !M_ret_run, M_modify_run.
Qed.

(** The state a mount of a synced device builds, before the root is loaded. *)
Definition cold_fs s : FS D :=
  mkFS (device s) (superblock s) (inode_bitmap s) (data_bitmap s) ∅ {[ 0 := new_placeholder ROOT_INODE ]} 1 0.

Lemma mount_synced s s0 :
  fs_wf s → disk_synced s → is_formatted (superblock s) = true → device s0 = device s →
  CottonFS_new beyond s0 = (r ← load_inode_internal beyond ROOT_INODE; m_modify (set_root r)) (cold_fs s).
Proof.
  intros W [Hs Hi Hd] Hf Hdev. unfold superblock_on_disk in Hs. unfold CottonFS_new.
  rewrite (M_bind_run _ _ _ (splice 0 (Superblock_bytes (superblock s)) (zeros BLOCK_SIZE)) s0)
    by (by rewrite read_block_run, Hdev, Hs).
  cbv zeta. rewrite M_get_run.
  assert (Superblock_parse (splice 0 (Superblock_bytes (superblock s)) (zeros BLOCK_SIZE)) = superblock s) as ->.
  { unfold splice. cbn [take app]. apply Superblock_roundtrip, W. }
  rewrite Hf. cbn [negb].
  destruct (wf_inode_bitmap _ W) as [Hli _]. destruct (wf_data_bitmap _ W) as [Hld _].
  rewrite (M_bind_run (read_bitmap INODE_BITMAP_START INODE_BITMAP_BLOCKS) _ s0 (inode_bitmap s) s0)
    by (apply (read_bitmap_ok _ 31); [done|by rewrite Hdev|done]).
  rewrite (M_bind_run (read_bitmap DATA_BITMAP_START DATA_BITMAP_BLOCKS) _ s0 (data_bitmap s) s0)
    by (apply (read_bitmap_ok _ 32); [done|by rewrite Hdev|done]).
  unfold cold_fs. by rewrite <- Hdev.
Qed.

Lemma fs_wf_same s s' :
  fs_wf s → device s' = device s → superblock s' = superblock s → inode_bitmap s' = inode_bitmap s →
  data_bitmap s' = data_bitmap s → fs_wf s'.
Proof using Type. intros W Ed Es Ei Eb. split; rewrite ?Ed, ?Es, ?Ei, ?Eb; apply W. Qed.

Lemma disk_synced_same s s' :
  disk_synced s → device s' = device s → superblock s' = superblock s → inode_bitmap s' = inode_bitmap s →
  data_bitmap s' = data_bitmap s → disk_synced s'.
Proof using Type. intros [? ? ?] Ed Es Ei Eb. split; rewrite ?Ed, ?Es, ?Ei, ?Eb; done. Qed.

Lemma fs_wf_objects m s : fs_wf s → fs_wf (set_objects m s).
Proof using Type. intros W. by apply (fs_wf_same s). Qed.

Lemma disk_synced_objects m s : disk_synced s → disk_synced (set_objects m s).
Proof using Type. intros S. by apply (disk_synced_same s). Qed.

Lemma remount s s0 p :
  fs_wf s → disk_synced s → is_formatted (superblock s) = true → device s0 = device s →
  disk_slot (device s) ROOT_INODE = Ok (slot_part p) → di_is_free p = false →
  ∃ s', CottonFS_new beyond s0 = (Ok tt, s') ∧ device s' = device s ∧ superblock s' = superblock s ∧
    inode_bitmap s' = inode_bitmap s ∧ data_bitmap s' = data_bitmap s ∧ root_loaded s' ∧
    fs_wf s' ∧ disk_synced s'.
Proof.
  intros W S Hf Hdev Hslot Hp. rewrite (mount_synced s s0) by done.
  destruct (mount_root p (cold_fs s)) as (s' & E & Hr & Ed & Es & Ei & Eb); [apply W|done|done|done|].
  exists s'. split; [done|]. split; [done|]. split; [done|]. split; [done|]. split; [done|]. split; [done|].
  split; [by apply (fs_wf_same s)|by apply (disk_synced_same s)].
Qed.

(** ** Syncing *)

(** No cached inode has unsaved changes. *)
Definition clean s : Prop :=
  ∀ ino o, inode_cache s !! ino = Some o → ∃ c, objects s !! o = Some c ∧ dirty c = 0.

Lemma sync_all_clean os s :
  (∀ o, o ∈ os → ∃ c, objects s !! o = Some c ∧ dirty c = 0) → sync_all os s = (Ok tt, s).
Proof using Type.
  induction os as [|o os IH]; intros Hc; cbn [sync_all]; [done|].
  destruct (Hc o ltac:(by left)) as (c & Ho & Hd).
  rewrite (M_bind_run (get_obj o) _ s c s) by (unfold get_obj; by rewrite Ho).
  rewrite Hd. cbn [Z.eqb negb]. rewrite M_ret_run. apply IH. intros o' Ho'.
  apply Hc. by right.
Qed.

Lemma elem_of_cached_objects s o : o ∈ cached_objects s → ∃ ino, inode_cache s !! ino = Some o.
Proof using Type.
  unfold cached_objects. intros ([ino o'] & -> & Hin)%list_elem_of_fmap. exists ino.
  apply elem_of_map_to_list. by rewrite (merge_sort_Permutation ino_le) in Hin.
Qed.

Lemma fs_sync_clean s :
  fs_wf s → clean s →
  ∃ d', fs_sync s = (Ok tt, set_device d' s) ∧ disk_synced (set_device d' s) ∧
    changed metadata (device s) d' ∧ holds_metadata d'.
Proof.
  intros W Hclean. unfold fs_sync. pose proof (wf_device _ W) as Hd.
  rewrite M_get_run.
  rewrite (M_bind_run _ _ s tt s).
  2:{ apply sync_all_clean. intros o (ino & Hino)%elem_of_cached_objects. by apply (Hclean ino). }
  destruct (sync_superblock_ok s) as (d1 & E1 & Hs1 & C1); [apply W|done|].
  rewrite (M_bind_run _ _ _ _ _ E1). pose proof (changed_metadata _ _ _ C1 Hd) as Hd1.
  destruct (wf_inode_bitmap _ W) as [Hli Hbi]. destruct (wf_data_bitmap _ W) as [Hld Hbd].
  destruct (sync_bitmap_ok INODE_BITMAP_START INODE_BITMAP_BLOCKS (inode_bitmap s) (set_device d1 s))
    as (d2 & E2 & Hb2 & C2); try done. rewrite device_set_device in C2. rewrite set_device_twice in E2.
  pose proof (changed_metadata _ _ _ C2 Hd1) as Hd2.
  assert (sync_inode_bitmap (set_device d1 s) = (Ok tt, set_device d2 s)) as E2' by exact E2.
  rewrite (M_bind_run _ _ _ _ _ E2').
  destruct (sync_bitmap_ok DATA_BITMAP_START DATA_BITMAP_BLOCKS (data_bitmap s) (set_device d2 s))
    as (d3 & E3 & Hb3 & C3); try done. rewrite device_set_device in C3. rewrite set_device_twice in E3.
  pose proof (changed_metadata _ _ _ C3 Hd2) as Hd3.
  assert (sync_data_bitmap (set_device d2 s) = (Ok tt, set_device d3 s)) as E3' by exact E3.
  rewrite E3'. exists d3. split; [done|].
  unfold SUPERBLOCK_BLOCK, INODE_BITMAP_START, INODE_BITMAP_BLOCKS, DATA_BITMAP_START, DATA_BITMAP_BLOCKS in *.
  split; [|split; [|done]].
  - split; cbn [superblock inode_bitmap data_bitmap device set_device];
      unfold superblock_on_disk, inode_bitmap_on_disk, data_bitmap_on_disk, bitmap_on_disk in *;
      unfold SUPERBLOCK_BLOCK, INODE_BITMAP_START, INODE_BITMAP_BLOCKS, DATA_BITMAP_START, DATA_BITMAP_BLOCKS in *.
    + rewrite (proj2 C3), (proj2 C2); try done; unfold block_ok; lia.
    + intros i Hi. rewrite (proj2 C3), Hb2; try done; unfold block_ok; lia.
    + intros i Hi. by rewrite Hb3.
  - unfold metadata, INODE_TABLE_START. eapply changed_trans; [eapply changed_trans|];
      (eapply changed_mono; [|eassumption]); simpl; lia.
Qed.

(** ** Properties *)

(** On a device that holds the metadata area and no CottonFS, [CottonFS::new]
    formats and mounts: the metadata invariant holds, cache and device agree, the
    only inode in use is the root, an empty directory, and no data block is used. *)
Theorem mount_blank_spec s0 buf :
  holds_metadata (device s0) → bitmap_covers (device s0) →
  disk_read (device s0) SUPERBLOCK_BLOCK = Ok buf → is_formatted (Superblock_parse buf) = false →
  ∃ s, CottonFS_new beyond s0 = (Ok tt, s) ∧ fs_wf s ∧ disk_synced s ∧
    superblock s = Superblock_new (bd_total_blocks (device s0)) ∧
    (∀ i, 0 ≤ i → get_bit (inode_bitmap s) i = bool_decide (i = ROOT_INODE)) ∧
    (∀ i, 0 ≤ i → get_bit (data_bitmap s) i = false) ∧
    root_loaded s ∧ disk_slot (device s) ROOT_INODE = Ok (slot_part new_dir).
Proof.
  intros Hd Hc Er Hf. rewrite (mount_blank s0 buf) by done.
  pose proof (blank_wf (device s0) Hd Hc) as W.
  destruct (format_ok _ W) as (d' & E & S & Hslot & Ht). rewrite (M_bind_run _ _ _ _ _ E).
  assert (holds_metadata d') as Hd' by (unfold holds_metadata; by rewrite Ht).
  destruct (mount_root new_dir (set_device d' (blank_fs (device s0))))
    as (s & -> & Hr & Ed & Es & Ei & Eb); [done|done|done|done|].
  exists s. split; [done|]. split.
  { eapply fs_wf_same; [|exact Ed|exact Es|exact Ei|exact Eb]. by apply fs_wf_device. }
  split; [exact (disk_synced_same _ s S Ed Es Ei Eb)|]. split; [exact Es|].
  rewrite Ei, Eb, Ed. split; [|split; [|done]].
  - intros i Hi. cbn [inode_bitmap set_device blank_fs].
    rewrite get_set_bit, get_bit_zeros, orb_false_r by done. rewrite len_zeros by done. by rewrite andb_true_r.
  - intros i Hi. by apply get_bit_zeros.
Qed.

(** When no cached inode is dirty, [sync] succeeds, writes only the metadata
    area and leaves cache and device in agreement; mounting that device again
    restores the superblock, both bitmaps and the root directory. *)
Theorem sync_mount_roundtrip s p :
  fs_wf s → clean s → is_formatted (superblock s) = true →
  disk_slot (device s) ROOT_INODE = Ok (slot_part p) → di_is_free p = false →
  ∃ d', fs_sync s = (Ok tt, set_device d' s) ∧ changed metadata (device s) d' ∧
    disk_synced (set_device d' s) ∧
    ∀ s0, device s0 = d' →
      ∃ s', CottonFS_new beyond s0 = (Ok tt, s') ∧ device s' = d' ∧ superblock s' = superblock s ∧
        inode_bitmap s' = inode_bitmap s ∧ data_bitmap s' = data_bitmap s ∧ root_loaded s' ∧
        fs_wf s' ∧ disk_synced s'.
Proof.
  intros W Hclean Hf Hslot Hp. destruct (fs_sync_clean s W Hclean) as (d' & E & S & C & Hd').
  exists d'. split; [done|]. split; [done|]. split; [done|]. intros s0 Hdev.
  apply (remount (set_device d' s) s0 p); try done.
  - by apply fs_wf_device.
  - cbn [device set_device]. rewrite <- Hslot. apply (disk_slot_frame _ _ _ _ C); [by vm_compute|].
    unfold metadata. change (inode_block ROOT_INODE) with INODE_TABLE_START. lia.
Qed.

End Mount.

(** ** Witnesses *)

Module MountExample.
Import RamDisk.

Definition ram0 : ram_disk := ram_zero 4096.

(** The same device with a root directory in its slot, and a mounted file system
    with the root cached. *)
Definition ram1 : ram_disk := mkRam 4096 (λ i, nthZ (DiskInode_bytes new_dir) (i - (64 * 4096 + 128))).

Definition fs1 : FS ram_disk := set_cache {[ ROOT_INODE := 0 ]} (blank_fs ram1).

Lemma holds_ram0 : holds_metadata ram0.
Proof. by vm_compute. Qed.

Lemma covers_ram0 : bitmap_covers ram0.
Proof. by vm_compute. Qed.

Lemma fs0_wf : fs_wf (blank_fs ram0).
Proof. exact (blank_wf ram0 holds_ram0 covers_ram0). Qed.

Lemma fs0_root : get_bit (inode_bitmap (blank_fs ram0)) ROOT_INODE = true.
Proof. by vm_compute. Qed.

(** The blank file system once its metadata is on the device. *)
Lemma fs0_synced :
  ∃ d', disk_synced (set_device d' (blank_fs ram0)) ∧ fs_wf (set_device d' (blank_fs ram0)) ∧
    disk_slot d' ROOT_INODE = Ok (slot_part new_dir) ∧ bd_total_blocks d' = 4096.
Proof.
  destruct (format_ok _ fs0_wf) as (d' & _ & S & Hs & Ht). exists d'. split; [done|].
  split; [|done]. apply fs_wf_device; [apply fs0_wf|]. unfold holds_metadata. rewrite Ht. by vm_compute.
Qed.

Lemma fs1_wf : fs_wf fs1.
Proof. apply fs_wf_cache, blank_wf; by vm_compute. Qed.

Lemma fs1_clean : clean fs1.
Proof.
  intros ino o Hi. cbn [fs1 inode_cache set_cache] in Hi. apply lookup_singleton_Some in Hi as [<- <-].
  exists (new_placeholder ROOT_INODE). done.
Qed.

Lemma fs1_slot : disk_slot (device fs1) ROOT_INODE = Ok (slot_part new_dir).
Proof. by vm_compute. Qed.

Lemma ram0_unformatted : is_formatted (Superblock_parse (zeros 4096)) = false.
Proof. by vm_compute. Qed.

Lemma ram0_read : disk_read ram0 SUPERBLOCK_BLOCK = Ok (zeros 4096).
Proof. by vm_compute. Qed.

Lemma mount_blank_spec_witness :
  ∃ s, CottonFS_new [] (blank_fs ram0) = (Ok tt, s) ∧ fs_wf s.
Proof.
  destruct (mount_blank_spec [] (Forall_nil_2 _) (blank_fs ram0) (zeros 4096) holds_ram0 covers_ram0 ram0_read
    ram0_unformatted) as (s & E & W & _).
  exists s. exact (conj E W).
Defined.

Lemma sync_mount_roundtrip_witness :
  ∃ d', fs_sync fs1 = (Ok tt, set_device d' fs1) ∧ disk_synced (set_device d' fs1).
Proof.
  destruct (sync_mount_roundtrip [] (Forall_nil_2 _) fs1 new_dir fs1_wf fs1_clean eq_refl fs1_slot eq_refl)
    as (d' & E & _ & S & _).
  exists d'. exact (conj E S).
Defined.

Lemma alloc_block_spec_witness :
  match alloc_block (blank_fs ram0) with
  | (Ok b, s') => fs_wf s'
  | (Err e, s') => e = "No free blocks"%string
  | (Panic, _) => False
  end.
Proof.
  pose proof (alloc_block_spec (blank_fs ram0) fs0_wf) as R.
  destruct (alloc_block (blank_fs ram0)) as [[b|e|] s'].
  - destruct R as (_ & _ & _ & _ & _ & _ & _ & W & _). exact W.
  - exact (proj1 R).
  - exact R.
Defined.

Lemma alloc_inode_spec_witness :
  match alloc_inode (blank_fs ram0) with
  | (Ok ino, s') => 1 < ino < MAX_INODES ∧ fs_wf s'
  | (Err e, s') => e = "No free inodes"%string
  | (Panic, _) => False
  end.
Proof.
  pose proof (alloc_inode_spec (blank_fs ram0) fs0_wf fs0_root) as R.
  destruct (alloc_inode (blank_fs ram0)) as [[b|e|] s'].
  - destruct R as (Hb & _ & _ & _ & _ & W & _). exact (conj Hb W).
  - exact (proj1 R).
  - exact R.
Defined.

Lemma ino7_ok : ino_ok 7.
Proof. by vm_compute. Qed.

Lemma inode_slot_spec_witness :
  ∃ d', write_disk_inode 7 new_file fs1 = (Ok tt, set_device d' fs1) ∧
    changed (λ b, b = inode_block 7) (device fs1) d'.
Proof.
  destruct (inode_slot_spec [] fs1 7 new_file (Forall_nil_2 _) new_file_ok ino7_ok (wf_device _ fs1_wf)) as (d' & E & C & _).
  exists d'. exact (conj E C).
Defined.

End MountExample.
