(* ===== verification/CottonFile.v ===== *)
(** * CottonFS: file contents

    An in-memory inode of a regular file stands for a byte string: its cached data,
    or the data its blocks hold ([contents]).  [read], [write] and [truncate]
    implement the obvious operations on that string, and what they save is what a
    later load finds. *)

From S2P Require Import Prelude Bytes Vfs Storage DiskLayout CottonFS CottonMeta CottonInodes CottonMount.

#[local] Set Default Proof Using "Type*".

(** ** Specification vocabulary *)

(** The [j]-th direct pointer, and the blocks an inode points to. *)
Definition ptr (c : CottonInode) (j : Z) : Z := direct_at (ci_disk c) j.
Definition points (c : CottonInode) (b : Z) : Prop := ∃ j, 0 ≤ j < DIRECT_BLOCKS ∧ ptr c j = b.

(** Block [j] of a file's data, padded with zeros. *)
Definition chunk (data : list Z) (j : Z) : list Z :=
  let offset := j * BLOCK_SIZE in
  let end_ := Z.min (offset + BLOCK_SIZE) (len data) in
  splice 0 (slice offset (end_ - offset) data) (zeros BLOCK_SIZE).

(** How many blocks of the data are saved. *)
Definition saved_blocks (data : list Z) : Z := Z.min (blocks_for (len data)) DIRECT_BLOCKS.

Definition with_direct (l : list Z) (c : CottonInode) : CottonInode :=
  set_ci_disk (set_direct l (ci_disk c)) c.

Section Spec.
Context {D : Type} `{BlockDevice D}.
Implicit Types (d : D) (s : FS D).

Definition on_device s (b : Z) : Prop := (b + 1) * SECTORS_PER_BLOCK ≤ bd_total_blocks (device s).

Definition in_use s (b : Z) : Prop := get_bit (data_bitmap s) (b - DATA_BLOCKS_START) = true.

(** A data block the file system counts, marked in use, on the device. *)
Definition data_block s (b : Z) : Prop :=
  DATA_BLOCKS_START ≤ b < DATA_BLOCKS_START + max_blocks s ∧ in_use s b ∧ on_device s b.

(** The inode's fields fit, and its pointers are distinct data blocks. *)
Record file_ok s (c : CottonInode) : Prop := mk_file_ok {
  fo_disk : DiskInode_ok (ci_disk c);
  fo_ino : ino_ok (ci_ino c);
  fo_blocks : ∀ b, points c b → b ≠ 0 → data_block s b;
  fo_distinct : ∀ i j, 0 ≤ i < DIRECT_BLOCKS → 0 ≤ j < DIRECT_BLOCKS → i ≠ j → ptr c i ≠ 0 → ptr c i ≠ ptr c j;
}.

(** The free blocks that the device really has. *)
Definition device_blocks s : Z :=
  Z.min (max_blocks s) (sat_sub (bd_total_blocks (device s) / SECTORS_PER_BLOCK) DATA_BLOCKS_START).
Definition room s : Z := clear_bits (device_blocks s) (data_bitmap s).

(** The blocks that writing the first [n] blocks of a file will allocate. *)
Definition missing (c : CottonInode) (i n : Z) : Z := count_range i n (λ j, ptr c j =? 0).

(** Only the block pointers of object [o] changed from [c] to [c'], together with
    the data bitmap, so that the blocks in use are those that were, less the ones
    the file held, and the ones it holds now; new blocks were free, and of the
    device only metadata and the blocks of [W] changed. *)
Record rewired (W : Z → Prop) (o : Z) (c : CottonInode) s (c' : CottonInode) s' : Prop := mk_rewired {
  rw_objects : objects s' = <[o := c']> (objects s);
  rw_inode : c' = with_direct (direct (ci_disk c')) c;
  rw_file : file_ok s' c';
  rw_bits : ∀ b, DATA_BLOCKS_START ≤ b → in_use s' b ↔ (in_use s b ∧ ¬ points c b) ∨ points c' b;
  rw_new : ∀ b, points c' b → b ≠ 0 → points c b ∨ ¬ in_use s b;
  rw_wf : fs_wf s';
  rw_synced : disk_synced s';
  rw_changed : changed (λ b, data_metadata b ∨ W b) (device s) (device s');
  rw_rest : inode_bitmap s' = inode_bitmap s ∧ inode_cache s' = inode_cache s ∧
    next_object s' = next_object s ∧ root s' = root s ∧
    superblock s' = upd_free_blocks (free_blocks (superblock s')) (superblock s);
}.

End Spec.

(** ** Pointers *)

Lemma ptr_with_direct l c j : ptr (with_direct l c) j = default 0 (l !! Z.to_nat j).
Proof. done. Qed.

Lemma with_direct_twice l l' c : with_direct l (with_direct l' c) = with_direct l c.
Proof. done. Qed.

Lemma with_direct_same c : with_direct (direct (ci_disk c)) c = c.
Proof. by destruct c as [? ? [] ? ? ?]. Qed.

Lemma ptr_insert c j b k :
  length (direct (ci_disk c)) = 12%nat → 0 ≤ j < DIRECT_BLOCKS → 0 ≤ k < DIRECT_BLOCKS →
  ptr (with_direct (<[Z.to_nat j := b]> (direct (ci_disk c))) c) k = if decide (k = j) then b else ptr c k.
Proof.
  unfold DIRECT_BLOCKS. intros Hl Hj Hk. rewrite ptr_with_direct. case_decide.
  - subst. by rewrite list_lookup_insert_eq by lia.
  - by rewrite list_lookup_insert_ne by lia.
Qed.

Lemma points_insert c j b x :
  length (direct (ci_disk c)) = 12%nat → 0 ≤ j < DIRECT_BLOCKS →
  points (with_direct (<[Z.to_nat j := b]> (direct (ci_disk c))) c) x ↔
    x = b ∨ ∃ k, 0 ≤ k < DIRECT_BLOCKS ∧ k ≠ j ∧ ptr c k = x.
Proof.
  intros Hl Hj. split.
  - intros (k & Hk & E). rewrite ptr_insert in E by done. case_decide; [by left|right; eauto].
  - intros [->|(k & Hk & Hne & <-)].
    + exists j. rewrite ptr_insert, decide_True by done. done.
    + exists k. rewrite ptr_insert, decide_False by done. done.
Qed.

#[export] Instance in_use_dec {D} (s : FS D) b : Decision (in_use s b).
Proof. unfold in_use. apply _. Defined.

#[export] Instance points_dec c b : Decision (points c b).
Proof.
  destruct (decide (Exists (λ j, ptr c j = b) (seqZ 0 DIRECT_BLOCKS))) as [E|E]; [left|right].
  - apply Exists_exists in E as (j & Hj%elem_of_seqZ & Hp). exists j. split; [lia|done].
  - intros (j & Hj & Hp). apply E, Exists_exists. exists j. split; [by apply elem_of_seqZ|done].
Defined.

Section Steps.
Context {D : Type} `{BlockDeviceLaws D, !ReliableDevice D}.
Implicit Types (d : D) (s : FS D).

(** ** Composing steps *)

Lemma max_blocks_rewired W o c s c' s' : rewired W o c s c' s' → max_blocks s' = max_blocks s.
Proof using Type. intros R. unfold max_blocks. by destruct (rw_rest _ _ _ _ _ _ R) as (_&_&_&_&->). Qed.

Lemma rewired_refl o c s :
  objects s !! o = Some c → file_ok s c → fs_wf s → disk_synced s → rewired (λ _, False) o c s c s.
Proof using Type.
  intros Ho F Wf S. split; try done.
  - by rewrite insert_id.
  - by rewrite with_direct_same.
  - intros b Hb. split; [|intros [[? _]|Hp]; [done|]].
    + intros Hu. destruct (decide (points c b)); [by right|by left].
    + apply (fo_blocks _ _ F); [done|unfold DATA_BLOCKS_START in Hb; lia].
  - auto.
  - do 4 (split; [done|]). by destruct (superblock s).
Qed.

Lemma rewired_trans W1 W2 W o c s c1 s1 c2 s2 :
  rewired W1 o c s c1 s1 → rewired W2 o c1 s1 c2 s2 → (∀ b, W1 b → W b) → (∀ b, W2 b → W b) →
  rewired W o c s c2 s2.
Proof.
  intros R1 R2 I1 I2. destruct R1 as [O1 N1 F1 B1 P1 _ _ C1 (E1&E2&E3&E4&E5)].
  destruct R2 as [O2 N2 F2 B2 P2 Wf2 S2 C2 (E1'&E2'&E3'&E4'&E5')].
  assert (∀ b, points c2 b → b ≠ 0 → points c b ∨ ¬ in_use s b) as P.
  { intros b Hb Hne. destruct (P2 b Hb Hne) as [Hp1|Hu]; [by apply P1|].
    destruct (decide (DATA_BLOCKS_START ≤ b)) as [Hd|Hd].
    - specialize (B1 b Hd). destruct (decide (in_use s b)) as [Hin|]; [|by right].
      left. destruct (decide (points c b)); [done|]. exfalso. apply Hu, B1. by left.
    - destruct (fo_blocks _ _ F2 b Hb Hne) as [? _]. lia. }
  split; try done.
  - by rewrite O2, O1, insert_insert_eq.
  - rewrite N2, N1 at 1. done.
  - intros b Hb. rewrite B2, B1 by done. split.
    + intros [[[[? ?]|Hp] Hn]|Hp]; [by left|done|by right].
    + intros [[Hu Hn]|Hp]; [|by right]. left. split; [by left|]. intros Hp1.
      destruct (P1 b Hp1) as [|]; [unfold DATA_BLOCKS_START in Hb; lia|done|done].
  - eapply changed_trans; (eapply changed_mono; [|eassumption]); intros b [Hm|Hw]; auto.
  - rewrite E1', E2', E3', E4'. split_and!; [done|done|done|done|]. rewrite E5', E5. done.
Qed.

(** ** The steps of the save loops *)

Lemma alter_at {A} (f : A → A) (m : gmap Z A) o x : m !! o = Some x → alter f o m = <[o := f x]> m.
Proof using Type.
  intros Ho. apply map_eq. intros k. destruct (decide (o = k)) as [->|].
  - by rewrite lookup_alter_eq, lookup_insert_eq, Ho.
  - by rewrite lookup_alter_ne, lookup_insert_ne.
Qed.

Lemma upd_obj_run {B} o f c s (k : unit → M (FS D) B) :
  objects s !! o = Some c → (upd_obj o f ≫= k) s = k tt (set_objects (<[o := f c]> (objects s)) s).
Proof using Type. intros Ho. unfold upd_obj. rewrite M_modify_run. by rewrite (alter_at f _ o c). Qed.

Lemma get_obj_run {B} o c s (k : CottonInode → M (FS D) B) :
  objects s !! o = Some c → (get_obj o ≫= k) s = k c s.
Proof using Type. intros Ho. apply M_bind_run. unfold get_obj. by rewrite Ho. Qed.

Lemma disk_synced_data bm s s' : disk_synced s → data_bitmap_now bm s s' → disk_synced s'.
Proof using Type.
  intros [Hs Hi Hd] (d' & -> & Hbm & Hsb & C). split; [done| |done].
  cbn [inode_bitmap set_device set_superblock set_data_bitmap device].
  unfold inode_bitmap_on_disk, bitmap_on_disk in *. intros i Hr. rewrite (proj2 C); [by apply Hi| |];
    unfold block_ok, data_metadata, SUPERBLOCK_BLOCK, DATA_BITMAP_START, DATA_BITMAP_BLOCKS,
      INODE_BITMAP_START, INODE_BITMAP_BLOCKS in *; lia.
Qed.

Lemma max_blocks_bound s : fs_wf s → 0 ≤ max_blocks s ≤ 2 ^ 20.
Proof using Type.
  intros Wf. pose proof (wf_total _ Wf). unfold max_blocks, sat_sub.
  unfold DATA_BITMAP_BLOCKS, BLOCK_SIZE in *. lia.
Qed.

(** While the device has room, [alloc_block] finds a block of it. *)
Lemma alloc_block_room s :
  fs_wf s → disk_synced s → 0 < room s →
  ∃ i s1, alloc_block s = (Ok (DATA_BLOCKS_START + i), s1) ∧ 0 ≤ i < max_blocks s ∧
    get_bit (data_bitmap s) i = false ∧ data_bitmap_now (set_bit i (data_bitmap s)) s s1 ∧
    fs_wf s1 ∧ disk_synced s1 ∧ on_device s (DATA_BLOCKS_START + i) ∧
    room s1 = room s - 1.
Proof.
  intros Wf S Hroom. pose proof (alloc_block_result s Wf) as R.
  assert (∃ k, 0 ≤ k < device_blocks s ∧ get_bit (data_bitmap s) k = false) as (k & Hk & Hkb).
  { destruct (find_range 0 (device_blocks s) (λ i, negb (get_bit (data_bitmap s) i))) as [k|] eqn:E.
    - apply find_range_Some in E as (Hk & Hb%negb_true_iff & _). eauto.
    - exfalso. assert (room s = 0); [|lia]. apply clear_bits_zero; [unfold device_blocks, max_blocks, sat_sub; lia|].
      intros i Hi. pose proof (find_range_None _ _ _ E i Hi) as Hb. by apply negb_false_iff in Hb. }
  assert (k < max_blocks s) as Hkm by (unfold device_blocks in Hk; lia).
  destruct (alloc_block s) as [[b|e|] s1].
  - destruct R as (i & -> & Hi & Hb & Hlow & Hnow & _ & Wf1).
    assert (i < device_blocks s) as Hid.
    { destruct (decide (k < i)) as [Hlt|]; [|lia]. rewrite Hlow in Hkb by lia. done. }
    exists i, s1. split; [done|]. split; [done|]. split; [done|]. split; [done|]. split; [done|].
    split; [by eapply disk_synced_data|]. split.
    + unfold on_device. unfold device_blocks, sat_sub, SECTORS_PER_BLOCK, DATA_BLOCKS_START in *. zdiv.
    + destruct Hnow as (d1 & -> & _ & _ & C). unfold room, device_blocks, max_blocks. cbn.
      rewrite (proj1 C). change (sat_sub (total_blocks (superblock s)) DATA_BLOCKS_START) with (max_blocks s).
      fold (device_blocks s). apply clear_bits_set; [lia| |done].
      destruct (wf_data_bitmap _ Wf) as [-> _]. pose proof (max_blocks_bound s Wf).
      unfold DATA_BITMAP_BLOCKS, BLOCK_SIZE. zdiv.
  - destruct R as (_ & _ & Hall). rewrite Hall in Hkb by lia. done.
  - done.
Qed.

Lemma file_ok_length s c : file_ok s c → length (direct (ci_disk c)) = 12%nat.
Proof using Type. intros F. apply (fo_disk _ _ F). Qed.

Lemma DiskInode_ok_direct l (di : DiskInode) :
  DiskInode_ok di → length l = 12%nat → Forall u64_ok l → DiskInode_ok (set_direct l di).
Proof using Type. unfold DiskInode_ok. cbn. tauto. Qed.

Lemma ptr_u64 s c j : file_ok s c → u64_ok (ptr c j).
Proof using Type.
  intros F. destruct (fo_disk _ _ F) as (_&_&_&_&_&_&_&_&_&_&_&_&_&Hd&_).
  unfold ptr, direct_at. destruct (direct (ci_disk c) !! Z.to_nat j) eqn:E; cbn [default].
  - by eapply Forall_lookup_1 in E.
  - unfold u64_ok. lia.
Qed.

Lemma points_in_use s c b : file_ok s c → points c b → DATA_BLOCKS_START ≤ b → in_use s b.
Proof using Type. intros F Hp Hb. apply (fo_blocks _ _ F b Hp). unfold DATA_BLOCKS_START in Hb. lia. Qed.

(** Pointing a hole of the file at a fresh block. *)
Lemma alloc_step o c s j :
  objects s !! o = Some c → file_ok s c → fs_wf s → disk_synced s → 0 ≤ j < DIRECT_BLOCKS →
  ptr c j = 0 → 0 < room s →
  ∃ b s1, (b ← alloc_block;
      upd_obj o (λ c, set_ci_disk (set_direct (<[Z.to_nat j := b]> (direct (ci_disk c))) (ci_disk c)) c)) s
      = (Ok tt, s1) ∧ b ≠ 0 ∧ room s1 = room s - 1 ∧ ¬ in_use s b ∧
    rewired (λ _, False) o c s (with_direct (<[Z.to_nat j := b]> (direct (ci_disk c))) c) s1.
Proof.
  intros Ho F Wf S Hj Hp Hroom. pose proof (file_ok_length _ _ F) as Hl.
  destruct (alloc_block_room s Wf S Hroom) as (i & s' & E & Hi & Hfree & Hnow & Wf' & S' & Hdev & Hr).
  pose proof (max_blocks_bound s Wf) as Hmax. set (b := DATA_BLOCKS_START + i).
  assert (Hbb : b - DATA_BLOCKS_START = i) by (unfold b; lia).
  destruct Hnow as (d' & Es' & _ & _ & C).
  assert (Hobj : objects s' !! o = Some c) by (by rewrite Es').
  set (c' := with_direct (<[Z.to_nat j := b]> (direct (ci_disk c))) c).
  exists b, (set_objects (<[o := c']> (objects s')) s'). split.
  { rewrite (M_bind_run _ _ _ _ _ E). fold b. unfold upd_obj, m_modify. by rewrite (alter_at _ _ o c). }
  split; [unfold b, DATA_BLOCKS_START; lia|]. split; [exact Hr|].
  split; [unfold in_use; rewrite Hbb; congruence|]. fold c'.
  assert (Huse : ∀ x, DATA_BLOCKS_START ≤ x → in_use s' x ↔ x = b ∨ in_use s x).
  { intros x Hx. unfold in_use. rewrite Es'. cbn [data_bitmap set_device set_superblock set_data_bitmap].
    rewrite get_set_bit by lia. rewrite (proj2 (Z.ltb_lt _ _)).
    2:{ destruct (wf_data_bitmap _ Wf) as [-> _]. unfold DATA_BITMAP_BLOCKS, BLOCK_SIZE. zdiv. }
    rewrite andb_true_r, orb_true_iff, bool_decide_eq_true. unfold b. split; (intros [?|?]; [left; lia|by right]). }
  assert (Hpts : ∀ x, points c' x ↔ x = b ∨ ∃ k, 0 ≤ k < DIRECT_BLOCKS ∧ k ≠ j ∧ ptr c k = x)
    by (intros x; by apply points_insert).
  assert (Hpts' : ∀ x, x ≠ 0 → points c' x ↔ x = b ∨ points c x).
  { intros x Hx. rewrite Hpts. split; (intros [?|(k & Hk)]; [by left|right]).
    - destruct Hk as (? & _ & ?). by exists k.
    - destruct Hk as (Hk & Ek). exists k. split; [done|]. split; [congruence|done]. }
  assert (Hnot : ¬ points c b).
  { intros Hpb. assert (in_use s b) as Hu by (apply (points_in_use s c); [done|done|unfold b; lia]).
    unfold in_use in Hu. rewrite Hbb in Hu. congruence. }
  assert (Hmb : max_blocks s' = max_blocks s) by (by rewrite Es').
  assert (Htot : bd_total_blocks (device s') = bd_total_blocks (device s)) by (rewrite Es'; apply C).
  split; cbn [objects device inode_bitmap inode_cache next_object root superblock set_objects].
  - by rewrite Es'.
  - done.
  - split.
    + apply DiskInode_ok_direct; [apply F|by rewrite length_insert|].
      apply Forall_insert; [apply (fo_disk _ _ F)|]. unfold u64_ok, b, DATA_BLOCKS_START. lia.
    + apply F.
    + intros x Hx Hne. apply Hpts' in Hx; [|done].
      assert (data_block s x ∨ x = b) as Hx' by (destruct Hx; [by right|left; by apply (fo_blocks _ _ F)]).
      change (data_block s' x). unfold data_block, on_device. rewrite Hmb, Htot.
      destruct Hx' as [(Hr1 & Hu1 & Hd1)| ->].
      * split; [done|]. split; [|done]. apply Huse; [lia|by right].
      * split; [unfold b; lia|]. split; [|done]. apply Huse; [unfold b; lia|by left].
    + intros k l Hk Hl' Hkl. unfold c'. rewrite !ptr_insert by done. intros Hne Heq.
      destruct (decide (k = j)) as [Ekj|Nkj], (decide (l = j)) as [Elj|Nlj].
      * apply Hkl. congruence.
      * apply Hnot. by exists l.
      * apply Hnot. by exists k.
      * by apply (fo_distinct _ _ F k l).
  - intros x Hx. assert (x ≠ 0) by (unfold DATA_BLOCKS_START in Hx; lia).
    rewrite Hpts' by done. unfold in_use at 1. cbn [data_bitmap set_objects]. fold (in_use s' x). rewrite Huse by done.
    split.
    + intros [->|Hu]; [right; by left|]. destruct (decide (points c x)); [right; by right|by left].
    + intros [[Hu _]|[->|Hp']]; [by right|by left|right; by apply (points_in_use s c)].
  - intros x Hx Hne. apply Hpts' in Hx as [->|]; [|by left|done]. right. unfold in_use. rewrite Hbb. congruence.
  - eapply fs_wf_same; [exact Wf'| | | |]; done.
  - eapply disk_synced_same; [exact S'| | | |]; done.
  - rewrite Es'. cbn. eapply changed_mono; [|exact C]. intros; by left.
  - rewrite Es'. done.
Qed.

Lemma file_ok_same s s' c :
  file_ok s c → max_blocks s' = max_blocks s → data_bitmap s' = data_bitmap s →
  bd_total_blocks (device s') = bd_total_blocks (device s) → file_ok s' c.
Proof using Type.
  intros [? ? Hb ?] Em Ed Et. split; try done. intros b Hp Hne.
  unfold data_block, in_use, on_device. rewrite Em, Ed, Et. by apply Hb.
Qed.

(** Writing blocks of the data area leaves the metadata in agreement. *)
Lemma disk_synced_device P s d :
  disk_synced s → changed P (device s) d → (∀ b, P b → INODE_TABLE_START ≤ b) → disk_synced (set_device d s).
Proof using Type.
  intros [Hs Hi Hd] [_ C] HP. unfold INODE_TABLE_START in HP.
  split; cbn [superblock inode_bitmap data_bitmap device set_device];
    unfold superblock_on_disk, inode_bitmap_on_disk, data_bitmap_on_disk, bitmap_on_disk in *;
    unfold SUPERBLOCK_BLOCK, INODE_BITMAP_START, INODE_BITMAP_BLOCKS, DATA_BITMAP_START, DATA_BITMAP_BLOCKS in *.
  - rewrite C; [done|unfold block_ok; lia|]. intros Hb%HP. lia.
  - intros i Hr. rewrite C; [by apply Hi|unfold block_ok; lia|]. intros Hb%HP. lia.
  - intros i Hr. rewrite C; [by apply Hd|unfold block_ok; lia|]. intros Hb%HP. lia.
Qed.

Lemma ptr_block s c j :
  file_ok s c → fs_wf s → 0 ≤ j < DIRECT_BLOCKS → ptr c j ≠ 0 → data_block s (ptr c j) ∧ block_ok (ptr c j).
Proof.
  intros F Wf Hj Hne. assert (data_block s (ptr c j)) as Hd by (apply (fo_blocks _ _ F); [by exists j|done]).
  split; [done|]. destruct Hd as (Hr & _). pose proof (max_blocks_bound s Wf).
  unfold block_ok, DATA_BLOCKS_START in *. lia.
Qed.

Lemma write_step o c s j buf :
  objects s !! o = Some c → file_ok s c → fs_wf s → disk_synced s → 0 ≤ j < DIRECT_BLOCKS →
  ptr c j ≠ 0 → is_block buf →
  ∃ d', write_block (ptr c j) buf s = (Ok tt, set_device d' s) ∧ disk_read d' (ptr c j) = Ok buf ∧
    room (set_device d' s) = room s ∧
    rewired (λ b, b = ptr c j) o c s c (set_device d' s).
Proof.
  intros Ho F Wf S Hj Hne Hbuf. destruct (ptr_block s c j F Wf Hj Hne) as [(Hr & _ & Hdev) Hok].
  destruct (write_block_ok (ptr c j) buf s Hok Hbuf Hdev) as (d' & E & Er & C).
  exists d'. split; [done|]. split; [done|]. split.
  { unfold room, device_blocks. cbn [device set_device]. by rewrite (proj1 C). }
  destruct (rewired_refl o c s Ho F Wf S) as [O N F' B P _ _ _ R]. split; try done.
  - eapply file_ok_same; [exact F|done|done|apply C].
  - apply fs_wf_device; [done|]. eapply changed_metadata; [exact C|apply Wf].
  - eapply disk_synced_device; [exact S|exact C|]. unfold INODE_TABLE_START, DATA_BLOCKS_START in *. simpl. lia.
  - eapply changed_mono; [|exact C]. auto.
Qed.

Lemma in_use_clear s s' b x :
  data_bitmap s' = clear_bit (b - DATA_BLOCKS_START) (data_bitmap s) → DATA_BLOCKS_START ≤ b →
  DATA_BLOCKS_START ≤ x → in_use s' x ↔ x ≠ b ∧ in_use s x.
Proof using Type.
  intros E Hb Hx. unfold in_use. rewrite E, get_clear_bit by lia.
  rewrite andb_true_iff, negb_true_iff, bool_decide_eq_false. split; intros [? ?]; (split; [lia|done]).
Qed.

(** Dropping a block of the file. *)
Lemma release_step o c s j :
  objects s !! o = Some c → file_ok s c → fs_wf s → disk_synced s → 0 ≤ j < DIRECT_BLOCKS → ptr c j ≠ 0 →
  ∃ s1, release_block o j s = (Ok tt, s1) ∧
    rewired (λ _, False) o c s (with_direct (<[Z.to_nat j := 0]> (direct (ci_disk c))) c) s1.
Proof.
  intros Ho F Wf S Hj Hne. pose proof (file_ok_length _ _ F) as Hl.
  destruct (ptr_block s c j F Wf Hj Hne) as [(Hr & Hu & Hdev) Hok].
  pose proof (free_block_result s (ptr c j) Wf Hr) as R. unfold in_use in Hu. rewrite Hu in R.
  destruct R as (s' & E & Hnow & _ & Wf'). pose proof (disk_synced_data _ _ _ S Hnow) as S'.
  destruct Hnow as (d' & Es' & _ & _ & C).
  assert (Hobj : objects s' !! o = Some c) by (by rewrite Es').
  set (c' := with_direct (<[Z.to_nat j := 0]> (direct (ci_disk c))) c).
  exists (set_objects (<[o := c']> (objects s')) s'). split.
  { unfold release_block. rewrite (get_obj_run _ c) by done. change (direct_at (ci_disk c) j) with (ptr c j).
    rewrite (proj2 (Z.eqb_neq _ _)) by done. cbn [negb].
    rewrite (M_bind_run _ _ _ tt s') by (unfold m_ignore; by rewrite E).
    unfold upd_obj, m_modify. by rewrite (alter_at _ _ o c). }
  assert (Huse : ∀ x, DATA_BLOCKS_START ≤ x → in_use s' x ↔ x ≠ ptr c j ∧ in_use s x).
  { intros x Hx. apply (in_use_clear s s'); [by rewrite Es'|lia|done]. }
  assert (Hpts : ∀ x, x ≠ 0 → points c' x ↔ x ≠ ptr c j ∧ points c x).
  { intros x Hx. unfold c'. rewrite points_insert by done. split.
    - intros [?|(k & Hk & Hkj & <-)]; [done|]. split; [by apply (fo_distinct _ _ F)|by exists k].
    - intros [Hxj (k & Hk & <-)]. right. exists k. split; [done|]. split; [congruence|done]. }
  assert (Hmb : max_blocks s' = max_blocks s) by (by rewrite Es').
  assert (Htot : bd_total_blocks (device s') = bd_total_blocks (device s)) by (rewrite Es'; apply C).
  split; cbn [objects device inode_bitmap inode_cache next_object root superblock set_objects].
  - by rewrite Es'.
  - done.
  - split.
    + apply DiskInode_ok_direct; [apply F|by rewrite length_insert|].
      apply Forall_insert; [apply (fo_disk _ _ F)|]. unfold u64_ok. lia.
    + apply F.
    + intros x Hx Hx0. apply Hpts in Hx as [Hxj Hx]; [|done].
      destruct (fo_blocks _ _ F x Hx Hx0) as (Hr1 & Hu1 & Hd1).
      change (data_block s' x). unfold data_block, on_device. rewrite Hmb, Htot.
      split; [done|]. split; [|done]. apply Huse; [lia|done].
    + intros k l Hk Hl' Hkl. unfold c'. rewrite !ptr_insert by done. intros Hk0 Heq.
      destruct (decide (k = j)) as [Ekj|Nkj], (decide (l = j)) as [Elj|Nlj]; try done.
      by apply (fo_distinct _ _ F k l).
  - intros x Hx. assert (x ≠ 0) by (unfold DATA_BLOCKS_START in Hx; lia).
    fold c'. rewrite Hpts by done. unfold in_use at 1. cbn [data_bitmap set_objects]. fold (in_use s' x).
    rewrite Huse by done. split.
    + intros [Hxj Hux]. destruct (decide (points c x)); [by right|by left].
    + intros [[Hux Hpx]|[Hxj Hpx]]; [split; [|done]|split; [done|by apply (points_in_use s c)]].
      intros ->. apply Hpx. by exists j.
  - intros x Hx Hx0. apply Hpts in Hx as [_ Hx]; [by left|done].
  - eapply fs_wf_same; [exact Wf'| | | |]; done.
  - eapply disk_synced_same; [exact S'| | | |]; done.
  - rewrite Es'. cbn. eapply changed_mono; [|exact C]. intros; by left.
  - rewrite Es'. done.
Qed.

(** ** The loops *)

Lemma chunk_block data i :
  is_bytes data → 0 ≤ i < blocks_for (len data) → is_block (chunk data i).
Proof using Type.
  unfold blocks_for, BLOCK_SIZE, chunk. intros Hb Hi. pose proof (len_nonneg data).
  assert (i * 4096 < len data) by zdiv. change BLOCK_SIZE with 4096. split.
  - rewrite len_splice; [by apply len_zeros|done|].
    rewrite len_slice by lia. rewrite len_zeros by done. lia.
  - auto with cotton.
Qed.

(** A block the file system owns, read after an update that did not write it. *)
Lemma read_data_block W s s' c j :
  file_ok s c → fs_wf s → 0 ≤ j < DIRECT_BLOCKS → ptr c j ≠ 0 → ¬ W (ptr c j) →
  changed (λ b, data_metadata b ∨ W b) (device s) (device s') →
  disk_read (device s') (ptr c j) = disk_read (device s) (ptr c j).
Proof.
  intros F Wf Hj Hne HW [_ C]. destruct (ptr_block s c j F Wf Hj Hne) as [(Hr & _) Hok].
  apply C; [done|]. intros [Hm|Hw]; [|done].
  unfold data_metadata, SUPERBLOCK_BLOCK, DATA_BITMAP_START, DATA_BITMAP_BLOCKS, DATA_BLOCKS_START in *. lia.
Qed.

(** What holds after the first [i] blocks of the data were saved. *)
Record saving (data : list Z) (n i : Z) o c s c' s' : Prop := mk_saving {
  sv_rewired : rewired (λ b, ∃ j, 0 ≤ j < i ∧ b = ptr c' j) o c s c' s';
  sv_blocks : ∀ j, 0 ≤ j < i → ptr c' j ≠ 0 ∧ disk_read (device s') (ptr c' j) = Ok (chunk data j);
  sv_kept : ∀ j, 0 ≤ j < DIRECT_BLOCKS → i ≤ j ∨ ptr c j ≠ 0 → ptr c' j = ptr c j;
  sv_fresh : ∀ j, 0 ≤ j < i → ptr c j = 0 → ¬ in_use s (ptr c' j);
  sv_room : missing c i n ≤ room s';
}.

(** Writing the block once the file has one. *)
Lemma save_block_tail data n i o c s c1 s1 :
  rewired (λ b, ∃ j, 0 ≤ j < i ∧ b = ptr c1 j) o c s c1 s1 →
  (∀ j, 0 ≤ j < i → ptr c1 j ≠ 0 ∧ disk_read (device s1) (ptr c1 j) = Ok (chunk data j)) →
  (∀ j, 0 ≤ j < DIRECT_BLOCKS → i + 1 ≤ j ∨ ptr c j ≠ 0 → ptr c1 j = ptr c j) →
  (∀ j, 0 ≤ j < i + 1 → ptr c j = 0 → ¬ in_use s (ptr c1 j)) →
  missing c (i + 1) n ≤ room s1 →
  0 ≤ i < DIRECT_BLOCKS → ptr c1 i ≠ 0 → is_block (chunk data i) →
  ∃ s2, write_block (ptr c1 i) (chunk data i) s1 = (Ok tt, s2) ∧ saving data n (i + 1) o c s c1 s2.
Proof.
  intros R Hbl Hk Hfr Hroom Hi Hne Hchunk.
  assert (objects s1 !! o = Some c1) as Ho by (rewrite (rw_objects _ _ _ _ _ _ R); apply lookup_insert_eq).
  pose proof (rw_file _ _ _ _ _ _ R) as F. pose proof (rw_wf _ _ _ _ _ _ R) as Wf.
  destruct (write_step o c1 s1 i (chunk data i) Ho F Wf (rw_synced _ _ _ _ _ _ R) Hi Hne Hchunk)
    as (d' & E & Er & Hr & R').
  exists (set_device d' s1). split; [done|]. split.
  - eapply rewired_trans; [exact R|exact R'| |]; simpl.
    + intros b (j & Hj & ->). exists j. split; [lia|done].
    + intros b ->. exists i. split; [lia|done].
  - intros j Hj. destruct (decide (j = i)) as [->|Hji]; [done|].
    destruct (Hbl j ltac:(lia)) as [Hn0 Hread]. split; [done|]. rewrite <- Hread.
    eapply read_data_block; [exact F|exact Wf|lia|done| |exact (rw_changed _ _ _ _ _ _ R')].
    simpl. apply (fo_distinct _ _ F); [lia|done|done|done].
  - done.
  - done.
  - by rewrite Hr.
Qed.

(** Saving gives no block back. *)
Lemma saving_in_use c s c' s' o W i b :
  rewired W o c s c' s' → (∀ j, 0 ≤ j < DIRECT_BLOCKS → i ≤ j ∨ ptr c j ≠ 0 → ptr c' j = ptr c j) →
  file_ok s' c' → b ≠ 0 → DATA_BLOCKS_START ≤ b → in_use s b → in_use s' b.
Proof using Type.
  intros R Hk F Hb Hd Hu. apply (rw_bits _ _ _ _ _ _ R b Hd).
  destruct (decide (points c b)) as [(j & Hj & E)|]; [right|by left].
  exists j. split; [done|]. rewrite Hk; [done|done|right; congruence].
Qed.

Lemma save_block_step data n i o c s c' s' :
  saving data n i o c s c' s' → 0 ≤ i < n → n ≤ DIRECT_BLOCKS → is_block (chunk data i) →
  ∃ c2 s2, save_block o data i s' = (Ok tt, s2) ∧ saving data n (i + 1) o c s c2 s2.
Proof.
  intros [R Hbl Hk Hfr Hroom] Hi Hn Hchunk. assert (0 ≤ i < DIRECT_BLOCKS) as Hi' by lia.
  assert (objects s' !! o = Some c') as Ho by (rewrite (rw_objects _ _ _ _ _ _ R); apply lookup_insert_eq).
  pose proof (rw_file _ _ _ _ _ _ R) as F. pose proof (rw_wf _ _ _ _ _ _ R) as Wf.
  assert (ptr c' i = ptr c i) as Ei by (apply Hk; lia).
  unfold missing in *. rewrite count_range_step in Hroom by lia. rewrite <- Ei in Hroom.
  unfold save_block. rewrite (get_obj_run _ c') by done. change (direct_at (ci_disk c') i) with (ptr c' i).
  revert Hroom. destruct (Z.eqb_spec (ptr c' i) 0) as [E0|Hne]; intros Hroom.
  - pose proof (count_range_bounds (i + 1) n (λ j, ptr c j =? 0) ltac:(lia)).
    destruct (alloc_step o c' s' i Ho F Wf (rw_synced _ _ _ _ _ _ R) Hi' E0 ltac:(lia)) as (b & s1 & E & Hb & Hr & Hnu & R1).
    set (c1 := with_direct (<[Z.to_nat i := b]> (direct (ci_disk c'))) c') in *.
    assert (∀ j, 0 ≤ j < DIRECT_BLOCKS → ptr c1 j = if decide (j = i) then b else ptr c' j) as Hp1.
    { intros j Hj. apply ptr_insert; [by eapply file_ok_length|done|done]. }
    assert (ptr c1 i = b) as Ep by (by rewrite Hp1, decide_True).
    destruct (save_block_tail data n i o c s c1 s1) as (s2 & E2 & Sv); [| | | |unfold missing; lia|done|by rewrite Ep|done|].
    + eapply rewired_trans; [exact R|exact R1| |]; simpl; [|done].
      intros x (j & Hj & ->). exists j. split; [done|]. by rewrite Hp1, decide_False by lia.
    + intros j Hj. rewrite Hp1, decide_False by lia. destruct (Hbl j Hj) as [Hn0 <-]. split; [done|].
      eapply read_data_block; [exact F|exact Wf|lia|done| |exact (rw_changed _ _ _ _ _ _ R1)]. auto.
    + intros j Hj Hor. rewrite Hp1 by done. case_decide as Hji; [subst j; lia|]. apply Hk; [done|]. lia.
    + intros j Hj Hz. rewrite Hp1 by lia. case_decide as Hji; [|apply Hfr; [lia|done]]. subst j.
      intros Hu. apply Hnu. eapply (saving_in_use c s c' s' o); [exact R|exact Hk|done|done| |done].
      destruct (fo_blocks _ _ (rw_file _ _ _ _ _ _ R1) b) as [? _]; [exists i; by rewrite Ep|done|lia].
    + exists c1, s2. split; [|done]. rewrite (M_bind_run _ _ _ _ _ E).
      rewrite (get_obj_run _ c1). { exact E2. }
      rewrite (rw_objects _ _ _ _ _ _ R1). apply lookup_insert_eq.
  - destruct (save_block_tail data n i o c s c' s') as (s2 & E2 & Sv); try done.
    + intros j Hj [|]; apply Hk; auto; lia.
    + intros j Hj Hz. destruct (decide (j = i)) as [->|]; [congruence|]. apply Hfr; [lia|done].
    + exists c', s2. split; [|done]. rewrite M_ret_run. by rewrite (get_obj_run _ c').
Qed.

(** The loop that saves the blocks. *)
Lemma save_blocks_ok data o c s n :
  objects s !! o = Some c → file_ok s c → fs_wf s → disk_synced s → is_bytes data →
  0 ≤ n ≤ blocks_for (len data) → n ≤ DIRECT_BLOCKS → missing c 0 n ≤ room s →
  ∃ c' s', for_m 0 n (save_block o data) s = (Ok tt, s') ∧ saving data n n o c s c' s'.
Proof.
  intros Ho F Wf S Hb Hn Hn' Hroom.
  destruct (for_m_ok (λ i s', ∃ c', saving data n i o c s c' s') (save_block o data) 0 n s)
    as (s' & E & c' & Sv); [lia| | |by exists c', s'].
  - exists c. split; [|lia|done|lia|done]. eapply rewired_trans; [by apply rewired_refl|by apply rewired_refl| |]; done.
  - intros i s' Hi (c' & Sv). destruct (save_block_step data n i o c s c' s') as (c2 & s2 & E & Sv2);
      [done|done|done|apply chunk_block; [done|lia]|]. exists s2. split; [done|]. by exists c2.
Qed.

(** The loop that drops the blocks beyond the data. *)
Lemma release_blocks_ok o c s nb :
  objects s !! o = Some c → file_ok s c → fs_wf s → disk_synced s → 0 ≤ nb →
  ∃ c' s', for_m nb DIRECT_BLOCKS (release_block o) s = (Ok tt, s') ∧
    rewired (λ _, False) o c s c' s' ∧
    ∀ j, 0 ≤ j < DIRECT_BLOCKS → ptr c' j = if decide (nb ≤ j) then 0 else ptr c j.
Proof.
  intros Ho F Wf S Hnb. destruct (Z.le_gt_cases nb DIRECT_BLOCKS) as [Hle|Hgt].
  2:{ exists c, s. rewrite for_m_empty by lia. split; [done|]. split; [by apply rewired_refl|].
      intros j Hj. by rewrite decide_False by lia. }
  destruct (for_m_ok (λ i s', ∃ c', rewired (λ _, False) o c s c' s' ∧
      ∀ j, 0 ≤ j < DIRECT_BLOCKS → ptr c' j = if decide (nb ≤ j < i) then 0 else ptr c j)
    (release_block o) nb DIRECT_BLOCKS s Hle) as (s' & E & c' & R & Hp).
  - exists c. split; [by apply rewired_refl|]. intros j Hj. by rewrite decide_False by lia.
  - intros i s' Hi (c' & R & Hp). assert (0 ≤ i < DIRECT_BLOCKS) as Hi' by lia.
    assert (objects s' !! o = Some c') as Ho' by (rewrite (rw_objects _ _ _ _ _ _ R); apply lookup_insert_eq).
    destruct (decide (ptr c' i = 0)) as [E0|Hne].
    + exists s'. split.
      { unfold release_block. rewrite (get_obj_run _ c') by done. change (direct_at (ci_disk c') i) with (ptr c' i).
        by rewrite E0. }
      exists c'. split; [done|]. intros j Hj. destruct (decide (j = i)) as [->|Hji].
      * rewrite decide_True by lia. done.
      * rewrite Hp by done. repeat case_decide; try lia; done.
    + destruct (release_step o c' s' i Ho' (rw_file _ _ _ _ _ _ R) (rw_wf _ _ _ _ _ _ R)
        (rw_synced _ _ _ _ _ _ R) Hi' Hne) as (s1 & E1 & R1).
      exists s1. split; [done|]. eexists. split; [eapply rewired_trans; [exact R|exact R1| |]; done|].
      intros j Hj. rewrite ptr_insert; [|by eapply file_ok_length, R|done|done].
      rewrite Hp by done. repeat case_decide; try lia; done.
  - exists c', s'. split; [done|]. split; [done|]. intros j Hj. rewrite Hp by done. repeat case_decide; lia || done.
Qed.

End Steps.
