(* ===== verification/CottonData.v ===== *)
(** * CottonFS: saving, reading and writing files

    [save_file_data] stores the cached data of an inode ([stored]); [read],
    [write] and [truncate] refine operations on the byte string the inode stands
    for ([contents]). *)

From S2P Require Import Prelude Bytes Vfs Storage DiskLayout CottonFS CottonMeta CottonInodes CottonMount CottonFile.

#[local] Set Default Proof Using "Type*".

(** ** Specification vocabulary *)

Section Spec.
Context {D : Type} `{BlockDevice D}.
Implicit Types (d : D) (s : FS D).

(** The device holds the data of the inode: its size, the blocks with the data
    (twelve at most), no others, and the inode in its slot. *)
Record stored s (c : CottonInode) (data : list Z) : Prop := mk_stored {
  st_size : di_size (ci_disk c) = len data;
  st_blocks : ∀ j, 0 ≤ j < saved_blocks data →
    ptr c j ≠ 0 ∧ disk_read (device s) (ptr c j) = Ok (chunk data j);
  st_holes : ∀ j, saved_blocks data ≤ j < DIRECT_BLOCKS → ptr c j = 0;
  st_slot : disk_slot (device s) (ci_ino c) = Ok (slot_part (ci_disk c));
}.

(** What an update of object [o] from [c] to [c'] leaves alone: the other
    objects, the other slots, and every block that is neither the file's nor
    metadata. *)
Record updated (o : Z) (c : CottonInode) s (c' : CottonInode) s' : Prop := mk_updated {
  up_objects : objects s' = <[o := c']> (objects s);
  up_inode : ci_ino c' = ci_ino c ∧ ci_file_type c' = ci_file_type c ∧
    ∃ l, ci_disk c' = set_size_blocks (di_size (ci_disk c')) (di_blocks (ci_disk c')) (set_direct l (ci_disk c));
  up_file : file_ok s' c';
  up_bits : ∀ b, DATA_BLOCKS_START ≤ b → in_use s' b ↔ (in_use s b ∧ ¬ points c b) ∨ points c' b;
  up_kept : ∀ j, 0 ≤ j < DIRECT_BLOCKS → ptr c j ≠ 0 → ptr c' j = ptr c j ∨ ptr c' j = 0;
  up_fresh : ∀ j, 0 ≤ j < DIRECT_BLOCKS → ptr c j = 0 → ptr c' j = 0 ∨ ¬ in_use s (ptr c' j);
  up_wf : fs_wf s';
  up_synced : disk_synced s';
  up_changed : changed (λ b, data_metadata b ∨ b = inode_block (ci_ino c) ∨ (b ≠ 0 ∧ points c' b))
    (device s) (device s');
  up_slots : ∀ ino, ino_ok ino → ino ≠ ci_ino c → disk_slot (device s') ino = disk_slot (device s) ino;
  up_rest : inode_bitmap s' = inode_bitmap s ∧ inode_cache s' = inode_cache s ∧
    next_object s' = next_object s ∧ root s' = root s ∧
    superblock s' = upd_free_blocks (free_blocks (superblock s')) (superblock s);
}.

End Spec.

Lemma ptr_size_blocks n m c j : ptr (set_ci_disk (set_size_blocks n m (ci_disk c)) c) j = ptr c j.
Proof. done. Qed.

Lemma DiskInode_ok_size n m di :
  DiskInode_ok di → u64_ok n → u64_ok m → DiskInode_ok (set_size_blocks n m di).
Proof. unfold DiskInode_ok. cbn. tauto. Qed.

Lemma blocks_for_bounds n : 0 ≤ n < 2 ^ 63 → 0 ≤ blocks_for n ≤ n ∧ u64_ok (blocks_for n) ∧ u64_ok n.
Proof. unfold blocks_for, BLOCK_SIZE, u64_ok. intros. assert (0 ≤ (n + 4096 - 1) / 4096 ≤ n) by zdiv. lia. Qed.

Section Save.
Context {D : Type} `{BlockDeviceLaws D, !ReliableDevice D}.
Implicit Types (d : D) (s : FS D).

(** [store_inode] on an inode whose pointers are settled. *)
Lemma store_inode_ok o c s data :
  objects s !! o = Some c → file_ok s c → fs_wf s → disk_synced s → len data < 2 ^ 63 →
  ∃ d' c', store_inode o data s = (Ok tt, set_device d' (set_objects (<[o := c']> (objects s)) s)) ∧
    c' = set_dirty 0 (set_ci_disk (set_size_blocks (len data) (blocks_for (len data)) (ci_disk c)) c) ∧
    changed (λ b, b = inode_block (ci_ino c)) (device s) d' ∧
    disk_slot d' (ci_ino c) = Ok (slot_part (ci_disk c')) ∧
    (∀ ino, ino_ok ino → ino ≠ ci_ino c → disk_slot d' ino = disk_slot (device s) ino).
Proof.
  intros Ho F Wf S Hlen. pose proof (len_nonneg data).
  destruct (blocks_for_bounds (len data)) as (_ & Hnb & Hn); [lia|].
  set (c1 := set_ci_disk (set_size_blocks (len data) (blocks_for (len data)) (ci_disk c)) c).
  set (s1 := set_objects (<[o := c1]> (objects s)) s).
  destruct (write_disk_inode_slots s1 (ci_ino c1) (ci_disk c1)) as (d' & E & C & Hs & Hother).
  { apply DiskInode_ok_size; [apply F|done|done]. } { apply F. } { apply Wf. }
  exists d', (set_dirty 0 c1). split; [|done].
  unfold store_inode. rewrite (upd_obj_run _ _ c) by done. fold c1 s1.
  assert (objects s1 !! o = Some c1) as Ho1 by apply lookup_insert_eq.
  rewrite (get_obj_run _ c1) by done. rewrite (M_bind_run _ _ _ _ _ E).
  unfold upd_obj, m_modify. rewrite (alter_at _ _ o c1) by done.
  unfold s1. cbn. rewrite insert_insert_eq. reflexivity.
Qed.

(** Both save functions after their loops. *)
Lemma saved_updated W o c s c2 s2 data :
  rewired W o c s c2 s2 → objects s !! o = Some c → len data < 2 ^ 63 →
  (∀ b, W b → b ≠ 0 ∧ points c2 b) →
  (∀ j, 0 ≤ j < saved_blocks data → ptr c2 j ≠ 0 ∧ disk_read (device s2) (ptr c2 j) = Ok (chunk data j)) →
  (∀ j, saved_blocks data ≤ j < DIRECT_BLOCKS → ptr c2 j = 0) →
  (∀ j, 0 ≤ j < DIRECT_BLOCKS → ptr c j ≠ 0 → ptr c2 j = ptr c j ∨ ptr c2 j = 0) →
  (∀ j, 0 ≤ j < DIRECT_BLOCKS → ptr c j = 0 → ptr c2 j = 0 ∨ ¬ in_use s (ptr c2 j)) →
  ∃ c' s', store_inode o data s2 = (Ok tt, s') ∧ updated o c s c' s' ∧ stored s' c' data ∧
    c' = set_dirty 0 (set_ci_disk (ci_disk c') c).
Proof.
  intros R Ho Hlen HW Hbl Hholes Hkept Hfresh. destruct R as [O N F B P Wf S C (E1&E2&E3&E4&E5)].
  assert (objects s2 !! o = Some c2) as Ho2 by (rewrite O; apply lookup_insert_eq).
  destruct (store_inode_ok o c2 s2 data Ho2 F Wf S Hlen) as (d' & c' & E & Ec & C' & Hslot & Hother).
  assert (ci_ino c2 = ci_ino c) as Ei by (by rewrite N).
  assert (ino_ok (ci_ino c2)) as Hino by apply F.
  pose proof (inode_block_range _ Hino) as Hib. pose proof (blocks_for_bounds (len data)) as Hbf.
  pose proof (len_nonneg data).
  assert (∀ b, W b → DATA_BLOCKS_START ≤ b) as HW'.
  { intros b Hb. destruct (HW b Hb) as [Hne Hp]. destruct (fo_blocks _ _ F b Hp Hne) as [? _]. lia. }
  assert (∀ j, ptr c' j = ptr c2 j) as Hptr by (intros j; by rewrite Ec).
  assert (∀ b, points c' b ↔ points c2 b) as Hpts by (intros b; unfold points; by setoid_rewrite Hptr).
  eexists c', _. split; [exact E|]. split; [|split].
  - split; cbn [objects device inode_bitmap inode_cache next_object root superblock set_objects set_device].
    + by rewrite O, insert_insert_eq.
    + split; [by rewrite Ec|]. split; [by rewrite Ec, N|]. exists (direct (ci_disk c2)).
      rewrite Ec, N. done.
    + eapply (file_ok_same s2); [|done|done|apply C']. destruct F as [? ? Hb Hd]. rewrite Ec. split; try done.
      apply DiskInode_ok_size; [done|apply Hbf; lia..].
    + intros b Hb. change (in_use (set_device d' (set_objects (<[o:=c']> (objects s2)) s2)) b) with (in_use s2 b).
      rewrite Hpts. by apply B.
    + intros j. rewrite Hptr. apply Hkept.
    + intros j. rewrite Hptr. apply Hfresh.
    + apply fs_wf_device; [by apply (fs_wf_same s2)|]. eapply changed_metadata; [exact C'|apply Wf].
    + eapply disk_synced_device; [by apply (disk_synced_same s2)|exact C'|]. simpl. lia.
    + eapply changed_trans; (eapply changed_mono; [|eassumption]); simpl.
      * intros b [|Hb]; [by left|]. right. right. rewrite Hpts. by apply HW.
      * intros b ->. right. left. by rewrite Ei.
    + intros ino Hi Hne. rewrite Hother by (done || congruence). apply (disk_slot_frame _ _ _ _ C); [done|].
      pose proof (inode_block_range _ Hi). intros [Hm|Hw%HW']; [|lia].
      unfold data_metadata, SUPERBLOCK_BLOCK, DATA_BITMAP_START, DATA_BITMAP_BLOCKS, INODE_TABLE_START in *. lia.
    + done.
  - split; cbn [device set_device].
    + by rewrite Ec.
    + intros j Hj. rewrite Hptr. destruct (Hbl j Hj) as [Hne <-]. split; [done|].
      assert (0 ≤ j < DIRECT_BLOCKS) as Hj' by (unfold saved_blocks in Hj; lia).
      destruct (ptr_block s2 c2 j F Wf Hj' Hne) as [(Hr & _) Hok]. apply C'; [done|]. lia.
    + intros j Hj. rewrite Hptr. by apply Hholes.
    + assert (ci_ino c' = ci_ino c2) as -> by (by rewrite Ec). exact Hslot.
  - rewrite Ec, N. done.
Qed.

(** [save_file_data], while the device has room for the blocks to allocate. *)
Lemma save_file_data_ok o c s data :
  objects s !! o = Some c → ci_file_type c = Regular → file_data c = Some data →
  file_ok s c → fs_wf s → disk_synced s → is_bytes data → len data < 2 ^ 63 →
  missing c 0 (saved_blocks data) ≤ room s →
  ∃ c' s', save_file_data o s = (Ok tt, s') ∧ updated o c s c' s' ∧ stored s' c' data ∧
    c' = set_dirty 0 (set_ci_disk (ci_disk c') c).
Proof.
  intros Ho Ht Hfd F Wf S Hb Hlen Hroom. pose proof (len_nonneg data).
  destruct (blocks_for_bounds (len data)) as (Hbf & _); [lia|].
  assert (0 ≤ saved_blocks data ≤ blocks_for (len data) ∧ saved_blocks data ≤ DIRECT_BLOCKS) as [Hn Hn'].
  { unfold saved_blocks, DIRECT_BLOCKS. lia. }
  destruct (save_blocks_ok data o c s (saved_blocks data) Ho F Wf S Hb Hn Hn' Hroom) as (c1 & s1 & E1 & [R1 Hbl Hk Hfr _]).
  assert (objects s1 !! o = Some c1) as Ho1 by (rewrite (rw_objects _ _ _ _ _ _ R1); apply lookup_insert_eq).
  destruct (release_blocks_ok o c1 s1 (blocks_for (len data)) Ho1 (rw_file _ _ _ _ _ _ R1)
    (rw_wf _ _ _ _ _ _ R1) (rw_synced _ _ _ _ _ _ R1)) as (c2 & s2 & E2 & R2 & Hp); [lia|].
  assert (∀ j, 0 ≤ j < saved_blocks data → ptr c2 j = ptr c1 j) as Hlow.
  { intros j Hj. unfold saved_blocks in Hj. rewrite Hp by lia. by rewrite decide_False by lia. }
  destruct (saved_updated (λ b, ∃ j, 0 ≤ j < saved_blocks data ∧ b = ptr c1 j) o c s c2 s2 data)
    as (c' & s' & E & U & St & Ec); try done.
  - eapply rewired_trans; [exact R1|exact R2| |]; done.
  - intros b (j & Hj & ->). destruct (Hbl j Hj) as [Hne _]. split; [done|]. exists j.
    split; [lia|]. by apply Hlow.
  - intros j Hj. rewrite Hlow by done. destruct (Hbl j Hj) as [Hne <-]. split; [done|].
    eapply read_data_block; [exact (rw_file _ _ _ _ _ _ R1)|exact (rw_wf _ _ _ _ _ _ R1)|lia|done| |
      exact (rw_changed _ _ _ _ _ _ R2)]. auto.
  - intros j Hj. assert (blocks_for (len data) ≤ j) by (unfold saved_blocks in Hj; lia).
    rewrite Hp by lia. by rewrite decide_True.
  - intros j Hj Hne. rewrite Hp by done. case_decide; [by right|left]. apply Hk; auto.
  - intros j Hj Hz. rewrite Hp by done. case_decide as Hnb; [by left|]. right. apply Hfr; [|done].
    unfold saved_blocks. lia.
  - exists c', s'. split; [|done]. unfold save_file_data. rewrite (get_obj_run _ c) by done.
    rewrite M_guard_run by (by rewrite Ht). rewrite Hfd. cbn [ok_or]. rewrite M_lift_run.
    cbv zeta. fold (saved_blocks data). rewrite (M_bind_run _ _ _ _ _ E1). by rewrite (M_bind_run _ _ _ _ _ E2).
Qed.

End Save.

(** ** Loading *)

Definition FILE_MAX : Z := DIRECT_BLOCKS * BLOCK_SIZE.

Lemma take_chunk data j :
  0 ≤ j → j * BLOCK_SIZE < len data →
  take (Z.to_nat (Z.min (len data - j * BLOCK_SIZE) BLOCK_SIZE)) (chunk data j) =
  take (Z.to_nat BLOCK_SIZE) (drop (Z.to_nat (j * BLOCK_SIZE)) data).
Proof.
  intros Hj Hlt. unfold chunk, splice. change (Z.to_nat 0) with 0%nat. rewrite take_0, app_nil_l. unfold slice.
  set (off := j * BLOCK_SIZE) in *. assert (0 ≤ off) by (unfold off, BLOCK_SIZE; lia).
  replace (Z.min (off + BLOCK_SIZE) (len data) - off) with (Z.min (len data - off) BLOCK_SIZE) by lia.
  assert (length (drop (Z.to_nat off) data) = Z.to_nat (len data - off)) as Hl.
  { rewrite length_drop. unfold len. lia. }
  unfold BLOCK_SIZE in *. rewrite take_app_length' by (rewrite length_take, Hl; lia).
  destruct (Z.le_gt_cases (len data - off) 4096).
  - rewrite Z.min_l by lia. rewrite !take_ge by lia. done.
  - by rewrite Z.min_r by lia.
Qed.

Section Load.
Context {D : Type} `{BlockDeviceLaws D, !ReliableDevice D}.
Implicit Types (d : D) (s : FS D).

(** Reading the blocks of the data from block [k] on. *)
Lemma read_file_blocks_ok s data l : ∀ k,
  0 ≤ k →
  (∀ i, (i < length l)%nat → k + Z.of_nat i < blocks_for (len data) →
    default 0 (l !! i) ≠ 0 ∧ disk_read (device s) (default 0 (l !! i)) = Ok (chunk data (k + Z.of_nat i))) →
  read_file_blocks l (sat_sub (len data) (k * BLOCK_SIZE)) s =
    (Ok (take (Z.to_nat (len l * BLOCK_SIZE)) (drop (Z.to_nat (k * BLOCK_SIZE)) data)), s).
Proof using H0.
  induction l as [|b l IH]; intros k Hk Hl; cbn [read_file_blocks]; [done|].
  destruct (Z.le_gt_cases (len data) (k * BLOCK_SIZE)) as [Hle|Hgt].
  - assert (sat_sub (len data) (k * BLOCK_SIZE) = 0) as -> by (unfold sat_sub; lia). cbn [Z.eqb orb].
    rewrite drop_ge by (unfold len in Hle; lia). by rewrite take_nil.
  - assert (sat_sub (len data) (k * BLOCK_SIZE) = len data - k * BLOCK_SIZE) as -> by (unfold sat_sub; lia).
    rewrite (proj2 (Z.eqb_neq _ _)) by lia. cbn [orb].
    destruct (Hl 0%nat) as [Hb Er]; [cbn [length]; lia|unfold blocks_for, BLOCK_SIZE in *; zdiv|].
    change (default 0 ((b :: l) !! 0%nat)) with b in Hb, Er. rewrite Z.add_0_r in Er.
    rewrite (proj2 (Z.eqb_neq _ _)) by done.
    rewrite (M_bind_run _ _ _ (chunk data k) s) by (by rewrite read_block_run, Er). cbv zeta.
    replace (len data - k * BLOCK_SIZE - Z.min (len data - k * BLOCK_SIZE) BLOCK_SIZE)
      with (sat_sub (len data) ((k + 1) * BLOCK_SIZE)) by (unfold sat_sub, BLOCK_SIZE in *; lia).
    rewrite (M_bind_run _ _ _ _ _ (IH (k + 1) ltac:(lia) ltac:(intros i Hi Hlt;
      specialize (Hl (S i) ltac:(cbn [length]; lia)); change ((b :: l) !! S i) with (l !! i) in Hl;
      replace (k + 1 + Z.of_nat i) with (k + Z.of_nat (S i)) in * by lia; by apply Hl))).
    unfold mret, M_ret. do 2 f_equal. rewrite take_chunk by lia.
    replace (Z.to_nat ((k + 1) * BLOCK_SIZE)) with (Z.to_nat (k * BLOCK_SIZE) + Z.to_nat BLOCK_SIZE)%nat
      by (unfold BLOCK_SIZE; lia).
    rewrite <- drop_drop.
    replace (Z.to_nat (len (b :: l) * BLOCK_SIZE)) with (Z.to_nat BLOCK_SIZE + Z.to_nat (len l * BLOCK_SIZE))%nat
      by (unfold len, BLOCK_SIZE; cbn [length]; lia).
    generalize (drop (Z.to_nat (k * BLOCK_SIZE)) data) as rest. intros rest.
    generalize (Z.to_nat BLOCK_SIZE) as n, (Z.to_nat (len l * BLOCK_SIZE)) as m. intros n m.
    rewrite <- (take_drop n (take (n + m) rest)). rewrite take_take, skipn_firstn_comm.
    f_equal; f_equal; lia.
Qed.

(** Loading finds the data whose blocks are on the device, up to what the direct
    blocks hold. *)
Lemma load_file_data_ok o c s data :
  objects s !! o = Some c → ci_file_type c = Regular → length (direct (ci_disk c)) = 12%nat →
  di_size (ci_disk c) = len data →
  (∀ j, 0 ≤ j < saved_blocks data → ptr c j ≠ 0 ∧ disk_read (device s) (ptr c j) = Ok (chunk data j)) →
  load_file_data o s =
    (Ok tt, set_objects (<[o := set_file_data (Some (take (Z.to_nat FILE_MAX) data)) c]> (objects s)) s).
Proof using H0.
  intros Ho Ht Hl Hsz Hbl. unfold load_file_data. rewrite (get_obj_run _ c) by done.
  rewrite M_guard_run by (by rewrite Ht).
  pose proof (read_file_blocks_ok s data (direct (ci_disk c)) 0 ltac:(lia)) as R.
  assert (sat_sub (len data) (0 * BLOCK_SIZE) = len data) as E0.
  { pose proof (len_nonneg data). unfold sat_sub. lia. }
  rewrite E0 in R. rewrite Hsz.
  rewrite (M_bind_run _ _ _ _ _ (R ltac:(intros i Hi Hlt; specialize (Hbl (Z.of_nat i));
    unfold ptr, direct_at in Hbl; rewrite Nat2Z.id in Hbl; apply Hbl;
    unfold saved_blocks, DIRECT_BLOCKS; rewrite Hl in Hi; lia))).
  unfold upd_obj, m_modify. rewrite (alter_at _ _ o c) by done. unfold len at 1. rewrite Hl.
  by rewrite drop_0.
Qed.

(** The inode's size and blocks are those of the data. *)
Definition readable s (c : CottonInode) (data : list Z) : Prop :=
  di_size (ci_disk c) = len data ∧
  ∀ j, 0 ≤ j < saved_blocks data → ptr c j ≠ 0 ∧ disk_read (device s) (ptr c j) = Ok (chunk data j).

(** The byte string an inode stands for. *)
Definition contents s (c : CottonInode) (data : list Z) : Prop :=
  file_data c = Some data ∨ (file_data c = None ∧ readable s c data ∧ len data ≤ FILE_MAX).

(** The state once the contents are cached. *)
Definition loaded (o : Z) (c : CottonInode) (data : list Z) s : FS D :=
  set_objects (<[o := set_file_data (Some data) c]> (objects s)) s.

Lemma set_file_data_same c data : file_data c = Some data → set_file_data (Some data) c = c.
Proof using Type. destruct c. cbn. by intros ->. Qed.

Lemma loaded_id o c data s : objects s !! o = Some c → file_data c = Some data → loaded o c data s = s.
Proof using Type. intros Ho Hf. unfold loaded. rewrite set_file_data_same by done. rewrite insert_id by done. by destruct s. Qed.

(** The load that [read], [write] and [truncate] begin with. *)
Lemma ensure_loaded {B} (m : M (FS D) unit) o c s data (k : unit → M (FS D) B) :
  objects s !! o = Some c → ci_file_type c = Regular → length (direct (ci_disk c)) = 12%nat →
  contents s c data → (∀ s', load_file_data o s = (Ok tt, s') → m s = (Ok tt, s')) →
  ((if decide (file_data c = None) then m else mret tt) ≫= k) s = k tt (loaded o c data s).
Proof using H0.
  intros Ho Ht Hl [Hf|(Hf & [Hsz Hbl] & Hlen)] Hm.
  - rewrite decide_False by (by rewrite Hf). rewrite M_ret_run. by rewrite loaded_id.
  - rewrite decide_True by done.
    pose proof (load_file_data_ok o c s data Ho Ht Hl Hsz Hbl) as E. apply Hm in E.
    rewrite (M_bind_run _ _ _ _ _ E). rewrite take_ge by (unfold FILE_MAX, len in *; lia). done.
Qed.

Lemma ignore_load o s s' : load_file_data o s = (Ok tt, s') → m_ignore (load_file_data o) s = (Ok tt, s').
Proof using Type. unfold m_ignore. by intros ->. Qed.

End Load.

(** ** Reading, writing, truncating *)

Section FileOps.
Context {D : Type} `{BlockDeviceLaws D, !ReliableDevice D}.
Implicit Types (d : D) (s : FS D).

Lemma loaded_lookup o c data s : objects (loaded o c data s) !! o = Some (set_file_data (Some data) c).
Proof using Type. apply lookup_insert_eq. Qed.

Lemma read_ok o c s data offset n :
  objects s !! o = Some c → ci_file_type c = Regular → length (direct (ci_disk c)) = 12%nat →
  contents s c data → 0 ≤ offset → 0 ≤ n →
  read o offset n s = (Ok (take (Z.to_nat n) (drop (Z.to_nat offset) data)), loaded o c data s).
Proof using H0.
  intros Ho Ht Hl Hc Hoff Hn. unfold read. rewrite (get_obj_run _ c) by done.
  rewrite M_guard_run by (by rewrite Ht). rewrite (ensure_loaded _ o c s data) by done.
  rewrite (get_obj_run _ (set_file_data (Some data) c)) by apply loaded_lookup.
  cbn [file_data set_file_data ok_or]. rewrite M_lift_run.
  destruct (Z.leb_spec (len data) offset).
  - rewrite drop_ge by (unfold len in *; lia). by rewrite take_nil.
  - cbv zeta. unfold slice, mret, M_ret. do 2 f_equal. unfold len in *.
    destruct (Z.le_gt_cases n (Z.of_nat (length data) - offset)).
    + by rewrite Z.min_l by lia.
    + rewrite Z.min_r by lia. rewrite !take_ge by (rewrite length_drop; lia). done.
Qed.

(** The object before it is saved. *)
Definition staged (o : Z) (c : CottonInode) (new : list Z) s : FS D :=
  set_objects (<[o := set_dirty 1 (set_file_data (Some new) c)]> (objects s)) s.

(** What a change of the file's contents to [new] leaves. *)
Definition file_becomes (new : list Z) (o : Z) (c : CottonInode) s c' s' : Prop :=
  updated o c s c' s' ∧ stored s' c' new ∧ file_data c' = Some new ∧ dirty c' = 0.

Lemma save_staged o c new s :
  ci_file_type c = Regular → file_ok s c → fs_wf s → disk_synced s →
  is_bytes new → len new < 2 ^ 63 → missing c 0 (saved_blocks new) ≤ room s →
  ∃ c' s', save_file_data o (staged o c new s) = (Ok tt, s') ∧ file_becomes new o c s c' s'.
Proof.
  intros Ht F Wf S Hb Hlen Hroom. set (c2 := set_dirty 1 (set_file_data (Some new) c)).
  assert (objects (staged o c new s) !! o = Some c2) as Ho by apply lookup_insert_eq.
  destruct (save_file_data_ok o c2 (staged o c new s) new Ho) as (c' & s' & E & U & St & Ec); try done.
  - by destruct F.
  - by apply (fs_wf_same s).
  - by apply (disk_synced_same s).
  - exists c', s'. split; [done|]. split; [|split; [done|split; [by rewrite Ec|by rewrite Ec]]].
    destruct U as [O I F' B K P Wf' S' C Sl R]. split; try done.
    rewrite O. apply insert_insert_eq.
Qed.

Lemma stage_run {B} o c data new s (k : M (FS D) B) :
  (upd_obj o (set_file_data (Some new));; upd_obj o (set_dirty 1);; k) (loaded o c data s) = k (staged o c new s).
Proof using Type.
  rewrite (upd_obj_run _ _ _ _ _ (loaded_lookup o c data s)).
  rewrite (upd_obj_run _ _ (set_file_data (Some new) c)) by apply lookup_insert_eq.
  cbn. unfold loaded, staged, set_objects. cbn. by rewrite !insert_insert_eq.
Qed.

Lemma write_ok o c s data offset buf :
  objects s !! o = Some c → ci_file_type c = Regular → contents s c data → file_ok s c → fs_wf s → disk_synced s →
  is_bytes data → is_bytes buf → 0 ≤ offset → offset + len buf < 2 ^ 63 → len data < 2 ^ 63 →
  missing c 0 (saved_blocks (write_at offset buf data)) ≤ room s →
  ∃ c' s', write o offset buf s = (Ok (len buf), s') ∧ file_becomes (write_at offset buf data) o c s c' s'.
Proof.
  intros Ho Ht Hc F Wf S Hbd Hbb Hoff Hend Hlen Hroom. pose proof (len_nonneg buf).
  destruct (save_staged o c (write_at offset buf data) s) as (c' & s' & E & Hfb); try done.
  { by apply write_at_bytes. } { rewrite len_write_at by done. lia. }
  exists c', s'. split; [|done]. unfold write. rewrite (get_obj_run _ c) by done.
  rewrite M_guard_run by (by rewrite Ht).
  rewrite (ensure_loaded _ o c s data); [|done|done|by eapply file_ok_length|done|apply ignore_load].
  rewrite (get_obj_run _ (set_file_data (Some data) c)) by apply loaded_lookup.
  change (cached_data (set_file_data (Some data) c)) with data. rewrite u64_small by lia. cbv zeta.
  assert (len (if len data <? offset + len buf then vec_resize (offset + len buf) 0 data else data) =
    Z.max (len data) (offset + len buf)) as El.
  { destruct (Z.ltb_spec (len data) (offset + len buf)); [rewrite len_resize by lia|]; lia. }
  rewrite El, !(proj2 (Z.ltb_ge _ _)) by lia. cbn [orb]. rewrite stage_run.
  fold (write_at offset buf data). rewrite (M_bind_run _ _ _ _ _ E). done.
Qed.

Lemma truncate_ok o c s data size :
  objects s !! o = Some c → ci_file_type c = Regular → contents s c data → file_ok s c → fs_wf s → disk_synced s →
  is_bytes data → 0 ≤ size < 2 ^ 63 → missing c 0 (saved_blocks (vec_resize size 0 data)) ≤ room s →
  ∃ c' s', truncate o size s = (Ok tt, s') ∧ file_becomes (vec_resize size 0 data) o c s c' s'.
Proof.
  intros Ho Ht Hc F Wf S Hbd Hsz Hroom.
  destruct (save_staged o c (vec_resize size 0 data) s) as (c' & s' & E & Hfb); try done.
  { auto with cotton. } { rewrite len_resize by lia. lia. }
  exists c', s'. split; [|done]. unfold truncate. rewrite (get_obj_run _ c) by done.
  rewrite M_guard_run by (by rewrite Ht).
  rewrite (ensure_loaded _ o c s data); [|done|done|by eapply file_ok_length|done|apply ignore_load].
  rewrite (upd_obj_run _ _ _ _ _ (loaded_lookup o c data s)).
  change (cached_data (set_file_data (Some data) c)) with data.
  rewrite (upd_obj_run _ _ (set_file_data (Some (vec_resize size 0 data)) c)) by apply lookup_insert_eq.
  rewrite <- E. f_equal. unfold loaded, staged, set_objects. cbn. by rewrite !insert_insert_eq.
Qed.

End FileOps.
