(* ===== verification/CottonDurable.v ===== *)
(** * CottonFS: files are durable

    The theorems on file contents: what [read], [write] and [truncate] do to the
    byte string of a file, that other files keep theirs, and what is found after
    mounting the device again. *)

From S2P Require Import Prelude Bytes Vfs Storage DiskLayout CottonFS CottonMeta CottonInodes CottonMount.
From S2P Require Import CottonFile CottonData.

#[local] Set Default Proof Using "Type*".

Section Durable.
Context {D : Type} `{BlockDeviceLaws D, !ReliableDevice D}.
Implicit Types (d : D) (s : FS D).

(** ** Other files *)

(** Two inodes own different slots and blocks. *)
Definition separate (c1 c2 : CottonInode) : Prop :=
  ci_ino c1 ≠ ci_ino c2 ∧ ∀ b, b ≠ 0 → points c1 b → ¬ points c2 b.

Lemma updated_max_blocks o c s c' s' : updated o c s c' s' → max_blocks s' = max_blocks s.
Proof using Type. intros U. unfold max_blocks. by destruct (up_rest _ _ _ _ _ U) as (_&_&_&_&->). Qed.

(** A block the file has now was its own before, or free. *)
Lemma updated_new o c s c' s' b :
  updated o c s c' s' → points c' b → b ≠ 0 → points c b ∨ ¬ in_use s b.
Proof using Type.
  intros U (j & Hj & <-) Hne. destruct (decide (ptr c j = 0)) as [Hz|Hnz].
  - destruct (up_fresh _ _ _ _ _ U j Hj Hz); [done|by right].
  - destruct (up_kept _ _ _ _ _ U j Hj Hnz) as [E|]; [left; by exists j|done].
Qed.

Lemma updated_file_ok o c s c' s' c2 :
  updated o c s c' s' → file_ok s c2 → separate c c2 → file_ok s' c2.
Proof using Type.
  intros U [? ? Hb ?] [_ Hsep]. split; try done. intros b Hp Hne. destruct (Hb b Hp Hne) as (Hr & Hu & Hd).
  unfold data_block, on_device. rewrite (updated_max_blocks _ _ _ _ _ U), (proj1 (up_changed _ _ _ _ _ U)).
  split; [done|]. split; [|done]. apply (up_bits _ _ _ _ _ U); [lia|]. left. split; [done|].
  intros Hpc. by apply (Hsep b).
Qed.

Lemma updated_readable o c s c' s' c2 data :
  updated o c s c' s' → fs_wf s → file_ok s c → file_ok s c2 → separate c c2 → readable s c2 data → readable s' c2 data.
Proof.
  intros U Wf F F2 [Hino Hsep] [Hsz Hbl]. split; [done|]. intros j Hj. destruct (Hbl j Hj) as [Hne <-].
  split; [done|]. assert (0 ≤ j < DIRECT_BLOCKS) as Hj' by (unfold saved_blocks in Hj; lia).
  destruct (ptr_block s c2 j F2 Wf Hj' Hne) as [(Hr & Hu & _) Hok].
  apply (up_changed _ _ _ _ _ U); [done|]. intros [Hm|[Hi|[_ Hp]]].
  - unfold data_metadata, SUPERBLOCK_BLOCK, DATA_BITMAP_START, DATA_BITMAP_BLOCKS, DATA_BLOCKS_START in *. lia.
  - pose proof (inode_block_range (ci_ino c) (fo_ino _ _ F)). lia.
  - destruct (updated_new _ _ _ _ _ _ U Hp Hne) as [Hpc|]; [|done]. apply (Hsep _ Hne Hpc). by exists j.
Qed.

Lemma updated_others o c s c' s' :
  updated o c s c' s' → fs_wf s → file_ok s c →
  ∀ o2 c2 data2, o2 ≠ o → objects s !! o2 = Some c2 → file_ok s c2 → separate c c2 →
    contents s c2 data2 → objects s' !! o2 = Some c2 ∧ file_ok s' c2 ∧ contents s' c2 data2.
Proof.
  intros U Wf F o2 c2 data2 Hne Ho F2 Hsep Hc. split; [|split].
  - rewrite (up_objects _ _ _ _ _ U). by rewrite lookup_insert_ne.
  - by eapply updated_file_ok.
  - destruct Hc as [|(? & ? & ?)]; [by left|right]. split; [done|]. split; [|done].
    eapply (updated_readable o c s); eassumption.
Qed.

(** What a caller sees of a file that became [new]: reads return its bytes, and
    every other file is as it was. *)
Definition reads_as (new : list Z) (o : Z) (c : CottonInode) s (c' : CottonInode) s' : Prop :=
  file_becomes new o c s c' s' ∧
  (∀ off n, 0 ≤ off → 0 ≤ n → read o off n s' = (Ok (take (Z.to_nat n) (drop (Z.to_nat off) new)), s')) ∧
  ∀ o2 c2 data2, o2 ≠ o → objects s !! o2 = Some c2 → file_ok s c2 → separate c c2 →
    contents s c2 data2 → objects s' !! o2 = Some c2 ∧ file_ok s' c2 ∧ contents s' c2 data2.

Lemma file_becomes_reads new o c s c' s' :
  file_becomes new o c s c' s' → ci_file_type c = Regular → fs_wf s → file_ok s c → reads_as new o c s c' s'.
Proof.
  intros Hb Ht Wf F. pose proof Hb as (U & St & Hfd & _). split; [done|]. split; [|by eapply updated_others].
  intros off n Hoff Hn.
  assert (objects s' !! o = Some c') as Ho by (rewrite (up_objects _ _ _ _ _ U); apply lookup_insert_eq).
  rewrite (read_ok o c' s' new); [|done| | |by left|done|done].
  - by rewrite loaded_id.
  - destruct (up_inode _ _ _ _ _ U) as (_ & -> & _). done.
  - eapply file_ok_length, (up_file _ _ _ _ _ U).
Qed.

(** ** Mounting the device again *)

Lemma is_formatted_updated o c s c' s' :
  updated o c s c' s' → is_formatted (superblock s') = is_formatted (superblock s).
Proof using Type. intros U. by destruct (up_rest _ _ _ _ _ U) as (_&_&_&_&->). Qed.

(** The contents found through a fresh mount; eight blocks are as far as the
    pointers of a slot go. *)
Definition SLOT_MAX : Z := 8 * BLOCK_SIZE.

Definition found_after_mount (beyond data : list Z) (ino : Z) d : Prop :=
  ∀ s0, device s0 = d → ∃ s1 o1 s2, CottonFS_new beyond s0 = (Ok tt, s1) ∧
    load_inode beyond ino s1 = (Ok o1, s2) ∧
    ∀ off n, 0 ≤ off → 0 ≤ n → ∃ s3, read o1 off n s2 = (Ok (take (Z.to_nat n) (drop (Z.to_nat off) data)), s3).

Lemma slot_part_size di di' : slot_part di = slot_part di' → di_size di = di_size di'.
Proof using Type. intros E. by apply (f_equal di_size) in E. Qed.

Lemma slot_part_type di di' : slot_part di = slot_part di' → di_file_type di = di_file_type di'.
Proof using Type. intros E. by apply (f_equal di_file_type) in E. Qed.

Lemma stored_found beyond s c data p :
  is_bytes beyond → fs_wf s → disk_synced s → is_formatted (superblock s) = true →
  disk_slot (device s) ROOT_INODE = Ok (slot_part p) → di_is_free p = false →
  stored s c data → file_ok s c → ci_ino c ≠ ROOT_INODE → di_file_type (ci_disk c) = 1 →
  len data ≤ SLOT_MAX → found_after_mount beyond data (ci_ino c) (device s).
Proof.
  intros Hby Wf S Hf Hroot Hp [Hsz Hbl _ Hslot] F Hino Hty Hlen s0 Hdev.
  destruct (remount beyond Hby s s0 p Wf S Hf Hdev Hroot Hp) as (s1 & E1 & Ed & _ & _ & _ & [Hcache _] & Wf1 & _).
  destruct (read_disk_inode_ok beyond s1 (ci_ino c) Hby (fo_ino _ _ F) (wf_device _ Wf1)) as (di & Er & Hdi & Hs).
  rewrite Ed, Hslot in Hs. apply (inj Ok) in Hs.
  pose proof (slot_part_type _ _ Hs) as Et. rewrite Hty in Et.
  pose proof (slot_part_size _ _ Hs) as Esz.
  set (c1 := mkCI (ci_ino c) (get_file_type di) di None None 0).
  set (s2 := set_cache (<[ci_ino c := next_object s1]> (inode_cache s1))
    (set_next_object (next_object s1 + 1) (set_objects (<[next_object s1 := c1]> (objects s1)) s1))).
  exists s1, (next_object s1), s2. split; [done|]. split.
  { unfold load_inode, load_inode_internal. rewrite M_get_run, Hcache, lookup_singleton_ne by done.
    rewrite (M_bind_run _ _ _ _ _ Er). unfold di_is_free. rewrite <- Et. done. }
  assert (ci_file_type c1 = Regular) as Hreg.
  { cbn [c1 ci_file_type]. unfold get_file_type. by rewrite <- Et. }
  assert (readable s2 c1 data) as Hread.
  { split; [by rewrite <- Hsz, Esz|]. intros j Hj. destruct (Hbl j Hj) as [Hne Hd].
    assert (ptr c1 j = ptr c j) as ->.
    { unfold ptr, direct_at. cbn [c1 ci_disk]. rewrite (slot_part_direct di (ci_disk c)); [done|by symmetry|].
      unfold saved_blocks, blocks_for, SLOT_MAX, BLOCK_SIZE in *. zdiv. }
    split; [done|]. change (device s2) with (device s1). by rewrite Ed. }
  intros off n Hoff Hn. exists (loaded (next_object s1) c1 data s2). apply read_ok; try done.
  - apply lookup_insert_eq.
  - apply Hdi.
  - right. split; [done|]. split; [done|]. unfold SLOT_MAX, FILE_MAX, DIRECT_BLOCKS, BLOCK_SIZE in *. lia.
Qed.

(** ** Properties *)

(** The state in which the operations on a file are specified. *)
Record file_state (o : Z) (c : CottonInode) (data : list Z) s : Prop := mk_file_state {
  fst_object : objects s !! o = Some c;
  fst_type : ci_file_type c = Regular;
  fst_file : file_ok s c;
  fst_contents : contents s c data;
  fst_bytes : is_bytes data;
  fst_len : len data < 2 ^ 63;
  fst_wf : fs_wf s;
  fst_synced : disk_synced s;
}.


(** [truncate] cuts the file's byte string or extends it with zeros; blocks
    beyond the new size are given back, and every other file is untouched. *)
Theorem truncate_spec o c data s size :
  file_state o c data s → 0 ≤ size < 2 ^ 63 → missing c 0 (saved_blocks (vec_resize size 0 data)) ≤ room s →
  ∃ c' s', truncate o size s = (Ok tt, s') ∧ reads_as (vec_resize size 0 data) o c s c' s' ∧
    ∀ j, saved_blocks (vec_resize size 0 data) ≤ j < DIRECT_BLOCKS → ptr c j ≠ 0 → ¬ in_use s' (ptr c j).
Proof.
  intros [Ho Ht F Hc Hbd Hlen Wf S] Hsz Hroom.
  destruct (truncate_ok o c s data size) as (c' & s' & E & Hb); try done.
  exists c', s'. split; [done|]. split; [by apply file_becomes_reads|].
  intros j Hj Hne Hu. destruct Hb as (U & [_ Hbl Hholes _] & _).
  assert (0 ≤ j < DIRECT_BLOCKS) as Hj'.
  { unfold saved_blocks, blocks_for in Hj. pose proof (len_nonneg (vec_resize size 0 data)).
    unfold BLOCK_SIZE in Hj. assert (0 ≤ (len (vec_resize size 0 data) + 4096 - 1) / 4096) by zdiv.
    unfold DIRECT_BLOCKS in *. lia. }
  destruct (ptr_block s c j F Wf Hj' Hne) as [(Hr & Hu0 & _) _].
  apply (up_bits _ _ _ _ _ U) in Hu; [|lia]. destruct Hu as [[_ Hn]|(k & Hk & Ek)]; [apply Hn; by exists j|].
  assert (k ≠ j) as Hkj by (intros ->; rewrite Hholes in Ek by done; congruence).
  destruct (decide (ptr c k = 0)) as [Hz|Hnz].
  - destruct (up_fresh _ _ _ _ _ U k Hk Hz); congruence.
  - destruct (up_kept _ _ _ _ _ U k Hk Hnz); [|congruence]. apply (fo_distinct _ _ F k j); congruence.
Qed.

(** C10: a file of at most 32 KB survives: after [write], mounting the device
    again and loading the inode by its number finds exactly the bytes written. *)
Theorem write_persists beyond o c data s offset buf p :
  file_state o c data s → is_bytes buf → 0 ≤ offset → offset + len buf ≤ SLOT_MAX → len data ≤ SLOT_MAX →
  missing c 0 (saved_blocks (write_at offset buf data)) ≤ room s →
  is_bytes beyond → is_formatted (superblock s) = true →
  disk_slot (device s) ROOT_INODE = Ok (slot_part p) → di_is_free p = false →
  ci_ino c ≠ ROOT_INODE → di_file_type (ci_disk c) = 1 →
  ∃ s', write o offset buf s = (Ok (len buf), s') ∧
    found_after_mount beyond (write_at offset buf data) (ci_ino c) (device s').
Proof.
  intros [Ho Ht F Hc Hbd Hlen Wf S] Hbb Hoff Hend Hmax Hroom Hby Hf Hroot Hp Hino Hty.
  destruct (write_ok o c s data offset buf) as (c' & s' & E & (U & St & _)); try done.
  { unfold SLOT_MAX, BLOCK_SIZE in *. lia. }
  exists s'. split; [done|]. destruct (up_inode _ _ _ _ _ U) as (Ei & _ & l & Edisk). rewrite <- Ei.
  apply (stored_found beyond s' c' (write_at offset buf data) p); try done.
  - apply U.
  - apply U.
  - by rewrite (is_formatted_updated _ _ _ _ _ U).
  - rewrite (up_slots _ _ _ _ _ U); [done|by vm_compute|done].
  - apply U.
  - by rewrite Ei.
  - by rewrite Edisk.
  - rewrite len_write_at by done. lia.
Qed.

(** A write that makes a file longer than its twelve blocks reports success and
    records the size, but only the first 48 KB can be loaded again. *)
Theorem oversized_write_lost o c data s offset buf :
  file_state o c data s → is_bytes buf → 0 ≤ offset → offset + len buf < 2 ^ 63 →
  missing c 0 (saved_blocks (write_at offset buf data)) ≤ room s → FILE_MAX < offset + len buf →
  ∃ c' s', write o offset buf s = (Ok (len buf), s') ∧
    di_size (ci_disk c') = len (write_at offset buf data) ∧
    load_file_data o s' = (Ok tt, loaded o c' (take (Z.to_nat FILE_MAX) (write_at offset buf data)) s') ∧
    len (take (Z.to_nat FILE_MAX) (write_at offset buf data)) = FILE_MAX.
Proof.
  intros [Ho Ht F Hc Hbd Hlen Wf S] Hbb Hoff Hend Hroom Hbig.
  destruct (write_ok o c s data offset buf) as (c' & s' & E & (U & [Hsz Hbl _ _] & _)); try done.
  exists c', s'. split; [done|]. split; [done|].
  assert (FILE_MAX < len (write_at offset buf data)) as Hlong by (rewrite len_write_at by done; lia).
  split; [|unfold len in *; rewrite length_take; unfold FILE_MAX, DIRECT_BLOCKS, BLOCK_SIZE in *; lia].
  apply load_file_data_ok; try done.
  - rewrite (up_objects _ _ _ _ _ U). apply lookup_insert_eq.
  - destruct (up_inode _ _ _ _ _ U) as (_ & -> & _). done.
  - eapply file_ok_length, (up_file _ _ _ _ _ U).
Qed.

End Durable.

(** ** Witnesses *)

Module FileExample.
Import RamDisk MountExample.

(** An open, empty file with inode number 5. *)
Definition file5 : CottonInode := mkCI 5 Regular new_file None (Some []) 0.

Definition fs5 (d : ram_disk) : FS ram_disk := set_objects {[ 7 := file5 ]} (set_device d (blank_fs ram0)).

Lemma ptr_file5 j : ptr file5 j = 0.
Proof.
  unfold ptr, direct_at. cbn [file5 ci_disk new_file direct]. unfold zeros.
  destruct (replicate _ 0 !! Z.to_nat j) eqn:E; [|done]. by apply lookup_replicate in E as [-> _].
Qed.

Lemma file5_ok s : file_ok s file5.
Proof.
  split.
  - apply new_file_ok.
  - by vm_compute.
  - intros b (j & _ & <-) Hne. by rewrite ptr_file5 in Hne.
  - intros i j _ _ _ Hne. by rewrite ptr_file5 in Hne.
Qed.

(** A state in which the theorems apply. *)
Lemma file5_state : ∃ d, file_state 7 file5 [] (fs5 d) ∧ room (fs5 d) = 384 ∧
  disk_slot (device (fs5 d)) ROOT_INODE = Ok (slot_part new_dir).
Proof.
  destruct fs0_synced as (d & S & W & Hs & Ht). exists d. split; [|split; [|done]].
  - apply mk_file_state; [reflexivity|reflexivity|apply file5_ok|left; reflexivity|by apply Forall_nil_2|done| |].
    + apply fs_wf_objects, W.
    + apply disk_synced_objects, S.
  - assert (device_blocks (fs5 d) = 384) as E.
    { unfold device_blocks. cbn [fs5 device set_device set_objects]. rewrite Ht. by vm_compute. }
    unfold room. rewrite E. by apply (clear_bits_zeros 384).
Qed.

Lemma missing5 buf : saved_blocks (write_at 0 buf []) = 1 → missing file5 0 (saved_blocks (write_at 0 buf [])) = 1.
Proof. intros ->. by vm_compute. Qed.


Lemma truncate_spec_witness :
  ∃ d c' s', truncate 7 5000 (fs5 d) = (Ok tt, s') ∧ reads_as (vec_resize 5000 0 []) 7 file5 (fs5 d) c' s'.
Proof.
  destruct file5_state as (d & F & Hr & _). exists d.
  destruct (truncate_spec 7 file5 [] (fs5 d) 5000 F) as (c' & s' & E & R & _).
  - done.
  - rewrite Hr. by vm_compute.
  - exists c', s'. exact (conj E R).
Defined.

Lemma write_persists_witness :
  ∃ d s', write 7 0 [1; 2; 3] (fs5 d) = (Ok 3, s') ∧ found_after_mount [] (write_at 0 [1; 2; 3] []) 5 (device s').
Proof.
  destruct file5_state as (d & F & Hr & Hs). exists d.
  apply (write_persists [] 7 file5 [] (fs5 d) 0 [1; 2; 3] new_dir F);
    [by repeat constructor|done|by vm_compute|by vm_compute| |by constructor|done|exact Hs|done|done|done].
  rewrite Hr. by vm_compute.
Defined.

End FileExample.
