(* ===== verification/CottonDir.v ===== *)
(** * CottonFS: directories

    A directory inode stands for a list of named entries.  [create], [mkdir],
    [lookup] and [unlink] implement the operations on that list, and the list is
    what the directory's blocks hold ([dir_state]). *)

From S2P Require Import Prelude Bytes Vfs Storage DiskLayout CottonFS CottonMeta CottonInodes CottonMount.
From S2P Require Import CottonFile CottonData.

#[local] Set Default Proof Using "Type*".

(** ** Specification vocabulary *)

(** The name an entry stores. *)
Definition entry_name (e : DiskDirEntry) : list Z := take (Z.to_nat (dde_name_len e)) (dde_name e).

Definition entry_ok (e : DiskDirEntry) : Prop :=
  DiskDirEntry_ok e ∧ dde_inode e ≠ 0 ∧ valid_utf8 (entry_name e).

(** The first entry with a name. *)
Definition find_entry (name : list Z) (es : list DiskDirEntry) : option (nat * DiskDirEntry) :=
  list_find (λ e, entry_name e = name) es.

Definition is_dot (name : list Z) : Prop := name = bytes_of_string "." ∨ name = bytes_of_string "..".

(** ** Entries *)

Lemma length_len {A} (l : list A) n : len l = n → length l = Z.to_nat n.
Proof. unfold len. lia. Qed.

Lemma get_name_ok e : entry_ok e → get_name e = Ok (entry_name e).
Proof.
  intros ((_ & Hn & _) & _ & Hv). unfold get_name. rewrite (proj2 (Z.ltb_ge _ _)) by lia.
  by rewrite from_utf8_lossy_valid.
Qed.

Lemma position_ok name es : Forall entry_ok es → position name es = Ok (fst <$> find_entry name es).
Proof.
  unfold find_entry. induction 1 as [|e es He Hes IH]; cbn [position list_find]; [done|].
  rewrite get_name_ok by done. cbn [mbind res_bind]. case_decide; [done|].
  rewrite IH. cbn [mbind res_bind]. by destruct (list_find _ es) as [[i x]|].
Qed.

Lemma find_entry_None name es : find_entry name es = None ↔ name ∉ map entry_name es.
Proof.
  unfold find_entry. rewrite list_find_None, Forall_forall. split.
  - intros Hf (e & En & He)%list_elem_of_fmap. by apply (Hf e).
  - intros Hn e He En. apply Hn, list_elem_of_fmap. eauto.
Qed.

Lemma find_entry_snoc name es e :
  name ∉ map entry_name es → entry_name e = name → find_entry name (es ++ [e]) = Some (length es, e).
Proof.
  intros Hn He. unfold find_entry. apply list_find_Some. split; [by rewrite lookup_app_r, Nat.sub_diag by lia|].
  split; [done|]. intros j y Hj Hlt. rewrite lookup_app_l in Hj by done. intros Hy. apply Hn.
  apply list_elem_of_fmap. exists y. split; [done|]. by eapply list_elem_of_lookup_2.
Qed.

Lemma new_entry_ok ino name ft :
  0 < ino < 2 ^ 64 → is_bytes name → valid_utf8 name → len name ≤ MAX_FILENAME →
  entry_ok (DiskDirEntry_new ino name ft) ∧ entry_name (DiskDirEntry_new ino name ft) = name.
Proof.
  intros Hi Hb Hv Hl. pose proof (len_nonneg name). unfold MAX_FILENAME in *.
  assert (entry_name (DiskDirEntry_new ino name ft) = name) as En.
  { unfold entry_name, DiskDirEntry_new. cbn [dde_name_len dde_name]. change MAX_FILENAME with 60.
    rewrite Z.min_l by lia. unfold splice. change (Z.to_nat 0) with 0%nat. rewrite take_0, app_nil_l.
    rewrite (take_ge name) by (unfold len; lia). apply take_app_length'. unfold len. lia. }
  split; [|done]. split; [|split; [cbn; lia|by rewrite En]].
  unfold DiskDirEntry_ok, DiskDirEntry_new. cbn [dde_inode dde_name_len dde_file_type dde_pad dde_name].
  change MAX_FILENAME with 60. split; [unfold u64_ok; lia|]. split; [lia|].
  split; [by destruct ft|]. split; [done|]. split; [apply is_bytes_zeros|]. split.
  - assert (len (splice 0 (take (Z.to_nat (len name `min` 60)) name) (zeros 60)) = 60) as Hlen; [|exact (length_len _ _ Hlen)].
    rewrite len_splice; [done|done|]. unfold len. rewrite length_take. unfold zeros. rewrite length_replicate. lia.
  - apply is_bytes_splice; [by apply is_bytes_take|apply is_bytes_zeros].
Qed.

Lemma entries_bytes_app es1 es2 : entries_bytes (es1 ++ es2) = entries_bytes es1 ++ entries_bytes es2.
Proof. unfold entries_bytes. by rewrite map_app, concat_app. Qed.

Lemma entries_ok_disk es : Forall entry_ok es → Forall DiskDirEntry_ok es.
Proof. intros He. eapply Forall_impl; [exact He|]. by intros e []. Qed.

Lemma len_entries es : Forall entry_ok es → len (entries_bytes es) = DIR_ENTRY_SIZE * len es.
Proof. intros. by apply entries_bytes_length, entries_ok_disk. Qed.

Section Dir.
Context {D : Type} `{BlockDeviceLaws D, !ReliableDevice D}.
Variable beyond : list Z.
Hypothesis Hbeyond : is_bytes beyond.
Implicit Types (d : D) (s : FS D).

(** The inodes in the cache are allocated, and objects are numbered below
    [next_object]. *)
Record cache_ok s : Prop := mk_cache_ok {
  co_alloc : ∀ ino o, inode_cache s !! ino = Some o → 0 ≤ ino ∧ get_bit (inode_bitmap s) ino = true;
  co_fresh : ∀ o c, objects s !! o = Some c → o < next_object s;
}.

(** Object [o] is the directory with entries [es], in memory and on the device. *)
Record dir_state (o : Z) (c : CottonInode) (es : list DiskDirEntry) s : Prop := mk_dir_state {
  dr_object : objects s !! o = Some c;
  dr_type : ci_file_type c = Directory;
  dr_entries : dir_entries c = Some es;
  dr_ok : Forall entry_ok es;
  dr_names : NoDup (map entry_name es);
  dr_file : file_ok s c;
  dr_stored : stored s c (entries_bytes es);
  dr_fits : len (entries_bytes es) ≤ FILE_MAX;
  dr_alloc : get_bit (inode_bitmap s) (ci_ino c) = true;
  dr_wf : fs_wf s;
  dr_synced : disk_synced s;
  dr_cache : cache_ok s;
}.

(** [save_dir_entries] when the directory holds no block beyond its data. *)
Lemma save_dir_entries_ok o c s es :
  objects s !! o = Some c → ci_file_type c = Directory → dir_entries c = Some es →
  file_ok s c → fs_wf s → disk_synced s → Forall entry_ok es → len (entries_bytes es) ≤ FILE_MAX →
  (∀ j, saved_blocks (entries_bytes es) ≤ j < DIRECT_BLOCKS → ptr c j = 0) →
  missing c 0 (saved_blocks (entries_bytes es)) ≤ room s →
  ∃ c' s', save_dir_entries o s = (Ok tt, s') ∧ updated o c s c' s' ∧ stored s' c' (entries_bytes es) ∧
    c' = set_dirty 0 (set_ci_disk (ci_disk c') c).
Proof.
  intros Ho Ht Hde F Wf S Hes Hmax Hholes Hroom. pose proof (len_nonneg (entries_bytes es)).
  assert (len (entries_bytes es) < 2 ^ 63) as Hlen by (unfold FILE_MAX, DIRECT_BLOCKS, BLOCK_SIZE in *; lia).
  destruct (blocks_for_bounds (len (entries_bytes es))) as (Hbf & _); [lia|].
  assert (is_bytes (entries_bytes es)) as Hb by (by apply is_bytes_entries, entries_ok_disk).
  assert (0 ≤ saved_blocks (entries_bytes es) ≤ blocks_for (len (entries_bytes es)) ∧
    saved_blocks (entries_bytes es) ≤ DIRECT_BLOCKS) as [Hn Hn'].
  { unfold saved_blocks, DIRECT_BLOCKS. lia. }
  destruct (save_blocks_ok (entries_bytes es) o c s _ Ho F Wf S Hb Hn Hn' Hroom) as (c1 & s1 & E1 & [R1 Hbl Hk Hfr _]).
  destruct (saved_updated (λ b, ∃ j, 0 ≤ j < saved_blocks (entries_bytes es) ∧ b = ptr c1 j) o c s c1 s1 (entries_bytes es))
    as (c' & s' & E & U & St & Ec); try done.
  - intros b (j & Hj & ->). destruct (Hbl j Hj) as [Hne _]. split; [done|]. exists j. split; [lia|done].
  - intros j Hj. rewrite Hk by lia. by apply Hholes.
  - intros j Hj Hne. left. apply Hk; auto.
  - intros j Hj Hz. destruct (decide (j < saved_blocks (entries_bytes es))); [right; apply Hfr; [lia|done]|].
    left. rewrite Hk by lia. done.
  - exists c', s'. split; [|done]. unfold save_dir_entries. rewrite (get_obj_run _ c) by done.
    rewrite M_guard_run by (by rewrite Ht). rewrite Hde. cbn [ok_or]. rewrite M_lift_run.
    cbv zeta. fold (saved_blocks (entries_bytes es)). by rewrite (M_bind_run _ _ _ _ _ E1).
Qed.

(** ** Creating an entry *)

(** Two states with the same data blocks. *)
Definition same_blocks s s' : Prop :=
  data_bitmap s' = data_bitmap s ∧ max_blocks s' = max_blocks s ∧
  bd_total_blocks (device s') = bd_total_blocks (device s).

Lemma same_blocks_file s s' c : same_blocks s s' → file_ok s c → file_ok s' c.
Proof using Type. intros (? & ? & ?) F. by eapply file_ok_same. Qed.

Lemma same_blocks_room s s' : same_blocks s s' → room s' = room s.
Proof using Type. intros (E1 & E2 & E3). unfold room, device_blocks. by rewrite E1, E2, E3. Qed.

(** Allocating an inode and writing its slot. *)
Lemma alloc_child s inode :
  fs_wf s → disk_synced s → (∃ i, 1 ≤ i < MAX_INODES ∧ get_bit (inode_bitmap s) i = false) → DiskInode_ok inode →
  ∃ ino s1, (∀ B (k : Z → M (FS D) B), (i ← alloc_inode; write_disk_inode i inode;; k i) s = k ino s1) ∧
    1 ≤ ino < MAX_INODES ∧ get_bit (inode_bitmap s) ino = false ∧
    (∀ i, 0 ≤ i → get_bit (inode_bitmap s1) i = bool_decide (i = ino) || get_bit (inode_bitmap s) i) ∧
    fs_wf s1 ∧ disk_synced s1 ∧ same_blocks s s1 ∧
    objects s1 = objects s ∧ inode_cache s1 = inode_cache s ∧ next_object s1 = next_object s ∧
    is_formatted (superblock s1) = is_formatted (superblock s) ∧
    changed (λ b, inode_metadata b ∨ b = inode_block ino) (device s) (device s1) ∧
    disk_slot (device s1) ino = Ok (slot_part inode) ∧
    (∀ i, ino_ok i → i ≠ ino → disk_slot (device s1) i = disk_slot (device s) i).
Proof using ReliableDevice0 H0.
  intros Wf S (k & Hk & Hkb) Hin. pose proof (alloc_inode_result s Wf) as R.
  destruct (alloc_inode s) as [[ino|e|] s1] eqn:E; [|destruct R as (_&_&Hall); by rewrite Hall in Hkb|done].
  destruct R as (Hi & Hb & _ & Hnow & _ & Wf1). destruct Hnow as (d1 & Es1 & Hbm & Hsb & C1).
  assert (ino_ok ino) as Hino by (unfold ino_ok; lia).
  destruct (write_disk_inode_slots s1 ino inode Hin Hino (wf_device _ Wf1)) as (d2 & E2 & C2 & Hs & Hother).
  assert (device s1 = d1) as Ed1 by (by rewrite Es1).
  exists ino, (set_device d2 s1). split.
  { intros B k'. rewrite (M_bind_run _ _ _ _ _ E). by rewrite (M_bind_run _ _ _ _ _ E2). }
  split; [done|]. split; [done|].
  assert (∀ i, 0 ≤ i → get_bit (inode_bitmap s1) i = bool_decide (i = ino) || get_bit (inode_bitmap s) i) as Hbits.
  { intros i Hi0. rewrite Es1. cbn [inode_bitmap set_device set_superblock set_inode_bitmap].
    rewrite get_set_bit by lia. rewrite (proj2 (Z.ltb_lt _ _)); [by rewrite andb_true_r|].
    destruct (wf_inode_bitmap _ Wf) as [-> _]. change MAX_INODES with 2048 in Hi.
    unfold INODE_BITMAP_BLOCKS, BLOCK_SIZE. zdiv. }
  split; [done|]. split; [apply fs_wf_device; [done|]; by eapply changed_metadata, Wf1|]. split.
  { eapply disk_synced_device; [|exact C2|].
    - destruct S as [S1 S2 S3]. rewrite Es1. split; cbn [superblock inode_bitmap data_bitmap device set_device set_superblock set_inode_bitmap].
      + rewrite Es1 in Hsb. exact Hsb.
      + exact Hbm.
      + unfold data_bitmap_on_disk, bitmap_on_disk in *. intros i Hr. rewrite (proj2 C1); [by apply S3| |];
          unfold block_ok, inode_metadata, SUPERBLOCK_BLOCK, DATA_BITMAP_START, DATA_BITMAP_BLOCKS,
            INODE_BITMAP_START, INODE_BITMAP_BLOCKS in *; lia.
    - pose proof (inode_block_range _ Hino). simpl. lia. }
  split.
  { split; [by rewrite Es1|]. split; [by rewrite Es1|]. cbn [device set_device]. by rewrite (proj1 C2), Ed1, (proj1 C1). }
  do 4 (split; [by rewrite Es1|]). cbn [device set_device]. split; [|split; [done|]].
  - rewrite Ed1 in C2. eapply changed_trans; (eapply changed_mono; [|eassumption]); simpl; tauto.
  - intros i Hi' Hne. rewrite Hother by done. rewrite Ed1. apply (disk_slot_frame _ _ _ _ C1); [done|].
    pose proof (inode_block_range _ Hi'). unfold inode_metadata, SUPERBLOCK_BLOCK, INODE_BITMAP_START,
      INODE_BITMAP_BLOCKS, INODE_TABLE_START in *. lia.
Qed.

(** Loading an inode that is not cached. *)
Lemma load_inode_miss ino p s :
  inode_cache s !! ino = None → ino_ok ino → holds_metadata (device s) →
  disk_slot (device s) ino = Ok (slot_part p) → di_is_free p = false →
  ∃ di, load_inode beyond ino s = (Ok (next_object s),
      set_cache (<[ino := next_object s]> (inode_cache s)) (set_next_object (next_object s + 1)
        (set_objects (<[next_object s := mkCI ino (get_file_type di) di None None 0]> (objects s)) s))) ∧
    slot_part di = slot_part p ∧ DiskInode_ok di.
Proof.
  intros Hc Hi Hd Hs Hp. destruct (read_disk_inode_ok beyond s ino Hbeyond Hi Hd) as (di & Er & Hok & Hs').
  rewrite Hs in Hs'. apply (inj Ok) in Hs'. exists di. split; [|done].
  unfold load_inode, load_inode_internal. rewrite M_get_run, Hc. rewrite (M_bind_run _ _ _ _ _ Er).
  rewrite (slot_free di p), Hp by done. done.
Qed.

(** A new object and cache entry keep the directory as it is. *)
Lemma dir_state_load o c es s ino child :
  dir_state o c es s → 0 ≤ ino → get_bit (inode_bitmap s) ino = true →
  dir_state o c es (set_cache (<[ino := next_object s]> (inode_cache s))
    (set_next_object (next_object s + 1) (set_objects (<[next_object s := child]> (objects s)) s))).
Proof using Type.
  intros [Ho Ht He Hok Hn F [? ? ? ?] Hf Ha Wf [? ? ?] [Hc Hfr]] Hino Hbit.
  pose proof (Hfr o c Ho) as Hlt. split; try done.
  - cbn. by rewrite lookup_insert_ne by lia.
  - eapply same_blocks_file; [|exact F]. done.
  - by apply (fs_wf_same s).
  - split; cbn.
    + intros i o' Hi. destruct (decide (i = ino)) as [->|]; [done|]. rewrite lookup_insert_ne in Hi by done.
      by eapply Hc.
    + intros o' c' Ho'. destruct (decide (o' = next_object s)) as [->|]; [lia|].
      rewrite lookup_insert_ne in Ho' by done. pose proof (Hfr _ _ Ho'). lia.
Qed.

Lemma entries_snoc_blocks es e :
  Forall entry_ok es → entry_ok e → saved_blocks (entries_bytes es) ≤ saved_blocks (entries_bytes (es ++ [e])).
Proof using Type.
  intros Hes He. unfold saved_blocks, blocks_for.
  rewrite (len_entries (es ++ [e])), (len_entries es), len_app by (try apply Forall_app; auto). unfold DIR_ENTRY_SIZE, BLOCK_SIZE. change (len [e]) with 1.
  pose proof (Z.div_le_mono (72 * len es + 4096 - 1) (72 * (len es + 1) + 4096 - 1) 4096). lia.
Qed.

(** The conditions under which a name can be added. *)
Record can_add (name : list Z) (ft : FileType) (c : CottonInode) (es : list DiskDirEntry) s : Prop := mk_can_add {
  ca_bytes : is_bytes name;
  ca_utf8 : valid_utf8 name;
  ca_len : len name ≤ MAX_FILENAME;
  ca_new : name ∉ map entry_name es;
  ca_fits : len (entries_bytes es) + DIR_ENTRY_SIZE ≤ FILE_MAX;
  ca_room : missing c 0 (saved_blocks (entries_bytes (es ++ [DiskDirEntry_new 1 name ft]))) ≤ room s;
  ca_inode : ∃ i, 1 ≤ i < MAX_INODES ∧ get_bit (inode_bitmap s) i = false;
}.

Lemma saved_blocks_entries es es' :
  Forall entry_ok es → Forall entry_ok es' → len es = len es' →
  saved_blocks (entries_bytes es) = saved_blocks (entries_bytes es').
Proof using Type. intros He He' El. unfold saved_blocks. by rewrite !len_entries, El. Qed.

(** What [create] and [mkdir] leave: the directory with one more entry, whose
    inode was free, is now allocated and stored, and is loaded as a new object. *)
Record child_added (ino : Z) (ft : FileType) (inode : DiskInode) (name : list Z)
    (o : Z) (c : CottonInode) (es : list DiskDirEntry) s (o' : Z) (c' : CottonInode) s' : Prop := mk_child_added {
  cd_ino : 1 ≤ ino < MAX_INODES ∧ get_bit (inode_bitmap s) ino = false;
  cd_bits : ∀ i, 0 ≤ i → get_bit (inode_bitmap s') i = bool_decide (i = ino) || get_bit (inode_bitmap s) i;
  cd_dir : dir_state o c' (es ++ [DiskDirEntry_new ino name ft]) s' ∧ ci_ino c' = ci_ino c;
  cd_object : o' ≠ o ∧ inode_cache s' = <[ino := o']> (inode_cache s);
  cd_child : ∃ di, objects s' = <[o' := mkCI ino ft di None None 0]> (<[o := c']> (objects s)) ∧
    slot_part di = slot_part inode ∧ DiskInode_ok di;
  cd_slot : disk_slot (device s') ino = Ok (slot_part inode);
  cd_slots : ∀ i, ino_ok i → i ≠ ino → i ≠ ci_ino c → disk_slot (device s') i = disk_slot (device s) i;
  cd_formatted : is_formatted (superblock s') = is_formatted (superblock s);
}.

(** The directory before its changed entries are saved. *)
Definition dir_staged (o : Z) (c : CottonInode) (es : list DiskDirEntry) s : FS D :=
  set_objects (<[o := set_dirty 1 (set_dir_entries (Some es) c)]> (objects s)) s.

(** [s1] differs from [s] in the inode bitmap and the metadata on the device. *)
Record inodes_step s s1 : Prop := mk_inodes_step {
  is_wf : fs_wf s1;
  is_synced : disk_synced s1;
  is_blocks : same_blocks s s1;
  is_objects : objects s1 = objects s;
  is_cache : inode_cache s1 = inode_cache s;
  is_next : next_object s1 = next_object s;
  is_bits : ∀ i, 0 ≤ i → get_bit (inode_bitmap s) i = true → get_bit (inode_bitmap s1) i = true;
}.

(** Saving changed entries of a directory, when no block is given up. *)
Lemma dir_saved o c es s es' s1 :
  dir_state o c es s → inodes_step s s1 → Forall entry_ok es' → NoDup (map entry_name es') →
  len (entries_bytes es') ≤ FILE_MAX → saved_blocks (entries_bytes es) ≤ saved_blocks (entries_bytes es') →
  missing c 0 (saved_blocks (entries_bytes es')) ≤ room s →
  ∃ c' s', save_dir_entries o (dir_staged o c es' s1) = (Ok tt, s') ∧ dir_state o c' es' s' ∧
    ci_ino c' = ci_ino c ∧ objects s' = <[o := c']> (objects s) ∧ inode_bitmap s' = inode_bitmap s1 ∧
    inode_cache s' = inode_cache s ∧ next_object s' = next_object s ∧
    is_formatted (superblock s') = is_formatted (superblock s1) ∧
    (∀ i, ino_ok i → i ≠ ci_ino c → disk_slot (device s') i = disk_slot (device s1) i).
Proof using H0 ReliableDevice0.
  intros [Ho Ht He Hok Hnd F St Hmax Ha Wf S [Hco Hfr]] [Wf1 S1 Hsame Eobj Ecache Enext Hbits] Hes' Hnd' Hmax' Hsv Hroom.
  set (c3 := set_dirty 1 (set_dir_entries (Some es') c)). set (s3 := dir_staged o c es' s1).
  assert (objects s3 !! o = Some c3) as Ho3 by apply lookup_insert_eq.
  assert (file_ok s3 c3) as F3.
  { assert (same_blocks s s3) as Hs3 by exact Hsame. by destruct (same_blocks_file _ _ _ Hs3 F). }
  destruct (save_dir_entries_ok o c3 s3 es') as (c' & s4 & E4 & U & St4 & Ec4); try done.
  { by apply fs_wf_objects. } { by apply disk_synced_objects. }
  { intros j Hj. change (ptr c j = 0). apply (st_holes _ _ _ St). lia. }
  { by rewrite (same_blocks_room s s3) by exact Hsame. }
  destruct (up_rest _ _ _ _ _ U) as (Ei4 & Ec4' & En4 & _ & Esb4).
  destruct (up_inode _ _ _ _ _ U) as (Eino & Ety & _).
  assert (objects s4 = <[o := c']> (objects s)) as Eobj4.
  { rewrite (up_objects _ _ _ _ _ U). unfold s3, dir_staged. cbn [objects set_objects]. by rewrite insert_insert_eq, Eobj. }
  change (inode_cache s3) with (inode_cache s1) in Ec4'. change (next_object s3) with (next_object s1) in En4.
  change (inode_bitmap s3) with (inode_bitmap s1) in Ei4. rewrite Ecache in Ec4'. rewrite Enext in En4.
  exists c', s4. split; [exact E4|]. split; [|split; [exact Eino|split; [done|split; [done|split; [done|split; [done|split]]]]]].
  - split; try apply U; try done.
    + rewrite Eobj4. apply lookup_insert_eq.
    + by rewrite Ety.
    + by rewrite Ec4.
    + rewrite Ei4, Eino. apply Hbits; [apply F|exact Ha].
    + split.
      * intros i o2. rewrite Ec4', Ei4. intros Hc2. destruct (Hco _ _ Hc2) as [Hi0 Hbit]. auto.
      * intros o2 c2. rewrite Eobj4, En4. intros Ho2. destruct (decide (o2 = o)) as [->|]; [by eapply Hfr|].
        rewrite lookup_insert_ne in Ho2 by done. by eapply Hfr.
  - by rewrite Esb4.
  - intros i Hi Hne. by rewrite (up_slots _ _ _ _ _ U).
Qed.

Lemma stage_dir_run {B} o c es s (k : M (FS D) B) :
  objects s !! o = Some c →
  (upd_obj o (set_dir_entries (Some es));; upd_obj o (set_dirty 1);; k) s = k (dir_staged o c es s).
Proof using Type.
  intros Ho. rewrite (upd_obj_run _ _ c) by done.
  rewrite (upd_obj_run _ _ (set_dir_entries (Some es) c)) by apply lookup_insert_eq.
  unfold dir_staged. cbn. by rewrite insert_insert_eq.
Qed.

(** [new_child] up to the allocation of the inode. *)
Lemma new_child_run msg inode ft o c es s name :
  dir_state o c es s → len name ≤ MAX_FILENAME →
  new_child beyond msg inode ft o name s =
    if decide (name ∈ map entry_name es) then (Err msg, s)
    else (ino ← alloc_inode; write_disk_inode ino inode;;
          upd_obj o (λ c, set_dir_entries (Some (default [] (dir_entries c) ++ [DiskDirEntry_new ino name ft])) c);;
          upd_obj o (set_dirty 1);; save_dir_entries o;; load_inode beyond ino) s.
Proof using Type.
  intros [Ho Ht He Hok _ _ _ _ _ _ _ _] Hl. unfold new_child. rewrite (get_obj_run _ c) by done.
  rewrite M_guard_run by (by rewrite Ht). rewrite M_guard_run by (by apply Z.leb_le).
  rewrite decide_False by (by rewrite He). rewrite M_ret_run, (get_obj_run _ c) by done.
  rewrite He. cbn [default from_option id]. rewrite position_ok by done. rewrite M_lift_run.
  destruct (find_entry name es) as [[i e]|] eqn:Ef.
  - rewrite decide_True; [done|]. destruct (decide (name ∈ map entry_name es)); [done|].
    by rewrite (proj2 (find_entry_None _ _)) in Ef.
  - rewrite decide_False by (by apply find_entry_None). done.
Qed.

Lemma new_child_ok msg inode ft o c es s name :
  dir_state o c es s → can_add name ft c es s → DiskInode_ok inode → di_is_free inode = false →
  get_file_type inode = ft →
  ∃ ino o' c' s', new_child beyond msg inode ft o name s = (Ok o', s') ∧
    child_added ino ft inode name o c es s o' c' s'.
Proof.
  intros Dr [Hnb Hnv Hnl Hnew Hfits Hroom Hfree] Hin Hnf Hft.
  pose proof Dr as [Ho _ He Hok Hnd F St _ Ha Wf S [Hco Hfr]].
  destruct (alloc_child s inode Wf S Hfree Hin) as (ino & s1 & Erun & Hi & Hb & Hbits & Wf1 & S1 & Hsame & Eobj &
    Ecache & Enext & Efmt & _ & Hslot1 & Hother1).
  assert (ino ≠ ci_ino c) as Hne by (intros ->; congruence).
  assert (ino_ok ino) as Hino by (unfold ino_ok; lia).
  set (e := DiskDirEntry_new ino name ft).
  destruct (new_entry_ok ino name ft) as [Heok Hename]; [change MAX_INODES with 2048 in Hi; lia|done|done|done|].
  fold e in Heok, Hename.
  assert (entry_ok (DiskDirEntry_new 1 name ft)) as He1 by (by apply new_entry_ok).
  assert (Forall entry_ok (es ++ [e])) as Hes' by (apply Forall_app; auto).
  destruct (dir_saved o c es s (es ++ [e]) s1) as (c' & s4 & E4 & Dr4 & Eino & Eobj4 & Ebm4 & Ecache4 & Enext4 & Efmt4 & Hslots4);
    [done| |done| | |by apply entries_snoc_blocks| |].
  { split; try done. intros i Hi0 Hbi. rewrite Hbits, Hbi by done. apply orb_true_r. }
  { rewrite map_app. apply NoDup_app. split; [done|]. split; [|by apply NoDup_singleton].
    intros x Hx. cbn [map]. rewrite Hename. intros ->%list_elem_of_singleton. done. }
  { rewrite entries_bytes_app, len_app. rewrite (len_entries [e]) by auto. change (len [e]) with 1. lia. }
  { rewrite <- (saved_blocks_entries (es ++ [DiskDirEntry_new 1 name ft]) (es ++ [e])); [done| |done|].
    - apply Forall_app; auto.
    - by rewrite !len_app. }
  assert (inode_cache s4 !! ino = None) as Hmiss.
  { rewrite Ecache4. destruct (inode_cache s !! ino) eqn:Ec; [|done]. destruct (Hco _ _ Ec). congruence. }
  destruct (load_inode_miss ino inode s4 Hmiss Hino (wf_device _ (dr_wf _ _ _ _ Dr4)))
    as (di & E5 & Hdi & Hdiok); [by rewrite Hslots4|done|].
  assert (get_file_type di = ft) as Hty.
  { rewrite <- Hft. unfold get_file_type. f_equal. by apply (f_equal di_file_type) in Hdi. }
  rewrite Hty in E5. exists ino, (next_object s4), c'. eexists. split.
  { rewrite (new_child_run _ _ _ _ c es) by done. rewrite decide_False by done. rewrite Erun.
    rewrite (upd_obj_run _ _ c) by (by rewrite Eobj). rewrite He. cbn [default from_option id].
    rewrite <- (upd_obj_run _ (set_dir_entries (Some (es ++ [e]))) c s1 (λ _, upd_obj o (set_dirty 1);; save_dir_entries o;; load_inode beyond ino)) by (by rewrite Eobj).
    rewrite (stage_dir_run _ c) by (by rewrite Eobj). rewrite (M_bind_run _ _ _ _ _ E4). exact E5. }
  split; cbn.
  - done.
  - intros i Hi0. by rewrite Ebm4, Hbits.
  - split; [|done]. apply dir_state_load; [done|lia|].
    rewrite Ebm4, Hbits by lia. by rewrite bool_decide_eq_true_2.
  - split; [rewrite Enext4; pose proof (Hfr _ _ Ho); lia|]. by rewrite Ecache4.
  - exists di. by rewrite Eobj4.
  - by rewrite Hslots4.
  - intros i Hi0 Hn1 Hn2. rewrite Hslots4 by done. by apply Hother1.
  - by rewrite Efmt4.
Qed.

Lemma len_chunk data k : 0 ≤ k * BLOCK_SIZE < len data → len (chunk data k) = BLOCK_SIZE.
Proof using Type.
  intros Hk. unfold chunk. rewrite len_splice; [by apply len_zeros|done|].
  rewrite len_slice by (unfold BLOCK_SIZE in *; lia). rewrite len_zeros by done. unfold BLOCK_SIZE. lia.
Qed.

(** A block of data is a piece of the data and zeros. *)
Lemma chunk_rest data k :
  0 ≤ k → k * BLOCK_SIZE < len data →
  ∃ m, chunk data k = take (Z.to_nat BLOCK_SIZE) (drop (Z.to_nat (k * BLOCK_SIZE)) data) ++ replicate m 0.
Proof using Type.
  intros Hk Hlt. rewrite <- take_chunk by done. unfold chunk, splice.
  change (Z.to_nat 0) with 0%nat. rewrite take_0, app_nil_l.
  set (a := slice _ _ _).
  assert (length a = Z.to_nat (Z.min (len data - k * BLOCK_SIZE) BLOCK_SIZE)) as Ha.
  { unfold a, slice. rewrite length_take, length_drop. unfold len, BLOCK_SIZE in *. lia. }
  rewrite take_app_length' by done. unfold zeros. rewrite drop_replicate. by eexists.
Qed.

(** ** Looking names up *)

Lemma load_inode_hit ino o s : inode_cache s !! ino = Some o → load_inode beyond ino s = (Ok o, s).
Proof using Type. intros Hc. unfold load_inode, load_inode_internal. by rewrite M_get_run, Hc. Qed.

Lemma lookup_run o c es s name :
  objects s !! o = Some c → ci_file_type c = Directory → dir_entries c = Some es → Forall entry_ok es → ¬ is_dot name →
  lookup beyond o name s =
    match find_entry name es with
    | Some (_, e) => (i ← load_inode beyond (dde_inode e); mret (Some i)) s
    | None => (Ok None, s)
    end.
Proof using Type.
  intros Ho Ht He Hok Hdot. unfold lookup. rewrite (get_obj_run _ c) by done.
  rewrite M_guard_run by (by rewrite Ht).
  rewrite decide_False by (intros ->; apply Hdot; by left). rewrite decide_False by (intros ->; apply Hdot; by right).
  rewrite decide_False by (by rewrite He). rewrite M_ret_run, (get_obj_run _ c) by done.
  rewrite He. cbn [ok_or]. rewrite M_lift_run, position_ok by done. rewrite M_lift_run.
  unfold find_entry. destruct (list_find (λ e, entry_name e = name) es) as [[i e]|] eqn:Ef; cbn [fmap option_fmap option_map fst mbind option_bind]; [|done].
  apply list_find_Some in Ef as (-> & _). done.
Qed.

(** ** Loading a directory *)

(** The blocks of a directory are read up to the first hole. *)
Lemma read_dir_blocks_ok s data l : ∀ k,
  0 ≤ k →
  (∀ i, (i < length l)%nat → k + Z.of_nat i < blocks_for (len data) →
    default 0 (l !! i) ≠ 0 ∧ disk_read (device s) (default 0 (l !! i)) = Ok (chunk data (k + Z.of_nat i))) →
  (∃ i, blocks_for (len data) = k + Z.of_nat i ∧ (i ≤ length l)%nat ∧ default 0 (l !! i) = 0) →
  ∃ n, read_dir_blocks l s = (Ok (drop (Z.to_nat (k * BLOCK_SIZE)) data ++ replicate n 0), s).
Proof using H0.
  induction l as [|b l IH]; intros k Hk Hl (i & Hi & Hle & Hz); cbn [read_dir_blocks].
  - exists 0%nat. assert (i = 0%nat) as -> by (cbn in Hle; lia). rewrite drop_ge; [done|].
    unfold blocks_for, len, BLOCK_SIZE in *. zdiv.
  - destruct i as [|i].
    + change (default 0 ((b :: l) !! 0%nat)) with b in Hz. subst b. cbn [Z.eqb]. exists 0%nat. rewrite drop_ge; [done|].
      unfold blocks_for, len, BLOCK_SIZE in *. zdiv.
    + destruct (Hl 0%nat) as [Hb Er]; [cbn [length]; lia|lia|].
      change (default 0 ((b :: l) !! 0%nat)) with b in Hb, Er. rewrite Z.add_0_r in Er.
      rewrite (proj2 (Z.eqb_neq _ _)) by done.
      rewrite (M_bind_run _ _ _ (chunk data k) s) by (by rewrite read_block_run, Er).
      destruct (IH (k + 1)) as (n & E); [lia| | |].
      * intros i' Hi' Hlt. specialize (Hl (S i') ltac:(cbn [length]; lia)).
        change ((b :: l) !! S i') with (l !! i') in Hl.
        replace (k + 1 + Z.of_nat i') with (k + Z.of_nat (S i')) in * by lia. by apply Hl.
      * exists i. change ((b :: l) !! S i) with (l !! i) in Hz. cbn [length] in Hle.
        split; [lia|]. split; [lia|done].
      * rewrite (M_bind_run _ _ _ _ _ E). unfold mret, M_ret.
        destruct (chunk_rest data k Hk) as (m & Em); [unfold blocks_for, BLOCK_SIZE in *; zdiv|].
        destruct (decide (blocks_for (len data) = k + 1)) as [Elast|Hmore].
        -- exists (m + n)%nat. do 2 f_equal. rewrite Em, replicate_add.
           rewrite (drop_ge data (Z.to_nat ((k + 1) * BLOCK_SIZE))); [|unfold blocks_for, len, BLOCK_SIZE in *; zdiv].
           rewrite take_ge; [by rewrite <- app_assoc|]. rewrite length_drop.
           unfold blocks_for, len, BLOCK_SIZE in *. zdiv.
        -- exists n. do 2 f_equal. assert (m = 0%nat) as ->.
           { apply (f_equal len) in Em. rewrite len_chunk, len_app in Em by (unfold blocks_for, BLOCK_SIZE in *; zdiv). unfold len in Em. rewrite length_take, length_drop, length_replicate in Em.
             unfold blocks_for, len, BLOCK_SIZE in *. zdiv. }
           rewrite Em. cbn [replicate]. rewrite app_nil_r, app_assoc. f_equal.
           replace (Z.to_nat ((k + 1) * BLOCK_SIZE)) with (Z.to_nat (k * BLOCK_SIZE) + Z.to_nat BLOCK_SIZE)%nat
             by (unfold BLOCK_SIZE; lia).
           by rewrite <- drop_drop, take_drop.
Qed.

Lemma load_dir_ok o c s es nb :
  objects s !! o = Some c → ci_file_type c = Directory → Forall entry_ok es →
  nb = blocks_for (len (entries_bytes es)) → nb ≤ DIRECT_BLOCKS → length (direct (ci_disk c)) = 12%nat →
  (∀ j, 0 ≤ j < nb → ptr c j ≠ 0 ∧ disk_read (device s) (ptr c j) = Ok (chunk (entries_bytes es) j)) →
  ptr c nb = 0 →
  load_dir_entries o s = (Ok tt, set_objects (<[o := set_dir_entries (Some es) c]> (objects s)) s).
Proof using H0.
  intros Ho Ht Hes -> Hle Hl Hbl Hz. unfold load_dir_entries. rewrite (get_obj_run _ c) by done.
  rewrite M_guard_run by (by rewrite Ht).
  assert (0 ≤ blocks_for (len (entries_bytes es))) as Hnb.
  { pose proof (len_nonneg (entries_bytes es)). unfold blocks_for, BLOCK_SIZE. zdiv. }
  destruct (read_dir_blocks_ok s (entries_bytes es) (direct (ci_disk c)) 0) as (n & E); [lia| | |].
  - intros i Hi Hlt. specialize (Hbl (Z.of_nat i) ltac:(lia)). unfold ptr, direct_at in Hbl.
    by rewrite Nat2Z.id in Hbl.
  - exists (Z.to_nat (blocks_for (len (entries_bytes es)))). split; [lia|].
    split; [unfold DIRECT_BLOCKS in Hle; lia|exact Hz].
  - rewrite (M_bind_run _ _ _ _ _ E). rewrite drop_0. unfold upd_obj, m_modify.
    rewrite (alter_at _ _ o c) by done. rewrite parse_entries_roundtrip; [done| |].
    + by apply entries_ok_disk.
    + eapply Forall_impl; [exact Hes|]. by intros e (_ & ? & _).
Qed.

(** ** Removing an entry *)

Lemma find_entry_lookup name es i e :
  find_entry name es = Some (i, e) → es !! i = Some e ∧ entry_name e = name.
Proof using Type. intros (? & ? & _)%list_find_Some. done. Qed.

Lemma find_entry_delete name es i e :
  NoDup (map entry_name es) → find_entry name es = Some (i, e) → find_entry name (delete i es) = None.
Proof using Type.
  intros Hnd (He & Hn)%find_entry_lookup. apply find_entry_None. intros (e' & En & Hin)%list_elem_of_fmap.
  apply list_elem_of_lookup in Hin as [k Hk].
  assert (∀ j x, es !! j = Some x → entry_name x = name → j = i) as Huniq.
  { intros j x Hj Hx. apply (NoDup_lookup _ j i name Hnd); rewrite list_lookup_fmap.
    - by rewrite Hj, <- Hx.
    - by rewrite He, <- Hn. }
  destruct (decide (k < i)%nat).
  - rewrite list_lookup_delete_lt in Hk by done. by apply Huniq in Hk; [lia|].
  - rewrite list_lookup_delete_ge in Hk by lia. apply Huniq in Hk; [lia|done].
Qed.

Lemma map_delete {A B} (f : A → B) i l : map f (delete i l) = delete i (map f l).
Proof using Type. revert i. induction l as [|x l IH]; intros [|i]; cbn; [done|done|done|]. f_equal. apply IH. Qed.

Lemma NoDup_delete {A} i (l : list A) : NoDup l → NoDup (delete i l).
Proof using Type. intros Hnd. eapply sublist_NoDup; [exact Hnd|apply sublist_delete]. Qed.

(** [free_inode] of an inode other than the directory's. *)
Lemma free_child o c es s ino :
  dir_state o c es s → 1 < ino < MAX_INODES → get_bit (inode_bitmap s) ino = true → ino ≠ ci_ino c →
  ∃ s', free_inode ino s = (Ok tt, s') ∧ dir_state o c es s' ∧ objects s' = objects s ∧
    inode_cache s' = delete ino (inode_cache s) ∧
    (∀ i, 0 ≤ i → get_bit (inode_bitmap s') i = negb (bool_decide (i = ino)) && get_bit (inode_bitmap s) i).
Proof using ReliableDevice0 H0.
  intros [Ho Ht He Hok Hn F St Hf Ha Wf S [Hc Hfr]] Hi Hb Hne.
  destruct (free_inode_result s ino Wf Hi Hb) as (s1 & E & (d1 & Es1 & Hbm & Hsb & C) & _ & Wf1).
  assert (∀ i, 0 ≤ i → get_bit (inode_bitmap s1) i = negb (bool_decide (i = ino)) && get_bit (inode_bitmap s) i) as Hbits.
  { intros i Hi0. rewrite Es1. cbn. apply get_clear_bit; lia. }
  exists (set_cache (delete ino (inode_cache s)) s1). split; [done|]. split; [|split; [by rewrite Es1|split; [done|done]]].
  assert (device s1 = d1) as Ed by (by rewrite Es1).
  assert (∀ b, INODE_TABLE_START ≤ b → ¬ inode_metadata b) as Hout.
  { unfold inode_metadata, INODE_TABLE_START, SUPERBLOCK_BLOCK, INODE_BITMAP_START, INODE_BITMAP_BLOCKS. lia. }
  assert (same_blocks s s1) as Hsame.
  { split; [by rewrite Es1|]. split; [by rewrite Es1|]. rewrite Ed. apply C. }
  split; try done.
  - by rewrite Es1.
  - by apply (same_blocks_file s s1) in F; destruct F.
  - destruct St as [S1 S2 S3 S4]. split; cbn [device set_cache]; rewrite ?Ed; [done| |done|].
    + intros j Hj. destruct (S2 j Hj) as [Hne0 <-]. split; [done|].
      assert (0 ≤ j < DIRECT_BLOCKS) as Hj' by (unfold saved_blocks in Hj; lia).
      destruct (ptr_block s c j F Wf Hj' Hne0) as [(Hr & _) Hbo]. apply C; [done|]. apply Hout.
      unfold INODE_TABLE_START, DATA_BLOCKS_START in *. lia.
    + rewrite <- S4. apply (disk_slot_frame _ _ _ _ C); [apply F|]. apply Hout.
      pose proof (inode_block_range _ (fo_ino _ _ F)). lia.
  - cbn [inode_bitmap set_cache]. rewrite Hbits by apply F. rewrite bool_decide_eq_false_2 by done. by rewrite Ha.
  - by apply fs_wf_cache.
  - apply (disk_synced_same s1); try done. destruct S as [Q1 Q2 Q3]. split.
    + rewrite Ed. exact Hsb.
    + rewrite Ed, Es1. exact Hbm.
    + rewrite Ed, Es1. unfold data_bitmap_on_disk, bitmap_on_disk in *. intros i Hr.
      cbn [data_bitmap set_device set_superblock set_inode_bitmap].
      rewrite (proj2 C); [by apply Q3| |];
        unfold block_ok, inode_metadata, SUPERBLOCK_BLOCK, DATA_BITMAP_START, DATA_BITMAP_BLOCKS,
          INODE_BITMAP_START, INODE_BITMAP_BLOCKS in *; lia.
  - split; cbn [inode_cache set_cache objects next_object inode_bitmap].
    + intros i o2 Hi2. apply lookup_delete_Some in Hi2 as [Hni Hi2]. destruct (Hc _ _ Hi2) as [Hi0 Hbit].
      split; [done|]. rewrite Hbits by done. rewrite bool_decide_eq_false_2 by done. by rewrite Hbit.
    + rewrite Es1. exact Hfr.
Qed.

End Dir.
