(* ===== verification/CottonNames.v ===== *)
(** * CottonFS: names

    The theorems on directories: what [create], [mkdir], [lookup] and [unlink] do
    to the entries, and what is found after mounting the device again. *)

From S2P Require Import Prelude Bytes Vfs Storage DiskLayout CottonFS CottonMeta CottonInodes CottonMount.
From S2P Require Import CottonFile CottonData CottonDir.

#[local] Set Default Proof Using "Type*".

Section Names.
Context {D : Type} `{BlockDeviceLaws D, !ReliableDevice D}.
Variable beyond : list Z.
Hypothesis Hbeyond : is_bytes beyond.
Implicit Types (d : D) (s : FS D).

(** ** Adding *)

Lemma added_lookup ino ft inode name o c es s o' c' s' :
  child_added ino ft inode name o c es s o' c' s' → dir_state o c es s → can_add name ft c es s →
  (∀ n, ¬ is_dot n → n ≠ name → find_entry n (es ++ [DiskDirEntry_new ino name ft]) = find_entry n es) ∧
  (¬ is_dot name → lookup beyond o name s' = (Ok (Some o'), s')).
Proof using Type.
  intros A Dr [Hnb Hnv Hnl Hnew _ _ _]. destruct (cd_ino _ _ _ _ _ _ _ _ _ _ _ A) as [Hi _].
  destruct (new_entry_ok ino name ft) as [Heok Hename]; [change MAX_INODES with 2048 in Hi; lia|done|done|done|].
  split.
  - intros n _ Hn. unfold find_entry. destruct (list_find _ es) as [[i x]|] eqn:E.
    + by apply list_find_app_l.
    + rewrite list_find_app_r by done. cbn [list_find]. rewrite decide_False by congruence. done.
  - intros Hdot. destruct (cd_dir _ _ _ _ _ _ _ _ _ _ _ A) as [Dr' _].
    rewrite (lookup_run beyond o c' (es ++ [DiskDirEntry_new ino name ft])); try apply Dr'; try done.
    rewrite find_entry_snoc by done. cbn [DiskDirEntry_new dde_inode].
    rewrite (M_bind_run _ _ _ _ _ (load_inode_hit beyond ino o' s' ltac:(
      destruct (cd_object _ _ _ _ _ _ _ _ _ _ _ A) as [_ ->]; apply lookup_insert_eq))). done.
Qed.

(** C11: [create] adds one name: with a free inode and room for the directory's
    blocks, it allocates an inode that was free, stores an empty file in its slot
    and the directory's entries with the new name at the end in its blocks, and
    returns the new file, which [lookup] then finds under the name and no other
    name changes its meaning; other inodes keep their slots.  A name already there
    is refused and nothing changes. *)
Theorem create_spec o c es s name :
  dir_state o c es s →
  (can_add name Regular c es s →
    ∃ ino o' c' s', create beyond o name s = (Ok o', s') ∧
      child_added ino Regular new_file name o c es s o' c' s' ∧
      (∀ n, ¬ is_dot n → n ≠ name → find_entry n (es ++ [DiskDirEntry_new ino name Regular]) = find_entry n es) ∧
      (¬ is_dot name → lookup beyond o name s' = (Ok (Some o'), s')) ∧
      ∀ off n, 0 ≤ off → 0 ≤ n → ∃ s2, read o' off n s' = (Ok [], s2)) ∧
  (len name ≤ MAX_FILENAME → name ∈ map entry_name es → create beyond o name s = (Err "File exists", s)).
Proof.
  intros Dr. split.
  - intros Ca. destruct (new_child_ok beyond Hbeyond "File exists" new_file Regular o c es s name)
      as (ino & o' & c' & s' & E & A); [done|done|apply new_file_ok|done|done|].
    destruct (added_lookup _ _ _ _ _ _ _ _ _ _ _ A Dr Ca) as [Hothers Hfound].
    exists ino, o', c', s'. split; [exact E|]. split; [done|]. split; [done|]. split; [done|].
    intros off n Hoff Hn. destruct (cd_child _ _ _ _ _ _ _ _ _ _ _ A) as (di & Eobj & Hdi & Hok).
    set (child := mkCI ino Regular di None None 0) in *. exists (loaded o' child [] s').
    rewrite (read_ok o' child s' []); [by rewrite drop_nil, take_nil| |done| | |done|done].
    + rewrite Eobj. apply lookup_insert_eq.
    + apply Hok.
    + right. split; [done|]. split; [|by vm_compute]. split; [by apply (f_equal di_size) in Hdi|].
      intros j Hj. unfold saved_blocks in Hj. change (blocks_for (len [])) with 0 in Hj. lia.
  - intros Hl Hin. unfold create. rewrite (new_child_run _ _ _ _ _ c es) by done. by rewrite decide_True.
Qed.

(** [mkdir] adds one name for a new, empty directory: the same as [create],
    with an empty directory in the slot, whose entries are [.] and [..] alone. *)
Theorem mkdir_spec o c es s name :
  dir_state o c es s → can_add name Directory c es s →
  ∃ ino o' c' s', mkdir beyond o name s = (Ok o', s') ∧
    child_added ino Directory new_dir name o c es s o' c' s' ∧
    (∀ n, ¬ is_dot n → n ≠ name → find_entry n (es ++ [DiskDirEntry_new ino name Directory]) = find_entry n es) ∧
    (¬ is_dot name → lookup beyond o name s' = (Ok (Some o'), s')) ∧
    ∃ s2, readdir o' s' = (Ok [mkDirEntry (bytes_of_string ".") Directory ino;
      mkDirEntry (bytes_of_string "..") Directory ino], s2).
Proof.
  intros Dr Ca. destruct (new_child_ok beyond Hbeyond "Directory exists" new_dir Directory o c es s name)
    as (ino & o' & c' & s' & E & A); [done|done|apply new_dir_ok|done|done|].
  destruct (added_lookup _ _ _ _ _ _ _ _ _ _ _ A Dr Ca) as [Hothers Hfound].
  exists ino, o', c', s'. split; [exact E|]. split; [done|]. split; [done|]. split; [done|].
  destruct (cd_child _ _ _ _ _ _ _ _ _ _ _ A) as (di & Eobj & Hdi & Hok).
  set (child := mkCI ino Directory di None None 0) in *.
  assert (objects s' !! o' = Some child) as Ho by (rewrite Eobj; apply lookup_insert_eq).
  eexists. unfold readdir. rewrite (get_obj_run _ child) by done. rewrite M_guard_run by done.
  rewrite decide_True by done.
  rewrite (M_bind_run _ _ _ _ _ (load_dir_ok o' child s' [] 0 Ho eq_refl (Forall_nil_2 _) eq_refl ltac:(done)
    ltac:(apply Hok) ltac:(intros; lia) ltac:(unfold ptr, direct_at; cbn [child ci_disk];
      rewrite (slot_part_direct di new_dir) by (done || lia); done))).
  rewrite (get_obj_run _ (set_dir_entries (Some []) child)) by apply lookup_insert_eq. done.
Qed.

(** ** Removing *)

(** [unlink] up to the saving of the entries. *)
Lemma unlink_run o c es s name :
  dir_state o c es s →
  unlink o name s =
    match find_entry name es with
    | None => (Err "File not found", s)
    | Some (i, e) => (save_dir_entries o;; free_inode (dde_inode e)) (dir_staged o c (delete i es) s)
    end.
Proof using Type.
  intros [Ho Ht He Hok _ _ _ _ _ _ _ _]. unfold unlink. rewrite (get_obj_run _ c) by done.
  rewrite M_guard_run by (by rewrite Ht). rewrite decide_False by (by rewrite He).
  rewrite M_ret_run, (get_obj_run _ c) by done. rewrite He. cbn [ok_or].
  rewrite M_lift_run, position_ok, M_lift_run by done.
  destruct (find_entry name es) as [[i e]|] eqn:Ef; [|done]. cbn [fmap option_fmap option_map fst].
  apply find_entry_lookup in Ef as [-> _]. by rewrite (stage_dir_run _ c).
Qed.

(** C12: [unlink] of a name whose entry has an allocated inode, not the root's and not
    the directory's, removes exactly this entry, stores the remaining entries and
    frees the inode, provided the directory keeps its number of saved blocks without
    it (the only entry reappears: [unlink_last_reappears]); afterwards the name is not
    found.  A name that is not there is refused and
    nothing changes. *)
Theorem unlink_spec o c es s name :
  dir_state o c es s →
  match find_entry name es with
  | None => unlink o name s = (Err "File not found", s)
  | Some (i, e) =>
      saved_blocks (entries_bytes (delete i es)) = saved_blocks (entries_bytes es) →
      1 < dde_inode e < MAX_INODES → get_bit (inode_bitmap s) (dde_inode e) = true → dde_inode e ≠ ci_ino c →
      ∃ c' s', unlink o name s = (Ok tt, s') ∧ dir_state o c' (delete i es) s' ∧
        (¬ is_dot name → lookup beyond o name s' = (Ok None, s')) ∧
        (∀ i, 0 ≤ i → get_bit (inode_bitmap s') i = negb (bool_decide (i = dde_inode e)) && get_bit (inode_bitmap s) i) ∧
        inode_cache s' = delete (dde_inode e) (inode_cache s) ∧
        (∀ o2, o2 ≠ o → objects s' !! o2 = objects s !! o2)
  end.
Proof using H0 ReliableDevice0.
  intros Dr. pose proof (unlink_run o c es s name Dr) as Hrun.
  destruct (find_entry name es) as [[i e]|] eqn:Ef; [|exact Hrun].
  intros Hsb Hi Hb Hne. pose proof (find_entry_lookup _ _ _ _ Ef) as [Hie _].
  pose proof Dr as [Ho _ He Hok Hn F St Hf _ Wf S _].
  assert (Forall entry_ok (delete i es)) as Hes' by (by apply Forall_delete).
  destruct (dir_saved o c es s (delete i es) s) as (c' & s4 & E4 & Dr4 & Eino & Eobj4 & Ebm4 & Ecache4 & _);
    [done|by split|done| | |lia| |].
  { rewrite map_delete. by apply NoDup_delete. }
  { rewrite len_entries in Hf |- * by done. unfold len in *. rewrite length_delete by eauto.
    unfold DIR_ENTRY_SIZE in *. lia. }
  { rewrite Hsb. unfold missing. rewrite count_range_zero; [by apply clear_bits_bounds; unfold device_blocks, max_blocks, sat_sub; lia|].
    intros j Hj. apply Z.eqb_neq. by apply (st_blocks _ _ _ St). }
  destruct (free_child o c' (delete i es) s4 (dde_inode e)) as (s5 & E5 & Dr5 & Eobj5 & Ecache5 & Hbits5);
    [done|done|by rewrite Ebm4|by rewrite Eino|].
  exists c', s5. split; [by rewrite Hrun, (M_bind_run _ _ _ _ _ E4)|]. split; [done|]. split; [|split; [|split]].
  - intros Hdot. rewrite (lookup_run beyond o c' (delete i es)) by (apply Dr5 || done).
    by rewrite (find_entry_delete _ _ _ e).
  - intros k Hk. by rewrite Hbits5, Ebm4.
  - by rewrite Ecache5, Ecache4.
  - intros o2 Ho2. rewrite Eobj5, Eobj4. by rewrite lookup_insert_ne.
Qed.

(** Removing the only entry of a directory writes no block: [unlink] succeeds and
    the name is gone from the cached directory, but the directory loaded from the
    device still has it. *)
Theorem unlink_last_reappears o c e s :
  dir_state o c [e] s → 1 < dde_inode e < MAX_INODES → get_bit (inode_bitmap s) (dde_inode e) = true →
  ¬ is_dot (entry_name e) →
  ∃ s' s'', unlink o (entry_name e) s = (Ok tt, s') ∧ lookup beyond o (entry_name e) s' = (Ok None, s') ∧
    load_dir_entries o s' = (Ok tt, s'') ∧ ∃ c'', objects s'' !! o = Some c'' ∧ dir_entries c'' = Some [e].
Proof using H0 ReliableDevice0.
  intros Dr Hi Hb Hdot. pose proof (unlink_run o c [e] s (entry_name e) Dr) as Hrun.
  pose proof Dr as [Ho Ht He Hok Hn F St Hf _ Wf S _].
  assert (find_entry (entry_name e) [e] = Some (0%nat, e)) as Ef.
  { unfold find_entry. cbn [list_find]. by rewrite decide_True. }
  rewrite Ef in Hrun. cbn [delete list_delete] in Hrun.
  set (c3 := set_dirty 1 (set_dir_entries (Some []) c)). set (s3 := dir_staged o c [] s) in *.
  assert (objects s3 !! o = Some c3) as Ho3 by apply lookup_insert_eq.
  assert (file_ok s3 c3) as F3 by (by destruct (same_blocks_file s s3 c)).
  destruct (store_inode_ok o c3 s3 [] Ho3 F3) as (d' & c' & E & Ec & C & _); [by apply fs_wf_objects|by apply disk_synced_objects|done|].
  set (s4 := set_device d' (set_objects (<[o := c']> (objects s3)) s3)) in *.
  assert (save_dir_entries o s3 = (Ok tt, s4)) as Esave.
  { unfold save_dir_entries. rewrite (get_obj_run _ c3) by done. by rewrite M_guard_run by (by apply bool_decide_eq_true). }
  assert (fs_wf s4) as Wf4.
  { apply fs_wf_device; [by apply fs_wf_objects, fs_wf_objects|]. eapply changed_metadata; [exact C|apply Wf]. }
  destruct (free_inode_result s4 (dde_inode e) Wf4 Hi Hb) as (s5 & E5 & (d5 & Es5 & _ & _ & C5) & _).
  rewrite (M_bind_run _ _ _ _ _ Esave), E5 in Hrun.
  set (s6 := set_cache (delete (dde_inode e) (inode_cache s4)) s5) in *.
  assert (objects s6 !! o = Some c') as Ho6.
  { unfold s6. rewrite Es5. apply lookup_insert_eq. }
  assert (dir_entries c' = Some [] ∧ ci_file_type c' = Directory ∧ ∀ j, ptr c' j = ptr c j) as (Hde & Hty & Hptr) by (by rewrite Ec).
  assert (blocks_for (len (entries_bytes [e])) = 1) as Hnb.
  { by rewrite len_entries by done. }
  exists s6. eexists. split; [exact Hrun|]. split.
  { rewrite (lookup_run beyond o c' []) by (done || by constructor). done. }
  split.
  - apply (load_dir_ok o c' s6 [e] 1); try done.
    + rewrite Ec. apply (file_ok_length _ _ F).
    + intros j Hj. rewrite Hptr. destruct (st_blocks _ _ _ St j) as [Hne <-]; [unfold saved_blocks; rewrite Hnb; done|].
      split; [done|]. assert (0 ≤ j < DIRECT_BLOCKS) as Hj' by (unfold DIRECT_BLOCKS; lia).
      destruct (ptr_block s c j F Wf Hj' Hne) as [(Hr & _) Hbo].
      pose proof (inode_block_range _ (fo_ino _ _ F)) as Hib.
      assert (device s6 = d5) as -> by (unfold s6; by rewrite Es5). etrans; [apply C5; [done|]|apply C; [done|]].
      * unfold inode_metadata, SUPERBLOCK_BLOCK, INODE_BITMAP_START, INODE_BITMAP_BLOCKS, DATA_BLOCKS_START in *. lia.
      * change (ci_ino c3) with (ci_ino c). lia.
    + rewrite Hptr. apply (st_holes _ _ _ St). unfold saved_blocks. rewrite Hnb. done.
  - exists (set_dir_entries (Some [e]) c'). split; [apply lookup_insert_eq|done].
Qed.

(** ** Mounting again *)

(** [lookup] in a directory that is not loaded yet loads it first. *)
Lemma lookup_load_run o c es s name :
  objects s !! o = Some c → ci_file_type c = Directory → dir_entries c = None → Forall entry_ok es → ¬ is_dot name →
  load_dir_entries o s = (Ok tt, set_objects (<[o := set_dir_entries (Some es) c]> (objects s)) s) →
  lookup beyond o name s =
    match find_entry name es with
    | Some (_, e) => (i ← load_inode beyond (dde_inode e); mret (Some i))
    | None => mret None
    end (set_objects (<[o := set_dir_entries (Some es) c]> (objects s)) s).
Proof using Type.
  intros Ho Ht He Hok Hdot Eload. unfold lookup. rewrite (get_obj_run _ c) by done.
  rewrite M_guard_run by (by rewrite Ht).
  rewrite decide_False by (intros ->; apply Hdot; by left). rewrite decide_False by (intros ->; apply Hdot; by right).
  rewrite decide_True by done. rewrite (M_bind_run _ _ _ _ _ Eload).
  rewrite (get_obj_run _ (set_dir_entries (Some es) c)) by apply lookup_insert_eq.
  cbn [dir_entries set_dir_entries ok_or]. rewrite M_lift_run, position_ok, M_lift_run by done.
  destruct (find_entry name es) as [[i e]|] eqn:Ef; [|done]. cbn [fmap option_fmap option_map fst mbind option_bind].
  by apply find_entry_lookup in Ef as [-> _].
Qed.

(** The root directory as a fresh mount reads it: seven blocks are as far as the
    pointers of a slot go, the eighth ending the scan. *)
Lemma root_reloads o c es s s1 :
  dir_state o c es s → ci_ino c = ROOT_INODE → di_file_type (ci_disk c) = 2 →
  saved_blocks (entries_bytes es) ≤ 7 → device s1 = device s → root_loaded s1 →
  ∃ c1, objects s1 !! root s1 = Some c1 ∧ dir_entries c1 = None ∧ ci_file_type c1 = Directory ∧
    load_dir_entries (root s1) s1 =
      (Ok tt, set_objects (<[root s1 := set_dir_entries (Some es) c1]> (objects s1)) s1).
Proof using H0.
  intros [_ _ _ Hok _ _ [_ Hbl Hholes Hslot] Hf _ _ _ _] Hroot Hty Hsv Hdev [_ (di & Ho & _ & Hdi & Hs)].
  rewrite Hdev, <- Hroot, Hslot in Hs. apply (inj Ok) in Hs. symmetry in Hs.
  assert (get_file_type di = Directory) as Hdt.
  { unfold get_file_type. assert (di_file_type di = 2) as -> by (rewrite <- Hty; by apply (f_equal di_file_type) in Hs). done. }
  rewrite Hdt in Ho. set (c1 := mkCI ROOT_INODE Directory di None None 0) in *.
  assert (0 ≤ blocks_for (len (entries_bytes es))) as Hnb0.
  { pose proof (len_nonneg (entries_bytes es)). unfold blocks_for, BLOCK_SIZE. zdiv. }
  assert (saved_blocks (entries_bytes es) = blocks_for (len (entries_bytes es))) as Esv.
  { unfold saved_blocks in *. unfold FILE_MAX, blocks_for, DIRECT_BLOCKS, BLOCK_SIZE in *. zdiv. }
  assert (∀ j, 0 ≤ j < 8 → ptr c1 j = ptr c j) as Hptr.
  { intros j Hj. unfold ptr, direct_at. cbn [c1 ci_disk]. by rewrite (slot_part_direct di (ci_disk c)) by (done || lia). }
  exists c1. split; [done|]. split; [done|]. split; [done|].
  apply (load_dir_ok (root s1) c1 s1 es (saved_blocks (entries_bytes es))); try done.
  - unfold DIRECT_BLOCKS. lia.
  - apply Hdi.
  - intros j Hj. rewrite Hptr, Hdev by lia. by apply Hbl.
  - rewrite Hptr by lia. apply Hholes. unfold DIRECT_BLOCKS. lia.
Qed.

(** The names of the root directory survive a mount: as long as its entries
    fit seven blocks, after mounting the device again [lookup] finds nothing under
    the names that were not there, and under each name that was there the inode it
    named, as its slot holds it. *)
Theorem root_names_persist o c es s s0 :
  dir_state o c es s → ci_ino c = ROOT_INODE → di_file_type (ci_disk c) = 2 → saved_blocks (entries_bytes es) ≤ 7 →
  is_formatted (superblock s) = true → device s0 = device s →
  ∃ s1, CottonFS_new beyond s0 = (Ok tt, s1) ∧ ∀ name, ¬ is_dot name →
    match find_entry name es with
    | None => ∃ s2, lookup beyond (root s1) name s1 = (Ok None, s2)
    | Some (_, e) => ∀ p, dde_inode e ≠ ROOT_INODE → ino_ok (dde_inode e) →
        disk_slot (device s) (dde_inode e) = Ok (slot_part p) → di_is_free p = false →
        ∃ o1 s2 c1, lookup beyond (root s1) name s1 = (Ok (Some o1), s2) ∧ objects s2 !! o1 = Some c1 ∧
          ci_ino c1 = dde_inode e ∧ ci_file_type c1 = get_file_type p ∧ slot_part (ci_disk c1) = slot_part p
    end.
Proof.
  intros Dr Hroot Hty Hsv Hfmt Hdev. pose proof Dr as [_ _ _ Hok _ F St _ _ Wf S _].
  assert (disk_slot (device s) ROOT_INODE = Ok (slot_part (ci_disk c))) as Hslot by (rewrite <- Hroot; apply St).
  assert (di_is_free (ci_disk c) = false) as Hnf by (unfold di_is_free; by rewrite Hty).
  destruct (remount beyond Hbeyond s s0 (ci_disk c) Wf S Hfmt Hdev Hslot Hnf)
    as (s1 & E1 & Ed1 & _ & _ & _ & Hr1 & Wf1 & _).
  exists s1. split; [done|]. intros name Hdot.
  destruct (root_reloads o c es s s1 Dr Hroot Hty Hsv Ed1 Hr1) as (c1 & Ho1 & Hde1 & Hty1 & Eload).
  set (c2 := set_dir_entries (Some es) c1) in *. set (s2 := set_objects _ _) in Eload.
  rewrite (lookup_load_run _ c1 es) by done. fold c2. fold s2.
  destruct (find_entry name es) as [[i e]|] eqn:Ef; [|by exists s2].
  intros p Hne Hino Hs Hp. destruct Hr1 as [Hcache _].
  destruct (load_inode_miss beyond Hbeyond (dde_inode e) p s2) as (di & El & Hdi & _); try done.
  { unfold s2. cbn. rewrite Hcache. by rewrite lookup_singleton_ne. }
  { apply Wf1. } { unfold s2. cbn [device set_objects]. by rewrite Ed1. }
  do 3 eexists. split; [by rewrite (M_bind_run _ _ _ _ _ El)|]. split; [apply lookup_insert_eq|]. split; [done|].
  split; [|done]. cbn. unfold get_file_type. f_equal. by apply (f_equal di_file_type) in Hdi.
Qed.

End Names.

(** ** Witnesses *)

Module NamesExample.
Import RamDisk MountExample.

Definition root_c : CottonInode := mkCI ROOT_INODE Directory new_dir (Some []) None 0.

(** A mounted file system whose empty root directory is loaded as object 7. *)
Definition root_fs (d : ram_disk) : FS ram_disk :=
  set_next_object 8 (set_cache {[ ROOT_INODE := 7 ]} (set_objects {[ 7 := root_c ]} (set_device d (blank_fs ram0)))).

Lemma fs_wf_next {D} `{BlockDevice D} n (s : FS D) : fs_wf s → fs_wf (set_next_object n s).
Proof. intros W. by apply (fs_wf_same s). Qed.

Lemma disk_synced_cache {D} `{BlockDevice D} n c (s : FS D) :
  disk_synced s → disk_synced (set_next_object n (set_cache c s)).
Proof. intros W. by apply (disk_synced_same s). Qed.

Lemma ptr_root j : ptr root_c j = 0.
Proof.
  unfold ptr, direct_at. cbn [root_c ci_disk new_dir direct]. unfold zeros.
  destruct (replicate _ 0 !! Z.to_nat j) eqn:E; [|done]. by apply lookup_replicate in E as [-> _].
Qed.

Lemma root_c_ok s : file_ok s root_c.
Proof.
  split.
  - apply new_dir_ok.
  - by vm_compute.
  - intros b (j & _ & <-) Hne. by rewrite ptr_root in Hne.
  - intros i j _ _ _ Hne. by rewrite ptr_root in Hne.
Qed.

Lemma blank_inode_bit d i : 0 ≤ i → get_bit (inode_bitmap (root_fs d)) i = bool_decide (i = ROOT_INODE).
Proof.
  intros Hi. cbn [root_fs inode_bitmap set_next_object set_cache set_objects set_device blank_fs].
  rewrite get_set_bit, get_bit_zeros, orb_false_r by done. rewrite len_zeros by done. by rewrite andb_true_r.
Qed.

Lemma root_state : ∃ d, dir_state 7 root_c [] (root_fs d) ∧ room (root_fs d) = 384 ∧
  is_formatted (superblock (root_fs d)) = true.
Proof.
  destruct fs0_synced as (d & S & W & Hs & Ht). exists d. split; [|split; [|done]].
  - apply mk_dir_state; [reflexivity|reflexivity|reflexivity|by apply Forall_nil_2|by apply NoDup_nil_2|apply root_c_ok| |done| | | |].
    + split; [done|intros j Hj; change (saved_blocks (entries_bytes [])) with 0 in Hj; lia|intros; apply ptr_root|exact Hs].
    + by rewrite blank_inode_bit.
    + apply fs_wf_next, fs_wf_cache, fs_wf_objects, W.
    + apply disk_synced_cache, disk_synced_objects, S.
    + split.
      * intros ino o Hi. cbn [root_fs inode_cache set_next_object set_cache] in Hi.
        apply lookup_singleton_Some in Hi as [<- _]. split; [done|]. by rewrite blank_inode_bit.
      * intros o c Ho. cbn [root_fs objects set_next_object set_cache set_objects] in Ho.
        apply lookup_singleton_Some in Ho as [<- _]. cbn [root_fs next_object set_next_object]. lia.
  - assert (device_blocks (root_fs d) = 384) as E.
    { unfold device_blocks. cbn [root_fs device set_next_object set_cache set_device set_objects]. rewrite Ht. by vm_compute. }
    unfold room. rewrite E. by apply (clear_bits_zeros 384).
Qed.

Lemma can_add_a d ft : room (root_fs d) = 384 → can_add [97] ft root_c [] (root_fs d).
Proof.
  intros Hr. split.
  - by repeat constructor.
  - apply valid_utf8_ascii. by repeat constructor.
  - done.
  - apply not_elem_of_nil.
  - by vm_compute.
  - rewrite Hr. by destruct ft; vm_compute.
  - exists 2. split; [done|]. by rewrite blank_inode_bit.
Qed.

Lemma create_spec_witness : ∃ d ino o' c' s', create [] 7 [97] (root_fs d) = (Ok o', s') ∧
  child_added ino Regular new_file [97] 7 root_c [] (root_fs d) o' c' s'.
Proof.
  destruct root_state as (d & Dr & Hr & _). exists d.
  destruct (proj1 (create_spec [] (Forall_nil_2 _) 7 root_c [] (root_fs d) [97] Dr) (can_add_a d Regular Hr))
    as (ino & o' & c' & s' & E & A & _).
  exists ino, o', c', s'. exact (conj E A).
Defined.

Lemma mkdir_spec_witness : ∃ d ino o' c' s', mkdir [] 7 [97] (root_fs d) = (Ok o', s') ∧
  child_added ino Directory new_dir [97] 7 root_c [] (root_fs d) o' c' s'.
Proof.
  destruct root_state as (d & Dr & Hr & _). exists d.
  destruct (mkdir_spec [] (Forall_nil_2 _) 7 root_c [] (root_fs d) [97] Dr (can_add_a d Directory Hr))
    as (ino & o' & c' & s' & E & A & _).
  exists ino, o', c', s'. exact (conj E A).
Defined.

(** A directory with the names [a] and [b]. *)
Lemma two_names : ∃ (s : FS ram_disk) c i1 i2 ino1 ino2, 1 < ino2 < MAX_INODES ∧
  get_bit (inode_bitmap s) ino2 = true ∧ ino2 ≠ ci_ino c ∧ i1 = DiskDirEntry_new ino1 [97] Regular ∧
  i2 = DiskDirEntry_new ino2 [98] Regular ∧ dir_state 7 c [i1; i2] s.
Proof.
  destruct root_state as (d & Dr & Hr & _).
  destruct (new_child_ok [] (Forall_nil_2 _) "File exists" new_file Regular 7 root_c [] (root_fs d) [97] Dr (can_add_a d Regular Hr)
    new_file_ok eq_refl eq_refl) as (ino1 & o1 & c1 & s1 & _ & A1).
  pose proof (cd_dir _ _ _ _ _ _ _ _ _ _ _ A1) as [Dr1 Ei1]. cbn [app] in Dr1.
  pose proof (cd_bits _ _ _ _ _ _ _ _ _ _ _ A1) as Hb1. set (e1 := DiskDirEntry_new ino1 [97] Regular) in *.
  assert (entry_name e1 = [97]) as En1 by done.
  assert (Forall entry_ok [e1; DiskDirEntry_new 1 [98] Regular]) as Hok2.
  { constructor; [by eapply Forall_inv, (dr_ok _ _ _ _ Dr1)|]. constructor; [|constructor].
    apply new_entry_ok; [done|by repeat constructor|apply valid_utf8_ascii; by repeat constructor|done]. }
  assert (can_add [98] Regular c1 [e1] s1) as Ca.
  { split; [by repeat constructor|apply valid_utf8_ascii; by repeat constructor|done| | | |].
    - cbn [map]. rewrite En1. by intros ?%list_elem_of_singleton.
    - rewrite len_entries by apply Dr1. by vm_compute.
    - cbn [app]. unfold saved_blocks. rewrite len_entries by done. change (missing c1 0 1 ≤ room s1).
      unfold missing. rewrite count_range_zero.
      + apply clear_bits_bounds. unfold device_blocks, max_blocks, sat_sub. lia.
      + intros j Hj. apply Z.eqb_neq. apply (st_blocks _ _ _ (dr_stored _ _ _ _ Dr1)).
        unfold saved_blocks. rewrite len_entries by apply Dr1. done.
    - destruct (decide (ino1 = 5)) as [->|]; [exists 6|exists 5]; (split; [done|]); rewrite Hb1, blank_inode_bit by done;
        rewrite !bool_decide_eq_false_2 by done; done. }
  destruct (new_child_ok [] (Forall_nil_2 _) "File exists" new_file Regular 7 c1 [e1] s1 [98] Dr1 Ca
    new_file_ok eq_refl eq_refl) as (ino2 & o2 & c2 & s2 & _ & A2).
  pose proof (cd_dir _ _ _ _ _ _ _ _ _ _ _ A2) as [Dr2 Ei2]. cbn [app] in Dr2.
  destruct (cd_ino _ _ _ _ _ _ _ _ _ _ _ A2) as [Hi2 Hf2].
  assert (ino2 ≠ ROOT_INODE) as Hne.
  { intros ->. rewrite Hb1, blank_inode_bit in Hf2 by done. rewrite (bool_decide_eq_true_2 (ROOT_INODE = ROOT_INODE)) in Hf2 by done.
    by rewrite orb_true_r in Hf2. }
  exists s2, c2, e1, (DiskDirEntry_new ino2 [98] Regular), ino1, ino2. split; [unfold ROOT_INODE in Hne; lia|].
  split; [|split; [|done]].
  - rewrite (cd_bits _ _ _ _ _ _ _ _ _ _ _ A2) by lia. by rewrite bool_decide_eq_true_2.
  - by rewrite Ei2, Ei1.
Qed.

Lemma unlink_spec_witness : ∃ (s s' : FS ram_disk) c c' e1 e2, dir_state 7 c [e1; e2] s ∧
  unlink 7 [98] s = (Ok tt, s') ∧ dir_state 7 c' [e1] s'.
Proof.
  destruct two_names as (s & c & e1 & e2 & ino1 & ino2 & Hi & Hb & Hne & E1 & E2 & Dr).
  pose proof (unlink_spec [] 7 c [e1; e2] s [98] Dr) as U.
  assert (find_entry [98] [e1; e2] = Some (1%nat, e2)) as Ef by (rewrite E1, E2; reflexivity).
  rewrite Ef in U. cbn [delete list_delete] in U.
  destruct U as (c' & s' & E & Dr' & _).
  - unfold saved_blocks. rewrite !len_entries; [reflexivity|apply Dr|]. apply (Forall_delete _ [e1; e2] 1), Dr.
  - rewrite E2. exact Hi.
  - rewrite E2. exact Hb.
  - rewrite E2. exact Hne.
  - exists s, s', c, c', e1, e2. exact (conj Dr (conj E Dr')).
Defined.

Lemma root_names_persist_witness : ∃ (d : ram_disk) s1, CottonFS_new [] (root_fs d) = (Ok tt, s1) ∧
  ∃ s2, lookup [] (root s1) [97] s1 = (Ok None, s2).
Proof.
  destruct root_state as (d & Dr & Hr & Hf). exists d.
  destruct (root_names_persist [] (Forall_nil_2 _) 7 root_c [] (root_fs d) (root_fs d) Dr eq_refl eq_refl
    ltac:(by vm_compute) Hf eq_refl) as (s1 & E & Hl).
  exists s1. split; [exact E|]. apply (Hl [97]). intros [Hd|Hd]; discriminate Hd.
Defined.

End NamesExample.
