(* ===== verification/Process.v ===== *)
(** * Processes and threads: [proc/process.rs], [proc/thread.rs]

    The process and thread control blocks and the operations that create and
    change them.  Stacks come from the frame allocator of [Physical], page-table
    roots from [VirtMem.AddressSpace_new]. *)

From S2P Require Import Prelude Physical Paging VirtMem.

(** ** Data *)

Inductive ProcessState : Type := PCreated | PReady | PRunning | PBlocked | PSleeping | PZombie.

#[export] Instance ProcessState_eq_dec : EqDecision ProcessState.
Proof. solve_decision. Defined.

Inductive Priority : Type := PIdle | PLow | PNormal | PHigh | PRealtime.

#[export] Instance Priority_eq_dec : EqDecision Priority.
Proof. solve_decision. Defined.

(** [priority as usize] *)
Definition priority_index (p : Priority) : nat :=
  match p with PIdle => 0 | PLow => 1 | PNormal => 2 | PHigh => 3 | PRealtime => 4 end.

(** The x86_64 registers. *)
Record CpuContext : Type := mkCtx {
  rax : Z; rbx : Z; rcx : Z; rdx : Z; rsi : Z; rdi : Z; rbp : Z; rsp : Z;
  r8 : Z; r9 : Z; r10 : Z; r11 : Z; r12 : Z; r13 : Z; r14 : Z; r15 : Z;
  rip : Z; rflags : Z; cs : Z; ss : Z;
}.

Definition CpuContext_default : CpuContext := mkCtx 0 0 0 0 0 0 0 0 0 0 0 0 0 0 0 0 0 0 0 0.

Definition set_rsp (v : Z) (c : CpuContext) : CpuContext :=
  mkCtx (rax c) (rbx c) (rcx c) (rdx c) (rsi c) (rdi c) (rbp c) v (r8 c) (r9 c) (r10 c) (r11 c) (r12 c)
    (r13 c) (r14 c) (r15 c) (rip c) (rflags c) (cs c) (ss c).
Definition set_rdi (v : Z) (c : CpuContext) : CpuContext :=
  mkCtx (rax c) (rbx c) (rcx c) (rdx c) (rsi c) v (rbp c) (rsp c) (r8 c) (r9 c) (r10 c) (r11 c) (r12 c)
    (r13 c) (r14 c) (r15 c) (rip c) (rflags c) (cs c) (ss c).
Definition set_rip (v : Z) (c : CpuContext) : CpuContext :=
  mkCtx (rax c) (rbx c) (rcx c) (rdx c) (rsi c) (rdi c) (rbp c) (rsp c) (r8 c) (r9 c) (r10 c) (r11 c) (r12 c)
    (r13 c) (r14 c) (r15 c) v (rflags c) (cs c) (ss c).
Definition set_mode (fl code data : Z) (c : CpuContext) : CpuContext :=
  mkCtx (rax c) (rbx c) (rcx c) (rdx c) (rsi c) (rdi c) (rbp c) (rsp c) (r8 c) (r9 c) (r10 c) (r11 c) (r12 c)
    (r13 c) (r14 c) (r15 c) (rip c) fl code data.

Record Process : Type := mkProc {
  pid : Z;
  parent : option Z;
  pname : string;
  pstate : ProcessState;
  priority : Priority;
  context : CpuContext;
  address_space : option Z;
  kernel_stack : Z;
  user_stack : Z;
  exit_status : option Z;
  time_slice : Z;
  cpu_time : Z;
  children : list Z;
  file_descriptors : list (option Z);
  cwd : string;
  is_kernel : bool;
}.

Definition set_pstate (st : ProcessState) (p : Process) : Process :=
  mkProc (pid p) (parent p) (pname p) st (priority p) (context p) (address_space p) (kernel_stack p) (user_stack p)
    (exit_status p) (time_slice p) (cpu_time p) (children p) (file_descriptors p) (cwd p) (is_kernel p).
Definition set_context (c : CpuContext) (p : Process) : Process :=
  mkProc (pid p) (parent p) (pname p) (pstate p) (priority p) c (address_space p) (kernel_stack p) (user_stack p)
    (exit_status p) (time_slice p) (cpu_time p) (children p) (file_descriptors p) (cwd p) (is_kernel p).
Definition set_exit_status (st : option Z) (p : Process) : Process :=
  mkProc (pid p) (parent p) (pname p) (pstate p) (priority p) (context p) (address_space p) (kernel_stack p) (user_stack p)
    st (time_slice p) (cpu_time p) (children p) (file_descriptors p) (cwd p) (is_kernel p).
Definition set_times (slice time : Z) (p : Process) : Process :=
  mkProc (pid p) (parent p) (pname p) (pstate p) (priority p) (context p) (address_space p) (kernel_stack p) (user_stack p)
    (exit_status p) slice time (children p) (file_descriptors p) (cwd p) (is_kernel p).
(** The fields [fork] copies from the parent besides the context. *)
Definition inherit (q : Process) (p : Process) : Process :=
  mkProc (pid p) (parent p) (pname p) (pstate p) (priority q) (context q) (address_space p) (kernel_stack p) (user_stack p)
    (exit_status p) (time_slice p) (cpu_time p) (children p) (file_descriptors q) (cwd q) (is_kernel p).

(** ** Identifiers and memory

    The counters [NEXT_PID], [NEXT_TID] and [NEXT_TLS_KEY], and the memory the
    control blocks are given. *)

Record World : Type := mkWorld {
  memory : PT FrameAllocator;
  next_pid : Z;
  next_tid : Z;
  next_tls_key : Z;
}.

Definition set_memory (m : PT FrameAllocator) (w : World) : World :=
  mkWorld m (next_pid w) (next_tid w) (next_tls_key w).

Definition alloc_pid (w : World) : Z * World :=
  (next_pid w, mkWorld (memory w) (u32 (next_pid w + 1)) (next_tid w) (next_tls_key w)).

Definition alloc_tid (w : World) : Z * World :=
  (next_tid w, mkWorld (memory w) (next_pid w) (u64 (next_tid w + 1)) (next_tls_key w)).

Definition alloc_tls_key (w : World) : Z * World :=
  (u32 (next_tls_key w), mkWorld (memory w) (next_pid w) (next_tid w) (u64 (next_tls_key w + 1))).

(** [physical::alloc_frames] *)
Definition alloc_frames (n : Z) (w : World) : option Z * World :=
  let '(r, fr) := alloc_contiguous n (frames (memory w)) in
  (r, set_memory (mkPT (mem (memory w)) fr) w).

(** [AddressSpace::new]: its [page_table_root] is all that is kept. *)
Definition new_root (p : Z) (w : World) : option Z * World :=
  let '(a, m) := AddressSpace_new p (memory w) in
  (page_table_root <$> a, set_memory m w).

(** ** Processes *)

Definition setup_kernel_context (p : Process) : Process :=
  set_context (set_mode 0x202 0x08 0x10 (set_rsp (kernel_stack p) (context p))) p.

Definition setup_user_context (p : Process) : Process :=
  set_context (set_mode 0x202 0x1B 0x23 (set_rsp 0x7FFFFFFFF000 (context p))) p.

Definition new_kernel (name : string) (w : World) : option Process * World :=
  let '(p, w) := alloc_pid w in
  match alloc_frames 4 w with
  | (None, w) => (None, w)
  | (Some stack, w) =>
      (Some (setup_kernel_context
        (mkProc p None name PCreated PNormal CpuContext_default None (u64 (stack + 16384)) 0 None 10 0 []
           (replicate 256 None) "/" true)), w)
  end.

Definition new_user (name : string) (par : Z) (w : World) : option Process * World :=
  let '(p, w) := alloc_pid w in
  match new_root p w with
  | (None, w) => (None, w)
  | (Some root, w) =>
      match alloc_frames 4 w with
      | (None, w) => (None, w)
      | (Some kstack, w) =>
          match alloc_frames 4 w with
          | (None, w) => (None, w)
          | (Some ustack, w) =>
              (Some (setup_user_context
                (mkProc p (Some par) name PCreated PNormal CpuContext_default (Some root) (u64 (kstack + 16384))
                   (u64 (ustack + 16384)) None 10 0 [] (replicate 256 None) "/" false)), w)
          end
      end
  end.

Definition Process_fork (q : Process) (w : World) : option Process * World :=
  match (if is_kernel q then new_kernel (pname q) w else new_user (pname q) (pid q) w) with
  | (None, w) => (None, w)
  | (Some child, w) => (Some (inherit q child), w)
  end.

Definition set_entry (entry : Z) (p : Process) : Process := set_context (set_rip entry (context p)) p.
Definition set_arg (arg : Z) (p : Process) : Process := set_context (set_rdi arg (context p)) p.

(** ** Threads *)

Inductive ThreadState : Type := TCreated | TReady | TRunning | TBlocked | TSleeping | TTerminated.

#[export] Instance ThreadState_eq_dec : EqDecision ThreadState.
Proof. solve_decision. Defined.

Record Thread : Type := mkThread {
  tid : Z;
  t_pid : Z;
  t_name : string;
  t_state : ThreadState;
  t_priority : Priority;
  t_context : CpuContext;
  t_kernel_stack : Z;
  t_user_stack : Z;
  t_time_slice : Z;
  t_cpu_time : Z;
  tls : Z;
  exit_value : option Z;
  is_main : bool;
}.

Definition set_t_state (st : ThreadState) (t : Thread) : Thread :=
  mkThread (tid t) (t_pid t) (t_name t) st (t_priority t) (t_context t) (t_kernel_stack t) (t_user_stack t)
    (t_time_slice t) (t_cpu_time t) (tls t) (exit_value t) (is_main t).

Definition Thread_new_kernel (p : Z) (name : string) (entry arg : Z) (w : World) : option Thread * World :=
  let '(t, w) := alloc_tid w in
  match alloc_frames 2 w with
  | (None, w) => (None, w)
  | (Some stack, w) =>
      let stack_top := u64 (stack + 8192) in
      (Some (mkThread t p name TCreated PNormal
        (set_mode 0x202 0x08 0x10 (set_rdi arg (set_rip entry (set_rsp stack_top CpuContext_default))))
        stack_top 0 10 0 0 None false), w)
  end.

Definition Thread_new_user (p : Z) (name : string) (entry arg stack : Z) (w : World) : option Thread * World :=
  let '(t, w) := alloc_tid w in
  match alloc_frames 2 w with
  | (None, w) => (None, w)
  | (Some kstack, w) =>
      (Some (mkThread t p name TCreated PNormal
        (set_mode 0x202 0x1B 0x23 (set_rdi arg (set_rip entry (set_rsp stack CpuContext_default))))
        (u64 (kstack + 8192)) stack 10 0 0 None false), w)
  end.

Definition Thread_exit (value : Z) (t : Thread) : Thread :=
  mkThread (tid t) (t_pid t) (t_name t) TTerminated (t_priority t) (t_context t) (t_kernel_stack t) (t_user_stack t)
    (t_time_slice t) (t_cpu_time t) (tls t) (Some value) (is_main t).
Definition Thread_yield_now (t : Thread) : Thread :=
  if decide (t_state t = TRunning) then set_t_state TReady t else t.
Definition Thread_sleep : Thread → Thread := set_t_state TSleeping.
Definition Thread_wake (t : Thread) : Thread :=
  if decide (t_state t = TSleeping ∨ t_state t = TBlocked) then set_t_state TReady t else t.
Definition Thread_block : Thread → Thread := set_t_state TBlocked.
