(* ===== verification/Scheduler.v ===== *)
(** * The process table and the scheduler: [proc/mod.rs], [proc/scheduler.rs]

    The kernel state is the process table, the scheduler and the counters.  A
    switch to another process is the load of its stack pointer into [cpu_rsp];
    what other processes do while the caller of a waiting loop is switched out is
    an argument of the loop. *)

From stdpp Require Import sorting.
From S2P Require Import Prelude Physical Paging VirtMem Process.

(** ** State *)

Record Scheduler : Type := mkSched {
  run_queues : list (list Z);
  current_p : option Z;
  idle_pid : option Z;
  running : bool;
  ticks : Z;
}.

Definition Scheduler_new : Scheduler := mkSched [[]; []; []; []; []] None None false 0.

Definition set_queues (q : list (list Z)) (s : Scheduler) : Scheduler :=
  mkSched q (current_p s) (idle_pid s) (running s) (ticks s).
Definition set_current (c : option Z) (s : Scheduler) : Scheduler :=
  mkSched (run_queues s) c (idle_pid s) (running s) (ticks s).
Definition set_idle (i : option Z) (s : Scheduler) : Scheduler :=
  mkSched (run_queues s) (current_p s) i (running s) (ticks s).
Definition set_ticks (n : Z) (s : Scheduler) : Scheduler :=
  mkSched (run_queues s) (current_p s) (idle_pid s) (running s) n.

Record Kernel : Type := mkKernel {
  world : World;
  processes : gmap Z Process;
  sched : Scheduler;
  enabled : bool;
  tick_count : Z;
  pit_ticks : Z;
  cpu_rsp : Z;
}.

Definition set_world (w : World) (k : Kernel) : Kernel :=
  mkKernel w (processes k) (sched k) (enabled k) (tick_count k) (pit_ticks k) (cpu_rsp k).
Definition set_processes (m : gmap Z Process) (k : Kernel) : Kernel :=
  mkKernel (world k) m (sched k) (enabled k) (tick_count k) (pit_ticks k) (cpu_rsp k).
Definition set_sched (s : Scheduler) (k : Kernel) : Kernel :=
  mkKernel (world k) (processes k) s (enabled k) (tick_count k) (pit_ticks k) (cpu_rsp k).
Definition set_enabled (b : bool) (k : Kernel) : Kernel :=
  mkKernel (world k) (processes k) (sched k) b (tick_count k) (pit_ticks k) (cpu_rsp k).
Definition set_counts (t p : Z) (k : Kernel) : Kernel :=
  mkKernel (world k) (processes k) (sched k) (enabled k) t p (cpu_rsp k).
Definition set_cpu_rsp (r : Z) (k : Kernel) : Kernel :=
  mkKernel (world k) (processes k) (sched k) (enabled k) (tick_count k) (pit_ticks k) r.

(** [processes.get_mut(&pid)] *)
Definition upd_process (p : Z) (f : Process → Process) (k : Kernel) : Kernel :=
  set_processes (alter f p (processes k)) k.

(** [run_queues[i].push_back(pid)] *)
Definition push_queue (i : nat) (p : Z) (qs : list (list Z)) : list (list Z) := alter (λ q, q ++ [p]) i qs.

(** ** Scheduler *)

Definition sched_init (k : Kernel) : Kernel :=
  match new_kernel "idle" (world k) with
  | (Some idle, w) => set_sched (set_idle (Some (pid idle)) (sched k)) (set_world w k)
  | (None, w) => set_world w k
  end.

Definition get_process (p : Z) (k : Kernel) : option Process := processes k !! p.

Definition sched_add_process (p : Z) (k : Kernel) : Kernel :=
  match get_process p k with
  | Some process =>
      set_sched (set_queues (push_queue (priority_index (priority process)) p (run_queues (sched k))) (sched k)) k
  | None => k
  end.

Definition sched_remove_process (p : Z) (k : Kernel) : Kernel :=
  let s := set_queues (map (filter (λ q, q ≠ p)) (run_queues (sched k))) (sched k) in
  set_sched (if decide (current_p s = Some p) then set_current None s else s) k.

Definition current_pid (k : Kernel) : option Z := current_p (sched k).

(** The first process of the highest non-empty queue, in a list of queues from the
    lowest priority. *)
Fixpoint pop_highest (qs : list (list Z)) : option Z * list (list Z) :=
  match qs with
  | [] => (None, [])
  | q :: qs =>
      match pop_highest qs with
      | (Some p, qs) => (Some p, q :: qs)
      | (None, qs) => match q with [] => (None, q :: qs) | p :: q => (Some p, q :: qs) end
      end
  end.

Definition select_next (s : Scheduler) : option Z * Scheduler :=
  match pop_highest (run_queues s) with
  | (Some p, qs) => (Some p, set_queues qs s)
  | (None, qs) => (idle_pid s, set_queues qs s)
  end.

(** [do_context_switch] does nothing for a null pointer. *)
Definition context_switch (old new : option Z) (k : Kernel) : Kernel :=
  match old ≫= (processes k !!.), new ≫= (processes k !!.) with
  | Some _, Some p => set_cpu_rsp (rsp (context p)) k
  | _, _ => k
  end.

(** Putting the current process back in its queue. *)
Definition requeue (k : Kernel) : Kernel :=
  match current_p (sched k) with
  | Some p =>
      match processes k !! p with
      | Some process =>
          if decide (pstate process = PRunning) then
            let k := upd_process p (λ q, set_times 10 (cpu_time q) (set_pstate PReady q)) k in
            set_sched (set_queues (push_queue (priority_index (priority process)) p (run_queues (sched k))) (sched k)) k
          else k
      | None => k
      end
  | None => k
  end.

Definition schedule (k : Kernel) : Kernel :=
  if negb (enabled k) then k
  else
    let old_pid := current_p (sched k) in
    let k := requeue k in
    let '(new_pid, s) := select_next (sched k) in
    let k := set_sched (set_current new_pid s) k in
    let k := match new_pid with Some p => upd_process p (set_pstate PRunning) k | None => k end in
    if decide (old_pid ≠ new_pid) then context_switch old_pid new_pid k else k.

Definition timer_tick (k : Kernel) : Kernel :=
  let k := set_counts (u64 (tick_count k + 1)) (u64 (pit_ticks k + 1)) k in
  if negb (enabled k) then k
  else
    let k := set_sched (set_ticks (u64 (ticks (sched k) + 1)) (sched k)) k in
    let '(should_schedule, k) :=
      match current_p (sched k) with
      | Some p =>
          match processes k !! p with
          | Some process =>
              let slice := if 0 <? time_slice process then time_slice process - 1 else time_slice process in
              (slice =? 0, upd_process p (set_times slice (u64 (cpu_time process + 1))) k)
          | None => (true, k)
          end
      | None => (true, k)
      end in
    if should_schedule then schedule k else k.

(** [start] before it enters the shell. *)
Definition start (k : Kernel) : Kernel := set_enabled true k.

Definition yield_now : Kernel → Kernel := schedule.

(** The loop of [sleep_ms]: [env i] is what happens between the [i]-th call of
    [schedule] and the next test of the clock.  [None] when the fuel runs out. *)
Fixpoint sleep_loop (fuel : nat) (env : nat → Kernel → Kernel) (i : nat) (wake : Z) (k : Kernel) : option Kernel :=
  if tick_count k <? wake then
    match fuel with
    | O => None
    | S fuel => sleep_loop fuel env (S i) wake (env i (schedule k))
    end
  else Some k.

Definition sleep_ms (fuel : nat) (env : nat → Kernel → Kernel) (ms : Z) (k : Kernel) : option Kernel :=
  let wake_tick := u64 (tick_count k + ms) in
  match current_pid k with
  | Some p => upd_process p (set_pstate PReady) <$> sleep_loop fuel env 0 wake_tick (upd_process p (set_pstate PSleeping) k)
  | None => Some k
  end.

Definition stats (k : Kernel) : Z * Z * Z :=
  (Z.of_nat (list_sum (map length (run_queues (sched k)))),
   if decide (current_p (sched k) = None) then 0 else 1, ticks (sched k)).

(** ** The process table *)

(** [proc::init]: the [expect] panics when no stack is left. *)
Definition proc_init (k : Kernel) : res Kernel :=
  match new_kernel "init" (world k) with
  | (Some init, w) => Ok (sched_init (set_processes (<[pid init := init]> (processes k)) (set_world w k)))
  | (None, _) => Panic
  end.

Definition add_process (p : Process) (k : Kernel) : Kernel :=
  sched_add_process (pid p) (set_processes (<[pid p := p]> (processes k)) k).

Definition remove_process (p : Z) (k : Kernel) : Kernel :=
  sched_remove_process p (set_processes (delete p (processes k)) k).

Definition current (k : Kernel) : option Process := current_pid k ≫= λ p, get_process p k.

Definition fork (k : Kernel) : option Z * Kernel :=
  match current k with
  | None => (None, k)
  | Some q =>
      match Process_fork q (world k) with
      | (None, w) => (None, set_world w k)
      | (Some child, w) => (Some (pid child), add_process child (set_world w k))
      end
  end.

Definition exit (status : Z) (k : Kernel) : Kernel :=
  let k := match current_pid k with
           | Some p => upd_process p (λ q, set_pstate PZombie (set_exit_status (Some status) q)) k
           | None => k
           end in
  schedule k.

(** [wait]: [env i] is what happens while the caller is switched out. *)
Fixpoint wait (fuel : nat) (env : nat → Kernel → Kernel) (i : nat) (p : Z) (k : Kernel) : option (option Z * Kernel) :=
  match processes k !! p with
  | None => Some (None, k)
  | Some process =>
      if decide (pstate process = PZombie)
      then Some (exit_status process, set_processes (delete p (processes k)) k)
      else match fuel with
           | O => None
           | S fuel => wait fuel env (S i) p (env i (schedule k))
           end
  end.

Definition exec : res unit := Err "exec not yet implemented".

(** The keys of a [BTreeMap], in order. *)
Definition all_pids (k : Kernel) : list Z := merge_sort Z.le (map fst (map_to_list (processes k))).

Definition process_count (k : Kernel) : Z := Z.of_nat (size (processes k)).
