(* ===== verification/SchedulerSpec.v ===== *)
(** * Scheduling

    The invariant of the process table and the run queues, kept by every operation
    of the kernel ([kstep]), and the order in which processes run. *)

From stdpp Require Import sorting relations.
From S2P Require Import Prelude Physical Paging VirtMem Process Scheduler.

(** ** Specification vocabulary *)

Definition queued (k : Kernel) (p : Z) : Prop := p ∈ concat (run_queues (sched k)).

Definition ready (st : ProcessState) : Prop := st = PCreated ∨ st = PReady.

(** The table is keyed by process number, below the next one to be given out; the
    queues hold ready processes with a full time slice, each once, at its priority. *)
Record queue_inv (k : Kernel) : Prop := mk_queue_inv {
  qi_queues : length (run_queues (sched k)) = 5%nat;
  qi_nodup : NoDup (concat (run_queues (sched k)));
  qi_ready : ∀ i q p, run_queues (sched k) !! i = Some q → p ∈ q →
    ∃ pr, processes k !! p = Some pr ∧ priority_index (priority pr) = i ∧ ready (pstate pr) ∧ time_slice pr = 10;
  qi_pids : ∀ p pr, processes k !! p = Some pr → pid pr = p ∧ 0 ≤ p < next_pid (world k);
  qi_idle : ∀ p, idle_pid (sched k) = Some p → processes k !! p = None ∧ 0 ≤ p < next_pid (world k);
}.

(** The current process is in no queue and has been given its number, and it is the only one that is running. *)
Record sched_inv (k : Kernel) : Prop := mk_sched_inv {
  si_queue : queue_inv k;
  si_current : ∀ p, current_p (sched k) = Some p → ¬ queued k p ∧ p < next_pid (world k);
  si_running : ∀ p pr, processes k !! p = Some pr → pstate pr = PRunning → current_p (sched k) = Some p;
}.

(** The operations of the kernel, as steps.  New processes have a number that is
    given out, a wake-up is of a process that is not queued. *)
Inductive kstep : Kernel → Kernel → Prop :=
| step_tick k : kstep k (timer_tick k)
| step_yield k : kstep k (yield_now k)
| step_start k : kstep k (start k)
| step_exit k st : kstep k (exit st k)
| step_add k name p w : 0 ≤ next_pid (world k) < 2 ^ 32 - 1 → new_kernel name (world k) = (Some p, w) →
    kstep k (add_process p (set_world w k))
| step_fork k : 0 ≤ next_pid (world k) < 2 ^ 32 - 1 → kstep k (fork k).2
| step_remove k p : kstep k (remove_process p k)
| step_sleep k p : current_p (sched k) = Some p → kstep k (upd_process p (set_pstate PSleeping) k)
| step_wake k p pr : processes k !! p = Some pr → pstate pr = PSleeping → kstep k (upd_process p (set_pstate PReady) k)
| step_reap k p pr : processes k !! p = Some pr → pstate pr = PZombie → kstep k (set_processes (delete p (processes k)) k).

(** ** The queues *)

Lemma elem_of_queues qs (p : Z) : p ∈ concat qs ↔ ∃ i q, qs !! i = Some q ∧ p ∈ q.
Proof.
  rewrite list_elem_of_In, in_concat. split.
  - intros (q & [i Hi]%list_elem_of_In%list_elem_of_lookup & Hp%list_elem_of_In). eauto.
  - intros (i & q & Hi & Hp). exists q. split; [|by apply list_elem_of_In].
    apply list_elem_of_In. by eapply list_elem_of_lookup_2.
Qed.

Lemma pop_highest_None qs qs' : pop_highest qs = (None, qs') → qs' = qs ∧ concat qs = [].
Proof.
  revert qs'. induction qs as [|q qs IH]; intros qs'; cbn [pop_highest concat].
  - by intros [= <-].
  - destruct (pop_highest qs) as [[p|] qs1]; [done|]. destruct q; [|done]. intros [= <-].
    destruct (IH qs1 eq_refl) as [-> ->]. done.
Qed.

Lemma pop_highest_Some qs p qs' :
  pop_highest qs = (Some p, qs') →
  ∃ i q, qs !! i = Some (p :: q) ∧ qs' = <[i := q]> qs ∧ ∀ j q', (i < j)%nat → qs !! j = Some q' → q' = [].
Proof.
  revert qs'. induction qs as [|q qs IH]; intros qs'; cbn [pop_highest]; [done|].
  destruct (pop_highest qs) as [[p'|] qs1] eqn:E.
  - intros [= <- <-]. destruct (IH qs1 eq_refl) as (i & q1 & Hi & -> & Hlow).
    exists (S i), q1. split; [done|]. split; [done|]. intros [|j] q' Hj; [lia|]. apply Hlow. lia.
  - destruct q as [|x q]; [done|]. intros [= <- <-]. apply pop_highest_None in E as [-> Ee].
    exists 0%nat, q. split; [done|]. split; [done|]. intros [|j] q' Hj Hq; [lia|]. cbn in Hq.
    apply elem_of_nil_inv. intros y Hy. assert (y ∈ concat qs) as Hc; [|rewrite Ee in Hc; by apply not_elem_of_nil in Hc].
    apply elem_of_queues. by exists j, q'.
Qed.

(** Taking the head of a queue. *)
Lemma concat_pop qs i (p : Z) q : qs !! i = Some (p :: q) → concat qs ≡ₚ p :: concat (<[i := q]> qs).
Proof.
  revert i. induction qs as [|q0 qs IH]; intros [|i]; cbn; try done.
  - by intros [= ->].
  - intros Hi. rewrite (IH _ Hi). symmetry. apply Permutation_middle.
Qed.

Lemma concat_push qs i (p : Z) : (i < length qs)%nat → concat (push_queue i p qs) ≡ₚ p :: concat qs.
Proof.
  unfold push_queue. revert i. induction qs as [|q0 qs IH]; intros [|i]; cbn; intros Hi; try lia.
  - rewrite <- app_assoc. symmetry. apply Permutation_middle.
  - rewrite IH by lia. symmetry. apply Permutation_middle.
Qed.

Lemma push_queue_lookup qs i (p : Z) j q :
  push_queue i p qs !! j = Some q → ∃ q0, qs !! j = Some q0 ∧ q = if decide (j = i) then q0 ++ [p] else q0.
Proof.
  unfold push_queue. rewrite list_lookup_alter. destruct (decide (i = j)) as [->|Hne].
  - intros (q0 & -> & Hq)%fmap_Some. exists q0. split; [done|]. by rewrite decide_True.
  - intros Hq. exists q. split; [done|]. by rewrite decide_False.
Qed.

Lemma length_push_queue qs i (p : Z) : length (push_queue i p qs) = length qs.
Proof. apply length_alter. Qed.

Lemma priority_lt p : (priority_index p < 5)%nat.
Proof. destruct p; cbn; lia. Qed.


(** ** The invariant *)

(** Choosing the next process and making it the current one. *)
Definition dispatch (k : Kernel) : Kernel :=
  let '(new_pid, s) := select_next (sched k) in
  let k := set_sched (set_current new_pid s) k in
  match new_pid with Some p => upd_process p (set_pstate PRunning) k | None => k end.

Lemma context_switch_rsp o n k : ∃ r, context_switch o n k = set_cpu_rsp r k.
Proof.
  unfold context_switch. destruct (o ≫= _); [destruct (n ≫= _)|]; eauto; exists (cpu_rsp k); by destruct k.
Qed.

Lemma schedule_run k : enabled k = true → ∃ r, schedule k = set_cpu_rsp r (dispatch (requeue k)).
Proof.
  intros He. unfold schedule, dispatch. rewrite He. cbn [negb]. destruct (select_next _) as [n s].
  destruct (decide _); [apply context_switch_rsp|]. exists (cpu_rsp k).
  destruct k, n; cbn; unfold requeue; cbn; destruct (current_p _); [|done| |done];
    destruct (_ !! _); try done; by destruct (decide _).
Qed.

Lemma queue_inv_rsp r k : queue_inv k → queue_inv (set_cpu_rsp r k).
Proof. by intros []. Qed.
Lemma sched_inv_rsp r k : sched_inv k → sched_inv (set_cpu_rsp r k).
Proof. by intros [[] ? ?]. Qed.

(** A process that is not queued may change, as long as its number stays. *)
Lemma queue_inv_upd f p k :
  (∀ pr, processes k !! p = Some pr → pid (f pr) = pid pr) →
  ¬ queued k p → queue_inv k → queue_inv (upd_process p f k).
Proof.
  intros Hf Hq [Hl Hn Hr Hp Hi]. split; cbn; try done.
  - intros i q p' Hi' Hp'. destruct (Hr i q p' Hi' Hp') as (pr & Hpr & Hrest). exists pr. split; [|done].
    rewrite lookup_alter_ne; [done|]. intros ->. apply Hq, elem_of_queues. eauto.
  - intros p' pr. destruct (decide (p = p')) as [->|Hne].
    + rewrite lookup_alter_eq. intros (pr0 & Hpr & ->)%fmap_Some. rewrite Hf by done. by apply Hp.
    + rewrite lookup_alter_ne by done. apply Hp.
  - intros p' Hid. destruct (Hi p' Hid) as [Hnone Hlt]. split; [|done].
    destruct (decide (p = p')) as [->|Hne]; [rewrite lookup_alter_eq, Hnone|rewrite lookup_alter_ne]; done.
Qed.

(** A ready process that is not queued may enter its queue. *)
Lemma queue_inv_push p pr k :
  processes k !! p = Some pr → ready (pstate pr) → time_slice pr = 10 → ¬ queued k p → queue_inv k →
  queue_inv (set_sched (set_queues (push_queue (priority_index (priority pr)) p (run_queues (sched k))) (sched k)) k).
Proof.
  intros Hpr Hst Hts Hq [Hl Hn Hr Hp Hi]. split; cbn; try done.
  - by rewrite length_push_queue.
  - rewrite concat_push by (rewrite Hl; apply priority_lt). by constructor.
  - intros i q p' (q0 & Hq0 & ->)%push_queue_lookup Hp'. destruct (decide _) as [->|]; [|by eapply Hr].
    apply elem_of_app in Hp' as [Hp'| ->%list_elem_of_singleton]; [by eapply Hr|]. by exists pr.
Qed.

Lemma not_running_requeue k : sched_inv k → queue_inv (requeue k) ∧
  ∀ p pr, processes (requeue k) !! p = Some pr → pstate pr ≠ PRunning.
Proof.
  intros [Hq Hc Hrun]. unfold requeue. destruct (current_p (sched k)) as [p|] eqn:E.
  2: { split; [done|]. intros p pr Hp Hr. by specialize (Hrun p pr Hp Hr). }
  destruct (processes k !! p) as [pr|] eqn:Ep.
  2: { split; [done|]. intros p' pr' Hp Hr. specialize (Hrun p' pr' Hp Hr). congruence. }
  destruct (decide (pstate pr = PRunning)) as [Hst|Hst].
  2: { split; [done|]. intros p' pr' Hp Hr. specialize (Hrun p' pr' Hp Hr). congruence. }
  assert (¬ queued k p) as Hnq by by apply Hc. split.
  - set (k' := upd_process p _ k).
    assert (queue_inv k') as Hk' by (by apply queue_inv_upd).
    apply (queue_inv_push p (set_times 10 (cpu_time pr) (set_pstate PReady pr)) k'); [| |done..].
    + cbn. by rewrite lookup_alter_eq, Ep.
    + by right.
  - cbn. intros p' pr'. destruct (decide (p = p')) as [->|Hne].
    + rewrite lookup_alter_eq, Ep. by intros [= <-].
    + rewrite lookup_alter_ne by done. intros Hp Hr. specialize (Hrun p' pr' Hp Hr). congruence.
Qed.

(** The queues may lose entries. *)
Lemma queue_inv_sub qs s k :
  length qs = 5%nat → NoDup (concat qs) →
  (∀ i q p, qs !! i = Some q → p ∈ q → ∃ q0, run_queues (sched k) !! i = Some q0 ∧ p ∈ q0) →
  run_queues s = qs → idle_pid s = idle_pid (sched k) → queue_inv k → queue_inv (set_sched s k).
Proof.
  intros Hlen Hnd Hsub <- Hidle [Hl Hn Hr Hp Hi]. split; cbn; try done.
  - intros i q p Hq Hin. destruct (Hsub i q p Hq Hin) as (q0 & Hq0 & Hin0). by eapply Hr.
  - rewrite Hidle. apply Hi.
Qed.

Lemma queue_inv_pop i p q c k :
  run_queues (sched k) !! i = Some (p :: q) → queue_inv k →
  queue_inv (set_sched (set_current c (set_queues (<[i:=q]> (run_queues (sched k))) (sched k))) k) ∧
  p ∉ concat (<[i:=q]> (run_queues (sched k))).
Proof.
  intros Hi Hk. pose proof (qi_nodup k Hk) as Hn. rewrite (concat_pop _ _ _ _ Hi) in Hn.
  apply NoDup_cons in Hn as [Hp Hn]. split; [|done].
  eapply queue_inv_sub; [..|done]; try done; [by rewrite length_insert, qi_queues|].
  intros j q' p' Hj Hp'. destruct (decide (i = j)) as [<-|Hne].
  - rewrite list_lookup_insert_eq in Hj by (by eapply lookup_lt_Some). injection Hj as <-.
    exists (p :: q). split; [done|]. by constructor.
  - rewrite list_lookup_insert_ne in Hj by done. by exists q'.
Qed.

Lemma dispatch_inv k :
  queue_inv k → (∀ p pr, processes k !! p = Some pr → pstate pr ≠ PRunning) → sched_inv (dispatch k).
Proof.
  intros Hk Hrun. unfold dispatch, select_next. destruct (pop_highest (run_queues (sched k))) as [[p|] qs] eqn:E.
  - apply pop_highest_Some in E as (i & q & Hi & -> & _).
    destruct (queue_inv_pop i p q (Some p) k Hi Hk) as [Hk' Hp]. split.
    + by apply queue_inv_upd.
    + cbn. intros p' [= <-]. split; [done|].
      destruct (qi_ready k Hk i (p :: q) p Hi) as (pr & Hpr & _); [by constructor|].
      destruct (qi_pids k Hk p pr Hpr). cbn. lia.
    + cbn. intros p' pr. destruct (decide (p = p')) as [->|Hne]; [done|].
      rewrite lookup_alter_ne by done. intros Hpr Hst. by destruct (Hrun p' pr Hpr Hst).
  - apply pop_highest_None in E as [-> Hemp].
    assert (queue_inv (set_sched (set_current (idle_pid (sched k)) (set_queues (run_queues (sched k)) (sched k))) k)) as Hk'
      by (eapply queue_inv_sub; [..|exact Hk]; try done; [apply Hk|apply Hk|eauto]).
    destruct (idle_pid (sched k)) as [p|] eqn:Ei.
    + split.
      * apply queue_inv_upd; [done| |done]. unfold queued. cbn. rewrite Hemp. apply not_elem_of_nil.
      * cbn. unfold queued. cbn. rewrite Hemp. intros p' [= <-]. split; [apply not_elem_of_nil|].
        destruct (qi_idle k Hk p Ei). cbn. lia.
      * cbn. intros p' pr. destruct (decide (p = p')) as [->|Hne]; [done|].
        rewrite lookup_alter_ne by done. intros Hpr Hst. by destruct (Hrun p' pr Hpr Hst).
    + split; [done|by intros p [=]|]. cbn. intros p pr Hpr Hst. by destruct (Hrun p pr Hpr Hst).
Qed.

Lemma schedule_inv k : sched_inv k → sched_inv (schedule k).
Proof.
  intros Hk. destruct (enabled k) eqn:He; [|unfold schedule; by rewrite He].
  destruct (schedule_run k He) as [r ->]. apply sched_inv_rsp.
  destruct (not_running_requeue k Hk) as [Hq Hr]. by apply dispatch_inv.
Qed.

(** Changing the current process, without running it. *)
Lemma sched_inv_upd f p k :
  (∀ pr, processes k !! p = Some pr → pid (f pr) = pid pr ∧ (pstate (f pr) = PRunning → pstate pr = PRunning)) →
  ¬ queued k p → sched_inv k → sched_inv (upd_process p f k).
Proof.
  intros Hf Hq [Hk Hc Hr]. split; [|done|].
  - apply queue_inv_upd; [|done..]. intros pr Hpr. by apply Hf.
  - cbn. intros p' pr. destruct (decide (p = p')) as [->|Hne].
    + rewrite lookup_alter_eq. intros (pr0 & Hpr & ->)%fmap_Some Hst. eapply Hr; [done|]. by apply (Hf pr0).
    + rewrite lookup_alter_ne by done. apply Hr.
Qed.

Lemma timer_tick_inv k : sched_inv k → sched_inv (timer_tick k).
Proof.
  intros Hk. unfold timer_tick. destruct (negb _); [destruct Hk as [[] ? ?]; done|].
  set (k1 := set_sched _ _). assert (sched_inv k1) as Hk1 by (destruct Hk as [[] ? ?]; done).
  destruct (current_p (sched k1)) as [p|] eqn:E; [|by apply schedule_inv].
  destruct (processes k1 !! p) as [pr|] eqn:Ep; [|by apply schedule_inv]. cbv zeta.
  match goal with |- sched_inv (if _ then schedule ?k2 else _) => assert (sched_inv k2) as Hk2 end.
  { apply sched_inv_upd; [|by apply Hk1|done]. intros pr0 Hpr0. done. }
  destruct (_ =? 0); [by apply schedule_inv|done].
Qed.

(** A queued process is not the current one. *)
Lemma queued_not_running k p pr : sched_inv k → queued k p → processes k !! p = Some pr → pstate pr ≠ PRunning.
Proof. intros [Hk Hc Hr] Hq Hp Hst. by apply (Hc p (Hr p pr Hp Hst)). Qed.

Lemma queued_ready k p : queue_inv k → queued k p → ∃ pr, processes k !! p = Some pr ∧ ready (pstate pr).
Proof.
  intros Hk (i & q & Hi & Hp)%elem_of_queues. destruct (qi_ready k Hk i q p Hi Hp) as (pr & ? & ? & ? & ?). eauto.
Qed.

(** A process made by the constructors is new, ready and has a full slice. *)
Definition fresh (w : World) (p : Process) (w' : World) : Prop :=
  pid p = next_pid w ∧ next_pid w' = next_pid w + 1 ∧ ready (pstate p) ∧ time_slice p = 10.

Lemma alloc_frames_pid n w : next_pid (alloc_frames n w).2 = next_pid w.
Proof. unfold alloc_frames. by destruct (alloc_contiguous _ _). Qed.

Lemma new_root_pid p w : next_pid (new_root p w).2 = next_pid w.
Proof. unfold new_root. by destruct (AddressSpace_new _ _). Qed.

Lemma new_kernel_pid name w : next_pid (new_kernel name w).2 = u32 (next_pid w + 1).
Proof.
  unfold new_kernel, alloc_pid. set (w0 := mkWorld _ _ _ _). pose proof (alloc_frames_pid 4 w0) as H.
  by destruct (alloc_frames 4 w0) as [[]].
Qed.

Lemma new_user_pid name par w : next_pid (new_user name par w).2 = u32 (next_pid w + 1).
Proof.
  unfold new_user, alloc_pid. set (w0 := mkWorld _ _ _ _).
  pose proof (new_root_pid (next_pid w) w0) as H0. destruct (new_root _ w0) as [[r|] w1]; [|done].
  pose proof (alloc_frames_pid 4 w1) as H1. destruct (alloc_frames 4 w1) as [[s|] w2]; [|by etrans].
  pose proof (alloc_frames_pid 4 w2) as H2. destruct (alloc_frames 4 w2) as [[u|] w3]; cbn in *; congruence.
Qed.

Lemma new_kernel_fresh name w p w' :
  0 ≤ next_pid w < 2 ^ 32 - 1 → new_kernel name w = (Some p, w') → fresh w p w'.
Proof.
  intros Hw E. pose proof (new_kernel_pid name w) as Hp. rewrite E in Hp. cbn in Hp.
  revert E. unfold new_kernel, alloc_pid. destruct (alloc_frames 4 _) as [[st|] w1]; [|done].
  intros [= <- <-]. split; [done|]. split; [|by split; [left|]].
  rewrite Hp. apply Z.mod_small. lia.
Qed.

Lemma new_user_fresh name par w p w' :
  0 ≤ next_pid w < 2 ^ 32 - 1 → new_user name par w = (Some p, w') → fresh w p w'.
Proof.
  intros Hw E. pose proof (new_user_pid name par w) as Hp. rewrite E in Hp. cbn in Hp.
  revert E. unfold new_user, alloc_pid. destruct (new_root _ _) as [[r|] w1]; [|done].
  destruct (alloc_frames 4 w1) as [[s|] w2]; [|done]. destruct (alloc_frames 4 w2) as [[u|] w3]; [|done].
  intros [= <- <-]. split; [done|]. split; [|by split; [left|]].
  rewrite Hp. apply Z.mod_small. lia.
Qed.

Lemma Process_fork_fresh q w p w' :
  0 ≤ next_pid w < 2 ^ 32 - 1 → Process_fork q w = (Some p, w') →
  fresh w p w' ∧ priority p = priority q ∧ context p = context q ∧ file_descriptors p = file_descriptors q ∧ cwd p = cwd q.
Proof.
  intros Hw. unfold Process_fork. destruct (is_kernel q).
  - destruct (new_kernel _ w) as [[c|] w1] eqn:E; [|done]. intros [= <- <-]. by apply new_kernel_fresh in E.
  - destruct (new_user _ _ w) as [[c|] w1] eqn:E; [|done]. intros [= <- <-]. by apply new_user_fresh in E.
Qed.

Lemma Process_fork_pid q w : next_pid (Process_fork q w).2 = u32 (next_pid w + 1).
Proof.
  unfold Process_fork. destruct (is_kernel q).
  - pose proof (new_kernel_pid (pname q) w) as H. by destruct (new_kernel _ w) as [[] ?].
  - pose proof (new_user_pid (pname q) (pid q) w) as H. by destruct (new_user _ _ w) as [[] ?].
Qed.

(** Giving out numbers. *)
Lemma queue_inv_world w k : next_pid (world k) ≤ next_pid w → queue_inv k → queue_inv (set_world w k).
Proof.
  intros Hle [Hl Hn Hr Hp Hi]. split; cbn; try done.
  - intros p pr Hpr. destruct (Hp p pr Hpr). split; [done|lia].
  - intros p Hid. destruct (Hi p Hid). split; [done|lia].
Qed.

Lemma sched_inv_world w k : next_pid (world k) ≤ next_pid w → sched_inv k → sched_inv (set_world w k).
Proof.
  intros Hle [Hk Hc Hr]. split; [by apply queue_inv_world| |done].
  intros p Hp. destruct (Hc p Hp) as [Hq Hlt]. cbn. split; [done|lia].
Qed.

Lemma fresh_not_in k p : queue_inv k → next_pid (world k) ≤ p → processes k !! p = None ∧ ¬ queued k p ∧ idle_pid (sched k) ≠ Some p.
Proof.
  intros Hk Hp. assert (processes k !! p = None) as Hnone.
  { destruct (processes k !! p) as [pr|] eqn:E; [|done]. destruct (qi_pids k Hk p pr E). lia. }
  split; [done|]. split.
  - intros Hq. destruct (queued_ready k p Hk Hq) as (pr & Hpr & _). congruence.
  - intros Hid. destruct (qi_idle k Hk p Hid). lia.
Qed.

Lemma queue_inv_insert p w k :
  0 ≤ next_pid (world k) → fresh (world k) p w → queue_inv k →
  queue_inv (set_processes (<[pid p := p]> (processes k)) (set_world w k)).
Proof.
  intros H0 (Hpid & Hw & Hst & Hts) Hk. destruct (fresh_not_in k (pid p) Hk) as (Hnone & Hnq & Hidle); [lia|].
  destruct Hk as [Hl Hn Hrd Hp Hi]. split; cbn; try done.
  - intros i q p' Hi' Hin. destruct (Hrd i q p' Hi' Hin) as (pr & Hpr & Hrest). exists pr. split; [|done].
    rewrite lookup_insert_ne; [done|]. intros <-. congruence.
  - intros p' pr. destruct (decide (pid p = p')) as [<-|Hne].
    + rewrite lookup_insert_eq. intros [= <-]. lia.
    + rewrite lookup_insert_ne by done. intros Hpr. destruct (Hp p' pr Hpr). lia.
  - intros p' Hid. destruct (Hi p' Hid). rewrite lookup_insert_ne by congruence. split; [done|lia].
Qed.

Lemma queued_push k i p p' qs :
  run_queues (sched k) = qs →
  p' ∈ concat (push_queue i p qs) → p' = p ∨ queued k p'.
Proof.
  intros Hqs (j & q & (q0 & Hq0 & ->)%push_queue_lookup & Hin)%elem_of_queues. rewrite <- Hqs in Hq0.
  assert (p' ∈ q0 ∨ p' = p) as [Hin'| ->]; [|right; apply elem_of_queues; eauto|by left].
  destruct (decide _); [|by left]. by apply elem_of_app in Hin as [Hin| ->%list_elem_of_singleton]; [left|right].
Qed.

Lemma add_process_run p w k :
  add_process p (set_world w k) =
  set_sched (set_queues (push_queue (priority_index (priority p)) (pid p) (run_queues (sched k))) (sched k))
    (set_processes (<[pid p := p]> (processes k)) (set_world w k)).
Proof. unfold add_process, sched_add_process, get_process. cbn. by rewrite lookup_insert_eq. Qed.

Lemma add_process_inv k p w :
  0 ≤ next_pid (world k) → fresh (world k) p w → sched_inv k → sched_inv (add_process p (set_world w k)).
Proof.
  intros H0 Hf [Hk Hc Hr]. pose proof (queue_inv_insert p w k H0 Hf Hk) as Hk1.
  destruct Hf as (Hpid & Hw & Hst & Hts). destruct (fresh_not_in k (pid p) Hk) as (Hnone & Hnq & Hidle); [lia|].
  rewrite add_process_run. split.
  - apply (queue_inv_push (pid p) p (set_processes (<[pid p := p]> (processes k)) (set_world w k))); try done.
    cbn. by rewrite lookup_insert_eq.
  - cbn. intros p' Hc'. destruct (Hc p' Hc') as [Hnq' Hlt]. split; [|lia].
    unfold queued. cbn. intros [->|Hq]%(queued_push k); [lia|done|done].
  - cbn. intros p' pr. destruct (decide (pid p = p')) as [<-|Hne].
    + rewrite lookup_insert_eq. intros [= <-] Hrun. destruct Hst; congruence.
    + rewrite lookup_insert_ne by done. apply Hr.
Qed.

Lemma fork_inv k : 0 ≤ next_pid (world k) < 2 ^ 32 - 1 → sched_inv k → sched_inv (fork k).2.
Proof.
  intros Hw Hk. unfold fork. destruct (current k) as [q|]; [|done].
  pose proof (Process_fork_pid q (world k)) as Hp.
  destruct (Process_fork q (world k)) as [[c|] w] eqn:E; cbn in *.
  - apply add_process_inv; [lia| |done]. by destruct (Process_fork_fresh _ _ _ _ Hw E).
  - apply sched_inv_world; [|done]. rewrite Hp.
    assert (u32 (next_pid (world k) + 1) = next_pid (world k) + 1) as -> by (apply Z.mod_small; lia). lia.
Qed.

Lemma concat_map_filter (p : Z) qs : concat (map (filter (λ q, q ≠ p)) qs) = filter (λ q, q ≠ p) (concat qs).
Proof. induction qs as [|q qs IH]; cbn; [done|]. by rewrite IH, filter_app. Qed.

Lemma queue_inv_remove p s k :
  run_queues s = map (filter (λ q, q ≠ p)) (run_queues (sched k)) → idle_pid s = idle_pid (sched k) →
  queue_inv k → queue_inv (set_sched s (set_processes (delete p (processes k)) k)).
Proof.
  intros Hs Hid [Hl Hn Hr Hp Hi]. split; cbn.
  - by rewrite Hs, length_map.
  - rewrite Hs, concat_map_filter. by apply NoDup_filter.
  - intros i q p'. rewrite Hs, list_lookup_fmap. intros (q0 & Hq0 & ->)%fmap_Some [Hne Hin]%list_elem_of_filter.
    destruct (Hr i q0 p' Hq0 Hin) as (pr & Hpr & Hrest). exists pr. by rewrite lookup_delete_ne.
  - intros p' pr [_ Hpr]%lookup_delete_Some. by apply Hp.
  - rewrite Hid. intros p' Hp'. destruct (Hi p' Hp'). split; [|done]. apply lookup_delete_None. by right.
Qed.

Lemma remove_process_inv p k : sched_inv k → sched_inv (remove_process p k).
Proof.
  intros [Hk Hc Hr]. unfold remove_process, sched_remove_process. cbv zeta.
  set (s0 := set_queues _ _). set (s := if decide _ then _ else _).
  assert (run_queues s = map (filter (λ q, q ≠ p)) (run_queues (sched k)) ∧ idle_pid s = idle_pid (sched k)) as [Hq Hid]
    by (unfold s; by destruct (decide _)).
  assert (∀ p', current_p s = Some p' ↔ p' ≠ p ∧ current_p (sched k) = Some p') as Hcur.
  { intros p'. unfold s. cbn. destruct (decide _) as [Hp|Hp]; cbn in *; split; try done.
    - by intros [? ?]; congruence.
    - intros Hp'. split; [congruence|done].
    - by intros [_ Hp']. }
  split.
  - by apply queue_inv_remove.
  - cbn. intros p' [Hne Hp']%Hcur. destruct (Hc p' Hp') as [Hnq Hlt]. split; [|done].
    unfold queued. cbn. rewrite Hq, concat_map_filter. by intros [_ Hin]%list_elem_of_filter.
  - cbn. intros p' pr [Hne Hpr]%lookup_delete_Some Hst. apply Hcur. split; [done|]. by eapply Hr.
Qed.

Lemma reap_inv p pr k :
  processes k !! p = Some pr → pstate pr = PZombie → sched_inv k → sched_inv (set_processes (delete p (processes k)) k).
Proof.
  intros Hpr Hz [Hk Hc Hr]. assert (¬ queued k p) as Hnq.
  { intros Hq. destruct (queued_ready k p Hk Hq) as (pr' & Hpr' & [|]); congruence. }
  split; [|done|].
  - destruct Hk as [Hl Hn Hrd Hp Hi]. split; cbn; try done.
    + intros i q p' Hq Hin. destruct (Hrd i q p' Hq Hin) as (pr' & Hpr' & Hrest). exists pr'. split; [|done].
      rewrite lookup_delete_ne; [done|]. intros ->. apply Hnq, elem_of_queues. eauto.
    + intros p' pr' [_ Hpr']%lookup_delete_Some. by apply Hp.
    + intros p' Hp'. destruct (Hi p' Hp'). split; [|done]. apply lookup_delete_None. by right.
  - cbn. intros p' pr' [_ Hpr']%lookup_delete_Some. by apply Hr.
Qed.

Lemma exit_inv st k : sched_inv k → sched_inv (exit st k).
Proof.
  intros Hk. unfold exit, current_pid. apply schedule_inv. destruct (current_p (sched k)) as [p|] eqn:E; [|done].
  apply sched_inv_upd; [done| |done]. by apply Hk.
Qed.

Lemma kstep_inv k k' : kstep k k' → sched_inv k → sched_inv k'.
Proof.
  destruct 1 as [k|k|k|k st|k name p w Hw Hp|k Hw|k p|k p Hc|k p pr Hp Hst|k p pr Hp Hst]; intros Hk.
  - by apply timer_tick_inv.
  - by apply schedule_inv.
  - by destruct Hk as [[] ? ?].
  - by apply exit_inv.
  - apply add_process_inv; [lia| |done]. by eapply new_kernel_fresh.
  - by apply fork_inv.
  - by apply remove_process_inv.
  - apply sched_inv_upd; [done| |done]. by apply Hk.
  - apply sched_inv_upd; [done| |done]. intros Hq.
    destruct (queued_ready k p (si_queue k Hk) Hq) as (pr' & Hpr' & [|]); congruence.
  - by eapply reap_inv.
Qed.

(** The kernel before [proc::init]. *)
Definition Kernel_boot (m : PT FrameAllocator) : Kernel :=
  mkKernel (mkWorld m 1 1 0) ∅ Scheduler_new false 0 0 0.

Lemma proc_init_inv m k : proc_init (Kernel_boot m) = Ok k → sched_inv k.
Proof.
  unfold proc_init. cbn [world Kernel_boot]. set (w0 := mkWorld m 1 1 0).
  destruct (new_kernel "init" w0) as [[i|] w1] eqn:E1; [|done].
  assert (fresh w0 i w1) as (Hpid & Hw1 & Hst & Hts) by (eapply new_kernel_fresh; [cbn; lia|done]). cbn in Hpid, Hw1.
  intros [= <-]. unfold sched_init. cbn [world set_processes set_world].
  pose proof (new_kernel_pid "idle" w1) as Hw2. rewrite Hw1 in Hw2. change (u32 (1 + 1 + 1)) with 3 in Hw2.
  destruct (new_kernel "idle" w1) as [[d|] w2] eqn:E2; cbn in Hw2.
  - assert (fresh w1 d w2) as (Hpd & _) by (eapply new_kernel_fresh; [cbn; lia|done]). split; [|done|]; cbn.
    + split; cbn; try done.
      * constructor.
      * intros j q p Hj Hp. assert (q = []) as -> by (by do 5 (destruct j as [|j]; [by injection Hj as <-|])).
        by apply not_elem_of_nil in Hp.
      * intros p pr [[<- <-]|[_ Hn]]%lookup_insert_Some; [lia|by rewrite lookup_empty in Hn].
      * intros p [= <-]. rewrite lookup_insert_ne by lia. split; [apply lookup_empty|lia].
    + intros p pr [[<- <-]|[_ Hn]]%lookup_insert_Some Hr; [|by rewrite lookup_empty in Hn]. destruct Hst; congruence.
  - split; [|done|]; cbn.
    + split; cbn; try done.
      * constructor.
      * intros j q p Hj Hp. assert (q = []) as -> by (by do 5 (destruct j as [|j]; [by injection Hj as <-|])).
        by apply not_elem_of_nil in Hp.
      * intros p pr [[<- <-]|[_ Hn]]%lookup_insert_Some; [lia|by rewrite lookup_empty in Hn].
    + intros p pr [[<- <-]|[_ Hn]]%lookup_insert_Some Hr; [|by rewrite lookup_empty in Hn]. destruct Hst; congruence.
Qed.

(** C13: in every state the kernel can reach from [proc::init] by timer ticks, yields,
    exits, forks, additions, removals, sleeping, waking and reaping, the run queues
    hold ready processes of the table, each once and at its priority, with a full
    time slice; at most the current process is running, and it is in no queue; the
    process numbers of the table are those given out. *)
Theorem scheduler_invariant m k0 k :
  proc_init (Kernel_boot m) = Ok k0 → rtc kstep k0 k → sched_inv k.
Proof.
  intros H0 Hs. apply proc_init_inv in H0. induction Hs as [k|k k1 k2 Hk _ IH]; [done|].
  apply IH. by eapply kstep_inv.
Qed.

(** ** Round robin *)

(** Process [c] is running at priority [i] with [s] ticks left, [q] is waiting at
    that priority and nobody at a higher one. *)
Record round (i : nat) (c s : Z) (q : list Z) (k : Kernel) : Prop := mk_round {
  rd_inv : sched_inv k;
  rd_enabled : enabled k = true;
  rd_current : current_p (sched k) = Some c;
  rd_process : ∃ pr, processes k !! c = Some pr ∧ pstate pr = PRunning ∧ priority_index (priority pr) = i ∧ time_slice pr = s;
  rd_queue : run_queues (sched k) !! i = Some q;
  rd_higher : ∀ j q', (i < j)%nat → run_queues (sched k) !! j = Some q' → q' = [];
}.

Lemma alter_insert {A} (f : A → A) i (l : list A) x : l !! i = Some x → alter f i l = <[i := f x]> l.
Proof. revert i. induction l as [|y l IH]; intros [|i]; cbn; [done..|by intros [= ->]|]. intros H. f_equal. by apply IH. Qed.

Lemma pop_highest_at qs i (p : Z) q :
  qs !! i = Some (p :: q) → (∀ j q', (i < j)%nat → qs !! j = Some q' → q' = []) →
  pop_highest qs = (Some p, <[i:=q]> qs).
Proof.
  intros Hi Hh. destruct (pop_highest qs) as [[p'|] qs'] eqn:E.
  - apply pop_highest_Some in E as (i' & q0 & Hi' & -> & Hh').
    assert (i' = i) as ->; [|congruence]. destruct (decide (i' < i)%nat); [by specialize (Hh' _ _ l Hi)|].
    destruct (decide (i < i')%nat) as [l|]; [by specialize (Hh _ _ l Hi')|lia].
  - apply pop_highest_None in E as [_ Hemp]. exfalso.
    assert (p ∈ concat qs) as Hin; [|rewrite Hemp in Hin; by apply not_elem_of_nil in Hin].
    apply elem_of_queues. exists i, (p :: q). split; [done|]. by constructor.
Qed.

Lemma requeue_round i c s q k :
  round i c s q k → ∃ pr, processes k !! c = Some pr ∧
  requeue k = set_sched (set_queues (<[i := q ++ [c]]> (run_queues (sched k))) (sched k))
    (upd_process c (λ q, set_times 10 (cpu_time q) (set_pstate PReady q)) k).
Proof.
  intros [_ _ Hc (pr & Hpr & Hst & Hi & _) Hq _]. exists pr. split; [done|].
  unfold requeue. rewrite Hc, Hpr, decide_True by done. cbn zeta. rewrite Hi. unfold push_queue.
  cbn [sched upd_process set_processes].
  f_equal. f_equal. by apply (alter_insert (λ q, q ++ [c])).
Qed.

Lemma schedule_round i c s q p q' k :
  round i c s q k → q ++ [c] = p :: q' → round i p 10 q' (schedule k).
Proof.
  intros Hk Hq. pose proof (rd_inv _ _ _ _ _ Hk) as Hinv.
  destruct (schedule_run k (rd_enabled _ _ _ _ _ Hk)) as [r Hr].
  destruct (not_running_requeue k Hinv) as [Hqi _]. destruct (requeue_round _ _ _ _ _ Hk) as (pr & Hpr & Hrq).
  assert (i < length (run_queues (sched k)))%nat as Hil by (eapply lookup_lt_Some, Hk).
  assert (run_queues (sched (requeue k)) !! i = Some (p :: q')) as Hqi'
    by (rewrite Hrq; cbn; rewrite list_lookup_insert_eq by done; by rewrite Hq).
  assert (∀ j q', (i < j)%nat → run_queues (sched (requeue k)) !! j = Some q' → q' = []) as Hh.
  { intros j q1 Hj. rewrite Hrq. cbn. rewrite list_lookup_insert_ne by lia. by apply Hk. }
  destruct (qi_ready _ Hqi i (p :: q') p Hqi') as (pr' & Hpr' & Hprio & Hst' & Hts'); [by constructor|].
  assert (dispatch (requeue k) = upd_process p (set_pstate PRunning)
    (set_sched (set_current (Some p) (set_queues (<[i:=q']> (run_queues (sched (requeue k)))) (sched (requeue k)))) (requeue k))) as Hd.
  { unfold dispatch, select_next. by rewrite (pop_highest_at _ _ _ _ Hqi' Hh). }
  rewrite Hr, Hd. split; cbn.
  - rewrite <- Hd, <- Hr. by apply schedule_inv.
  - rewrite Hrq. apply Hk.
  - done.
  - exists (set_pstate PRunning pr'). rewrite lookup_alter_eq, Hpr'. done.
  - apply list_lookup_insert_eq. rewrite Hrq. cbn. by rewrite length_insert.
  - intros j q1 Hj. rewrite list_lookup_insert_ne by lia. by apply Hh.
Qed.

(** A tick charges the running process; at the end of its slice the next one runs. *)
Lemma tick_charge i c s q k :
  0 < s → round i c s q k →
  ∃ k', round i c (s - 1) q k' ∧ timer_tick k = if s - 1 =? 0 then schedule k' else k'.
Proof.
  intros Hs [Hinv He Hc (pr & Hpr & Hst & Hi & Hts) Hq Hh].
  set (k1 := set_sched (set_ticks (u64 (ticks (sched k) + 1)) (sched k))
    (set_counts (u64 (tick_count k + 1)) (u64 (pit_ticks k + 1)) k)).
  exists (upd_process c (set_times (s - 1) (u64 (cpu_time pr + 1))) k1). split.
  - split; cbn; try done.
    + apply sched_inv_upd; [done|by apply Hinv|]. by destruct Hinv as [[] ? ?].
    + rewrite lookup_alter_eq, Hpr. cbn. by exists (set_times (s - 1) (u64 (cpu_time pr + 1)) pr).
  - unfold timer_tick. cbn [enabled set_counts]. rewrite He. cbn [negb]. cbv zeta.
    change (set_sched _ _) with k1. change (current_p (sched k1)) with (current_p (sched k)).
    rewrite Hc. change (processes k1) with (processes k). rewrite Hpr, Hts.
    by rewrite (proj2 (Z.ltb_lt 0 s)) by lia.
Qed.

(** The whole slice of the running process. *)
Lemma slice_round i c p q q' (n : nat) : ∀ k,
  (0 < n)%nat → round i c (Z.of_nat n) q k → q ++ [c] = p :: q' → round i p 10 q' (Nat.iter n timer_tick k).
Proof.
  induction n as [|n IH]; intros k Hn Hk Hq; [lia|].
  destruct (tick_charge i c (Z.of_nat (S n)) q k ltac:(lia) Hk) as (k' & Hk' & Ht).
  rewrite Nat.iter_succ_r, Ht. replace (Z.of_nat (S n) - 1) with (Z.of_nat n) in * by lia.
  destruct n as [|n].
  - cbn. by eapply schedule_round.
  - rewrite (proj2 (Z.eqb_neq _ 0)) by lia. apply IH; [lia|done..].
Qed.

(** One turn: the running process gives way to the first one waiting. *)
Lemma turn_round i c p q k : round i c 10 (p :: q) k → round i p 10 (q ++ [c]) (Nat.iter 10 timer_tick k).
Proof. intros Hk. apply (slice_round i c p (p :: q) (q ++ [c]) 10); [lia|done..]. Qed.

Lemma turns_round i n : ∀ c p q q' k,
  length q = n → round i c 10 (q ++ p :: q') k →
  round i p 10 (q' ++ c :: q) (Nat.iter (10 * S n) timer_tick k).
Proof.
  induction n as [|n IH]; intros c p q q' k Hn Hk.
  - apply nil_length_inv in Hn as ->. by apply turn_round.
  - destruct q as [|x q]; [done|]. injection Hn as Hn.
    replace (10 * S (S n))%nat with (10 * S n + 10)%nat by lia. rewrite Nat.iter_add.
    apply turn_round in Hk. rewrite <- app_assoc in Hk. cbn [app] in Hk.
    apply (IH x p q (q' ++ [c])) in Hk; [|done]. rewrite <- app_assoc in Hk. exact Hk.
Qed.

(** C14: round robin by the timer.  While no process of a higher priority is ready,
    the process at position [n] of the running process's queue is on the processor
    after the rest of the current slice and [n] slices of ten ticks, and the
    processes that ran before it wait behind it, in order. *)
Theorem round_robin i c s q p q' k :
  round i c s (q ++ p :: q') k → 0 < s →
  round i p 10 (q' ++ c :: q) (Nat.iter (Z.to_nat s + 10 * length q) timer_tick k).
Proof.
  intros Hk Hs. rewrite <- (Z2Nat.id s) in Hk by lia. rewrite Nat.add_comm, Nat.iter_add.
  destruct q as [|x q].
  - apply (slice_round i c p (p :: q') (q' ++ [c]) (Z.to_nat s)); [lia|done..].
  - cbn [length app] in *. apply (slice_round i c x _ (q ++ p :: q' ++ [c])) in Hk; [|lia|cbn; by rewrite <- app_assoc].
    apply (turns_round i (length q) x p q (q' ++ [c])) in Hk; [|done]. rewrite <- app_assoc in Hk. exact Hk.
Qed.

(** ** Fork *)

(** [fork].  With a current process, either a stack or page table could not be
    allocated, and only the process number is spent; or the child, which has the
    next number, the parent's priority, registers, files and directory, is in the
    table and last in the parent's queue, the parent being unchanged. *)
Theorem fork_spec k q :
  0 ≤ next_pid (world k) < 2 ^ 32 - 1 → current k = Some q →
  match fork k with
  | (Some c, k') =>
      c = next_pid (world k) ∧ next_pid (world k') = c + 1 ∧
      ∃ child, processes k' = <[c := child]> (processes k) ∧ pid child = c ∧ ready (pstate child) ∧
        priority child = priority q ∧ context child = context q ∧
        file_descriptors child = file_descriptors q ∧ cwd child = cwd q ∧
        run_queues (sched k') = push_queue (priority_index (priority q)) c (run_queues (sched k)) ∧
        current_p (sched k') = current_p (sched k)
  | (None, k') =>
      processes k' = processes k ∧ sched k' = sched k ∧ next_pid (world k') = next_pid (world k) + 1
  end.
Proof.
  intros Hw Hq. unfold fork. rewrite Hq. pose proof (Process_fork_pid q (world k)) as Hp.
  destruct (Process_fork q (world k)) as [[c|] w] eqn:E.
  - destruct (Process_fork_fresh _ _ _ _ Hw E) as ((Hpid & Hn & Hst & Hts) & Hprio & Hctx & Hfd & Hcwd).
    rewrite add_process_run, Hprio. cbn. split; [done|]. split; [lia|]. exists c. done.
  - cbn in *. split; [done|]. split; [done|]. rewrite Hp. apply Z.mod_small. lia.
Qed.

(** ** A sleeper is not run again *)

(** In no queue, not current, and not the idle process. *)
Record lost (p : Z) (k : Kernel) : Prop := mk_lost {
  lost_queued : ¬ queued k p;
  lost_current : current_p (sched k) ≠ Some p;
  lost_idle : idle_pid (sched k) ≠ Some p;
}.

Lemma dispatch_lost p k : ¬ queued k p → idle_pid (sched k) ≠ Some p → lost p (dispatch k).
Proof.
  intros Hq Hid. unfold dispatch, select_next. destruct (pop_highest (run_queues (sched k))) as [[n|] qs] eqn:E.
  - apply pop_highest_Some in E as (i & q & Hi & -> & _). pose proof (concat_pop _ _ _ _ Hi) as Hperm.
    unfold queued in Hq. rewrite Hperm, elem_of_cons in Hq. split; cbn; [unfold queued; cbn; tauto| |done].
    intros [= ->]. tauto.
  - apply pop_highest_None in E as [-> _]. split; cbn.
    + destruct (idle_pid (sched k)); exact Hq.
    + destruct (idle_pid (sched k)) eqn:Ei; cbn; congruence.
    + destruct (idle_pid (sched k)) eqn:Ei; cbn; congruence.
Qed.

Lemma requeue_idle k : idle_pid (sched (requeue k)) = idle_pid (sched k).
Proof.
  unfold requeue. destruct (current_p _); [|done]. destruct (_ !! _); [|done]. by destruct (decide _).
Qed.

(** The current process is requeued only when it is running. *)
Lemma requeue_queued p k :
  ¬ queued k p → (current_p (sched k) = Some p → ∀ pr, processes k !! p = Some pr → pstate pr ≠ PRunning) →
  ¬ queued (requeue k) p.
Proof.
  intros Hq Hst. unfold requeue. destruct (current_p (sched k)) as [c|] eqn:E; [|done].
  destruct (processes k !! c) as [pr|] eqn:Ep; [|done]. destruct (decide _) as [Hr|]; [|done].
  unfold queued at 1. cbn. intros [->|Hin]%(queued_push k); [by apply (Hst eq_refl pr)|done|done].
Qed.

Lemma schedule_lost p k :
  enabled k = true → ¬ queued k p → idle_pid (sched k) ≠ Some p →
  (current_p (sched k) = Some p → ∀ pr, processes k !! p = Some pr → pstate pr ≠ PRunning) →
  lost p (schedule k).
Proof.
  intros He Hq Hid Hst. destruct (schedule_run k He) as [r ->].
  assert (lost p (dispatch (requeue k))) as [? ? ?]; [|done].
  apply dispatch_lost; [by apply requeue_queued|by rewrite requeue_idle].
Qed.

Lemma schedule_enabled k : enabled (schedule k) = enabled k.
Proof.
  unfold schedule. destruct (negb (enabled k)); [done|]. destruct (select_next _) as [n s].
  assert (enabled (requeue k) = enabled k) as Hr
    by (unfold requeue; destruct (current_p _); [|done]; destruct (_ !! _); [|done]; by destruct (decide _)).
  unfold context_switch. destruct (decide _); destruct n; cbn; repeat (destruct (_ ≫= _)); cbn; try done;
    destruct (current_p (sched k)); cbn; repeat case_match; done.
Qed.

(** A process that calls [sleep_ms] is marked ready when it wakes up, but not put
    back in a queue: once the processor is given up, yields never run it again. *)
Theorem sleep_loses_process fuel env p k :
  sched_inv k → enabled k = true → current_p (sched k) = Some p → idle_pid (sched k) ≠ Some p →
  0 ≤ tick_count k < 2 ^ 64 →
  ∃ k', sleep_ms fuel env 0 k = Some k' ∧ ∀ n, current_p (sched (Nat.iter (S n) schedule k')) ≠ Some p.
Proof.
  intros Hk He Hc Hid Ht. unfold sleep_ms, current_pid. rewrite Hc.
  rewrite (Z.add_0_r (tick_count k)), u64_small by done.
  assert (∀ k1, tick_count k1 = tick_count k → sleep_loop fuel env 0 (tick_count k) k1 = Some k1) as Hl
    by (intros k1 Hk1; destruct fuel; cbn; by rewrite Hk1, Z.ltb_irrefl).
  rewrite Hl by done. eexists. split; [done|]. set (k1 := upd_process p _ _).
  assert (lost p (schedule k1)) as Hlost.
  { apply schedule_lost; [done|apply Hk, Hc|done|]. intros _ pr. cbn. rewrite lookup_alter_eq.
    by intros (pr0 & _ & ->)%fmap_Some. }
  intros n. assert (lost p (Nat.iter (S n) schedule k1) ∧ enabled (Nat.iter (S n) schedule k1) = true) as [[_ ? _] _]; [|done].
  induction n as [|n [[Hq Hcur Hidle] Hen]]; [by rewrite schedule_enabled|].
  cbn [Nat.iter nat_rect] in *. rewrite schedule_enabled. split; [|done]. by apply schedule_lost.
Qed.

(** ** Concrete runs *)

Module SchedulerExample.

(** The first pages are free. *)
Definition m0 : PT FrameAllocator := mkPT ∅ (mkFA (arr_new BITMAP_SIZE 0) 16 MAX_PAGES MAX_PAGES).

Definition k0 : Kernel := match proc_init (Kernel_boot m0) with Ok k => k | _ => Kernel_boot m0 end.

(** [add_process] of a new kernel process. *)
Definition add (name : string) (k : Kernel) : Kernel :=
  match new_kernel name (world k) with (Some p, w) => add_process p (set_world w k) | (None, w) => k end.

Definition k1 : Kernel := yield_now (start (add "b" (add "a" k0))).

Lemma k0_boot : proc_init (Kernel_boot m0) = Ok k0.
Proof. by vm_compute. Qed.

Lemma add_step name k :
  0 ≤ next_pid (world k) < 2 ^ 32 - 1 → is_Some (new_kernel name (world k)).1 → kstep k (add name k).
Proof.
  intros Hw [p Hp]. unfold add. destruct (new_kernel name (world k)) as [[p'|] w] eqn:E; [|done]. by eapply step_add.
Qed.

Lemma k1_reachable : rtc kstep k0 k1.
Proof.
  unfold k1.
  eapply rtc_l; [apply (add_step "a"); [by vm_compute|by vm_compute; eexists]|].
  eapply rtc_l; [apply (add_step "b"); [by vm_compute|by vm_compute; eexists]|].
  eapply rtc_l; [apply step_start|]. eapply rtc_l; [apply step_yield|]. apply rtc_refl.
Qed.

Lemma scheduler_invariant_witness :
  sched_inv k1 ∧ current_p (sched k1) = Some 3 ∧ run_queues (sched k1) = [[]; []; [4]; []; []].
Proof.
  split; [exact (scheduler_invariant m0 k0 k1 k0_boot k1_reachable)|]. split; by vm_compute.
Defined.

Lemma k1_inv : sched_inv k1.
Proof.
  eapply kstep_inv; [apply step_yield|]. eapply kstep_inv; [apply step_start|].
  eapply kstep_inv; [apply (add_step "b"); [by vm_compute|by vm_compute; eexists]|].
  eapply kstep_inv; [apply (add_step "a"); [by vm_compute|by vm_compute; eexists]|].
  apply (proc_init_inv m0), k0_boot.
Qed.

Lemma k1_round : round 2 3 10 [4] k1.
Proof.
  split; [exact k1_inv|by vm_compute..|by vm_compute; eexists|by vm_compute|].
  intros [|[|[|[|[|j]]]]] q Hj; vm_compute; try lia; by intros [= <-].
Qed.

Lemma round_robin_witness :
  round 2 4 10 [3] (Nat.iter 10 timer_tick k1) ∧ current_p (sched (Nat.iter 10 timer_tick k1)) = Some 4.
Proof.
  split; [exact (round_robin 2 3 10 [] 4 [] k1 k1_round ltac:(lia))|by vm_compute].
Defined.

Lemma k1_pid : 0 ≤ next_pid (world k1) < 2 ^ 32 - 1.
Proof. by vm_compute. Qed.

Lemma k1_pid5 : next_pid (world k1) = 5.
Proof. by vm_compute. Qed.

Lemma k1_fork : is_Some (fork k1).1.
Proof. vm_compute. eexists. reflexivity. Qed.

Lemma k1_current : is_Some (current k1).
Proof. vm_compute. eexists. reflexivity. Qed.

Lemma fork_spec_witness : ∃ c k', fork k1 = (Some c, k') ∧ c = 5 ∧ next_pid (world k') = 6.
Proof.
  destruct k1_current as [q E]. pose proof (fork_spec k1 q k1_pid E) as H. pose proof k1_fork as Hf.
  destruct (fork k1) as [[c|] k'] eqn:Ef; [|destruct Hf; discriminate].
  destruct H as (Hc & Hn & _). rewrite k1_pid5 in Hc. subst c. exists 5, k'. repeat split. exact Hn.
Defined.

Lemma sleep_loses_process_witness :
  ∃ k', sleep_ms 0 (λ _ k, k) 0 k1 = Some k' ∧ ∀ n, current_p (sched (Nat.iter (S n) schedule k')) ≠ Some 3.
Proof. apply sleep_loses_process; [exact k1_inv|by vm_compute..]. Defined.

End SchedulerExample.
