(* ===== verification/Locks.v ===== *)
(** * Locks: [sync/mutex.rs]

    [Mutex], [RecursiveMutex] and [RwLock] as transition systems.  A state holds the
    atomics of the lock and, for every thread, the place it is at; [step] performs
    the next atomic operation of a thread, [call] starts an operation.  Steps of
    different threads interleave at will, every operation acting on the one current
    value of each atomic (sequential consistency).  [me t] is what
    [scheduler::current_pid] answers in thread [t]; [yield_now] is a step that
    changes nothing. *)

From stdpp Require Import relations.
From S2P Require Import Prelude.

(** ** Counting threads *)

Section Total.

Context {A : Type}.

(** The sum of a weight over the threads. *)
Definition total (f : A → Z) (m : gmap Z A) : Z := map_fold (λ _ x n, f x + n) 0 m.

Lemma total_insert_None f m t x : m !! t = None → total f (<[t := x]> m) = f x + total f m.
Proof. intros H. unfold total. rewrite map_fold_insert_L; [done|intros; lia|done]. Qed.

Lemma total_split f m t x : m !! t = Some x → total f m = f x + total f (delete t m).
Proof.
  intros H. rewrite <- (total_insert_None f (delete t m) t x) by apply lookup_delete_eq. f_equal. by rewrite insert_delete_id.
Qed.

(** A thread moves. *)
Lemma total_insert f m t x y : m !! t = Some x → total f (<[t := y]> m) = total f m - f x + f y.
Proof.
  intros H. rewrite (total_split f m t x H), <- insert_delete_eq, total_insert_None by apply lookup_delete_eq. lia.
Qed.

Lemma total_nonneg f m : (∀ x, 0 ≤ f x) → 0 ≤ total f m.
Proof.
  intros Hf. unfold total. apply (map_fold_weak_ind (λ n _, 0 ≤ n)); [lia|]. intros t x m' n _ Hn. specialize (Hf x). lia.
Qed.

Lemma total_le f g m : (∀ x, f x ≤ g x) → total f m ≤ total g m.
Proof.
  intros Hfg. induction m as [|t x m Ht IH] using map_ind; [done|].
  rewrite !total_insert_None by done. specialize (Hfg x). lia.
Qed.

Lemma total_at f m t x : (∀ x, 0 ≤ f x) → m !! t = Some x → f x ≤ total f m.
Proof. intros Hf H. rewrite (total_split f m t x H). pose proof (total_nonneg f (delete t m) Hf). lia. Qed.

Lemma total_two f m t1 t2 x1 x2 :
  (∀ x, 0 ≤ f x) → m !! t1 = Some x1 → m !! t2 = Some x2 → t1 ≠ t2 → f x1 + f x2 ≤ total f m.
Proof.
  intros Hf H1 H2 Hne. rewrite (total_split f m t1 x1 H1).
  assert (f x2 ≤ total f (delete t1 m)); [|lia]. apply (total_at f _ t2); [done|]. by rewrite lookup_delete_ne.
Qed.

Lemma total_pos f m : (∀ x, 0 ≤ f x) → 0 < total f m → ∃ t x, m !! t = Some x ∧ 0 < f x.
Proof.
  intros Hf. induction m as [|t x m Ht IH] using map_ind; [done|]. rewrite total_insert_None by done. intros H.
  destruct (decide (0 < f x)) as [Hx|Hx].
  - exists t, x. split; [|done]. apply lookup_insert_eq.
  - destruct IH as (t' & x' & Ht' & Hx'); [specialize (Hf x); lia|]. exists t', x'. split; [|done].
    rewrite lookup_insert_ne; [done|]. congruence.
Qed.

Lemma total_zero f m : (∀ t x, m !! t = Some x → f x = 0) → total f m = 0.
Proof.
  induction m as [|t x m Ht IH] using map_ind; [done|]. intros H. rewrite total_insert_None by done.
  rewrite (H t x) by apply lookup_insert_eq. rewrite IH; [done|]. intros t' x' Ht'. apply (H t').
  rewrite lookup_insert_ne; [done|]. congruence.
Qed.

(** The weight of one place. *)
Definition one (P : A → bool) (x : A) : Z := if P x then 1 else 0.

Lemma one_nonneg P x : 0 ≤ one P x.
Proof. unfold one. by destruct (P x). Qed.

Lemma total_one_le P m : total (one P) m ≤ Z.of_nat (size m).
Proof.
  induction m as [|t x m Ht IH] using map_ind; [done|]. rewrite total_insert_None, map_size_insert_None by done.
  unfold one at 1. destruct (P x); lia.
Qed.

End Total.

(** ** Mutex *)

Module Mutex.

(** The places of a thread: outside; in [try_lock] before the compare-exchange and
    before the store of the owner; in [lock] before it joins the waiters and before
    it yields; with the guard; in [unlock] before each of its three operations. *)
Inductive MutexPlace : Type :=
| Outside | Exchange (blocking : bool) | StoreOwner | JoinWaiters | Yielding
| Guard | ClearOwner | ClearLocked | PopWaiter.

Record Mutex : Type := mkMutex {
  locked : bool;
  owner : Z;
  waiters : list Z;
  places : gmap Z MutexPlace;
}.

(** [Mutex::new], with the threads that will use it. *)
Definition mutex_new (threads : list Z) : Mutex := mkMutex false 0 [] (list_to_map (map (λ t, (t, Outside)) threads)).

Definition go (t : Z) (p : MutexPlace) (m : Mutex) : Mutex :=
  mkMutex (locked m) (owner m) (waiters m) (<[t := p]> (places m)).

Definition is_locked (m : Mutex) : bool := locked m.

(** The operations a thread can start. *)
Inductive MutexCall : Type := TryLock | Lock | Unlock.

Definition mutex_call (t : Z) (c : MutexCall) (m : Mutex) : option Mutex :=
  match places m !! t, c with
  | Some Outside, TryLock => Some (go t (Exchange false) m)
  | Some Outside, Lock => Some (go t (Exchange true) m)
  | Some Guard, Unlock => Some (go t ClearOwner m)
  | _, _ => None
  end.

Definition mutex_step (me : Z → option Z) (t : Z) (m : Mutex) : option Mutex :=
  match places m !! t with
  | Some (Exchange blocking) =>
      Some (if locked m then go t (if blocking then JoinWaiters else Outside) m
            else mkMutex true (owner m) (waiters m) (<[t := StoreOwner]> (places m)))
  | Some StoreOwner => Some (mkMutex (locked m) (default (owner m) (me t)) (waiters m) (<[t := Guard]> (places m)))
  | Some JoinWaiters =>
      Some (mkMutex (locked m) (owner m) (match me t with Some p => waiters m ++ [p] | None => waiters m end)
        (<[t := Yielding]> (places m)))
  | Some Yielding => Some (go t (Exchange true) m)
  | Some ClearOwner => Some (mkMutex (locked m) 0 (waiters m) (<[t := ClearLocked]> (places m)))
  | Some ClearLocked => Some (mkMutex false (owner m) (waiters m) (<[t := PopWaiter]> (places m)))
  | Some PopWaiter => Some (mkMutex (locked m) (owner m) (tail (waiters m)) (<[t := Outside]> (places m)))
  | Some Outside | Some Guard | None => None
  end.

(** Some thread moves. *)
Definition trans (me : Z → option Z) (m m' : Mutex) : Prop :=
  ∃ t, mutex_step me t m = Some m' ∨ ∃ c, mutex_call t c m = Some m'.

(** The lock is taken by whoever is between the exchange and the release. *)
Definition holds (p : MutexPlace) : bool :=
  match p with StoreOwner | Guard | ClearOwner | ClearLocked => true | _ => false end.

Definition owns (p : MutexPlace) : bool := match p with Guard | ClearOwner => true | _ => false end.

Record inv (me : Z → option Z) (m : Mutex) : Prop := mk_inv {
  inv_locked : total (one holds) (places m) = if locked m then 1 else 0;
  inv_owner : ∀ t p, places m !! t = Some p → owns p = true → ∀ q, me t = Some q → owner m = q;
}.

Lemma mutex_new_inv me threads : inv me (mutex_new threads).
Proof.
  assert (∀ t p, places (mutex_new threads) !! t = Some p → p = Outside) as H.
  { cbn. intros t p Hp%elem_of_list_to_map_2. apply list_elem_of_fmap in Hp as (t' & [= -> ->] & _). done. }
  split.
  - cbn. apply total_zero. intros t p Hp%H. by subst.
  - intros t p Hp%H Ho. by subst.
Qed.

(** A thread that takes or releases the lock, the others staying where they are. *)
Lemma mutex_go_inv me m t x y (l : bool) o w :
  places m !! t = Some x →
  (if locked m then 1 else 0) - one holds x + one holds y = (if l then 1 else 0) →
  (owns y = true → ∀ q, me t = Some q → o = q) →
  (o = owner m ∨ holds x = true) →
  inv me m → inv me (mkMutex l o w (<[t := y]> (places m))).
Proof.
  intros Hx Hl Ho Hom [Hlk How]. split; cbn [places locked owner].
  - rewrite (total_insert _ _ _ _ _ Hx). lia.
  - intros t' p. destruct (decide (t = t')) as [<-|Hne].
    + rewrite lookup_insert_eq. intros [= <-]. apply Ho.
    + rewrite lookup_insert_ne by done. intros Hp Hown q Hq. destruct Hom as [->|Hhx]; [by eapply How|]. exfalso.
      pose proof (total_two _ _ _ _ _ _ (one_nonneg holds) Hx Hp Hne) as H2. unfold one in H2 at 1 2.
      rewrite Hhx in H2. assert (holds p = true) as Hhp by by destruct p. rewrite Hhp in H2. destruct (locked m); lia.
Qed.

Lemma mutex_trans_inv me m m' : trans me m m' → inv me m → inv me m'.
Proof.
  intros (t & H) Hinv. pose proof (inv_locked me m Hinv) as Hl. pose proof (inv_owner me m Hinv t) as Ho.
  destruct (places m !! t) as [x|] eqn:E; unfold mutex_step, mutex_call in H; rewrite E in H; [|by destruct H as [|[]]].
  pose proof (total_at _ _ _ _ (one_nonneg holds) E) as Hat.
  destruct H as [H|[c H]].
  - destruct x as [|b| | | | | | |]; try done; injection H as <-;
      [destruct (locked m) eqn:El; [destruct b|]|..];
      (eapply mutex_go_inv; [exact E|try rewrite El; cbn; unfold one in *; cbn in *; try destruct (locked m); lia|..|exact Hinv]);
      try done; try (by left); try (by right).
    intros _ q ->. done.
  - destruct x, c; try done; injection H as <-;
      (eapply mutex_go_inv; [exact E|cbn; lia|..|exact Hinv]); try done; try (by left); try (by right).
    intros _. by apply (Ho Guard).
Qed.

(** C15: the mutex.  Starting from [new], however the threads interleave, at most one
    has the guard; the lock is taken exactly when some thread is between its
    acquisition and its release, so a thread that tries a lock nobody holds gets it;
    and the owner field names the process of the thread that has the guard. *)
Theorem mutex_exclusion me threads m :
  rtc (trans me) (mutex_new threads) m →
  (∀ t1 t2, places m !! t1 = Some Guard → places m !! t2 = Some Guard → t1 = t2) ∧
  (locked m = true ↔ ∃ t p, places m !! t = Some p ∧ holds p = true) ∧
  (∀ t p, places m !! t = Some Guard → me t = Some p → owner m = p) ∧
  (∀ t b, places m !! t = Some (Exchange b) → (∀ t' p, places m !! t' = Some p → holds p = false) →
     ∃ m', mutex_step me t m = Some m' ∧ places m' !! t = Some StoreOwner).
Proof.
  intros Hr. assert (inv me m) as [Hl Ho].
  { pose proof (mutex_new_inv me threads) as H0. induction Hr as [|m1 m2 m3 H12 _ IH]; [done|]. by apply IH, (mutex_trans_inv me m1). }
  assert (locked m = true ↔ ∃ t p, places m !! t = Some p ∧ holds p = true) as Hiff.
  { split.
    - intros El. rewrite El in Hl. destruct (total_pos (one holds) (places m) (one_nonneg holds)) as (t & p & Hp & H1); [lia|].
      exists t, p. split; [done|]. unfold one in H1. by destruct (holds p).
    - intros (t & p & Hp & Hh). pose proof (total_at _ _ _ _ (one_nonneg holds) Hp) as H1. unfold one in H1 at 1.
      rewrite Hh in H1. destruct (locked m); [done|lia]. }
  repeat split; [|apply Hiff|apply Hiff|..].
  - intros t1 t2 H1 H2. destruct (decide (t1 = t2)) as [|Hne]; [done|].
    pose proof (total_two _ _ _ _ _ _ (one_nonneg holds) H1 H2 Hne) as H. cbn in H. destruct (locked m); lia.
  - intros t p Hp. by apply (Ho t Guard).
  - intros t b Hb Hnone. unfold mutex_step. rewrite Hb. destruct (locked m) eqn:El.
    + destruct Hiff as [Hiff _]. destruct (Hiff eq_refl) as (t' & p & Hp & Hh). by rewrite (Hnone t' p Hp) in Hh.
    + eexists. split; [done|]. cbn. apply lookup_insert_eq.
Qed.

End Mutex.

(** ** Recursive mutex *)

Module RecursiveMutex.

(** In [lock]: before the load of [locked], of [owner], the increment, the
    exchange, the two stores, the yield; in [unlock]: before the decrement and the
    two stores. *)
Inductive RMutexPlace : Type :=
| Outside | LoadLocked | LoadOwner | AddCount | Exchange | StoreOwner | StoreCount | Yielding
| SubCount | ClearOwner | ClearLocked.

(** A thread: where it is and how many guards it has. *)
Record Thread : Type := mkThread { at_ : RMutexPlace; depth : Z }.

Record RecursiveMutex : Type := mkRMutex {
  locked : bool;
  owner : Z;
  count : Z;
  threads : gmap Z Thread;
}.

Definition rmutex_new (ts : list Z) : RecursiveMutex :=
  mkRMutex false 0 0 (list_to_map (map (λ t, (t, mkThread Outside 0)) ts)).

Definition go (t : Z) (p : RMutexPlace) (d : Z) (m : RecursiveMutex) : RecursiveMutex :=
  mkRMutex (locked m) (owner m) (count m) (<[t := mkThread p d]> (threads m)).

(** [current_pid().map(|p| p.as_u32()).unwrap_or(0)] *)
Definition pid_or_0 (me : Z → option Z) (t : Z) : Z := default 0 (me t).

Inductive RMutexCall : Type := Lock | Unlock.

(** The count has 32 bits: fewer guards are assumed. *)
Definition rmutex_call (t : Z) (c : RMutexCall) (m : RecursiveMutex) : option RecursiveMutex :=
  match threads m !! t, c with
  | Some (mkThread Outside d), Lock => if d <? 2 ^ 32 - 1 then Some (go t LoadLocked d m) else None
  | Some (mkThread Outside d), Unlock => if 0 <? d then Some (go t SubCount d m) else None
  | _, _ => None
  end.

Definition rmutex_step (me : Z → option Z) (t : Z) (m : RecursiveMutex) : option RecursiveMutex :=
  match threads m !! t with
  | Some (mkThread p d) =>
      match p with
      | Outside => None
      | LoadLocked => Some (go t (if locked m then LoadOwner else Exchange) d m)
      | LoadOwner => Some (go t (if owner m =? pid_or_0 me t then AddCount else Exchange) d m)
      | AddCount => Some (mkRMutex (locked m) (owner m) (u32 (count m + 1)) (<[t := mkThread Outside (d + 1)]> (threads m)))
      | Exchange =>
          Some (if locked m then go t Yielding d m
                else mkRMutex true (owner m) (count m) (<[t := mkThread StoreOwner d]> (threads m)))
      | StoreOwner => Some (mkRMutex (locked m) (pid_or_0 me t) (count m) (<[t := mkThread StoreCount d]> (threads m)))
      | StoreCount => Some (mkRMutex (locked m) (owner m) 1 (<[t := mkThread Outside (d + 1)]> (threads m)))
      | Yielding => Some (go t LoadLocked d m)
      | SubCount =>
          Some (mkRMutex (locked m) (owner m) (u32 (count m - 1))
            (<[t := mkThread (if count m =? 1 then ClearOwner else Outside) (d - 1)]> (threads m)))
      | ClearOwner => Some (mkRMutex (locked m) 0 (count m) (<[t := mkThread ClearLocked d]> (threads m)))
      | ClearLocked => Some (mkRMutex false (owner m) (count m) (<[t := mkThread Outside d]> (threads m)))
      end
  | None => None
  end.

Definition trans (me : Z → option Z) (m m' : RecursiveMutex) : Prop :=
  ∃ t, rmutex_step me t m = Some m' ∨ ∃ c, rmutex_call t c m = Some m'.

(** Processes of their own. *)
Definition distinct (me : Z → option Z) (ts : list Z) : Prop :=
  (∀ t, t ∈ ts → ∃ p, me t = Some p ∧ p ≠ 0) ∧
  (∀ t1 t2, t1 ∈ ts → t2 ∈ ts → me t1 = me t2 → t1 = t2).

(** The thread is in the business of taking or releasing the lock. *)
Definition moving (p : RMutexPlace) : bool :=
  match p with StoreOwner | StoreCount | ClearOwner | ClearLocked => true | _ => false end.

Definition holds (th : Thread) : bool := moving (at_ th) || (0 <? depth th).

(** What a thread's place says of the fields. *)
Definition thread_ok (me : Z → option Z) (m : RecursiveMutex) (t : Z) (th : Thread) : Prop :=
  0 ≤ depth th < 2 ^ 32 ∧
  match at_ th with
  | StoreOwner | ClearOwner => depth th = 0
  | ClearLocked => depth th = 0 ∧ owner m ≠ pid_or_0 me t
  | StoreCount => depth th = 0 ∧ owner m = pid_or_0 me t
  | Exchange | Yielding => depth th = 0
  | AddCount => 0 < depth th < 2 ^ 32 - 1
  | SubCount => 0 < depth th
  | LoadLocked | LoadOwner => depth th < 2 ^ 32 - 1
  | Outside => True
  end ∧
  (0 < depth th → owner m = pid_or_0 me t ∧ count m = depth th) ∧
  (owner m = pid_or_0 me t → holds th = true).

Record inv (me : Z → option Z) (ts : list Z) (m : RecursiveMutex) : Prop := mk_inv {
  inv_locked : total (one holds) (threads m) = if locked m then 1 else 0;
  inv_threads : ∀ t th, threads m !! t = Some th → t ∈ ts ∧ thread_ok me m t th;
}.

Section Exclusion.

#[local] Set Default Proof Using "Type*".

Variables (me : Z → option Z) (ts : list Z).
Hypothesis Hme : distinct me ts.

Lemma pid_pos t : t ∈ ts → pid_or_0 me t ≠ 0.
Proof. intros Ht. destruct Hme as [Hp _]. destruct (Hp t Ht) as (p & E & Hp0). unfold pid_or_0. by rewrite E. Qed.

Lemma pid_inj t1 t2 : t1 ∈ ts → t2 ∈ ts → pid_or_0 me t1 = pid_or_0 me t2 → t1 = t2.
Proof.
  intros H1 H2 H. destruct Hme as [Hp Hinj]. apply Hinj; [done..|].
  destruct (Hp t1 H1) as (p1 & E1 & _), (Hp t2 H2) as (p2 & E2 & _). unfold pid_or_0 in H. rewrite E1, E2 in *. cbn in H. congruence.
Qed.

Lemma rmutex_new_inv : inv me ts (rmutex_new ts).
Proof.
  assert (∀ t th, threads (rmutex_new ts) !! t = Some th → t ∈ ts ∧ th = mkThread Outside 0) as H.
  { cbn. intros t th Hp%elem_of_list_to_map_2. apply list_elem_of_fmap in Hp as (t' & [= -> ->] & Hin). done. }
  split.
  - cbn. apply total_zero. intros t th [_ ->]%H. done.
  - intros t th [Ht ->]%H. split; [done|]. unfold thread_ok. cbn. repeat split; try lia.
    intros E. by destruct (pid_pos t Ht).
Qed.

(** A thread moves from [x] to [y]. *)
Lemma rmutex_move_inv m t x y (l : bool) o c :
  threads m !! t = Some x → inv me ts m →
  (if locked m then 1 else 0) - one holds x + one holds y = (if l then 1 else 0) →
  thread_ok me (mkRMutex l o c (<[t := y]> (threads m))) t y →
  (o = owner m ∧ c = count m ∨ holds x = true ∧ (o = owner m ∨ o = 0 ∨ o = pid_or_0 me t)) →
  inv me ts (mkRMutex l o c (<[t := y]> (threads m))).
Proof.
  intros Hx [Hlk Hth] Hl Hy Hfr. destruct (Hth t x Hx) as [Ht _]. split; cbn [threads locked].
  - rewrite (total_insert _ _ _ _ _ Hx). lia.
  - intros t' th. destruct (decide (t = t')) as [<-|Hne].
    + rewrite lookup_insert_eq. by intros [= <-].
    + rewrite lookup_insert_ne by done. intros Hp. destruct (Hth t' th Hp) as [Ht' Hok]. split; [done|].
      destruct Hfr as [[-> ->]|[Hhx Ho]]; [done|].
      pose proof (total_two _ _ _ _ _ _ (one_nonneg holds) Hx Hp Hne) as H2. unfold one in H2 at 1 2. rewrite Hhx in H2.
      assert (holds th = false) as Hn by (destruct (holds th); [destruct (locked m); lia|done]).
      unfold thread_ok in *. cbn [owner count] in *. unfold holds in Hn. apply orb_false_iff in Hn as [Hmv Hd%Z.ltb_ge].
      destruct Hok as (Hr & Hat & Hdep & Hown). split; [done|]. split; [destruct (at_ th); done|]. split; [lia|].
      intros E. exfalso. destruct Ho as [-> |[-> | ->]].
      * specialize (Hown E). unfold holds in Hown. rewrite Hmv in Hown. apply Z.ltb_lt in Hown. lia.
      * by destruct (pid_pos t' Ht').
      * by apply Hne, pid_inj.
Qed.

#[local] Ltac moved v :=
  apply rmutex_move_inv with (x := v); try done; unfold thread_ok, one, holds in *; cbn in *;
  repeat match goal with |- context [if 0 <? ?e then _ else _] => destruct (Z.ltb_spec 0 e) end; try lia.

Lemma rmutex_trans_inv m m' : trans me m m' → inv me ts m → inv me ts m'.
Proof.
  intros (t & H) Hinv. pose proof (inv_locked _ _ _ Hinv) as Hl. pose proof (inv_threads _ _ _ Hinv t) as Ht.
  destruct (threads m !! t) as [[p d]|] eqn:E; unfold rmutex_step, rmutex_call in H; rewrite E in H; [|by destruct H as [|[[]]]].
  destruct (Ht _ eq_refl) as [Hin (Hr & Hat & Hdep & Hown)]. pose proof (pid_pos t Hin) as H0. cbn [at_ depth] in *.
  pose proof (total_at _ _ _ _ (one_nonneg holds) E) as Hone. rewrite Hl in Hone. unfold one, holds in Hone. cbn [at_ depth] in Hone.
  assert (locked m = false → 0 < d → False) as Hheld.
  { intros El Hd. rewrite El, (proj2 (Z.ltb_lt 0 d) Hd), orb_true_r in Hone. lia. }
  destruct H as [H|[c H]].
  - destruct p; try done; injection H as <-.
    + moved (mkThread LoadLocked d); destruct (locked m); cbn; lia.
    + moved (mkThread LoadOwner d); destruct (Z.eqb_spec (owner m) (pid_or_0 me t)); cbn; lia.
    + assert (u32 (count m + 1) = d + 1) as -> by (destruct Hdep as [_ ->]; [lia|apply Z.mod_small; lia]).
      moved (mkThread AddCount d).
    + destruct (locked m) eqn:El; moved (mkThread Exchange d); destruct (locked m); lia.
    + moved (mkThread StoreOwner d).
    + moved (mkThread StoreCount d).
    + moved (mkThread Yielding d).
    + assert (u32 (count m - 1) = d - 1) as -> by (destruct Hdep as [_ ->]; [lia|apply Z.mod_small; lia]).
      destruct (Z.eqb_spec (count m) 1); moved (mkThread SubCount d).
    + moved (mkThread ClearOwner d).
    + moved (mkThread ClearLocked d); destruct (locked m); lia.
  - destruct p, c; try done; destruct (_ <? _) eqn:Ed in H; try done; injection H as <-; moved (mkThread Outside d).
Qed.

(** With processes of their own, one thread at a time has guards, and the count is
    the number of its guards. *)
Theorem recursive_mutex_exclusion m :
  rtc (trans me) (rmutex_new ts) m →
  ∀ t th, threads m !! t = Some th → 0 < depth th →
    count m = depth th ∧ ∀ t' th', threads m !! t' = Some th' → t' ≠ t → depth th' = 0.
Proof.
  intros Hr. assert (inv me ts m) as [Hl Hth].
  { pose proof rmutex_new_inv as H0. induction Hr as [|m1 m2 m3 H12 _ IH]; [done|]. by apply IH, (rmutex_trans_inv m1). }
  intros t th Ht Hd. destruct (Hth t th Ht) as (_ & _ & _ & Hdep & _). split; [by apply Hdep|].
  intros t' th' Ht' Hne. destruct (Hth t' th' Ht') as (_ & Hr' & _).
  pose proof (total_two _ _ _ _ _ _ (one_nonneg holds) Ht Ht' (not_eq_sym Hne)) as H2. rewrite Hl in H2. unfold one, holds in H2.
  destruct (Z.ltb_spec 0 (depth th)); [|lia]. destruct (Z.ltb_spec 0 (depth th')); [|lia].
  rewrite !orb_true_r in H2. destruct (locked m); lia.
Qed.

End Exclusion.

(** Two contexts of which one has no process ([current_pid] is [None] until a process
    runs): between the exchange and the store of the owner, [owner] is the 0 that
    stands for no process, and the other context is let in too. *)
Theorem recursive_mutex_boot_race :
  ∃ me m th1 th2, rtc (trans me) (rmutex_new [1; 2]) m ∧
    threads m !! 1 = Some th1 ∧ threads m !! 2 = Some th2 ∧ depth th1 = 1 ∧ depth th2 = 1.
Proof.
  set (me := λ t, if t =? 1 then Some 5 else None : option Z).
  eexists me, _, (mkThread Outside 1), (mkThread Outside 1). split.
  - eapply rtc_l; [exists 1; right; exists Lock; by vm_compute|].
    eapply rtc_l; [exists 1; left; by vm_compute|]. eapply rtc_l; [exists 1; left; by vm_compute|].
    eapply rtc_l; [exists 2; right; exists Lock; by vm_compute|].
    do 3 (eapply rtc_l; [exists 2; left; by vm_compute|]).
    do 2 (eapply rtc_l; [exists 1; left; by vm_compute|]). apply rtc_refl.
  - by vm_compute.
Qed.

End RecursiveMutex.

(** ** Reader-writer lock *)

Module RwLock.

(** In [read]: before the load of [writer], the increment, the second load, the
    decrement of the retry; in [write]: before the exchange, the yield after a
    failure, the test of [readers]; before the operations of the two drops. *)
Inductive RwPlace : Type :=
| Outside | AwaitWriter | Increment | Recheck | BackOff | Reading | ReadDrop
| Exchange | Yielding | Drain | Writing | WriteDrop.

Record RwLock : Type := mkRw { readers : Z; writer : bool; places : gmap Z RwPlace }.

Definition rw_new (threads : list Z) : RwLock := mkRw 0 false (list_to_map (map (λ t, (t, Outside)) threads)).

Inductive RwCall : Type := Read | Write | Drop.

Definition go (t : Z) (p : RwPlace) (l : RwLock) : RwLock := mkRw (readers l) (writer l) (<[t := p]> (places l)).

Definition rw_call (t : Z) (c : RwCall) (l : RwLock) : option RwLock :=
  match places l !! t, c with
  | Some Outside, Read => Some (go t AwaitWriter l)
  | Some Outside, Write => Some (go t Exchange l)
  | Some Reading, Drop => Some (go t ReadDrop l)
  | Some Writing, Drop => Some (go t WriteDrop l)
  | _, _ => None
  end.

Definition rw_step (t : Z) (l : RwLock) : option RwLock :=
  match places l !! t with
  | Some AwaitWriter => Some (go t (if writer l then AwaitWriter else Increment) l)
  | Some Increment => Some (mkRw (u32 (readers l + 1)) (writer l) (<[t := Recheck]> (places l)))
  | Some Recheck => Some (go t (if writer l then BackOff else Reading) l)
  | Some BackOff => Some (mkRw (u32 (readers l - 1)) (writer l) (<[t := AwaitWriter]> (places l)))
  | Some ReadDrop => Some (mkRw (u32 (readers l - 1)) (writer l) (<[t := Outside]> (places l)))
  | Some Exchange => Some (if writer l then go t Yielding l else mkRw (readers l) true (<[t := Drain]> (places l)))
  | Some Yielding => Some (go t Exchange l)
  | Some Drain => Some (go t (if 0 <? readers l then Drain else Writing) l)
  | Some WriteDrop => Some (mkRw (readers l) false (<[t := Outside]> (places l)))
  | Some Outside | Some Reading | Some Writing | None => None
  end.

Definition trans (l l' : RwLock) : Prop := ∃ t, rw_step t l = Some l' ∨ ∃ c, rw_call t c l = Some l'.

(** Counted by [readers]; readers inside; holding [writer]; writers inside. *)
Definition counted (p : RwPlace) : bool := match p with Recheck | BackOff | Reading | ReadDrop => true | _ => false end.
Definition reading (p : RwPlace) : bool := match p with Reading | ReadDrop => true | _ => false end.
Definition claims (p : RwPlace) : bool := match p with Drain | Writing | WriteDrop => true | _ => false end.
Definition writing (p : RwPlace) : bool := match p with Writing | WriteDrop => true | _ => false end.

Record inv (l : RwLock) : Prop := mk_inv {
  inv_size : Z.of_nat (size (places l)) < 2 ^ 32;
  inv_readers : readers l = total (one counted) (places l);
  inv_writer : total (one claims) (places l) = if writer l then 1 else 0;
  inv_exclusive : 0 < total (one writing) (places l) → total (one reading) (places l) = 0;
}.

Lemma rw_new_inv threads : Z.of_nat (length threads) < 2 ^ 32 → inv (rw_new threads).
Proof.
  intros Hlen. assert (∀ t p, places (rw_new threads) !! t = Some p → p = Outside) as H.
  { cbn. intros t p Hp%elem_of_list_to_map_2. apply list_elem_of_fmap in Hp as (t' & [= -> ->] & _). done. }
  split.
  - enough (size (places (rw_new threads)) ≤ length threads)%nat by lia. cbn. clear.
    induction threads as [|t ts IH]; cbn; [by rewrite map_size_empty|]. rewrite map_size_insert. case_match; cbn; lia.
  - symmetry. apply total_zero. by intros t p ->%H.
  - apply total_zero. by intros t p ->%H.
  - intros _. apply total_zero. by intros t p ->%H.
Qed.

Lemma reading_counted l : total (one reading) (places l) ≤ total (one counted) (places l).
Proof. apply total_le. by intros []. Qed.

Lemma writing_claims l : total (one writing) (places l) ≤ total (one claims) (places l).
Proof. apply total_le. by intros []. Qed.

Lemma rw_move_inv l t x y r (w : bool) :
  places l !! t = Some x → inv l →
  r = readers l - one counted x + one counted y →
  (if w then 1 else 0) = (if writer l then 1 else 0) - one claims x + one claims y →
  (0 < total (one writing) (places l) - one writing x + one writing y →
     total (one reading) (places l) - one reading x + one reading y = 0) →
  inv (mkRw r w (<[t := y]> (places l))).
Proof.
  intros Hx [Hs Hr Hw He] Hr' Hw' He'. split; cbn [places readers writer]; rewrite ?(total_insert _ _ _ _ _ Hx); try lia.
  by rewrite map_size_insert_Some by eauto.
Qed.

Lemma rw_trans_inv l l' : trans l l' → inv l → inv l'.
Proof.
  intros (t & H) Hinv. pose proof Hinv as [Hs Hr Hw He].
  pose proof (reading_counted l) as Hrc. pose proof (writing_claims l) as Hwc.
  pose proof (total_nonneg (one reading) (places l) (one_nonneg _)) as Hr0.
  pose proof (total_one_le counted (places l)) as Hle.
  destruct (places l !! t) as [x|] eqn:E; unfold rw_step, rw_call in H; rewrite E in H; [|by destruct H as [|[]]].
  pose proof (total_at _ _ _ _ (one_nonneg counted) E) as Hac. pose proof (total_at _ _ _ _ (one_nonneg claims) E) as Haw.
  assert (∀ P, one P x ≤ total (one P) (places l)) as Hone by (intros P; apply (total_at _ _ _ _ (one_nonneg P) E)).
  pose proof (total_split (one counted) _ _ _ E) as Hsp. pose proof (total_one_le counted (delete t (places l))) as Hled.
  assert (Z.of_nat (size (delete t (places l))) < 2 ^ 32 - 1) as Hsd.
  { rewrite map_size_delete_Some by eauto. assert (size (places l) ≠ 0%nat); [|lia].
    intros Hz%map_size_empty_inv. rewrite Hz in E. by rewrite lookup_empty in E. }
  destruct H as [H|[c H]].
  - destruct x; try done; injection H as <-.
    + eapply rw_move_inv; [exact E|done|..]; destruct (writer l); cbn; lia.
    + cbn in Hsp. assert (u32 (readers l + 1) = readers l + 1) as -> by (apply Z.mod_small; pose proof (total_nonneg (one counted) (places l) (one_nonneg _)); lia).
      eapply rw_move_inv; [exact E|done|cbn; lia..].
    + eapply rw_move_inv; [exact E|done|..]; destruct (writer l) eqn:El; cbn; try lia.
    + cbn in Hac. assert (u32 (readers l - 1) = readers l - 1) as -> by (apply Z.mod_small; lia).
      eapply rw_move_inv; [exact E|done|cbn; lia..].
    + specialize (Hone reading). cbn in Hac, Hone. assert (u32 (readers l - 1) = readers l - 1) as -> by (apply Z.mod_small; lia).
      eapply rw_move_inv; [exact E|done|cbn; lia..].
    + destruct (writer l) eqn:El; (eapply rw_move_inv; [exact E|done|..]); rewrite ?El; cbn; lia.
    + eapply rw_move_inv; [exact E|done|cbn; lia..].
    + eapply rw_move_inv; [exact E|done|..]; destruct (Z.ltb_spec 0 (readers l)); cbn; try lia.
    + specialize (Hone claims). cbn in Hone. eapply rw_move_inv; [exact E|done|cbn; try lia..]. destruct (writer l); lia.
  - destruct x, c; try done; injection H as <-; (eapply rw_move_inv; [exact E|done|cbn; lia..]).
Qed.

(** C16: the reader-writer lock.  However fewer than [2^32] threads interleave, there
    is one writer at most, no reader while there is one, and [readers] counts the
    readers and those that are backing off. *)
Theorem rwlock_exclusion threads l :
  Z.of_nat (length threads) < 2 ^ 32 → rtc trans (rw_new threads) l →
  (∀ t1 t2, places l !! t1 = Some Writing → places l !! t2 = Some Writing → t1 = t2) ∧
  (∀ t1 t2, places l !! t1 = Some Writing → places l !! t2 ≠ Some Reading) ∧
  readers l = total (one counted) (places l).
Proof.
  intros Hlen Hr. assert (inv l) as [Hs Hrd Hw He].
  { pose proof (rw_new_inv threads Hlen) as H0. induction Hr as [|l1 l2 l3 H12 _ IH]; [done|]. by apply IH, (rw_trans_inv l1). }
  split; [|split; [|done]].
  - intros t1 t2 H1 H2. destruct (decide (t1 = t2)) as [|Hne]; [done|].
    pose proof (total_two _ _ _ _ _ _ (one_nonneg claims) H1 H2 Hne) as H. cbn in H. destruct (writer l); lia.
  - intros t1 t2 H1 H2. pose proof (total_at _ _ _ _ (one_nonneg writing) H1) as HW.
    pose proof (total_at _ _ _ _ (one_nonneg reading) H2) as HR. cbn in HW, HR. lia.
Qed.

End RwLock.

(** ** Concrete runs *)

Module LocksExample.

(** Thread 1 has the guard, thread 2 has tried in vain and waits. *)
Definition m1 : Mutex.Mutex := Mutex.mkMutex true 7 [8] {[1 := Mutex.Guard; 2 := Mutex.Yielding]}.
Definition me (t : Z) : option Z := Some (t + 6).

Lemma m1_reachable : rtc (Mutex.trans me) (Mutex.mutex_new [1; 2]) m1.
Proof.
  eapply rtc_l; [exists 1; right; exists Mutex.Lock; by vm_compute|].
  do 2 (eapply rtc_l; [exists 1; left; by vm_compute|]).
  eapply rtc_l; [exists 2; right; exists Mutex.Lock; by vm_compute|].
  do 2 (eapply rtc_l; [exists 2; left; by vm_compute|]).
  apply reflexive_eq. by vm_compute.
Qed.

Lemma mutex_exclusion_witness :
  Mutex.locked m1 = true ∧ Mutex.owner m1 = 7 ∧
  (∀ t, Mutex.places m1 !! t = Some Mutex.Guard → t = 1).
Proof.
  pose proof (Mutex.mutex_exclusion me [1; 2] m1 m1_reachable) as (H1 & H2 & H3 & _).
  split; [apply H2; exists 1, Mutex.Guard; by vm_compute|]. split; [by apply (H3 1)|].
  intros t Ht. by apply (H1 t 1 Ht).
Defined.

(** Thread 1 writes, thread 2 has incremented [readers] and is backing off. *)
Definition l1 : RwLock.RwLock := RwLock.mkRw 1 true {[1 := RwLock.Writing; 2 := RwLock.BackOff]}.

Lemma l1_reachable : rtc RwLock.trans (RwLock.rw_new [1; 2]) l1.
Proof.
  eapply rtc_l; [exists 2; right; exists RwLock.Read; by vm_compute|].
  eapply rtc_l; [exists 2; left; by vm_compute|].
  eapply rtc_l; [exists 1; right; exists RwLock.Write; by vm_compute|].
  do 2 (eapply rtc_l; [exists 1; left; by vm_compute|]).
  do 2 (eapply rtc_l; [exists 2; left; by vm_compute|]).
  apply reflexive_eq. by vm_compute.
Qed.

Lemma rwlock_exclusion_witness :
  (∀ t, RwLock.places l1 !! t ≠ Some RwLock.Reading) ∧ RwLock.readers l1 = total (one RwLock.counted) (RwLock.places l1).
Proof.
  pose proof (RwLock.rwlock_exclusion [1; 2] l1 ltac:(by vm_compute) l1_reachable) as (_ & H2 & H3).
  split; [|exact H3]. intros t. by apply (H2 1 t).
Defined.

End LocksExample.
