(* ===== verification/Sync.v ===== *)
(** * Semaphores, condition variables, barriers, one-time initialisation:
    [sync/semaphore.rs], [sync/condvar.rs]

    As in [Locks], each is a transition system over its atomics and the places of
    the threads, one atomic operation per step.  A step may emit an event, and a
    [run] collects the events. *)

From stdpp Require Import relations.
From S2P Require Import Prelude Locks.

(** ** Runs *)

Section Runs.

Context {S E : Type} (step : Z → S → option (S * list E)) (call : Z → S → S → Prop).

(** A sequence of steps of any threads, with the events in order. *)
Inductive run : S → list E → S → Prop :=
| run_refl s : run s [] s
| run_step t s s1 es1 es2 s2 : step t s = Some (s1, es1) → run s1 es2 s2 → run s (es1 ++ es2) s2
| run_call t s s1 es s2 : call t s s1 → run s1 es s2 → run s es s2.

Lemma run_inv (I : S → Prop) s es s' :
  (∀ t s s1 e, step t s = Some (s1, e) → I s → I s1) → (∀ t s s1, call t s s1 → I s → I s1) →
  run s es s' → I s → I s'.
Proof. intros Hs Hc. induction 1; eauto. Qed.

End Runs.

(** ** Semaphore *)

Module Semaphore.

(** In [wait] and [try_wait]: before the load, the exchange, the enlistment, the
    yield; in [signal]: before the addition and the wake-up; in the [release] of a
    binary semaphore: before its load. *)
Inductive SemPlace : Type :=
| Outside | Load (blocking : bool) | Exchange (blocking : bool) (seen : Z) | JoinWaiters | Yielding
| Add | PopWaiter | ReleaseLoad.

Record Semaphore : Type := mkSem { count : Z; waiters : list Z; places : gmap Z SemPlace }.

Inductive Event : Type := Acquired (t : Z) | Refused (t : Z) | Signalled (t : Z).

Definition sem_new (n : Z) (threads : list Z) : Semaphore :=
  mkSem n [] (list_to_map (map (λ t, (t, Outside)) threads)).

(** [BinarySemaphore::new] *)
Definition new_binary (available : bool) (threads : list Z) : Semaphore := sem_new (if available then 1 else 0) threads.

(** An [isize]. *)
Definition isize : Z → Z := to_signed 64.

Inductive SemCall : Type := Wait | TryWait | Signal | Release.

Definition start (c : SemCall) : SemPlace :=
  match c with Wait => Load true | TryWait => Load false | Signal => Add | Release => ReleaseLoad end.

Definition go (t : Z) (p : SemPlace) (s : Semaphore) : Semaphore := mkSem (count s) (waiters s) (<[t := p]> (places s)).

Definition sem_call (t : Z) (s s' : Semaphore) : Prop :=
  places s !! t = Some Outside ∧ ∃ c, s' = go t (start c) s.

Definition sem_step (me : Z → option Z) (t : Z) (s : Semaphore) : option (Semaphore * list Event) :=
  match places s !! t with
  | Some (Load blocking) =>
      Some (if 0 <? count s then (go t (Exchange blocking (count s)) s, [])
            else if blocking then (go t JoinWaiters s, []) else (go t Outside s, [Refused t]))
  | Some (Exchange blocking seen) =>
      Some (if count s =? seen then (mkSem (seen - 1) (waiters s) (<[t := Outside]> (places s)), [Acquired t])
            else (go t (Load blocking) s, []))
  | Some JoinWaiters =>
      Some (mkSem (count s) (match me t with Some p => waiters s ++ [p] | None => waiters s end)
        (<[t := Yielding]> (places s)), [])
  | Some Yielding => Some (go t (Load true) s, [])
  | Some Add => Some (mkSem (isize (count s + 1)) (waiters s) (<[t := PopWaiter]> (places s)), [Signalled t])
  | Some PopWaiter => Some (mkSem (count s) (tail (waiters s)) (<[t := Outside]> (places s)), [])
  | Some ReleaseLoad => Some (go t (if count s <? 1 then Add else Outside) s, [])
  | Some Outside | None => None
  end.

Definition delta (e : Event) : Z := match e with Acquired _ => -1 | Refused _ => 0 | Signalled _ => 1 end.
Definition acquired (e : Event) : bool := match e with Acquired _ => true | _ => false end.
Definition signalled (e : Event) : bool := match e with Signalled _ => true | _ => false end.

(** How many events of a kind there are. *)
Definition number (P : Event → bool) (es : list Event) : Z := Z.of_nat (length (filter (λ e, P e = true) es)).

Lemma number_app P es1 es2 : number P (es1 ++ es2) = number P es1 + number P es2.
Proof. unfold number. rewrite filter_app, length_app. lia. Qed.

Lemma number_one P e : number P [e] = if P e then 1 else 0.
Proof. unfold number. cbn. destruct (decide (P e = true)) as [->|H]; [done|]. by destruct (P e). Qed.

Lemma number_nil P : number P [] = 0.
Proof. done. Qed.

Lemma number_nonneg P es : 0 ≤ number P es.
Proof. unfold number. lia. Qed.

Record inv (s : Semaphore) : Prop := mk_inv {
  inv_count : 0 ≤ count s;
  inv_seen : ∀ t b c, places s !! t = Some (Exchange b c) → 0 < c;
}.

Lemma sem_go_inv s t p n w :
  0 ≤ n → (∀ b c, p = Exchange b c → 0 < c) → inv s → inv (mkSem n w (<[t := p]> (places s))).
Proof.
  intros Hn Hp [_ Hs]. split; [done|]. cbn. intros t' b c. destruct (decide (t = t')) as [<-|Hne].
  - rewrite lookup_insert_eq. intros [= ->]. by eapply Hp.
  - rewrite lookup_insert_ne by done. apply Hs.
Qed.

Lemma isize_small z : 0 ≤ z < 2 ^ 63 → isize z = z.
Proof.
  intros H. unfold isize, to_signed. change (wrap 64 z) with (u64 z). rewrite u64_small by lia.
  by rewrite (proj2 (Z.ltb_lt z (2 ^ (64 - 1)))) by lia.
Qed.

(** What a step does to the count. *)
Lemma step_count me t s s' es :
  sem_step me t s = Some (s', es) → count s + 1 < 2 ^ 63 ∨ number signalled es = 0 → inv s →
  inv s' ∧ count s' = count s + number signalled es - number acquired es.
Proof.
  intros H Hb Hinv. pose proof (inv_count s Hinv) as H0. pose proof (inv_seen s Hinv t) as Hs.
  unfold sem_step in H. destruct (places s !! t) as [p|] eqn:E; [|done].
  destruct p as [|b|b c| | | | |]; try done; apply (inj Some) in H.
  - destruct (Z.ltb_spec 0 (count s)); [|destruct b]; injection H as <- <-;
      (split; [apply sem_go_inv; [done| |done]|rewrite ?number_one, ?number_nil; cbn; lia]); [by intros ? ? [= _ <-]|done..].
  - destruct (Z.eqb_spec (count s) c) as [<-|]; injection H as <- <-.
    + specialize (Hs b _ eq_refl). split; [apply sem_go_inv; [cbn; lia|done..]|rewrite ?number_one, ?number_nil; cbn; lia].
    + split; [by apply sem_go_inv|rewrite ?number_one, ?number_nil; cbn; lia].
  - injection H as <- <-. split; [by apply sem_go_inv|rewrite ?number_one, ?number_nil; cbn; lia].
  - injection H as <- <-. split; [by apply sem_go_inv|rewrite ?number_one, ?number_nil; cbn; lia].
  - injection H as <- <-. destruct Hb as [Hb|Hb]; [|rewrite number_one in Hb; done]. rewrite isize_small by lia.
    split; [apply sem_go_inv; [cbn; lia|done..]|rewrite ?number_one, ?number_nil; cbn; lia].
  - injection H as <- <-. split; [by apply sem_go_inv|rewrite ?number_one, ?number_nil; cbn; lia].
  - injection H as <- <-. destruct (_ <? 1); (split; [by apply sem_go_inv|rewrite ?number_one, ?number_nil; cbn; lia]).
Qed.

Lemma run_count me s es s' :
  run (sem_step me) sem_call s es s' → inv s → count s + number signalled es < 2 ^ 63 →
  inv s' ∧ count s' = count s + number signalled es - number acquired es.
Proof.
  induction 1 as [s|t s s1 es1 es2 s2 Hst Hr IH|t s s1 es s2 [Hp [c ->]] Hr IH]; intros Hinv Hb.
  - split; [done|rewrite !number_nil; lia].
  - rewrite !number_app in *. pose proof (number_nonneg signalled es1). pose proof (number_nonneg signalled es2).
    pose proof (number_nonneg acquired es1).
    destruct (step_count _ _ _ _ _ Hst) as [Hi1 Hc1]; [|done|].
    { destruct (decide (number signalled es1 = 0)); [by right|left; lia]. }
    destruct IH as [Hi2 Hc2]; [done|lia|]. split; [done|lia].
  - apply IH; [|done]. apply sem_go_inv; [apply Hinv| |done]. by destruct c.
Qed.

Lemma sem_new_inv n threads : 0 ≤ n → inv (sem_new n threads).
Proof.
  intros Hn. split; [done|]. cbn. intros t b c Hp%elem_of_list_to_map_2.
  by apply list_elem_of_fmap in Hp as (t' & [=] & _).
Qed.

(** C17: the semaphore neither loses nor invents a unit.  Whatever the interleaving
    of waits, trial waits and signals, the count is the initial one plus the signals
    minus the acquisitions, so there never are more acquisitions than units. *)
Theorem semaphore_conservation me n threads es s :
  0 ≤ n → run (sem_step me) sem_call (sem_new n threads) es s → n + number signalled es < 2 ^ 63 →
  count s = n + number signalled es - number acquired es ∧ number acquired es ≤ n + number signalled es.
Proof.
  intros Hn Hr Hb. destruct (run_count _ _ _ _ Hr) as [[H0 _] Hc]; [by apply sem_new_inv|done|]. cbn in *. lia.
Qed.

(** [BinarySemaphore::release] loads the count and then adds: two releases that
    both see 0 leave a count of 2. *)
Theorem binary_semaphore_race :
  ∃ es s, run (sem_step (λ _, None)) sem_call (new_binary false [1; 2]) es s ∧ count s = 2.
Proof.
  eexists _, _. split.
  - eapply (run_call _ _ 1); [split; [by vm_compute|by exists Release]|].
    eapply (run_call _ _ 2); [split; [by vm_compute|by exists Release]|].
    eapply (run_step _ _ 1); [by vm_compute|]. eapply (run_step _ _ 2); [by vm_compute|].
    eapply (run_step _ _ 1); [by vm_compute|]. eapply (run_step _ _ 2); [by vm_compute|]. apply run_refl.
  - by vm_compute.
Qed.

End Semaphore.

(** ** Condition variable *)

Module CondVar.

(** The queue is all the state.  [wait] enlists, drops the guard, yields, and then
    reaches [todo!]: the kernel stops. *)
Definition CondVar : Type := list Z.

Definition condvar_new : CondVar := [].

Definition enlist (me : option Z) (c : CondVar) : CondVar := match me with Some p => c ++ [p] | None => c end.

(** [others] is what happens to the variable while the caller is switched out. *)
Definition condvar_wait (me : option Z) (others : CondVar → CondVar) (c : CondVar) : res CondVar :=
  let c := others (enlist me c) in
  Panic.

Definition notify_one (c : CondVar) : CondVar := tail c.

Definition notify_all (c : CondVar) : CondVar := [].

Definition has_waiters (c : CondVar) : bool := negb (bool_decide (c = [])).

End CondVar.

(** ** One-time initialisation *)

Module Once.

(** In [call_once]: before the first load of [done], the lock, the second load, the
    test of [running], its store, the release of the guard on the way to [next],
    the closure, the store of [done], the loads of the waiting loop; returned. *)
Inductive OncePlace : Type :=
| Outside | Load1 | TakeLock | Load2 | TestRunning | SetRunning | Unlock (next : OncePlace)
| Call | SetDone | Await | Returned.

Record Once : Type := mkOnce {
  done_ : bool;
  running : bool;
  taken : bool;
  places : gmap Z OncePlace;
}.

Definition once_new (threads : list Z) : Once :=
  mkOnce false false false (list_to_map (map (λ t, (t, Outside)) threads)).

(** Thread [t] runs its closure. *)
Inductive Event : Type := Ran (t : Z).

Definition go (t : Z) (p : OncePlace) (o : Once) : Once := mkOnce (done_ o) (running o) (taken o) (<[t := p]> (places o)).

Definition once_call (t : Z) (o o' : Once) : Prop :=
  (places o !! t = Some Outside ∨ places o !! t = Some Returned) ∧ o' = go t Load1 o.

Definition once_step (t : Z) (o : Once) : option (Once * list Event) :=
  match places o !! t with
  | Some Load1 => Some (go t (if done_ o then Returned else TakeLock) o, [])
  | Some TakeLock =>
      if taken o then None else Some (mkOnce (done_ o) (running o) true (<[t := Load2]> (places o)), [])
  | Some Load2 => Some (go t (if done_ o then Unlock Returned else TestRunning) o, [])
  | Some TestRunning => Some (go t (if running o then Unlock Await else SetRunning) o, [])
  | Some SetRunning => Some (mkOnce (done_ o) true (taken o) (<[t := Unlock Call]> (places o)), [])
  | Some (Unlock next) => Some (mkOnce (done_ o) (running o) false (<[t := next]> (places o)), [])
  | Some Call => Some (go t SetDone o, [Ran t])
  | Some SetDone => Some (mkOnce true (running o) (taken o) (<[t := Returned]> (places o)), [])
  | Some Await => Some (go t (if done_ o then Returned else Await) o, [])
  | Some Outside | Some Returned | None => None
  end.

Definition is_completed (o : Once) : bool := done_ o.

(** The thread has the lock; has won and not run the closure; has run it. *)
Definition locks (p : OncePlace) : bool :=
  match p with Load2 | TestRunning | SetRunning | Unlock _ => true | _ => false end.
Definition won (p : OncePlace) : bool := match p with Unlock Call | Call => true | _ => false end.
Definition ran (p : OncePlace) : bool := match p with SetDone => true | _ => false end.

(** What a place says of the flags. *)
Definition place_ok (o : Once) (p : OncePlace) : Prop :=
  match p with
  | SetRunning => running o = false
  | Returned | Unlock Returned => done_ o = true
  | Unlock Call | Unlock Await => running o = true
  | Unlock _ => False
  | Call | Await => running o = true
  | _ => True
  end.

(** [n] closures have run. *)
Record inv (n : Z) (o : Once) : Prop := mk_inv {
  inv_taken : total (one locks) (places o) = if taken o then 1 else 0;
  inv_running : total (one won) (places o) + n = if running o then 1 else 0;
  inv_ran : total (one ran) (places o) + (if done_ o then 1 else 0) = n;
  inv_places : ∀ t p, places o !! t = Some p → place_ok o p;
}.

Lemma once_new_inv threads : inv 0 (once_new threads).
Proof.
  assert (∀ t p, places (once_new threads) !! t = Some p → p = Outside) as H.
  { cbn. intros t p Hp%elem_of_list_to_map_2. apply list_elem_of_fmap in Hp as (t' & [= -> ->] & _). done. }
  split; cbn; rewrite ?(total_zero _ (list_to_map _)); try done; intros t p Hp; apply H in Hp; by subst.
Qed.

(** A thread moves; the flags only go up, [running] only in the hands of the lock. *)
Lemma once_move_inv n n' o t x y (d r k : bool) :
  places o !! t = Some x → inv n o →
  (if taken o then 1 else 0) - one locks x + one locks y = (if k then 1 else 0) →
  total (one won) (places o) - one won x + one won y + n' = (if r then 1 else 0) →
  total (one ran) (places o) - one ran x + one ran y + (if d then 1 else 0) = n' →
  place_ok (mkOnce d r k (places o)) y →
  (done_ o = true → d = true) → (running o = true → r = true) → (r = running o ∨ locks x = true) →
  inv n' (mkOnce d r k (<[t := y]> (places o))).
Proof.
  intros Hx [Hk Hr Hd Hp] Ek Er Ed Hy Hdm Hrm Hlock.
  split; cbn [places taken running done_]; rewrite ?(total_insert _ _ _ _ _ Hx); try lia; try done.
  intros t' p. destruct (decide (t = t')) as [<-|Hne].
  - rewrite lookup_insert_eq. by intros [= <-].
  - rewrite lookup_insert_ne by done. intros Hp'. specialize (Hp t' p Hp').
    assert (running o = false → locks p = true → r = false) as Hl.
    { intros E Hlp. destruct Hlock as [->|Hlx]; [done|]. exfalso.
      pose proof (total_two _ _ _ _ _ _ (one_nonneg locks) Hx Hp' Hne) as H2. unfold one in H2 at 1 2.
      rewrite Hlx, Hlp in H2. destruct (taken o); lia. }
    destruct p as [| | | | | |next| | | |]; cbn in *; auto. destruct next; cbn in *; auto.
Qed.

Lemma step_inv n t o o' es : once_step t o = Some (o', es) → inv n o → inv (n + Z.of_nat (length es)) o'.
Proof.
  intros H Hinv. pose proof Hinv as [Hk Hr Hd Hp]. unfold once_step in H. destruct (places o !! t) as [x|] eqn:E; [|done].
  specialize (Hp t x E). assert (∀ P, one P x ≤ total (one P) (places o)) as Hone by (intros P; apply (total_at _ _ _ _ (one_nonneg P) E)).
  assert (∀ P, 0 ≤ total (one P) (places o)) as H0 by (intros P; apply total_nonneg, one_nonneg).
  pose proof (Hone won) as Hw. pose proof (Hone ran) as Hrn. pose proof (Hone locks) as Hlk.
  pose proof (H0 won) as H0w. pose proof (H0 ran) as H0r.
  destruct x as [| | | | | |[]| | | |]; try done.
  all: repeat case_match; try done; apply (inj Some) in H; injection H as <- <-; rewrite ?Z.add_0_r.
  all: eapply once_move_inv; [exact E|exact Hinv|..].
  all: try (cbn in *; repeat case_match; lia).
  all: cbn in *; try done; try (by left); try (by right); try congruence.
Qed.

Lemma run_once n o es o' : run once_step once_call o es o' → inv n o → inv (n + Z.of_nat (length es)) o'.
Proof.
  intros Hr. revert n. induction Hr as [o|t o o1 es1 es2 o2 Hst _ IH|t o o1 es o2 [Hp ->] _ IH]; intros n Hinv.
  - by rewrite Z.add_0_r.
  - rewrite length_app, Nat2Z.inj_add, Z.add_assoc. by apply IH, (step_inv n t o).
  - apply IH. pose proof Hinv as [Hk Hrn Hd _].
    destruct Hp as [Hp|Hp]; (eapply once_move_inv; [exact Hp|exact Hinv|cbn; try lia..]); try done; by left.
Qed.

(** C18: initialisation happens exactly once.  Whatever the interleaving of the
    calls, at most one closure is run, once; and when any call has returned, one has
    been run to its end. *)
Theorem once_exactly threads es o :
  run once_step once_call (once_new threads) es o →
  (length es ≤ 1)%nat ∧
  (∀ t, places o !! t = Some Returned → ∃ t', es = [Ran t'] ∧ is_completed o = true).
Proof.
  intros Hr. pose proof (run_once 0 _ _ _ Hr (once_new_inv threads)) as [Hk Hrn Hd Hp].
  pose proof (total_nonneg (one won) (places o) (one_nonneg _)).
  pose proof (total_nonneg (one ran) (places o) (one_nonneg _)).
  split; [destruct (running o); lia|]. intros t Ht. specialize (Hp t _ Ht). cbn in Hp. rewrite Hp in Hd.
  assert (length es = 1%nat) as Hlen by (destruct (running o); lia).
  destruct es as [|[t'] [|]]; try done. by exists t'.
Qed.

End Once.

(** ** Barrier *)

Module Barrier.

(** In [wait]: before the load of the generation, the lock of [current], the
    increment and comparison; the leader before the reset, the increment of the
    generation, the wake-up and the release of [current]; a follower before the
    release, the enlistment, the test of the generation; returned. *)
Inductive BarrierPlace : Type :=
| Outside | ReadGen | TakeCurrent (gen : Z) | Increment (gen : Z)
| Reset | NextGen | WakeAll | LeaderDrop | FollowerDrop (gen : Z) | JoinWaiters (gen : Z) | Test (gen : Z) | Returned.

Record Barrier : Type := mkBarrier {
  count : Z;
  current : Z;
  generation : Z;
  waiters : list Z;
  taken : bool;
  places : gmap Z BarrierPlace;
}.

Definition barrier_new (n : Z) (threads : list Z) : Barrier :=
  mkBarrier n 0 0 [] false (list_to_map (map (λ t, (t, Outside)) threads)).

(** A thread arrives; [wait] returns, [true] for the leader. *)
Inductive Event : Type := Arrived (t : Z) | Leaves (t : Z) (leader : bool).

Definition set (b : Barrier) (cur gen : Z) (w : list Z) (k : bool) (t : Z) (p : BarrierPlace) : Barrier :=
  mkBarrier (count b) cur gen w k (<[t := p]> (places b)).
Definition go (t : Z) (p : BarrierPlace) (b : Barrier) : Barrier :=
  set b (current b) (generation b) (waiters b) (taken b) t p.

Definition barrier_call (t : Z) (b b' : Barrier) : Prop :=
  (places b !! t = Some Outside ∨ places b !! t = Some Returned) ∧ b' = go t ReadGen b.

Definition barrier_step (me : Z → option Z) (t : Z) (b : Barrier) : option (Barrier * list Event) :=
  match places b !! t with
  | Some ReadGen => Some (go t (TakeCurrent (generation b)) b, [])
  | Some (TakeCurrent g) =>
      if taken b then None
      else Some (set b (current b) (generation b) (waiters b) true t (Increment g), [])
  | Some (Increment g) =>
      let cur := u64 (current b + 1) in
      Some (set b cur (generation b) (waiters b) (taken b) t (if cur =? count b then Reset else FollowerDrop g), [Arrived t])
  | Some Reset => Some (set b 0 (generation b) (waiters b) (taken b) t NextGen, [])
  | Some NextGen => Some (set b (current b) (u64 (generation b + 1)) (waiters b) (taken b) t WakeAll, [])
  | Some WakeAll => Some (set b (current b) (generation b) [] (taken b) t LeaderDrop, [])
  | Some LeaderDrop => Some (set b (current b) (generation b) (waiters b) false t Returned, [Leaves t true])
  | Some (FollowerDrop g) => Some (set b (current b) (generation b) (waiters b) false t (JoinWaiters g), [])
  | Some (JoinWaiters g) =>
      Some (set b (current b) (generation b) (match me t with Some p => waiters b ++ [p] | None => waiters b end)
        (taken b) t (Test g), [])
  | Some (Test g) =>
      Some (if generation b =? g then (go t (Test g) b, []) else (go t Returned b, [Leaves t false]))
  | Some Outside | Some Returned | None => None
  end.

(** The generation is read before [current] is locked: of three threads at a barrier
    for two, one that read it before the others completed a round arrives as the
    first of the next round and leaves at once, nobody else having arrived. *)
Theorem barrier_stale_generation :
  ∃ es b, run (barrier_step (λ _, None)) barrier_call (barrier_new 2 [1; 2; 3]) es b ∧
    es = [Arrived 1; Arrived 2; Leaves 2 true; Arrived 3; Leaves 3 false] ∧ current b = 1.
Proof.
  eexists _, _. split.
  - eapply (run_call _ _ 3); [split; [left; by vm_compute|done]|].
    eapply (run_call _ _ 2); [split; [left; by vm_compute|done]|].
    eapply (run_call _ _ 1); [split; [left; by vm_compute|done]|].
    eapply (run_step _ _ 3); [by vm_compute|].
    do 5 (eapply (run_step _ _ 1); [by vm_compute|]).
    do 7 (eapply (run_step _ _ 2); [by vm_compute|]).
    do 5 (eapply (run_step _ _ 3); [by vm_compute|]). apply run_refl.
  - split; by vm_compute.
Qed.

End Barrier.

(** ** Concrete runs *)

Module SyncExample.

(** One unit, taken by thread 1, given back; thread 2 takes it. *)
Definition s1 : Semaphore.Semaphore :=
  Semaphore.mkSem 0 [] {[1 := Semaphore.PopWaiter; 2 := Semaphore.Outside]}.

Lemma s1_reachable :
  run (Semaphore.sem_step (λ _, None)) Semaphore.sem_call (Semaphore.sem_new 1 [1; 2])
    [Semaphore.Acquired 1; Semaphore.Signalled 1; Semaphore.Acquired 2] s1.
Proof.
  eapply (run_call _ _ 1); [split; [by vm_compute|by exists Semaphore.Wait]|].
  eapply (run_step _ _ 1 _ _ []); [by vm_compute|].
  eapply (run_step _ _ 1 _ _ [Semaphore.Acquired 1]); [by vm_compute|].
  eapply (run_call _ _ 1); [split; [by vm_compute|by exists Semaphore.Signal]|].
  eapply (run_step _ _ 1 _ _ [Semaphore.Signalled 1]); [by vm_compute|].
  eapply (run_call _ _ 2); [split; [by vm_compute|by exists Semaphore.TryWait]|].
  eapply (run_step _ _ 2 _ _ []); [by vm_compute|].
  eapply (run_step _ _ 2 _ _ [Semaphore.Acquired 2] []); [by vm_compute|]. apply run_refl.
Qed.

Lemma semaphore_conservation_witness :
  Semaphore.count s1 = 1 + 1 - 2 ∧
  Semaphore.number Semaphore.acquired [Semaphore.Acquired 1; Semaphore.Signalled 1; Semaphore.Acquired 2] ≤ 1 + 1.
Proof. exact (Semaphore.semaphore_conservation (λ _, None) 1 [1; 2] _ s1 ltac:(lia) s1_reachable ltac:(by vm_compute)). Defined.

(** Thread 1 ran its closure and returned, thread 2 came later. *)
Definition o1 : Once.Once :=
  Once.mkOnce true true false {[1 := Once.Returned; 2 := Once.Returned]}.

Lemma o1_reachable : run Once.once_step Once.once_call (Once.once_new [1; 2]) [Once.Ran 1] o1.
Proof.
  eapply (run_call _ _ 1); [split; [left; by vm_compute|done]|].
  do 6 (eapply (run_step _ _ 1 _ _ []); [by vm_compute|]).
  eapply (run_step _ _ 1 _ _ [Once.Ran 1] []); [by vm_compute|].
  eapply (run_step _ _ 1 _ _ [] []); [by vm_compute|].
  eapply (run_call _ _ 2); [split; [left; by vm_compute|done]|].
  eapply (run_step _ _ 2 _ _ [] []); [by vm_compute|]. apply run_refl.
Qed.

Lemma once_exactly_witness : ∃ t', [Once.Ran 1] = [Once.Ran t'] ∧ Once.is_completed o1 = true.
Proof. exact (proj2 (Once.once_exactly [1; 2] [Once.Ran 1] o1 o1_reachable) 1 ltac:(by vm_compute)). Defined.

End SyncExample.
