(* ===== verification/RamFS.v ===== *)
(** * The RAM file system: [fs/mod.rs], [RamFS]

    The fallback when no disk is found.  [Arc]s to inodes are addresses in a
    store; the two counters are the [NEXT_INO] of [create] and of [mkdir]. *)

From S2P Require Import Prelude Bytes Vfs.

(** ** State *)

Inductive RamInodeData : Type :=
| RamFile (data : list Z)
| RamDirectory (entries : gmap (list Z) Z).

Record RamInode : Type := mkRam {
  ram_ino : Z;
  ram_type : FileType;
  ram_mode : Z;
  ram_data : RamInodeData;
  ram_parent : option Z;
}.

Definition set_ram_data (d : RamInodeData) (i : RamInode) : RamInode :=
  mkRam (ram_ino i) (ram_type i) (ram_mode i) d (ram_parent i).

Record RamStore : Type := mkStore {
  nodes : gmap Z RamInode;
  next_node : Z;
  next_file_ino : Z;
  next_dir_ino : Z;
}.

Definition ram_new_file (ino : Z) : RamInode := mkRam ino Regular DEFAULT_FILE (RamFile []) None.
Definition ram_new_dir (ino : Z) (parent : option Z) : RamInode :=
  mkRam ino Directory DEFAULT_DIR (RamDirectory ∅) parent.

(** The store before anything is created. *)
Definition ram_empty : RamStore := mkStore ∅ 0 1000 1000.

(** [Arc::new] *)
Definition ram_alloc (i : RamInode) : M RamStore Z := λ s,
  (Ok (next_node s), mkStore (<[next_node s := i]> (nodes s)) (next_node s + 1) (next_file_ino s) (next_dir_ino s)).

(** [RamFS::new]: the root has number 1 and no parent. *)
Definition RamFS_new : M RamStore Z := ram_alloc (ram_new_dir 1 None).

(** Following an [Arc] always finds the inode. *)
Definition ram_get (i : Z) : M RamStore RamInode := λ s,
  match nodes s !! i with Some n => (Ok n, s) | None => (Panic, s) end.

Definition ram_set (i : Z) (d : RamInodeData) : M RamStore unit := λ s,
  (Ok tt, mkStore (alter (set_ram_data d) i (nodes s)) (next_node s) (next_file_ino s) (next_dir_ino s)).

(** [NEXT_INO.fetch_add] of [create] and of [mkdir]. *)
Definition take_file_ino : M RamStore Z := λ s,
  (Ok (next_file_ino s), mkStore (nodes s) (next_node s) (u64 (next_file_ino s + 1)) (next_dir_ino s)).
Definition take_dir_ino : M RamStore Z := λ s,
  (Ok (next_dir_ino s), mkStore (nodes s) (next_node s) (next_file_ino s) (u64 (next_dir_ino s + 1))).

(** ** Operations *)

Definition get_size (n : RamInode) : Z :=
  match ram_data n with
  | RamFile data => len data
  | RamDirectory entries => u64 (Z.of_nat (size entries) * 32)
  end.

Definition ram_stat (i : Z) : M RamStore Stat :=
  n ← ram_get i;
  mret (mkStat 1 (ram_ino n) (ram_mode n) 1 0 0 0 (get_size n) 4096 (u64 (get_size n + 4095) / 4096) 0 0 0 (ram_type n)).

Definition ram_read (i offset n : Z) : M RamStore (list Z) :=
  node ← ram_get i;
  match ram_data node with
  | RamFile data =>
      if len data <=? offset then mret []
      else mret (slice offset (Z.min n (len data - offset)) data)
  | _ => m_fail "Not a regular file"
  end.

(** The slice [data[offset..offset + buf.len()]] panics when the sum wraps. *)
Definition ram_write (i offset : Z) (buf : list Z) : M RamStore Z :=
  node ← ram_get i;
  match ram_data node with
  | RamFile data =>
      let end_ := u64 (offset + len buf) in
      let data := if len data <? end_ then vec_resize end_ 0 data else data in
      ram_set i (RamFile data);;
      if (end_ <? offset) || (len data <? end_) then m_panic
      else ram_set i (RamFile (splice offset buf data));; mret (len buf)
  | _ => m_fail "Not a regular file"
  end.

(** Children are reported with the type and number of their inodes. *)
Fixpoint ram_children (es : list (list Z * Z)) : M RamStore (list DirEntry) :=
  match es with
  | [] => mret []
  | (name, c) :: es => n ← ram_get c; r ← ram_children es; mret (mkDirEntry name (ram_type n) (ram_ino n) :: r)
  end.

Definition ram_readdir (i : Z) : M RamStore (list DirEntry) :=
  node ← ram_get i;
  match ram_data node with
  | RamDirectory entries =>
      up ← match ram_parent node with Some p => n ← ram_get p; mret (ram_ino n) | None => mret (ram_ino node) end;
      children ← ram_children (map_entries entries);
      mret (mkDirEntry (bytes_of_string ".") Directory (ram_ino node)
            :: mkDirEntry (bytes_of_string "..") Directory up :: children)
  | _ => m_fail "Not a directory"
  end.

Definition ram_lookup (i : Z) (name : list Z) : M RamStore (option Z) :=
  node ← ram_get i;
  match ram_data node with
  | RamDirectory entries =>
      if decide (name = bytes_of_string ".") then mret None
      else if decide (name = bytes_of_string "..") then mret (ram_parent node)
      else mret (entries !! name)
  | _ => m_fail "Not a directory"
  end.

Definition ram_new_child (exists_ : string) (take_ino : M RamStore Z) (make : Z → RamInode) (i : Z) (name : list Z)
    : M RamStore Z :=
  node ← ram_get i;
  match ram_data node with
  | RamDirectory entries =>
      if decide (entries !! name = None) then
        ino ← take_ino;
        c ← ram_alloc (make ino);
        ram_set i (RamDirectory (<[name := c]> entries));;
        mret c
      else m_fail exists_
  | _ => m_fail "Not a directory"
  end.

Definition ram_create : Z → list Z → M RamStore Z := ram_new_child "File exists" take_file_ino ram_new_file.
Definition ram_mkdir : Z → list Z → M RamStore Z :=
  ram_new_child "Directory exists" take_dir_ino (λ ino, ram_new_dir ino None).

Definition ram_unlink (i : Z) (name : list Z) : M RamStore unit :=
  node ← ram_get i;
  match ram_data node with
  | RamDirectory entries => ram_set i (RamDirectory (delete name entries))
  | _ => m_fail "Not a directory"
  end.

Definition ram_truncate (i size : Z) : M RamStore unit :=
  node ← ram_get i;
  match ram_data node with
  | RamFile data => ram_set i (RamFile (vec_resize size 0 data))
  | _ => m_fail "Not a regular file"
  end.

#[export] Instance RamInode_ops : InodeOps RamStore Z := {
  inode_ino i := n ← ram_get i; mret (ram_ino n);
  inode_file_type i := n ← ram_get i; mret (ram_type n);
  inode_stat := ram_stat;
  inode_read := ram_read;
  inode_write := ram_write;
  inode_readdir := ram_readdir;
  inode_lookup := ram_lookup;
  inode_create := ram_create;
  inode_mkdir := ram_mkdir;
  inode_unlink := ram_unlink;
  inode_truncate := ram_truncate;
  inode_sync_ _ := default_sync;
}.

(** The handle of the file system is its root. *)
#[export] Instance RamFS_ops : FileSystemOps RamStore Z Z := {
  fs_name _ := "ramfs";
  fs_root := mret;
  fs_sync_ _ := default_sync;
  fs_statfs _ := mret (mkFsStats 4096 1024 512 1024 900);
}.
