(* ===== verification/DevFS.v ===== *)
(** * The device file system: [fs/devfs.rs]

    The entries of [/dev] are fixed when it is made; what changes is the seed of
    [/dev/random] and what [/dev/console] and [/dev/tty] have printed. *)

From S2P Require Import Prelude Bytes Vfs.

Inductive DevInode : Type := DevDir | DevNull | DevZero | DevRandom | DevConsole | DevTty.

#[export] Instance DevInode_eq_dec : EqDecision DevInode.
Proof. solve_decision. Defined.

(** The characters sent to [kprint!] are code points below 256 ([b as char]). *)
Record DevStore : Type := mkDev { seed : Z; printed : list Z }.

Definition dev_init : DevStore := mkDev 0x12345678 [].

(** What a device does as an [Inode]; the other methods are the defaults of the trait. *)
Record Device : Type := mkDevice {
  dev_ino : Z;
  dev_file_type : FileType;
  dev_stat : Stat;
  dev_read : Z → Z → M DevStore (list Z);
  dev_write : Z → list Z → M DevStore Z;
}.

(** ** The devices, with the inode number they are made with *)

Definition null_device (ino : Z) : Device := {|
  dev_ino := ino;
  dev_file_type := CharDevice;
  dev_stat := mkStat 0 ino (lor_all [OWNER_READ; OWNER_WRITE; GROUP_READ; GROUP_WRITE; OTHER_READ; OTHER_WRITE])
    1 0 0 (Z.lor (Z.shiftl 1 8) 3) 0 4096 0 0 0 0 CharDevice;
  dev_read offset n := mret [];
  dev_write offset buf := mret (len buf);
|}.

Definition zero_device (ino : Z) : Device := {|
  dev_ino := ino;
  dev_file_type := CharDevice;
  dev_stat := mkStat 0 ino (lor_all [OWNER_READ; OWNER_WRITE; GROUP_READ; GROUP_WRITE; OTHER_READ; OTHER_WRITE])
    1 0 0 (Z.lor (Z.shiftl 1 8) 5) 0 4096 0 0 0 0 CharDevice;
  dev_read offset n := mret (zeros n);
  dev_write offset buf := mret (len buf);
|}.

(** One step of the generator. *)
Definition next_seed (s : Z) : Z :=
  let s := Z.lxor s (u64 (Z.shiftl s 13)) in
  let s := Z.lxor s (Z.shiftr s 17) in
  Z.lxor s (u64 (Z.shiftl s 5)).

(** [n] bytes of /dev/random. *)
Fixpoint random_bytes (n : nat) : M DevStore (list Z) :=
  match n with
  | O => mret []
  | S n => d ← m_get;
      m_modify (λ d, mkDev (next_seed (seed d)) (printed d));;
      r ← random_bytes n;
      mret (u8 (next_seed (seed d)) :: r)
  end.

Definition random_device (ino : Z) : Device := {|
  dev_ino := ino;
  dev_file_type := CharDevice;
  dev_stat := mkStat 0 ino (lor_all [OWNER_READ; OWNER_WRITE; GROUP_READ; OTHER_READ])
    1 0 0 (Z.lor (Z.shiftl 1 8) 8) 0 4096 0 0 0 0 CharDevice;
  dev_read offset n := random_bytes (Z.to_nat n);
  dev_write offset buf := mret (len buf);
|}.

(** [for &b in buf { kprint!("{}", b as char) }] *)
Definition print_bytes (buf : list Z) : M DevStore unit := m_modify (λ d, mkDev (seed d) (printed d ++ buf)).

Definition console_device (ino : Z) : Device := {|
  dev_ino := ino;
  dev_file_type := CharDevice;
  dev_stat := mkStat 0 ino (lor_all [OWNER_READ; OWNER_WRITE; GROUP_WRITE])
    1 0 0 (Z.lor (Z.shiftl 5 8) 1) 0 4096 0 0 0 0 CharDevice;
  dev_read offset n := mret [];
  dev_write offset buf := print_bytes buf;; mret (len buf);
|}.

Definition tty_device (ino : Z) : Device := {|
  dev_ino := ino;
  dev_file_type := CharDevice;
  dev_stat := mkStat 0 ino (lor_all [OWNER_READ; OWNER_WRITE; GROUP_WRITE])
    1 0 0 (Z.lor (Z.shiftl 5 8) 0) 0 4096 0 0 0 0 CharDevice;
  dev_read offset n := mret [];
  dev_write offset buf := print_bytes buf;; mret (len buf);
|}.

(** The directory has neither contents to read nor to write. *)
Definition dir_device (ino : Z) : Device := {|
  dev_ino := ino;
  dev_file_type := Directory;
  dev_stat := mkStat 0 ino DEFAULT_DIR 2 0 0 0 0 4096 0 0 0 0 Directory;
  dev_read offset n := default_regular;
  dev_write offset buf := default_regular;
|}.

(** ** [DevFS::new]: the names of the root and the numbers of the inodes *)

Definition dev_entries : gmap (list Z) DevInode :=
  list_to_map [(bytes_of_string "null", DevNull); (bytes_of_string "zero", DevZero);
    (bytes_of_string "random", DevRandom); (bytes_of_string "console", DevConsole); (bytes_of_string "tty", DevTty)].

Definition device (i : DevInode) : Device :=
  match i with
  | DevDir => dir_device 1
  | DevNull => null_device 2
  | DevZero => zero_device 3
  | DevRandom => random_device 4
  | DevConsole => console_device 5
  | DevTty => tty_device 6
  end.

Definition dev_readdir (i : DevInode) : M DevStore (list DirEntry) :=
  match i with
  | DevDir => mret (mkDirEntry (bytes_of_string ".") Directory (dev_ino (device i)) :: mkDirEntry (bytes_of_string "..") Directory 1
      :: map (λ '(name, c), mkDirEntry name (dev_file_type (device c)) (dev_ino (device c))) (map_entries dev_entries))
  | _ => default_directory
  end.

Definition dev_lookup (i : DevInode) (name : list Z) : M DevStore (option DevInode) :=
  match i with
  | DevDir =>
      if decide (name = bytes_of_string ".") then mret None
      else if decide (name = bytes_of_string "..") then mret None
      else mret (dev_entries !! name)
  | _ => default_directory
  end.

(** Creation, removal and truncation are left to the defaults of the trait. *)
#[export] Instance DevInode_ops : InodeOps DevStore DevInode := {
  inode_ino i := mret (dev_ino (device i));
  inode_file_type i := mret (dev_file_type (device i));
  inode_stat i := mret (dev_stat (device i));
  inode_read i := dev_read (device i);
  inode_write i := dev_write (device i);
  inode_readdir := dev_readdir;
  inode_lookup := dev_lookup;
  inode_create _ _ := default_directory;
  inode_mkdir _ _ := default_directory;
  inode_unlink _ _ := default_directory;
  inode_truncate _ _ := default_regular;
  inode_sync_ _ := default_sync;
}.

#[export] Instance DevFS_ops : FileSystemOps DevStore DevInode unit := {
  fs_name _ := "devfs";
  fs_root _ := mret DevDir;
  fs_sync_ _ := default_sync;
  fs_statfs _ := default_statfs;
}.

(** ** The generator *)

Lemma testbit_u64 z i : 0 ≤ i → Z.testbit (u64 z) i = (i <? 64) && Z.testbit z i.
Proof.
  intros Hi. unfold u64, wrap. destruct (Z.ltb_spec i 64).
  - by rewrite Z.mod_pow2_bits_low by lia.
  - rewrite Z.mod_pow2_bits_high by lia. done.
Qed.

(** A word equal to itself shifted, one way or the other, is zero. *)
Lemma lxor_shiftl_zero s k : 0 < k → 0 ≤ s < 2 ^ 64 → Z.lxor s (u64 (Z.shiftl s k)) = 0 → s = 0.
Proof.
  intros Hk Hs H%Z.lxor_eq. apply Z.bits_inj_0. intros i. destruct (decide (0 ≤ i)) as [Hi|Hi]; [|apply Z.testbit_neg_r; lia].
  revert i Hi. apply (Z_lt_induction (λ i, Z.testbit s i = false)). intros i IH. destruct (decide (0 ≤ i)) as [Hi|Hi]; [|apply Z.testbit_neg_r; lia].
  rewrite H, testbit_u64, Z.shiftl_spec by lia. destruct (decide (k ≤ i)) as [Hki|Hki].
  - rewrite IH by lia. by destruct (i <? 64).
  - rewrite Z.testbit_neg_r by lia. by destruct (i <? 64).
Qed.

Lemma lxor_shiftr_zero s k : 0 < k → 0 ≤ s < 2 ^ 64 → Z.lxor s (Z.shiftr s k) = 0 → s = 0.
Proof.
  intros Hk Hs H%Z.lxor_eq. destruct (decide (s = 0)) as [|Hne]; [done|].
  assert (Z.shiftr s k < s); [|lia]. rewrite Z.shiftr_div_pow2 by lia. apply Z.div_lt; [lia|].
  apply Z.pow_gt_1; lia.
Qed.

(** The generator of /dev/random keeps its 64-bit seed away from 0, the state it
    could not leave. *)
Theorem next_seed_nonzero s : 0 < s < 2 ^ 64 → 0 < next_seed s < 2 ^ 64.
Proof.
  intros Hs. unfold next_seed. set (a := Z.lxor s _). set (b := Z.lxor a _).
  assert (0 ≤ a < 2 ^ 64) as Ha by (apply lxor_range; [lia|apply u64_range]).
  assert (a ≠ 0) as Ha0 by (intros E; apply lxor_shiftl_zero in E; lia).
  assert (0 ≤ b < 2 ^ 64) as Hb.
  { apply lxor_range; [done|]. rewrite Z.shiftr_div_pow2 by lia. split; [apply Z.div_pos; lia|].
    apply Z.div_lt_upper_bound; lia. }
  assert (b ≠ 0) as Hb0 by (intros E; apply lxor_shiftr_zero in E; lia).
  assert (0 ≤ Z.lxor b (u64 (Z.shiftl b 5)) < 2 ^ 64) by (apply lxor_range; [lia|apply u64_range]).
  assert (Z.lxor b (u64 (Z.shiftl b 5)) ≠ 0) by (intros E; apply lxor_shiftl_zero in E; lia). lia.
Qed.
