(* ===== verification/Files.v ===== *)
(** * Paths, mounts and open files: [fs/mod.rs]

    The layer above the file systems, for any implementation of the [Inode] and
    [FileSystem] traits.  A path is the list of its bytes. *)

From S2P Require Import Prelude Bytes Vfs.

Definition slash : Z := 47.
Definition dot : list Z := bytes_of_string ".".
Definition dotdot : list Z := bytes_of_string "..".

(** ** State *)

Record MountPoint (I F : Type) : Type := mkMount { mount_path : list Z; mount_fs : F; mount_root : I }.
Arguments mkMount {I F} _ _ _.
Arguments mount_path {I F} _.
Arguments mount_fs {I F} _.
Arguments mount_root {I F} _.

Record VFS (S I F : Type) : Type := mkVFS {
  store : S;
  vfs_root : option I;
  mounts : list (MountPoint I F);
}.
Arguments mkVFS {S I F} _ _ _.
Arguments store {S I F} _.
Arguments vfs_root {S I F} _.
Arguments mounts {S I F} _.

(** ** Strings *)

(** [s.split('/')] *)
Fixpoint split_slash (s : list Z) : list (list Z) :=
  match s with
  | [] => [[]]
  | c :: s =>
      if c =? slash then [] :: split_slash s
      else match split_slash s with
           | [] => [[c]]
           | w :: ws => (c :: w) :: ws
           end
  end.

Definition starts_with (p s : list Z) : bool := bool_decide (p `prefix_of` s).

(** [path.rfind('/')] *)
Fixpoint rfind_slash (s : list Z) : option nat :=
  match s with
  | [] => None
  | c :: s =>
      match rfind_slash s with
      | Some n => Some (S n)
      | None => if c =? slash then Some O else None
      end
  end.

(** Parent and name. *)
Definition split_path (path : list Z) : list Z * list Z :=
  match rfind_slash path with
  | Some O => ([slash], drop 1 path)
  | Some n => (take n path, drop (S n) path)
  | None => (dot, path)
  end.

(** [&path[1..]] panics inside a character. *)
Definition tail_slice (path : list Z) : res (list Z) :=
  match path with
  | _ :: c :: _ => if is_cont c then Panic else Ok (drop 1 path)
  | _ => Ok (drop 1 path)
  end.

Section Files.

Context {S I F : Type} `{!InodeOps S I, !FileSystemOps S I F}.
Implicit Types (i : I) (path name : list Z).

(** An operation of an inode, on the store of the file systems. *)
Definition on_store {A} (m : M S A) : M (VFS S I F) A := λ v,
  let '(r, s) := m (store v) in (r, mkVFS s (vfs_root v) (mounts v)).

(** ** Paths *)

(** [i.lookup(name)?.ok_or(e)?] *)
Definition child (e : string) (i : I) (name : list Z) : M S I :=
  r ← inode_lookup i name;
  m_lift (ok_or r e).

Definition walk_step (i : I) (component : list Z) : M S I :=
  if bool_decide (component = []) || bool_decide (component = dot) then mret i
  else if bool_decide (component = dotdot) then child "No parent" i dotdot
  else child "Not found" i component.

Fixpoint walk (i : I) (components : list (list Z)) : M S I :=
  match components with
  | [] => mret i
  | c :: cs => j ← walk_step i c; walk j cs
  end.

Definition resolve_path (start : I) (path : list Z) : M S I := walk start (split_slash path).

(** The first mount, in the order given, whose path is a directory prefix; with the
    rest of the path. *)
Fixpoint find_mount (ms : list (MountPoint I F)) (path : list Z) : option (I * list Z) :=
  match ms with
  | [] => None
  | m :: ms =>
      let remaining := drop (length (mount_path m)) path in
      if starts_with (mount_path m) path && (bool_decide (remaining = []) || starts_with [slash] remaining)
      then Some (mount_root m, remaining) else find_mount ms path
  end.

Definition lookup (path : list Z) : M (VFS S I F) I :=
  m_guard (negb (bool_decide (path = []))) "Empty path";;
  v ← m_get;
  root ← m_lift (ok_or (vfs_root v) "VFS not initialized");
  if bool_decide (path = [slash]) then mret root
  else
    match find_mount (reverse (mounts v)) path with
    | Some (start, remaining) =>
        if bool_decide (remaining = []) || bool_decide (remaining = [slash]) then mret start
        else on_store (resolve_path start (drop 1 remaining))
    | None => rest ← m_lift (tail_slice path); on_store (resolve_path root rest)
    end.

(** ** Mounts *)

Definition root : M (VFS S I F) (option I) := v ← m_get; mret (vfs_root v).

Definition mount (path : list Z) (fs : F) : M (VFS S I F) unit :=
  r ← on_store (fs_root fs);
  m_modify (λ v, mkVFS (store v) (vfs_root v) (mounts v ++ [mkMount path fs r])).

(** The position of the first mount with this path. *)
Fixpoint mount_position (ms : list (MountPoint I F)) (path : list Z) : option nat :=
  match ms with
  | [] => None
  | m :: ms => if bool_decide (mount_path m = path) then Some O else Datatypes.S <$> mount_position ms path
  end.

Definition umount (path : list Z) : M (VFS S I F) unit :=
  v ← m_get;
  match mount_position (mounts v) path with
  | Some n => m_modify (λ v, mkVFS (store v) (vfs_root v) (delete n (mounts v)))
  | None => m_fail "Mount point not found"
  end.

Fixpoint sync_mounts (ms : list (MountPoint I F)) : M S unit :=
  match ms with
  | [] => mret tt
  | m :: ms => m_ignore (fs_sync_ (mount_fs m));; sync_mounts ms
  end.

Definition sync_all : M (VFS S I F) unit := v ← m_get; on_store (sync_mounts (mounts v)).

(** ** Operations on paths *)

Definition in_parent {A} (op : I → list Z → M S A) (path : list Z) : M (VFS S I F) A :=
  let '(parent_path, name) := split_path path in
  parent ← lookup parent_path;
  on_store (op parent name).

Definition mkdir : list Z → M (VFS S I F) I := in_parent inode_mkdir.
Definition create : list Z → M (VFS S I F) I := in_parent inode_create.
Definition remove : list Z → M (VFS S I F) unit := in_parent inode_unlink.

Definition readdir (path : list Z) : M (VFS S I F) (list DirEntry) := i ← lookup path; on_store (inode_readdir i).
Definition stat (path : list Z) : M (VFS S I F) Stat := i ← lookup path; on_store (inode_stat i).

Definition read_file (path : list Z) : M (VFS S I F) (list Z) :=
  i ← lookup path;
  st ← on_store (inode_stat i);
  on_store (inode_read i 0 (st_size st)).

(** [match lookup(path) { Ok(inode) => .., Err(_) => create(path)? }] *)
Definition open_or_create (path : list Z) : M (VFS S I F) I := λ v,
  match lookup path v with
  | (Ok i, v) => (m_ignore (on_store (inode_truncate i 0));; mret i) v
  | (Err _, v) => create path v
  | (Panic, v) => (Panic, v)
  end.

Definition write_file (path data : list Z) : M (VFS S I F) unit :=
  i ← open_or_create path;
  on_store (inode_write i 0 data);;
  on_store (inode_sync_ i).

(** ** Open files *)

Record FileDescriptor : Type := mkFD { fd_inode : I; fd_offset : Z; fd_flags : Z }.

Definition fd_new (i : I) (flags : Z) : FileDescriptor := mkFD i 0 flags.
Definition fd_seek (offset : Z) (fd : FileDescriptor) : FileDescriptor := mkFD (fd_inode fd) offset (fd_flags fd).

Definition fd_read (n : Z) (fd : FileDescriptor) : M (VFS S I F) (list Z * FileDescriptor) :=
  bs ← on_store (inode_read (fd_inode fd) (fd_offset fd) n);
  mret (bs, fd_seek (u64 (fd_offset fd + len bs)) fd).

Definition fd_write (buf : list Z) (fd : FileDescriptor) : M (VFS S I F) (Z * FileDescriptor) :=
  n ← on_store (inode_write (fd_inode fd) (fd_offset fd) buf);
  mret (n, fd_seek (u64 (fd_offset fd + n)) fd).

(** ** Start-up *)

Definition standard_dirs : list (list Z) :=
  map bytes_of_string ["/bin"; "/dev"; "/etc"; "/home"; "/home/user"; "/tmp"; "/var"; "/var/log"].

(** [if lookup(dir).is_ok() { continue; }], then [mkdir] with a warning on failure. *)
Definition ensure_dir (dir : list Z) : M (VFS S I F) unit := λ v,
  match lookup dir v with
  | (Ok _, v) => (Ok tt, v)
  | (Err _, v) => m_ignore (mkdir dir) v
  | (Panic, v) => (Panic, v)
  end.

Definition ensure_file (path data : list Z) : M (VFS S I F) unit := λ v,
  match lookup path v with
  | (Ok _, v) => (Ok tt, v)
  | (Err _, v) => m_ignore (write_file path data) v
  | (Panic, v) => (Panic, v)
  end.

Fixpoint ensure_dirs (dirs : list (list Z)) : M (VFS S I F) unit :=
  match dirs with
  | [] => mret tt
  | d :: dirs => ensure_dir d;; ensure_dirs dirs
  end.

Definition create_directory_structure : M (VFS S I F) unit := ensure_dirs standard_dirs.

Definition create_system_files : M (VFS S I F) unit :=
  ensure_file (bytes_of_string "/etc/hostname") (bytes_of_string "cottonos");;
  ensure_file (bytes_of_string "/etc/version") (bytes_of_string "CottonOS 0.1.0").

(** [r.expect(..)] *)
Definition m_expect {A} (m : M (VFS S I F) A) : M (VFS S I F) A := λ v,
  match m v with (Err _, v) => (Panic, v) | r => r end.

(** [init], with the root file system that was found and the device file system. *)
Definition fs_init (rootfs devfs : F) : M (VFS S I F) unit :=
  r ← m_expect (on_store (fs_root rootfs));
  m_modify (λ v, mkVFS (store v) (Some r) (mounts v ++ [mkMount [slash] rootfs r]));;
  create_directory_structure;;
  create_system_files;;
  m_ignore (mount (bytes_of_string "/dev") devfs).

End Files.

Arguments FileDescriptor I : clear implicits.
