(* ===== verification/FilesSpec.v ===== *)
(** * Path resolution, and files by path

    [lookup] on absolute paths walks the components of the path from the last
    mount whose components are a prefix ([lookup_components]).  [FileLaws] states
    what the path layer needs of a file system, and [write_file_read_file] is
    proved from it. *)

From S2P Require Import Prelude Bytes Vfs Files.

(** ** Components *)

Definition word (c : list Z) : Prop := c ≠ [] ∧ slash ∉ c.

#[export] Instance word_dec c : Decision (word c).
Proof. unfold word. apply _. Defined.

(** A word of text does not start inside a character. *)
Definition component (c : list Z) : Prop := word c ∧ is_cont (hd 0 c) = false.

#[export] Instance component_dec c : Decision (component c).
Proof. unfold component. apply _. Defined.

Lemma components_words cs : Forall component cs → Forall word cs.
Proof. intros H. eapply Forall_impl; [exact H|]. by intros c []. Qed.

(** [/a/b] *)
Definition join (cs : list (list Z)) : list Z := concat (map (cons slash) cs).

(** The components of a path. *)
Definition components (path : list Z) : list (list Z) := filter (λ c, c ≠ []) (split_slash path).

Lemma split_slash_nonempty s : split_slash s ≠ [].
Proof. destruct s as [|c s]; cbn; [done|]. case_match; [done|]. by case_match. Qed.

Lemma split_slash_app p q : split_slash (p ++ slash :: q) = split_slash p ++ split_slash q.
Proof.
  induction p as [|c p IH]; cbn; [done|]. rewrite IH. destruct (c =? slash) eqn:E; [done|].
  pose proof (split_slash_nonempty p). by destruct (split_slash p).
Qed.

Lemma split_slash_word w : slash ∉ w → split_slash w = [w].
Proof.
  induction w as [|c w IH]; intros Hw; [done|]. cbn. apply not_elem_of_cons in Hw as [Hc Hw].
  rewrite (proj2 (Z.eqb_neq c slash)) by done. by rewrite IH.
Qed.

Lemma split_join cs : Forall word cs → split_slash (join cs) = [] :: cs.
Proof.
  intros Hcs. assert (∀ w, slash ∉ w → split_slash (w ++ join cs) = w :: cs) as H; [|apply (H []); apply not_elem_of_nil].
  induction Hcs as [|c cs [Hne Hc] _ IH]; intros w Hw.
  - unfold join. cbn. rewrite app_nil_r. by apply split_slash_word.
  - change (join (c :: cs)) with ((slash :: c) ++ join cs). cbn. rewrite split_slash_app, IH by done.
    by rewrite split_slash_word.
Qed.

Lemma components_join cs : Forall word cs → components (join cs) = cs.
Proof.
  intros Hcs. unfold components. rewrite split_join by done. rewrite filter_cons_False by tauto.
  induction Hcs as [|c cs [Hne _] _ IH]; [done|]. rewrite filter_cons_True by done. by rewrite IH.
Qed.

Lemma join_app cs1 cs2 : join (cs1 ++ cs2) = join cs1 ++ join cs2.
Proof. unfold join. by rewrite map_app, concat_app. Qed.

Lemma join_nil cs : join cs = [] → cs = [].
Proof. by destruct cs. Qed.

(** The head of a path ends before a slash exactly between components. *)
Lemma join_prefix cs1 : ∀ cs2 rest,
  Forall word cs1 → Forall word cs2 → join cs2 = join cs1 ++ rest → (rest = [] ∨ ∃ r, rest = slash :: r) →
  ∃ cs, cs2 = cs1 ++ cs ∧ rest = join cs.
Proof.
  induction cs1 as [|c cs1 IH]; intros cs2 rest H1 H2 Hj Hr; [by exists cs2|].
  destruct cs2 as [|c2 cs2]; [done|]. apply Forall_cons in H1 as [[Hc Hsc] H1]. apply Forall_cons in H2 as [[Hc2 Hsc2] H2].
  unfold join in Hj. cbn in Hj. injection Hj as Hj. rewrite <- app_assoc in Hj. fold (join cs1) (join cs2) in Hj.
  assert (∀ t, (t = [] ∨ ∃ r, t = slash :: r) → ∀ t2, (t2 = [] ∨ ∃ r, t2 = slash :: r) → c2 ++ t2 = c ++ t → c2 = c ∧ t2 = t) as Hsplit.
  { clear -Hsc Hsc2. intros t Ht t2 Ht2. revert c Hsc. induction c2 as [|x c2 IH]; intros [|y c] Hsc E; cbn in *.
    - done.
    - destruct Ht2 as [->|[r ->]]; [done|]. injection E as Ey _. destruct Hsc. rewrite Ey. constructor.
    - destruct Ht as [->|[r ->]]; [done|]. injection E as Ey _. destruct Hsc2. rewrite <- Ey. constructor.
    - injection E as -> E. apply not_elem_of_cons in Hsc as [_ Hsc], Hsc2 as [_ Hsc2].
      destruct (IH Hsc2 c Hsc E) as [-> ->]. done. }
  assert (∀ cs, join cs = [] ∨ ∃ r, join cs = slash :: r) as Hjc by (intros [|w cs]; [by left|right; by eexists]).
  destruct (Hsplit (join cs1 ++ rest)) with (t2 := join cs2) as [-> E]; [|apply Hjc|done|].
  - destruct (Hjc cs1) as [->|[r ->]]; [done|]. right. by eexists.
  - destruct (IH cs2 rest H1 H2 E Hr) as (cs & -> & ->). by exists cs.
Qed.

(** ** Walking *)

Section Walk.
Context {S I F : Type} `{!InodeOps S I, !FileSystemOps S I F}.

Definition skipped (c : list Z) : Prop := c = [] ∨ c = dot.

#[global] Instance skipped_dec c : Decision (skipped c).
Proof using Type. unfold skipped. apply _. Defined.

Lemma walk_app (i : I) cs1 cs2 (s : S) : walk i (cs1 ++ cs2) s = (j ← walk i cs1; walk j cs2) s.
Proof using Type.
  revert i s. induction cs1 as [|c cs1 IH]; intros i s; cbn [walk app]; [by rewrite M_ret_run|].
  unfold mbind, M_bind. destruct (walk_step i c s) as [[j| |] s1]; [|done..]. apply IH.
Qed.

Lemma walk_nil_component (i : I) cs (s : S) : walk i ([] :: cs) s = walk i cs s.
Proof using Type. done. Qed.

Lemma resolve_join (i : I) cs (s : S) : Forall word cs → resolve_path i (drop 1 (join cs)) s = walk i cs s.
Proof using Type.
  intros Hcs. unfold resolve_path. destruct cs as [|c cs]; [done|].
  assert (split_slash (drop 1 (join (c :: cs))) = c :: cs) as ->; [|done].
  pose proof (split_join (c :: cs) Hcs) as H. change (join (c :: cs)) with (slash :: (c ++ join cs)) in *.
  change ([] :: split_slash (c ++ join cs) = [] :: c :: cs) in H. by injection H.
Qed.

End Walk.

(** ** Lookup *)

Section Lookup.
Context {S I F : Type} `{!InodeOps S I, !FileSystemOps S I F}.
Implicit Types (v : VFS S I F) (i : I).

(** The mount table holds "/" and absolute paths without empty components. *)
Definition mount_ok (m : MountPoint I F) : Prop :=
  mount_path m = [slash] ∨ ∃ mc, mc ≠ [] ∧ Forall word mc ∧ mount_path m = join mc.

(** The first mount whose components are a prefix, and the components left. *)
Fixpoint mount_of (ms : list (MountPoint I F)) (cs : list (list Z)) : option (I * list (list Z)) :=
  match ms with
  | [] => None
  | m :: ms =>
      let mc := components (mount_path m) in
      if bool_decide (mc ≠ [] ∧ mc `prefix_of` cs) then Some (mount_root m, drop (length mc) cs) else mount_of ms cs
  end.

Lemma find_mount_components ms cs :
  Forall mount_ok ms → Forall word cs → cs ≠ [] →
  find_mount ms (join cs) = (λ p, (p.1, join p.2)) <$> mount_of ms cs.
Proof using Type.
  intros Hms Hcs Hne. induction Hms as [|m ms Hm _ IH]; [done|]. cbn [find_mount mount_of].
  destruct Hm as [Hm|(mc & Hmc0 & Hmc & Hm)]; rewrite Hm.
  - change (components [slash]) with (@nil (list Z)). rewrite (bool_decide_eq_false_2 (_ ∧ _)) by tauto. rewrite <- IH.
    destruct cs as [|[|b c] cs]; [done|by apply Forall_cons in Hcs as [[] _]|]. apply Forall_cons in Hcs as [[_ Hb] _].
    rewrite (bool_decide_eq_false_2 (_ = [])) by done. unfold starts_with at 2. rewrite bool_decide_eq_false_2; [by rewrite andb_false_r|].
    intros [r E]. cbn in E. injection E as -> _. apply Hb. constructor.
  - rewrite components_join by done. destruct (decide (mc `prefix_of` cs)) as [[rest ->]|Hp].
    + rewrite (bool_decide_eq_true_2 (_ ∧ _)) by (split; [done|by exists rest]). rewrite join_app.
      unfold starts_with at 1. rewrite bool_decide_eq_true_2 by (by exists (join rest)).
      rewrite drop_app_length. rewrite drop_app_length. cbn [fmap option_fmap option_map fst snd andb].
      destruct rest as [|c rest]; [done|]. rewrite (bool_decide_eq_false_2 (_ = [])) by done. unfold starts_with.
      rewrite bool_decide_eq_true_2; [done|]. by eexists.
    + rewrite (bool_decide_eq_false_2 (_ ∧ _)) by tauto. rewrite <- IH.
      destruct (starts_with (join mc) (join cs)) eqn:Es; [|done]. apply bool_decide_eq_true in Es as [rest E].
      rewrite E, drop_app_length. cbn [andb].
      destruct (bool_decide (rest = []) || starts_with [slash] rest) eqn:Er; [|by rewrite <- E]. exfalso.
      destruct (join_prefix mc cs rest) as (cs' & -> & _); [done..| |by apply Hp; exists cs'].
      apply orb_true_iff in Er as [Er%bool_decide_eq_true|[r ->]%bool_decide_eq_true]; [by left|right; by exists r].
Qed.

(** Absolute paths of components. *)
Lemma lookup_join v r cs :
  vfs_root v = Some r → Forall mount_ok (mounts v) → Forall component cs → cs ≠ [] →
  lookup (join cs) v =
    let '(i, rest) := default (r, cs) (mount_of (reverse (mounts v)) cs) in on_store (walk i rest) v.
Proof using Type.
  intros Hr Hm Hcs Hne. pose proof (components_words cs Hcs) as Hw. unfold lookup.
  rewrite M_guard_run by (rewrite bool_decide_eq_false_2; [done|]; by intros ->%join_nil). rewrite M_get_run, Hr.
  cbn [ok_or]. rewrite M_lift_run, find_mount_components by first [done|by apply Forall_reverse].
  assert (join cs ≠ [slash]) as Hj.
  { destruct cs as [|[|b c] cs]; [done|by apply Forall_cons in Hw as [[] _]|done]. }
  rewrite bool_decide_eq_false_2 by done.
  destruct (mount_of (reverse (mounts v)) cs) as [[i rest]|] eqn:Em; cbn [fmap option_fmap option_map fst snd default].
  - assert (Forall word rest) as Hrest.
    { revert Em Hw. clear. generalize (reverse (mounts v)) as ms. induction ms as [|m ms IH]; [done|]. cbn [mount_of].
      case_bool_decide; [|done]. intros [= _ <-] Hw. by apply Forall_drop. }
    destruct rest as [|[|b c] rest]; [|by apply Forall_cons in Hrest as [[] _]|].
    + cbn [join map concat]. rewrite bool_decide_eq_true_2 by done. cbn [orb walk]. unfold on_store, mret, M_ret.
      by destruct v.
    + rewrite !bool_decide_eq_false_2 by done. cbn [orb]. unfold on_store.
      by rewrite resolve_join.
  - assert (tail_slice (join cs) = Ok (drop 1 (join cs))) as ->.
    { destruct cs as [|[|b c] cs]; [done|by apply Forall_cons in Hw as [[] _]|].
      apply Forall_cons in Hcs as [[_ Hb] _]. cbn in Hb |- *. by rewrite Hb. }
    rewrite M_lift_run. unfold on_store. by rewrite resolve_join.
Qed.

(** C19: resolving a path.  An absolute path of components is resolved by walking
    those that remain after the last mount whose components are a prefix of it -
    names are never cut in the middle - from the root of that mount, or all of them
    from the root of the file system. *)
Theorem lookup_components v r cs :
  vfs_root v = Some r → Forall mount_ok (mounts v) → Forall component cs → cs ≠ [] →
  lookup (join cs) v =
    let '(i, rest) := default (r, cs) (mount_of (reverse (mounts v)) cs) in on_store (walk i rest) v.
Proof using Type. apply lookup_join. Qed.

End Lookup.

(** ** What the path layer needs of a file system *)

(** [content] is the byte string of a regular file, [names] the entries of a
    directory.  An operation may change the store behind them, as caching does. *)
Class FileView (S I : Type) : Type := {
  fl_inv : S → Prop;
  content : S → I → option (list Z);
  names : S → I → option (gmap (list Z) I);
  file_max : Z;
}.

Section View.
Context {S I : Type} `{!FileView S I}.

Definition same_view (s s' : S) : Prop :=
  fl_inv s' ∧ (∀ i, content s' i = content s i) ∧ (∀ i, names s' i = names s i).

(** One file changes. *)
Definition view_set (i : I) (d : list Z) (s s' : S) : Prop :=
  fl_inv s' ∧ content s' i = Some d ∧ (∀ j, j ≠ i → content s' j = content s j) ∧ (∀ j, names s' j = names s j).

Fixpoint view_walk (s : S) (i : I) (cs : list (list Z)) : option I :=
  match cs with
  | [] => Some i
  | c :: cs => match names s i with Some m => m !! c ≫= λ j, view_walk s j cs | None => None end
  end.

Lemma view_walk_same s s' i cs : same_view s s' → view_walk s' i cs = view_walk s i cs.
Proof using Type.
  intros (_ & _ & Hn). revert i. induction cs as [|c cs IH]; intros i; [done|]. cbn. rewrite Hn.
  destruct (names s i) as [m|]; [|done]. destruct (m !! c) as [j|]; [|done]. apply IH.
Qed.

Lemma view_walk_app s i cs1 cs2 : view_walk s i (cs1 ++ cs2) = view_walk s i cs1 ≫= λ j, view_walk s j cs2.
Proof using Type.
  revert i. induction cs1 as [|c cs1 IH]; intros i; [done|]. cbn. destruct (names s i) as [m|]; [|done].
  destruct (m !! c) as [j|]; [|done]. apply IH.
Qed.

(** More entries. *)
Lemma view_walk_mono s s' i cs f :
  (∀ j m, names s j = Some m → ∃ m', names s' j = Some m' ∧ m ⊆ m') →
  view_walk s i cs = Some f → view_walk s' i cs = Some f.
Proof using Type.
  intros Hm. revert i. induction cs as [|c cs IH]; intros i; [done|]. cbn.
  destruct (names s i) as [m|] eqn:E; [|done]. destruct (Hm i m E) as (m' & -> & Hsub).
  destruct (m !! c) as [j|] eqn:Ej; [|done]. rewrite (lookup_weaken _ _ _ _ Ej Hsub). apply IH.
Qed.

Lemma same_view_trans s1 s2 s3 : same_view s1 s2 → same_view s2 s3 → same_view s1 s3.
Proof using Type.
  intros (_ & Hc & Hn) (Hi & Hc' & Hn'). split; [done|]. split; intros i; [by rewrite Hc'|by rewrite Hn'].
Qed.

Lemma view_set_same i d s1 s2 s3 : view_set i d s1 s2 → same_view s2 s3 → view_set i d s1 s3.
Proof using Type.
  intros (_ & Hd & Hc & Hn) (Hi & Hc' & Hn'). split; [done|]. split; [by rewrite Hc'|].
  split; [intros j Hj; rewrite Hc'; by apply Hc|intros j; by rewrite Hn'].
Qed.

Lemma view_set_trans i d d' s1 s2 s3 : view_set i d s1 s2 → view_set i d' s2 s3 → view_set i d' s1 s3.
Proof using Type.
  intros (_ & _ & Hc & Hn) (Hi & Hd & Hc' & Hn'). split; [done|]. split; [done|].
  split; [intros j Hj; rewrite Hc' by done; by apply Hc|intros j; by rewrite Hn'].
Qed.

End View.

(** The laws. *)
Class FileLaws (S I : Type) `{!InodeOps S I, !FileView S I} : Prop := {
  file_max_ok : 0 ≤ file_max < 2 ^ 63;
  lookup_law s i m name :
    fl_inv s → names s i = Some m → name ≠ dot → name ≠ dotdot →
    ∃ s', inode_lookup i name s = (Ok (m !! name), s') ∧ same_view s s';
  stat_law s i d :
    fl_inv s → content s i = Some d →
    ∃ st s', inode_stat i s = (Ok st, s') ∧ st_size st = len d ∧ same_view s s';
  read_law s i d off n :
    fl_inv s → content s i = Some d → 0 ≤ off → 0 ≤ n →
    ∃ s', inode_read i off n s = (Ok (slice off (Z.min n (len d - off)) d), s') ∧ same_view s s';
  truncate_law s i d n :
    fl_inv s → content s i = Some d → 0 ≤ n ≤ file_max →
    ∃ s', inode_truncate i n s = (Ok tt, s') ∧ view_set i (vec_resize n 0 d) s s';
  write_law s i d off buf :
    fl_inv s → content s i = Some d → 0 ≤ off → off + len buf ≤ file_max →
    ∃ s', inode_write i off buf s = (Ok (len buf), s') ∧ view_set i (write_at off buf d) s s';
  sync_law s i d :
    fl_inv s → content s i = Some d → ∃ s', inode_sync_ i s = (Ok tt, s') ∧ same_view s s';
  create_law s i m name :
    fl_inv s → names s i = Some m → m !! name = None →
    ∃ j s', inode_create i name s = (Ok j, s') ∧ fl_inv s' ∧ content s' j = Some [] ∧ content s j = None ∧
      names s' i = Some (<[name := j]> m) ∧ (∀ k, k ≠ j → content s' k = content s k) ∧
      (∀ k, k ≠ i → names s' k = names s k);
}.

(** A name a directory can list. *)
Definition file_name (c : list Z) : Prop := component c ∧ c ≠ dot ∧ c ≠ dotdot.

#[export] Instance file_name_dec c : Decision (file_name c).
Proof. unfold file_name. apply _. Defined.

Section Client.
Context {S I F : Type} `{!EqDecision I, !InodeOps S I, !FileSystemOps S I F, !FileView S I, !FileLaws S I}.
Implicit Types (v : VFS S I F) (s : S) (i : I).

Lemma walk_step_name s i m c :
  fl_inv s → names s i = Some m → file_name c →
  ∃ s', same_view s s' ∧
    walk_step i c s = match m !! c with Some j => (Ok j, s') | None => (Err "Not found", s') end.
Proof using Type*.
  intros Hs Hm (((Hne & _) & _) & Hd & Hdd). unfold walk_step.
  rewrite !bool_decide_eq_false_2 by done. cbn [orb].
  destruct (lookup_law s i m c Hs Hm Hd Hdd) as (s' & E & Hv). exists s'. split; [done|].
  unfold child. rewrite (M_bind_run _ _ _ _ _ E). by destruct (m !! c).
Qed.

Lemma walk_view cs : ∀ s i j,
  fl_inv s → Forall file_name cs → view_walk s i cs = Some j →
  ∃ s', walk i cs s = (Ok j, s') ∧ same_view s s'.
Proof using Type*.
  induction cs as [|c cs IH]; intros s i j Hs Hcs Hw.
  - injection Hw as ->. by exists s.
  - apply Forall_cons in Hcs as [Hc Hcs]. cbn [view_walk] in Hw. destruct (names s i) as [m|] eqn:Em; [|done].
    destruct (m !! c) as [k|] eqn:Ek; [|done]. cbn in Hw. destruct (walk_step_name s i m c Hs Em Hc) as (s1 & Hv1 & E).
    rewrite Ek in E. rewrite <- (view_walk_same s s1) in Hw by done.
    destruct (IH s1 k j) as (s2 & E2 & Hv2); [apply Hv1|done..|]. exists s2.
    cbn [walk]. rewrite (M_bind_run _ _ _ _ _ E). split; [done|]. by eapply same_view_trans.
Qed.

(** The last name is missing from the directory the others lead to. *)
Lemma walk_missing cs n s i j m :
  fl_inv s → Forall file_name cs → file_name n → view_walk s i cs = Some j → names s j = Some m → m !! n = None →
  ∃ s', walk i (cs ++ [n]) s = (Err "Not found", s') ∧ same_view s s'.
Proof using Type*.
  intros Hs Hcs Hn Hw Hm Hmn. destruct (walk_view cs s i j Hs Hcs Hw) as (s1 & E1 & Hv1).
  assert (names s1 j = Some m) as Hm1 by (destruct Hv1 as (_ & _ & Hnm); by rewrite Hnm).
  destruct (walk_step_name s1 j m n) as (s2 & Hv2 & E2); [apply Hv1|done..|]. rewrite Hmn in E2.
  exists s2. rewrite walk_app, (M_bind_run _ _ _ _ _ E1). cbn [walk]. unfold mbind, M_bind. rewrite E2.
  split; [done|]. by eapply same_view_trans.
Qed.

(** *** Paths in a mounted file system *)

Definition path_of (cs : list (list Z)) : list Z := if decide (cs = []) then [slash] else join cs.

Definition set_store (s : S) v : VFS S I F := mkVFS s (vfs_root v) (mounts v).

(** Where the resolution of the components starts, and what is left of them. *)
Definition start v (r : I) (cs : list (list Z)) : I * list (list Z) :=
  default (r, cs) (mount_of (reverse (mounts v)) cs).

Definition mounted v (r : I) : Prop := vfs_root v = Some r ∧ Forall mount_ok (mounts v).

Lemma lookup_path v r cs i rest :
  mounted v r → Forall component cs → start v r cs = (i, rest) → lookup (path_of cs) v = on_store (walk i rest) v.
Proof using Type.
  intros [Hr Hm] Hcs Hst. unfold path_of. case_decide as Hne.
  - subst cs. assert (start v r [] = (r, [])) as Hs0.
    { unfold start. clear. induction (reverse (mounts v)) as [|m ms IH]; [done|]. cbn [mount_of].
      rewrite bool_decide_eq_false_2; [done|]. by intros [Hne ?%prefix_nil_inv]. }
    rewrite Hst in Hs0. injection Hs0 as -> ->. unfold lookup.
    rewrite M_guard_run, M_get_run, Hr by done. cbn [ok_or]. rewrite M_lift_run, bool_decide_eq_true_2 by done.
    unfold on_store. by destruct v.
  - rewrite (lookup_join v r cs) by done. unfold start in Hst. by rewrite Hst.
Qed.

Lemma rfind_slash_word w : slash ∉ w → rfind_slash w = None.
Proof using Type.
  induction w as [|c w IH]; intros Hw; [done|]. apply not_elem_of_cons in Hw as [Hc Hw]. cbn. rewrite IH by done.
  by rewrite (proj2 (Z.eqb_neq c slash)).
Qed.

Lemma rfind_slash_app p n : slash ∉ n → rfind_slash (p ++ slash :: n) = Some (length p).
Proof using Type.
  intros Hn. induction p as [|c p IH]; cbn; [by rewrite rfind_slash_word|by rewrite IH].
Qed.

Lemma split_path_join cs n : word n → Forall word cs → split_path (path_of (cs ++ [n])) = (path_of cs, n).
Proof using Type.
  intros [_ Hn] Hcs. unfold path_of. rewrite decide_False by (by destruct cs). rewrite join_app.
  change (join [n]) with ((slash :: n) ++ []). rewrite app_nil_r. unfold split_path. rewrite rfind_slash_app by done.
  case_decide as Hne; [by subst|]. destruct (length (join cs)) as [|k] eqn:El.
  - by apply nil_length_inv, join_nil in El.
  - rewrite <- El, take_app_length. f_equal. rewrite <- (Nat.add_1_r (length _)), <- drop_drop, drop_app_length. done.
Qed.

(** The mount of a path is the mount of its parent, unless it is mounted on itself. *)
Lemma start_parent v r cs n i rest : start v r (cs ++ [n]) = (i, rest ++ [n]) → start v r cs = (i, rest).
Proof using Type.
  unfold start. induction (reverse (mounts v)) as [|m ms IH]; cbn [mount_of].
  - cbn. intros [= -> H]. by apply app_inj_tail in H as [-> _].
  - set (mc := components (mount_path m)). case_bool_decide as Hm.
    + destruct Hm as [Hne Hp]. cbn. intros [= -> Hd].
      assert (length mc ≤ length cs)%nat as Hl.
      { apply (f_equal length) in Hd. rewrite length_drop, !length_app in Hd. cbn in Hd. lia. }
      rewrite drop_app_le in Hd by done. apply app_inj_tail in Hd as [Hd _].
      rewrite bool_decide_eq_true_2; [by rewrite <- Hd|]. split; [done|].
      destruct (prefix_weak_total mc cs (cs ++ [n])) as [|Hc]; [done|by eexists|done|].
      by rewrite (prefix_length_eq cs mc).
    + intros E. rewrite bool_decide_eq_false_2; [by apply IH|]. intros [Hne Hp]. apply Hm. split; [done|].
      by apply prefix_app_r.
Qed.

Lemma lookup_ok v r cs i rest f :
  mounted v r → Forall component cs → start v r cs = (i, rest) → fl_inv (store v) → Forall file_name rest →
  view_walk (store v) i rest = Some f →
  ∃ s', lookup (path_of cs) v = (Ok f, set_store s' v) ∧ same_view (store v) s'.
Proof using Type*.
  intros Hv Hcs Hst Hi Hrest Hw. rewrite (lookup_path v r cs i rest) by done.
  destruct (walk_view rest (store v) i f Hi Hrest Hw) as (s' & E & Hs'). exists s'. split; [|done].
  unfold on_store. by rewrite E.
Qed.

Lemma on_store_run {A} (m : M S A) v a s' : m (store v) = (a, s') → on_store m v = (a, set_store s' v).
Proof using Type. unfold on_store. by intros ->. Qed.

Lemma write_at_empty data : write_at 0 data [] = data.
Proof using Type.
  unfold write_at, splice. rewrite take_0. rewrite drop_ge, app_nil_r; [done|].
  destruct (Z.ltb_spec (len (@nil Z)) (0 + len data)); [|cbn; lia].
  unfold vec_resize, len. rewrite length_app, length_take, length_replicate. cbn. lia.
Qed.

(** Writing the whole of a file that has just been emptied or made. *)
Lemma write_whole v f data d :
  fl_inv (store v) → content (store v) f = Some d → len d = 0 → len data ≤ file_max →
  ∃ s', (on_store (inode_write f 0 data);; on_store (inode_sync_ f)) v = (Ok tt, set_store s' v) ∧
    view_set f data (store v) s'.
Proof using Type*.
  intros Hi Hd H0 Hl. destruct d; [|done].
  destruct (write_law (store v) f [] 0 data) as (s1 & E1 & Hv1); [done..|]. rewrite write_at_empty in Hv1.
  destruct (sync_law s1 f data) as (s2 & E2 & Hv2); [apply Hv1..|]. exists s2.
  rewrite (M_bind_run _ _ _ _ _ (on_store_run _ v _ _ E1)). split; [|by eapply view_set_same].
  by rewrite (on_store_run _ (set_store s1 v) _ _ E2).
Qed.

(** What [write_file] finds under the name. *)
Definition replaceable s (m : gmap (list Z) I) (n : list Z) : Prop :=
  m !! n = None ∨ ∃ f d, m !! n = Some f ∧ content s f = Some d.

(** A name that is free: [lookup] fails, and [create] then makes an empty file. *)
Lemma create_missing v r cs n i rest p m :
  mounted v r → Forall component (cs ++ [n]) → start v r (cs ++ [n]) = (i, rest ++ [n]) →
  fl_inv (store v) → Forall file_name (rest ++ [n]) → view_walk (store v) i rest = Some p →
  names (store v) p = Some m → m !! n = None →
  ∃ s1 f s', lookup (path_of (cs ++ [n])) v = (Err "Not found", set_store s1 v) ∧
    create (path_of (cs ++ [n])) (set_store s1 v) = (Ok f, set_store s' v) ∧ fl_inv s' ∧ content s' f = Some [] ∧
    view_walk s' i (rest ++ [n]) = Some f ∧ ∀ g, g ≠ f → content s' g = content (store v) g.
Proof using Type*.
  intros Hv Hcs Hst Hi Hrest Hw Hm Hn.
  apply Forall_app in Hcs as [Hcs Hcn]. rewrite Forall_singleton in Hcn.
  apply Forall_app in Hrest as [Hrs Hrn]. rewrite Forall_singleton in Hrn.
  destruct (walk_missing rest n (store v) i p m Hi Hrs Hrn Hw Hm Hn) as (s1 & E1 & Hv1).
  destruct (lookup_ok (set_store s1 v) r cs i rest p) as (s2 & E2 & Hv2); [done..|by eapply start_parent|apply Hv1|done| |].
  { cbn. by rewrite (view_walk_same _ _ _ _ Hv1). }
  pose proof (same_view_trans _ _ _ Hv1 Hv2) as Hv12.
  destruct (create_law s2 p m n) as (j & s3 & E3 & Hi3 & Hj & Hj0 & Hp3 & Hc3 & Hn3); [apply Hv2| |done|].
  { destruct Hv12 as (_ & _ & Hnm). by rewrite Hnm. }
  exists s1, j, s3. split.
  { rewrite (lookup_path v r _ i (rest ++ [n])) by (done || (apply Forall_app; by rewrite Forall_singleton)).
    by apply on_store_run. }
  split.
  { unfold create, in_parent. rewrite split_path_join by (by apply Hcn || by apply components_words).
    rewrite (M_bind_run _ _ _ _ _ E2). by rewrite (on_store_run _ (set_store s2 (set_store s1 v)) _ _ E3). }
  split; [done|]. split; [done|]. destruct Hv12 as (_ & Hc & Hnm). split.
  - rewrite view_walk_app. assert (view_walk s3 i rest = Some p) as ->.
    { eapply view_walk_mono; [|done]. intros k mk Hk. destruct (decide (k = p)) as [->|Hne].
      - exists (<[n := j]> m). split; [done|]. assert (mk = m) as -> by congruence. by apply insert_subseteq.
      - exists mk. by rewrite Hn3, Hnm. }
    cbn. rewrite Hp3, lookup_insert_eq. done.
  - intros g Hg. rewrite Hc3 by done. apply Hc.
Qed.

(** Opening: the file is there and empty, every other file as before. *)
Lemma open_or_create_ok v r cs n i rest p m :
  mounted v r → Forall component (cs ++ [n]) → start v r (cs ++ [n]) = (i, rest ++ [n]) →
  fl_inv (store v) → Forall file_name (rest ++ [n]) → view_walk (store v) i rest = Some p →
  names (store v) p = Some m → replaceable (store v) m n →
  ∃ f s', open_or_create (path_of (cs ++ [n])) v = (Ok f, set_store s' v) ∧ fl_inv s' ∧ content s' f = Some [] ∧
    view_walk s' i (rest ++ [n]) = Some f ∧ ∀ g, g ≠ f → content s' g = content (store v) g.
Proof using Type*.
  intros Hv Hcs Hst Hi Hrest Hw Hm Hn. pose proof (file_max_ok) as Hmax.
  destruct Hn as [Hn|(f & d & Hn & Hd)].
  - destruct (create_missing v r cs n i rest p m) as (s1 & f & s' & E1 & E2 & H); [done..|]. exists f, s'. split; [|done].
    unfold open_or_create. by rewrite E1, E2.
  - assert (view_walk (store v) i (rest ++ [n]) = Some f) as Hwf by (rewrite view_walk_app, Hw; cbn; by rewrite Hm, Hn).
    destruct (lookup_ok v r (cs ++ [n]) i (rest ++ [n]) f) as (s1 & E1 & Hv1);
      [done..|].
    destruct (truncate_law s1 f d 0) as (s2 & E2 & Hv2); [apply Hv1| |lia|]; [by destruct Hv1 as (_ & -> & _)|].
    change (vec_resize 0 0 d) with (@nil Z) in Hv2. exists f, s2. split.
    + unfold open_or_create. rewrite E1. unfold mbind, M_bind, m_ignore.
      by rewrite (on_store_run _ (set_store s1 v) _ _ E2).
    + destruct Hv2 as (Hi2 & Hf2 & Hc2 & Hn2), Hv1 as (Hi1 & Hc1 & Hn1). split; [done|]. split; [done|]. split.
      * rewrite <- Hwf. assert (∀ j, names s2 j = names (store v) j) as Hnm by (intros j; by rewrite Hn2).
        clear -Hnm. generalize (rest ++ [n]) as cs, i. induction cs as [|c cs IH]; intros i0; [done|]. cbn. rewrite Hnm.
        destruct (names (store v) i0) as [m0|]; [|done]. destruct (m0 !! c); [|done]. apply IH.
      * intros g Hg. rewrite Hc2 by done. apply Hc1.
Qed.

(** C20: files by path.  When the directory of the path exists and the name is free or
    names a regular file, [write_file] succeeds, the path then leads to a file with
    exactly the data, every other file keeps its contents, and [read_file] returns
    the data. *)
Theorem write_file_read_file v r cs n i rest p m data :
  mounted v r → Forall component (cs ++ [n]) → start v r (cs ++ [n]) = (i, rest ++ [n]) →
  fl_inv (store v) → Forall file_name (rest ++ [n]) → view_walk (store v) i rest = Some p →
  names (store v) p = Some m → replaceable (store v) m n → len data ≤ file_max →
  ∃ f s1 s2, write_file (path_of (cs ++ [n])) data v = (Ok tt, set_store s1 v) ∧
    view_walk s1 i (rest ++ [n]) = Some f ∧ content s1 f = Some data ∧
    (∀ g, g ≠ f → content s1 g = content (store v) g) ∧
    read_file (path_of (cs ++ [n])) (set_store s1 v) = (Ok data, set_store s2 v) ∧ same_view s1 s2.
Proof using Type*.
  intros Hv Hcs Hst Hi Hrest Hw Hm Hn Hl.
  destruct (open_or_create_ok v r cs n i rest p m) as (f & s0 & E0 & Hi0 & Hf0 & Hw0 & Hc0); [done..|].
  destruct (write_whole (set_store s0 v) f data []) as (s1 & E1 & Hv1); [done..|].
  assert (view_walk s1 i (rest ++ [n]) = Some f) as Hw1.
  { eapply view_walk_mono; [|exact Hw0]. destruct Hv1 as (_ & _ & _ & Hn1). intros j mj Hj. exists mj. by rewrite Hn1. }
  destruct Hv1 as (Hi1 & Hf1 & Hc1 & _). cbn in Hc1.
  destruct (lookup_ok (set_store s1 v) r (cs ++ [n]) i (rest ++ [n]) f) as (s2 & E2 & Hv2); [done..|].
  destruct (stat_law s2 f data) as (st & s3 & E3 & Hst3 & Hv3); [apply Hv2|by destruct Hv2 as (_ & -> & _)|].
  pose proof (same_view_trans _ _ _ Hv2 Hv3) as Hv23.
  destruct (read_law s3 f data 0 (st_size st)) as (s4 & E4 & Hv4);
    [apply Hv3|by destruct Hv23 as (_ & -> & _)|done|rewrite Hst3; apply len_nonneg|].
  exists f, s1, s4. split; [|split; [done|split; [done|split; [|split]]]].
  - unfold write_file. rewrite (M_bind_run _ _ _ _ _ E0). exact E1.
  - intros g Hg. rewrite Hc1 by done. by apply Hc0.
  - unfold read_file. rewrite (M_bind_run _ _ _ _ _ E2). rewrite (M_bind_run _ _ _ _ _ (on_store_run _ (set_store s2 (set_store s1 v)) _ _ E3)).
    rewrite (on_store_run _ (set_store s3 (set_store s2 (set_store s1 v))) _ _ E4). f_equal. f_equal.
    rewrite Hst3. apply slice_all. lia.
  - by eapply same_view_trans.
Qed.

(** *** Open files *)

(** Reads of the given sizes, one after the other. *)
Fixpoint fd_reads (ns : list Z) (fd : FileDescriptor I) : M (VFS S I F) (list Z * FileDescriptor I) :=
  match ns with
  | [] => mret ([], fd)
  | n :: ns =>
      r ← fd_read n fd;
      r' ← fd_reads ns r.2;
      mret (r.1 ++ r'.1, r'.2)
  end.

(** Sequential reading.  However the buffer sizes are chosen, the reads of an open
    file return consecutive pieces: together the bytes from the offset on, as many
    as were asked for or are left, and the offset moves past them. *)
Theorem fd_reads_sequential ns v fd d :
  fl_inv (store v) → content (store v) (fd_inode fd) = Some d → len d < 2 ^ 64 →
  0 ≤ fd_offset fd ≤ len d → Forall (λ n, 0 ≤ n) ns →
  ∃ s', fd_reads ns fd v =
    (Ok (slice (fd_offset fd) (Z.min (foldr Z.add 0 ns) (len d - fd_offset fd)) d,
         fd_seek (Z.min (fd_offset fd + foldr Z.add 0 ns) (len d)) fd), set_store s' v) ∧ same_view (store v) s'.
Proof using Type*.
  intros Hi Hd Hmax. revert v fd Hi Hd. induction ns as [|n ns IH]; intros v fd Hi Hd Ho Hns.
  - exists (store v). destruct v, fd. cbn in *. rewrite Z.min_l by lia. rewrite Z.min_l by lia. rewrite Z.add_0_r. done.
  - apply Forall_cons in Hns as [Hn Hns]. destruct fd as [f off fl]. cbn [fd_offset fd_inode fd_seek fd_flags foldr] in *.
    destruct (read_law (store v) f d off n) as (s1 & E1 & Hv1); [done|done|lia|done|].
    set (k := Z.min n (len d - off)) in *. set (bs := slice off k d) in *.
    assert (len bs = k) as Hbs by (apply len_slice; lia).
    assert (0 ≤ foldr Z.add 0 ns) as Hsum by (clear -Hns; induction Hns; cbn; lia).
    assert (fd_read n (mkFD f off fl) v = (Ok (bs, mkFD f (off + k) fl), set_store s1 v)) as Er.
    { unfold fd_read. cbn [fd_inode fd_offset]. rewrite (M_bind_run _ _ _ _ _ (on_store_run _ v _ _ E1)).
      unfold fd_seek. cbn [fd_inode fd_flags]. by rewrite Hbs, u64_small by lia. }
    destruct (IH (set_store s1 v) (mkFD f (off + k) fl)) as (s2 & E2 & Hv2);
      [apply Hv1|cbn; by destruct Hv1 as (_ & -> & _)|cbn; lia|done|].
    exists s2. split; [|by eapply same_view_trans].
    cbn [fd_reads]. rewrite (M_bind_run _ _ _ _ _ Er). cbn [fst snd].
    rewrite (M_bind_run _ _ _ _ _ E2). cbn [fst snd fd_offset fd_seek fd_inode fd_flags].
    unfold bs. rewrite slice_app by lia. unfold mret, M_ret. f_equal. f_equal. f_equal; [f_equal; lia|].
    unfold fd_seek. cbn. f_equal. lia.
Qed.

End Client.
