(* ===== verification/RamSpec.v ===== *)
(** * The RAM file system implements the file laws

    and, with them, [write_file] and [read_file] on a kernel that starts without a
    disk.  [SystemFS] puts the file systems of the kernel behind one inode type. *)

From S2P Require Import Prelude Bytes Vfs Files FilesSpec RamFS DevFS.

(** ** The view of the RAM store *)

Definition ram_content (s : RamStore) (i : Z) : option (list Z) :=
  nodes s !! i ≫= λ n, match ram_data n with RamFile d => Some d | RamDirectory _ => None end.

Definition ram_names (s : RamStore) (i : Z) : option (gmap (list Z) Z) :=
  nodes s !! i ≫= λ n, match ram_data n with RamFile _ => None | RamDirectory m => Some m end.

(** The type an inode reports is that of its data. *)
Definition typed (n : RamInode) : Prop :=
  ram_type n = match ram_data n with RamFile _ => Regular | RamDirectory _ => Directory end.

#[export] Instance typed_dec n : Decision (typed n).
Proof. unfold typed. apply _. Defined.

#[export] Instance RamView : FileView RamStore Z := {
  fl_inv s := (∀ i, next_node s ≤ i → nodes s !! i = None) ∧ map_Forall (λ _, typed) (nodes s);
  content := ram_content;
  names := ram_names;
  file_max := 2 ^ 63 - 1;
}.

Lemma ram_content_Some s i d : ram_content s i = Some d → ∃ n, nodes s !! i = Some n ∧ ram_data n = RamFile d.
Proof.
  unfold ram_content. destruct (nodes s !! i) as [n|]; [|done]. cbn. destruct (ram_data n) eqn:E; [|done].
  intros [= <-]. by exists n.
Qed.

Lemma ram_names_Some s i m : ram_names s i = Some m → ∃ n, nodes s !! i = Some n ∧ ram_data n = RamDirectory m.
Proof.
  unfold ram_names. destruct (nodes s !! i) as [n|]; [|done]. cbn. destruct (ram_data n) eqn:E; [done|].
  intros [= <-]. by exists n.
Qed.

Lemma ram_get_run {B} i n (k : RamInode → M RamStore B) s : nodes s !! i = Some n → (ram_get i ≫= k) s = k n s.
Proof. intros E. unfold mbind, M_bind, ram_get. by rewrite E. Qed.

Lemma same_view_refl (s : RamStore) : fl_inv s → same_view s s.
Proof. by intros H. Qed.

(** Storing the data of a file. *)
Lemma ram_set_file s i d0 d :
  fl_inv s → ram_content s i = Some d0 →
  view_set i d s (mkStore (alter (set_ram_data (RamFile d)) i (nodes s)) (next_node s) (next_file_ino s) (next_dir_ino s)).
Proof.
  intros [Hs Ht] (n & Hn & Hd)%ram_content_Some. split; [split|split; [|split]]; cbn.
  - intros j Hj. rewrite lookup_alter_None. by apply Hs.
  - intros j nj. destruct (decide (i = j)) as [<-|Hne]; [|rewrite lookup_alter_ne by done; apply Ht].
    rewrite lookup_alter_eq, Hn. intros [= <-]. specialize (Ht i n Hn). unfold typed in *. cbn. by rewrite Ht, Hd.
  - unfold ram_content. cbn. by rewrite lookup_alter_eq, Hn.
  - intros j Hj. unfold ram_content. cbn. by rewrite lookup_alter_ne.
  - intros j. unfold ram_names. cbn. destruct (decide (i = j)) as [<-|Hne]; [|by rewrite lookup_alter_ne].
    rewrite lookup_alter_eq, Hn. cbn. by rewrite Hd.
Qed.

Lemma ram_write_run s i d off buf :
  fl_inv s → ram_content s i = Some d → 0 ≤ off → off + len buf ≤ 2 ^ 63 - 1 →
  ∃ s', ram_write i off buf s = (Ok (len buf), s') ∧ view_set i (write_at off buf d) s s'.
Proof.
  intros Hs Hd Ho Hl. pose proof (len_nonneg buf). destruct (ram_content_Some s i d Hd) as (n & Hn & Hnd).
  unfold ram_write. rewrite (ram_get_run _ n) by done. rewrite Hnd, u64_small by lia.
  change (if len d <? off + len buf then _ else d) with
    (if len d <? off + len buf then vec_resize (off + len buf) 0 d else d).
  set (data := if _ <? _ then _ else d).
  unfold mbind, M_bind, ram_set. set (s1 := mkStore (alter (set_ram_data (RamFile data)) i (nodes s)) _ _ _).
  assert (view_set i data s s1) as Hv1 by (by apply (ram_set_file s i d)).
  assert (off + len buf ≤ len data) as Hle.
  { unfold data. destruct (Z.ltb_spec (len d) (off + len buf)); [rewrite len_resize by lia|]; lia. }
  rewrite (proj2 (Z.ltb_ge (off + len buf) off)) by lia. rewrite (proj2 (Z.ltb_ge (len data) _)) by lia. cbn [orb].
  eexists. split; [done|].
  eapply view_set_trans; [exact Hv1|]. apply (ram_set_file s1 i data); apply Hv1.
Qed.

Lemma ram_create_run s i m name :
  fl_inv s → ram_names s i = Some m → m !! name = None →
  ∃ j s', ram_create i name s = (Ok j, s') ∧ fl_inv s' ∧ ram_content s' j = Some [] ∧ ram_content s j = None ∧
    ram_names s' i = Some (<[name := j]> m) ∧ (∀ k, k ≠ j → ram_content s' k = ram_content s k) ∧
    (∀ k, k ≠ i → ram_names s' k = ram_names s k).
Proof.
  intros [Hs Ht] Hm Hnone. destruct (ram_names_Some s i m Hm) as (n & Hn & Hd).
  assert (nodes s !! next_node s = None) as Hfree by (by apply Hs).
  assert (i ≠ next_node s) as Hne by congruence.
  unfold ram_create, ram_new_child. rewrite (ram_get_run _ n) by done. rewrite Hd, decide_True by done.
  unfold mbind, M_bind, take_file_ino, ram_alloc, ram_set, mret, M_ret. cbn [nodes next_node next_file_ino next_dir_ino].
  exists (next_node s). eexists. split; [done|]. split; [split|split; [|split; [|split; [|split]]]].
  - cbn. intros k Hk. rewrite lookup_alter_None, lookup_insert_ne by lia. apply Hs. lia.
  - cbn. intros k nk. destruct (decide (i = k)) as [<-|Hik].
    + rewrite lookup_alter_eq, lookup_insert_ne, Hn by done. intros [= <-]. specialize (Ht i n Hn). unfold typed in *. cbn. by rewrite Ht, Hd.
    + rewrite lookup_alter_ne by done. destruct (decide (next_node s = k)) as [<-|Hjk]; [rewrite lookup_insert_eq; by intros [= <-]|].
      rewrite lookup_insert_ne by done. apply Ht.
  - unfold ram_content. cbn. by rewrite lookup_alter_ne, lookup_insert_eq by done.
  - unfold ram_content. by rewrite Hfree.
  - unfold ram_names. cbn. rewrite lookup_alter_eq, lookup_insert_ne, Hn by done. done.
  - intros k Hk. unfold ram_content. cbn. destruct (decide (i = k)) as [<-|Hik].
    + rewrite lookup_alter_eq, lookup_insert_ne, Hn by done. cbn. by rewrite Hd.
    + by rewrite lookup_alter_ne, lookup_insert_ne by done.
  - intros k Hk. unfold ram_names. cbn. rewrite lookup_alter_ne by done.
    destruct (decide (next_node s = k)) as [<-|Hjk]; [by rewrite lookup_insert_eq, Hfree|by rewrite lookup_insert_ne].
Qed.

#[export] Instance Ram_laws : FileLaws RamStore Z.
Proof.
  split.
  - done.
  - cbn. intros s i m name Hs (n & Hn & Hd)%ram_names_Some Hdot Hdd. exists s. split; [|done].
    unfold ram_lookup. rewrite (ram_get_run _ n) by done. rewrite Hd.
    rewrite decide_False by done. by rewrite decide_False by done.
  - cbn. intros s i d Hs (n & Hn & Hd)%ram_content_Some. eexists _, s. split; [|split; [|done]].
    + unfold ram_stat. by rewrite (ram_get_run _ n) by done.
    + cbn. unfold get_size. by rewrite Hd.
  - cbn. intros s i d off n Hs (nd & Hn & Hd)%ram_content_Some Ho Hn0. exists s. split; [|done].
    unfold ram_read. rewrite (ram_get_run _ nd) by done. rewrite Hd.
    destruct (Z.leb_spec (len d) off); [|done].
    unfold slice. replace (Z.to_nat (Z.min n (len d - off))) with O by lia. done.
  - intros s i d n Hs Hd Hn. cbn in Hd. destruct (ram_content_Some s i d Hd) as (nd & Hnd & Hdd).
    cbn [inode_truncate RamInode_ops]. unfold ram_truncate. rewrite (ram_get_run _ nd) by done. rewrite Hdd.
    eexists. split; [done|]. by apply (ram_set_file s i d).
  - intros s i d off buf. apply ram_write_run.
  - cbn. intros s i d Hs Hd. by exists s.
  - intros s i m name. apply ram_create_run.
Qed.

(** ** Concrete runs *)

Module RamExample.

Definition tmp : list Z := bytes_of_string "tmp".
Definition note : list Z := bytes_of_string "note".

(** A root directory with an empty directory, mounted on "/". *)
Definition s0 : RamStore := ((r ← RamFS_new; ram_mkdir r tmp) ram_empty).2.
Definition v0 : VFS RamStore Z Z := mkVFS s0 (Some 0) [mkMount [slash] 0 0].

Lemma s0_inv : fl_inv s0.
Proof.
  assert (next_node s0 = 2 ∧ bool_decide (map_Forall (λ i _, i < 2) (nodes s0)) = true) as [Hn Hf%bool_decide_eq_true]
    by (split; by vm_compute).
  split; [|apply (bool_decide_unpack _); by vm_compute].
  intros i Hi. rewrite Hn in Hi. destruct (nodes s0 !! i) as [n|] eqn:E; [|done]. specialize (Hf i n E). cbn in Hf. lia.
Qed.

Lemma v0_mounted : mounted v0 0.
Proof. split; [done|]. constructor; [by left|constructor]. Qed.

Lemma names_ok : Forall file_name [tmp; note].
Proof. apply (bool_decide_unpack _). by vm_compute. Qed.

Lemma components_ok : Forall component [tmp; note].
Proof. apply (bool_decide_unpack _). by vm_compute. Qed.

Lemma lookup_components_witness :
  lookup (join [tmp; note]) v0 = on_store (walk 0 [tmp; note]) v0 ∧ (lookup (join [tmp]) v0).1 = Ok 1.
Proof.
  split; [|by vm_compute]. pose proof (lookup_components v0 0 [tmp; note] eq_refl (proj2 v0_mounted) components_ok) as H.
  apply H. done.
Defined.

Definition text : list Z := bytes_of_string "CottonOS".

Lemma write_file_read_file_witness :
  ∃ f s1 s2, write_file (path_of [tmp; note]) text v0 = (Ok tt, set_store s1 v0) ∧
    content s1 f = Some text ∧ read_file (path_of [tmp; note]) (set_store s1 v0) = (Ok text, set_store s2 v0).
Proof.
  destruct (write_file_read_file v0 0 [tmp] note 0 [tmp] 1 ∅ text v0_mounted components_ok) as (f & s1 & s2 & H1 & _ & H2 & _ & H3 & _);
    [by vm_compute|exact s0_inv|exact names_ok|by vm_compute|by vm_compute|by left|by vm_compute|].
  exists f, s1, s2. done.
Defined.

(** A file of eight bytes, read from offset 2 with buffers of 3 and 10 bytes. *)
Definition s1 : RamStore := mkStore {[ 0 := mkRam 1000 Regular DEFAULT_FILE (RamFile text) None ]} 1 1001 1000.
Definition v1 : VFS RamStore Z Z := mkVFS s1 None [].

Lemma s1_inv : fl_inv s1.
Proof. split; [|apply (bool_decide_unpack _); by vm_compute]. cbn. intros i Hi. apply lookup_singleton_None. lia. Qed.

Lemma fd_reads_sequential_witness :
  ∃ s', fd_reads [3; 10] (mkFD 0 2 0) v1 = (Ok (drop 2 text, mkFD 0 8 0), set_store s' v1) ∧ same_view s1 s'.
Proof.
  destruct (fd_reads_sequential [3; 10] v1 (mkFD 0 2 0) text s1_inv) as (s' & E & Hs');
    [by vm_compute|by vm_compute|by vm_compute|repeat constructor; by vm_compute|].
  exists s'. split; [exact E|exact Hs'].
Defined.

End RamExample.
