(* ===== verification/SystemFS.v ===== *)
(** * The file systems of the kernel together

    The kernel's inodes are CottonFS, RAM and device inodes behind [dyn Inode]:
    here one type over one store, with the start-up of [fs/mod.rs] that chooses the
    root file system and mounts the devices. *)

From S2P Require Import Prelude Bytes Vfs Storage DiskLayout CottonFS CottonMeta CottonMount RamFS DevFS Files FilesSpec RamSpec.

(** ** CottonFS behind the traits *)

Section System.
Context {D : Type} `{BlockDevice D}.

(** The memory after the buffer, as in [CottonFS]. *)
Variable beyond : list Z.

#[local] Instance CottonInode_ops : InodeOps (FS D) Z := {
  inode_ino o := c ← get_obj o; mret (ci_ino c);
  inode_file_type o := c ← get_obj o; mret (ci_file_type c);
  inode_stat := CottonFS.stat;
  inode_read := CottonFS.read;
  inode_write := CottonFS.write;
  inode_readdir := CottonFS.readdir;
  inode_lookup := CottonFS.lookup beyond;
  inode_create := CottonFS.create beyond;
  inode_mkdir := CottonFS.mkdir beyond;
  inode_unlink := CottonFS.unlink;
  inode_truncate := CottonFS.truncate;
  inode_sync_ := CottonFS.inode_sync;
}.

#[export] Instance CottonFS_ops : FileSystemOps (FS D) Z unit := {
  fs_name _ := "cottonfs";
  fs_root _ := s ← m_get; mret (CottonFS.root s);
  fs_sync_ _ := fs_sync;
  fs_statfs _ := s ← m_get; mret (get_stats s);
}.

(** ** [dyn Inode] and [dyn FileSystem] *)

Record SysStore : Type := mkSys { cotton : FS D; ram : RamStore; dev : DevStore }.

Inductive SysInode : Type := InCotton (o : Z) | InRam (i : Z) | InDev (d : DevInode).

#[export] Instance SysInode_eq_dec : EqDecision SysInode.
Proof. solve_decision. Defined.

Inductive SysFileSystem : Type := FsCotton | FsRam (r : Z) | FsDev.

Definition on_cotton {A} (m : M (FS D) A) : M SysStore A := λ s,
  let '(r, c) := m (cotton s) in (r, mkSys c (ram s) (dev s)).
Definition on_ram {A} (m : M RamStore A) : M SysStore A := λ s,
  let '(r, c) := m (ram s) in (r, mkSys (cotton s) c (dev s)).
Definition on_dev {A} (m : M DevStore A) : M SysStore A := λ s,
  let '(r, c) := m (dev s) in (r, mkSys (cotton s) (ram s) c).

Definition as_cotton (m : M (FS D) Z) : M SysStore SysInode := o ← on_cotton m; mret (InCotton o).
Definition as_ram (m : M RamStore Z) : M SysStore SysInode := o ← on_ram m; mret (InRam o).
Definition as_dev (m : M DevStore DevInode) : M SysStore SysInode := o ← on_dev m; mret (InDev o).

(** Dynamic dispatch. *)
#[local] Instance SysInode_ops : InodeOps SysStore SysInode := {
  inode_ino i := match i with
    | InCotton o => on_cotton (inode_ino o) | InRam o => on_ram (inode_ino o) | InDev o => on_dev (inode_ino o) end;
  inode_file_type i := match i with
    | InCotton o => on_cotton (inode_file_type o) | InRam o => on_ram (inode_file_type o) | InDev o => on_dev (inode_file_type o) end;
  inode_stat i := match i with
    | InCotton o => on_cotton (inode_stat o) | InRam o => on_ram (inode_stat o) | InDev o => on_dev (inode_stat o) end;
  inode_read i off n := match i with
    | InCotton o => on_cotton (inode_read o off n) | InRam o => on_ram (inode_read o off n) | InDev o => on_dev (inode_read o off n) end;
  inode_write i off buf := match i with
    | InCotton o => on_cotton (inode_write o off buf) | InRam o => on_ram (inode_write o off buf) | InDev o => on_dev (inode_write o off buf) end;
  inode_readdir i := match i with
    | InCotton o => on_cotton (inode_readdir o) | InRam o => on_ram (inode_readdir o) | InDev o => on_dev (inode_readdir o) end;
  inode_lookup i name := match i with
    | InCotton o => r ← on_cotton (inode_lookup o name); mret (InCotton <$> r)
    | InRam o => r ← on_ram (inode_lookup o name); mret (InRam <$> r)
    | InDev o => r ← on_dev (inode_lookup o name); mret (InDev <$> r) end;
  inode_create i name := match i with
    | InCotton o => as_cotton (inode_create o name) | InRam o => as_ram (inode_create o name) | InDev o => as_dev (inode_create o name) end;
  inode_mkdir i name := match i with
    | InCotton o => as_cotton (inode_mkdir o name) | InRam o => as_ram (inode_mkdir o name) | InDev o => as_dev (inode_mkdir o name) end;
  inode_unlink i name := match i with
    | InCotton o => on_cotton (inode_unlink o name) | InRam o => on_ram (inode_unlink o name) | InDev o => on_dev (inode_unlink o name) end;
  inode_truncate i n := match i with
    | InCotton o => on_cotton (inode_truncate o n) | InRam o => on_ram (inode_truncate o n) | InDev o => on_dev (inode_truncate o n) end;
  inode_sync_ i := match i with
    | InCotton o => on_cotton (inode_sync_ o) | InRam o => on_ram (inode_sync_ o) | InDev o => on_dev (inode_sync_ o) end;
}.

#[export] Instance SysFS_ops : FileSystemOps SysStore SysInode SysFileSystem := {
  fs_name f := match f with FsCotton => fs_name tt | FsRam r => fs_name r | FsDev => "devfs" end;
  fs_root f := match f with
    | FsCotton => as_cotton (fs_root tt) | FsRam r => as_ram (fs_root r) | FsDev => as_dev (fs_root tt) end;
  fs_sync_ f := match f with
    | FsCotton => on_cotton (fs_sync_ tt) | FsRam r => on_ram (fs_sync_ r) | FsDev => on_dev (fs_sync_ tt) end;
  fs_statfs f := match f with
    | FsCotton => on_cotton (fs_statfs tt) | FsRam r => on_ram (fs_statfs r) | FsDev => on_dev (fs_statfs tt) end;
}.

Definition SysVFS : Type := VFS SysStore SysInode SysFileSystem.

(** ** Start-up *)

(** The root file system: CottonFS on the first disk, or the RAM file system when
    there is no disk or CottonFS cannot be made on it. *)
Definition choose_rootfs (has_disk : bool) : M SysStore SysFileSystem := λ s,
  let ramfs := (r ← on_ram RamFS_new; mret (FsRam r)) in
  if has_disk then
    match on_cotton (CottonFS_new beyond) s with
    | (Ok _, s) => (Ok FsCotton, s)
    | (Err _, s) => ramfs s
    | (Panic, s) => (Panic, s)
    end
  else ramfs s.

(** [fs::init] *)
Definition sys_init (has_disk : bool) : M SysVFS unit :=
  rootfs ← on_store (choose_rootfs has_disk);
  fs_init rootfs FsDev.

(** [get_storage_info]: the first mount of a CottonFS on "/". *)
Fixpoint storage_info_of_mounts (ms : list (MountPoint SysInode SysFileSystem)) : M SysStore (option StorageInfo) :=
  match ms with
  | [] => mret None
  | m :: ms =>
      if bool_decide (mount_path m = [slash]) && bool_decide (fs_name (mount_fs m) = "cottonfs") then λ s,
        match fs_statfs (mount_fs m) s with
        | (Ok st, s) => (Ok (Some (storage_info_of_stats st)), s)
        | (Err _, s) => storage_info_of_mounts ms s
        | (Panic, s) => (Panic, s)
        end
      else storage_info_of_mounts ms
  end.

Definition sys_storage_info : M SysVFS (option StorageInfo) := v ← m_get; on_store (storage_info_of_mounts (mounts v)).

End System.

Arguments SysStore D : clear implicits.
Arguments SysVFS D : clear implicits.

(** ** Concrete runs *)

Module SystemExample.
Import RamDisk.

#[local] Instance example_inodes : InodeOps (SysStore ram_disk) SysInode := SysInode_ops [].

(** A kernel that starts without a disk. *)
Definition v0 : SysVFS ram_disk := mkVFS (mkSys (blank_fs MountExample.ram0) ram_empty dev_init) None [].
Definition v1 : SysVFS ram_disk := (sys_init [] false v0).2.

Definition at_path {A} (m : list Z → M (SysVFS ram_disk) A) (p : string) : res A := (m (bytes_of_string p) v1).1.

(** The directories and files of the start-up are there, and the devices are mounted. *)
Lemma sys_init_ram :
  (sys_init [] false v0).1 = Ok tt ∧
  at_path read_file "/etc/hostname" = Ok (bytes_of_string "cottonos") ∧
  at_path lookup "/dev/null" = Ok (InDev DevNull) ∧
  Forall (λ p, ∃ i, (lookup p v1).1 = Ok i) standard_dirs.
Proof.
  split; [by vm_compute|]. split; [by vm_compute|]. split; [by vm_compute|].
  repeat (constructor; [vm_compute; eexists; reflexivity|]). constructor.
Qed.

(** A mount is found by the text of the path: "/./dev/null" and "//dev/null" name the
    empty directory under the mount, and ".." does not leave a mount or a RAM
    directory. *)
Theorem mount_bypassed :
  at_path lookup "/dev/null" = Ok (InDev DevNull) ∧
  at_path lookup "/./dev/null" = Err "Not found" ∧ at_path lookup "//dev/null" = Err "Not found" ∧
  at_path lookup "/dev/../etc" = Err "No parent" ∧ at_path lookup "/home/user/.." = Err "No parent".
Proof. repeat split; by vm_compute. Qed.

(** [remove] unlinks a directory with its contents from the RAM file system, and
    succeeds on names that do not exist. *)
Theorem ram_remove_unchecked :
  at_path remove "/home" = Ok tt ∧ at_path remove "/no-such-file" = Ok tt.
Proof. split; by vm_compute. Qed.

(** A path without a leading slash loses its first character. *)
Theorem relative_path_truncated : at_path lookup "xetc/hostname" = at_path lookup "/etc/hostname".
Proof. by vm_compute. Qed.

End SystemExample.
