(* ===== verification/Syscall.v ===== *)
(** * System calls: [syscall/mod.rs], [syscall/handlers.rs]

    The dispatcher and its handlers over the scheduler, the files and the memory a
    pointer of the caller reaches; and the entry from interrupt 0x80, which takes the
    arguments from the registers on the stack ([syscall_handler_inner] of
    [arch/x86_64/idt.rs]).  Any file system will do.  How [Stat] lies in memory is
    left to the compiler by the source, and is a parameter here. *)

From S2P Require Import Prelude Bytes Vfs Files Process Scheduler.

Definition SYS_EXIT : Z := 0.
Definition SYS_FORK : Z := 1.
Definition SYS_EXEC : Z := 2.
Definition SYS_WAIT : Z := 3.
Definition SYS_GETPID : Z := 4.
Definition SYS_GETPPID : Z := 5.
Definition SYS_YIELD : Z := 6.
Definition SYS_SLEEP : Z := 7.
Definition SYS_OPEN : Z := 10.
Definition SYS_CLOSE : Z := 11.
Definition SYS_READ : Z := 12.
Definition SYS_WRITE : Z := 13.
Definition SYS_SEEK : Z := 14.
Definition SYS_STAT : Z := 15.
Definition SYS_FSTAT : Z := 16.
Definition SYS_MKDIR : Z := 20.
Definition SYS_RMDIR : Z := 21.
Definition SYS_UNLINK : Z := 22.
Definition SYS_CHDIR : Z := 24.
Definition SYS_GETCWD : Z := 25.
Definition SYS_BRK : Z := 30.
Definition SYS_UNAME : Z := 40.
Definition SYS_TIME : Z := 41.
Definition SYS_UPTIME : Z := 42.

Definition ENOENT : Z := -2.
Definition ESRCH : Z := -3.
Definition EIO : Z := -5.
Definition ENOEXEC : Z := -8.
Definition ECHILD : Z := -10.
Definition ENOMEM : Z := -12.
Definition EFAULT : Z := -14.
Definition ENOTDIR : Z := -20.
Definition EINVAL : Z := -22.
Definition ENOSYS : Z := -38.

Definition isize : Z → Z := to_signed 64.

(** ** The caller's memory *)

Definition load (mem : arr Z) (addr n : Z) : list Z := map (λ i, arr_get mem (addr + i)) (seqZ 0 n).

Fixpoint store_bytes (mem : arr Z) (addr : Z) (bs : list Z) : arr Z :=
  match bs with
  | [] => mem
  | b :: bs => store_bytes (arr_set mem addr b) (addr + 1) bs
  end.

(** [byte as char], in UTF-8. *)
Definition latin1 (byte : Z) : list Z :=
  if byte <? 0x80 then [byte] else [Z.lor 0xC0 (Z.shiftr byte 6); Z.lor 0x80 (Z.land byte 0x3F)].

(** The loop stops by itself when the string has more than 4096 bytes. *)
Fixpoint read_string (fuel : nat) (mem : arr Z) (addr : Z) (s : list Z) : option (list Z) :=
  match fuel with
  | O => None
  | S fuel =>
      let byte := arr_get mem addr in
      if byte =? 0 then Some s
      else
        let s := s ++ latin1 byte in
        if 4096 <? len s then None else read_string fuel mem (addr + 1) s
  end.

Definition read_string_from_user (mem : arr Z) (ptr : Z) : option (list Z) :=
  if ptr =? 0 then None else read_string (Z.to_nat 4098) mem ptr [].

Definition read_bytes_from_user (mem : arr Z) (ptr n : Z) : option (list Z) :=
  if ptr =? 0 then None else Some (load mem ptr n).

Definition write_to_user (mem : arr Z) (ptr : Z) (data : list Z) : option (arr Z) :=
  if ptr =? 0 then None else Some (store_bytes mem ptr data).

Definition write_string_to_user (mem : arr Z) (ptr : Z) (s : list Z) : option (arr Z) :=
  if ptr =? 0 then None else Some (arr_set (store_bytes mem ptr s) (ptr + len s) 0).

(** ** The handlers *)

(** [copy_str_to_array] into an array of 65 zeros. *)
Definition uname_field (s : string) : list Z :=
  let bytes := bytes_of_string s in
  let n := Nat.min (length bytes) 64 in
  take n bytes ++ zeros (65 - Z.of_nat n).

Definition uname : list Z :=
  uname_field "CottonOS" ++ uname_field "cotton" ++ uname_field "0.1.0" ++ uname_field "#1" ++ uname_field "x86_64".

Section Handlers.

Context {St I F : Type} `{!InodeOps St I, !FileSystemOps St I F}.

(** The layout of [Stat]. *)
Variable stat_bytes : Stat → list Z.

(** What happens between two schedulings of a caller that waits, and how many. *)
Variable fuel : nat.
Variable env : nat → Kernel → Kernel.

Record Sys : Type := mkSyscall { kern : Kernel; files : VFS St I F; umem : arr Z; console : list Z }.

(** A call that has not returned when the fuel is out is [None]. *)
Definition Call : Type := Sys → option (res Z * Sys).

Definition set_kern (k : Kernel) (s : Sys) : Sys := mkSyscall k (files s) (umem s) (console s).
Definition set_files (v : VFS St I F) (s : Sys) : Sys := mkSyscall (kern s) v (umem s) (console s).
Definition set_umem (m : arr Z) (s : Sys) : Sys := mkSyscall (kern s) (files s) m (console s).

Definition returns (r : Z) : Call := λ s, Some (Ok r, s).

(** A pointer to a path, and what to do with the path. *)
Definition with_path (ptr : Z) (f : list Z → Call) : Call := λ s,
  match read_string_from_user (umem s) ptr with Some path => f path s | None => Some (Ok EFAULT, s) end.

(** An operation on the files: what its value returns, and the error it becomes. *)
Definition on_files {A} (m : M (VFS St I F) A) (ok : A → Call) (error : Z) : Call := λ s,
  match m (files s) with
  | (Ok a, v) => ok a (set_files v s)
  | (Err _, v) => Some (Ok error, set_files v s)
  | (Panic, v) => Some (Panic, set_files v s)
  end.

Definition sys_exit (status : Z) : Call := λ s, Some (Ok 0, set_kern (exit status (kern s)) s).

Definition sys_fork : Call := λ s,
  let '(r, k) := fork (kern s) in
  Some (Ok (default ENOMEM r), set_kern k s).

Definition sys_exec (path_ptr : Z) : Call :=
  with_path path_ptr (λ _ s, match exec with Ok _ => Some (Ok 0, s) | _ => Some (Ok ENOEXEC, s) end).

Definition sys_wait (pid : Z) : Call := λ s,
  '(status, k) ← wait fuel env 0 (u32 pid) (kern s);
  Some (Ok (default ECHILD status), set_kern k s).

Definition sys_getpid : Call := λ s, Some (Ok (match current (kern s) with Some p => pid p | None => ESRCH end), s).

Definition sys_getppid : Call := λ s,
  Some (Ok (match current (kern s) with Some p => default 0 (parent p) | None => ESRCH end), s).

Definition sys_yield : Call := λ s, Some (Ok 0, set_kern (yield_now (kern s)) s).

Definition sys_sleep (ms : Z) : Call := λ s,
  k ← sleep_ms fuel env ms (kern s); Some (Ok 0, set_kern k s).

Definition sys_open (path_ptr : Z) : Call := with_path path_ptr (λ path, on_files (lookup path) (λ _, returns 0) ENOENT).

Definition sys_close : Call := returns 0.
Definition sys_read : Call := returns ENOSYS.

Definition sys_write (fd buf_ptr count : Z) : Call := λ s,
  if (fd =? 1) || (fd =? 2) then
    match read_bytes_from_user (umem s) buf_ptr count with
    | Some buf => Some (Ok (isize count), mkSyscall (kern s) (files s) (umem s) (console s ++ (buf ≫= latin1)))
    | None => Some (Ok EFAULT, s)
    end
  else Some (Ok ENOSYS, s).

Definition sys_seek : Call := returns ENOSYS.

Definition sys_stat (path_ptr stat_ptr : Z) : Call :=
  with_path path_ptr (λ path, on_files (stat path) (λ st s,
    match write_to_user (umem s) stat_ptr (stat_bytes st) with
    | Some m => Some (Ok 0, set_umem m s)
    | None => Some (Ok EFAULT, s)
    end) ENOENT).

Definition sys_fstat : Call := returns ENOSYS.

Definition sys_mkdir (path_ptr : Z) : Call := with_path path_ptr (λ path, on_files (mkdir path) (λ _, returns 0) EIO).
Definition sys_rmdir (path_ptr : Z) : Call := with_path path_ptr (λ path, on_files (remove path) (λ _, returns 0) EIO).
Definition sys_unlink (path_ptr : Z) : Call := with_path path_ptr (λ path, on_files (remove path) (λ _, returns 0) EIO).

Definition sys_chdir (path_ptr : Z) : Call :=
  with_path path_ptr (λ path, on_files (lookup path) (λ i,
    on_files (on_store (inode_file_type i)) (λ ft, returns (if decide (ft = Directory) then 0 else ENOTDIR)) ENOENT) ENOENT).

Definition sys_getcwd (buf_ptr size : Z) : Call := λ s,
  match current (kern s) with
  | None => Some (Ok ESRCH, s)
  | Some p =>
      let cwd := bytes_of_string (cwd p) in
      if size <? len cwd + 1 then Some (Ok EINVAL, s)
      else
        match write_string_to_user (umem s) buf_ptr cwd with
        | Some m => Some (Ok (isize (len cwd)), set_umem m s)
        | None => Some (Ok EFAULT, s)
        end
  end.

Definition sys_brk : Call := returns ENOSYS.

Definition sys_uname (buf_ptr : Z) : Call := λ s,
  match write_to_user (umem s) buf_ptr uname with
  | Some m => Some (Ok 0, set_umem m s)
  | None => Some (Ok EFAULT, s)
  end.

Definition sys_time : Call := λ s, Some (Ok (isize (tick_count (kern s))), s).
Definition sys_uptime : Call := λ s, Some (Ok (isize (tick_count (kern s))), s).

(** ** The dispatcher *)

Definition handle (num arg1 arg2 arg3 arg4 arg5 : Z) : Call :=
  if num =? SYS_EXIT then sys_exit (to_signed 32 arg1)
  else if num =? SYS_FORK then sys_fork
  else if num =? SYS_EXEC then sys_exec arg1
  else if num =? SYS_WAIT then sys_wait arg1
  else if num =? SYS_GETPID then sys_getpid
  else if num =? SYS_GETPPID then sys_getppid
  else if num =? SYS_YIELD then sys_yield
  else if num =? SYS_SLEEP then sys_sleep arg1
  else if num =? SYS_OPEN then sys_open arg1
  else if num =? SYS_CLOSE then sys_close
  else if num =? SYS_READ then sys_read
  else if num =? SYS_WRITE then sys_write arg1 arg2 arg3
  else if num =? SYS_SEEK then sys_seek
  else if num =? SYS_STAT then sys_stat arg1 arg2
  else if num =? SYS_FSTAT then sys_fstat
  else if num =? SYS_MKDIR then sys_mkdir arg1
  else if num =? SYS_RMDIR then sys_rmdir arg1
  else if num =? SYS_UNLINK then sys_unlink arg1
  else if num =? SYS_CHDIR then sys_chdir arg1
  else if num =? SYS_GETCWD then sys_getcwd arg1 arg2
  else if num =? SYS_BRK then sys_brk
  else if num =? SYS_UNAME then sys_uname arg1
  else if num =? SYS_TIME then sys_time
  else if num =? SYS_UPTIME then sys_uptime
  else returns ENOSYS.

(** ** The entry from the interrupt *)

(** The registers [syscall_handler] saves. *)
Record UserRegs : Type := mkUser {
  rax : Z; rbx : Z; rcx : Z; rdx : Z; rsi : Z; rdi : Z; rbp : Z;
  r8 : Z; r9 : Z; r10 : Z; r11 : Z; r12 : Z; r13 : Z; r14 : Z; r15 : Z;
}.

(** The frame, from the last register pushed. *)
Definition push_frame (u : UserRegs) : list Z :=
  reverse [rax u; rbx u; rcx u; rdx u; rsi u; rdi u; rbp u; r8 u; r9 u; r10 u; r11 u; r12 u; r13 u; r14 u; r15 u].

Definition pop_frame (frame : list Z) : UserRegs :=
  let r i := default 0 (frame !! i) in
  mkUser (r 14%nat) (r 13%nat) (r 12%nat) (r 11%nat) (r 10%nat) (r 9%nat) (r 8%nat) (r 7%nat) (r 6%nat) (r 5%nat)
    (r 4%nat) (r 3%nat) (r 2%nat) (r 1%nat) (r 0%nat).

(** The number and the arguments, and the result, which is dropped. *)
Definition syscall_handler_inner (frame : list Z) (s : Sys) : option (res unit * Sys) :=
  let r i := default 0 (frame !! i) in
  '(result, s) ← handle (r 14%nat) (r 9%nat) (r 8%nat) (r 7%nat) (r 6%nat) (r 5%nat) s;
  Some (match result with Ok _ => Ok tt | Err e => Err e | Panic => Panic end, s).

(** The handler around it: the registers the caller has afterwards. *)
Definition syscall_handler (u : UserRegs) (s : Sys) : option (res UserRegs * Sys) :=
  let frame := push_frame u in
  '(r, s) ← syscall_handler_inner frame s;
  Some (match r with Ok _ => Ok (pop_frame frame) | Err e => Err e | Panic => Panic end, s).

End Handlers.
