(* ===== verification/SyscallSpec.v ===== *)
(** * System calls: strings, errors, and the entry *)

From S2P Require Import Prelude Bytes Vfs Files Process Scheduler SchedulerSpec RamFS FilesSpec RamSpec Syscall.

(** ** Strings in the caller's memory *)

(** [s] and its terminator lie at [ptr]. *)
Definition c_string (mem : arr Z) (ptr : Z) (s : list Z) : Prop :=
  (∀ i b, s !! i = Some b → arr_get mem (ptr + Z.of_nat i) = b) ∧ arr_get mem (ptr + len s) = 0.

(** ASCII without NUL. *)
Definition plain (s : list Z) : Prop := Forall (λ b, 0 < b < 128) s.

Lemma c_string_cons mem ptr b s : c_string mem ptr (b :: s) → arr_get mem ptr = b ∧ c_string mem (ptr + 1) s.
Proof.
  intros [H H0]. split; [rewrite <-(H 0%nat b eq_refl); f_equal; cbn; lia|]. split.
  - intros i c Hi. rewrite <-(H (S i) c Hi). f_equal. lia.
  - rewrite <-H0. f_equal. unfold len. cbn [length]. lia.
Qed.

Lemma read_string_plain mem s : ∀ fuel ptr acc, plain s → c_string mem ptr s → (length s < fuel)%nat → len acc + len s ≤ 4096 →
  read_string fuel mem ptr acc = Some (acc ++ s).
Proof.
  induction s as [|b s IH]; intros fuel ptr acc Hs Hc Hf Hl; (destruct fuel as [|fuel]; [cbn in Hf; lia|]); cbn [read_string].
  - destruct Hc as [_ H0]. unfold len in H0. cbn in H0. rewrite Z.add_0_r in H0. rewrite H0. by rewrite app_nil_r.
  - inversion Hs as [|? ? Hb Hs']; subst. apply c_string_cons in Hc as [-> Hc].
    rewrite (proj2 (Z.eqb_neq b 0)) by lia. unfold latin1. rewrite (proj2 (Z.ltb_lt b 0x80)) by lia.
    assert (len (b :: s) = 1 + len s) as Hbs by (unfold len; cbn [length]; lia). pose proof (len_nonneg s).
    assert (len (acc ++ [b]) = len acc + 1) as Ha by by rewrite len_app.
    rewrite Ha, (proj2 (Z.ltb_ge _ _)) by lia. rewrite IH; [by rewrite <-app_assoc|done|done|cbn in Hf; lia|lia].
Qed.

Lemma read_string_long mem s : ∀ fuel ptr acc, plain s → (∀ i b, s !! i = Some b → arr_get mem (ptr + Z.of_nat i) = b) →
  4096 < len acc + len s → len acc ≤ 4096 → read_string fuel mem ptr acc = None.
Proof.
  induction s as [|b s IH]; intros fuel ptr acc Hs Hc Hl Ha; (destruct fuel as [|fuel]; [done|]); cbn [read_string].
  - change (len (@nil Z)) with 0 in Hl. lia.
  - inversion Hs as [|? ? Hb Hs']; subst. pose proof (Hc 0%nat b eq_refl) as H0. rewrite Z.add_0_r in H0. rewrite H0.
    rewrite (proj2 (Z.eqb_neq b 0)) by lia. unfold latin1. rewrite (proj2 (Z.ltb_lt b 0x80)) by lia.
    assert (len (b :: s) = 1 + len s) as Hbs by (unfold len; cbn [length]; lia).
    assert (len (acc ++ [b]) = len acc + 1) as Hab by by rewrite len_app.
    destruct (Z.ltb_spec 4096 (len (acc ++ [b]))); [done|]. apply IH; [done| |lia|lia].
    intros i c Hi. rewrite <-(Hc (S i) c Hi). f_equal. lia.
Qed.

Lemma store_bytes_get mem ptr bs j :
  arr_get (store_bytes mem ptr bs) j = if decide (ptr ≤ j < ptr + len bs) then default 0 (bs !! Z.to_nat (j - ptr)) else arr_get mem j.
Proof.
  revert mem ptr. induction bs as [|b bs IH]; intros mem ptr; cbn [store_bytes].
  - rewrite decide_False by (change (len (@nil Z)) with 0; lia). done.
  - assert (len (b :: bs) = 1 + len bs) as -> by (unfold len; cbn [length]; lia). rewrite IH, arr_get_set. pose proof (len_nonneg bs).
    repeat case_decide; try lia; try done.
    + by replace (Z.to_nat (j - ptr)) with (S (Z.to_nat (j - (ptr + 1)))) by lia.
    + by replace (Z.to_nat (j - ptr)) with O by lia.
Qed.

Lemma write_string_c_string mem ptr s m : write_string_to_user mem ptr s = Some m → c_string m ptr s.
Proof.
  unfold write_string_to_user. destruct (ptr =? 0); [done|]. intros [= <-]. split.
  - intros i b Hi. apply lookup_lt_Some in Hi as Hl. rewrite arr_get_set_ne by (unfold len; lia).
    rewrite store_bytes_get, decide_True by (unfold len; lia). replace (Z.to_nat (ptr + Z.of_nat i - ptr)) with i by lia. by rewrite Hi.
  - apply arr_get_set_eq.
Qed.

Lemma read_user_string mem ptr s : ptr ≠ 0 → plain s → c_string mem ptr s →
  read_string_from_user mem ptr = if len s <=? 4096 then Some s else None.
Proof.
  intros Hp Hs Hc. unfold read_string_from_user. rewrite (proj2 (Z.eqb_neq _ _) Hp). destruct (Z.leb_spec (len s) 4096).
  - apply (read_string_plain mem s); [done|done|unfold len in *; lia|done].
  - apply (read_string_long mem s); [done|apply Hc|by change (len (@nil Z)) with 0|by change (len (@nil Z)) with 0].
Qed.

(** ** The calls *)

Section Calls.

Context {St I F : Type} `{!InodeOps St I, !FileSystemOps St I F}.
Context (stat_bytes : Stat → list Z) (fuel : nat) (env : nat → Kernel → Kernel).

(** What a call on the files returns: 0, or one error for all that can go wrong. *)
Definition path_result {A} (m : M (VFS St I F) A) (error : Z) (s : @Sys St I F) : option (res Z * Sys) :=
  match m (files s) with
  | (Ok _, v) => Some (Ok 0, set_files v s)
  | (Err _, v) => Some (Ok error, set_files v s)
  | (Panic, v) => Some (Panic, set_files v s)
  end.

Definition implemented : list Z :=
  [SYS_EXIT; SYS_FORK; SYS_EXEC; SYS_WAIT; SYS_GETPID; SYS_GETPPID; SYS_YIELD; SYS_SLEEP; SYS_OPEN; SYS_CLOSE; SYS_WRITE;
   SYS_STAT; SYS_MKDIR; SYS_RMDIR; SYS_UNLINK; SYS_CHDIR; SYS_GETCWD; SYS_UNAME; SYS_TIME; SYS_UPTIME].

Lemma handle_not_implemented num a1 a2 a3 a4 a5 (s : @Sys St I F) :
  num ∉ implemented → handle stat_bytes fuel env num a1 a2 a3 a4 a5 s = Some (Ok ENOSYS, s).
Proof.
  intros H. unfold handle. repeat match goal with |- context [num =? ?n] => destruct (Z.eqb_spec num n) as [->|_] end;
    try done; exfalso; apply H; unfold implemented; set_solver.
Qed.

(** C28: the system calls.  A number that no handler serves is refused and changes
    nothing, as is a null path; a path of plain ASCII at [ptr] is the path the file
    system sees, unless it is longer than 4096 bytes, and open, mkdir, rmdir and
    unlink then return what became of it; and the directory [getcwd] stores can be
    read back as a path. *)
Theorem syscall_paths (s : @Sys St I F) num ptr path a2 a3 a4 a5 :
  ptr ≠ 0 → plain path → c_string (umem s) ptr path →
  (num ∉ implemented → handle stat_bytes fuel env num ptr a2 a3 a4 a5 s = Some (Ok ENOSYS, s)) ∧
  (num ∈ [SYS_EXEC; SYS_OPEN; SYS_STAT; SYS_MKDIR; SYS_RMDIR; SYS_UNLINK; SYS_CHDIR] →
     handle stat_bytes fuel env num 0 a2 a3 a4 a5 s = Some (Ok EFAULT, s) ∧
     (4096 < len path → handle stat_bytes fuel env num ptr a2 a3 a4 a5 s = Some (Ok EFAULT, s))) ∧
  (len path ≤ 4096 →
     handle stat_bytes fuel env SYS_OPEN ptr a2 a3 a4 a5 s = path_result (lookup path) ENOENT s ∧
     handle stat_bytes fuel env SYS_MKDIR ptr a2 a3 a4 a5 s = path_result (mkdir path) EIO s ∧
     handle stat_bytes fuel env SYS_RMDIR ptr a2 a3 a4 a5 s = path_result (remove path) EIO s ∧
     handle stat_bytes fuel env SYS_UNLINK ptr a2 a3 a4 a5 s = path_result (remove path) EIO s) ∧
  (∀ p s', current (kern s) = Some p → plain (bytes_of_string (cwd p)) → len (bytes_of_string (cwd p)) ≤ 4096 →
     handle stat_bytes fuel env SYS_GETCWD ptr a2 a3 a4 a5 s = Some (Ok (len (bytes_of_string (cwd p))), s') →
     read_string_from_user (umem s') ptr = Some (bytes_of_string (cwd p))).
Proof.
  intros Hptr Hpath Hc. pose proof (read_user_string (umem s) ptr path Hptr Hpath Hc) as Hread. split; [|split; [|split]].
  - by apply handle_not_implemented.
  - assert (∀ q : Z, read_string_from_user (umem s) q = None →
      num ∈ [SYS_EXEC; SYS_OPEN; SYS_STAT; SYS_MKDIR; SYS_RMDIR; SYS_UNLINK; SYS_CHDIR] →
      handle stat_bytes fuel env num q a2 a3 a4 a5 s = Some (Ok EFAULT, s)) as Hnone.
    { intros q Hq Hnum. repeat (apply elem_of_cons in Hnum as [-> | Hnum]; [unfold handle; cbn -[read_string_from_user];
        unfold sys_exec, sys_open, sys_stat, sys_mkdir, sys_rmdir, sys_unlink, sys_chdir, with_path; by rewrite Hq|]). by apply elem_of_nil in Hnum. }
    intros Hnum. split; [by apply Hnone|]. intros Hlong. apply Hnone; [|done]. by rewrite Hread, (proj2 (Z.leb_gt _ _)).
  - intros Hl. rewrite (proj2 (Z.leb_le _ _) Hl) in Hread.
    repeat split; unfold handle; cbn -[read_string_from_user lookup mkdir remove];
      unfold sys_open, sys_mkdir, sys_rmdir, sys_unlink, with_path; rewrite Hread; unfold on_files, path_result, returns; by repeat case_match.
  - intros p s' Hp Hcwd Hl. unfold handle. cbn -[read_string_from_user]. unfold sys_getcwd. rewrite Hp.
    destruct (a2 <? _); [intros [= E _]; exfalso; pose proof (len_nonneg (bytes_of_string (cwd p))); unfold EINVAL in E; lia|].
    destruct (write_string_to_user (umem s) ptr (bytes_of_string (cwd p))) as [m|] eqn:E.
    + intros [= _ <-]. apply write_string_c_string in E. cbn [umem set_umem]. rewrite (read_user_string m ptr _ Hptr Hcwd E).
      by rewrite (proj2 (Z.leb_le _ _) Hl).
    + intros [= E2 _]. exfalso. pose proof (len_nonneg (bytes_of_string (cwd p))). unfold EFAULT in E2. lia.
Qed.

(** ** The entry from the interrupt

    The handler takes its second to fifth arguments from rbp, r8, r9 and r10, where
    the caller put them in rsi, rdx, r10 and r8; and the registers it restores are
    the caller's own, rax too, so that no result reaches the caller. *)
Lemma syscall_entry (u : UserRegs) (s : @Sys St I F) :
  syscall_handler stat_bytes fuel env u s =
  '(r, s) ← handle stat_bytes fuel env (rax u) (rdi u) (rbp u) (r8 u) (r9 u) (r10 u) s;
  Some (match r with Ok _ => Ok u | Err e => Err e | Panic => Panic end, s).
Proof.
  destruct u. unfold syscall_handler, syscall_handler_inner, push_frame. cbn -[handle].
  destruct (handle _ _ _ _ _ _ _ _ _ s) as [[[]]|]; done.
Qed.

End Calls.

(** A character beyond ASCII becomes two, so that its path is another one. *)
Lemma path_recoded :
  read_string_from_user (store_bytes (arr_new 4096 0) 8 [0x2F; 0xC3; 0xA9]) 8 = Some [0x2F; 0xC3; 0x83; 0xC2; 0xA9].
Proof. by vm_compute. Qed.

Module SyscallExample.

Definition mem0 : arr Z := store_bytes (arr_new 4096 0) 8 (bytes_of_string "/tmp").
Definition sys0 : @Sys RamStore Z Z := mkSyscall SchedulerExample.k1 RamExample.v0 mem0 [].
Definition no_env : nat → Kernel → Kernel := λ _ k, k.
Definition no_bytes : Stat → list Z := λ _, [].

Lemma sys0_path : plain (bytes_of_string "/tmp").
Proof. apply (bool_decide_unpack _). by vm_compute. Qed.

Lemma sys0_string : c_string (umem sys0) 8 (bytes_of_string "/tmp").
Proof.
  split; [|by vm_compute]. intros i b Hi.
  change (arr_get (store_bytes (arr_new 4096 0) 8 (bytes_of_string "/tmp")) (8 + Z.of_nat i) = b).
  apply lookup_lt_Some in Hi as Hl. rewrite store_bytes_get, decide_True by (unfold len; lia).
  replace (Z.to_nat (8 + Z.of_nat i - 8)) with i by lia. by rewrite Hi.
Qed.

Lemma tmp_found : path_result (lookup (bytes_of_string "/tmp")) ENOENT sys0 = Some (Ok 0, sys0).
Proof. by vm_compute. Qed.

Lemma not_implemented_99 : 99 ∉ implemented.
Proof. apply (bool_decide_unpack _). by vm_compute. Qed.

Lemma syscall_paths_witness :
  handle no_bytes 0 no_env SYS_OPEN 8 0 0 0 0 sys0 = Some (Ok 0, sys0) ∧
  handle no_bytes 0 no_env 99 8 0 0 0 0 sys0 = Some (Ok ENOSYS, sys0).
Proof.
  split.
  - destruct (syscall_paths no_bytes 0 no_env sys0 SYS_OPEN 8 (bytes_of_string "/tmp") 0 0 0 0 ltac:(lia) sys0_path sys0_string)
      as (_ & _ & H & _).
    etransitivity; [exact (proj1 (H ltac:(unfold len; cbn; lia)))|]. exact tmp_found.
  - destruct (syscall_paths no_bytes 0 no_env sys0 99 8 (bytes_of_string "/tmp") 0 0 0 0 ltac:(lia) sys0_path sys0_string) as (H & _).
    exact (H not_implemented_99).
Defined.

End SyscallExample.
