(* ===== verification/Str.v ===== *)
(** * Strings

    The methods of [str] the kernel uses, on the bytes of a string.  A slice that
    does not start and end at characters panics. *)

From S2P Require Import Prelude Bytes.

(** ** Characters *)

(** A [char] is the list of its bytes. *)
Fixpoint chars_fuel (fuel : nat) (l : list Z) : list (list Z) :=
  match fuel, l with
  | S fuel, _ :: _ =>
      let n := match utf8_step l with inl n => n | inr n => n end in
      take n l :: chars_fuel fuel (drop n l)
  | _, _ => []
  end.

Definition chars (l : list Z) : list (list Z) := chars_fuel (length l) l.

(** [s.pop()] *)
Definition str_pop (s : list Z) : list Z := concat (take (length (chars s) - 1) (chars s)).

(** [from_utf8(l).is_ok()] *)
Fixpoint is_utf8_fuel (fuel : nat) (l : list Z) : bool :=
  match fuel, l with
  | _, [] => true
  | O, _ => false
  | S fuel, _ => match utf8_step l with inl n => is_utf8_fuel fuel (drop n l) | inr _ => false end
  end.

Definition is_utf8 (l : list Z) : bool := is_utf8_fuel (length l) l.

(** [char::from_u32], encoded. *)
Definition char_of_u32 (v : Z) : option (list Z) :=
  if (0x10FFFF <? v) || ((0xD800 <=? v) && (v <=? 0xDFFF)) then None
  else Some (if v <? 0x80 then [v]
             else if v <? 0x800 then [0xC0 + v / 64; 0x80 + v mod 64]
             else if v <? 0x10000 then [0xE0 + v / 4096; 0x80 + v / 64 mod 64; 0x80 + v mod 64]
             else [0xF0 + v / 262144; 0x80 + v / 4096 mod 64; 0x80 + v / 64 mod 64; 0x80 + v mod 64]).

Definition is_char_boundary (s : list Z) (i : Z) : bool :=
  match s !! Z.to_nat i with Some b => negb (is_cont b) | None => i =? len s end.

(** [&s[a..b]] *)
Definition str_slice (a b : Z) (s : list Z) : res (list Z) :=
  if (a <=? b) && (b <=? len s) && is_char_boundary s a && is_char_boundary s b then Ok (slice a (b - a) s) else Panic.

(** ** Searching *)

Definition has_prefix (p s : list Z) : bool := bool_decide (p `prefix_of` s).

Definition strip_prefix (p s : list Z) : option (list Z) :=
  if has_prefix p s then Some (drop (length p) s) else None.

(** [s.find(pat)] *)
Fixpoint find_sub (p s : list Z) : option nat :=
  if has_prefix p s then Some O
  else match s with [] => None | _ :: s => S <$> find_sub p s end.

(** [s.find(c)] and [s.rfind(c)] for an ASCII character. *)
Fixpoint find_byte (c : Z) (s : list Z) : option nat :=
  match s with
  | [] => None
  | x :: s => if x =? c then Some O else S <$> find_byte c s
  end.

Fixpoint rfind_byte (c : Z) (s : list Z) : option nat :=
  match s with
  | [] => None
  | x :: s => match rfind_byte c s with Some n => Some (S n) | None => if x =? c then Some O else None end
  end.

Definition contains_byte (c : Z) (s : list Z) : bool := bool_decide (c ∈ s).

(** [s.split(c).next()] *)
Fixpoint before_byte (c : Z) (s : list Z) : list Z :=
  match s with [] => [] | x :: s => if x =? c then [] else x :: before_byte c s end.

(** [s.split(c)] *)
Fixpoint split_byte (c : Z) (s : list Z) : list (list Z) :=
  match s with
  | [] => [[]]
  | x :: s =>
      if x =? c then [] :: split_byte c s
      else match split_byte c s with [] => [[x]] | w :: ws => (x :: w) :: ws end
  end.

(** [s.lines()]: split at newlines, the last line only when it is not empty, without
    the carriage return before a newline. *)
Definition strip_cr (s : list Z) : list Z :=
  match reverse s with 13 :: r => reverse r | _ => s end.

Fixpoint drop_last_empty (ls : list (list Z)) : list (list Z) :=
  match ls with
  | [] => []
  | [l] => match l with [] => [] | _ => [l] end
  | l :: ls => strip_cr l :: drop_last_empty ls
  end.

Definition lines (s : list Z) : list (list Z) := drop_last_empty (split_byte 10 s).

(** ** Whitespace *)

(** The length of the white-space character at the head. *)
Definition ws_len (s : list Z) : nat :=
  match s with
  | [] => 0
  | b :: s =>
      if ((9 <=? b) && (b <=? 13)) || (b =? 32) then 1
      else if b =? 0xC2 then match s with c :: _ => if (c =? 0x85) || (c =? 0xA0) then 2 else 0 | [] => 0 end
      else match s with
           | c :: d :: _ =>
               if ((b =? 0xE1) && (c =? 0x9A) && (d =? 0x80)) || ((b =? 0xE2) && (c =? 0x80) &&
                    (((0x80 <=? d) && (d <=? 0x8A)) || (d =? 0xA8) || (d =? 0xA9) || (d =? 0xAF)))
                  || ((b =? 0xE2) && (c =? 0x81) && (d =? 0x9F)) || ((b =? 0xE3) && (c =? 0x80) && (d =? 0x80))
               then 3 else 0
           | _ => 0
           end
  end.

(** The length of the white-space character at the end, of the reversed string. *)
Definition ws_len_rev (s : list Z) : nat :=
  match s with
  | [] => 0
  | b :: s' =>
      if ws_len [b] =? 1 then 1
      else match s' with
           | c :: s'' =>
               if ws_len [c; b] =? 2 then 2
               else match s'' with d :: _ => if ws_len [d; c; b] =? 3 then 3 else 0 | [] => 0 end
           | [] => 0
           end
  end%nat.

Fixpoint skip_ws (ws : list Z → nat) (fuel : nat) (s : list Z) : list Z :=
  match fuel with
  | O => s
  | S fuel => match ws s with O => s | n => skip_ws ws fuel (drop n s) end
  end.

Definition trim_start (s : list Z) : list Z := skip_ws ws_len (length s) s.
Definition trim_end (s : list Z) : list Z := reverse (skip_ws ws_len_rev (length s) (reverse s)).
Definition trim (s : list Z) : list Z := trim_end (trim_start s).

(** ** ASCII *)

Definition to_lower (b : Z) : Z := if (65 <=? b) && (b <=? 90) then b + 32 else b.
Definition eq_ignore_case (a b : list Z) : bool := bool_decide (map to_lower a = map to_lower b).

(** ** Numbers *)

Definition digit_value (b : Z) : option Z :=
  if (48 <=? b) && (b <=? 57) then Some (b - 48)
  else if (97 <=? b) && (b <=? 122) then Some (b - 87)
  else if (65 <=? b) && (b <=? 90) then Some (b - 55)
  else None.

Fixpoint parse_digits (radix max acc : Z) (s : list Z) : option Z :=
  match s with
  | [] => Some acc
  | b :: s =>
      match digit_value b with
      | Some d =>
          if d <? radix then
            let acc := acc * radix + d in
            if max <? acc then None else parse_digits radix max acc s
          else None
      | None => None
      end
  end.

(** [from_str_radix] of an unsigned integer: digits after an optional plus sign. *)
Definition from_str_radix (radix max : Z) (s : list Z) : option Z :=
  match s with
  | [] => None
  | 43 :: [] => None
  | 43 :: s => parse_digits radix max 0 s
  | _ => parse_digits radix max 0 s
  end.

(** ** Splitting a text whose parts do not hold the separator *)

Lemma split_byte_ne c s : split_byte c s ≠ [].
Proof. destruct s as [|x s]; cbn; [done|]. case_match; [done|]. by case_match. Qed.

Lemma split_byte_app c l t :
  c ∉ l → split_byte c (l ++ t) = match split_byte c t with [] => [l] | w :: ws => (l ++ w) :: ws end.
Proof.
  intros Hl. pose proof (split_byte_ne c t) as Hne.
  induction l as [|x l IH]; cbn; [by destruct (split_byte c t)|]. apply not_elem_of_cons in Hl as [Hc Hl].
  rewrite (proj2 (Z.eqb_neq x c)), IH by done. by destruct (split_byte c t).
Qed.

Lemma split_byte_word c w : c ∉ w → split_byte c w = [w].
Proof. intros Hw. pose proof (split_byte_app c w [] Hw) as H. rewrite app_nil_r in H. cbn in H. by rewrite H, app_nil_r. Qed.

Lemma split_byte_sep c w s : c ∉ w → split_byte c (w ++ c :: s) = w :: split_byte c s.
Proof. intros Hw. rewrite split_byte_app by done. cbn. by rewrite Z.eqb_refl, app_nil_r. Qed.
