(* ===== verification/ShellText.v ===== *)
(** * The texts of the shell

    Numbers, sizes, addresses and paths as the shell prints and reads them, and the
    names and help of its commands; [format_bytes] is of [fs/cottonfs.rs]. *)

From S2P Require Import Prelude Bytes Str Files.

#[local] Notation "'b' s" := (bytes_of_string s) (at level 9, s at level 9, only parsing).

(** ** Formatting *)

Definition nl : list Z := [10].

Fixpoint decimal_digits (fuel : nat) (n : Z) : list Z :=
  match fuel with
  | O => []
  | Datatypes.S fuel => if n <? 10 then [48 + n] else decimal_digits fuel (n / 10) ++ [48 + n mod 10]
  end.

(** [{}] of an unsigned number; 20 digits are enough for 64 bits. *)
Definition decimal (n : Z) : list Z := decimal_digits 20 n.

(** [{:02x}] of a byte. *)
Definition hex_lower (d : Z) : Z := if d <? 10 then 48 + d else 87 + d.
Definition hex_byte (v : Z) : list Z := [hex_lower (v / 16); hex_lower (v mod 16)].

(** [{:>n}] and [{:<n}], which count characters. *)
Definition spaces (n : nat) : list Z := replicate n 32.
Definition pad_left (n : nat) (s : list Z) : list Z := spaces (n - length (chars s)) ++ s.
Definition pad_right (n : nat) (s : list Z) : list Z := s ++ spaces (n - length (chars s)).

(** [parts.join(sep)] *)
Fixpoint join_with (sep : list Z) (parts : list (list Z)) : list Z :=
  match parts with
  | [] => []
  | [p] => p
  | p :: parts => p ++ sep ++ join_with sep parts
  end.

(** [line.split_whitespace()], with the word read so far. *)
Fixpoint words_from (fuel : nat) (w s : list Z) : list (list Z) :=
  let here := if bool_decide (w = []) then [] else [w] in
  match fuel, s with
  | Datatypes.S fuel, c :: t =>
      match ws_len s with
      | O => words_from fuel (w ++ [c]) t
      | n => here ++ words_from fuel [] (drop n s)
      end
  | _, _ => here
  end.

Definition split_whitespace (s : list Z) : list (list Z) := words_from (length s) [] s.

(** *** Sizes: [cottonfs.rs], [format_bytes] *)

(** [n / d], to the nearest, a half to the even. *)
Definition round_half_even (n d : Z) : Z :=
  let q := n / d in
  let r := 2 * (n mod d) in
  if r <? d then q else if r =? d then (if Z.even q then q else q + 1) else q + 1.

(** [n as f64]: 53 bits are kept. *)
Definition as_f64 (n : Z) : Z :=
  let e := Z.max 0 (Z.log2 n - 52) in Z.shiftl (round_half_even n (2 ^ e)) e.

(** [{:.1}] of the quotient by a power of two, which is exact. *)
Definition one_decimal (n d : Z) : list Z :=
  let tenths := round_half_even (10 * as_f64 n) d in decimal (tenths / 10) ++ b "." ++ decimal (tenths mod 10).

Definition format_bytes (n : Z) : list Z :=
  if 2 ^ 30 <=? n then one_decimal n (2 ^ 30) ++ b " GB"
  else if 2 ^ 20 <=? n then one_decimal n (2 ^ 20) ++ b " MB"
  else if 2 ^ 10 <=? n then one_decimal n (2 ^ 10) ++ b " KB"
  else decimal n ++ b " B".

(** *** Addresses *)

(** [collect] of the parsed parts, when all of them parse. *)
Fixpoint parse_parts (parts : list (list Z)) : option (list Z) :=
  match parts with
  | [] => Some []
  | p :: parts => v ← from_str_radix 10 255 p; vs ← parse_parts parts; Some (v :: vs)
  end.

Definition parse_ipv4 (s : list Z) : option (list Z) :=
  let parts := split_byte 46 s in
  if negb (length parts =? 4)%nat then None else parse_parts parts.

Definition fmt_ipv4 (a : list Z) : list Z := join_with (b ".") (map decimal a).
Definition fmt_mac (m : list Z) : list Z := join_with (b ":") (map hex_byte m).

(** [args[i].parse::<u16>()], not zero *)
Definition parse_port (s : list Z) : option Z :=
  match from_str_radix 10 65535 s with
  | Some p => if 0 <? p then Some p else None
  | None => None
  end.

(** ** Paths *)

Definition is_root (p : list Z) : bool := bool_decide (p = [slash]).

(** The entry [name] of the directory at [dir]. *)
Definition under (dir name : list Z) : list Z := if is_root dir then [slash] ++ name else dir ++ [slash] ++ name.

Definition normalize_part (parts : list (list Z)) (part : list Z) : list (list Z) :=
  if bool_decide (part = []) || bool_decide (part = dot) then parts
  else if bool_decide (part = dotdot) then take (length parts - 1) parts
  else parts ++ [part].

Definition normalize_path (path : list Z) : list Z :=
  let parts := foldl normalize_part [] (split_slash path) in
  if bool_decide (parts = []) then [slash] else [slash] ++ join_with [slash] parts.

(** ** Help *)

Definition help_table : list (string * string) := [
  ("ls", "ls [path] - List directory contents");
  ("cd", "cd <path> - Change directory");
  ("pwd", "pwd - Print working directory");
  ("cat", "cat <file> - Display file contents");
  ("touch", "touch <file> - Create empty file");
  ("mkdir", "mkdir <dir> - Create directory");
  ("rm", "rm <file> - Remove file or empty directory");
  ("write", "write <file> <text> - Write text to file");
  ("df", "df - Show disk space usage (CottonFS)");
  ("sync", "sync - Force sync all data to disk");
  ("info", "info - Show system information");
  ("mem", "mem - Show memory statistics");
  ("ps", "ps - List running processes");
  ("uptime", "uptime - Show system uptime");
  ("echo", "echo <text> - Print text");
  ("net", "net - Show network interface information");
  ("netstats", "netstats - Show network packet counters");
  ("arptable", "arptable - Show ARP cache");
  ("arp", "arp <ip> - Send ARP request to host");
  ("ping", "ping <ip> - Send ICMP echo request");
  ("dhcp", "dhcp - Request IPv4 config via DHCP");
  ("dns", "dns <host> - Resolve hostname to IPv4");
  ("setip", "setip <ip> - Set interface IPv4 address");
  ("setmask", "setmask <mask> - Set netmask");
  ("setgw", "setgw <ip> - Set default gateway");
  ("setdns", "setdns <ip> - Set DNS server");
  ("tcpconnect", "tcpconnect <ip> <port> - Open TCP connection");
  ("tcpsend", "tcpsend <text> - Send TCP payload on active connection");
  ("tcprecv", "tcprecv - Read buffered TCP payload");
  ("tcpclose", "tcpclose - Close active TCP connection");
  ("httpget", "httpget <host-or-ip> [path] - Basic HTTP GET over TCP (no HTTPS)");
  ("httpsget", "httpsget <host-or-ip> [path] - HTTPS GET over in-kernel TLS");
  ("browse", "browse <url> - Fetch and render a web page as text (supports http:// and https://)");
  ("udpsend", "udpsend <ip> <src_port> <dst_port> <text> - Send UDP datagram");
  ("udprecv", "udprecv - Receive one UDP datagram");
  ("clear", "clear - Clear the screen");
  ("reboot", "reboot - Restart the system");
  ("halt", "halt - Stop the CPU")].

Definition console_help_table : list (string * string) := [
  ("ls", "ls [path] - List directory contents");
  ("cd", "cd <path> - Change directory");
  ("pwd", "pwd - Print working directory");
  ("cat", "cat <file> - Display file contents");
  ("touch", "touch <file> - Create empty file");
  ("mkdir", "mkdir <dir> - Create directory");
  ("rm", "rm <file> - Remove file or empty directory");
  ("write", "write <file> <text> - Write text to file");
  ("df", "df - Show disk space usage (CottonFS)");
  ("sync", "sync - Force write all files to disk");
  ("info", "info - Show system information");
  ("mem", "mem - Show memory statistics");
  ("ps", "ps - List running processes");
  ("uptime", "uptime - Show system uptime");
  ("echo", "echo <text> - Print text");
  ("net", "net - Show network interface information");
  ("netstats", "netstats - Show network packet counters");
  ("arptable", "arptable - Show ARP cache");
  ("arp", "arp <ip> - Send ARP request to host");
  ("ping", "ping <ip> - Send ICMP echo request");
  ("dhcp", "dhcp - Request IPv4 config via DHCP");
  ("dns", "dns <host> - Resolve hostname to IPv4");
  ("setip", "setip <ip> - Set interface IPv4 address");
  ("setmask", "setmask <mask> - Set interface netmask");
  ("setgw", "setgw <ip> - Set default gateway");
  ("setdns", "setdns <ip> - Set DNS server");
  ("tcpconnect", "tcpconnect <ip> <port> - Open TCP connection");
  ("tcpsend", "tcpsend <text> - Send TCP payload");
  ("tcprecv", "tcprecv - Read buffered TCP payload");
  ("tcpclose", "tcpclose - Close active TCP connection");
  ("httpget", "httpget <host-or-ip> [path] - Basic HTTP GET (no HTTPS)");
  ("httpsget", "httpsget <host-or-ip> [path] - HTTPS GET over TLS");
  ("udpsend", "udpsend <ip> <src_port> <dst_port> <text> - Send UDP datagram");
  ("udprecv", "udprecv - Receive one UDP datagram");
  ("clear", "clear - Clear the screen");
  ("reboot", "reboot - Restart the system");
  ("halt", "halt - Stop the CPU");
  ("panic", "panic - Trigger kernel panic (testing)")].

Fixpoint find_help (table : list (string * string)) (cmd : list Z) : option (list Z) :=
  match table with
  | [] => None
  | (name, text) :: table => if bool_decide (cmd = b name) then Some (b text) else find_help table cmd
  end.

Definition exec_help_detail (cmd : list Z) : list Z := default (b "Unknown command: " ++ cmd) (find_help help_table cmd).

Definition help_lines : list (list Z) := [
  b "Commands: help, clear, info, mem, df, ps, uptime, echo, sync, reboot, halt";
  b "Network:  net, netstats, arptable, arp, ping, dhcp, dns, setip, setmask, setgw, setdns";
  b "TCP:      tcpconnect, tcpsend, tcprecv, tcpclose, httpget, httpsget";
  b "UDP:      udpsend, udprecv"].
Definition browser_line : list Z := b "Browser:  browse <url> - fetch and render a web page".
Definition files_lines : list (list Z) := [
  b "Files:    ls, cd, pwd, cat, touch, mkdir, rm, write"; []; b "Files are stored persistently on disk (CottonFS)."].

Definition exec_help (args : list (list Z)) : list Z :=
  match args with
  | [] => join_with nl (help_lines ++ [browser_line] ++ files_lines)
  | cmd :: _ => exec_help_detail cmd
  end.
(** ** Names *)

Inductive Command : Type :=
| Chelp | Cclear | Cinfo | Cmem | Cdf | Csync | Cps | Cuptime | Cecho | Cnet | Cnetstats | Carptable | Carp
| Cping | Cdhcp | Cdns | Csetip | Csetmask | Csetgw | Csetdns | Ctcpconnect | Ctcpsend | Ctcprecv | Ctcpclose
| Chttpget | Chttpsget | Cbrowse | Cudpsend | Cudprecv | Cpanic | Creboot | Chalt | Cls | Ccd | Cpwd | Ccat
| Ctouch | Cmkdir | Crm | Cwrite.

#[export] Instance Command_eq_dec : EqDecision Command.
Proof. solve_decision. Defined.

Definition commands : list (string * Command) := [
  ("help", Chelp); ("clear", Cclear); ("info", Cinfo); ("mem", Cmem); ("df", Cdf); ("sync", Csync);
  ("ps", Cps); ("uptime", Cuptime); ("echo", Cecho); ("net", Cnet); ("netstats", Cnetstats);
  ("arptable", Carptable); ("arp", Carp); ("ping", Cping); ("dhcp", Cdhcp); ("dns", Cdns); ("setip", Csetip);
  ("setmask", Csetmask); ("setgw", Csetgw); ("setdns", Csetdns); ("tcpconnect", Ctcpconnect);
  ("tcpsend", Ctcpsend); ("tcprecv", Ctcprecv); ("tcpclose", Ctcpclose); ("httpget", Chttpget);
  ("httpsget", Chttpsget); ("browse", Cbrowse); ("udpsend", Cudpsend); ("udprecv", Cudprecv);
  ("panic", Cpanic); ("reboot", Creboot); ("halt", Chalt); ("ls", Cls); ("cd", Ccd); ("pwd", Cpwd);
  ("cat", Ccat); ("touch", Ctouch); ("mkdir", Cmkdir); ("rm", Crm); ("write", Cwrite)].

Fixpoint find_command (table : list (string * Command)) (cmd : list Z) : option Command :=
  match table with
  | [] => None
  | (name, c) :: table => if bool_decide (cmd = b name) then Some c else find_command table cmd
  end.
