(* ===== verification/Browser.v ===== *)
(** * URLs and HTTP messages: [browser.rs]

    Building and resolving URLs, the parts of a response, chunked bodies and
    character references.  What [fetch_raw] gets from the network is an argument. *)

From S2P Require Import Prelude Bytes Str.

#[local] Notation "'b' s" := (bytes_of_string s) (at level 9, s at level 9, only parsing).

(** ** URLs *)

Definition slash : Z := 47.
Definition hash : Z := 35.

Definition unfollowable (href : list Z) : bool :=
  bool_decide (href = []) || has_prefix (b "#") href || has_prefix (b "javascript:") href
  || has_prefix (b "mailto:") href || has_prefix (b "data:") href || has_prefix (b "tel:") href.

(** Scheme and the rest of the base. *)
Definition base_scheme (base : list Z) : list Z * list Z :=
  match strip_prefix (b "https://") base with
  | Some r => (b "https", r)
  | None => match strip_prefix (b "http://") base with Some r => (b "http", r) | None => (b "http", base) end
  end.

Definition resolve_url (base href : list Z) : option (list Z) :=
  let href := trim href in
  if unfollowable href then None
  else
    let href := before_byte hash href in
    if bool_decide (href = []) then None
    else if has_prefix (b "http://") href || has_prefix (b "https://") href then Some href
    else
      let '(scheme, rest) := base_scheme base in
      let host_end := default (length rest) (find_byte slash rest) in
      let host := take host_end rest in
      if bool_decide (host = []) then None
      else match strip_prefix (b "//") href with
           | Some r => Some (scheme ++ b "://" ++ r)
           | None =>
               if has_prefix [slash] href then Some (scheme ++ b "://" ++ host ++ href)
               else
                 let base_path := drop host_end rest in
                 let dir_end := match rfind_byte slash base_path with Some i => S i | None => O end in
                 let dir := if decide (dir_end = O) then [slash] else take dir_end base_path in
                 Some (scheme ++ b "://" ++ host ++ dir ++ href)
           end.

Definition hex_upper (d : Z) : Z := if d <? 10 then 48 + d else 55 + d.

Definition is_unreserved (c : Z) : bool :=
  ((65 <=? c) && (c <=? 90)) || ((97 <=? c) && (c <=? 122)) || ((48 <=? c) && (c <=? 57))
  || (c =? 45) || (c =? 95) || (c =? 46) || (c =? 126).

Definition encode_byte (c : Z) : list Z :=
  if c =? 32 then [43]
  else if is_unreserved c then [c]
  else [37; hex_upper (Z.shiftr c 4); hex_upper (Z.land c 0xF)].

Definition url_encode_query (s : list Z) : list Z := concat (map encode_byte s).

Definition build_navigate_url (input : list Z) : option (list Z) :=
  let s := trim input in
  if bool_decide (s = []) then None
  else if has_prefix (b "http://") s || has_prefix (b "https://") s then Some s
  else if negb (contains_byte 32 s) && contains_byte 46 s then Some (b "http://" ++ s)
  else Some (b "http://wiby.me/?q=" ++ url_encode_query s).

(** Whether TLS is used, the host and the path. *)
Definition split_url (url : list Z) : bool * list Z * list Z :=
  let '(https, rest) :=
    match strip_prefix (b "https://") url with
    | Some r => (true, r)
    | None => match strip_prefix (b "http://") url with Some r => (false, r) | None => (false, url) end
    end in
  match find_byte slash rest with
  | Some i => (https, take i rest, drop i rest)
  | None => (https, rest, [slash])
  end.

(** [s.splitn(5, '.')] has a fifth part exactly when there are four dots. *)
Definition parse_ipv4 (s : list Z) : option (list Z) :=
  match split_byte 46 s with
  | [s0; s1; s2; s3] =>
      a0 ← from_str_radix 10 255 s0;
      a1 ← from_str_radix 10 255 s1;
      a2 ← from_str_radix 10 255 s2;
      a3 ← from_str_radix 10 255 s3;
      Some [a0; a1; a2; a3]
  | _ => None
  end.

Definition base_origin (url : list Z) : list Z :=
  let skip := match find_sub (b "://") url with Some i => (i + 3)%nat | None => O end in
  match find_byte slash (drop skip url) with Some i => take (skip + i) url | None => url end.

(** ** Responses *)

(** The value of the header a line carries, for a name of [n] bytes: at least one
    byte after the colon is required. *)
Definition header_value (name line : list Z) : option (list Z) :=
  let n := length name in
  if (S (S n) <=? length line)%nat && bool_decide (line !! n = Some 58) && eq_ignore_case (take n line) name
  then Some (trim (drop (S n) line)) else None.

Fixpoint first_location (ls : list (list Z)) : option (list Z) :=
  match ls with
  | [] => None
  | l :: ls =>
      match header_value (b "location") l with
      | Some v => if bool_decide (v = []) then first_location ls else Some v
      | None => first_location ls
      end
  end.

Definition find_redirect_location (raw : list Z) : option (list Z) :=
  match lines raw with
  | [] => None
  | first :: _ =>
      sp ← find_byte 32 first;
      if bool_decide (first !! S sp = Some 51) then first_location (lines raw) else None
  end.

Fixpoint chunked_lines (ls : list (list Z)) : bool :=
  match ls with
  | [] => false
  | l :: ls => match header_value (b "transfer-encoding") l with Some v => eq_ignore_case v (b "chunked") | None => chunked_lines ls end
  end.

Definition is_chunked (headers : list Z) : bool := chunked_lines (lines headers).

(** *** Chunked bodies *)

Definition byte_at (s : list Z) (i : Z) : Z := default (-1) (s !! Z.to_nat i).

(** The position of the end of the line that starts at [pos]; the last position that
    is tried is that of the last byte. *)
Fixpoint line_end (fuel : nat) (src : list Z) (pos : Z) : Z :=
  match fuel with
  | O => pos
  | S fuel =>
      if (pos + 1 <? len src) && negb ((byte_at src pos =? 13) && (byte_at src (pos + 1) =? 10))
      then line_end fuel src (pos + 1) else pos
  end.

Definition USIZE_MAX : Z := 2 ^ 64 - 1.

Definition chunk_size_of (size_line : list Z) : Z :=
  default 0 (from_str_radix 16 USIZE_MAX (trim (before_byte 59 (trim size_line)))).

(** One turn of the loop: the text of the chunk and the next position, or the end. *)
Definition chunk_step (body : list Z) (pos : Z) : res (option (list Z * Z)) :=
  let n := len body in
  let e := line_end (length body) body pos in
  size_line ← str_slice pos e body;
  let chunk_size := chunk_size_of size_line in
  let pos := u64 (e + 2) in
  let data_end := u64 (pos + chunk_size) in
  if (chunk_size =? 0) || (n <? data_end) then Ok None
  else if data_end <? pos then Panic
  else
    let data := slice pos (data_end - pos) body in
    let pos := data_end in
    let next := if (pos + 1 <? n) && (byte_at body pos =? 13) && (byte_at body (pos + 1) =? 10) then pos + 2 else pos in
    Ok (Some (if is_utf8 data then data else [], next)).

(** Every turn moves [pos] forward: as many turns as bytes are enough. *)
Fixpoint decode_chunked_loop (fuel : nat) (body : list Z) (pos : Z) (out : list Z) : option (res (list Z)) :=
  if pos <? len body then
    match fuel with
    | O => None
    | S fuel =>
        match chunk_step body pos with
        | Ok (Some (text, pos)) => decode_chunked_loop fuel body pos (out ++ text)
        | Ok None => Some (Ok out)
        | Err e => Some (Err e)
        | Panic => Some Panic
        end
    end
  else Some (Ok out).

Definition decode_chunked (body : list Z) : option (res (list Z)) := decode_chunked_loop (length body) body 0 [].

(** *** Headers and body *)

Definition body_start (raw : list Z) : nat :=
  match find_sub [13; 10; 13; 10] raw with
  | Some i => (i + 4)%nat
  | None => match find_sub [10; 10] raw with Some i => (i + 2)%nat | None => O end
  end.

(** The URL a redirect leads to, if it can be resolved. *)
Definition redirect_target (current loc : list Z) : option (list Z) :=
  if has_prefix (b "http://") loc || has_prefix (b "https://") loc then Some loc
  else if has_prefix [slash] loc then Some (base_origin current ++ loc)
  else None.
