(* ===== verification/BrowserSpec.v ===== *)
(** * Encoding queries, decoding chunked bodies

    [url_encode_query] is undone by form decoding; [decode_chunked] always stops,
    and returns the data of a well-formed chunked body. *)

From S2P Require Import Prelude Bytes Str Browser.

(** ** Query encoding *)

Definition hex_digit (b : Z) : Z := default 0 (digit_value b).

(** What a server does with the query. *)
Fixpoint url_decode (s : list Z) : list Z :=
  match s with
  | 37 :: h :: l :: s => 16 * hex_digit h + hex_digit l :: url_decode s
  | 43 :: s => 32 :: url_decode s
  | c :: s => c :: url_decode s
  | [] => []
  end.

Lemma hex_digit_upper d : 0 ≤ d < 16 → hex_digit (hex_upper d) = d.
Proof.
  intros Hd. assert (d = 0 ∨ d = 1 ∨ d = 2 ∨ d = 3 ∨ d = 4 ∨ d = 5 ∨ d = 6 ∨ d = 7 ∨ d = 8 ∨ d = 9 ∨ d = 10 ∨ d = 11
    ∨ d = 12 ∨ d = 13 ∨ d = 14 ∨ d = 15) as H by lia.
  repeat destruct H as [->|H]; subst; done.
Qed.

Lemma url_decode_plain c s : c ≠ 37 → c ≠ 43 → url_decode (c :: s) = c :: url_decode s.
Proof.
  intros H1 H2. cbn [url_decode]. destruct c as [|p|p]; try done.
  do 6 (destruct p as [p|p|]; try done).
Qed.

Lemma url_decode_encode_byte c s : is_byte c → url_decode (encode_byte c ++ s) = c :: url_decode s.
Proof.
  intros Hc. unfold encode_byte. destruct (Z.eqb_spec c 32) as [->|Hsp]; [done|].
  destruct (is_unreserved c) eqn:Eu.
  - apply url_decode_plain; intros ->; done.
  - cbn [app url_decode]. unfold is_byte in Hc. rewrite Z.shiftr_div_pow2 by lia.
    change 0xF with (Z.ones 4). rewrite Z.land_ones by lia.
    rewrite !hex_digit_upper; [|apply Z.mod_pos_bound; lia|split; [apply Z.div_pos; lia|apply Z.div_lt_upper_bound; lia]].
    f_equal. change (2 ^ 4) with 16. pose proof (Z.div_mod c 16). lia.
Qed.

(** Characters a query may contain. *)
Definition query_char (c : Z) : bool := is_unreserved c || (c =? 43) || (c =? 37).

Lemma hex_upper_unreserved d : 0 ≤ d < 16 → is_unreserved (hex_upper d) = true.
Proof.
  intros Hd. assert (d = 0 ∨ d = 1 ∨ d = 2 ∨ d = 3 ∨ d = 4 ∨ d = 5 ∨ d = 6 ∨ d = 7 ∨ d = 8 ∨ d = 9 ∨ d = 10 ∨ d = 11
    ∨ d = 12 ∨ d = 13 ∨ d = 14 ∨ d = 15) as H by lia.
  repeat destruct H as [->|H]; subst; done.
Qed.

(** The query of a search is the user's text: whatever its bytes, its encoding
    has only characters a query may contain, and decoding it gives the text back. *)
Theorem url_encode_roundtrip s :
  is_bytes s → url_decode (url_encode_query s) = s ∧ Forall (λ c, query_char c = true) (url_encode_query s).
Proof.
  unfold url_encode_query. induction 1 as [|c s Hc _ [IH1 IH2]]; [done|]. cbn [map concat]. split.
  - by rewrite url_decode_encode_byte, IH1.
  - apply Forall_app. split; [|done]. unfold encode_byte, query_char. destruct (c =? 32); [by constructor|].
    destruct (is_unreserved c) eqn:Eu; [constructor; [by rewrite Eu|constructor]|]. unfold is_byte in Hc.
    rewrite Z.shiftr_div_pow2 by lia. change 0xF with (Z.ones 4). rewrite Z.land_ones by lia.
    repeat constructor.
    + rewrite hex_upper_unreserved; [done|]. split; [apply Z.div_pos; lia|apply Z.div_lt_upper_bound; lia].
    + rewrite hex_upper_unreserved; [done|]. apply Z.mod_pos_bound. lia.
Qed.

(** ** Chunked bodies *)

Lemma byte_at_app_r pre s : byte_at (pre ++ s) (len pre) = byte_at s 0.
Proof. unfold byte_at, len. rewrite Nat2Z.id, lookup_app_r, Nat.sub_diag by lia. done. Qed.

Lemma byte_at_app_r_add pre s k : 0 ≤ k → byte_at (pre ++ s) (len pre + k) = byte_at s k.
Proof.
  intros Hk. unfold byte_at, len. rewrite Z2Nat.inj_add by lia. rewrite Nat2Z.id, lookup_app_r by lia.
  by replace (length pre + Z.to_nat k - length pre)%nat with (Z.to_nat k) by lia.
Qed.

Lemma line_end_ge fuel src pos : pos ≤ line_end fuel src pos.
Proof.
  revert pos. induction fuel as [|fuel IH]; intros pos; cbn [line_end]; [lia|].
  case_match; [|lia]. specialize (IH (pos + 1)). lia.
Qed.

Lemma line_end_lt fuel src pos : pos < len src → line_end fuel src pos < len src.
Proof.
  revert pos. induction fuel as [|fuel IH]; intros pos Hp; cbn [line_end]; [done|].
  destruct (Z.ltb_spec (pos + 1) (len src)); cbn [andb]; [|done]. case_match; [|done]. by apply IH.
Qed.

(** The line ends at the first carriage return and newline. *)
Lemma line_end_line s : ∀ fuel pre rest,
  13 ∉ s → (length s ≤ fuel)%nat → line_end fuel (pre ++ s ++ 13 :: 10 :: rest) (len pre) = len pre + len s.
Proof.
  induction s as [|c s IH]; intros fuel pre rest Hs Hf.
  - cbn [app]. rewrite Z.add_0_r. destruct fuel as [|fuel]; [done|]. cbn [line_end].
    rewrite byte_at_app_r, byte_at_app_r_add by lia. by rewrite andb_false_r.
  - apply not_elem_of_cons in Hs as [Hc Hs]. destruct fuel as [|fuel]; [cbn in Hf; lia|]. cbn [line_end].
    rewrite byte_at_app_r. cbn [app]. change (byte_at (c :: s ++ _) 0) with c.
    rewrite (proj2 (Z.eqb_neq c 13)) by done. cbn [andb negb].
    rewrite (proj2 (Z.ltb_lt _ _)) by (unfold len; rewrite !length_app; cbn; rewrite !length_app; cbn; lia). cbn [andb].
    specialize (IH fuel (pre ++ [c]) rest Hs ltac:(cbn in Hf; lia)).
    rewrite <- app_assoc in IH. cbn [app] in IH. rewrite len_app in IH. change (len [c]) with 1 in IH.
    rewrite IH. unfold len. cbn [length]. lia.
Qed.

(** Every turn of the loop moves the position forward. *)
Lemma chunk_step_progress body pos text next :
  0 ≤ pos < len body → len body < 2 ^ 62 → chunk_step body pos = Ok (Some (text, next)) → pos < next.
Proof.
  intros Hp Hb. unfold chunk_step. pose proof (line_end_ge (length body) body pos) as Hge.
  pose proof (line_end_lt (length body) body pos ltac:(lia)) as Hlt.
  destruct (str_slice _ _ body) as [size_line| |]; [|done..]. cbn [mbind res_bind].
  rewrite (u64_small (line_end _ _ _ + 2)) by lia. set (d := u64 _).
  destruct (_ || _); [done|]. destruct (Z.ltb_spec d (line_end (length body) body pos + 2)); [done|].
  intros E. apply (inj Ok) in E. injection E as _ <-. case_match; lia.
Qed.

(** Decoding a chunked body terminates: as many turns as it has bytes are
    enough, whatever the bytes. *)
Theorem decode_chunked_terminates body : len body < 2 ^ 62 → ∃ r, decode_chunked body = Some r.
Proof.
  intros Hb. unfold decode_chunked.
  assert (∀ fuel pos out, 0 ≤ pos → len body - pos ≤ Z.of_nat fuel → ∃ r, decode_chunked_loop fuel body pos out = Some r) as H;
    [|apply H; unfold len in *; lia].
  induction fuel as [|fuel IH]; intros pos out Hp Hf; cbn [decode_chunked_loop].
  - rewrite (proj2 (Z.ltb_ge _ _)) by lia. by eexists.
  - destruct (Z.ltb_spec pos (len body)); [|by eexists].
    destruct (chunk_step body pos) as [[[text next]|]| |] eqn:E; try by eexists.
    apply chunk_step_progress in E; [|lia|done]. apply IH; lia.
Qed.

(** A chunk as sent: the line with its size, and its data. *)
Record chunk : Type := mkChunk { size_line : list Z; data : list Z }.

(** A number in hexadecimal, the most significant digit first, in small or capital
    letters. *)
Inductive hex_char : Z → Z → Prop :=
| hex_figure d : 0 ≤ d < 10 → hex_char (48 + d) d
| hex_small d : 10 ≤ d < 16 → hex_char (97 + (d - 10)) d
| hex_capital d : 10 ≤ d < 16 → hex_char (65 + (d - 10)) d.

Inductive hex_numeral : list Z → Z → Prop :=
| hex_first c d : hex_char c d → hex_numeral [c] d
| hex_next s n c d : hex_numeral s n → hex_char c d → hex_numeral (s ++ [c]) (16 * n + d).

(** The line of a chunk: its size in hexadecimal, blanks, and extensions after a
    semicolon, which are ASCII without a carriage return. *)
Definition line_char (x : Z) : Prop := 0 ≤ x < 128 ∧ x ≠ 13.

Inductive announces : list Z → Z → Prop :=
| announces_plain num n k : hex_numeral num n → announces (num ++ replicate k 32) n
| announces_ext num n k ext : hex_numeral num n → Forall line_char ext → announces (num ++ replicate k 32 ++ 59 :: ext) n.

(** The data are text, as long as the line says. *)
Definition chunk_ok (c : chunk) : Prop :=
  announces (size_line c) (len (data c)) ∧ data c ≠ [] ∧ is_utf8 (data c) = true.

Definition send (c : chunk) : list Z := size_line c ++ [13; 10] ++ data c ++ [13; 10].

(** The last chunk: a line that gives size 0. *)
Definition last_line (s : list Z) : Prop := announces s 0.

(** *** The size that the decoder finds *)

Lemma hex_char_value c d : hex_char c d → digit_value c = Some d ∧ 0 ≤ d < 16 ∧ line_char c ∧ c ≠ 59 ∧ c ≠ 43 ∧ ws_len [c] = 0%nat.
Proof.
  intros Hc. assert (0 ≤ d < 16) as Hd by (destruct Hc; lia). split; [|split; [done|]].
  - unfold digit_value. destruct Hc;
      repeat (match goal with |- context [?a <=? ?b] => destruct (Z.leb_spec a b) end; try lia; cbn [andb]); f_equal; lia.
  - unfold line_char, ws_len. destruct Hc;
      (split; [lia|split; [lia|split; [lia|]]]; rewrite (proj2 (Z.eqb_neq _ 32)), (proj2 (Z.eqb_neq _ 0xC2)) by lia;
       rewrite (proj2 (Z.leb_gt _ 13)) by lia; by rewrite andb_false_r).
Qed.

Lemma hex_numeral_chars s n : hex_numeral s n → 0 ≤ n ∧ ∃ c r, s = c :: r ∧ Forall (λ c, ∃ d, hex_char c d) s.
Proof.
  induction 1 as [c d Hc|s n c d _ [Hn (c0 & r & -> & IH)] Hc].
  - split; [by apply hex_char_value in Hc as (_ & ? & _); lia|]. exists c, []. split; [done|]. constructor; [by exists d|done].
  - split; [apply hex_char_value in Hc as (_ & ? & _); lia|]. exists c0, (r ++ [c]). split; [done|].
    apply (Forall_app_2 _ (c0 :: r)); [done|]. constructor; [by exists d|done].
Qed.

Lemma parse_digits_app radix max s : ∀ acc t,
  parse_digits radix max acc (s ++ t) = parse_digits radix max acc s ≫= λ acc, parse_digits radix max acc t.
Proof.
  induction s as [|c s IH]; intros acc t; [done|]. cbn. destruct (digit_value c) as [d|]; [|done].
  destruct (d <? radix); [|done]. destruct (max <? acc * radix + d); [done|apply IH].
Qed.

Lemma parse_hex s n max : hex_numeral s n → n ≤ max → parse_digits 16 max 0 s = Some n.
Proof.
  induction 1 as [c d Hc|s n c d Hs IH Hc]; intros Hmax.
  - apply hex_char_value in Hc as (Hv & Hd & _). cbn. rewrite Hv, (proj2 (Z.ltb_lt _ _)), (proj2 (Z.ltb_ge _ _)) by lia. done.
  - apply hex_char_value in Hc as (Hv & Hd & _). apply hex_numeral_chars in Hs as [Hn _].
    rewrite parse_digits_app, IH by lia. cbn. rewrite Hv, (proj2 (Z.ltb_lt _ _)), (proj2 (Z.ltb_ge _ _)) by lia. f_equal. lia.
Qed.

(** What [trim] does with ASCII. *)
Lemma skip_stop ws fuel s : ws s = 0%nat → skip_ws ws fuel s = s.
Proof. intros H. destruct fuel; cbn; [done|]. by rewrite H. Qed.

Lemma ws_len_ascii b s : 0 ≤ b < 128 → ws_len (b :: s) = ws_len [b].
Proof.
  intros Hb. unfold ws_len. rewrite (proj2 (Z.eqb_neq b 0xC2)), (proj2 (Z.eqb_neq b 0xE1)), (proj2 (Z.eqb_neq b 0xE2)),
    (proj2 (Z.eqb_neq b 0xE3)) by lia. cbn [andb orb]. by destruct (_ || _), s as [|c [|d s]].
Qed.

Lemma ws_len_rev_ascii b s : 0 ≤ b < 128 → ws_len_rev (b :: s) = ws_len [b].
Proof.
  intros Hb. assert (ws_len [b] = 1 ∨ ws_len [b] = 0)%nat as Hw by (unfold ws_len; repeat case_match; auto).
  unfold ws_len_rev. destruct Hw as [-> | ->]; [done|]. cbn [Nat.eqb].
  destruct s as [|c s]; [done|]. assert (∀ p, ws_len [p; b] ≠ 2%nat ∧ ∀ q, ws_len [q; p; b] ≠ 3%nat) as Hn.
  { intros p. unfold ws_len. split; [|intros q]; repeat case_match; try done; lia. }
  rewrite (proj2 (Nat.eqb_neq _ _) (proj1 (Hn c))). destruct s as [|e s]; [done|].
  by rewrite (proj2 (Nat.eqb_neq _ _) (proj2 (Hn c) e)).
Qed.

Lemma skip_blanks k s : ∀ fuel, (k ≤ fuel)%nat → (∀ f, skip_ws ws_len_rev f s = s) → skip_ws ws_len_rev fuel (replicate k 32 ++ s) = s.
Proof.
  induction k as [|k IH]; intros fuel Hf Hs; [apply Hs|]. destruct fuel as [|fuel]; [lia|]. cbn [replicate app skip_ws].
  rewrite ws_len_rev_ascii by lia. cbn. apply IH; [lia|done].
Qed.

(** Digits are not trimmed, blanks after them are. *)
Lemma trim_digits num n k : hex_numeral num n → trim (num ++ replicate k 32) = num.
Proof.
  intros Hn. apply hex_numeral_chars in Hn as (_ & c & r & -> & Hc). unfold trim.
  assert (trim_start ((c :: r) ++ replicate k 32) = (c :: r) ++ replicate k 32) as ->.
  { apply skip_stop. apply Forall_cons in Hc as [[d Hd] _]. apply hex_char_value in Hd as (_ & _ & [Ha _] & _ & _ & Hw).
    cbn [app]. by rewrite ws_len_ascii. }
  unfold trim_end. rewrite reverse_app, reverse_replicate, skip_blanks; [apply reverse_involutive|rewrite length_app, length_replicate; lia|].
  intros f. apply skip_stop. destruct (exists_last (l := c :: r)) as (s & e & E); [done|]. rewrite E in Hc |- *.
  apply Forall_app in Hc as [_ Hc]. apply Forall_cons in Hc as [[d Hd] _]. apply hex_char_value in Hd as (_ & _ & [Ha _] & _ & _ & Hw).
  rewrite reverse_app. cbn [reverse rev_append app]. by rewrite ws_len_rev_ascii.
Qed.

Lemma skip_to_mark e y : Forall line_char e → ∀ fuel, ∃ e', skip_ws ws_len_rev fuel (e ++ 59 :: y) = e' ++ 59 :: y.
Proof.
  induction 1 as [|c e [Hc _] _ IH]; intros fuel.
  - exists []. apply skip_stop. cbn [app]. by rewrite ws_len_rev_ascii by lia.
  - destruct fuel as [|fuel]; [by exists (c :: e)|]. cbn [app skip_ws]. rewrite ws_len_rev_ascii by lia.
    assert (ws_len [c] = 1 ∨ ws_len [c] = 0)%nat as [-> | ->] by (unfold ws_len; repeat case_match; auto); [apply IH|by exists (c :: e)].
Qed.

Lemma before_byte_skip c s r : c ∉ s → before_byte c (s ++ r) = s ++ before_byte c r.
Proof.
  induction s as [|x s IH]; [done|]. intros [Hx Hs]%not_elem_of_cons. cbn. rewrite (proj2 (Z.eqb_neq x c)) by congruence. by rewrite IH.
Qed.

Lemma numeral_no_mark num n k : hex_numeral num n → 59 ∉ num ++ replicate k 32.
Proof.
  intros (_ & c & r & -> & Hc)%hex_numeral_chars Hin. apply elem_of_app in Hin as [Hin|Hin].
  - rewrite Forall_forall in Hc. destruct (Hc 59 Hin) as [d Hd]. by apply hex_char_value in Hd as (_ & _ & _ & ? & _).
  - by apply elem_of_replicate in Hin as [? _].
Qed.

Lemma numeral_read num n k : hex_numeral num n → n ≤ USIZE_MAX → from_str_radix 16 USIZE_MAX (trim (num ++ replicate k 32)) = Some n.
Proof.
  intros Hn Hmax. rewrite (trim_digits num n k Hn). pose proof (parse_hex num n USIZE_MAX Hn Hmax) as Hp.
  apply hex_numeral_chars in Hn as (_ & c & r & -> & Hc). apply Forall_cons in Hc as [[d Hd] _].
  apply hex_char_value in Hd as (_ & _ & _ & _ & Hplus & _). rewrite <- Hp. unfold from_str_radix. destruct c as [|p|p]; [done| |done].
  do 6 (destruct p as [p|p|]; try done).
Qed.

Lemma chunk_size_announced line n : announces line n → n ≤ USIZE_MAX → chunk_size_of line = n.
Proof.
  unfold chunk_size_of. destruct 1 as [num n k Hn|num n k ext Hn Hext]; intros Hmax; pose proof (numeral_no_mark num n k Hn) as Hm.
  - rewrite (trim_digits num n k Hn). pose proof (numeral_no_mark num n 0 Hn) as H0. rewrite app_nil_r in H0.
    assert (before_byte 59 num = num ++ replicate 0 32) as -> by (pose proof (before_byte_skip 59 num [] H0) as E; by rewrite app_nil_r in E).
    by rewrite (numeral_read num n 0).
  - assert (∃ e, trim (num ++ replicate k 32 ++ 59 :: ext) = (num ++ replicate k 32) ++ 59 :: e) as [e ->].
    { unfold trim. assert (trim_start (num ++ replicate k 32 ++ 59 :: ext) = (num ++ replicate k 32) ++ 59 :: ext) as ->.
      { rewrite app_assoc. apply skip_stop. apply hex_numeral_chars in Hn as (_ & c & r & -> & Hc).
        apply Forall_cons in Hc as [[d Hd] _]. apply hex_char_value in Hd as (_ & _ & [Ha _] & _ & _ & Hw). cbn [app]. by rewrite ws_len_ascii. }
      unfold trim_end. assert (∀ x y : list Z, reverse (x ++ 59 :: y) = reverse y ++ 59 :: reverse x) as Erev.
      { intros x y. by rewrite reverse_app, reverse_cons, <- app_assoc. }
      rewrite Erev.
      destruct (skip_to_mark (reverse ext) (reverse (num ++ replicate k 32)) (proj2 (Forall_reverse _ _) Hext)
        (length ((num ++ replicate k 32) ++ 59 :: ext))) as [e' E]. rewrite E.
      exists (reverse e'). by rewrite Erev, reverse_involutive. }
    rewrite (before_byte_skip 59 _ _ Hm). cbn. rewrite app_nil_r. by rewrite (numeral_read num n k).
Qed.

Lemma announced_chars line n : announces line n → Forall line_char line.
Proof.
  assert (∀ num n, hex_numeral num n → Forall line_char num) as Hnum.
  { intros num m (_ & c & r & -> & Hc)%hex_numeral_chars. eapply Forall_impl; [exact Hc|]. intros x [d Hd]. by apply hex_char_value in Hd as (_ & _ & ? & _). }
  assert (∀ k, Forall line_char (replicate k 32)) as Hblank by (intros k; apply Forall_replicate; by split).
  destruct 1 as [num n k Hn|num n k ext Hn Hext]; repeat (apply Forall_app_2 || apply Forall_cons_2); eauto. by split.
Qed.

Lemma str_slice_mid pre s post :
  Forall (λ x, 0 ≤ x < 128) s → (∃ x r, post = x :: r ∧ 0 ≤ x < 128) →
  str_slice (len pre) (len pre + len s) (pre ++ s ++ post) = Ok s.
Proof.
  intros Hs (x & r & -> & Hx). unfold str_slice.
  assert (∀ y, 0 ≤ y < 128 → is_cont y = false) as Hc by (intros y Hy; unfold is_cont; apply andb_false_iff; left; lia).
  pose proof (len_nonneg s). pose proof (len_nonneg pre). rewrite (proj2 (Z.leb_le _ _)) by lia.
  rewrite (proj2 (Z.leb_le _ _)) by (unfold len; rewrite !length_app; lia).
  assert (is_char_boundary (pre ++ s ++ x :: r) (len pre) = true) as ->.
  { unfold is_char_boundary, len. rewrite Nat2Z.id, lookup_app_r, Nat.sub_diag by lia.
    destruct s as [|y s]; cbn; [by rewrite Hc|]. apply Forall_cons in Hs as [Hy _]. by rewrite Hc. }
  assert (is_char_boundary (pre ++ s ++ x :: r) (len pre + len s) = true) as ->.
  { unfold is_char_boundary, len. rewrite <- Nat2Z.inj_add, Nat2Z.id, lookup_app_r by lia.
    rewrite lookup_app_r by lia. replace (length pre + length s - length pre - length s)%nat with O by lia. cbn. by rewrite Hc. }
  cbn [andb]. f_equal. unfold slice, len. rewrite Nat2Z.id.
  replace (Z.to_nat (Z.of_nat (length pre) + Z.of_nat (length s) - Z.of_nat (length pre))) with (length s) by lia.
  by rewrite drop_app_length, take_app_length.
Qed.

Lemma ascii_line s : Forall (λ x, 0 ≤ x < 128 ∧ x ≠ 13) s → Forall (λ x, 0 ≤ x < 128) s ∧ 13 ∉ s.
Proof.
  intros Hs. split.
  - eapply Forall_impl; [exact Hs|]. by intros x [].
  - intros Hin. rewrite Forall_forall in Hs. by destruct (Hs 13 Hin).
Qed.

Lemma chunk_step_send pre c post :
  chunk_ok c → len (pre ++ send c ++ post) < 2 ^ 62 → post ≠ [] →
  chunk_step (pre ++ send c ++ post) (len pre) = Ok (Some (data c, len (pre ++ send c))).
Proof.
  intros (Hsz & Hne & Hu) Hb Hpost. pose proof (announced_chars _ _ Hsz) as [Hl Hcr]%ascii_line.
  apply chunk_size_announced in Hsz; [|unfold send, len, USIZE_MAX in *; rewrite !length_app in Hb; lia]. destruct c as [s d]. unfold send in *. cbn [size_line data app] in *.
  assert ((pre ++ (s ++ 13 :: 10 :: d ++ [13; 10]) ++ post) = pre ++ s ++ 13 :: 10 :: (d ++ 13 :: 10 :: post)) as Eb.
  { rewrite <- !app_assoc. cbn. by rewrite <- app_assoc. }
  pose proof (len_nonneg pre). pose proof (len_nonneg s). pose proof (len_nonneg d).
  assert (0 < len post) by (destruct post; [done|unfold len; cbn; lia]).
  assert (len (pre ++ (s ++ 13 :: 10 :: d ++ [13; 10]) ++ post) = len pre + len s + len d + 4 + len post) as En.
  { unfold len. rewrite !length_app. cbn. rewrite length_app. cbn. lia. }
  assert (0 < len d) by (destruct d; [done|unfold len; cbn; lia]).
  unfold chunk_step. rewrite En. rewrite Eb. rewrite line_end_line by (done || (rewrite !length_app; lia)).
  rewrite str_slice_mid by (done || (eexists _, _; split; [done|lia])). cbn [mbind res_bind]. rewrite Hsz.
  rewrite !u64_small by (rewrite ?u64_small; lia).
  rewrite (proj2 (Z.eqb_neq (len d) 0)) by lia. rewrite (proj2 (Z.ltb_ge _ (len pre + len s + 2 + len d))) by lia. cbn [orb].
  rewrite (proj2 (Z.ltb_ge _ (len pre + len s + 2))) by lia.
  assert (pre ++ s ++ 13 :: 10 :: d ++ 13 :: 10 :: post = (pre ++ s ++ [13; 10]) ++ d ++ 13 :: 10 :: post) as Ea.
  { rewrite <- !app_assoc. done. }
  assert (len (pre ++ s ++ [13; 10]) = len pre + len s + 2) as Ep by (rewrite !len_app; change (len [13; 10]) with 2; lia).
  rewrite Ea. replace (len pre + len s + 2 + len d - (len pre + len s + 2)) with (len d) by lia.
  assert (slice (len pre + len s + 2) (len d) ((pre ++ s ++ [13; 10]) ++ d ++ 13 :: 10 :: post) = d) as ->.
  { unfold slice. rewrite <- Ep. unfold len. rewrite !Nat2Z.id. by rewrite drop_app_length, take_app_length. }
  rewrite Hu. rewrite (proj2 (Z.ltb_lt _ _)) by lia. cbn [andb].
  assert (∀ k, 0 ≤ k → byte_at ((pre ++ s ++ [13; 10]) ++ d ++ 13 :: 10 :: post) (len pre + len s + 2 + len d + k) = byte_at (13 :: 10 :: post) k) as Hbyte.
  { intros k Hk. rewrite <- Ep, app_assoc, <- len_app. by apply byte_at_app_r_add. }
  pose proof (Hbyte 0 ltac:(lia)) as Hb0. rewrite Z.add_0_r in Hb0. rewrite Hb0, (Hbyte 1) by lia. cbn.
  assert (len (pre ++ s ++ 13 :: 10 :: d ++ [13; 10]) = len pre + len s + 2 + len d + 2) as ->; [|done].
  unfold len. rewrite !length_app. cbn. rewrite length_app. cbn. lia.
Qed.

(** A whole body: chunks, the last line, and whatever trailer follows. *)
Lemma decode_chunks cs : ∀ fuel pre l trailer out,
  Forall chunk_ok cs → last_line l →
  len (pre ++ concat (map send cs) ++ l ++ [13; 10] ++ trailer) < 2 ^ 62 → (length cs < fuel)%nat →
  decode_chunked_loop fuel (pre ++ concat (map send cs) ++ l ++ [13; 10] ++ trailer) (len pre) out =
    Some (Ok (out ++ concat (map data cs))).
Proof.
  induction cs as [|c cs IH]; intros [|fuel] pre l trailer out Hcs Hl Hb Hf; [lia| |cbn in Hf; lia|].
  - cbn [map concat]. rewrite !app_nil_l, app_nil_r in *. cbn [decode_chunked_loop].
    assert (len (pre ++ l ++ [13; 10] ++ trailer) = len pre + len l + 2 + len trailer) as En
      by (rewrite !len_app; change (len [13; 10]) with 2; lia).
    pose proof (len_nonneg l). pose proof (len_nonneg pre). pose proof (len_nonneg trailer).
    rewrite (proj2 (Z.ltb_lt _ _)) by lia. pose proof (announced_chars _ _ Hl) as [Ha Hcr]%ascii_line.
    apply chunk_size_announced in Hl; [|done].
    unfold chunk_step. cbn [app]. rewrite line_end_line by (done || (rewrite !length_app; lia)).
    rewrite str_slice_mid by (done || (eexists _, _; split; [done|lia])). cbn [mbind res_bind]. by rewrite Hl.
  - apply Forall_cons in Hcs as [Hc Hcs]. cbn [map concat] in *. rewrite <- app_assoc in *. cbn [decode_chunked_loop].
    rewrite (proj2 (Z.ltb_lt _ _)).
    2: { unfold len. rewrite !length_app. cbn. lia. }
    rewrite chunk_step_send; [|done|done|by destruct (concat _), l].
    rewrite app_assoc. rewrite IH; [by rewrite <- app_assoc|done|done| |cbn in Hf; lia].
    by rewrite <- app_assoc.
Qed.

(** C21: decoding a chunked body.  When every chunk is text and announced by a line with
    its size as a hexadecimal numeral, blanks after the numeral and perhaps an
    extension after a semicolon, and the last line announces 0, decoding gives the data
    of the chunks, one after the other. *)
Theorem decode_chunked_spec cs l trailer :
  Forall chunk_ok cs → last_line l → len (concat (map send cs) ++ l ++ [13; 10] ++ trailer) < 2 ^ 62 →
  decode_chunked (concat (map send cs) ++ l ++ [13; 10] ++ trailer) = Some (Ok (concat (map data cs))).
Proof.
  intros Hcs Hl Hb. unfold decode_chunked. apply (decode_chunks cs _ [] l trailer []); [done..|].
  rewrite !length_app. cbn. enough (length cs ≤ length (concat (map send cs)))%nat by lia. clear.
  induction cs as [|c cs IH]; [done|]. cbn. rewrite length_app. unfold send at 1. rewrite !length_app. cbn. lia.
Qed.

(** Two texts on which a slice inside a character stops the kernel: a body that ends
    with a character of two bytes, and a chunk whose size counts only one of them. *)
Theorem decode_chunked_panics :
  is_utf8 [0xC3; 0xA9] = true ∧ decode_chunked [0xC3; 0xA9] = Some Panic ∧
  is_utf8 [0x31; 13; 10; 0xC3; 0xA9; 13; 10] = true ∧ decode_chunked [0x31; 13; 10; 0xC3; 0xA9; 13; 10] = Some Panic.
Proof. repeat split; by vm_compute. Qed.

(** ** Concrete runs *)

Module BrowserExample.

Lemma url_encode_roundtrip_witness :
  url_decode (url_encode_query (bytes_of_string "a b&c")) = bytes_of_string "a b&c" ∧
  url_encode_query (bytes_of_string "a b&c") = bytes_of_string "a+b%26c".
Proof.
  split; [|by vm_compute]. apply (url_encode_roundtrip (bytes_of_string "a b&c")).
  repeat (constructor; [unfold is_byte; vm_compute; split; congruence|]). constructor.
Defined.

Lemma decode_chunked_terminates_witness : ∃ r, decode_chunked (bytes_of_string "zz") = Some r.
Proof. apply decode_chunked_terminates. by vm_compute. Defined.

(** Ten bytes, and six. *)
Definition hello : chunk := mkChunk (bytes_of_string "A;x=1") (bytes_of_string "good day, ").
Definition world : chunk := mkChunk (bytes_of_string "06 ") (bytes_of_string "world!").

Lemma decode_chunked_spec_witness :
  decode_chunked (concat (map send [hello; world]) ++ bytes_of_string "0" ++ [13; 10] ++ [13; 10]) =
    Some (Ok (bytes_of_string "good day, world!")).
Proof.
  assert (hex_numeral [48] 0) as H0 by exact (hex_first 48 0 (hex_figure 0 ltac:(lia))).
  apply (decode_chunked_spec [hello; world] (bytes_of_string "0") [13; 10]); [|exact (announces_plain [48] 0 0 H0)|by vm_compute].
  apply Forall_cons. split; [|apply Forall_cons; split; [|constructor]]; (split; [|split; [discriminate|by vm_compute]]).
  - apply (announces_ext [65] 10 0 [120; 61; 49]); [exact (hex_first 65 10 (hex_capital 10 ltac:(lia)))|].
    repeat constructor; lia.
  - exact (announces_plain [48; 54] 6 1 (hex_next [48] 0 54 6 H0 (hex_figure 6 ltac:(lia)))).
Defined.

End BrowserExample.
