(* ===== verification/Html.v ===== *)
(** * Rendering HTML: [browser.rs]

    The document builder, the tags, character references and the render loop.  A
    text is the list of its bytes, a character the list of its. *)

From S2P Require Import Prelude Bytes Str Browser.

#[local] Notation "'b' s" := (bytes_of_string s) (at level 9, s at level 9, only parsing).

(** ** Documents *)

Inductive SpanStyle : Type := StNormal | StHeading | StBold | StPre | StBullet.

#[export] Instance SpanStyle_eq_dec : EqDecision SpanStyle.
Proof. solve_decision. Defined.

Record DocSpan : Type := mkSpan { text : list Z; style : SpanStyle; link : option Z }.

Definition DocLine : Type := list DocSpan.

Record Document : Type := mkDoc { doc_lines : list DocLine; doc_links : list (list Z) }.

Definition MAX_LINKS : Z := 300.

Definition from_text (t : list Z) : Document :=
  mkDoc (map (λ l, if decide (l = []) then [] else [mkSpan l StNormal None]) (lines t)) [].

Definition to_text (d : Document) : list Z :=
  concat (map (λ line, concat (map text line) ++ [10]) (doc_lines d)).

(** ** The builder *)

Record DocBuilder : Type := mkBuilder {
  b_lines : list DocLine;
  cur : DocLine;
  buf : list Z;
  b_links : list (list Z);
  cur_link : option Z;
  heading : Z;
  bold : Z;
  pre : bool;
  last_space : bool;
}.

Definition DocBuilder_new : DocBuilder := mkBuilder [] [] [] [] None 0 0 false true.

Definition set_buf (t : list Z) (d : DocBuilder) : DocBuilder :=
  mkBuilder (b_lines d) (cur d) t (b_links d) (cur_link d) (heading d) (bold d) (pre d) (last_space d).
Definition set_cur (c : DocLine) (d : DocBuilder) : DocBuilder :=
  mkBuilder (b_lines d) c (buf d) (b_links d) (cur_link d) (heading d) (bold d) (pre d) (last_space d).
Definition set_lines (l : list DocLine) (d : DocBuilder) : DocBuilder :=
  mkBuilder l (cur d) (buf d) (b_links d) (cur_link d) (heading d) (bold d) (pre d) (last_space d).
Definition set_link (l : option Z) (d : DocBuilder) : DocBuilder :=
  mkBuilder (b_lines d) (cur d) (buf d) (b_links d) l (heading d) (bold d) (pre d) (last_space d).
Definition set_heading (h : Z) (d : DocBuilder) : DocBuilder :=
  mkBuilder (b_lines d) (cur d) (buf d) (b_links d) (cur_link d) h (bold d) (pre d) (last_space d).
Definition set_bold (n : Z) (d : DocBuilder) : DocBuilder :=
  mkBuilder (b_lines d) (cur d) (buf d) (b_links d) (cur_link d) (heading d) n (pre d) (last_space d).
Definition set_pre (p : bool) (d : DocBuilder) : DocBuilder :=
  mkBuilder (b_lines d) (cur d) (buf d) (b_links d) (cur_link d) (heading d) (bold d) p (last_space d).
Definition set_space (s : bool) (d : DocBuilder) : DocBuilder :=
  mkBuilder (b_lines d) (cur d) (buf d) (b_links d) (cur_link d) (heading d) (bold d) (pre d) s.

Definition cur_style (d : DocBuilder) : SpanStyle :=
  if 0 <? heading d then StHeading else if pre d then StPre else if 0 <? bold d then StBold else StNormal.

Definition flush_span (d : DocBuilder) : DocBuilder :=
  if decide (buf d = []) then d
  else set_cur (cur d ++ [mkSpan (buf d) (cur_style d) (cur_link d)]) (set_buf [] d).

Definition blank (t : list Z) : bool := bool_decide (trim t = []).

Definition line_has_content (d : DocBuilder) : bool := negb (blank (buf d)) || existsb (λ s, negb (blank (text s))) (cur d).

Definition newline (d : DocBuilder) : DocBuilder :=
  let d := flush_span d in
  set_space true (set_cur [] (set_lines (b_lines d ++ [cur d]) d)).

Definition clear_line (d : DocBuilder) : DocBuilder := set_space true (set_buf [] (set_cur [] d)).

Definition blank_line (d : DocBuilder) : DocBuilder :=
  let d := if line_has_content d then newline d else d in
  let d := match last (b_lines d) with Some (_ :: _) => set_lines (b_lines d ++ [[]]) d | _ => d end in
  clear_line d.

Definition break_line (d : DocBuilder) : DocBuilder := if line_has_content d then newline d else clear_line d.

Definition push_text (t : list Z) (d : DocBuilder) : DocBuilder := set_buf (buf d ++ t) d.

Definition is_plain_space (ch : list Z) : bool :=
  bool_decide (ch = [32]) || bool_decide (ch = [10]) || bool_decide (ch = [13]) || bool_decide (ch = [9]).

Definition push_char (ch : list Z) (d : DocBuilder) : DocBuilder :=
  if pre d then
    set_space false
      (if bool_decide (ch = [10]) then newline d
       else if bool_decide (ch = [13]) then d
       else if bool_decide (ch = [9]) then push_text (b "    ") d
       else push_text ch d)
  else if is_plain_space ch then
    if last_space d then d else set_space true (push_text [32] d)
  else set_space false (push_text ch d).

Definition push_str (s : list Z) (d : DocBuilder) : DocBuilder := foldl (λ d ch, push_char ch d) d (chars s).

Definition start_link (url : list Z) (d : DocBuilder) : DocBuilder :=
  if MAX_LINKS <=? len (b_links d) then d
  else
    let d := flush_span d in
    let links := b_links d ++ [url] in
    mkBuilder (b_lines d) (cur d) (buf d) links (Some (u16 (len links - 1))) (heading d) (bold d) (pre d) (last_space d).

Definition end_link (d : DocBuilder) : DocBuilder := set_link None (flush_span d).

(** Trailing empty lines are dropped. *)
Fixpoint drop_empty (ls : list DocLine) : list DocLine :=
  match ls with [] :: ls => drop_empty ls | _ => ls end.

Definition finish (d : DocBuilder) : Document :=
  let d := flush_span d in
  let ls := if decide (cur d = []) then b_lines d else b_lines d ++ [cur d] in
  mkDoc (reverse (drop_empty (reverse ls))) (b_links d).

(** ** Tags *)

Definition tci (tag name : list Z) : bool := bool_decide (map to_lower tag = name).

Definition any_tag (names : list string) (name : list Z) : bool := existsb (λ n, tci name (b n)) names.

Definition is_block : list Z → bool :=
  any_tag ["p"; "/p"; "div"; "/div"; "section"; "/section"; "article"; "/article"; "header"; "/header"; "footer"; "/footer";
    "nav"; "/nav"; "main"; "/main"; "ul"; "/ul"; "ol"; "/ol"; "blockquote"; "/blockquote"; "form"; "/form"].

(** The text between the quotes of the first [href=]. *)
Definition extract_href (tag : list Z) : option (list Z) :=
  pos ← find_sub (b "href=") (map to_lower tag);
  let after := drop (pos + 5) tag in
  match after with
  | q :: rest =>
      if (q =? 34) || (q =? 39) then
        e ← find_byte q rest;
        let href := trim (take e rest) in
        if decide (href = []) then None else Some href
      else None
  | [] => None
  end.

Definition bullet (t : string) : DocSpan := mkSpan (b t) StBullet None.

Definition push_span (s : DocSpan) (d : DocBuilder) : DocBuilder := set_cur (cur d ++ [s]) d.

Definition process_tag (name raw base_url : list Z) (d : DocBuilder) : DocBuilder :=
  if any_tag ["br"; "br/"] name then newline d
  else if any_tag ["h1"; "h2"; "h3"] name then (λ d, set_heading (u32 (heading d + 1)) d) (blank_line d)
  else if any_tag ["/h1"; "/h2"; "/h3"] name then break_line (set_heading (sat_sub (heading d) 1) d)
  else if any_tag ["h4"; "h5"; "h6"] name then (λ d, set_bold (u32 (bold d + 1)) d) (break_line d)
  else if any_tag ["/h4"; "/h5"; "/h6"] name then break_line (set_bold (sat_sub (bold d) 1) d)
  else if any_tag ["p"] name then blank_line d
  else if any_tag ["/p"; "tr"; "/li"] name || is_block name then break_line d
  else if any_tag ["li"] name then set_space true (push_span (bullet "  * ") (flush_span (break_line d)))
  else if any_tag ["td"; "th"] name then push_str (b "  ") d
  else if any_tag ["hr"; "hr/"] name then
    newline (push_span (bullet "----------------------------------------") (flush_span (break_line d)))
  else if any_tag ["pre"] name then set_pre true (blank_line d)
  else if any_tag ["/pre"] name then break_line (set_pre false d)
  else if any_tag ["b"; "strong"; "em"; "i"] name then (λ d, set_bold (u32 (bold d + 1)) d) (flush_span d)
  else if any_tag ["/b"; "/strong"; "/em"; "/i"] name then (λ d, set_bold (sat_sub (bold d) 1) d) (flush_span d)
  else if any_tag ["a"] name then
    match extract_href raw ≫= resolve_url base_url with Some url => start_link url d | None => d end
  else if any_tag ["/a"] name then end_link d
  else d.

(** ** Character references *)

Definition NAMED : list (list Z * list Z) :=
  [(b "&amp;", [38]); (b "&lt;", [60]); (b "&gt;", [62]); (b "&nbsp;", [32]); (b "&quot;", [34]); (b "&apos;", [39]);
   (b "&mdash;", [45]); (b "&ndash;", [45]); (b "&hellip;", [46]); (b "&copy;", [99]); (b "&middot;", [42]);
   (b "&bull;", [42]); (b "&rsquo;", [39]); (b "&lsquo;", [39]); (b "&rdquo;", [34]); (b "&ldquo;", [34])].

Fixpoint named_entity (table : list (list Z * list Z)) (src : list Z) : option (Z * list Z) :=
  match table with
  | [] => None
  | (pat, ch) :: table => if has_prefix pat src then Some (len pat, ch) else named_entity table src
  end.

Definition entity_digit (hex : bool) (d : Z) : option Z :=
  if (48 <=? d) && (d <=? 57) then Some (d - 48)
  else if hex && (97 <=? d) && (d <=? 102) then Some (d - 97 + 10)
  else if hex && (65 <=? d) && (d <=? 70) then Some (d - 65 + 10)
  else None.

(** At most eight digits: their number, the value and what follows. *)
Fixpoint entity_digits (fuel : nat) (hex : bool) (value : Z) (src : list Z) : Z * Z * list Z :=
  match fuel, src with
  | S fuel, d :: rest =>
      match entity_digit hex d with
      | Some digit =>
          let '(n, v, r) := entity_digits fuel hex (u32 (value * (if hex then 16 else 10) + digit)) rest in (1 + n, v, r)
      | None => (0, value, src)
      end
  | _, _ => (0, value, src)
  end.

Definition decode_entity (src : list Z) : Z * option (list Z) :=
  match named_entity NAMED src with
  | Some (n, ch) => (n, Some ch)
  | None =>
      if has_prefix (b "&#") src then
        let hex := bool_decide (src !! 2%nat = Some 120 ∨ src !! 2%nat = Some 88) in
        let digits_start := if hex then 3 else 2 in
        let '(n, value, rest) := entity_digits 8 hex 0 (drop (Z.to_nat digits_start) src) in
        if (0 <? n) && bool_decide (head rest = Some 59) then (digits_start + n + 1, char_of_u32 value)
        else (1, Some [38])
      else (1, Some [38])
  end.

(** ** The render loop *)

Record Flags : Type := mkFlags { in_script : bool; in_style : bool; in_title : bool }.

Definition is_ascii_ws (c : Z) : bool := (c =? 32) || (c =? 9) || (c =? 10) || (c =? 12) || (c =? 13).

Fixpoint tag_name (s : list Z) : list Z :=
  match s with [] => [] | c :: s => if is_ascii_ws c then [] else c :: tag_name s end.

Definition handle_tag (base_url tag : list Z) (f : Flags) (d : DocBuilder) : Flags * DocBuilder :=
  if is_utf8 tag then
    let tag_raw := trim tag in
    let name := tag_name tag_raw in
    if tci name (b "script") then (mkFlags true (in_style f) (in_title f), d)
    else if tci name (b "/script") then (mkFlags false (in_style f) (in_title f), d)
    else if tci name (b "style") then (mkFlags (in_script f) true (in_title f), d)
    else if tci name (b "/style") then (mkFlags (in_script f) false (in_title f), d)
    else if tci name (b "title") then (mkFlags (in_script f) (in_style f) true, d)
    else if tci name (b "/title") then (mkFlags (in_script f) (in_style f) false, d)
    else if negb (in_script f) && negb (in_style f) then (f, process_tag name tag_raw base_url d)
    else (f, d)
  else (f, d).

(** The length of the character a lead byte announces. *)
Definition seq_len (byte : Z) : nat :=
  if byte <? 0x80 then 1 else if Z.land byte 0xE0 =? 0xC0 then 2 else if Z.land byte 0xF0 =? 0xE0 then 3 else 4.

(** [src] is what is left of the body; every turn takes at least a byte of it. *)
Fixpoint render_loop (fuel : nat) (base_url src : list Z) (f : Flags) (d : DocBuilder) : option DocBuilder :=
  match src with
  | [] => Some d
  | c :: rest =>
      match fuel with
      | O => None
      | S fuel =>
          if c =? 60 then
            match find_byte 62 rest with
            | None => Some d
            | Some j =>
                let '(f, d) := handle_tag base_url (take j rest) f d in
                render_loop fuel base_url (drop (S j) rest) f d
            end
          else if in_script f || in_style f || in_title f then render_loop fuel base_url rest f d
          else if c =? 38 then
            let '(consumed, ch) := decode_entity src in
            let d := match ch with Some ch => push_char ch d | None => d end in
            render_loop fuel base_url (drop (Z.to_nat consumed) src) f d
          else
            let s := take (seq_len c) src in
            render_loop fuel base_url (drop (seq_len c) src) f (if is_utf8 s then push_str s d else d)
      end
  end.

Definition render_html_doc (base_url body : list Z) : option Document :=
  finish <$> render_loop (length body) base_url body (mkFlags false false false) DocBuilder_new.

(** ** Responses *)

(** What the loop of [fetch_and_render] does with a response. *)
Inductive Fetched : Type :=
| Rendered (d : option (res Document))
| Redirect (url : list Z)
| Stop.

Definition render_response (current raw : list Z) : option (res Document) :=
  let headers := take (body_start raw) raw in
  let raw_body := drop (body_start raw) raw in
  body ← (if is_chunked headers then decode_chunked raw_body else Some (Ok raw_body));
  match body with
  | Ok body => Ok <$> render_html_doc current body
  | Err e => Some (Err e)
  | Panic => Some Panic
  end.

Definition handle_response (current raw : list Z) : Fetched :=
  match find_redirect_location raw with
  | Some loc => match redirect_target current loc with Some next => Redirect next | None => Stop end
  | None => Rendered (render_response current raw)
  end.
