(* ===== verification/HtmlSpec.v ===== *)
(** * Rendering always gives a well-formed document

    The render loop returns on every body, and the links its spans refer to exist:
    the GUI and the shell index [links] with them. *)

From S2P Require Import Prelude Bytes Str Browser Html.

(** ** Well-formed documents *)

Definition span_ok (n : Z) (s : DocSpan) : Prop := match link s with Some k => 0 ≤ k < n | None => True end.

Record doc_ok (d : Document) : Prop := mk_doc_ok {
  doc_links_bound : len (doc_links d) ≤ MAX_LINKS;
  doc_spans : Forall (Forall (span_ok (len (doc_links d)))) (doc_lines d);
}.

Record builder_ok (d : DocBuilder) : Prop := mk_builder_ok {
  bo_bound : len (b_links d) ≤ MAX_LINKS;
  bo_lines : Forall (Forall (span_ok (len (b_links d)))) (b_lines d);
  bo_cur : Forall (span_ok (len (b_links d))) (cur d);
  bo_link : match cur_link d with Some k => 0 ≤ k < len (b_links d) | None => True end;
}.

Create HintDb html.
#[export] Hint Resolve mk_builder_ok : html.

Lemma builder_new_ok : builder_ok DocBuilder_new.
Proof. split; cbn; try done; constructor. Qed.

(** Changes that touch neither links nor spans. *)
Lemma set_buf_ok t d : builder_ok d → builder_ok (set_buf t d).
Proof. by intros []. Qed.
Lemma set_space_ok s d : builder_ok d → builder_ok (set_space s d).
Proof. by intros []. Qed.
Lemma set_heading_ok n d : builder_ok d → builder_ok (set_heading n d).
Proof. by intros []. Qed.
Lemma set_bold_ok n d : builder_ok d → builder_ok (set_bold n d).
Proof. by intros []. Qed.
Lemma set_pre_ok p d : builder_ok d → builder_ok (set_pre p d).
Proof. by intros []. Qed.
Lemma push_text_ok t d : builder_ok d → builder_ok (push_text t d).
Proof. by intros []. Qed.

Lemma clear_line_ok d : builder_ok d → builder_ok (clear_line d).
Proof. intros []. split; try done. Qed.

Lemma push_span_ok s d : link s = None → builder_ok d → builder_ok (push_span s d).
Proof.
  intros Hs []. split; try done. cbn. apply Forall_app. split; [done|]. constructor; [|constructor]. unfold span_ok. by rewrite Hs.
Qed.

Lemma flush_span_ok d : builder_ok d → builder_ok (flush_span d).
Proof.
  intros Hd. unfold flush_span. case_decide; [done|]. destruct Hd. split; try done. cbn. apply Forall_app. split; [done|].
  constructor; [|constructor]. done.
Qed.

#[export] Hint Resolve builder_new_ok set_buf_ok set_space_ok set_heading_ok set_bold_ok set_pre_ok push_text_ok clear_line_ok
  push_span_ok flush_span_ok : html.

Lemma newline_ok d : builder_ok d → builder_ok (newline d).
Proof.
  intros Hd%flush_span_ok. unfold newline. apply set_space_ok. destruct Hd. split; cbn; try done.
  apply Forall_app. split; [done|]. by constructor.
Qed.

#[export] Hint Resolve newline_ok : html.
#[export] Hint Extern 1 (link _ = None) => reflexivity : html.

Lemma blank_line_ok d : builder_ok d → builder_ok (blank_line d).
Proof.
  intros Hd. unfold blank_line. apply clear_line_ok. set (d1 := if line_has_content d then _ else _).
  assert (builder_ok d1) as H1 by (unfold d1; case_match; auto with html).
  destruct (last (b_lines d1)) as [[|s l]|]; [done| |done]. destruct H1. split; try done. cbn.
  apply Forall_app. split; [done|]. by repeat constructor.
Qed.

Lemma break_line_ok d : builder_ok d → builder_ok (break_line d).
Proof. intros Hd. unfold break_line. case_match; auto with html. Qed.

Lemma push_char_ok ch d : builder_ok d → builder_ok (push_char ch d).
Proof. intros Hd. unfold push_char. repeat case_match; auto 6 with html. Qed.

#[export] Hint Resolve blank_line_ok break_line_ok push_char_ok : html.

Lemma push_str_ok s d : builder_ok d → builder_ok (push_str s d).
Proof. unfold push_str. revert d. induction (chars s) as [|ch cs IH]; intros d Hd; cbn; [done|]. apply IH. auto with html. Qed.

Lemma span_ok_mono n m s : n ≤ m → span_ok n s → span_ok m s.
Proof. unfold span_ok. destruct (link s); [lia|done]. Qed.

Lemma start_link_ok url d : builder_ok d → builder_ok (start_link url d).
Proof.
  intros Hd. unfold start_link. destruct (Z.leb_spec MAX_LINKS (len (b_links d))) as [|Hlt]; [done|].
  pose proof (flush_span_ok d Hd) as Hf. assert (b_links (flush_span d) = b_links d) as El by (unfold flush_span; by case_decide).
  destruct Hf as [Hb Hl Hc _]. rewrite El in *. pose proof (len_nonneg (b_links d)).
  assert (len (b_links d ++ [url]) = len (b_links d) + 1) as En by (rewrite len_app; reflexivity).
  unfold MAX_LINKS in *. split; cbn; rewrite ?El, ?En.
  - unfold MAX_LINKS. lia.
  - eapply Forall_impl; [exact Hl|]. intros l Hs. eapply Forall_impl; [exact Hs|]. intros s. apply span_ok_mono. lia.
  - eapply Forall_impl; [exact Hc|]. intros s. apply span_ok_mono. lia.
  - unfold u16, wrap. rewrite Z.mod_small by lia. lia.
Qed.

Lemma end_link_ok d : builder_ok d → builder_ok (end_link d).
Proof. intros Hd%flush_span_ok. by destruct Hd. Qed.

#[export] Hint Resolve push_str_ok start_link_ok end_link_ok : html.

Lemma process_tag_ok name raw base d : builder_ok d → builder_ok (process_tag name raw base d).
Proof.
  intros Hd. unfold process_tag. repeat (case_match; [cbn beta; auto 8 with html|]); auto with html.
Qed.

Lemma handle_tag_ok base tag f d : builder_ok d → builder_ok (handle_tag base tag f d).2.
Proof.
  intros Hd. unfold handle_tag. case_match; [|done]. repeat (case_match; [done|]).
  case_match; [by apply process_tag_ok|done].
Qed.

Lemma finish_ok d : builder_ok d → doc_ok (finish d).
Proof.
  intros Hd%flush_span_ok. unfold finish. set (d1 := flush_span d) in *. destruct Hd as [Hb Hl Hc _]. split; [done|]. cbn.
  apply Forall_reverse. set (ls := if decide _ then _ else _).
  assert (Forall (Forall (span_ok (len (b_links d1)))) (reverse ls)) as Hls.
  { apply Forall_reverse. unfold ls. case_decide; [done|]. apply Forall_app. split; [done|]. by repeat constructor. }
  induction Hls as [|[|s l] ls' Hs Hls' IH]; cbn; [constructor|done|]. by constructor.
Qed.

(** ** Progress *)

Lemma named_entity_pos table src n ch :
  Forall (λ e, e.1 ≠ []) table → named_entity table src = Some (n, ch) → 1 ≤ n.
Proof.
  induction 1 as [|[pat c] table Hp _ IH]; cbn; [done|]. case_match; [|done]. intros [= <- _].
  destruct pat; [done|]. unfold len. cbn. lia.
Qed.

Lemma entity_digits_pos fuel hex v src : 0 ≤ (entity_digits fuel hex v src).1.1.
Proof.
  revert v src. induction fuel as [|fuel IH]; intros v [|d src]; cbn; try done. destruct (entity_digit hex d); [|done].
  specialize (IH (u32 (v * (if hex then 16 else 10) + z)) src). destruct (entity_digits _ _ _ src) as [[n v'] r]. cbn in *. lia.
Qed.

Lemma decode_entity_pos src : 1 ≤ (decode_entity src).1.
Proof.
  unfold decode_entity. destruct (named_entity NAMED src) as [[n ch]|] eqn:E.
  - apply named_entity_pos in E; [done|]. unfold NAMED. repeat constructor; by vm_compute.
  - case_match; [|done]. set (hex := bool_decide _). pose proof (entity_digits_pos 8 hex 0 (drop (Z.to_nat (if hex then 3 else 2)) src)) as Hn.
    destruct (entity_digits _ _ _ _) as [[n v] r]. cbn [fst] in Hn. case_match; cbn; [|lia]. destruct hex; lia.
Qed.

Lemma seq_len_pos c : (1 ≤ seq_len c)%nat.
Proof. unfold seq_len. repeat case_match; lia. Qed.

Lemma render_loop_ok fuel : ∀ base src f d,
  (length src ≤ fuel)%nat → builder_ok d → ∃ d', render_loop fuel base src f d = Some d' ∧ builder_ok d'.
Proof.
  induction fuel as [|fuel IH]; intros base [|c rest] f d Hf Hd; cbn [render_loop]; try (by exists d).
  - cbn in Hf. lia.
  - cbn in Hf. destruct (c =? 60).
    { destruct (find_byte 62 rest) as [j|]; [|by exists d].
      pose proof (handle_tag_ok base (take j rest) f d Hd) as Ht. destruct (handle_tag _ _ _ _) as [f' d1].
      apply IH; [rewrite length_drop; lia|done]. }
    destruct (_ || _ || _); [apply IH; [lia|done]|].
    destruct (c =? 38).
    + pose proof (decode_entity_pos (c :: rest)) as Hp. destruct (decode_entity (c :: rest)) as [consumed ch]. cbn in Hp.
      apply IH; [rewrite length_drop; cbn; lia|]. destruct ch; auto with html.
    + pose proof (seq_len_pos c). apply IH; [rewrite length_drop; cbn; lia|]. case_match; auto with html.
Qed.

(** C22: rendering.  Whatever the bytes of the page - unclosed tags, broken
    characters, stray references - rendering terminates with a document of at most
    300 links in which every span that is a link refers to one of them. *)
Theorem render_html_doc_ok base_url body :
  ∃ doc, render_html_doc base_url body = Some doc ∧ doc_ok doc.
Proof.
  destruct (render_loop_ok (length body) base_url body (mkFlags false false false) DocBuilder_new) as (d & E & Hd);
    [done|apply builder_new_ok|].
  exists (finish d). unfold render_html_doc. rewrite E. split; [done|]. by apply finish_ok.
Qed.
