(* ===== verification/Layout.v ===== *)
(** * Word wrap: [browser.rs], [layout]

    The columns of a visual line count bytes, as in the code.  The result is [None]
    only when the fuel of the inner loop runs out. *)

From S2P Require Import Prelude Bytes Str Browser Html.

Record LaidSpan : Type := mkLaid { l_col : Z; l_text : list Z; l_style : SpanStyle; l_link : option Z }.

(** The lines that are done, the line being filled, the next column, the run being
    collected and the column it starts at. *)
Record LayoutState : Type := mkLS {
  out : list (list LaidSpan);
  visual : list LaidSpan;
  col : Z;
  run : list Z;
  run_col : Z;
}.

(** The maximal runs of spaces and of other bytes. *)
Fixpoint tokens (s : list Z) : list (list Z) :=
  match s with
  | [] => []
  | c :: s =>
      match tokens s with
      | (d :: w) :: ws => if Bool.eqb (c =? 32) (d =? 32) then (c :: d :: w) :: ws else [c] :: (d :: w) :: ws
      | ws => [c] :: ws
      end
  end.

Definition flush (sp : DocSpan) (l : LayoutState) : LayoutState :=
  if decide (run l = []) then l
  else mkLS (out l) (visual l ++ [mkLaid (run_col l) (run l) (style sp) (link sp)]) (col l) [] (run_col l).

Definition break_visual (sp : DocSpan) (l : LayoutState) : LayoutState :=
  let l := flush sp l in
  mkLS (out l ++ [visual l]) [] 0 (run l) 0.

(** [run.push_str(t); col += t.len()] *)
Definition extend (t : list Z) (l : LayoutState) : LayoutState :=
  mkLS (out l) (visual l) (col l + len t) (run l ++ t) (run_col l).

(** [word.split_at(n)] *)
Definition split_at (n : Z) (w : list Z) : res (list Z * list Z) :=
  if (n <=? len w) && is_char_boundary w n then Ok (take (Z.to_nat n) w, drop (Z.to_nat n) w) else Panic.

Fixpoint place_word (fuel : nat) (max_chars : Z) (sp : DocSpan) (word : list Z) (l : LayoutState) : option (res LayoutState) :=
  if col l + len word <=? max_chars then Some (Ok (extend word l))
  else
    match fuel with
    | O => None
    | S fuel =>
        if 0 <? col l then place_word fuel max_chars sp word (break_visual sp l)
        else
          match split_at max_chars word with
          | Ok (head, tail) =>
              let l := mkLS (out l) (visual l) (col l) (run l ++ head) (run_col l) in
              let l := break_visual sp l in
              if decide (tail = []) then Some (Ok l) else place_word fuel max_chars sp tail l
          | Err e => Some (Err e)
          | Panic => Some Panic
          end
    end.

Definition place_token (max_chars : Z) (sp : DocSpan) (token : list Z) (l : LayoutState) : option (res LayoutState) :=
  if bool_decide (head token = Some 32) then
    if col l + len token <=? max_chars then Some (Ok (extend token l)) else Some (Ok (break_visual sp l))
  else place_word (length token + 1) max_chars sp token l.

(** Sequencing of fallible steps that may run out of fuel. *)
Fixpoint steps {A} (f : A → LayoutState → option (res LayoutState)) (xs : list A) (l : LayoutState)
    : option (res LayoutState) :=
  match xs with
  | [] => Some (Ok l)
  | x :: xs => match f x l with Some (Ok l) => steps f xs l | r => r end
  end.

Definition place_span (max_chars : Z) (sp : DocSpan) (l : LayoutState) : option (res LayoutState) :=
  match steps (place_token max_chars sp) (tokens (text sp)) (mkLS (out l) (visual l) (col l) [] (col l)) with
  | Some (Ok l) => Some (Ok (flush sp l))
  | r => r
  end.

Definition place_line (max_chars : Z) (line : DocLine) (l : LayoutState) : option (res LayoutState) :=
  if decide (line = []) then Some (Ok (mkLS (out l ++ [[]]) [] 0 [] 0))
  else
    match steps (place_span max_chars) line (mkLS (out l) [] 0 [] 0) with
    | Some (Ok l) => Some (Ok (mkLS (out l ++ [visual l]) [] 0 [] 0))
    | r => r
    end.

Definition layout (doc : Document) (max_chars : Z) : option (res (list (list LaidSpan))) :=
  match steps (place_line (Z.max max_chars 10)) (doc_lines doc) (mkLS [] [] 0 [] 0) with
  | Some (Ok l) => Some (Ok (out l))
  | Some (Err e) => Some (Err e)
  | Some Panic => Some Panic
  | None => None
  end.
