(* ===== verification/LayoutSpec.v ===== *)
(** * Word wrap keeps the words and the margin

    On documents whose long words are ASCII, [layout] returns lines that fit and
    carry the text of the document, up to spaces; a longer word of other
    characters makes it panic. *)

From S2P Require Import Prelude Bytes Str Browser Html Layout.

(** ** Specification vocabulary *)

(** The spans follow one another from column [p] to column [e]. *)
Fixpoint chained (p : Z) (ss : list LaidSpan) (e : Z) : Prop :=
  match ss with
  | [] => p = e
  | s :: ss => l_col s = p ∧ l_text s ≠ [] ∧ chained (p + len (l_text s)) ss e
  end.

Definition line_ok (max : Z) (line : list LaidSpan) : Prop := ∃ e, chained 0 line e ∧ e ≤ max.

Definition line_text (line : list LaidSpan) : list Z := concat (map l_text line).
Definition laid (ls : list (list LaidSpan)) : list Z := concat (map line_text ls).

(** The text of a document, and a text without its spaces. *)
Definition doc_text (ls : list DocLine) : list Z := concat (map (λ line, concat (map text line)) ls).
Definition words (s : list Z) : list Z := filter (λ c, c ≠ 32) s.

(** A word is ASCII, or fits on a line. *)
Definition wrappable (max : Z) (token : list Z) : Prop := Forall (λ c, 0 ≤ c < 128) token ∨ len token ≤ max.

Definition span_wrappable (max : Z) (sp : DocSpan) : Prop := Forall (wrappable max) (tokens (text sp)).

#[export] Instance span_wrappable_dec max sp : Decision (span_wrappable max sp).
Proof. unfold span_wrappable, wrappable. apply _. Defined.

Record layout_inv (max : Z) (l : LayoutState) : Prop := mk_layout_inv {
  li_out : Forall (line_ok max) (out l);
  li_visual : chained 0 (visual l) (run_col l);
  li_run : run_col l + len (run l) = col l;
  li_col : 0 ≤ run_col l ∧ col l ≤ max;
}.

Definition placed (l : LayoutState) : list Z := words (laid (out l) ++ line_text (visual l) ++ run l).

(** [l'] has the words of [s] after those of [l]. *)
Definition adds (max : Z) (s : list Z) (l l' : LayoutState) : Prop :=
  layout_inv max l' ∧ placed l' = placed l ++ words s.

(** ** The operations *)

Lemma words_app a b : words (a ++ b) = words a ++ words b.
Proof. apply filter_app. Qed.

Lemma chained_app p ss e s : chained p ss e → l_col s = e → l_text s ≠ [] → chained p (ss ++ [s]) (e + len (l_text s)).
Proof. revert p. induction ss as [|x ss IH]; intros p; cbn; [by intros ->|]. intros (Hc & Hn & H) Hs Ht. auto. Qed.

Lemma flush_spec max sp l :
  layout_inv max l →
  chained 0 (visual (flush sp l)) (col l) ∧ run (flush sp l) = [] ∧ out (flush sp l) = out l ∧ col (flush sp l) = col l ∧
  placed (flush sp l) = placed l.
Proof.
  intros [Ho Hv Hr Hc]. unfold flush. case_decide as Hrun.
  - rewrite Hrun in *. change (len (@nil Z)) with 0 in Hr. repeat split; try done. by rewrite <- Hr, Z.add_0_r.
  - cbn. repeat split; try done.
    + rewrite <- Hr. by apply (chained_app 0 _ _ (mkLaid (run_col l) (run l) (style sp) (link sp))).
    + unfold placed, line_text. cbn. rewrite map_app, concat_app. cbn. by rewrite !app_nil_r.
Qed.

Lemma break_visual_spec max sp l : layout_inv max l → adds max [] l (break_visual sp l) ∧ col (break_visual sp l) = 0.
Proof.
  intros Hl. pose proof Hl as [Ho Hv Hr Hc]. pose proof (len_nonneg (run l)). destruct (flush_spec max sp l Hl) as (Hch & Hrun & Hout & Hcol & Hp).
  unfold break_visual. rewrite Hrun. split; [|done]. split.
  - split; cbn; try done; [|lia]. rewrite Hout. apply Forall_app. split; [done|]. constructor; [|constructor].
    exists (col l). split; [done|lia].
  - rewrite <- Hp. unfold placed, laid, line_text. cbn. rewrite map_app, concat_app. cbn.
    by rewrite Hrun, !app_nil_r.
Qed.

Lemma extend_spec max t l : layout_inv max l → col l + len t ≤ max → adds max t l (extend t l).
Proof.
  intros [Ho Hv Hr Hc] Hle. split.
  - split; cbn; try done; [rewrite len_app; lia|lia].
  - unfold placed. cbn. by rewrite !app_assoc, words_app.
Qed.

Lemma adds_trans max s1 s2 l1 l2 l3 : adds max s1 l1 l2 → adds max s2 l2 l3 → adds max (s1 ++ s2) l1 l3.
Proof. intros [_ E1] [Hi E2]. split; [done|]. by rewrite E2, E1, words_app, app_assoc. Qed.

(** ASCII words can be split anywhere. *)
Lemma split_at_ascii n w : 0 ≤ n ≤ len w → Forall (λ c, 0 ≤ c < 128) w → split_at n w = Ok (take (Z.to_nat n) w, drop (Z.to_nat n) w).
Proof.
  intros Hn Hw. unfold split_at. rewrite (proj2 (Z.leb_le _ _)) by lia. cbn [andb]. unfold is_char_boundary.
  destruct (w !! Z.to_nat n) as [c|] eqn:E.
  - rewrite Forall_lookup in Hw. specialize (Hw _ _ E). cbn in Hw. unfold is_cont.
    by rewrite (proj2 (Z.leb_gt 0x80 c)) by lia.
  - apply lookup_ge_None in E. unfold len in *. by rewrite (proj2 (Z.eqb_eq _ _)) by lia.
Qed.

Lemma place_word_spec max sp fuel : ∀ word l,
  10 ≤ max → layout_inv max l → wrappable max word →
  len word + (if 0 <? col l then 1 else 0) ≤ Z.of_nat fuel →
  ∃ l', place_word fuel max sp word l = Some (Ok l') ∧ adds max word l l'.
Proof.
  induction fuel as [|fuel IH]; intros word l Hmax Hl Hw Hf; pose proof Hl as [_ _ Hrun Hcol]; cbn [place_word];
    destruct (Z.leb_spec (col l + len word) max) as [Hfit|Hfit].
  - eexists. split; [done|]. by apply extend_spec.
  - pose proof (len_nonneg (run l)). destruct (Z.ltb_spec 0 (col l)); [lia|]. pose proof (len_nonneg word). lia.
  - eexists. split; [done|]. by apply extend_spec.
  - destruct (Z.ltb_spec 0 (col l)) as [Hpos|Hz].
    + destruct (break_visual_spec max sp l Hl) as [Hb Hb0].
      destruct (IH word (break_visual sp l)) as (l' & E & Ha); [done|apply Hb|done|rewrite Hb0; cbn; lia|].
      exists l'. split; [done|]. by apply (adds_trans max [] word _ _ _ Hb).
    + assert (run l = [] ∧ col l = 0) as [Er Ec].
      { pose proof (len_nonneg (run l)). destruct (run l); [split; [done|lia]|unfold len in *; cbn in *; lia]. }
      destruct Hw as [Hascii|Hlen]; [|lia]. rewrite split_at_ascii by (done || lia).
      set (h := take _ word). set (t := drop _ word).
      assert (len h = max) as Hh by (unfold h, len; rewrite length_take; unfold len in *; lia).
      set (l1 := mkLS (out l) (visual l) (col l) (run l ++ h) (run_col l)).
      assert (layout_inv max (mkLS (out l) (visual l) max (run l ++ h) (run_col l))) as Hl1.
      { destruct Hl. split; cbn; try done; [rewrite len_app, Hh, Er; rewrite Er in Hrun; change (len (@nil Z)) with 0 in *; lia|lia]. }
      destruct (break_visual_spec max sp _ Hl1) as [Hb Hb0].
      assert (break_visual sp l1 = break_visual sp (mkLS (out l) (visual l) max (run l ++ h) (run_col l))) as Eb
        by (unfold break_visual, flush, l1; cbn; by case_decide).
      rewrite Eb. assert (adds max h l (break_visual sp (mkLS (out l) (visual l) max (run l ++ h) (run_col l)))) as Hadd.
      { destruct Hb as [Hbi Hbp]. split; [done|]. rewrite Hbp. unfold placed. cbn. by rewrite app_nil_r, !app_assoc, words_app. }
      assert (word = h ++ t) as Ew by (symmetry; apply take_drop). case_decide as Ht.
      * eexists. split; [done|]. by rewrite Ew, Ht, app_nil_r.
      * destruct (IH t (break_visual sp (mkLS (out l) (visual l) max (run l ++ h) (run_col l)))) as (l' & E & Ha);
          [done|apply Hb|left; by apply Forall_drop| |].
        { rewrite Hb0. cbn. unfold t. unfold len in *. rewrite length_drop. lia. }
        exists l'. split; [done|]. rewrite Ew. by eapply adds_trans.
Qed.

(** ** Tokens *)

Definition uniform (w : list Z) : Prop := w ≠ [] ∧ ((∀ c, c ∈ w → c = 32) ∨ (∀ c, c ∈ w → c ≠ 32)).

Lemma tokens_spec s : concat (tokens s) = s ∧ Forall uniform (tokens s).
Proof.
  induction s as [|c s [IH1 IH2]]; [done|]. cbn. destruct (tokens s) as [|[|d w] ws] eqn:E.
  - cbn in IH1. subst s. split; [done|]. constructor; [|constructor]. split; [done|].
    destruct (decide (c = 32)) as [->|]; [left|right]; intros x ->%list_elem_of_singleton; done.
  - by apply Forall_cons in IH2 as [[] _].
  - apply Forall_cons in IH2 as [[_ Hu] Hws]. destruct (Bool.eqb (c =? 32) (d =? 32)) eqn:Eb; cbn in IH1 |- *.
    + split; [by rewrite IH1|]. constructor; [|done]. split; [done|]. apply Bool.eqb_prop in Eb.
      destruct Hu as [Hu|Hu]; [left|right]; intros x [->|Hx]%elem_of_cons; auto.
      * rewrite (Hu d) in Eb by constructor. by apply Z.eqb_eq.
      * specialize (Hu d ltac:(constructor)). apply Z.eqb_neq in Hu. rewrite Hu in Eb. by apply Z.eqb_neq.
    + split; [by rewrite IH1|]. constructor; [|by constructor]. split; [done|].
      destruct (decide (c = 32)) as [->|]; [left|right]; intros x ->%list_elem_of_singleton; done.
Qed.

Lemma words_spaces w : (∀ c, c ∈ w → c = 32) → words w = [].
Proof.
  induction w as [|c w IH]; intros H; [done|]. unfold words. rewrite filter_cons_False.
  - apply IH. intros x Hx. apply H. by constructor.
  - rewrite (H c) by constructor. tauto.
Qed.

Lemma place_token_spec max sp t l :
  10 ≤ max → layout_inv max l → uniform t → wrappable max t →
  ∃ l', place_token max sp t l = Some (Ok l') ∧ adds max t l l'.
Proof.
  intros Hmax Hl [Hne Hu] Hw. unfold place_token. destruct t as [|c t]; [done|]. cbn [head]. case_bool_decide as Hc.
  - injection Hc as ->. destruct Hu as [Hu|Hu]; [|by destruct (Hu 32 ltac:(constructor))].
    destruct (Z.leb_spec (col l + len (32 :: t)) max); (eexists; split; [done|]).
    + by apply extend_spec.
    + destruct (break_visual_spec max sp l Hl) as [[Hi Hp] _]. split; [done|]. rewrite Hp. by rewrite (words_spaces (32 :: t)).
  - apply place_word_spec; [done..|]. unfold len. case_match; lia.
Qed.

(** A sequence of steps that each add their text. *)
Lemma steps_spec {A} max (f : A → LayoutState → option (res LayoutState)) (txt : A → list Z) (P : A → Prop) xs :
  (∀ x l, P x → layout_inv max l → ∃ l', f x l = Some (Ok l') ∧ adds max (txt x) l l') →
  ∀ l, Forall P xs → layout_inv max l → ∃ l', steps f xs l = Some (Ok l') ∧ adds max (concat (map txt xs)) l l'.
Proof.
  intros Hf. induction xs as [|x xs IH]; intros l Hxs Hl; cbn.
  - exists l. split; [done|]. split; [done|]. by rewrite app_nil_r.
  - apply Forall_cons in Hxs as [Hx Hxs]. destruct (Hf x l Hx Hl) as (l1 & -> & H1).
    destruct (IH l1 Hxs) as (l2 & -> & H2); [apply H1|]. exists l2. split; [done|]. by eapply adds_trans.
Qed.

(** Between spans the run is empty. *)
Definition settled (max : Z) (l : LayoutState) : Prop := layout_inv max (mkLS (out l) (visual l) (col l) [] (col l)).

Lemma placed_settled l : placed (mkLS (out l) (visual l) (col l) [] (col l)) = words (laid (out l) ++ line_text (visual l)).
Proof. unfold placed. cbn. by rewrite app_nil_r. Qed.

Lemma place_span_spec max sp l :
  10 ≤ max → span_wrappable max sp → settled max l →
  ∃ l', place_span max sp l = Some (Ok l') ∧ settled max l' ∧
    words (laid (out l') ++ line_text (visual l')) = words (laid (out l) ++ line_text (visual l)) ++ words (text sp).
Proof.
  intros Hmax Hsp Hl. unfold place_span. destruct (tokens_spec (text sp)) as [Hc Hu].
  destruct (steps_spec max (place_token max sp) id (λ t, uniform t ∧ wrappable max t) (tokens (text sp))
    ltac:(intros t l0 [? ?] ?; by apply place_token_spec) (mkLS (out l) (visual l) (col l) [] (col l))) as (l1 & -> & [Hi Hp]);
    [by apply Forall_and|done|].
  rewrite map_id, Hc, placed_settled in Hp. destruct (flush_spec max sp l1 Hi) as (Hch & Hrun & Hout & Hcol & Hpl).
  eexists. split; [done|]. split.
  - destruct Hi as [Ho Hv Hr Hcc]. pose proof (len_nonneg (run l1)). split; cbn; rewrite ?Hout, ?Hcol; try done; [|lia].
    change (len (@nil Z)) with 0. lia.
  - rewrite <- Hp, <- Hpl. unfold placed. by rewrite Hrun, app_nil_r.
Qed.

Lemma place_spans_spec max line l :
  10 ≤ max → Forall (span_wrappable max) line → settled max l →
  ∃ l', steps (place_span max) line l = Some (Ok l') ∧ settled max l' ∧
    words (laid (out l') ++ line_text (visual l')) =
      words (laid (out l) ++ line_text (visual l)) ++ words (concat (map text line)).
Proof.
  intros Hmax. revert l. induction line as [|sp line IH]; intros l Hs Hl; cbn.
  - exists l. by rewrite app_nil_r.
  - apply Forall_cons in Hs as [Hsp Hs]. destruct (place_span_spec max sp l Hmax Hsp Hl) as (l1 & -> & H1 & E1).
    destruct (IH l1 Hs H1) as (l2 & -> & H2 & E2). exists l2. split; [done|]. split; [done|].
    rewrite E2, E1. by rewrite <- app_assoc, <- words_app.
Qed.

Definition fresh_line (max : Z) (l : LayoutState) : Prop :=
  ∃ o, l = mkLS o [] 0 [] 0 ∧ Forall (line_ok max) o.

Lemma place_line_spec max line l :
  10 ≤ max → Forall (span_wrappable max) line → fresh_line max l →
  ∃ l', place_line max line l = Some (Ok l') ∧ fresh_line max l' ∧
    words (laid (out l')) = words (laid (out l)) ++ words (concat (map text line)).
Proof.
  intros Hmax Hs (o & -> & Ho). unfold place_line. case_decide as Hl.
  - eexists. split; [done|]. split.
    + eexists. split; [done|]. apply Forall_app. split; [done|]. constructor; [|constructor]. exists 0. split; [done|lia].
    + subst line. unfold laid. cbn. rewrite map_app, concat_app. cbn. by rewrite !app_nil_r.
  - destruct (place_spans_spec max line (mkLS o [] 0 [] 0) Hmax Hs) as (l1 & E1 & H1 & E2).
    { split; cbn; try done. lia. }
    cbn [out]. rewrite E1. eexists. split; [done|]. split.
    + eexists. split; [done|]. destruct H1 as [Ho1 Hv1 _ Hc1]. cbn in *. apply Forall_app. split; [done|].
      constructor; [|constructor]. exists (col l1). split; [done|lia].
    + cbn in *. unfold laid, line_text in *. cbn in *. rewrite app_nil_r in E2. rewrite map_app, concat_app. cbn. by rewrite app_nil_r.
Qed.

(** C23: word wrap.  When every word of the document is ASCII or short enough for a
    line, [layout] terminates without a panic; on every visual line the spans follow
    one another from column 0 and end within the width (at least 10); and, spaces
    apart, the lines carry the text of the document in order. *)
Theorem layout_spec doc max_chars :
  Forall (Forall (span_wrappable (Z.max max_chars 10))) (doc_lines doc) →
  ∃ ls, layout doc max_chars = Some (Ok ls) ∧ Forall (line_ok (Z.max max_chars 10)) ls ∧
    words (laid ls) = words (doc_text (doc_lines doc)).
Proof.
  intros Hd. unfold layout. set (max := Z.max max_chars 10) in *. assert (10 ≤ max) as Hmax by lia.
  assert (∀ l, fresh_line max l → ∃ l', steps (place_line max) (doc_lines doc) l = Some (Ok l') ∧ fresh_line max l' ∧
    words (laid (out l')) = words (laid (out l)) ++ words (doc_text (doc_lines doc))) as H.
  { induction Hd as [|line ls Hline _ IH]; intros l Hl; cbn [steps].
    - exists l. cbn. by rewrite app_nil_r.
    - destruct (place_line_spec max line l Hmax Hline Hl) as (l1 & -> & H1 & E1).
      destruct (IH l1 H1) as (l2 & -> & H2 & E2). exists l2. split; [done|]. split; [done|].
      unfold doc_text in *. cbn. rewrite E2, E1. by rewrite <- app_assoc, <- words_app. }
  destruct (H (mkLS [] [] 0 [] 0)) as (l' & -> & (o & -> & Ho) & E); [by exists []|].
  exists o. done.
Qed.

(** A word of other characters that is longer than a line is split in the middle of a
    character: here four characters of three bytes at width 10. *)
Theorem layout_panics :
  layout (mkDoc [[mkSpan (concat (replicate 4 [0xE4; 0xBD; 0xA0])) StNormal None]] []) 10 = Some Panic.
Proof. by vm_compute. Qed.

Module LayoutExample.

Definition page : Document := mkDoc [[mkSpan (bytes_of_string "a longer line of text") StBold (Some 0)]; []] [[]].

Lemma layout_spec_witness :
  ∃ ls, layout page 12 = Some (Ok ls) ∧ Forall (line_ok 12) ls ∧ words (laid ls) = words (doc_text (doc_lines page)).
Proof.
  apply (layout_spec page 12). apply (bool_decide_unpack _). by vm_compute.
Defined.

End LayoutExample.
