(* ===== verification/Keyboard.v ===== *)
(** * The PS/2 keyboard: [drivers/keyboard.rs]

    Scan codes of set 1 to key events, the modifiers, the queue of 256 events and
    what is typed.  The three statics of the driver are a state; the byte that the
    interrupt handler reads from port 0x60 is an argument. *)

From S2P Require Import Prelude.
From Stdlib Require Import Ascii.

Module KeyCode.

Inductive t : Type :=
  | Unknown | A | B | C | D | E | F | G | H | I | J | K | L | M | N | O | P | Q | R | S | T | U | V | W | X
  | Y | Z | Key0 | Key1 | Key2 | Key3 | Key4 | Key5 | Key6 | Key7 | Key8 | Key9 | F1 | F2 | F3 | F4 | F5 | F6
  | F7 | F8 | F9 | F10 | F11 | F12 | Escape | Tab | CapsLock | LeftShift | RightShift | LeftCtrl | RightCtrl
  | LeftAlt | RightAlt | Space | Enter | Backspace | Delete | Insert | Home | End | PageUp | PageDown | Up
  | Down | Left | Right | Minus | Equals | LeftBracket | RightBracket | Backslash | Semicolon | Quote | Grave
  | Comma | Period | Slash | NumLock | ScrollLock | Keypad0 | Keypad1 | Keypad2 | Keypad3 | Keypad4 | Keypad5
  | Keypad6 | Keypad7 | Keypad8 | Keypad9 | KeypadPlus | KeypadMinus | KeypadMultiply | KeypadDivide
  | KeypadEnter | KeypadPeriod.

End KeyCode.

Record Modifiers : Type := mkModifiers {
  m_shift : bool;
  m_ctrl : bool;
  m_alt : bool;
  caps_lock : bool;
  num_lock : bool;
}.

Record KeyEvent : Type := mkKeyEvent {
  scancode : Z;
  keycode : KeyCode.t;
  modifiers : Modifiers;
  pressed : bool;
}.

(** [KEYBOARD_BUFFER], [EXTENDED_KEY] and [MODIFIERS]. *)
Record Keyboard : Type := mkKeyboard {
  keyboard_buffer : list KeyEvent;
  extended_key : bool;
  mods : Modifiers;
}.

Definition keyboard_new : Keyboard := mkKeyboard [] false (mkModifiers false false false false false).

(** ** Scan codes *)

(** [u8]; the key Z hides the name of the integers below. *)
Definition byte : Type := Z.

Section Tables.
Import KeyCode.

Definition extended_scancode_to_keycode (scancode : byte) : KeyCode.t :=
  match scancode with
  | 0x1C => KeypadEnter | 0x1D => RightCtrl | 0x35 => KeypadDivide | 0x38 => RightAlt | 0x47 => Home
  | 0x48 => Up | 0x49 => PageUp | 0x4B => Left | 0x4D => Right | 0x4F => End | 0x50 => Down
  | 0x51 => PageDown | 0x52 => Insert | 0x53 => Delete
  | _ => Unknown
  end.

Definition scancode_to_keycode (scancode : byte) : KeyCode.t :=
  match scancode with
  | 0x01 => Escape | 0x02 => Key1 | 0x03 => Key2 | 0x04 => Key3 | 0x05 => Key4 | 0x06 => Key5
  | 0x07 => Key6 | 0x08 => Key7 | 0x09 => Key8 | 0x0A => Key9 | 0x0B => Key0 | 0x0C => Minus
  | 0x0D => Equals | 0x0E => Backspace | 0x0F => Tab | 0x10 => Q | 0x11 => W | 0x12 => E | 0x13 => R
  | 0x14 => T | 0x15 => Y | 0x16 => U | 0x17 => I | 0x18 => O | 0x19 => P | 0x1A => LeftBracket
  | 0x1B => RightBracket | 0x1C => Enter | 0x1D => LeftCtrl | 0x1E => A | 0x1F => S | 0x20 => D | 0x21 => F
  | 0x22 => G | 0x23 => H | 0x24 => J | 0x25 => K | 0x26 => L | 0x27 => Semicolon | 0x28 => Quote
  | 0x29 => Grave | 0x2A => LeftShift | 0x2B => Backslash | 0x2C => Z | 0x2D => X | 0x2E => C | 0x2F => V
  | 0x30 => B | 0x31 => N | 0x32 => M | 0x33 => Comma | 0x34 => Period | 0x35 => Slash | 0x36 => RightShift
  | 0x37 => KeypadMultiply | 0x38 => LeftAlt | 0x39 => Space | 0x3A => CapsLock | 0x3B => F1 | 0x3C => F2
  | 0x3D => F3 | 0x3E => F4 | 0x3F => F5 | 0x40 => F6 | 0x41 => F7 | 0x42 => F8 | 0x43 => F9 | 0x44 => F10
  | 0x45 => NumLock | 0x46 => ScrollLock | 0x47 => Keypad7 | 0x48 => Keypad8 | 0x49 => Keypad9
  | 0x4A => KeypadMinus | 0x4B => Keypad4 | 0x4C => Keypad5 | 0x4D => Keypad6 | 0x4E => KeypadPlus
  | 0x4F => Keypad1 | 0x50 => Keypad2 | 0x51 => Keypad3 | 0x52 => Keypad0 | 0x53 => KeypadPeriod
  | 0x57 => F11 | 0x58 => F12
  | _ => Unknown
  end.

End Tables.

(** ** Events *)

Definition update_modifiers (keycode : KeyCode.t) (pressed : bool) (m : Modifiers) : Modifiers :=
  let '(mkModifiers shift ctrl alt caps num) := m in
  match keycode with
  | KeyCode.LeftShift | KeyCode.RightShift => mkModifiers pressed ctrl alt caps num
  | KeyCode.LeftCtrl | KeyCode.RightCtrl => mkModifiers shift pressed alt caps num
  | KeyCode.LeftAlt | KeyCode.RightAlt => mkModifiers shift ctrl pressed caps num
  | KeyCode.CapsLock => if pressed then mkModifiers shift ctrl alt (negb caps) num else m
  | KeyCode.NumLock => if pressed then mkModifiers shift ctrl alt caps (negb num) else m
  | _ => m
  end.

Definition process_scancode (scancode : Z) (extended : bool) (m : Modifiers) : KeyEvent * Modifiers :=
  let pressed := Z.land scancode 0x80 =? 0 in
  let code := Z.land scancode 0x7F in
  let keycode := if extended then extended_scancode_to_keycode code else scancode_to_keycode code in
  let m := update_modifiers keycode pressed m in
  (mkKeyEvent scancode keycode m pressed, m).

Definition handle_interrupt (scancode : Z) (k : Keyboard) : Keyboard :=
  if scancode =? 0xE0 then mkKeyboard (keyboard_buffer k) true (mods k)
  else
    let '(event, m) := process_scancode scancode (extended_key k) (mods k) in
    let buffer :=
      if Z.of_nat (length (keyboard_buffer k)) <? 256 then keyboard_buffer k ++ [event] else keyboard_buffer k in
    mkKeyboard buffer false m.

(** ** Characters *)

Section Chars.
Import KeyCode.
Local Open Scope char_scope.

Definition keyevent_to_char (event : KeyEvent) : option ascii :=
  if negb (pressed event) then None
  else
    let shift := xorb (m_shift (modifiers event)) (caps_lock (modifiers event)) in
    match keycode event with
      | A => Some (if shift then "A" else "a")
      | B => Some (if shift then "B" else "b")
      | C => Some (if shift then "C" else "c")
      | D => Some (if shift then "D" else "d")
      | E => Some (if shift then "E" else "e")
      | F => Some (if shift then "F" else "f")
      | G => Some (if shift then "G" else "g")
      | H => Some (if shift then "H" else "h")
      | I => Some (if shift then "I" else "i")
      | J => Some (if shift then "J" else "j")
      | K => Some (if shift then "K" else "k")
      | L => Some (if shift then "L" else "l")
      | M => Some (if shift then "M" else "m")
      | N => Some (if shift then "N" else "n")
      | O => Some (if shift then "O" else "o")
      | P => Some (if shift then "P" else "p")
      | Q => Some (if shift then "Q" else "q")
      | R => Some (if shift then "R" else "r")
      | S => Some (if shift then "S" else "s")
      | T => Some (if shift then "T" else "t")
      | U => Some (if shift then "U" else "u")
      | V => Some (if shift then "V" else "v")
      | W => Some (if shift then "W" else "w")
      | X => Some (if shift then "X" else "x")
      | Y => Some (if shift then "Y" else "y")
      | Z => Some (if shift then "Z" else "z")
      | Key0 => Some (if m_shift (modifiers event) then ")" else "0")
      | Key1 => Some (if m_shift (modifiers event) then "!" else "1")
      | Key2 => Some (if m_shift (modifiers event) then "@" else "2")
      | Key3 => Some (if m_shift (modifiers event) then "#" else "3")
      | Key4 => Some (if m_shift (modifiers event) then "$" else "4")
      | Key5 => Some (if m_shift (modifiers event) then "%" else "5")
      | Key6 => Some (if m_shift (modifiers event) then "^" else "6")
      | Key7 => Some (if m_shift (modifiers event) then "&" else "7")
      | Key8 => Some (if m_shift (modifiers event) then "*" else "8")
      | Key9 => Some (if m_shift (modifiers event) then "(" else "9")
      | Space => Some " "
      | Enter => Some "010"
      | Tab => Some "009"
      | Backspace => Some "008"
      | Escape => Some "027"
      | Delete => Some "127"
      | Minus => Some (if m_shift (modifiers event) then "_" else "-")
      | Equals => Some (if m_shift (modifiers event) then "+" else "=")
      | LeftBracket => Some (if m_shift (modifiers event) then "{" else "[")
      | RightBracket => Some (if m_shift (modifiers event) then "}" else "]")
      | Backslash => Some (if m_shift (modifiers event) then "|" else "\")
      | Semicolon => Some (if m_shift (modifiers event) then ":" else ";")
      | Quote => Some (if m_shift (modifiers event) then "034" else "'")
      | Grave => Some (if m_shift (modifiers event) then "~" else "`")
      | Comma => Some (if m_shift (modifiers event) then "<" else ",")
      | Period => Some (if m_shift (modifiers event) then ">" else ".")
      | Slash => Some (if m_shift (modifiers event) then "?" else "/")
      | Keypad0 => Some "0"
      | Keypad1 => Some "1"
      | Keypad2 => Some "2"
      | Keypad3 => Some "3"
      | Keypad4 => Some "4"
      | Keypad5 => Some "5"
      | Keypad6 => Some "6"
      | Keypad7 => Some "7"
      | Keypad8 => Some "8"
      | Keypad9 => Some "9"
      | KeypadPlus => Some "+"
      | KeypadMinus => Some "-"
      | KeypadMultiply => Some "*"
      | KeypadDivide => Some "/"
      | KeypadEnter => Some "010"
      | KeypadPeriod => Some "."
      | _ => None
    end.

End Chars.

(** ** Reading *)

Definition read_key (k : Keyboard) : option KeyEvent * Keyboard :=
  match keyboard_buffer k with
  | [] => (None, k)
  | event :: buffer => (Some event, mkKeyboard buffer (extended_key k) (mods k))
  end.

Definition read_char (k : Keyboard) : option ascii * Keyboard :=
  let '(event, k) := read_key k in
  (event ≫= keyevent_to_char, k).

(** The loop of [get_char] over the events of the buffer. *)
Fixpoint next_char (buffer : list KeyEvent) : option ascii * list KeyEvent :=
  match buffer with
  | [] => (None, [])
  | event :: buffer =>
      match keyevent_to_char event with
      | Some c => (Some c, buffer)
      | None => next_char buffer
      end
  end.

Definition get_char (k : Keyboard) : option ascii * Keyboard :=
  let '(c, buffer) := next_char (keyboard_buffer k) in
  (c, mkKeyboard buffer (extended_key k) (mods k)).

Definition has_key (k : Keyboard) : bool := negb (bool_decide (length (keyboard_buffer k) = 0%nat)).
