(* ===== verification/KeyboardSpec.v ===== *)
(** * The keyboard: what is typed is what is read *)

From S2P Require Import Prelude Keyboard.
From Stdlib Require Import Ascii.

#[local] Arguments process_scancode : simpl never.

(** The interrupts of a sequence of scan codes. *)
Definition interrupts (codes : list Z) (k : Keyboard) : Keyboard := foldl (λ k c, handle_interrupt c k) k codes.

(** ** The events of a sequence of scan codes *)

Fixpoint key_events (codes : list Z) (extended : bool) (m : Modifiers) : list KeyEvent :=
  match codes with
  | [] => []
  | c :: codes =>
      if c =? 0xE0 then key_events codes true m
      else let '(e, m) := process_scancode c extended m in e :: key_events codes false m
  end.

(** The prefix flag and the modifiers the sequence leaves. *)
Fixpoint keys_after (codes : list Z) (extended : bool) (m : Modifiers) : bool * Modifiers :=
  match codes with
  | [] => (extended, m)
  | c :: codes =>
      if c =? 0xE0 then keys_after codes true m else keys_after codes false (process_scancode c extended m).2
  end.

Lemma key_events_app c1 c2 ext m :
  key_events (c1 ++ c2) ext m =
  key_events c1 ext m ++ key_events c2 (keys_after c1 ext m).1 (keys_after c1 ext m).2.
Proof.
  revert ext m. induction c1 as [|c c1 IH]; intros ext m; [done|]. cbn.
  destruct (c =? 0xE0); [apply IH|]. destruct (process_scancode c ext m) as [e m']. cbn. by rewrite IH.
Qed.

Lemma keys_after_app c1 c2 ext m :
  keys_after (c1 ++ c2) ext m = keys_after c2 (keys_after c1 ext m).1 (keys_after c1 ext m).2.
Proof.
  revert ext m. induction c1 as [|c c1 IH]; intros ext m; [done|]. cbn. by destruct (c =? 0xE0).
Qed.

Lemma length_key_events codes ext m : (length (key_events codes ext m) ≤ length codes)%nat.
Proof.
  revert ext m. induction codes as [|c codes IH]; intros ext m; [done|]. cbn. destruct (c =? 0xE0).
  - specialize (IH true m). lia.
  - destruct (process_scancode c ext m) as [e m']. cbn. specialize (IH false m'). lia.
Qed.

(** The queue holds the first 256 events; the modifiers follow all of them. *)
Lemma interrupts_events codes buffer ext m :
  (length buffer ≤ 256)%nat →
  interrupts codes (mkKeyboard buffer ext m) =
  mkKeyboard (take 256 (buffer ++ key_events codes ext m)) (keys_after codes ext m).1 (keys_after codes ext m).2.
Proof.
  unfold interrupts. revert buffer ext m. induction codes as [|c codes IH]; intros buffer ext m Hb.
  { cbn. by rewrite app_nil_r, take_ge by lia. }
  cbn [foldl key_events keys_after]. unfold handle_interrupt at 2. cbn [keyboard_buffer extended_key mods].
  destruct (c =? 0xE0); [by apply IH|]. destruct (process_scancode c ext m) as [e m']. cbn [snd].
  destruct (_ <? 256) eqn:E.
  - apply Z.ltb_lt in E. rewrite IH by (rewrite length_app; cbn; lia). by rewrite <-app_assoc.
  - apply Z.ltb_ge in E. rewrite IH by done. f_equal. by rewrite !take_app_le by lia.
Qed.

(** ** Reading *)

Fixpoint get_chars (n : nat) (k : Keyboard) : list ascii * Keyboard :=
  match n with
  | O => ([], k)
  | S n =>
      match get_char k with
      | (Some c, k) => let '(cs, k) := get_chars n k in (c :: cs, k)
      | (None, k) => ([], k)
      end
  end.

Lemma next_char_Some buffer c rest :
  next_char buffer = (Some c, rest) →
  omap keyevent_to_char buffer = c :: omap keyevent_to_char rest ∧ (length rest < length buffer)%nat.
Proof.
  induction buffer as [|e buffer IH]; [done|]. cbn. destruct (keyevent_to_char e) as [c'|].
  - intros [= -> ->]. split; [done|lia].
  - intros H. destruct (IH H) as [-> ?]. split; [done|lia].
Qed.

Lemma next_char_None buffer rest : next_char buffer = (None, rest) → omap keyevent_to_char buffer = [] ∧ rest = [].
Proof.
  induction buffer as [|e buffer IH]; [by intros [= <-]|]. cbn. by destruct (keyevent_to_char e).
Qed.

Lemma get_chars_all n k :
  (length (keyboard_buffer k) < n)%nat →
  get_chars n k = (omap keyevent_to_char (keyboard_buffer k), mkKeyboard [] (extended_key k) (mods k)).
Proof.
  revert k. induction n as [|n IH]; intros k Hn; [lia|]. cbn. unfold get_char.
  destruct (next_char (keyboard_buffer k)) as [[c|] rest] eqn:E.
  - apply next_char_Some in E as [-> Hl]. rewrite IH by (cbn; lia). done.
  - apply next_char_None in E as [-> ->]. done.
Qed.

(** ** Typing *)

Definition no_mods : Modifiers := mods keyboard_new.

(** The first key that gives [c], with and without the shift key. *)
Definition key_for (shift : bool) (c : ascii) : option Z :=
  find_range 1 0x59 (λ code,
    bool_decide (keyevent_to_char (mkKeyEvent code (scancode_to_keycode code) (mkModifiers shift false false false false) true)
                 = Some c)).

(** The strokes that type [c]: the key, with the left shift key around it where the
    character needs it. *)
Definition strokes (c : ascii) : list Z :=
  match key_for false c, key_for true c with
  | Some code, _ => [code; code + 0x80]
  | None, Some code => [0x2A; code; code + 0x80; 0xAA]
  | None, None => []
  end.

Definition typable (c : ascii) : bool := negb (bool_decide (strokes c = [])).

Definition strokes_ok (c : ascii) : bool :=
  implb (typable c)
    (bool_decide (omap keyevent_to_char (key_events (strokes c) false no_mods) = [c]) &&
     match keys_after (strokes c) false no_mods with (false, mkModifiers false false false false false) => true | _ => false end).

Lemma strokes_type c : typable c = true →
  omap keyevent_to_char (key_events (strokes c) false no_mods) = [c] ∧ keys_after (strokes c) false no_mods = (false, no_mods).
Proof.
  intros Hc. assert (strokes_ok c = true) as H by (clear; destruct c as [[] [] [] [] [] [] [] []]; vm_compute; reflexivity).
  unfold strokes_ok in H. rewrite Hc in H. cbn [implb] in H. apply andb_true_iff in H as [H1%bool_decide_eq_true H2].
  split; [done|]. by destruct (keys_after (strokes c) false no_mods) as [[] [[] [] [] [] []]].
Qed.

Lemma strokes_text s : Forall (λ c, typable c = true) s →
  omap keyevent_to_char (key_events (s ≫= strokes) false no_mods) = s ∧ keys_after (s ≫= strokes) false no_mods = (false, no_mods).
Proof.
  induction 1 as [|c s Hc _ [IH1 IH2]]; [done|]. destruct (strokes_type c Hc) as [H1 H2]. rewrite bind_cons.
  rewrite key_events_app, keys_after_app, omap_app, H1, H2. cbn [fst snd app]. by rewrite IH1, IH2.
Qed.

(** C24: typing.  Every printable character of ASCII, the new line, the tab, the
    backspace and the escape have strokes that type them; and a text typed with them,
    if its strokes are at most the 256 events of the queue, is what [get_char] reads
    back, in order, the keyboard being left as it was.  Beyond the capacity the first
    256 events are kept, whatever the scan codes. *)
Theorem typing_roundtrip s :
  (∀ c, ((32 ≤ nat_of_ascii c < 127) ∨ nat_of_ascii c ∈ [8; 9; 10; 27])%nat → typable c = true) ∧
  (Forall (λ c, typable c = true) s → (length (s ≫= strokes) ≤ 256)%nat →
     get_chars 257 (interrupts (s ≫= strokes) keyboard_new) = (s, keyboard_new)) ∧
  (∀ codes, keyboard_buffer (interrupts codes keyboard_new) = take 256 (key_events codes false no_mods)).
Proof.
  split; [|split].
  - intros c. assert (implb (bool_decide ((32 ≤ nat_of_ascii c < 127) ∨ nat_of_ascii c ∈ [8; 9; 10; 27])%nat) (typable c) = true) as H
      by (destruct c as [[] [] [] [] [] [] [] []]; vm_compute; reflexivity).
    intros Hc. by rewrite (bool_decide_eq_true_2 _ Hc) in H.
  - intros Hs Hl. destruct (strokes_text s Hs) as [H1 H2]. unfold keyboard_new. rewrite interrupts_events by (cbn; lia).
    change (mkModifiers false false false false false) with no_mods. rewrite H2. cbn [app].
    pose proof (length_key_events (s ≫= strokes) false no_mods). rewrite take_ge by lia.
    rewrite get_chars_all by (cbn [keyboard_buffer]; lia). cbn [keyboard_buffer extended_key mods fst snd]. by rewrite H1.
  - intros codes. unfold keyboard_new. by rewrite interrupts_events by (cbn; lia).
Qed.

(** ** What the modifiers forget *)

(** With both shift keys down, releasing one is releasing both. *)
Lemma shift_released_early : m_shift (mods (interrupts [0x2A; 0x36; 0xB6] keyboard_new)) = false.
Proof. by vm_compute. Qed.

(** The Pause key sends E1 1D 45 E1 9D C5: only E0 is taken for a prefix, and the key
    toggles NumLock. *)
Lemma pause_toggles_num_lock : num_lock (mods (interrupts [0xE1; 0x1D; 0x45; 0xE1; 0x9D; 0xC5] keyboard_new)) = true.
Proof. by vm_compute. Qed.

Module KeyboardExample.

Definition hello : list ascii := ["H"; "i"; "!"; "009"; "~"]%char.

Lemma typing_roundtrip_witness : get_chars 257 (interrupts (hello ≫= strokes) keyboard_new) = (hello, keyboard_new).
Proof.
  apply (typing_roundtrip hello).
  - repeat constructor.
  - apply (bool_decide_unpack _). vm_compute. exact I.
Defined.

End KeyboardExample.
