(* ===== verification/Console.v ===== *)
(** * The text console: [drivers/console.rs]

    The writer on the 80 x 25 text screen at 0xB8000, as the code writes it: the
    cursor, the cells it stores through the pointer (an array indexed by the offset
    from [VGA_BUFFER], which the code does not check), and the bytes it sends to the
    serial port first.  The writer of the boot loader is the module [Vga]. *)

From S2P Require Import Prelude.

Definition VGA_WIDTH : Z := 80.
Definition VGA_HEIGHT : Z := 25.

Record Console : Type := mkConsole {
  col : Z;
  row : Z;
  color : Z;
  vga : arr Z;
  serial : list Z;
}.

(** [Console::new]; what the screen holds then is [vga]. *)
Definition Console_new (vga : arr Z) : Console := mkConsole 0 0 0x0F vga [].

Definition set_cursor (r c : Z) (con : Console) : Console := mkConsole c r (color con) (vga con) (serial con).
Definition set_vga (m : arr Z) (con : Console) : Console := mkConsole (col con) (row con) (color con) m (serial con).

(** [(self.color as u16) << 8 | byte as u16] *)
Definition cell (color byte : Z) : Z := Z.lor (Z.shiftl color 8) byte.

Definition scroll_row (row : Z) (m : arr Z) : arr Z :=
  for_range 0 VGA_WIDTH (λ col m,
    let src := row * VGA_WIDTH + col in
    let dst := (row - 1) * VGA_WIDTH + col in
    arr_set m dst (arr_get m src)) m.

Definition scroll (con : Console) : Console :=
  let m := for_range 1 VGA_HEIGHT scroll_row (vga con) in
  let blank := cell (color con) 32 in
  let m := for_range 0 VGA_WIDTH (λ col m, arr_set m ((VGA_HEIGHT - 1) * VGA_WIDTH + col) blank) m in
  set_cursor (VGA_HEIGHT - 1) (col con) (set_vga m con).

Definition put_cell (byte : Z) (con : Console) : Console :=
  set_vga (arr_set (vga con) (row con * VGA_WIDTH + col con) (cell (color con) byte)) con.

Definition write_byte (byte : Z) (con : Console) : Console :=
  let con := mkConsole (col con) (row con) (color con) (vga con) (serial con ++ [byte]) in
  let scrolled con := if VGA_HEIGHT <=? row con then scroll con else con in
  if byte =? 10 then scrolled (set_cursor (row con + 1) 0 con)
  else if byte =? 13 then scrolled (set_cursor (row con) 0 con)
  else if byte =? 9 then scrolled (set_cursor (row con) (Z.land (u64 (col con + 8)) (not_w 64 7)) con)
  else if byte =? 8 then
    scrolled (if 0 <? col con then put_cell 32 (set_cursor (row con) (col con - 1) con) else con)
  else if 127 <? byte then con
  else
    let con := if VGA_WIDTH <=? col con then set_cursor (row con + 1) 0 con else con in
    let con := scrolled con in
    let con := put_cell byte con in
    scrolled (set_cursor (row con) (col con + 1) con).

Definition write_str (s : list Z) (con : Console) : Console := foldl (λ con b, write_byte b con) con s.

Definition clear (con : Console) : Console :=
  let blank := cell (color con) 32 in
  set_cursor 0 0 (set_vga (for_range 0 (VGA_WIDTH * VGA_HEIGHT) (λ i m, arr_set m i blank) (vga con)) con).

Definition set_color (fg bg : Z) (con : Console) : Console :=
  mkConsole (col con) (row con) (Z.lor (u8 (Z.shiftl bg 4)) (Z.land fg 0x0F)) (vga con) (serial con).

(** ** The writer of the boot loader: [bootloader/src/vga.rs]

    It has no serial port, goes on in the next line when a line is full and not when
    the next character comes, and looks where it stores. *)

Module Vga.

Inductive Color : Type :=
| Black | Blue | Green | Cyan | Red | Magenta | Brown | LightGray
| DarkGray | LightBlue | LightGreen | LightCyan | LightRed | Pink | Yellow | White.

Definition color_code (c : Color) : Z :=
  match c with
  | Black => 0 | Blue => 1 | Green => 2 | Cyan => 3 | Red => 4 | Magenta => 5 | Brown => 6 | LightGray => 7
  | DarkGray => 8 | LightBlue => 9 | LightGreen => 10 | LightCyan => 11 | LightRed => 12 | Pink => 13 | Yellow => 14
  | White => 15
  end.

Record VgaWriter : Type := mkWriter { col : Z; row : Z; color : Z; buffer : arr Z }.

Definition color_of (fg bg : Color) : Z := Z.lor (color_code fg) (u8 (Z.shiftl (color_code bg) 4)).

Definition VgaWriter_new (buffer : arr Z) : VgaWriter := mkWriter 0 0 (color_of White Black) buffer.

Definition vga_clear (w : VgaWriter) : VgaWriter :=
  let blank := cell (color w) 32 in
  mkWriter 0 0 (color w) (for_range 0 (VGA_WIDTH * VGA_HEIGHT) (λ i m, arr_set m i blank) (buffer w)).

Definition vga_scroll (w : VgaWriter) : VgaWriter :=
  let m := for_range 1 VGA_HEIGHT (λ row m,
    for_range 0 VGA_WIDTH (λ col m,
      let src := row * VGA_WIDTH + col in
      let dst := (row - 1) * VGA_WIDTH + col in
      arr_set m dst (arr_get m src)) m) (buffer w) in
  let blank := cell (color w) 32 in
  let m := for_range 0 VGA_WIDTH (λ col m, arr_set m ((VGA_HEIGHT - 1) * VGA_WIDTH + col) blank) m in
  mkWriter (col w) (VGA_HEIGHT - 1) (color w) m.

Definition write_char (c : Z) (w : VgaWriter) : VgaWriter :=
  let w :=
    if c =? 10 then mkWriter 0 (row w + 1) (color w) (buffer w)
    else if c =? 13 then mkWriter 0 (row w) (color w) (buffer w)
    else
      let idx := row w * VGA_WIDTH + col w in
      let m := if idx <? VGA_WIDTH * VGA_HEIGHT then arr_set (buffer w) idx (cell (color w) c) else buffer w in
      mkWriter (col w + 1) (row w) (color w) m in
  let w := if VGA_WIDTH <=? col w then mkWriter 0 (row w + 1) (color w) (buffer w) else w in
  if VGA_HEIGHT <=? row w then vga_scroll w else w.

Definition write_string (s : list Z) (w : VgaWriter) : VgaWriter := foldl (λ w b, write_char b w) w s.

Definition vga_set_color (fg bg : Color) (w : VgaWriter) : VgaWriter := mkWriter (col w) (row w) (color_of fg bg) (buffer w).

End Vga.
