(* ===== verification/ConsoleSpec.v ===== *)
(** * The console: what is written is what is shown, and nothing else is stored to

    [console_shows] for the kernel's writer and [writer_shows] for the boot loader's:
    both follow a list of lines, and differ in when a full line is left. *)

From S2P Require Import Prelude Bytes Console.

(** ** The specification: the lines of a text

    The last line first; a line has at most 80 characters, a longer one goes on in
    the next. *)

Definition put (ls : list (list Z)) (b : Z) : list (list Z) :=
  match ls with
  | [] => []
  | cur :: above =>
      if b =? 10 then [] :: ls
      else if b =? 8 then take (pred (length cur)) cur :: above
      else if 127 <? b then ls
      else if len cur <? 80 then (cur ++ [b]) :: above
      else [b] :: ls
  end.

Definition put_text (s : list Z) : list (list Z) := foldl put [[]] s.

(** The lines on the screen: the last 25, from the top. *)
Definition height (ls : list (list Z)) : Z := Z.min (len ls) 25.

Definition shown (ls : list (list Z)) (r c : Z) : Z :=
  if r <? height ls then default 32 (ls !! Z.to_nat (height ls - 1 - r) ≫= λ l, l !! Z.to_nat c) else 32.

(** What a console shows that has not touched memory outside the screen of [m]. *)
Record shows (m : arr Z) (con : Console) (ls : list (list Z)) : Prop := mk_shows {
  sh_ne : ls ≠ [];
  sh_row : row con = height ls - 1;
  sh_col : col con = len (default [] (head ls));
  sh_lines : Forall (λ l, len l ≤ 80) ls;
  sh_cells : ∀ r c, 0 ≤ r < 25 → 0 ≤ c < 80 → arr_get (vga con) (r * 80 + c) = cell (color con) (shown ls r c);
  sh_outside : ∀ i, ¬ 0 ≤ i < 2000 → arr_get (vga con) i = arr_get m i;
}.

(** ** Lines *)

Lemma height_cons x ls : height (x :: ls) = Z.min (len ls + 1) 25.
Proof. unfold height, len. cbn [length]. lia. Qed.

Lemma shown_cons x ls r c : 0 ≤ r →
  shown (x :: ls) r c =
  if r =? height (x :: ls) - 1 then default 32 (x !! Z.to_nat c)
  else if r <? height (x :: ls) - 1 then default 32 (ls !! Z.to_nat (height (x :: ls) - 2 - r) ≫= λ l, l !! Z.to_nat c) else 32.
Proof.
  intros Hr. unfold shown. set (h := height (x :: ls)).
  destruct (Z.eqb_spec r (h - 1)) as [->|Hne].
  - rewrite (proj2 (Z.ltb_lt _ _)) by lia. by replace (Z.to_nat (h - 1 - (h - 1))) with O by lia.
  - destruct (Z.ltb_spec r (h - 1)).
    + rewrite (proj2 (Z.ltb_lt _ _)) by lia. by replace (Z.to_nat (h - 1 - r)) with (S (Z.to_nat (h - 2 - r))) by lia.
    + by rewrite (proj2 (Z.ltb_ge _ _)) by lia.
Qed.

(** A new line below the others moves them up when the screen is full. *)
Lemma shown_below x ls r c : 0 ≤ r →
  shown (x :: ls) r c =
  if r =? height (x :: ls) - 1 then default 32 (x !! Z.to_nat c)
  else if len ls <? 25 then shown ls r c else if r <? 24 then shown ls (r + 1) c else 32.
Proof.
  intros Hr. rewrite shown_cons by done. rewrite height_cons. unfold shown, height.
  destruct (Z.eqb_spec r (Z.min (len ls + 1) 25 - 1)); [done|]. pose proof (len_nonneg ls).
  destruct (Z.ltb_spec (len ls) 25); repeat case_match; rewrite ?Z.ltb_lt, ?Z.ltb_ge in *; try lia; try done;
    do 3 f_equal; lia.
Qed.

Lemma shown_last x y ls r c : 0 ≤ r →
  shown (x :: ls) r c = if r =? height (y :: ls) - 1 then default 32 (x !! Z.to_nat c) else shown (y :: ls) r c.
Proof. intros Hr. rewrite !shown_cons by done. rewrite !height_cons. by destruct (r =? _). Qed.

(** ** The loops of the console *)

(** Cases on the comparisons of a goal about a stored cell. *)
Ltac cells :=
  rewrite ?arr_get_set; repeat case_decide; try lia; try done;
  repeat match goal with H : _ = ?i |- _ => is_var i; subst i end; try lia.

Lemma scroll_row_get row m i : 1 ≤ row →
  arr_get (scroll_row row m) i = if decide ((row - 1) * 80 ≤ i < row * 80) then arr_get m (i + 80) else arr_get m i.
Proof.
  intros Hrow. replace (row * 80) with ((row - 1) * 80 + 80) by lia. revert i.
  pose (P := λ (k : Z) (m' : arr Z), ∀ i, arr_get m' i =
    if decide ((row - 1) * 80 ≤ i < (row - 1) * 80 + k) then arr_get m (i + 80) else arr_get m i).
  apply (for_range_ind P); unfold P; clear P; [lia|..].
  - intros i. cells.
  - intros j s Hj IH i. unfold VGA_WIDTH. rewrite arr_get_set, !IH. repeat case_decide; try lia; [f_equal; lia|done..].
Qed.

Lemma scroll_rows_get m i :
  arr_get (for_range 1 25 scroll_row m) i = if decide (0 ≤ i < 1920) then arr_get m (i + 80) else arr_get m i.
Proof.
  revert i. pose (P := λ (k : Z) (m' : arr Z), ∀ i, arr_get m' i =
    if decide (0 ≤ i < (k - 1) * 80) then arr_get m (i + 80) else arr_get m i).
  apply (for_range_ind P); unfold P; clear P; [lia|..].
  - intros i. cells.
  - intros j s Hj IH i. rewrite scroll_row_get, !IH by lia. repeat case_decide; try lia; done.
Qed.

Lemma blank_cells_get lo n (v : Z) m i : 0 ≤ n →
  arr_get (for_range 0 n (λ k m, arr_set m (lo + k) v) m) i = if decide (lo ≤ i < lo + n) then v else arr_get m i.
Proof.
  intros Hn. revert i. pose (P := λ (k : Z) (m' : arr Z), ∀ i, arr_get m' i = if decide (lo ≤ i < lo + k) then v else arr_get m i).
  apply (for_range_ind P); unfold P; clear P; [lia|..].
  - intros i. cells.
  - intros j s Hj IH i. rewrite arr_get_set, !IH. repeat case_decide; try lia; done.
Qed.

Lemma scroll_get con i :
  arr_get (vga (scroll con)) i =
  if decide (0 ≤ i < 1920) then arr_get (vga con) (i + 80)
  else if decide (1920 ≤ i < 2000) then cell (color con) 32 else arr_get (vga con) i.
Proof.
  unfold scroll. cbn [vga set_cursor set_vga]. unfold VGA_WIDTH, VGA_HEIGHT. change ((25 - 1) * 80) with 1920.
  rewrite blank_cells_get, scroll_rows_get by lia. repeat case_decide; try lia; done.
Qed.

(** ** The operations *)

(** The next line: below when there is room, and the screen moves up when not. *)
Lemma shows_newline m con ls log :
  shows m con ls →
  let con' := mkConsole 0 (row con + 1) (color con) (vga con) log in
  shows m (if VGA_HEIGHT <=? row con' then scroll con' else con') ([] :: ls).
Proof.
  intros [Hne Hrow Hcol Hls Hcells Hout] con'. cbn [row con']. unfold VGA_HEIGHT. unfold height in Hrow.
  destruct (Z.leb_spec 25 (row con + 1)) as [Hfull|Hroom].
  - split; [done| |done|by constructor| |].
    + rewrite height_cons. change (row (scroll con')) with 24. lia.
    + intros r c Hr Hc. rewrite scroll_get. cbn [vga color con' scroll set_cursor set_vga]. rewrite shown_below, height_cons by lia.
      rewrite (proj2 (Z.ltb_ge (len ls) 25)) by lia. replace (Z.min (len ls + 1) 25 - 1) with 24 by lia.
      destruct (Z.eqb_spec r 24) as [->|Hr24].
      { rewrite decide_False, decide_True by lia. done. }
      rewrite decide_True, (proj2 (Z.ltb_lt r 24)) by lia. rewrite <-Hcells by lia. f_equal. lia.
    + intros i Hi. rewrite scroll_get, !decide_False by lia. by apply Hout.
  - split; [done| |done|by constructor| |done].
    + cbn. rewrite height_cons. lia.
    + intros r c Hr Hc. cbn [vga color con']. rewrite shown_below, height_cons by lia.
      rewrite (proj2 (Z.ltb_lt (len ls) 25)), Hcells by lia. f_equal.
      destruct (Z.eqb_spec r (Z.min (len ls + 1) 25 - 1)) as [->|]; [|done].
      unfold shown, height. rewrite (proj2 (Z.ltb_ge _ _)) by lia. done.
Qed.

(** A character goes into the cell [k] of the line of the cursor. *)
Lemma shows_char m con cur above k b x log :
  shows m con (cur :: above) → 0 ≤ k < 80 → len x ≤ 80 →
  (∀ c, 0 ≤ c < 80 → default 32 (x !! Z.to_nat c) = if c =? k then b else default 32 (cur !! Z.to_nat c)) →
  shows m (mkConsole (len x) (row con) (color con)
             (arr_set (vga con) (row con * 80 + k) (cell (color con) b)) log) (x :: above).
Proof.
  intros [_ Hrow Hcol Hls Hcells Hout] Hk Hx Hc. assert (0 ≤ row con < 25) as Hr25.
  { rewrite Hrow, height_cons. pose proof (len_nonneg above). lia. }
  split; [done|by rewrite Hrow, !height_cons|done|by inversion Hls; constructor| |].
  - intros r c Hr Hc0. cbn [vga color]. rewrite (shown_last x cur), <-Hrow by lia.
    destruct (Z.eqb_spec r (row con)) as [->|Hne].
    + rewrite Hc by done. destruct (Z.eqb_spec c k) as [->|]; [by rewrite arr_get_set_eq|].
      rewrite arr_get_set_ne, Hcells by lia. f_equal. rewrite shown_cons, <-Hrow, Z.eqb_refl by lia. done.
    + rewrite arr_get_set_ne by lia. by apply Hcells.
  - intros i Hi. cbn [vga]. rewrite arr_get_set_ne by lia. by apply Hout.
Qed.

Lemma lookup_snoc_default (cur : list Z) b c : 0 ≤ c →
  default 32 ((cur ++ [b]) !! Z.to_nat c) = if c =? len cur then b else default 32 (cur !! Z.to_nat c).
Proof.
  intros Hc. unfold len. destruct (Z.eqb_spec c (Z.of_nat (length cur))) as [->|Hne].
  - rewrite Nat2Z.id, lookup_app_r, Nat.sub_diag by lia. done.
  - destruct (decide (c < Z.of_nat (length cur))).
    + by rewrite lookup_app_l by lia.
    + rewrite !lookup_ge_None_2; [done|lia|rewrite length_app; cbn; lia].
Qed.

Lemma lookup_pred_default (cur : list Z) c : 0 ≤ c → cur ≠ [] →
  default 32 (take (pred (length cur)) cur !! Z.to_nat c) = if c =? len cur - 1 then 32 else default 32 (cur !! Z.to_nat c).
Proof.
  intros Hc Hne. unfold len. assert (0 < length cur)%nat by (destruct cur; cbn; [done|lia]).
  destruct (Z.eqb_spec c (Z.of_nat (length cur) - 1)) as [->|].
  - by rewrite lookup_ge_None_2 by (rewrite length_take; lia).
  - destruct (decide (c < Z.of_nat (length cur) - 1)).
    + by rewrite lookup_take_lt by lia.
    + rewrite !lookup_ge_None_2; [done|lia|rewrite length_take; lia].
Qed.

Lemma shows_append m con cur above b :
  shows m con (cur :: above) → len cur < 80 →
  let con1 := put_cell b con in
  let con2 := set_cursor (row con1) (col con1 + 1) con1 in
  shows m (if VGA_HEIGHT <=? row con2 then scroll con2 else con2) ((cur ++ [b]) :: above).
Proof.
  intros Hs Hcur con1 con2. pose proof Hs as [_ Hrow Hcol _ _ _]. change (col con = len cur) in Hcol.
  rewrite (proj2 (Z.leb_gt _ _)).
  2: { cbn. unfold VGA_HEIGHT. rewrite Hrow, height_cons. lia. }
  assert (len (cur ++ [b]) = len cur + 1) as Hl by by rewrite len_app.
  unfold con2, con1, put_cell, set_cursor, set_vga, VGA_WIDTH. cbn [col row color vga serial]. rewrite Hcol, <-Hl. apply (shows_char _ _ cur); [done|pose proof (len_nonneg cur); lia|lia|].
  intros c Hc. apply lookup_snoc_default. lia.
Qed.

(** The writer follows [put], whatever the byte but a tab or a carriage return. *)
Lemma write_byte_shows m con ls b : b ≠ 9 → b ≠ 13 → shows m con ls → shows m (write_byte b con) (put ls b).
Proof.
  intros H9 H13 Hs. pose proof Hs as [Hne Hrow Hcol Hls Hcells Hout]. destruct ls as [|cur above]; [done|].
  assert (∀ con', row con' = row con → (VGA_HEIGHT <=? row con') = false) as Hstay.
  { intros con' ->. unfold VGA_HEIGHT. apply Z.leb_gt. rewrite Hrow, height_cons. lia. }
  inversion Hls as [|? ? Hcur Hab]; subst. change (col con = len cur) in Hcol. cbv beta zeta delta [write_byte]. unfold put.
  destruct (Z.eqb_spec b 10) as [->|]; [by apply (shows_newline m con (cur :: above))|].
  rewrite (proj2 (Z.eqb_neq b 13)), (proj2 (Z.eqb_neq b 9)) by done. destruct (Z.eqb_spec b 8) as [->|].
  - rewrite Hstay by (by case_match). cbn [col set_cursor]. rewrite Hcol. destruct (Z.ltb_spec 0 (len cur)) as [Hpos|Hz].
    + assert (len (take (pred (length cur)) cur) = len cur - 1) as Hl by (unfold len in *; rewrite length_take; lia).
      assert (cur ≠ []) as Hn0 by (by intros ->).
      unfold put_cell, set_cursor, set_vga, VGA_WIDTH. cbn [col row color vga serial]. rewrite <-Hl.
      apply (shows_char m con cur above); [done|lia|lia|]. rewrite Hl.
      intros c Hc. by apply lookup_pred_default; [lia|].
    + destruct cur; [|unfold len in Hz; cbn in Hz; lia]. by split.
  - destruct (127 <? b); [by split|]. cbn [col row]. unfold VGA_WIDTH. rewrite Hcol.
    destruct (Z.leb_spec 80 (len cur)) as [Hfull|Hroom].
    + rewrite (proj2 (Z.ltb_ge (len cur) 80)) by lia.
      apply (shows_append m _ []); [|done]. by apply (shows_newline m con (cur :: above)).
    + rewrite (proj2 (Z.ltb_lt (len cur) 80)) by lia. rewrite (Hstay (mkConsole (len cur) (row con) (color con) (vga con) (serial con ++ [b]))) by done.
      apply shows_append; [by split|done].
Qed.

Lemma write_str_shows m s con ls :
  Forall (λ b, b ≠ 9 ∧ b ≠ 13) s → shows m con ls → shows m (write_str s con) (foldl put ls s).
Proof.
  intros Hs. revert con ls. induction Hs as [|b s [H9 H13] _ IH]; intros con ls Hc; [done|]. cbn. by apply IH, write_byte_shows.
Qed.

Lemma clear_shows con : shows (vga con) (clear con) [[]].
Proof.
  assert (∀ i, arr_get (vga (clear con)) i = if decide (0 ≤ i < 2000) then cell (color con) 32 else arr_get (vga con) i) as H.
  { intros i. unfold clear, set_cursor, set_vga. cbn [vga]. change (VGA_WIDTH * VGA_HEIGHT) with 2000.
    etrans; [|apply (blank_cells_get 0 2000); lia]. done. }
  split; [done..|by repeat constructor| |].
  - intros r c Hr Hc. rewrite H, decide_True by lia. cbn [color clear set_cursor set_vga]. f_equal.
    unfold shown. case_match; [|done]. rewrite Z.ltb_lt in *. change (height [[]]) with 1 in *. by replace r with 0 by lia.
  - intros i Hi. by rewrite H, decide_False.
Qed.

(** ** The cursor stays on the screen *)

(** The writer is on the screen, and what it stored is too. *)
Record on_screen (m : arr Z) (con : Console) : Prop := mk_on_screen {
  on_row : 0 ≤ row con < 25;
  on_col : 0 ≤ col con ≤ 80;
  on_outside : ∀ i, ¬ 0 ≤ i < 2000 → arr_get (vga con) i = arr_get m i;
}.

Lemma on_screen_scrolled m con :
  0 ≤ row con ≤ 25 → 0 ≤ col con ≤ 80 → (∀ i, ¬ 0 ≤ i < 2000 → arr_get (vga con) i = arr_get m i) →
  on_screen m (if VGA_HEIGHT <=? row con then scroll con else con).
Proof.
  unfold VGA_HEIGHT. intros Hr Hc Hout. destruct (Z.leb_spec 25 (row con)); split; try done; try lia.
  intros i Hi. rewrite scroll_get, !decide_False by lia. by apply Hout.
Qed.

Lemma on_screen_put m con b : on_screen m con → col con < 80 → on_screen m (put_cell b con).
Proof.
  intros [Hr Hc Hout] H. split; [done..|]. intros i Hi. cbn. unfold VGA_WIDTH. rewrite arr_get_set_ne by lia. by apply Hout.
Qed.

Lemma write_byte_on_screen m con b : b ≠ 9 → on_screen m con → on_screen m (write_byte b con).
Proof.
  intros H9 Hs. pose proof Hs as [Hr Hc Hout]. cbv beta zeta delta [write_byte]. unfold VGA_WIDTH.
  rewrite (proj2 (Z.eqb_neq b 9)) by done.
  destruct (b =? 10); [apply on_screen_scrolled; cbn; lia || done|].
  destruct (b =? 13); [apply on_screen_scrolled; cbn; lia || done|].
  destruct (b =? 8).
  - cbn [col]. destruct (Z.ltb_spec 0 (col con)); [|by apply on_screen_scrolled; cbn; lia || done].
    destruct (on_screen_put m (set_cursor (row con) (col con - 1) con) 32) as [Hr' Hc' Hout']; [split; cbn; lia || done|cbn; lia|].
    apply on_screen_scrolled; cbn in *; lia || done.
  - destruct (127 <? b); [by split|]. cbn [col].
    match goal with |- context [put_cell b ?c] => assert (on_screen m c ∧ col c < 80) as [H1 H2] end.
    { destruct (Z.leb_spec 80 (col con)); cbn [row set_cursor].
      - split; [|by case_match]. apply (on_screen_scrolled m (mkConsole 0 (row con + 1) (color con) (vga con) (serial con ++ [b]))); cbn; lia || done.
      - rewrite (proj2 (Z.leb_gt _ _)) by (unfold VGA_HEIGHT; lia). by split. }
    apply (on_screen_put m _ b) in H1; [|done]. destruct H1 as [Hr' Hc' Hout'].
    apply on_screen_scrolled; cbn in *; try done; lia.
Qed.

(** C25: the console.  After a screen was cleared, writing a text that has no tab and
    no carriage return shows its last 25 lines, long lines going on in the next one
    and a backspace taking back a character of the line, with the cursor after the
    last character; and a text with no tab never makes the writer store outside the
    2000 cells of the screen, whatever is around them. *)
Theorem console_shows con s :
  (Forall (λ b, b ≠ 9 ∧ b ≠ 13) s → shows (vga con) (write_str s (clear con)) (put_text s)) ∧
  (Forall (λ b, b ≠ 9) s → on_screen (vga con) (write_str s (clear con))).
Proof.
  split.
  - intros Hs. apply write_str_shows; [done|apply clear_shows].
  - intros Hs. assert (on_screen (vga con) (clear con)) as H.
    { destruct (clear_shows con) as [_ Hr Hc _ _ Hout]. split; [rewrite Hr; by vm_compute|by rewrite Hc|done]. }
    revert H. generalize (clear con). induction Hs as [|b s Hb _ IH]; intros c Hc; [done|]. cbn. by apply IH, write_byte_on_screen.
Qed.

(** A tab moves the cursor past the right edge, and a backspace then stores a blank
    there: on the last row, outside the screen. *)
Definition past_the_screen : list Z := replicate 24 10 ++ replicate 11 9 ++ [8].

Lemma tab_backspace_outside :
  arr_get (vga (write_str past_the_screen (clear (Console_new (arr_new 2048 0))))) 2007 = cell 0x0F 32.
Proof. by vm_compute. Qed.

Module ConsoleExample.

Definition con0 : Console := Console_new (arr_new 2048 0).
Definition text0 : list Z := bytes_of_string "Hello" ++ [10] ++ replicate 81 65 ++ [8; 8].

Lemma console_shows_witness :
  row (write_str text0 (clear con0)) = 2 ∧ col (write_str text0 (clear con0)) = 0 ∧
  arr_get (vga (write_str text0 (clear con0))) 0 = cell 0x0F 72.
Proof.
  assert (shows (vga con0) (write_str text0 (clear con0)) (put_text text0)) as H.
  { apply (proj1 (console_shows con0 text0)). apply (bool_decide_unpack _). vm_compute. exact I. }
  destruct H as [_ Hr Hc _ Hcell _]. split; [|split].
  - rewrite Hr. vm_compute. reflexivity.
  - rewrite Hc. vm_compute. reflexivity.
  - etransitivity; [exact (Hcell 0 0 ltac:(lia) ltac:(lia))|]. vm_compute. reflexivity.
Defined.

End ConsoleExample.

(** ** The writer of the boot loader *)

Module VgaSpec.

Definition as_console (w : Vga.VgaWriter) : Console :=
  mkConsole (Vga.col w) (Vga.row w) (Vga.color w) (Vga.buffer w) [].

(** A line that is full is left at once. *)
Definition put_char (ls : list (list Z)) (b : Z) : list (list Z) :=
  match ls with
  | [] => []
  | cur :: above =>
      if b =? 10 then [] :: ls
      else if len cur + 1 =? 80 then [] :: (cur ++ [b]) :: above else (cur ++ [b]) :: above
  end.

Definition room (ls : list (list Z)) : Prop := len (default [] (head ls)) < 80.

Lemma as_console_scroll w : as_console (Vga.vga_scroll w) = scroll (as_console w).
Proof.
  unfold Vga.vga_scroll, scroll, set_cursor, set_vga, as_console, scroll_row.
  cbn [col row color vga serial Vga.col Vga.row Vga.color Vga.buffer]. reflexivity.
Qed.

Lemma as_console_scrolled w :
  as_console (if VGA_HEIGHT <=? Vga.row w then Vga.vga_scroll w else w) =
  if VGA_HEIGHT <=? row (as_console w) then scroll (as_console w) else as_console w.
Proof. change (row (as_console w)) with (Vga.row w). destruct (VGA_HEIGHT <=? Vga.row w); [apply as_console_scroll|reflexivity]. Qed.

Lemma write_char_shows m w ls b : b ≠ 13 → room ls → shows m (as_console w) ls →
  shows m (as_console (Vga.write_char b w)) (put_char ls b) ∧ room (put_char ls b).
Proof.
  intros H13 Hroom Hs. pose proof Hs as [Hne Hrow Hcol _ _ _]. destruct ls as [|cur above]; [done|].
  change (len cur < 80) in Hroom. change (Vga.col w = len cur) in Hcol. change (Vga.row w = height (cur :: above) - 1) in Hrow.
  cbv beta zeta delta [Vga.write_char put_char]. rewrite as_console_scrolled, (proj2 (Z.eqb_neq b 13)) by done.
  destruct (Z.eqb_spec b 10) as [->|]; [split; [exact (shows_newline m _ _ [] Hs)|done]|].
  rewrite height_cons in Hrow. pose proof (len_nonneg above). pose proof (len_nonneg cur).
  pose proof (shows_append m _ cur above b Hs Hroom) as H1. cbv beta zeta in H1.
  change (row (set_cursor _ _ _)) with (Vga.row w) in H1. change (row (put_cell _ _)) with (Vga.row w) in H1.
  rewrite (proj2 (Z.leb_gt VGA_HEIGHT (Vga.row w))) in H1 by (unfold VGA_HEIGHT; lia).
  rewrite (proj2 (Z.ltb_lt _ (VGA_WIDTH * VGA_HEIGHT))) by (unfold VGA_HEIGHT, VGA_WIDTH; lia).
  simpl Vga.col. rewrite Hcol. destruct (Z.eqb_spec (len cur + 1) 80) as [E|E].
  - rewrite (proj2 (Z.leb_le VGA_WIDTH (len cur + 1))) by (unfold VGA_WIDTH; lia). split; [|done]. rewrite <- Hcol.
    exact (shows_newline m _ _ [] H1).
  - rewrite (proj2 (Z.leb_gt VGA_WIDTH (len cur + 1))) by (unfold VGA_WIDTH; lia). simpl Vga.row. simpl row.
    rewrite (proj2 (Z.leb_gt VGA_HEIGHT (Vga.row w))) by (unfold VGA_HEIGHT; lia). split.
    + rewrite <- Hcol. exact H1.
    + unfold room. simpl. rewrite len_app. change (len [b]) with 1. lia.
Qed.

(** After a clear screen, a text with no carriage return is shown as its lines are,
    and nothing is stored outside the screen. *)
Theorem writer_shows w s : Forall (λ b, b ≠ 13) s →
  shows (Vga.buffer w) (as_console (Vga.write_string s (Vga.vga_clear w))) (foldl put_char [[]] s).
Proof.
  intros Hs. assert (shows (Vga.buffer w) (as_console (Vga.vga_clear w)) [[]] ∧ room [[]]) as H
    by (split; [apply (clear_shows (as_console w))|done]).
  revert H. generalize (Vga.vga_clear w) ([[]] : list (list Z)). induction Hs as [|b s Hb _ IH]; intros v ls [Hv Hl]; [done|].
  cbn. by apply IH, write_char_shows.
Qed.

(** The two writers differ after a line of 80 characters that a newline ends. *)
Lemma full_line_left_at_once :
  let s := replicate 80 65 ++ [10; 66] in
  foldl put_char [[]] s = [[66]; []; replicate 80 65] ∧ put_text s = [[66]; replicate 80 65].
Proof. by vm_compute. Qed.

Definition text1 : list Z := replicate 80 65 ++ [10; 66].
Definition writer0 : Vga.VgaWriter := Vga.VgaWriter_new (arr_new 2048 0).

Lemma writer_shows_witness :
  let con := as_console (Vga.write_string text1 (Vga.vga_clear writer0)) in
  row con = 2 ∧ col con = 1 ∧ arr_get (vga con) (2 * 80 + 0) = cell 0x0F 66.
Proof.
  assert (shows (Vga.buffer writer0) (as_console (Vga.write_string text1 (Vga.vga_clear writer0))) (foldl put_char [[]] text1)) as H.
  { apply (writer_shows writer0 text1). apply (bool_decide_unpack _). vm_compute. exact I. }
  destruct H as [_ Hr Hc _ Hcell _]. cbv zeta. split; [|split].
  - rewrite Hr. vm_compute. reflexivity.
  - rewrite Hc. vm_compute. reflexivity.
  - rewrite (Hcell 2 0 ltac:(lia) ltac:(lia)). vm_compute. reflexivity.
Defined.

End VgaSpec.
