(* ===== verification/Mouse.v ===== *)
(** * The PS/2 mouse: [drivers/mouse.rs]

    The decoder of the bytes of the mouse, its position, buttons and wheel, and the
    accessors of [MOUSE]; the byte the interrupt handler reads from port 0x60 is an
    argument.  The command sequence of [init] is in Ps2.v. *)

From S2P Require Import Prelude Bytes.

Definition i32 : Z → Z := to_signed 32.

Record MouseState : Type := mkMouse {
  x : Z;
  y : Z;
  buttons : Z;
  left : bool;
  right : bool;
  middle : bool;
  scroll_delta : Z;
  screen_width : Z;
  screen_height : Z;
  cycle : Z;
  packet : list Z;
  has_scroll_wheel : bool;
}.

Definition MouseState_new : MouseState := mkMouse 400 300 0 false false false 0 800 600 0 [0; 0; 0; 0] false.

Definition set_screen_size (w h : Z) (m : MouseState) : MouseState :=
  mkMouse (Z.quot w 2) (Z.quot h 2) (buttons m) (left m) (right m) (middle m) (scroll_delta m) w h (cycle m) (packet m)
    (has_scroll_wheel m).

Definition enable_scroll_wheel (m : MouseState) : MouseState :=
  mkMouse (x m) (y m) (buttons m) (left m) (right m) (middle m) (scroll_delta m) (screen_width m) (screen_height m)
    (cycle m) (packet m) true.

(** [bytes] and [cycle] *)
Definition with_packet (c : Z) (bytes : list Z) (m : MouseState) : MouseState :=
  mkMouse (x m) (y m) (buttons m) (left m) (right m) (middle m) (scroll_delta m) (screen_width m) (screen_height m)
    c bytes (has_scroll_wheel m).

Definition packet_byte (i : nat) (m : MouseState) : Z := default 0 (packet m !! i).

(** [bytes[i] as i32], with the sign extension of the flag. *)
Definition movement (byte : Z) (negative : bool) : Z := if negative then Z.lor byte (Z.lnot 0xFF) else byte.

Definition clamp (size v : Z) : Z :=
  let v := if v <? 0 then 0 else v in
  if size <=? v then size - 1 else v.

Definition complete_packet (m : MouseState) : MouseState :=
  let flags := packet_byte 0 m in
  if negb (Z.land flags 0xC0 =? 0) then m
  else
    let dx := movement (packet_byte 1 m) (negb (Z.land flags 0x10 =? 0)) in
    let dy := movement (packet_byte 2 m) (negb (Z.land flags 0x20 =? 0)) in
    mkMouse (clamp (screen_width m) (i32 (x m + dx))) (clamp (screen_height m) (i32 (y m - dy))) (Z.land flags 0x07)
      (negb (Z.land flags 0x01 =? 0)) (negb (Z.land flags 0x02 =? 0)) (negb (Z.land flags 0x04 =? 0))
      (if has_scroll_wheel m then to_signed 8 (packet_byte 3 m) else 0)
      (screen_width m) (screen_height m) (cycle m) (packet m) (has_scroll_wheel m).

Definition process_byte (byte : Z) (m : MouseState) : MouseState :=
  if (cycle m =? 0) && (Z.land byte 0x08 =? 0) then m
  else
    let m := with_packet (cycle m + 1) (<[Z.to_nat (cycle m) := byte]> (packet m)) m in
    let packet_size := if has_scroll_wheel m then 4 else 3 in
    if packet_size <=? cycle m then complete_packet (with_packet 0 (packet m) m) else m.

Definition handle_interrupt (byte : Z) (m : MouseState) : MouseState := process_byte byte m.

Definition get_position (m : MouseState) : Z * Z := (x m, y m).

Definition get_scroll_delta (m : MouseState) : Z * MouseState :=
  (scroll_delta m,
    mkMouse (x m) (y m) (buttons m) (left m) (right m) (middle m) 0 (screen_width m) (screen_height m) (cycle m) (packet m)
      (has_scroll_wheel m)).

Definition get_buttons (m : MouseState) : bool * bool * bool := (left m, right m, middle m).
Definition left_pressed (m : MouseState) : bool := left m.
Definition right_pressed (m : MouseState) : bool := right m.

(** ** The invariant *)

(** The cursor is on a screen of at most 2^30 pixels a side; the next byte has its
    place in the packet. *)
Record mouse_wf (m : MouseState) : Prop := mk_mouse_wf {
  wf_width : 0 < screen_width m ≤ 2 ^ 30;
  wf_height : 0 < screen_height m ≤ 2 ^ 30;
  wf_x : 0 ≤ x m < screen_width m;
  wf_y : 0 ≤ y m < screen_height m;
  wf_packet : length (packet m) = 4%nat;
  wf_cycle : 0 ≤ cycle m < (if has_scroll_wheel m then 4 else 3);
}.

Lemma clamp_range size v : 0 < size → 0 ≤ clamp size v < size.
Proof. intros H. unfold clamp. destruct (Z.ltb_spec v 0), (Z.leb_spec size (if v <? 0 then 0 else v)); repeat case_match; lia. Qed.

Lemma wf_new : mouse_wf MouseState_new.
Proof. by split. Qed.

Lemma wf_set_screen_size w h m : 0 < w ≤ 2 ^ 30 → 0 < h ≤ 2 ^ 30 → mouse_wf m → mouse_wf (set_screen_size w h m).
Proof.
  intros Hw Hh [_ _ _ _ Hp Hc]. split; cbn; try done; rewrite Z.quot_div_nonneg by lia; zdiv.
Qed.

Lemma wf_complete m : mouse_wf m → mouse_wf (complete_packet m).
Proof.
  intros [Hw Hh Hx Hy Hp Hc]. unfold complete_packet. destruct (negb _); [by split|].
  split; cbn; try done; apply clamp_range; lia.
Qed.

Lemma wf_process_byte byte m : mouse_wf m → mouse_wf (process_byte byte m).
Proof.
  intros Hm. pose proof Hm as [Hw Hh Hx Hy Hp Hc]. unfold process_byte. destruct (_ && _); [done|]. cbn [has_scroll_wheel cycle with_packet].
  assert (length (<[Z.to_nat (cycle m) := byte]> (packet m)) = 4%nat) as Hl by by rewrite length_insert.
  destruct (Z.leb_spec (if has_scroll_wheel m then 4 else 3) (cycle m + 1)).
  - apply wf_complete. split; cbn; try done. by case_match.
  - split; cbn; try done. lia.
Qed.

Lemma movement_signed byte negative : is_byte byte → movement byte negative = byte - 256 * Z.b2z negative.
Proof.
  intros Hb. unfold movement. destruct negative; cbn [Z.b2z]; [|lia].
  assert (Z.lor byte (Z.lnot 0xFF) = byte + Z.lnot 0xFF) as ->; [|unfold Z.lnot; lia].
  assert (Z.land byte (Z.lnot 0xFF) = 0) as H0.
  { apply Z.bits_inj'. intros n Hn. rewrite Z.land_spec, Z.lnot_spec, Z.bits_0 by done. unfold is_byte in Hb.
    destruct (decide (n < 8)).
    - change 0xFF with (Z.ones 8). rewrite Z.ones_spec_low by lia. apply andb_false_r.
    - destruct (decide (byte = 0)) as [->|]; [by rewrite Z.bits_0|].
      rewrite Z.bits_above_log2; [done|lia|]. apply Z.log2_lt_pow2; [lia|].
      apply (Z.lt_le_trans _ (2 ^ 8)); [lia|]. apply Z.pow_le_mono_r; lia. }
  symmetry. by apply Z.add_nocarry_lxor in H0 as H1; rewrite H1; apply Z.lxor_lor.
Qed.

Lemma flag_bit flags i mask : 0 ≤ i → mask = Z.shiftl 1 i → negb (Z.land flags mask =? 0) = Z.testbit flags i.
Proof. intros Hi ->. by apply bit_on_testbit. Qed.

Lemma i32_small z : - 2 ^ 31 ≤ z < 2 ^ 31 → i32 z = z.
Proof. intros Hz. unfold i32, to_signed, wrap. destruct (Z.ltb_spec (z mod 2 ^ 32) (2 ^ (32 - 1))); zdiv. Qed.

Lemma complete_spec m flags dx dy wheel :
  mouse_wf m → packet m = [flags; dx; dy; wheel] → is_byte dx → is_byte dy → Z.land flags 0xC0 = 0 →
  let m' := complete_packet m in
  x m' = clamp (screen_width m) (x m + (dx - 256 * Z.b2z (Z.testbit flags 4))) ∧
  y m' = clamp (screen_height m) (y m - (dy - 256 * Z.b2z (Z.testbit flags 5))) ∧
  get_buttons m' = (Z.testbit flags 0, Z.testbit flags 1, Z.testbit flags 2) ∧
  scroll_delta m' = (if has_scroll_wheel m then to_signed 8 wheel else 0) ∧ cycle m' = cycle m.
Proof.
  intros [Hw Hh Hx Hy _ _] Hp Hdx Hdy Hf. cbv zeta. unfold complete_packet.
  assert (packet_byte 0 m = flags ∧ packet_byte 1 m = dx ∧ packet_byte 2 m = dy ∧ packet_byte 3 m = wheel) as (-> & -> & -> & ->)
    by (unfold packet_byte; by rewrite Hp).
  rewrite Hf. cbn [negb Z.eqb].
  rewrite (flag_bit flags 0 0x01), (flag_bit flags 1 0x02), (flag_bit flags 2 0x04), (flag_bit flags 4 0x10),
    (flag_bit flags 5 0x20), !movement_signed by done.
  unfold is_byte in *. rewrite !i32_small by (destruct (Z.testbit flags 4), (Z.testbit flags 5); cbn [Z.b2z]; lia).
  repeat split; done.
Qed.

(** The bytes of a packet take their places. *)
Lemma process_place m b p0 :
  cycle m + 1 < (if has_scroll_wheel m then 4 else 3) → (cycle m = 0 → Z.testbit b 3 = true) → packet m = p0 →
  process_byte b m = with_packet (cycle m + 1) (<[Z.to_nat (cycle m) := b]> p0) m.
Proof.
  intros Hc Hb <-. unfold process_byte. destruct (Z.eqb_spec (cycle m) 0) as [E|E]; cbn [andb].
  - apply Hb in E as Hb3. rewrite <-(flag_bit b 3 0x08) in Hb3 by done.
    apply negb_true_iff in Hb3 as ->. cbn [has_scroll_wheel cycle with_packet]. by rewrite (proj2 (Z.leb_gt _ _)).
  - cbn [has_scroll_wheel cycle with_packet]. by rewrite (proj2 (Z.leb_gt _ _)).
Qed.

Lemma process_last m b p0 :
  cycle m ≠ 0 → cycle m + 1 = (if has_scroll_wheel m then 4 else 3) → packet m = p0 →
  process_byte b m = complete_packet (with_packet 0 (<[Z.to_nat (cycle m) := b]> p0) m).
Proof.
  intros H0 Hc <-. unfold process_byte. rewrite (proj2 (Z.eqb_neq _ _) H0). cbn [andb has_scroll_wheel cycle with_packet].
  by rewrite Hc, Z.leb_refl.
Qed.

(** The mouse.  Every byte, whatever it is, leaves the cursor on the screen and a
    place in the packet for the next; a byte without bit 3 is skipped between packets;
    and a packet with no overflow flag moves the cursor by its 9-bit displacements,
    up being positive in the packet and down on the screen, stopping at the edges,
    and sets the buttons and the wheel from their bits. *)
Theorem mouse_packets m flags dx dy wheel :
  mouse_wf m →
  (∀ bytes, mouse_wf (foldl (λ m b, process_byte b m) m bytes)) ∧
  (cycle m = 0 → ∀ b, Z.testbit b 3 = false → process_byte b m = m) ∧
  (cycle m = 0 → is_byte dx → is_byte dy → Z.testbit flags 3 = true → Z.land flags 0xC0 = 0 →
     let m' := foldl (λ m b, process_byte b m) m ([flags; dx; dy] ++ (if has_scroll_wheel m then [wheel] else [])) in
     x m' = clamp (screen_width m) (x m + (dx - 256 * Z.b2z (Z.testbit flags 4))) ∧
     y m' = clamp (screen_height m) (y m - (dy - 256 * Z.b2z (Z.testbit flags 5))) ∧
     get_buttons m' = (Z.testbit flags 0, Z.testbit flags 1, Z.testbit flags 2) ∧
     scroll_delta m' = (if has_scroll_wheel m then to_signed 8 wheel else 0) ∧ cycle m' = 0).
Proof.
  intros Hm. split; [|split].
  - intros bytes. revert m Hm. induction bytes as [|b bytes IH]; intros m Hm; [done|]. cbn. by apply IH, wf_process_byte.
  - intros Hc b Hb. unfold process_byte. rewrite Hc. cbn.
    rewrite <-(flag_bit b 3 0x08) in Hb by done. by apply negb_false_iff in Hb as ->.
  - intros Hc Hdx Hdy H3 Hf. cbv zeta. pose proof (wf_packet _ Hm) as Hl.
    destruct (packet m) as [|p0 [|p1 [|p2 [|p3 []]]]] eqn:Ep; try done.
    destruct (has_scroll_wheel m) eqn:Ew; cbn [app foldl].
    + rewrite (process_place m flags _ ltac:(by rewrite Hc, Ew) (λ _, H3) Ep), Hc.
      set (m1 := with_packet _ _ m). rewrite (process_place m1 dx [flags; p1; p2; p3]); [|by cbn; rewrite Ew|done|done].
      set (m2 := with_packet _ _ m1). rewrite (process_place m2 dy [flags; dx; p2; p3]); [|by cbn; rewrite Ew|done|done].
      set (m3 := with_packet _ _ m2). rewrite (process_last m3 wheel [flags; dx; dy; p3]); [|done|by cbn; rewrite Ew|done].
      pose proof (complete_spec (with_packet 0 [flags; dx; dy; wheel] m3) flags dx dy wheel) as H.
      cbn [has_scroll_wheel with_packet m3 m2 m1] in H. rewrite Ew in H. apply H; try done. destruct Hm; split; cbn; try done. by rewrite Ew.
    + rewrite (process_place m flags _ ltac:(by rewrite Hc, Ew) (λ _, H3) Ep), Hc.
      set (m1 := with_packet _ _ m). rewrite (process_place m1 dx [flags; p1; p2; p3]); [|by cbn; rewrite Ew|done|done].
      set (m2 := with_packet _ _ m1). rewrite (process_last m2 dy [flags; dx; p2; p3]); [|done|by cbn; rewrite Ew|done].
      pose proof (complete_spec (with_packet 0 [flags; dx; dy; p3] m2) flags dx dy p3) as H. cbn [has_scroll_wheel with_packet m2 m1] in H.
      rewrite Ew in H. apply H; try done. destruct Hm; split; cbn; try done. by rewrite Ew.
Qed.

(** A later packet replaces the wheel's delta before [get_scroll_delta] took it. *)
Lemma scroll_delta_replaced :
  let m := enable_scroll_wheel MouseState_new in
  let m1 := foldl (λ m b, process_byte b m) m [0x08; 0; 0; 1] in
  let m2 := foldl (λ m b, process_byte b m) m1 [0x08; 5; 0; 0] in
  scroll_delta m1 = 1 ∧ (get_scroll_delta m2).1 = 0.
Proof. by vm_compute. Qed.

Module MouseExample.

Lemma mouse_packets_witness :
  let m' := foldl (λ m b, process_byte b m) MouseState_new [0x19; 0xF6; 5] in
  x m' = 390 ∧ y m' = 295 ∧ get_buttons m' = (true, false, false).
Proof.
  cbv zeta.
  assert (is_byte 0xF6 ∧ is_byte 5) as [H1 H2] by (unfold is_byte; lia).
  destruct (proj2 (proj2 (mouse_packets MouseState_new 0x19 0xF6 5 0 wf_new)) eq_refl H1 H2 eq_refl eq_refl) as (Hx & Hy & Hb & _).
  split; [|split].
  - etransitivity; [exact Hx|]. vm_compute. reflexivity.
  - etransitivity; [exact Hy|]. vm_compute. reflexivity.
  - etransitivity; [exact Hb|]. vm_compute. reflexivity.
Defined.

End MouseExample.
