(* ===== verification/Ports.v ===== *)
(** * Port I/O: [inb], [outb] and their 16- and 32-bit versions

    The instructions behind them reach devices: what a port answers, and what a
    write to it does, is a parameter of the drivers, the class [PortIO] on the state
    [W] of the devices. *)

From S2P Require Import Prelude.

Class PortIO (W : Type) : Type := {
  inb : Z → W → Z * W;
  inw : Z → W → Z * W;
  inl : Z → W → Z * W;
  outb : Z → Z → W → W;
  outw : Z → Z → W → W;
  outl : Z → Z → W → W;
}.

Section Ports.

Context {W : Type} `{PortIO W}.

Definition in8 (port : Z) : M W Z := λ w, let '(v, w) := inb port w in (Ok v, w).
Definition in16 (port : Z) : M W Z := λ w, let '(v, w) := inw port w in (Ok v, w).
Definition in32 (port : Z) : M W Z := λ w, let '(v, w) := inl port w in (Ok v, w).
Definition out8 (port v : Z) : M W unit := m_modify (outb port v).
Definition out16 (port v : Z) : M W unit := m_modify (outw port v).
Definition out32 (port v : Z) : M W unit := m_modify (outl port v).

(** [for _ in 0..n] over reads of a port, left when [stop] finds what it waits for. *)
Definition poll {R} (n port : Z) (stop : Z → option R) : M W (option R) := λ w,
  let '(r, w) := for_ret 0 n (λ _ w, let '(status, w) := inb port w in (stop status, w)) w in
  (Ok r, w).

End Ports.

(** A loop of at most [n] reads that waits for a device: when the condition holds as
    soon as [left] reads have been made, fewer than [n], it is left in a state that
    keeps [P], the last one read having held. *)
Lemma wait_ends {W R : Type} (read : W → Z * W) (stop : Z → option R) (left : W → nat) (P : W → Prop) n w :
  (∀ w, P w → let '(v, w') := read w in P w' ∧ left w' = pred (left w) ∧ (left w = 0%nat ↔ is_Some (stop v))) →
  P w → Z.of_nat (left w) < n →
  ∃ r w', for_ret 0 n (λ _ w, let '(v, w) := read w in (stop v, w)) w = (Some r, w') ∧ P w' ∧ left w' = 0%nat.
Proof.
  intros Hread HP Hn. unfold for_ret.
  assert (∀ k i w, P w → (left w < k)%nat → ∃ r w', iter_ret k i (λ _ w, let '(v, w) := read w in (stop v, w)) w = (Some r, w') ∧
    P w' ∧ left w' = 0%nat) as Hk; [|apply Hk; [done|lia]].
  clear w HP Hn. induction k as [|k IH]; intros i w HP Hl; [lia|]. cbn [iter_ret].
  specialize (Hread w HP). destruct (read w) as [v w1]. destruct Hread as (HP1 & Hl1 & Hstop).
  destruct (stop v) as [r|] eqn:E.
  - exists r, w1. split_and!; [done..|]. rewrite Hl1, (proj2 Hstop); [done|by eexists].
  - apply IH; [done|]. assert (left w ≠ 0%nat) by (intros H; apply Hstop in H; by destruct H). lia.
Qed.
