(* ===== verification/Ps2.v ===== *)
(** * The PS/2 controller: [init_ps2] of [drivers/keyboard.rs], [init] of
      [drivers/mouse.rs], and the reset of [cmd_reboot] in [shell.rs]

    The sequences of commands that bring up the keyboard and the mouse, over the
    ports of [Ports].  A controller that follows the documents is the class
    [Controller]: its command byte, the bytes it has for the processor and the mouse
    behind it are an abstract state, a write is a step of that state, and bits 0 and
    1 of the status say that a byte is there and that the last write is not taken
    yet.

    On every such controller that answers within the loops of the driver, [mouse_init]
    leaves the mouse reporting, its interrupt and port on and nothing waiting, and finds
    out whether there is a wheel ([mouse_init_spec]).  The keyboard's sequence does not
    wait before each write; on a controller that takes writes and answers at once it
    ends and leaves the keyboard reset, its interrupt on and its codes translated
    ([init_ps2_spec]).  With interrupts on, the last answer of the mouse is taken for
    the start of a packet ([ack_starts_packet]). *)

From S2P Require Import Prelude Bytes Ports Mouse.

(** ** The sequences *)

Definition input_full (status : Z) : bool := negb (Z.land status 0x02 =? 0).
Definition output_full (status : Z) : bool := negb (Z.land status 0x01 =? 0).

Section Init.
Context {W : Type} `{PortIO W}.

(** [while !stop(inb(0x64)) {}]: [None] when it is not over in [fuel] turns. *)
Fixpoint spin (fuel : nat) (stop : Z → bool) (w : W) : option W :=
  match fuel with
  | O => None
  | S fuel => let '(v, w) := inb 0x64 w in if stop v then Some w else spin fuel stop w
  end.

(** [while inb(0x64) & 0x01 != 0 { inb(0x60); }] *)
Fixpoint flush_output (fuel : nat) (w : W) : option W :=
  match fuel with
  | O => None
  | S fuel => let '(v, w) := inb 0x64 w in if output_full v then flush_output fuel (inb 0x60 w).2 else Some w
  end.

(** A turn of the last loop. *)
Definition discard (w : W) : W := let '(v, w) := inb 0x64 w in if output_full v then (inb 0x60 w).2 else w.

Definition init_ps2 (fuel : nat) (w : W) : option W :=
  w ← spin fuel (λ v, negb (input_full v)) w;
  let w := outb 0x64 0xAD w in
  let w := outb 0x64 0xA7 w in
  w ← flush_output fuel w;
  let w := outb 0x64 0x20 w in
  w ← spin fuel output_full w;
  let '(config, w) := inb 0x60 w in
  let config := Z.lor (Z.lor config 0x01) 0x40 in
  let w := outb 0x64 0x60 w in
  w ← spin fuel (λ v, negb (input_full v)) w;
  let w := outb 0x60 config w in
  let w := outb 0x64 0xAE w in
  w ← spin fuel (λ v, negb (input_full v)) w;
  let w := outb 0x60 0xFF w in
  Some (for_range 0 10000 (λ _, discard) w).

(** [for _ in 0..n], left when [stop] holds of the status. *)
Definition wait_for (n : Z) (stop : Z → bool) (w : W) : bool * W :=
  let '(r, w) := for_ret 0 n (λ _ w, let '(v, w) := inb 0x64 w in (if stop v then Some tt else None, w)) w in
  (match r with Some _ => true | None => false end, w).

Definition mouse_wait_input (w : W) : W := (wait_for 100000 (λ v, negb (input_full v)) w).2.
Definition mouse_wait_output (w : W) : W := (wait_for 100000 output_full w).2.

Definition mouse_write (cmd : Z) (w : W) : W :=
  let w := mouse_wait_input w in
  let w := outb 0x64 0xD4 w in
  let w := mouse_wait_input w in
  outb 0x60 cmd w.

Definition mouse_read (w : W) : Z * W := inb 0x60 (mouse_wait_output w).

(** A command and its answer, which is not looked at. *)
Definition mouse_send (cmd : Z) (w : W) : W := (mouse_read (mouse_write cmd w)).2.

(** Up to the identifier: does it say that there is a wheel? *)
Definition mouse_setup (w : W) : bool * W :=
  let w := outb 0x64 0xA8 (mouse_wait_input w) in
  let w := outb 0x64 0x20 (mouse_wait_input w) in
  let '(status, w) := inb 0x60 (mouse_wait_output w) in
  let status := Z.lor status 0x02 in
  let w := outb 0x64 0x60 (mouse_wait_input w) in
  let w := outb 0x60 status (mouse_wait_input w) in
  let w := mouse_send 0xF6 w in
  let w := mouse_send 200 (mouse_send 0xF3 w) in
  let w := mouse_send 100 (mouse_send 0xF3 w) in
  let w := mouse_send 80 (mouse_send 0xF3 w) in
  let w := mouse_send 0xF2 w in
  let '(id, w) := mouse_read w in
  ((id =? 3) || (id =? 4), w).

Definition mouse_init (m : MouseState) (w : W) : MouseState * W :=
  let '(scroll, w) := mouse_setup w in
  let m := if scroll : bool then enable_scroll_wheel m else m in
  (m, mouse_send 0xF4 w).

(** [cmd_reboot] up to the triple fault; was the pulse sent? *)
Definition cmd_reboot (w : W) : bool * W :=
  let '(good, w) := wait_for 1000 (λ v, Z.land v 0x02 =? 0) w in
  (good, if good : bool then outb 0x64 0xFE w else w).

End Init.

(** ** A controller as documented *)

(** The mouse: has it a wheel, the rates it was set to, latest first, is the next byte
    a rate, its identifier, does it report. *)
Record MouseDev : Type := mkDev { wheel : bool; rates : list Z; rate_next : bool; dev_id : Z; reporting : bool }.

Definition ACK : Z := 0xFA.

(** A wheel comes to life after the rates 200, 100 and 80. *)
Definition mouse_command (v : Z) (d : MouseDev) : list Z * MouseDev :=
  if rate_next d then
    let l := v :: rates d in
    ([ACK], mkDev (wheel d) l false (if wheel d && bool_decide (take 3 l = [80; 100; 200]) then 3 else dev_id d) (reporting d))
  else if v =? 0xF6 then ([ACK], mkDev (wheel d) [100] false (dev_id d) false)
  else if v =? 0xF3 then ([ACK], mkDev (wheel d) (rates d) true (dev_id d) (reporting d))
  else if v =? 0xF2 then ([ACK; dev_id d], d)
  else if v =? 0xF4 then ([ACK], mkDev (wheel d) (rates d) false (dev_id d) true)
  else ([ACK], d).

(** Where the next byte for port 0x60 goes. *)
Inductive Expect : Type := ToKeyboard | ToCommandByte | ToMouse.

Record Ctl : Type := mkCtl {
  command_byte : Z;
  queue : list Z;
  expects : Expect;
  to_keyboard : list Z;
  dev : MouseDev;
  pulses : nat;
}.

Definition set_queue (q : list Z) (c : Ctl) : Ctl :=
  mkCtl (command_byte c) q (expects c) (to_keyboard c) (dev c) (pulses c).
Definition set_command_byte (b : Z) (c : Ctl) : Ctl :=
  mkCtl b (queue c) ToKeyboard (to_keyboard c) (dev c) (pulses c).
Definition set_expects (e : Expect) (c : Ctl) : Ctl :=
  mkCtl (command_byte c) (queue c) e (to_keyboard c) (dev c) (pulses c).

(** A write to port 0x64. *)
Definition on_command (v : Z) (c : Ctl) : Ctl :=
  if v =? 0x20 then set_queue (queue c ++ [command_byte c]) (set_expects ToKeyboard c)
  else if v =? 0x60 then set_expects ToCommandByte c
  else if v =? 0xD4 then set_expects ToMouse c
  else if v =? 0xA7 then set_command_byte (Z.setbit (command_byte c) 5) c
  else if v =? 0xA8 then set_command_byte (Z.clearbit (command_byte c) 5) c
  else if v =? 0xAD then set_command_byte (Z.setbit (command_byte c) 4) c
  else if v =? 0xAE then set_command_byte (Z.clearbit (command_byte c) 4) c
  else if v =? 0xFE then mkCtl (command_byte c) (queue c) (expects c) (to_keyboard c) (dev c) (S (pulses c))
  else c.

(** A write to port 0x60; the keyboard answers, a reset with its result. *)
Definition on_data (v : Z) (c : Ctl) : Ctl :=
  match expects c with
  | ToCommandByte => set_command_byte v c
  | ToMouse =>
      let '(answer, d) := mouse_command v (dev c) in
      mkCtl (command_byte c) (queue c ++ answer) ToKeyboard (to_keyboard c) d (pulses c)
  | ToKeyboard =>
      mkCtl (command_byte c) (queue c ++ (if v =? 0xFF then [ACK; 0xAA] else [ACK])) ToKeyboard (to_keyboard c ++ [v]) (dev c)
        (pulses c)
  end.

(** [busy]: looks until the last write is taken; [lag]: looks until the first byte of
    the queue is there. *)
Class Controller (W : Type) `{PortIO W} : Type := {
  ctl : W → Ctl;
  busy : W → nat;
  lag : W → nat;
  ctl_status w :
    let '(v, w') := inb 0x64 w in
    ctl w' = ctl w ∧ busy w' = pred (busy w) ∧ lag w' = pred (lag w) ∧
    input_full v = negb (busy w =? 0)%nat ∧ output_full v = negb (bool_decide (queue (ctl w) = [])) && (lag w =? 0)%nat;
  ctl_read w b q : queue (ctl w) = b :: q → lag w = 0%nat →
    let '(v, w') := inb 0x60 w in v = b ∧ ctl w' = set_queue q (ctl w);
  ctl_command w v : busy w = 0%nat → ctl (outb 0x64 v w) = on_command v (ctl w);
  ctl_data w v : busy w = 0%nat → ctl (outb 0x60 v w) = on_data v (ctl w);
}.

(** ** Waiting *)

Section Waiting.
Context {W : Type} `{P : PortIO W} `{!Controller W}.

Lemma wait_for_spec (n : Z) stop (left : W → nat) (w : W) :
  (∀ w0, ctl w0 = ctl w →
    let '(v, w') := inb 0x64 w0 in ctl w' = ctl w0 ∧ left w' = pred (left w0) ∧ stop v = (left w0 =? 0)%nat) →
  Z.of_nat (left w) < n →
  ∃ w', wait_for n stop w = (true, w') ∧ ctl w' = ctl w ∧ left w' = 0%nat.
Proof using Type.
  intros Hstep Hn. unfold wait_for.
  destruct (wait_ends (inb 0x64) (λ v, if stop v then Some tt else None) left (λ w', ctl w' = ctl w) n w) as (r & w' & E & ? & ?).
  - intros w0 Hc. specialize (Hstep w0 Hc). destruct (inb 0x64 w0) as [v w1]. destruct Hstep as (? & ? & ->).
    split; [congruence|]. split; [done|]. destruct (Nat.eqb_spec (left w0) 0) as [E|E]; [done|]. split; [done|by intros []].
  - done.
  - done.
  - exists w'. by rewrite E.
Qed.

Lemma wait_input_spec (w : W) : Z.of_nat (busy w) < 100000 → ctl (mouse_wait_input w) = ctl w ∧ busy (mouse_wait_input w) = 0%nat.
Proof using Type.
  intros Hb. destruct (wait_for_spec 100000 (λ v, negb (input_full v)) busy w) as (w' & E & Hc & Hz).
  - intros w0 _. pose proof (ctl_status w0) as Hs. destruct (inb 0x64 w0) as [v w1]. destruct Hs as (? & ? & _ & -> & _).
    by rewrite negb_involutive.
  - done.
  - unfold mouse_wait_input. by rewrite E.
Qed.

Lemma wait_output_spec (w : W) : Z.of_nat (lag w) < 100000 → queue (ctl w) ≠ [] →
  ctl (mouse_wait_output w) = ctl w ∧ lag (mouse_wait_output w) = 0%nat.
Proof using Type.
  intros Hb Hq. destruct (wait_for_spec 100000 output_full lag w) as (w' & E & Hc & Hz).
  - intros w0 Hc. pose proof (ctl_status w0) as Hs. destruct (inb 0x64 w0) as [v w1]. destruct Hs as (? & _ & ? & _ & ->).
    split_and!; [done..|]. by rewrite Hc, bool_decide_false.
  - done.
  - unfold mouse_wait_output. by rewrite E.
Qed.

End Waiting.

(** ** The mouse *)

Section MouseSpec.
Context {W : Type} `{P : PortIO W} `{!Controller W}.
Hypothesis busy_in_time : ∀ w, Z.of_nat (busy w) < 100000.
Hypothesis lag_in_time : ∀ w, Z.of_nat (lag w) < 100000.

Lemma mouse_command_spec v (w : W) : ctl (outb 0x64 v (mouse_wait_input w)) = on_command v (ctl w).
Proof using busy_in_time. destruct (wait_input_spec w (busy_in_time w)) as [<- Hb]. by apply ctl_command. Qed.

Lemma mouse_data_spec v (w : W) : ctl (outb 0x60 v (mouse_wait_input w)) = on_data v (ctl w).
Proof using busy_in_time. destruct (wait_input_spec w (busy_in_time w)) as [<- Hb]. by apply ctl_data. Qed.

Lemma mouse_read_spec (w : W) b q : queue (ctl w) = b :: q →
  (mouse_read w).1 = b ∧ ctl (mouse_read w).2 = set_queue q (ctl w).
Proof using lag_in_time.
  intros Hq. destruct (wait_output_spec w (lag_in_time w)) as [Hc Hl]; [by rewrite Hq|]. unfold mouse_read.
  rewrite <- Hc in Hq. pose proof (ctl_read _ _ _ Hq Hl) as Hr. rewrite <- Hc. by destruct (inb 0x60 (mouse_wait_output w)).
Qed.

(** Nothing waits and no write is half done. *)
Definition idle (c : Ctl) : Prop := queue c = [] ∧ expects c = ToKeyboard.

Definition set_dev (d : MouseDev) (c : Ctl) : Ctl := mkCtl (command_byte c) (queue c) (expects c) (to_keyboard c) d (pulses c).

Lemma mouse_write_spec v (w : W) c : ctl w = c → idle c →
  ctl (mouse_write v w) = set_queue (mouse_command v (dev c)).1 (set_dev (mouse_command v (dev c)).2 c).
Proof using busy_in_time.
  intros Hc [Hq He]. unfold mouse_write. rewrite mouse_data_spec, mouse_command_spec, Hc. destruct c as [cb q e tk d p]. cbn in *.
  subst q e. unfold on_data. cbn. by destruct (mouse_command v d).
Qed.

(** A command that is answered by one byte. *)
Lemma mouse_send_spec v b d0 d (w : W) c : ctl w = set_dev d0 c → idle c → mouse_command v d0 = ([b], d) →
  ctl (mouse_send v w) = set_dev d c.
Proof using busy_in_time lag_in_time.
  intros Hc Hi E. unfold mouse_send. pose proof (mouse_write_spec v w (set_dev d0 c) Hc Hi) as Hw. cbn in Hw. rewrite E in Hw.
  destruct (mouse_read_spec (mouse_write v w) b []) as [_ ->]; [by rewrite Hw|]. rewrite Hw. destruct c, Hi as [Hq _]. cbn in *. by subst.
Qed.

(** The device after the sequence; it has a rate sequence of its own before. *)
Definition woken (d : MouseDev) : MouseDev :=
  mkDev (wheel d) [80; 100; 200; 100] false (if wheel d then 3 else dev_id d) false.

Lemma rates_spec (w : W) c d : ctl w = set_dev d c → idle c → rate_next d = false →
  ctl (mouse_send 80 (mouse_send 0xF3 (mouse_send 100 (mouse_send 0xF3 (mouse_send 200 (mouse_send 0xF3 (mouse_send 0xF6 w))))))) =
    set_dev (woken d) c.
Proof using busy_in_time lag_in_time.
  intros Hc Hi Hr. destruct d as [wh rs rn id rep]. cbn in Hr. subst rn.
  apply (mouse_send_spec 80 ACK (mkDev wh [100; 200; 100] true id false) _ _ c); [|done|by destruct wh].
  apply (mouse_send_spec 0xF3 ACK (mkDev wh [100; 200; 100] false id false) _ _ c); [|done|done].
  apply (mouse_send_spec 100 ACK (mkDev wh [200; 100] true id false) _ _ c); [|done|by destruct wh].
  apply (mouse_send_spec 0xF3 ACK (mkDev wh [200; 100] false id false) _ _ c); [|done|done].
  apply (mouse_send_spec 200 ACK (mkDev wh [100] true id false) _ _ c); [|done|by destruct wh].
  apply (mouse_send_spec 0xF3 ACK (mkDev wh [100] false id false) _ _ c); [|done|done].
  by apply (mouse_send_spec 0xF6 ACK (mkDev wh rs false id rep) _ _ c).
Qed.

(** The command byte: the second port on, its interrupt on. *)
Definition mouse_byte (b : Z) : Z := Z.lor (Z.clearbit b 5) 0x02.

Lemma command_byte_spec (w : W) c : ctl w = c → idle c →
  let w2 := outb 0x64 0x20 (mouse_wait_input (outb 0x64 0xA8 (mouse_wait_input w))) in
  let '(v, w3) := mouse_read w2 in
  ctl (outb 0x60 (Z.lor v 0x02) (mouse_wait_input (outb 0x64 0x60 (mouse_wait_input w3)))) =
    set_command_byte (mouse_byte (command_byte c)) c.
Proof using busy_in_time lag_in_time.
  intros Hc Hi w2.
  assert (ctl w2 = on_command 0x20 (on_command 0xA8 c)) as H2 by (unfold w2; by rewrite !mouse_command_spec, Hc).
  destruct (mouse_read_spec w2 (Z.clearbit (command_byte c) 5) []) as [Hv H3].
  { rewrite H2. destruct c, Hi as [Hq He]. cbn in *. by subst. }
  destruct (mouse_read w2) as [v w3]. cbn [fst snd] in Hv, H3. subst v.
  rewrite mouse_data_spec, mouse_command_spec, H3, H2. destruct c, Hi as [Hq He]. cbn in *. by subst.
Qed.

Lemma mouse_setup_spec (w : W) c : ctl w = c → idle c → rate_next (dev c) = false →
  (mouse_setup w).1 = (wheel (dev c) || (dev_id (dev c) =? 3) || (dev_id (dev c) =? 4)) ∧
  ctl (mouse_setup w).2 = set_dev (woken (dev c)) (set_command_byte (mouse_byte (command_byte c)) c).
Proof using busy_in_time lag_in_time.
  intros Hc Hi Hr. unfold mouse_setup. pose proof (command_byte_spec w c Hc Hi) as H4. cbv zeta in *.
  set (w2 := outb 0x64 0x20 _) in *. change (inb 0x60 (mouse_wait_output w2)) with (mouse_read w2).
  destruct (mouse_read w2) as [v w3]. set (c4 := set_command_byte _ c) in *. set (w4 := outb 0x60 _ _) in *.
  assert (idle c4) as Hi4 by (destruct Hi; done).
  assert (ctl w4 = set_dev (dev c) c4) as H4' by (rewrite H4; by destruct c).
  pose proof (rates_spec w4 c4 (dev c) H4' Hi4 Hr) as H5. match type of H5 with ctl ?w = _ => set (w5 := w) in * end.
  unfold mouse_send. pose proof (mouse_write_spec 0xF2 w5 _ H5 ltac:(done)) as Hw.
  change (mouse_command 0xF2 _) with ([ACK; dev_id (woken (dev c))], woken (dev c)) in Hw. cbn [fst snd] in Hw.
  destruct (mouse_read_spec _ _ _ (f_equal queue Hw)) as [_ H6]. rewrite Hw in H6.
  destruct (mouse_read_spec _ _ _ (f_equal queue H6)) as [H7 H8]. rewrite H6 in H8.
  destruct (mouse_read (mouse_read (mouse_write 0xF2 w5)).2) as [id w6]. cbn [fst snd] in *. subst id. rewrite H8.
  split; [cbn; by destruct (wheel (dev c))|]. destruct c, Hi as [Hq _]. cbn in *. by subst.
Qed.

(** After [init] the mouse reports, its port and its interrupt are on, nothing is left
    to read, and the wheel is used exactly when the mouse has one. *)
Theorem mouse_init_spec (m : MouseState) (w : W) c : ctl w = c → idle c → rate_next (dev c) = false → dev_id (dev c) = 0 →
  let '(m', w') := mouse_init m w in
  m' = (if wheel (dev c) then enable_scroll_wheel m else m) ∧ idle (ctl w') ∧
  reporting (dev (ctl w')) = true ∧ command_byte (ctl w') = mouse_byte (command_byte c) ∧
  to_keyboard (ctl w') = to_keyboard c ∧ dev_id (dev (ctl w')) = (if wheel (dev c) then 3 else 0).
Proof using busy_in_time lag_in_time.
  intros Hc Hi Hr Hid. unfold mouse_init. destruct (mouse_setup_spec w c Hc Hi Hr) as [Hs H1]. rewrite Hid in Hs.
  destruct (mouse_setup w) as [b w1]. cbn [fst snd] in *. subst b.
  set (c1 := set_command_byte _ c) in *. assert (idle c1) as Hi1 by (destruct Hi; done).
  rewrite (mouse_send_spec 0xF4 _ _ _ w1 c1 H1 Hi1 eq_refl). cbn. rewrite Hid. destruct Hi as [Hq _].
  split_and!; try done; by destruct (wheel (dev c)).
Qed.

End MouseSpec.

(** ** The keyboard *)

Section KeyboardSpec.
Context {W : Type} `{P : PortIO W} `{!Controller W}.
Hypothesis prompt_write : ∀ w, busy w = 0%nat.
Hypothesis prompt_answer : ∀ w, lag w = 0%nat.

Lemma status_spec (w : W) : let '(v, w') := inb 0x64 w in
  ctl w' = ctl w ∧ input_full v = false ∧ output_full v = negb (bool_decide (queue (ctl w) = [])).
Proof using prompt_write prompt_answer.
  pose proof (ctl_status w) as Hs. rewrite prompt_write, prompt_answer in Hs. destruct (inb 0x64 w) as [v w'].
  destruct Hs as (? & _ & _ & ? & ->). by rewrite andb_true_r.
Qed.

Lemma spin_spec fuel stop (w : W) : (0 < fuel)%nat → (∀ v, output_full v = negb (bool_decide (queue (ctl w) = [])) → input_full v = false → stop v = true) →
  ∃ w', spin fuel stop w = Some w' ∧ ctl w' = ctl w.
Proof using prompt_write prompt_answer.
  intros Hf Hs. destruct fuel as [|fuel]; [lia|]. cbn [spin]. pose proof (status_spec w) as Hw. destruct (inb 0x64 w) as [v w'].
  destruct Hw as (Hc & Hi & Ho). rewrite (Hs v Ho Hi). by exists w'.
Qed.

Lemma read_spec (w : W) b q : queue (ctl w) = b :: q → (inb 0x60 w).1 = b ∧ ctl (inb 0x60 w).2 = set_queue q (ctl w).
Proof using prompt_answer. intros Hq. pose proof (ctl_read w b q Hq (prompt_answer w)) as H. by destruct (inb 0x60 w). Qed.

Lemma discard_spec (w : W) : ctl (discard w) = set_queue (tail (queue (ctl w))) (ctl w).
Proof using prompt_write prompt_answer.
  unfold discard. pose proof (status_spec w) as Hw. destruct (inb 0x64 w) as [v w']. destruct Hw as (Hc & _ & ->). rewrite <- Hc.
  destruct (queue (ctl w')) as [|b q] eqn:E; cbn.
  - rewrite <- E. by destruct (ctl w').
  - by destruct (read_spec w' b q E).
Qed.

Lemma discards_spec n i (w : W) : (length (queue (ctl w)) ≤ n)%nat →
  ctl (iter_from n i (λ _, discard) w) = set_queue [] (ctl w).
Proof using prompt_write prompt_answer.
  revert i w. induction n as [|n IH]; intros i w Hn; cbn [iter_from].
  - destruct (ctl w) as [cb [|b q] e tk d p]; cbn in *; [done|lia].
  - rewrite IH, discard_spec; [done|]. rewrite discard_spec. cbn. destruct (queue (ctl w)); cbn in *; lia.
Qed.

Lemma flush_output_spec fuel (w : W) : (length (queue (ctl w)) < fuel)%nat →
  ∃ w', flush_output fuel w = Some w' ∧ ctl w' = set_queue [] (ctl w).
Proof using prompt_write prompt_answer.
  revert w. induction fuel as [|fuel IH]; intros w Hf; [lia|]. cbn [flush_output].
  pose proof (status_spec w) as Hw. destruct (inb 0x64 w) as [v w1]. destruct Hw as (Hc & _ & ->). rewrite <- Hc. rewrite <- Hc in Hf.
  destruct (queue (ctl w1)) as [|b q] eqn:E; cbn in *.
  - exists w1. split; [done|]. rewrite <- E. by destruct (ctl w1).
  - destruct (read_spec w1 b q E) as [_ Hr]. destruct (IH (inb 0x60 w1).2) as (w' & -> & Hw); [rewrite Hr; cbn; lia|].
    exists w'. by rewrite Hw, Hr.
Qed.

(** The command byte after [init_ps2]: the first port on with its interrupt, codes
    translated, the second port off. *)
Definition keyboard_byte (b : Z) : Z := Z.clearbit (Z.lor (Z.lor (Z.setbit (Z.setbit b 4) 5) 0x01) 0x40) 4.

#[local] Ltac next := cbn [mbind option_bind]; cbv zeta.

(** The sequence ends; the keyboard was told to reset, its answers are gone. *)
Theorem init_ps2_spec fuel (w : W) : (length (queue (ctl w)) < fuel)%nat →
  ∃ w', init_ps2 fuel w = Some w' ∧
    ctl w' = mkCtl (keyboard_byte (command_byte (ctl w))) [] ToKeyboard (to_keyboard (ctl w) ++ [0xFF]) (dev (ctl w)) (pulses (ctl w)).
Proof using prompt_write prompt_answer.
  intros Hf. unfold init_ps2. assert (0 < fuel)%nat as H0 by lia.
  destruct (spin_spec fuel (λ v, negb (input_full v)) w H0) as (w1 & -> & H1); [by intros v _ ->|]. next.
  set (w2 := outb 0x64 0xA7 _). assert (ctl w2 = on_command 0xA7 (on_command 0xAD (ctl w))) as H2.
  { unfold w2. by rewrite !ctl_command, H1. }
  destruct (flush_output_spec fuel w2) as (w3 & E3 & H3); [rewrite H2; done|]. rewrite E3. next. rewrite H2 in H3.
  set (w4 := outb 0x64 0x20 w3). assert (ctl w4 = on_command 0x20 (ctl w3)) as H4 by (unfold w4; by rewrite ctl_command).
  rewrite H3 in H4. destruct (spin_spec fuel output_full w4 H0) as (w5 & -> & H5); [by intros v ->; rewrite H4|]. cbn.
  rewrite H4 in H5. destruct (read_spec w5 _ _ (f_equal queue H5)) as [Hb H6]. rewrite H5 in H6.
  destruct (inb 0x60 w5) as [b w6]. cbn [fst snd] in *. subst b.
  match goal with |- context [spin fuel _ ?x] => set (w7 := x) end.
  assert (ctl w7 = on_command 0x60 (ctl w6)) as H7 by (unfold w7; by rewrite ctl_command).
  destruct (spin_spec fuel (λ v, negb (input_full v)) w7 H0) as (w8 & -> & H8); [by intros v _ ->|]. next.
  match goal with |- context [spin fuel _ ?x] => set (w9 := x) end.
  assert (ctl w9 = on_command 0xAE (on_data (Z.lor (Z.lor (Z.setbit (Z.setbit (command_byte (ctl w)) 4) 5) 0x01) 0x40) (ctl w7))) as H9.
  { unfold w9. by rewrite ctl_command, ctl_data, H8. }
  destruct (spin_spec fuel (λ v, negb (input_full v)) w9 H0) as (w10 & -> & H10); [by intros v _ ->|]. next.
  eexists. split; [reflexivity|]. unfold for_range. rewrite discards_spec; rewrite ctl_data, H10, H9, H7, H6 by done; [done|]. cbn. lia.
Qed.

End KeyboardSpec.

(** ** Both, and the reset *)

Section Both.
Context {W : Type} `{P : PortIO W} `{!Controller W}.
Hypothesis prompt_write : ∀ w, busy w = 0%nat.
Hypothesis prompt_answer : ∀ w, lag w = 0%nat.

(** The start of the drivers on a controller that takes writes and answers at once,
    whatever it was doing: it ends, the keyboard has been reset, both ports and both
    interrupts are on, scan codes are translated to set 1, the mouse reports, the wheel
    is used exactly when there is one, and no byte is left over. *)
Theorem input_devices_ready fuel (m : MouseState) (w : W) :
  (length (queue (ctl w)) < fuel)%nat → rate_next (dev (ctl w)) = false → dev_id (dev (ctl w)) = 0 →
  ∃ w1 m' w', init_ps2 fuel w = Some w1 ∧ mouse_init m w1 = (m', w') ∧
    m' = (if wheel (dev (ctl w)) then enable_scroll_wheel m else m) ∧
    to_keyboard (ctl w') = to_keyboard (ctl w) ++ [0xFF] ∧ reporting (dev (ctl w')) = true ∧ idle (ctl w') ∧
    Forall (λ i, Z.testbit (command_byte (ctl w')) i = true) [0; 1; 6] ∧
    Forall (λ i, Z.testbit (command_byte (ctl w')) i = false) [4; 5].
Proof using prompt_write prompt_answer.
  intros Hf Hr Hid. destruct (init_ps2_spec prompt_write prompt_answer fuel w Hf) as (w1 & E1 & H1).
  assert (idle (ctl w1)) as Hi by (by rewrite H1).
  assert (rate_next (dev (ctl w1)) = false) as Hr1 by (by rewrite H1).
  assert (dev_id (dev (ctl w1)) = 0) as Hid1 by (by rewrite H1).
  pose proof (mouse_init_spec ltac:(intros w0; rewrite prompt_write; lia) ltac:(intros w0; rewrite prompt_answer; lia)
    m w1 _ eq_refl Hi Hr1 Hid1) as Hm.
  destruct (mouse_init m w1) as [m' w'] eqn:Em. destruct Hm as (Hm & Hi' & Hrep & Hcb & Htk & _).
  exists w1, m', w'. rewrite Hcb, Htk, H1 in *. cbn [dev to_keyboard command_byte] in *. split_and!; try done.
  all: unfold mouse_byte, keyboard_byte; repeat constructor.
  all: rewrite ?Z.lor_spec, ?Z.clearbit_eqb, ?Z.lor_spec, ?Z.setbit_eqb by lia; cbn; rewrite ?orb_true_r, ?andb_false_r; done.
Qed.

End Both.

(** The pulse is sent when the controller takes the last write in time. *)
Lemma cmd_reboot_spec {W} `{P : PortIO W} `{!Controller W} (w : W) : Z.of_nat (busy w) < 1000 →
  ∃ w', cmd_reboot w = (true, w') ∧ pulses (ctl w') = S (pulses (ctl w)).
Proof.
  intros Hb. destruct (wait_for_spec 1000 (λ v, Z.land v 0x02 =? 0) busy w) as (w' & E & Hc & Hz).
  - intros w0 _. pose proof (ctl_status w0) as Hs. destruct (inb 0x64 w0) as [v w1]. destruct Hs as (? & ? & _ & Hi & _).
    unfold input_full in Hi. split_and!; [done..|]. rewrite <- (negb_involutive (Z.land v 2 =? 0)), Hi. apply negb_involutive.
  - done.
  - unfold cmd_reboot. rewrite E. eexists. split; [done|]. by rewrite ctl_command, Hc.
Qed.

(** ** Simulated controllers *)

Module Ps2Example.

Definition status (full : bool) (c : Ctl) (there : bool) : Z :=
  (if full then 2 else 0) + (if negb (bool_decide (queue c = [])) && there then 1 else 0).

(** One that takes writes and answers at once. *)
#[export] Instance prompt_ports : PortIO Ctl := {
  inb p c := if p =? 0x64 then (status false c true, c)
             else if p =? 0x60 then match queue c with b :: q => (b, set_queue q c) | [] => (0, c) end else (0, c);
  inw _ c := (0, c); inl _ c := (0, c);
  outb p v c := if p =? 0x64 then on_command v c else if p =? 0x60 then on_data v c else c;
  outw _ _ c := c; outl _ _ c := c;
}.

#[export] Instance prompt_controller : Controller Ctl.
Proof.
  refine {| ctl := λ c, c; busy := λ _, 0%nat; lag := λ _, 0%nat |}.
  - intros c. cbn. unfold status. by destruct (bool_decide (queue c = [])).
  - intros c b q E _. cbn. by rewrite E.
  - done.
  - done.
Defined.

(** From a keyboard in use, with a byte nobody has read, and a mouse with a wheel. *)
Definition bios : Ctl := mkCtl 0x45 [0x1C] ToMouse [] (mkDev true [100] false 0 false) 0.

Lemma input_devices_ready_witness :
  (length (queue (ctl bios)) < 8)%nat ∧
  ∃ w1 m' w', init_ps2 8 bios = Some w1 ∧ mouse_init MouseState_new w1 = (m', w') ∧
    m' = (if wheel (dev (ctl bios)) then enable_scroll_wheel MouseState_new else MouseState_new) ∧
    to_keyboard (ctl w') = to_keyboard (ctl bios) ++ [0xFF] ∧ reporting (dev (ctl w')) = true ∧ idle (ctl w') ∧
    Forall (λ i, Z.testbit (command_byte (ctl w')) i = true) [0; 1; 6] ∧
    Forall (λ i, Z.testbit (command_byte (ctl w')) i = false) [4; 5].
Proof. split; [cbn; lia|]. apply (@input_devices_ready Ctl prompt_ports prompt_controller (λ _, eq_refl) (λ _, eq_refl) 8 MouseState_new bios); [cbn; lia|done..]. Defined.

(** One that needs a look before it takes the next write: a write before that is lost.
    The second of two commands in a row is, and the mouse's port stays on. *)
Record Slow : Type := mkSlow { slow : Ctl; taking : bool }.

#[export] Instance slow_ports : PortIO Slow := {
  inb p s := if p =? 0x64 then (status (taking s) (slow s) true, mkSlow (slow s) false)
             else let '(v, c) := inb p (slow s) in (v, mkSlow c (taking s));
  inw _ s := (0, s); inl _ s := (0, s);
  outb p v s := if taking s then s else mkSlow (outb p v (slow s)) true;
  outw _ _ s := s; outl _ _ s := s;
}.

#[export] Instance slow_controller : Controller Slow.
Proof.
  refine {| ctl := slow; busy := λ s, if taking s then 1%nat else 0%nat; lag := λ _, 0%nat |}.
  - intros [c b]. cbn. unfold status. by destruct b, (bool_decide (queue c = [])).
  - intros [c b'] b q E _. cbn in *. by rewrite E.
  - intros [c []] v; done.
  - intros [c []] v; done.
Defined.

(** The command that turns the mouse's port off and the one that turns the keyboard's
    on come at once after another write. *)
Theorem keyboard_writes_lost :
  match init_ps2 8 (mkSlow (mkCtl 0x45 [] ToKeyboard [] (mkDev true [100] false 0 false) 0) false) with
  | Some s => Z.testbit (command_byte (slow s)) 4 = true ∧ Z.testbit (command_byte (slow s)) 5 = false
  | None => False
  end.
Proof. by vm_compute. Qed.

(** With interrupts on, IRQ 12 takes a byte of the mouse from port 0x60 as soon as it
    is there; a read of the empty port gives the last byte again. *)
Record Irq : Type := mkIrq { decoder : MouseState; chip : Ctl; latch : Z }.

Definition irq12 (s : Irq) : Irq :=
  if Z.testbit (command_byte (chip s)) 1 then
    match queue (chip s) with
    | b :: q => mkIrq (handle_interrupt b (decoder s)) (set_queue q (chip s)) b
    | [] => s
    end
  else s.

#[export] Instance irq_ports : PortIO Irq := {
  inb p s :=
    let '(v, s) :=
      if (p =? 0x60) then
        match queue (chip s) with
        | b :: q => (b, mkIrq (decoder s) (set_queue q (chip s)) b)
        | [] => (latch s, s)
        end
      else (status false (chip s) true, s) in
    (v, irq12 s);
  inw _ s := (0, s); inl _ s := (0, s);
  outb p v s := irq12 (mkIrq (decoder s) (outb p v (chip s)) (latch s));
  outw _ _ s := s; outl _ _ s := s;
}.

Definition started : Irq :=
  let '(scroll, s) := mouse_setup (mkIrq MouseState_new (mkCtl 0x65 [] ToKeyboard [] (mkDev false [100] false 0 false) 0) 0) in
  let m := if scroll : bool then enable_scroll_wheel (decoder s) else decoder s in
  mouse_send 0xF4 (mkIrq m (chip s) (latch s)).

(** Every answer goes to the decoder of movements, and the last one stays there as the
    first byte of a packet: the first movement after the start, ten to the right, is
    not seen. *)
Theorem ack_starts_packet :
  cycle (decoder started) = 1 ∧ packet_byte 0 (decoder started) = ACK ∧
  get_position (foldl (λ m b, handle_interrupt b m) (decoder started) [0x08; 10; 0]) = get_position (decoder started) ∧
  get_position (foldl (λ m b, handle_interrupt b m) MouseState_new [0x08; 10; 0]) ≠ get_position MouseState_new.
Proof. vm_compute. split_and!; [done..|congruence]. Qed.

End Ps2Example.
