(* ===== verification/Ata.v ===== *)
(** * The ATA driver: [drivers/storage/ata.rs]

    Detection and the transfers by programmed I/O, over the ports of [Ports]; the
    buffer of a read is part of the state, as the code fills it in place.  The
    registration of the drives found, [storage::init], is here too. *)

From S2P Require Import Prelude Bytes Str Ports.

Definition ATA_PRIMARY_DATA : Z := 0x1F0.
Definition ATA_CMD_READ_PIO : Z := 0x20.
Definition ATA_CMD_READ_PIO_EXT : Z := 0x24.
Definition ATA_CMD_WRITE_PIO : Z := 0x30.
Definition ATA_CMD_WRITE_PIO_EXT : Z := 0x34.
Definition ATA_CMD_CACHE_FLUSH : Z := 0xE7.
Definition ATA_CMD_IDENTIFY : Z := 0xEC.
Definition ATA_SR_BSY : Z := 0x80.
Definition ATA_SR_DRQ : Z := 0x08.
Definition ATA_SR_ERR : Z := 0x01.
Definition ATA_MASTER : Z := 0xA0.
Definition ATA_SLAVE : Z := 0xB0.
Definition MAX_ATA_DEVICES : Z := 4.
Definition MODEL_SIZE : Z := 40.
Definition SERIAL_SIZE : Z := 20.
Definition NAME_SIZE : Z := 8.

Record AtaDevice : Type := mkAta {
  channel : Z;
  drive : Z;
  name : list Z;
  model : list Z;
  serial_number : list Z;
  sectors : Z;
  lba48 : bool;
  present : bool;
}.

Definition AtaDevice_empty : AtaDevice := mkAta 0 0 (zeros NAME_SIZE) (zeros MODEL_SIZE) (zeros SERIAL_SIZE) 0 false false.

Definition on (status mask : Z) : bool := negb (Z.land status mask =? 0).

(** ** What IDENTIFY answers *)

(** A character goes to the next place of the array, if it is kept. *)
Definition push_ident (size : Z) (keep : Z → bool) (c : Z) (s : list Z * Z) : list Z * Z :=
  if (s.2 <? size) && keep c then (<[Z.to_nat s.2 := c]> s.1, s.2 + 1) else s.

Definition ident_string (lo hi size : Z) (keep : Z → bool) (data : list Z) : list Z :=
  (for_range lo hi (λ i s,
    let word := default 0 (data !! Z.to_nat i) in
    let hi := Z.land (Z.shiftr word 8) 0xFF in
    let lo := Z.land word 0xFF in
    push_ident size keep lo (push_ident size keep hi s)) (zeros size, 0)).1.

Definition device_name (channel drive : Z) : list Z :=
  let c := if (channel =? 0) && (drive =? 0) then 97 else if (channel =? 0) && (drive =? 1) then 98
           else if (channel =? 1) && (drive =? 0) then 99 else if (channel =? 1) && (drive =? 1) then 100 else 120 in
  [104; 100; c; 0; 0; 0; 0; 0].

(** The device that 256 words of identification describe. *)
Definition identify_device (ch dr : Z) (data : list Z) : AtaDevice :=
  let word i := default 0 (data !! i) in
  let lba48 := on (word 83%nat) (Z.shiftl 1 10) in
  let sectors :=
    if lba48 then
      Z.lor (Z.lor (Z.lor (word 100%nat) (Z.shiftl (word 101%nat) 16)) (Z.shiftl (word 102%nat) 32)) (Z.shiftl (word 103%nat) 48)
    else Z.lor (word 60%nat) (Z.shiftl (word 61%nat) 16) in
  mkAta ch dr (device_name ch dr)
    (ident_string 27 47 MODEL_SIZE (λ c, negb (c =? 0)) data)
    (ident_string 10 20 SERIAL_SIZE (λ c, negb (c =? 0) && negb (c =? 32)) data)
    sectors lba48 true.

Definition until_nul (s : list Z) : list Z := before_byte 0 s.

Definition name_str (d : AtaDevice) : list Z :=
  let s := until_nul (name d) in if is_utf8 s then s else bytes_of_string "unknown".

Definition model_str (d : AtaDevice) : list Z :=
  let s := until_nul (model d) in if is_utf8 s then s else bytes_of_string "unknown".

Section Driver.

Context {W : Type} `{PortIO W}.

(** ** Detection *)

Definition channel_base (channel : Z) : Z := if channel =? 0 then ATA_PRIMARY_DATA else 0x170.

Definition not_busy (status : Z) : option unit := if on status ATA_SR_BSY then None else Some tt.

(** [Some true] leaves the loop, [Some false] the function. *)
Definition identified (status : Z) : option bool :=
  if on status ATA_SR_ERR then Some false else if on status ATA_SR_DRQ then Some true else None.

Definition read_ident (base : Z) : M W (list Z) := λ w,
  let '(data, w) :=
    for_range 0 256 (λ i '(data, w), let '(v, w) := inw base w in (<[Z.to_nat i := v]> data, w)) (zeros 256, w) in
  (Ok data, w).

Definition detect (channel drive : Z) : M W (option AtaDevice) :=
  let base := channel_base channel in
  out8 (base + 6) (if drive =? 0 then ATA_MASTER else ATA_SLAVE);;
  m_modify (for_range 0 15 (λ _ w, (inb (base + 7) w).2));;
  out8 (base + 2) 0;;
  out8 (base + 3) 0;;
  out8 (base + 4) 0;;
  out8 (base + 5) 0;;
  out8 (base + 7) ATA_CMD_IDENTIFY;;
  status ← in8 (base + 7);
  if status =? 0 then mret None
  else
    _ ← poll 100000 (base + 7) not_busy;
    status ← in8 (base + 7);
    if on status ATA_SR_BSY then mret None
    else
      lba_mid ← in8 (base + 4);
      lba_hi ← in8 (base + 5);
      if negb (lba_mid =? 0) || negb (lba_hi =? 0) then mret None
      else
        r ← poll 100000 (base + 7) identified;
        if bool_decide (r = Some false) then mret None
        else
          status ← in8 (base + 7);
          if negb (on status ATA_SR_DRQ) then mret None
          else
            data ← read_ident base;
            mret (Some (identify_device channel drive data)).

(** ** Transfers *)

(** The task file and the command, in 48-bit mode beyond 2^28 sectors when the drive
    has it. *)
Definition start_transfer (d : AtaDevice) (lba count cmd cmd_ext : Z) : M W unit :=
  let base := channel_base (channel d) in
  let drive_sel := if drive d =? 0 then 0xE0 else 0xF0 in
  if lba48 d && (0x0FFFFFFF <? lba) then
    out8 (base + 6) drive_sel;;
    out8 (base + 2) 0;;
    out8 (base + 3) (Z.land (Z.shiftr lba 24) 0xFF);;
    out8 (base + 4) (Z.land (Z.shiftr lba 32) 0xFF);;
    out8 (base + 5) (Z.land (Z.shiftr lba 40) 0xFF);;
    out8 (base + 2) count;;
    out8 (base + 3) (Z.land lba 0xFF);;
    out8 (base + 4) (Z.land (Z.shiftr lba 8) 0xFF);;
    out8 (base + 5) (Z.land (Z.shiftr lba 16) 0xFF);;
    out8 (base + 7) cmd_ext
  else
    out8 (base + 6) (Z.lor drive_sel (Z.land (Z.shiftr lba 24) 0x0F));;
    out8 (base + 2) count;;
    out8 (base + 3) (Z.land lba 0xFF);;
    out8 (base + 4) (Z.land (Z.shiftr lba 8) 0xFF);;
    out8 (base + 5) (Z.land (Z.shiftr lba 16) 0xFF);;
    out8 (base + 7) cmd.

Definition ready (error : string) (status : Z) : option (res unit) :=
  if on status ATA_SR_ERR then Some (Err error) else if on status ATA_SR_DRQ then Some (Ok tt) else None.

Definition wait_drq (base : Z) (error timeout : string) : M W unit :=
  r ← poll 100000 (base + 7) (ready error);
  match r with Some r => m_lift r | None => m_fail timeout end.

(** An operation on the ports, beside a buffer. *)
Definition on_ports {A} (m : M W A) : M (list Z * W) A := λ s,
  let '(r, w) := m s.2 in (r, (s.1, w)).

Definition read_word (base offset i : Z) (s : list Z * W) : list Z * W :=
  let '(word, w) := inw base s.2 in
  (<[Z.to_nat (offset + i * 2 + 1) := Z.land (Z.shiftr word 8) 0xFF]>
    (<[Z.to_nat (offset + i * 2) := Z.land word 0xFF]> s.1), w).

Definition read_sectors (d : AtaDevice) (lba count : Z) : M (list Z * W) unit :=
  let base := channel_base (channel d) in
  s ← m_get;
  m_guard (count * 512 <=? len s.1) "Buffer too small";;
  on_ports (start_transfer d lba count ATA_CMD_READ_PIO ATA_CMD_READ_PIO_EXT);;
  for_m 0 count (λ sector,
    on_ports (wait_drq base "Read error" "Read timeout");;
    m_modify (for_range 0 256 (read_word base (sector * 512)))).

Definition write_word (base : Z) (buf : list Z) (offset i : Z) (w : W) : W :=
  outw base (Z.lor (default 0 (buf !! Z.to_nat (offset + i * 2)))
                   (Z.shiftl (default 0 (buf !! Z.to_nat (offset + i * 2 + 1))) 8)) w.

Definition flush (d : AtaDevice) : M W unit :=
  let base := channel_base (channel d) in
  out8 (base + 7) ATA_CMD_CACHE_FLUSH;;
  _ ← poll 100000 (base + 7) not_busy;
  mret tt.

Definition write_sectors (d : AtaDevice) (lba count : Z) (buf : list Z) : M W unit :=
  let base := channel_base (channel d) in
  m_guard (count * 512 <=? len buf) "Buffer too small";;
  start_transfer d lba count ATA_CMD_WRITE_PIO ATA_CMD_WRITE_PIO_EXT;;
  for_m 0 count (λ sector,
    wait_drq base "Write error" "Write timeout";;
    m_modify (for_range 0 256 (write_word base buf (sector * 512))));;
  flush d.

(** [impl BlockDevice for AtaDevice] *)
Definition ata_read (d : AtaDevice) (start count : Z) : M (list Z * W) unit :=
  m_guard (count <=? 255) "Count too large";; read_sectors d start count.

Definition ata_write (d : AtaDevice) (start count : Z) (buf : list Z) : M W unit :=
  m_guard (count <=? 255) "Count too large";; write_sectors d start count buf.

Definition block_size (d : AtaDevice) : Z := 512.
Definition total_blocks (d : AtaDevice) : Z := sectors d.

(** ** The drives of the machine *)

(** [ATA_DEVICES] and the next free place in it. *)
Definition scan_one (i : Z) : M (list AtaDevice * Z * W) unit := λ '(devices, idx, w),
  let '(r, w) := detect (i / 2) (i mod 2) w in
  match r with
  | Ok (Some d) =>
      (Ok tt, if idx <? MAX_ATA_DEVICES then (<[Z.to_nat idx := d]> devices, idx + 1, w) else (devices, idx, w))
  | Ok None => (Ok tt, (devices, idx, w))
  | Err e => (Err e, (devices, idx, w))
  | Panic => (Panic, (devices, idx, w))
  end.

Definition scan_devices (devices : list AtaDevice) (w : W) : list AtaDevice * W :=
  let '(_, (devices, _, w)) := for_m 0 4 scan_one (devices, 0, w) in (devices, w).

Definition get_device (devices : list AtaDevice) (index : Z) : option AtaDevice :=
  if index <? MAX_ATA_DEVICES then d ← devices !! Z.to_nat index; if present d then Some d else None else None.

(** [storage::init]: the drives that [BLOCK_DEVICES] gets. *)
Definition storage_init (w : W) : list AtaDevice * W :=
  let '(devices, w) := scan_devices (replicate 4 AtaDevice_empty) w in
  (omap (get_device devices) (seqZ 0 4), w).

End Driver.
