(* ===== verification/AtaDrive.v ===== *)
(** * ATA drives

    What the driver relies on of a drive is the class [AtaDrive], the documented
    behaviour of the task file and of the data port in programmed I/O: how long a
    drive takes is left open, below the number of polls the code makes.  A drive that
    has sent the last word of a read is ready for the next command; one that has taken
    the last word of a write is busy with it for some time, and the class says nothing
    of a command that it gets meanwhile.  Simulated drives are instances, whatever they
    do with such a command. *)

From S2P Require Import Prelude Bytes Ports Ata.

(** ** A drive *)

(** The task file; the registers but the device's keep two values. *)
Record Regs : Type := mkRegs {
  r_dev : Z;
  r_count : Z * Z;
  r_lo : Z * Z;
  r_mid : Z * Z;
  r_hi : Z * Z;
}.

Definition set_reg (r v : Z) (f : Regs) : Regs :=
  let '(mkRegs dev count lo mid hi) := f in
  if r =? 2 then mkRegs dev (v, count.1) lo mid hi
  else if r =? 3 then mkRegs dev count (v, lo.1) mid hi
  else if r =? 4 then mkRegs dev count lo (v, mid.1) hi
  else if r =? 5 then mkRegs dev count lo mid (v, hi.1)
  else if r =? 6 then mkRegs v count lo mid hi
  else f.

Definition lba28_of (f : Regs) : Z := (r_lo f).1 + (r_mid f).1 * 2 ^ 8 + (r_hi f).1 * 2 ^ 16 + Z.land (r_dev f) 0x0F * 2 ^ 24.
Definition lba48_of (f : Regs) : Z :=
  (r_lo f).1 + (r_mid f).1 * 2 ^ 8 + (r_hi f).1 * 2 ^ 16 + (r_lo f).2 * 2 ^ 24 + (r_mid f).2 * 2 ^ 32 + (r_hi f).2 * 2 ^ 40.
Definition count28_of (f : Regs) : Z := if (r_count f).1 =? 0 then 256 else (r_count f).1.
Definition count48_of (f : Regs) : Z :=
  let n := (r_count f).1 + (r_count f).2 * 2 ^ 8 in if n =? 0 then 65536 else n.

(** Ready for a command; busy for so many reads of the status; sending the sectors
    from [lba], [more] of them, with [wait] reads of the status before the word [i];
    taking them, with the words of the current one. *)
Inductive Phase : Type :=
| Idle
| Busy (wait : Z)
| Sending (lba more wait i : Z)
| Taking (lba more wait : Z) (words : list Z).

Record Drive : Type := mkDrive { regs : Regs; phase : Phase; disk : Z → list Z; dsize : Z }.

Definition set_regs (f : Regs) (d : Drive) : Drive := mkDrive f (phase d) (disk d) (dsize d).
Definition set_phase (p : Phase) (d : Drive) : Drive := mkDrive (regs d) p (disk d) (dsize d).
Definition set_sector (lba : Z) (bs : list Z) (d : Drive) : Drive :=
  mkDrive (regs d) (phase d) (λ s, if s =? lba then bs else disk d s) (dsize d).

Definition word_of (bs : list Z) (i : Z) : Z :=
  default 0 (bs !! Z.to_nat (2 * i)) + 256 * default 0 (bs !! Z.to_nat (2 * i + 1)).
Definition bytes_of_words (ws : list Z) : list Z := ws ≫= λ w, [w mod 256; w / 256].

(** The task file addresses [n] sectors from [lba], in the 28-bit or in the 48-bit
    form. *)
Definition addresses (d : AtaDevice) (ext : bool) (f : Regs) (lba n : Z) : Prop :=
  Z.land (r_dev f) 0xF0 = (if drive d =? 0 then 0xE0 else 0xF0) ∧
  (if ext then lba48 d = true ∧ lba = lba48_of f ∧ n = count48_of f
   else lba = lba28_of f ∧ n = count28_of f ∧ lba + n ≤ 2 ^ 28).

Definition in_time (wait : Z) : Prop := 0 ≤ wait < 100000.

(** The status while data is not, and is, to be moved. *)
Definition not_yet (status : Z) : Prop := on status ATA_SR_ERR = false ∧ on status ATA_SR_DRQ = false.
Definition data_ready (status : Z) : Prop := on status ATA_SR_ERR = false ∧ on status ATA_SR_DRQ = true.

Class AtaDrive (W : Type) `{PortIO W} (d : AtaDevice) : Type := {
  view : W → Drive;
  ata_register w r v : 2 ≤ r ≤ 6 →
    view (outb (channel_base (channel d) + r) v w) = set_regs (set_reg r v (regs (view w))) (view w);
  ata_start_read w ext lba n :
    phase (view w) = Idle → addresses d ext (regs (view w)) lba n → lba + n ≤ dsize (view w) →
    ∃ wait, in_time wait ∧
      view (outb (channel_base (channel d) + 7) (if ext then 0x24 else 0x20) w) = set_phase (Sending lba n wait 0) (view w);
  ata_start_write w ext lba n :
    phase (view w) = Idle → addresses d ext (regs (view w)) lba n → lba + n ≤ dsize (view w) →
    ∃ wait, in_time wait ∧
      view (outb (channel_base (channel d) + 7) (if ext then 0x34 else 0x30) w) = set_phase (Taking lba n wait []) (view w);
  ata_start_flush w : phase (view w) = Idle →
    ∃ wait, in_time wait ∧ view (outb (channel_base (channel d) + 7) 0xE7 w) = set_phase (Busy wait) (view w);
  ata_busy w wait : phase (view w) = Busy wait →
    let '(status, w') := inb (channel_base (channel d) + 7) w in
    if 0 <? wait then on status ATA_SR_BSY = true ∧ view w' = set_phase (Busy (wait - 1)) (view w)
    else on status ATA_SR_BSY = false ∧ view w' = set_phase Idle (view w);
  ata_sending w lba more wait i : phase (view w) = Sending lba more wait i →
    let '(status, w') := inb (channel_base (channel d) + 7) w in
    if 0 <? wait then not_yet status ∧ view w' = set_phase (Sending lba more (wait - 1) i) (view w)
    else data_ready status ∧ view w' = view w;
  ata_taking w lba more wait ws : phase (view w) = Taking lba more wait ws →
    let '(status, w') := inb (channel_base (channel d) + 7) w in
    if 0 <? wait then not_yet status ∧ view w' = set_phase (Taking lba more (wait - 1) ws) (view w)
    else data_ready status ∧ view w' = view w;
  ata_data_in w lba more i : phase (view w) = Sending lba more 0 i → 0 ≤ i < 256 →
    let '(word, w') := inw (channel_base (channel d)) w in
    word = word_of (disk (view w) lba) i ∧
    ∃ wait, in_time wait ∧ view w' = set_phase
      (if i <? 255 then Sending lba more 0 (i + 1) else if more =? 1 then Idle else Sending (lba + 1) (more - 1) wait 0) (view w);
  ata_data_out w lba more ws v : phase (view w) = Taking lba more 0 ws → len ws < 256 →
    ∃ wait, in_time wait ∧ view (outw (channel_base (channel d)) v w) =
      if len ws <? 255 then set_phase (Taking lba more 0 (ws ++ [v])) (view w)
      else set_phase (if more =? 1 then Busy wait else Taking (lba + 1) (more - 1) wait [])
             (set_sector lba (bytes_of_words (ws ++ [v])) (view w));
}.

(** ** Simulated drives

    The drive 0 of the first channel; it makes the driver read its status twice, and
    does [on_busy] when it gets a command while it is busy. *)

(** [hda], as the detection would describe it. *)
Definition hda (size : Z) : AtaDevice := mkAta 0 0 (device_name 0 0) (zeros 40) (zeros 20) size true true.

Lemma in_time_1 : in_time 1.
Proof. unfold in_time. lia. Qed.

Section Simulated.

Context (on_busy : Drive → Drive).

Definition sim_start (cmd : Z) (d : Drive) : Drive :=
  match phase d with
  | Idle =>
      if cmd =? 0x20 then set_phase (Sending (lba28_of (regs d)) (count28_of (regs d)) 1 0) d
      else if cmd =? 0x24 then set_phase (Sending (lba48_of (regs d)) (count48_of (regs d)) 1 0) d
      else if cmd =? 0x30 then set_phase (Taking (lba28_of (regs d)) (count28_of (regs d)) 1 []) d
      else if cmd =? 0x34 then set_phase (Taking (lba48_of (regs d)) (count48_of (regs d)) 1 []) d
      else if cmd =? 0xE7 then set_phase (Busy 1) d
      else d
  | Busy _ => on_busy d
  | _ => d
  end.

Definition sim_status (d : Drive) : Z * Drive :=
  match phase d with
  | Idle => (0x40, d)
  | Busy wait => if 0 <? wait then (0x80, set_phase (Busy (wait - 1)) d) else (0x40, set_phase Idle d)
  | Sending lba more wait i => if 0 <? wait then (0x80, set_phase (Sending lba more (wait - 1) i) d) else (0x48, d)
  | Taking lba more wait ws => if 0 <? wait then (0x80, set_phase (Taking lba more (wait - 1) ws) d) else (0x48, d)
  end.

Definition sim_data_in (d : Drive) : Z * Drive :=
  match phase d with
  | Sending lba more _ i =>
      (word_of (disk d lba) i,
        set_phase (if i <? 255 then Sending lba more 0 (i + 1) else if more =? 1 then Idle else Sending (lba + 1) (more - 1) 1 0) d)
  | _ => (0, d)
  end.

Definition sim_data_out (v : Z) (d : Drive) : Drive :=
  match phase d with
  | Taking lba more _ ws =>
      if len ws <? 255 then set_phase (Taking lba more 0 (ws ++ [v])) d
      else set_phase (if more =? 1 then Busy 1 else Taking (lba + 1) (more - 1) 1 [])
             (set_sector lba (bytes_of_words (ws ++ [v])) d)
  | _ => d
  end.

Definition sim_ports_with : PortIO Drive := {|
  inb p d := if p =? 0x1F7 then sim_status d else (0, d);
  inw p d := if p =? 0x1F0 then sim_data_in d else (0, d);
  inl _ d := (0, d);
  outb p v d :=
    if p =? 0x1F7 then sim_start v d
    else if (0x1F2 <=? p) && (p <=? 0x1F6) then set_regs (set_reg (p - 0x1F0) v (regs d)) d else d;
  outw p v d := if p =? 0x1F0 then sim_data_out v d else d;
  outl _ _ d := d;
|}.

Definition sim_drive_with size : @AtaDrive Drive sim_ports_with (hda size).
Proof.
  refine (@Build_AtaDrive _ sim_ports_with _ (λ w, w) _ _ _ _ _ _ _ _ _); change (channel_base (channel (hda size))) with 0x1F0;
    cbn [outb inb inw outw sim_ports_with].
  - intros w r v Hr. rewrite (proj2 (Z.eqb_neq _ _)), (proj2 (Z.leb_le _ _)), (proj2 (Z.leb_le _ _)) by lia. cbn [andb].
    by replace (0x1F0 + r - 0x1F0) with r by lia.
  - intros w ext lba n Hp (_ & Ha) _. exists 1. split; [apply in_time_1|]. unfold sim_start. cbn [Z.eqb Z.add Pos.add Pos.eqb Pos.succ]. rewrite Hp.
    destruct ext; cbn; destruct Ha as [Ha Hb]; [destruct Hb as [-> ->]|destruct Hb as [-> _]; rewrite Ha]; done.
  - intros w ext lba n Hp (_ & Ha) _. exists 1. split; [apply in_time_1|]. unfold sim_start. cbn [Z.eqb Z.add Pos.add Pos.eqb Pos.succ]. rewrite Hp.
    destruct ext; cbn; destruct Ha as [Ha Hb]; [destruct Hb as [-> ->]|destruct Hb as [-> _]; rewrite Ha]; done.
  - intros w Hp. exists 1. split; [apply in_time_1|]. unfold sim_start. cbn. by rewrite Hp.
  - intros w wait Hp. cbn. unfold sim_status. rewrite Hp. by destruct (0 <? wait).
  - intros w lba more wait i Hp. cbn. unfold sim_status. rewrite Hp. by destruct (0 <? wait).
  - intros w lba more wait ws Hp. cbn. unfold sim_status. rewrite Hp. by destruct (0 <? wait).
  - intros w lba more i Hp Hi. unfold sim_data_in. cbn. rewrite Hp. split; [done|]. exists 1. split; [apply in_time_1|done].
  - intros w lba more ws v Hp Hl. exists 1. split; [apply in_time_1|]. unfold sim_data_out. cbn. by rewrite Hp.
Defined.

End Simulated.

(** A drive that goes on with its work when it gets a command while it is busy. *)
#[export] Instance sim_ports : PortIO Drive := sim_ports_with (λ d, d).
#[export] Instance sim_drive size : AtaDrive Drive (hda size) := sim_drive_with (λ d, d) size.

(** A drive that drops its work then: the sector that the task file names is lost. *)
Definition drops (d : Drive) : Drive := set_phase Idle (set_sector (lba28_of (regs d)) (zeros 512) d).
