(* ===== verification/AtaSpec.v ===== *)
(** * The ATA driver moves the sectors it is asked for

    On a drive that follows the protocol of [AtaDrive]. *)

From S2P Require Import Prelude Bytes Ports Ata AtaDrive.

Lemma land_0xFF z : Z.land z 0xFF = z mod 2 ^ 8.
Proof. change 0xFF with (Z.ones 8). by rewrite Z.land_ones. Qed.

Lemma land_0x0F z : Z.land z 0x0F = z mod 2 ^ 4.
Proof. change 0x0F with (Z.ones 4). by rewrite Z.land_ones. Qed.

(** The device register: the drive in the high half, four bits of the address in
    the low one. *)
Lemma device_register sel v : sel = 0xE0 ∨ sel = 0xF0 → 0 ≤ v < 16 →
  Z.land (Z.lor sel v) 0xF0 = sel ∧ Z.land (Z.lor sel v) 0x0F = v.
Proof.
  intros Hs Hv. assert (Forall (λ v, Z.land (Z.lor sel v) 0xF0 = sel ∧ Z.land (Z.lor sel v) 0x0F = v) (seqZ 0 16)) as H.
  { destruct Hs as [-> | ->]; apply (bool_decide_unpack _); vm_compute; exact I. }
  rewrite Forall_forall in H. apply H, elem_of_seqZ. lia.
Qed.

(** ** Words and bytes *)

Lemma word_bytes bs i b0 b1 : is_bytes bs → 0 ≤ i → bs !! Z.to_nat (2 * i) = Some b0 → bs !! Z.to_nat (2 * i + 1) = Some b1 →
  Z.land (word_of bs i) 0xFF = b0 ∧ Z.land (Z.shiftr (word_of bs i) 8) 0xFF = b1.
Proof.
  intros Hbs Hi H0 H1. unfold word_of. rewrite H0, H1. cbn [default from_option id].
  apply (Forall_lookup_1 _ _ _ _ Hbs) in H0, H1. unfold is_byte in *. rewrite !land_0xFF, Z.shiftr_div_pow2 by lia. split; zdiv.
Qed.

(** A word taken from the port goes to its two places. *)
Lemma store_word off bs buf i :
  0 ≤ off → off + 512 ≤ len buf → len bs = 512 → is_bytes bs → 0 ≤ i < 256 →
  <[Z.to_nat (off + i * 2 + 1) := Z.land (Z.shiftr (word_of bs i) 8) 0xFF]>
    (<[Z.to_nat (off + i * 2) := Z.land (word_of bs i) 0xFF]> (splice off (take (Z.to_nat (2 * i)) bs) buf)) =
  splice off (take (Z.to_nat (2 * (i + 1))) bs) buf.
Proof.
  intros Hoff Hbuf Hl Hbs Hi. unfold len in *.
  destruct (lookup_lt_is_Some_2 bs (Z.to_nat (2 * i))) as [b0 H0]; [lia|].
  destruct (lookup_lt_is_Some_2 bs (Z.to_nat (2 * i + 1))) as [b1 H1]; [lia|].
  destruct (word_bytes bs i b0 b1 Hbs (proj1 Hi) H0 H1) as [-> ->].
  assert (∀ n, (n ≤ 512)%nat → length (take n bs) = n) as Htake by (intros; rewrite length_take; lia).
  assert (∀ n, (n ≤ 512)%nat → length (splice off (take n bs) buf) = length buf) as Hlen.
  { intros n Hn. pose proof (len_splice off (take n bs) buf Hoff) as G. unfold len in G. rewrite Htake in G by lia. lia. }
  apply list_eq. intros j. rewrite (lookup_splice off (take (Z.to_nat (2 * (i + 1))) bs)) by (unfold len; rewrite ?Htake; lia).
  rewrite Htake by lia. destruct (decide (j = Z.to_nat (off + i * 2 + 1))) as [->|Hj1].
  - rewrite list_lookup_insert_eq by (rewrite length_insert, Hlen; lia). rewrite decide_True, lookup_take_lt by lia.
    rewrite <-H1. f_equal. lia.
  - rewrite list_lookup_insert_ne by done. destruct (decide (j = Z.to_nat (off + i * 2))) as [->|Hj0].
    + rewrite list_lookup_insert_eq by (rewrite Hlen; lia). rewrite decide_True, lookup_take_lt by lia. rewrite <-H0. f_equal. lia.
    + rewrite list_lookup_insert_ne by done. rewrite lookup_splice by (unfold len; rewrite ?Htake; lia). rewrite Htake by lia.
      repeat case_decide; try lia; [|done]. by rewrite !lookup_take_lt by lia.
Qed.

(** The next word of a sector to write. *)
Lemma slice_word off buf i : is_bytes buf → 0 ≤ off → off + 512 ≤ len buf → 0 ≤ i < 256 →
  let w := Z.lor (default 0 (buf !! Z.to_nat (off + i * 2))) (Z.shiftl (default 0 (buf !! Z.to_nat (off + i * 2 + 1))) 8) in
  slice off (2 * (i + 1)) buf = slice off (2 * i) buf ++ [w mod 256; w / 256].
Proof.
  intros Hbs Hoff Hbuf Hi w. unfold len in *.
  destruct (lookup_lt_is_Some_2 buf (Z.to_nat (off + i * 2))) as [b0 H0]; [lia|].
  destruct (lookup_lt_is_Some_2 buf (Z.to_nat (off + i * 2 + 1))) as [b1 H1]; [lia|].
  unfold w. rewrite H0, H1. cbn [default from_option id].
  pose proof (Forall_lookup_1 _ _ _ _ Hbs H0) as B0. pose proof (Forall_lookup_1 _ _ _ _ Hbs H1) as B1. unfold is_byte in *.
  rewrite lor_shiftl by lia. replace ((b0 + b1 * 2 ^ 8) mod 256) with b0 by zdiv. replace ((b0 + b1 * 2 ^ 8) / 256) with b1 by zdiv.
  unfold slice. replace (Z.to_nat (2 * (i + 1))) with (S (S (Z.to_nat (2 * i)))) by lia.
  rewrite (take_S_r _ _ b1), (take_S_r _ _ b0), <-app_assoc; [done|..]; rewrite lookup_drop;
    [rewrite <-H0|rewrite <-H1]; f_equal; lia.
Qed.

(** ** Sectors *)

Definition disk_ok (f : Z → list Z) : Prop := ∀ s, len (f s) = 512 ∧ is_bytes (f s).

Definition sectors_of (f : Z → list Z) (lba n : Z) : list Z := concat (map (λ i, f (lba + i)) (seqZ 0 n)).

Lemma sectors_of_snoc f lba n : 0 ≤ n → sectors_of f lba (n + 1) = sectors_of f lba n ++ f (lba + n).
Proof.
  intros Hn. unfold sectors_of. replace n with (Z.of_nat (Z.to_nat n)) by lia. generalize (Z.to_nat n) as k. intros k.
  replace (Z.of_nat k + 1) with (Z.of_nat (S k)) by lia. rewrite seqZ_S, map_app, concat_app. cbn [map concat]. by rewrite app_nil_r.
Qed.

Lemma len_sectors_of f lba n : disk_ok f → 0 ≤ n → len (sectors_of f lba n) = n * 512.
Proof.
  intros Hf Hn. replace n with (Z.of_nat (Z.to_nat n)) by lia. generalize (Z.to_nat n) as k. clear n Hn.
  induction k as [|k IH]; [done|]. replace (Z.of_nat (S k)) with (Z.of_nat k + 1) by lia.
  rewrite sectors_of_snoc, len_app, IH by lia. rewrite (proj1 (Hf _)). lia.
Qed.

(** The sectors with the first [k] of a buffer stored from [lba]. *)
Definition stored (f : Z → list Z) (lba k : Z) (buf : list Z) : Z → list Z :=
  λ s, if (lba <=? s) && (s <? lba + k) then slice ((s - lba) * 512) 512 buf else f s.

Lemma splice_extend {A} (a c l : list A) : len a + len c ≤ len l → splice (len a) c (splice 0 a l) = splice 0 (a ++ c) l.
Proof.
  intros Hl. unfold splice, len in *. rewrite Nat2Z.id. change (Z.to_nat 0) with 0%nat. rewrite !take_0. cbn [app Nat.add].
  rewrite take_app_length, drop_app_ge, drop_drop, length_app, <-app_assoc by lia. do 3 f_equal. lia.
Qed.

Section Driver.

Context {W : Type} `{PortIO W} (d : AtaDevice) `{!AtaDrive W d}.

Let base := channel_base (channel d).

(** The phase, the sectors and the size of the drive. *)
Definition at_phase (p : Phase) (f : Z → list Z) (size : Z) (w : W) : Prop :=
  phase (view w) = p ∧ (∀ s, disk (view w) s = f s) ∧ dsize (view w) = size.

(** ** Starting a transfer *)

Lemma out8_run {B} p v (f : unit → M W B) w : (out8 p v ≫= f) w = f tt (outb p v w).
Proof. apply M_modify_run. Qed.

(** The writes to the task file leave everything else. *)
Definition same_but_regs (w w' : W) (f : Regs) : Prop := view w' = set_regs f (view w).

Lemma same_regs_out w w' f r v : same_but_regs w w' f → 2 ≤ r ≤ 6 → same_but_regs w (outb (base + r) v w') (set_reg r v f).
Proof. intros Hs Hr. unfold same_but_regs in *. unfold base. rewrite ata_register by done. by rewrite Hs. Qed.

Lemma same_regs_refl w : same_but_regs w w (regs (view w)).
Proof. unfold same_but_regs. by destruct (view w). Qed.

(** The transfer is within the reach of the form of address the driver takes. *)
Definition reachable (lba n : Z) : Prop := lba + n ≤ 2 ^ 28 ∨ (lba48 d = true ∧ 0x0FFFFFFF < lba).

Lemma start_transfer_registers lba n cmd cmd_ext w :
  0 ≤ lba < 2 ^ 48 → 0 < n ≤ 255 → reachable lba n →
  ∃ ext f w', start_transfer d lba n cmd cmd_ext w = (Ok tt, outb (base + 7) (if ext : bool then cmd_ext else cmd) w') ∧
    same_but_regs w w' f ∧ addresses d ext f lba n.
Proof.
  intros Hlba Hn Hreach. unfold start_transfer. fold base.
  destruct (lba48 d && (0x0FFFFFFF <? lba)) eqn:E.
  - apply andb_true_iff in E as [Hext Hbig%Z.ltb_lt].
    exists true. eexists _, _. split; [rewrite !out8_run; unfold out8; reflexivity|]. split.
    { do 9 (eapply same_regs_out; [|lia]). apply same_regs_refl. }
    destruct (regs (view w)) as [dev count lo mid hi]. split; [cbn; by case_match|]. split; [done|].
    unfold lba48_of, count48_of. cbn. rewrite !land_0xFF, !Z.shiftr_div_pow2 by lia.
    rewrite (proj2 (Z.eqb_neq _ _)) by lia. split; [zdiv|lia].
  - assert (lba + n ≤ 2 ^ 28) as Hsmall.
    { destruct Hreach as [|[Hext Hbig]]; [done|]. rewrite Hext in E. cbn in E. apply Z.ltb_ge in E. lia. }
    exists false. eexists _, _. split; [rewrite !out8_run; unfold out8; reflexivity|]. split.
    { do 5 (eapply same_regs_out; [|lia]). apply same_regs_refl. }
    destruct (regs (view w)) as [dev count lo mid hi].
    assert (0 ≤ Z.land (Z.shiftr lba 24) 0x0F < 16) as Hv by (rewrite land_0x0F; apply Z.mod_pos_bound; lia).
    destruct (device_register (if drive d =? 0 then 0xE0 else 0xF0) (Z.land (Z.shiftr lba 24) 0x0F)) as [H1 H2];
      [case_match; lia|done|].
    split; [cbn; done|]. unfold lba28_of, count28_of. cbn -[Z.land Z.lor Z.shiftr]. rewrite H2, land_0x0F, !land_0xFF, !Z.shiftr_div_pow2 by lia.
    rewrite (proj2 (Z.eqb_neq n 0)) by lia. split; [zdiv|done].
Qed.

(** ** Waiting *)

(** A phase that gives its data after [k] reads of the status. *)
Definition waits (p : Z → Phase) : Prop := ∀ w k, phase (view w) = p k →
  let '(status, w') := inb (base + 7) w in
  if 0 <? k then not_yet status ∧ view w' = set_phase (p (k - 1)) (view w) else data_ready status ∧ view w' = view w.

Lemma at_phase_set p q f size w w' : view w' = set_phase q (view w) → at_phase p f size w → at_phase q f size w'.
Proof. intros Hv (_ & Hd & Hs). unfold at_phase. by rewrite Hv. Qed.

Lemma at_phase_regs p f size w w' r : same_but_regs w w' r → at_phase p f size w → at_phase p f size w'.
Proof. intros Hv (Hp & Hd & Hs). unfold at_phase, same_but_regs in *. by rewrite Hv. Qed.

Lemma poll_ready p error f size : waits p → ∀ n k i w, 0 ≤ k < Z.of_nat n → at_phase (p k) f size w →
  ∃ w', iter_ret n i (λ _ w, let '(status, w) := inb (base + 7) w in (ready error status, w)) w = (Some (Ok tt), w') ∧
    at_phase (p 0) f size w'.
Proof.
  intros Hp. induction n as [|n IH]; intros k i w Hk Hw; [lia|]. cbn [iter_ret].
  pose proof (Hp w k (proj1 Hw)) as Hin. destruct (inb (base + 7) w) as [status w']. unfold ready.
  destruct (Z.ltb_spec 0 k); destruct Hin as [[-> ->] Hv].
  - destruct (IH (k - 1) (i + 1) w' ltac:(lia)) as (w2 & H2 & Hw2); [by eapply at_phase_set|]. by exists w2.
  - exists w'. split; [done|]. replace 0 with k by lia. unfold at_phase. by rewrite Hv.
Qed.

Lemma wait_drq_ok p error timeout k f size w :
  waits p → in_time k → at_phase (p k) f size w →
  ∃ w', wait_drq base error timeout w = (Ok tt, w') ∧ at_phase (p 0) f size w'.
Proof.
  intros Hp Hk Hw. destruct (poll_ready p error f size Hp (Z.to_nat 100000) k 0 w) as (w' & E & Hw'); [unfold in_time in Hk; lia|done|].
  exists w'. split; [|done]. unfold wait_drq, poll, for_ret, mbind, M_bind.
  change (100000 - 0) with 100000. by rewrite E.
Qed.

Lemma sending_waits lba more i : waits (λ k, Sending lba more k i).
Proof. intros w k Hw. by apply ata_sending. Qed.

Lemma taking_waits lba more ws : waits (λ k, Taking lba more k ws).
Proof. intros w k Hw. by apply ata_taking. Qed.

(** ** One sector *)

(** After a sector: the next one, or the phase [fin] at the end. *)
Definition more_phase (fin next : Z → Phase) (more : Z) (f : Z → list Z) (size : Z) (w : W) : Prop :=
  ∃ wait, in_time wait ∧ at_phase (if more =? 1 then fin wait else next wait) f size w.

Lemma read_sector_ok lba more f size off buf w :
  at_phase (Sending lba more 0 0) f size w → len (f lba) = 512 → is_bytes (f lba) → 0 ≤ off → off + 512 ≤ len buf →
  ∃ w', for_range 0 256 (read_word base off) (buf, w) = (splice off (f lba) buf, w') ∧
    more_phase (λ _, Idle) (λ wait, Sending (lba + 1) (more - 1) wait 0) more f size w'.
Proof.
  intros Hw Hl Hb Hoff Hbuf.
  pose (P := λ (i : Z) (s : list Z * W), s.1 = splice off (take (Z.to_nat (2 * i)) (f lba)) buf ∧
    if i <? 256 then at_phase (Sending lba more 0 i) f size s.2
    else more_phase (λ _, Idle) (λ wait, Sending (lba + 1) (more - 1) wait 0) more f size s.2).
  assert (P 256 (for_range 0 256 (read_word base off) (buf, w))) as [H1 H2].
  { apply (for_range_ind P); [lia| |].
    - split; [|done]. cbn [fst]. change (take (Z.to_nat (2 * 0)) (f lba)) with (@nil Z). unfold splice. cbn [length app].
      by rewrite Nat.add_0_r, take_drop.
    - intros i [buf1 w1] Hi [Hb1 Hw1]. cbn [fst snd] in Hb1, Hw1. subst buf1. rewrite (proj2 (Z.ltb_lt i 256)) in Hw1 by lia.
      unfold read_word. cbn [fst snd]. pose proof (ata_data_in w1 lba more i (proj1 Hw1) Hi) as Hin. fold base in Hin.
      destruct (inw base w1) as [word w2]. destruct Hin as (-> & wait & Hwait & Hv). split; cbn [fst snd].
      + rewrite (proj1 (proj2 Hw1)). by apply store_word.
      + destruct (Z.ltb_spec (i + 1) 256).
        * rewrite (proj2 (Z.ltb_lt i 255)) in Hv by lia. by eapply at_phase_set.
        * rewrite (proj2 (Z.ltb_ge i 255)) in Hv by lia. exists wait. split; [done|]. by eapply at_phase_set. }
  destruct (for_range 0 256 (read_word base off) (buf, w)) as [buf' w']. exists w'. cbn in H1, H2. split; [|done].
  rewrite H1, take_ge; [done|]. unfold len in Hl. lia.
Qed.

Lemma write_sector_ok lba more f size off buf w :
  at_phase (Taking lba more 0 []) f size w → is_bytes buf → 0 ≤ off → off + 512 ≤ len buf →
  ∃ w', for_range 0 256 (write_word base buf off) w = w' ∧
    more_phase Busy (λ wait, Taking (lba + 1) (more - 1) wait []) more (λ s, if s =? lba then slice off 512 buf else f s) size w'.
Proof.
  intros Hw Hb Hoff Hbuf. eexists. split; [done|].
  pose (P := λ (i : Z) (w : W), if i <? 256
    then ∃ ws, len ws = i ∧ bytes_of_words ws = slice off (2 * i) buf ∧ at_phase (Taking lba more 0 ws) f size w
    else more_phase Busy (λ wait, Taking (lba + 1) (more - 1) wait []) more (λ s, if s =? lba then slice off 512 buf else f s) size w).
  change (P 256 (for_range 0 256 (write_word base buf off) w)). apply (for_range_ind P); [lia|by exists []|].
  intros i w1 Hi. unfold P. rewrite (proj2 (Z.ltb_lt i 256)) by lia. intros (ws & Hl & Hws & Hw1). unfold write_word.
  destruct (ata_data_out w1 lba more ws
    (Z.lor (default 0 (buf !! Z.to_nat (off + i * 2))) (Z.shiftl (default 0 (buf !! Z.to_nat (off + i * 2 + 1))) 8))
    (proj1 Hw1) ltac:(lia)) as (wait & Hwait & Hv). fold base in Hv. set (v := Z.lor _ _) in *.
  assert (bytes_of_words (ws ++ [v]) = slice off (2 * (i + 1)) buf) as Hws'.
  { unfold bytes_of_words in *. rewrite bind_app, Hws. symmetry. by apply slice_word. }
  destruct (Z.ltb_spec (i + 1) 256).
  - rewrite (proj2 (Z.ltb_lt (len ws) 255)) in Hv by lia. exists (ws ++ [v]).
    split; [rewrite len_app; change (len [v]) with 1; lia|]. split; [done|]. by eapply at_phase_set.
  - rewrite (proj2 (Z.ltb_ge (len ws) 255)) in Hv by lia. replace (2 * (i + 1)) with 512 in Hws' by lia. rewrite Hws' in Hv.
    destruct Hw1 as (_ & Hd & Hs). exists wait. split; [done|]. unfold at_phase. rewrite Hv. split; [done|]. split; [|done].
    intros s. cbn. by rewrite Hd.
Qed.

(** ** The transfers *)

(** The place of a transfer after [k] of [n] sectors. *)
Definition midway (fin : Z → Phase) (p : Z → Z → Z → Phase) (lba n k : Z) (f : Z → list Z) (size : Z) (w : W) : Prop :=
  ∃ wait, in_time wait ∧ at_phase (if k <? n then p (lba + k) (n - k) wait else fin wait) f size w.

Lemma more_midway fin p lba n k f size w : k < n →
  more_phase fin (λ wait, p (lba + k + 1) (n - k - 1) wait) (n - k) f size w → midway fin p lba n (k + 1) f size w.
Proof.
  intros Hk. unfold more_phase, midway. destruct (Z.eqb_spec (n - k) 1), (Z.ltb_spec (k + 1) n); try lia; [done|].
  intros (wait & Hw & Hp). exists wait. split; [done|]. by replace (lba + (k + 1)) with (lba + k + 1) by lia;
    replace (n - (k + 1)) with (n - k - 1) by lia.
Qed.

Lemma on_ports_run {A B} (m : M W A) (g : A → M (list Z * W) B) buf w a w' :
  m w = (Ok a, w') → (on_ports m ≫= g) (buf, w) = g a (buf, w').
Proof. intros Hm. apply M_bind_run. unfold on_ports. cbn [fst snd]. by rewrite Hm. Qed.

Lemma read_sectors_ok lba n f size buf w :
  disk_ok f → at_phase Idle f size w → 0 ≤ lba → 0 < n ≤ 255 → lba + n ≤ size ≤ 2 ^ 48 → reachable lba n →
  n * 512 ≤ len buf →
  ∃ w', ata_read d lba n (buf, w) = (Ok tt, (splice 0 (sectors_of f lba n) buf, w')) ∧ at_phase Idle f size w'.
Proof.
  intros Hf Hw Hlba Hn Hsize Hreach Hbuf. unfold ata_read. rewrite M_guard_run by (apply Z.leb_le; lia). unfold read_sectors.
  rewrite M_get_run, M_guard_run by (apply Z.leb_le; cbn; lia). fold base.
  destruct (start_transfer_registers lba n ATA_CMD_READ_PIO ATA_CMD_READ_PIO_EXT w ltac:(lia) Hn Hreach)
    as (ext & r & w1 & E1 & Hs1 & Ha).
  rewrite (on_ports_run _ _ _ _ _ _ E1).
  destruct (ata_start_read w1 ext lba n) as (wait & Hwait & Hv);
    [rewrite Hs1; apply Hw|by rewrite Hs1|rewrite Hs1; cbn; rewrite (proj2 (proj2 Hw)); lia|]. fold base in Hv.
  change (if ext then 0x24 else 0x20) with (if ext then ATA_CMD_READ_PIO_EXT else ATA_CMD_READ_PIO) in Hv.
  destruct (for_m_ok (λ k s, s.1 = splice 0 (sectors_of f lba k) buf ∧ midway (λ _, Idle) (λ l m wait, Sending l m wait 0) lba n k f size s.2)
    (λ sector, on_ports (wait_drq base "Read error" "Read timeout");; m_modify (for_range 0 256 (read_word base (sector * 512))))
    0 n (buf, outb (base + 7) (if ext then ATA_CMD_READ_PIO_EXT else ATA_CMD_READ_PIO) w1)) as ([buf' w'] & -> & Hb & Hm).
  - lia.
  - split; [cbn; unfold splice; by rewrite Nat.add_0_r, take_drop|]. unfold midway. rewrite (proj2 (Z.ltb_lt 0 n)) by lia.
    exists wait. split; [done|]. cbn [snd]. rewrite Z.add_0_r, Z.sub_0_r.
    eapply at_phase_set; [exact Hv|]. by eapply at_phase_regs.
  - intros k [buf1 w2] Hk [Hb1 Hm1]. cbn [fst snd] in Hb1, Hm1. subst buf1. unfold midway in Hm1.
    rewrite (proj2 (Z.ltb_lt k n)) in Hm1 by lia. destruct Hm1 as (wait2 & Hw2 & Hp2).
    destruct (wait_drq_ok _ "Read error" "Read timeout" wait2 f size w2 (sending_waits (lba + k) (n - k) 0) Hw2 Hp2) as (w3 & E3 & Hp3).
    rewrite (on_ports_run _ _ _ _ _ _ E3).
    pose proof (len_sectors_of f lba k Hf (proj1 Hk)) as Hlk. destruct (Hf (lba + k)) as [Hl Hb].
    destruct (read_sector_ok (lba + k) (n - k) f size (k * 512) (splice 0 (sectors_of f lba k) buf) w3) as (w4 & E4 & Hp4); try done; try lia.
    { rewrite len_splice by lia. lia. }
    eexists. split; [unfold m_modify; by rewrite E4|]. split; [|by apply more_midway; [lia|]]. cbn [fst].
    rewrite sectors_of_snoc, <-Hlk by lia. apply splice_extend. lia.
  - exists w'. cbn in Hb. subst buf'. split; [done|]. unfold midway in Hm. cbn [snd] in Hm. rewrite Z.ltb_irrefl in Hm.
    by destruct Hm as (_ & _ & Hm).
Qed.

Lemma at_phase_ext p f g size w : (∀ s, f s = g s) → at_phase p f size w → at_phase p g size w.
Proof. intros Hfg (Hp & Hd & Hs). split; [done|]. split; [|done]. intros s. by rewrite Hd. Qed.

Lemma poll_idle f size : ∀ n k i w, 0 ≤ k < Z.of_nat n → at_phase (Busy k) f size w →
  ∃ w', iter_ret n i (λ _ w, let '(status, w) := inb (base + 7) w in (not_busy status, w)) w = (Some tt, w') ∧
    at_phase Idle f size w'.
Proof.
  induction n as [|n IH]; intros k i w Hk Hw; [lia|]. cbn [iter_ret].
  pose proof (ata_busy w k (proj1 Hw)) as Hin. fold base in Hin. destruct (inb (base + 7) w) as [status w']. unfold not_busy.
  destruct (Z.ltb_spec 0 k); destruct Hin as [-> Hv].
  - destruct (IH (k - 1) (i + 1) w' ltac:(lia)) as (w2 & H2 & Hw2); [by eapply at_phase_set|]. by exists w2.
  - exists w'. split; [done|]. by eapply at_phase_set.
Qed.

(** The drive goes on with its work when it is told to flush while it is busy. *)
Definition flushes_busy : Prop := ∀ w wait, phase (view w) = Busy wait → in_time wait →
  ∃ wait', in_time wait' ∧ view (outb (base + 7) ATA_CMD_CACHE_FLUSH w) = set_phase (Busy wait') (view w).

(** The driver does not ask what came of the flush. *)
Lemma flush_returns w : ∃ w', flush d w = (Ok tt, w').
Proof.
  unfold flush. rewrite out8_run. unfold poll, for_ret, mbind, M_bind. by destruct (iter_ret _ _ _ _) as [r w'] eqn:E; exists w'.
Qed.

Lemma flush_ok f size w wait0 : flushes_busy → in_time wait0 → at_phase (Busy wait0) f size w → ∃ w', flush d w = (Ok tt, w') ∧ at_phase Idle f size w'.
Proof.
  intros Hbusy Hw0 Hw. unfold flush. fold base. rewrite out8_run. destruct (Hbusy w _ (proj1 Hw) Hw0) as (wait & Hwait & Hv).
  destruct (poll_idle f size (Z.to_nat 100000) wait 0 (outb (base + 7) ATA_CMD_CACHE_FLUSH w)) as (w' & E & Hw');
    [unfold in_time in Hwait; lia|by eapply at_phase_set|].
  exists w'. split; [|done]. unfold poll, for_ret, mbind, M_bind. change (100000 - 0) with 100000. by rewrite E.
Qed.

Lemma write_sectors_ok lba n f size buf w :
  at_phase Idle f size w → is_bytes buf → 0 ≤ lba → 0 < n ≤ 255 → lba + n ≤ size ≤ 2 ^ 48 → reachable lba n →
  n * 512 ≤ len buf →
  ∃ w1 wait, ata_write d lba n buf w = flush d w1 ∧ in_time wait ∧ at_phase (Busy wait) (stored f lba n buf) size w1.
Proof.
  intros Hw Hb Hlba Hn Hsize Hreach Hbuf. unfold ata_write. rewrite M_guard_run by (apply Z.leb_le; lia). unfold write_sectors.
  rewrite M_guard_run by (apply Z.leb_le; cbn; lia). fold base.
  destruct (start_transfer_registers lba n ATA_CMD_WRITE_PIO ATA_CMD_WRITE_PIO_EXT w ltac:(lia) Hn Hreach)
    as (ext & r & w1 & E1 & Hs1 & Ha).
  rewrite (M_bind_run _ _ _ _ _ E1).
  destruct (ata_start_write w1 ext lba n) as (wait & Hwait & Hv);
    [rewrite Hs1; apply Hw|by rewrite Hs1|rewrite Hs1; cbn; rewrite (proj2 (proj2 Hw)); lia|]. fold base in Hv.
  change (if ext then 0x34 else 0x30) with (if ext then ATA_CMD_WRITE_PIO_EXT else ATA_CMD_WRITE_PIO) in Hv.
  destruct (for_m_ok (λ k w, midway Busy (λ l m wait, Taking l m wait []) lba n k (stored f lba k buf) size w)
    (λ sector, wait_drq base "Write error" "Write timeout";; m_modify (for_range 0 256 (write_word base buf (sector * 512))))
    0 n (outb (base + 7) (if ext then ATA_CMD_WRITE_PIO_EXT else ATA_CMD_WRITE_PIO) w1)) as (w' & E & Hm).
  - lia.
  - unfold midway. rewrite (proj2 (Z.ltb_lt 0 n)) by lia. exists wait. split; [done|]. rewrite Z.add_0_r, Z.sub_0_r.
    eapply at_phase_set; [exact Hv|]. eapply at_phase_regs; [done|]. apply (at_phase_ext _ f); [|done].
    intros s. unfold stored. destruct (Z.leb_spec lba s), (Z.ltb_spec s (lba + 0)); try done; lia.
  - intros k w2 Hk Hm1. unfold midway in Hm1. rewrite (proj2 (Z.ltb_lt k n)) in Hm1 by lia. destruct Hm1 as (wait2 & Hw2 & Hp2).
    destruct (wait_drq_ok _ "Write error" "Write timeout" wait2 _ size w2 (taking_waits (lba + k) (n - k) []) Hw2 Hp2) as (w3 & E3 & Hp3).
    rewrite (M_bind_run _ _ _ _ _ E3).
    destruct (write_sector_ok (lba + k) (n - k) _ size (k * 512) buf w3 Hp3 Hb) as (w4 & E4 & Hp4); [lia..|].
    eexists. split; [unfold m_modify; by rewrite E4|]. apply more_midway; [lia|].
    assert (∀ s, (if s =? lba + k then slice (k * 512) 512 buf else stored f lba k buf s) = stored f lba (k + 1) buf s) as Hst.
    { intros s. unfold stored.
      destruct (Z.eqb_spec s (lba + k)), (Z.leb_spec lba s), (Z.ltb_spec s (lba + k)), (Z.ltb_spec s (lba + (k + 1)));
        cbn [andb]; try done; try lia. f_equal. lia. }
    destruct Hp4 as (wait4 & Hw4 & Hp4). exists wait4. split; [done|]. exact (at_phase_ext _ _ _ _ _ Hst Hp4).
  - rewrite (M_bind_run _ _ _ _ _ E). unfold midway in Hm. rewrite Z.ltb_irrefl in Hm.
    destruct Hm as (wait' & Hw' & Hm). by exists w', wait'.
Qed.

End Driver.

Lemma sectors_of_stored f lba buf n k : 0 ≤ k ≤ n → n * 512 ≤ len buf →
  sectors_of (stored f lba n buf) lba k = slice 0 (k * 512) buf.
Proof.
  intros Hk Hn. destruct Hk as [H0 Hk]. revert Hk. replace k with (Z.of_nat (Z.to_nat k)) by lia. generalize (Z.to_nat k) as j.
  clear k H0. induction j as [|j IH]; intros Hj; [done|]. replace (Z.of_nat (S j)) with (Z.of_nat j + 1) by lia.
  rewrite sectors_of_snoc, IH by lia. unfold stored. rewrite (proj2 (Z.leb_le _ _)), (proj2 (Z.ltb_lt _ _)) by lia. cbn [andb].
  replace (lba + Z.of_nat j - lba) with (Z.of_nat j) by lia. unfold slice. change (Z.to_nat 0) with 0%nat. rewrite drop_0.
  replace (Z.to_nat ((Z.of_nat j + 1) * 512)) with (Z.to_nat (Z.of_nat j * 512) + 512)%nat by lia.
  change (Z.to_nat 512) with 512%nat. apply take_take_drop.
Qed.

Lemma stored_ok f lba n buf : disk_ok f → is_bytes buf → 0 ≤ lba → n * 512 ≤ len buf → disk_ok (stored f lba n buf).
Proof.
  intros Hf Hb Hlba Hn s. unfold stored. destruct (Z.leb_spec lba s), (Z.ltb_spec s (lba + n)); cbn [andb]; try apply Hf.
  split; [apply len_slice; lia|by apply is_bytes_slice].
Qed.

(** C26: what the ATA driver does as a block device.  On a drive that follows the
    protocol, idle, with sectors of 512 bytes: a read of at most 255 sectors that the
    form of address reaches (it ends below sector 2^28, or starts at or above it on a
    drive with 48-bit addresses) returns them, changes nothing and leaves the drive
    idle.  A write of such sectors hands the buffer to the drive for those sectors and
    for no other, and then, while the drive is still busy with the last one, sends it
    the flush command and returns success whatever comes of it; if the drive goes on
    with its work when it gets the command (the protocol does not say so), it is idle
    when the write returns and holds the buffer in those sectors.  A request that is
    too long, or whose buffer is too short, is refused before anything is sent to the
    drive. *)
Theorem ata_transfers {W} `{PortIO W} (d : AtaDevice) `{!AtaDrive W d} lba n f size buf w :
  disk_ok f → at_phase d Idle f size w → 0 ≤ lba → 0 < n ≤ 255 → lba + n ≤ size ≤ 2 ^ 48 → reachable d lba n →
  is_bytes buf → len buf = n * 512 →
  (∃ w', ata_read d lba n (buf, w) = (Ok tt, (sectors_of f lba n, w')) ∧ at_phase d Idle f size w') ∧
  (∃ w1 w' f' wait, ata_write d lba n buf w = flush d w1 ∧ flush d w1 = (Ok tt, w') ∧
     in_time wait ∧ at_phase d (Busy wait) f' size w1 ∧
     disk_ok f' ∧ sectors_of f' lba n = buf ∧ (∀ s, ¬ lba ≤ s < lba + n → f' s = f s) ∧
     (flushes_busy d → at_phase d Idle f' size w')) ∧
  (∀ m b, 255 < m ∨ len b < m * 512 →
     (∃ e, ata_read d lba m (b, w) = (Err e, (b, w))) ∧ ∃ e, ata_write d lba m b w = (Err e, w)).
Proof.
  intros Hf Hw Hlba Hn Hsize Hreach Hb Hl. split; [|split].
  - destruct (read_sectors_ok d lba n f size buf w) as (w' & -> & Hw'); try done; [lia|]. exists w'. split; [|done].
    do 2 f_equal. pose proof (len_sectors_of f lba n Hf ltac:(lia)) as Hs. unfold splice, len in *. change (Z.to_nat 0) with 0%nat.
    by rewrite take_0, drop_ge, app_nil_r by lia.
  - destruct (write_sectors_ok d lba n f size buf w) as (w1 & wait & E & Hwait & Hw1); try done; [lia|].
    destruct (flush_returns d w1) as [w' Ew']. exists w1, w', (stored f lba n buf), wait. do 4 (split; [done|]).
    split; [by apply stored_ok; try done; lia|]. split; [|split].
    + rewrite (sectors_of_stored f lba buf n n) by lia. by apply slice_all.
    + intros s Hs. unfold stored. destruct (Z.leb_spec lba s), (Z.ltb_spec s (lba + n)); try done; lia.
    + intros Hbusy. destruct (flush_ok d _ size w1 wait Hbusy Hwait Hw1) as (w2 & E2 & Hw2). rewrite Ew' in E2. by injection E2 as <-.
  - intros m b Hm. unfold ata_read, ata_write, read_sectors, write_sectors, m_guard. destruct (Z.leb_spec m 255).
    + destruct Hm as [|Hm]; [lia|]. rewrite !M_ret_run, M_get_run. cbn [fst].
      rewrite (proj2 (Z.leb_gt (m * 512) (len b))) by lia. split; by eexists.
    + split; by eexists.
Qed.

Module AtaExample.

Definition disk0 : Z → list Z := λ _, zeros 512.
Definition drive0 : Drive := mkDrive (mkRegs 0 (0, 0) (0, 0) (0, 0) (0, 0)) Idle disk0 (2 ^ 30).
Definition buf0 : list Z := replicate 512 7.

Lemma disk0_ok : disk_ok disk0.
Proof. intros s. split; [done|]. apply is_bytes_zeros. Qed.

Lemma ata_transfers_witness :
  ∃ w' f', ata_write (hda (2 ^ 30)) (2 ^ 28) 1 buf0 drive0 = (Ok tt, w') ∧ sectors_of f' (2 ^ 28) 1 = buf0 ∧
    at_phase (hda (2 ^ 30)) Idle f' (2 ^ 30) w'.
Proof.
  assert (reachable (hda (2 ^ 30)) (2 ^ 28) 1) as Hr by (right; split; [reflexivity|lia]).
  assert (is_bytes buf0) as Hb by (apply is_bytes_replicate; unfold is_byte; lia).
  assert (flushes_busy (hda (2 ^ 30))) as Hbusy by (intros w wait Hw Ht; exists wait; split; [exact Ht|];
    change (phase w = Busy wait) in Hw; destruct w as [r ph f s]; cbn in Hw; subst ph; reflexivity).
  destruct (ata_transfers (hda (2 ^ 30)) (2 ^ 28) 1 disk0 (2 ^ 30) buf0 drive0 disk0_ok
    ltac:(split; [reflexivity|split; [reflexivity|reflexivity]]) ltac:(lia) ltac:(lia) ltac:(lia) Hr Hb eq_refl)
    as (_ & (w1 & w' & f' & wait & Hw & Hf & _ & _ & _ & Hs & _ & Hi) & _).
  exists w', f'. rewrite Hw. split; [exact Hf|]. split; [exact Hs|]. exact (Hi Hbusy).
Defined.

(** On a drive that drops its work when it gets a command while it is busy, which the
    protocol allows, a write succeeds and the sector is lost. *)
Lemma hasty_flush_loses_sector : let P := sim_ports_with drops in
  ∃ (_ : AtaDrive Drive (hda (2 ^ 30))) w',
    ata_write (hda (2 ^ 30)) 3 1 buf0 drive0 = (Ok tt, w') ∧ disk w' 3 = zeros 512.
Proof.
  exists (sim_drive_with drops (2 ^ 30)). set (r := ata_write _ _ _ _ _). exists r.2.
  split; [|vm_compute; reflexivity]. transitivity (r.1, r.2); [apply surjective_pairing|].
  replace r.1 with (Ok tt); [reflexivity|]. vm_compute. reflexivity.
Qed.

End AtaExample.
