(* ===== verification/Rtl8139.v ===== *)
(** * The RTL8139 driver: [drivers/network.rs], first half

    PCI discovery, initialisation, transmission and the receive ring, over the ports
    of [Ports] and the memory the card shares with the driver, the class [Dma]. *)

From S2P Require Import Prelude Bytes Physical Ports.

(** The memory behind a physical address, of the state of the devices. *)
Class Dma (W : Type) : Type := {
  dma_read : Z → W → Z;
  dma_write : Z → Z → W → W;
}.

Definition PCI_CONFIG_ADDRESS : Z := 0xCF8.
Definition PCI_CONFIG_DATA : Z := 0xCFC.
Definition RTL8139_VENDOR_ID : Z := 0x10EC.
Definition RTL8139_DEVICE_ID : Z := 0x8139.
Definition REG_IDR0 : Z := 0x00.
Definition REG_TSD0 : Z := 0x10.
Definition REG_TSAD0 : Z := 0x20.
Definition REG_RBSTART : Z := 0x30.
Definition REG_CMD : Z := 0x37.
Definition REG_CAPR : Z := 0x38.
Definition REG_IMR : Z := 0x3C.
Definition REG_ISR : Z := 0x3E.
Definition REG_TCR : Z := 0x40.
Definition REG_RCR : Z := 0x44.
Definition REG_CONFIG1 : Z := 0x52.
Definition CMD_RESET : Z := Z.shiftl 1 4.
Definition CMD_RX_ENABLE : Z := Z.shiftl 1 3.
Definition CMD_TX_ENABLE : Z := Z.shiftl 1 2.
Definition CMD_RX_EMPTY : Z := Z.shiftl 1 0.
Definition ISR_RX_ERR : Z := Z.shiftl 1 1.
Definition ISR_TX_ERR : Z := Z.shiftl 1 3.
Definition TSD_OWN : Z := Z.shiftl 1 13.
Definition RX_RING_SIZE : Z := 8192.
Definition RX_ALLOC_SIZE : Z := 12288.
Definition MAX_FRAME_SIZE : Z := 1600.

Record Rtl8139 : Type := mkNic {
  io_base : Z;
  irq : Z;
  mac : list Z;
  rx_buffer_phys : Z;
  rx_offset : Z;
  tx_buffers_phys : list Z;
  tx_cur : Z;
}.

(** The card, the counters of the statics, and the devices. *)
Record NetDriver (W : Type) : Type := mkNet {
  nic : Rtl8139;
  rx_packets : Z;
  tx_packets : Z;
  rx_errors : Z;
  tx_errors : Z;
  net_world : W;
}.
Arguments mkNet {W}. Arguments nic {W}. Arguments rx_packets {W}. Arguments tx_packets {W}.
Arguments rx_errors {W}. Arguments tx_errors {W}. Arguments net_world {W}.

Definition set_bits (z mask : Z) : bool := negb (Z.land z mask =? 0).

Section Driver.

Context {W : Type} `{PortIO W, Dma W}.

Definition set_nic (n : Rtl8139) (s : NetDriver W) : NetDriver W :=
  mkNet n (rx_packets s) (tx_packets s) (rx_errors s) (tx_errors s) (net_world s).
Definition set_world (w : W) (s : NetDriver W) : NetDriver W :=
  mkNet (nic s) (rx_packets s) (tx_packets s) (rx_errors s) (tx_errors s) w.
Definition add_rx_packet (s : NetDriver W) : NetDriver W :=
  mkNet (nic s) (u64 (rx_packets s + 1)) (tx_packets s) (rx_errors s) (tx_errors s) (net_world s).
Definition add_tx_packet (s : NetDriver W) : NetDriver W :=
  mkNet (nic s) (rx_packets s) (u64 (tx_packets s + 1)) (rx_errors s) (tx_errors s) (net_world s).
Definition add_rx_error (s : NetDriver W) : NetDriver W :=
  mkNet (nic s) (rx_packets s) (tx_packets s) (u64 (rx_errors s + 1)) (tx_errors s) (net_world s).
Definition add_tx_error (s : NetDriver W) : NetDriver W :=
  mkNet (nic s) (rx_packets s) (tx_packets s) (rx_errors s) (u64 (tx_errors s + 1)) (net_world s).

Definition set_rx_offset (o : Z) (n : Rtl8139) : Rtl8139 :=
  mkNic (io_base n) (irq n) (mac n) (rx_buffer_phys n) o (tx_buffers_phys n) (tx_cur n).
Definition set_tx_cur (i : Z) (n : Rtl8139) : Rtl8139 :=
  mkNic (io_base n) (irq n) (mac n) (rx_buffer_phys n) (rx_offset n) (tx_buffers_phys n) i.
Definition set_mac (m : list Z) (n : Rtl8139) : Rtl8139 :=
  mkNic (io_base n) (irq n) m (rx_buffer_phys n) (rx_offset n) (tx_buffers_phys n) (tx_cur n).

(** ** PCI *)

Definition pci_address (bus slot func offset : Z) : Z :=
  Z.lor (Z.lor (Z.lor (Z.lor (Z.shiftl 1 31) (Z.shiftl bus 16)) (Z.shiftl slot 11)) (Z.shiftl func 8)) (Z.land offset 0xFC).

Definition pci_read_u32 (bus slot func offset : Z) : M W Z :=
  out32 PCI_CONFIG_ADDRESS (pci_address bus slot func offset);; in32 PCI_CONFIG_DATA.

Definition pci_write_u16 (bus slot func offset value : Z) : M W unit :=
  let aligned := Z.land offset 0xFC in
  let shift := Z.land offset 0x02 * 8 in
  current ← pci_read_u32 bus slot func aligned;
  let current := Z.land current (not_w 32 (u32 (Z.shiftl 0xFFFF shift))) in
  let current := Z.lor current (u32 (Z.shiftl value shift)) in
  out32 PCI_CONFIG_ADDRESS (pci_address bus slot func aligned);;
  out32 PCI_CONFIG_DATA current.

(** The slots of all buses, in order; a location is its bus and its slot, the
    function is 0. *)
Definition find_rtl8139 : M W (option (Z * Z)) := λ w,
  let '(r, w) := for_ret 0 (256 * 32) (λ i w,
    match pci_read_u32 (i / 32) (i mod 32) 0 0x00 w with
    | (Ok vendor_device, w) =>
        if vendor_device =? 0xFFFFFFFF then (None, w)
        else if (Z.land vendor_device 0xFFFF =? RTL8139_VENDOR_ID) &&
                (Z.land (Z.shiftr vendor_device 16) 0xFFFF =? RTL8139_DEVICE_ID)
             then (Some (i / 32, i mod 32), w) else (None, w)
    | (_, w) => (None, w)
    end) w in
  (Ok r, w).

(** ** Programming the card *)

Definition program (first : bool) (n : Rtl8139) (w : W) : Rtl8139 * W :=
  let io := io_base n in
  let w := if first then w else outb (io + REG_CMD) CMD_TX_ENABLE w in
  let w := outl (io + REG_RBSTART) (u32 (rx_buffer_phys n)) w in
  let w := for_range 0 4 (λ i w, outl (io + (REG_TSAD0 + i * 4)) (u32 (default 0 (tx_buffers_phys n !! Z.to_nat i))) w) w in
  let w := outw (io + REG_IMR) 0x0000 w in
  let w := outw (io + REG_ISR) 0xFFFF w in
  let w := outl (io + REG_RCR) (Z.lor (Z.lor 0x0000000F (Z.shiftl 1 7)) (Z.shiftl 6 8)) w in
  let w := outl (io + REG_TCR) 0x03000700 w in
  let w := outb (io + REG_CMD) (Z.lor CMD_RX_ENABLE CMD_TX_ENABLE) w in
  (set_rx_offset 0 n, w).

Definition reset_done (status : Z) : option unit := if set_bits status CMD_RESET then None else Some tt.

(** The four transmit buffers, a frame each. *)
Fixpoint alloc_tx (k : nat) : M (W * FrameAllocator) (list Z) :=
  match k with
  | O => mret []
  | S k => λ '(w, fa),
      let '(r, fa) := alloc fa in
      (a ← m_lift (ok_or r "No memory for TX buffer"); rest ← alloc_tx k; mret (a :: rest)) (w, fa)
  end.

(** The station address, a byte of register at a time. *)
Definition read_mac (io : Z) (w : W) : list Z * W :=
  for_range 0 6 (λ i '(m, w), let '(b, w) := inb (io + (REG_IDR0 + i)) w in (m ++ [b], w)) ([], w).

Definition on_world {A} (m : M W A) : M (W * FrameAllocator) A := λ '(w, fa), let '(r, w) := m w in (r, (w, fa)).

Definition alloc_ring : M (W * FrameAllocator) Z := λ '(w, fa),
  let '(r, fa) := alloc_contiguous 3 fa in (ok_or r "No memory for RX ring", (w, fa)).

(** Program the card and ask it its address. *)
Definition start_card (n : Rtl8139) : M (W * FrameAllocator) Rtl8139 := λ '(w, fa),
  let '(n, w) := program true n w in
  let '(m, w) := read_mac (io_base n) w in
  (Ok (set_mac m n), (w, fa)).

Definition nic_init : M (W * FrameAllocator) Rtl8139 :=
  loc ← on_world find_rtl8139;
  loc ← m_lift (ok_or loc "RTL8139 not found");
  let '(bus, slot) := loc in
  bar0 ← on_world (pci_read_u32 bus slot 0 0x10);
  m_guard (negb ((bar0 =? 0) || (Z.land bar0 0x1 =? 0))) "RTL8139 BAR0 not I/O-mapped";;
  let io := Z.land bar0 0xFFFC in
  irq_line ← on_world (pci_read_u32 bus slot 0 0x3C);
  command ← on_world (pci_read_u32 bus slot 0 0x04);
  let command := Z.lor (Z.lor (Z.land command 0xFFFF) (Z.shiftl 1 0)) (Z.shiftl 1 2) in
  on_world (pci_write_u16 bus slot 0 0x04 command);;
  on_world (out8 (io + REG_CONFIG1) 0x00);;
  on_world (out8 (io + REG_CMD) CMD_RESET);;
  _ ← on_world (poll 100000 (io + REG_CMD) reset_done);
  status ← on_world (in8 (io + REG_CMD));
  m_guard (negb (set_bits status CMD_RESET)) "RTL8139 reset timeout";;
  rx ← alloc_ring;
  tx ← alloc_tx 4;
  start_card (mkNic io (Z.land irq_line 0xFF) (zeros 6) rx 0 tx 0).

(** ** Transmission *)

Definition own (tsd : Z) : option unit := if set_bits tsd TSD_OWN then Some tt else None.

(** [copy_nonoverlapping] and [write_bytes] to the memory of the card. *)
Fixpoint dma_store (addr : Z) (bs : list Z) (w : W) : W :=
  match bs with
  | [] => w
  | b :: bs => dma_store (addr + 1) bs (dma_write addr b w)
  end.

Definition dma_load (addr n : Z) (w : W) : list Z := map (λ i, dma_read (addr + i) w) (seqZ 0 n).

Definition send_frame (frame : list Z) : M (NetDriver W) unit := λ s,
  if 1792 <? len frame then (Err "Frame too large", s)
  else
    let n := nic s in
    let tx_idx := tx_cur n mod 4 in
    let tsd := io_base n + (REG_TSD0 + tx_idx * 4) in
    let '(free, w) :=
      for_ret 0 200000 (λ _ w, let '(v, w) := inl tsd w in (own v, w)) (net_world s) in
    let s := set_world w s in
    match free with
    | None => (Err "TX descriptor busy", add_tx_error s)
    | Some _ =>
        let addr := default 0 (tx_buffers_phys n !! Z.to_nat tx_idx) in
        let w := dma_store addr frame w in
        let '(length, w) :=
          if len frame <? 60 then (60, dma_store (addr + len frame) (zeros (60 - len frame)) w) else (len frame, w) in
        let w := outl tsd length w in
        (Ok tt, add_tx_packet (set_nic (set_tx_cur ((tx_cur n + 1) mod 4) n) (set_world w s)))
    end.

(** ** The receive ring *)

Definition recover_rx (s : NetDriver W) : NetDriver W :=
  let s := add_rx_error s in
  let '(n, w) := program false (nic s) (net_world s) in
  set_nic n (set_world w s).

(** Past the header and the packet, to a multiple of 4, round the ring. *)
Definition next_offset (offset length : Z) : Z :=
  let o := Z.land (offset + 4 + length + 3) (not_w 64 3) in
  if RX_RING_SIZE <=? o then o - RX_RING_SIZE else o.

Definition recv_frame (s : NetDriver W) : option (list Z) * NetDriver W :=
  let n := nic s in
  let '(cmd, w) := inb (io_base n + REG_CMD) (net_world s) in
  let s := set_world w s in
  if set_bits cmd CMD_RX_EMPTY then (None, s)
  else
    let base := rx_buffer_phys n in
    let status := le_decode (dma_load (base + rx_offset n) 2 w) in
    let length := le_decode (dma_load (base + (rx_offset n + 2)) 2 w) in
    if (Z.land status 0x01 =? 0) || (length <? 8) || (MAX_FRAME_SIZE + 4 <? length) then (None, recover_rx s)
    else
      let frame := dma_load (base + (rx_offset n + 4)) (length - 4) w in
      let o := next_offset (rx_offset n) length in
      let w := outw (io_base n + REG_CAPR) (u16 (u16 o - 16)) w in
      (Some frame, add_rx_packet (set_nic (set_rx_offset o n) (set_world w s))).

Definition handle_interrupt (s : NetDriver W) : NetDriver W :=
  let '(isr, w) := inw (io_base (nic s) + REG_ISR) (net_world s) in
  let s := set_world w s in
  if isr =? 0 then s
  else
    let s := set_world (outw (io_base (nic s) + REG_ISR) isr w) s in
    let s := if set_bits isr ISR_RX_ERR then add_rx_error s else s in
    if set_bits isr ISR_TX_ERR then add_tx_error s else s.

End Driver.
