(* ===== verification/Rtl8139Spec.v ===== *)
(** * The receive ring is a queue

    What the driver relies on of the card is the class [ReceiveRing]: frames arrive
    behind the ones in the ring, the first one lies in the shared memory with its
    header, and moving CAPR past it releases it. *)

From S2P Require Import Prelude Bytes Physical Ports Rtl8139.

(** Where the frame after one of [n] bytes (and 4 of checksum) at [o] begins. *)
Definition ring_next (o n : Z) : Z := ((o + 4 + (n + 4) + 3) / 4 * 4) mod 8192.

Class ReceiveRing (W : Type) `{PortIO W, Dma W} (io ring : Z) : Type := {
  pending : W → list (list Z);
  read_at : W → Z;
  ring_command w :
    let '(cmd, w') := inb (io + REG_CMD) w in
    (∃ arrived, pending w' = pending w ++ arrived) ∧ read_at w' = read_at w ∧
    set_bits cmd CMD_RX_EMPTY = bool_decide (pending w' = []);
  ring_frame w frame rest : pending w = frame :: rest →
    4 ≤ len frame ≤ 1600 ∧
    Z.land (le_decode (dma_load (ring + read_at w) 2 w)) 0x01 ≠ 0 ∧
    le_decode (dma_load (ring + (read_at w + 2)) 2 w) = len frame + 4 ∧
    dma_load (ring + (read_at w + 4)) (len frame) w = frame;
  ring_release w frame rest : pending w = frame :: rest →
    let o := ring_next (read_at w) (len frame) in
    let w' := outw (io + REG_CAPR) ((o - 16) mod 2 ^ 16) w in
    (∃ arrived, pending w' = rest ++ arrived) ∧ read_at w' = o;
}.

Section Ring.

Context {W : Type} `{PortIO W, Dma W} (io ring : Z) `{!ReceiveRing W io ring}.

(** The driver reads where the card says, at a multiple of 4 of the ring. *)
Record ring_ok (s : NetDriver W) : Prop := mk_ring_ok {
  ok_io : io_base (nic s) = io;
  ok_base : rx_buffer_phys (nic s) = ring;
  ok_offset : rx_offset (nic s) = read_at (net_world s);
  ok_range : 0 ≤ rx_offset (nic s) < RX_RING_SIZE;
  ok_aligned : rx_offset (nic s) mod 4 = 0;
}.

Lemma land_not_3 z : 0 ≤ z < 2 ^ 64 → Z.land z (not_w 64 3) = z / 4 * 4.
Proof.
  intros Hz. apply Z.bits_inj'. intros n Hn. rewrite Z.land_spec. change 4 with (2 ^ 2).
  rewrite <-Z.shiftr_div_pow2, <-Z.shiftl_mul_pow2 by lia.
  destruct (Z.lt_ge_cases n 2) as [H2|H2].
  - rewrite Z.shiftl_spec_low, not_w_testbit by lia. assert (n = 0 ∨ n = 1) as [-> | ->] by lia; apply andb_false_r.
  - rewrite Z.shiftl_spec, Z.shiftr_spec by lia. replace (n - 2 + 2) with n by lia.
    destruct (Z.lt_ge_cases n 64) as [H64|H64].
    + rewrite not_w_testbit, (Z.bits_above_log2 3) by (change (Z.log2 3) with 1; lia). apply andb_true_r.
    + assert (Z.testbit z n = false) as ->; [|done]. destruct (decide (z = 0)) as [->|]; [apply Z.bits_0|].
      apply Z.bits_above_log2; [lia|]. apply Z.log2_lt_pow2; [lia|]. apply (Z.lt_le_trans _ (2 ^ 64)); [lia|].
      apply Z.pow_le_mono_r; lia.
Qed.

Lemma next_offset_ring o n : 0 ≤ o < 8192 → 0 ≤ n ≤ 1600 → next_offset o (n + 4) = ring_next o n.
Proof.
  intros Ho Hn. unfold next_offset, ring_next, RX_RING_SIZE. rewrite land_not_3 by lia.
  destruct (Z.leb_spec 8192 ((o + 4 + (n + 4) + 3) / 4 * 4)); zdiv.
Qed.

Lemma ring_next_range o n : 0 ≤ ring_next o n < 8192 ∧ ring_next o n mod 4 = 0.
Proof. unfold ring_next. zdiv. Qed.

(** A receive takes the first frame, in a place inside the allocation; with none, the
    ring was empty. *)
Lemma recv_frame_ok s :
  ring_ok s →
  ∃ arrived, let '(r, s') := recv_frame s in
  ring_ok s' ∧ rx_errors s' = rx_errors s ∧
  match r with
  | Some frame =>
      pending (net_world s) ++ arrived = frame :: pending (net_world s') ∧
      rx_offset (nic s) + 4 + len frame ≤ RX_ALLOC_SIZE ∧ rx_packets s' = u64 (rx_packets s + 1)
  | None => pending (net_world s) = [] ∧ arrived = [] ∧ pending (net_world s') = [] ∧ rx_packets s' = rx_packets s
  end.
Proof.
  intros [Hio Hbase Hoff Hrange Hal]. unfold recv_frame. rewrite Hio, Hbase, Hoff. rewrite Hoff in Hrange, Hal.
  pose proof (ring_command (net_world s)) as Hc. destruct (inb (io + REG_CMD) (net_world s)) as [cmd w].
  destruct Hc as ([arrived Hp] & Hr & ->). case_bool_decide as He.
  - exists []. cbn. rewrite He in Hp. symmetry in Hp. apply app_eq_nil in Hp as [Hp _]. split; [|done]. split; cbn; congruence.
  - destruct (pending w) as [|frame rest] eqn:Ew; [done|]. destruct (ring_frame w frame rest Ew) as (Hl & Hok & Hlen & Hframe).
    rewrite <-Hr, Hlen. rewrite (proj2 (Z.eqb_neq _ _) Hok), (proj2 (Z.ltb_ge _ _)), (proj2 (Z.ltb_ge _ _)) by (unfold MAX_FRAME_SIZE; lia).
    cbn [orb]. rewrite <-Hr in Hrange, Hal. replace (len frame + 4 - 4) with (len frame) by lia. rewrite Hframe.
    rewrite next_offset_ring by (unfold RX_RING_SIZE in Hrange; lia). destruct (ring_next_range (read_at w) (len frame)) as [Hn Hn4].
    replace (u16 (u16 (ring_next (read_at w) (len frame)) - 16)) with ((ring_next (read_at w) (len frame) - 16) mod 2 ^ 16)
      by (unfold u16, wrap; rewrite (Z.mod_small (ring_next _ _)) by lia; done).
    destruct (ring_release w frame rest Ew) as ([more Hrest] & Ho). exists (arrived ++ more). cbn.
    split; [split; cbn; rewrite ?Ho; done|]. split; [done|]. split; [|split; [unfold RX_RING_SIZE, RX_ALLOC_SIZE in *; lia|done]].
    by rewrite app_assoc, <-Hp, Hrest.
Qed.

(** [n] receives, and the frames they give. *)
Fixpoint receive (n : nat) (s : NetDriver W) : list (list Z) * NetDriver W :=
  match n with
  | O => ([], s)
  | S n =>
      let '(r, s) := recv_frame s in
      let '(frames, s) := receive n s in
      (match r with Some frame => frame :: frames | None => frames end, s)
  end.

(** C27: the network card's ring is a queue.  However the frames arrive, the frames
    that the driver received and the ones still in the ring are, in this order, the
    ones that were in the ring followed by the arrivals: none is lost, doubled or
    taken before its turn, the driver never restarts a ring in good order, and it
    stays at the offset of the card; and when it receives fewer frames than it asked
    for, the ring was empty. *)
Theorem receive_fifo n s :
  ring_ok s →
  ∃ arrived, let '(frames, s') := receive n s in
  pending (net_world s) ++ arrived = frames ++ pending (net_world s') ∧ ring_ok s' ∧ rx_errors s' = rx_errors s ∧
  ((length frames < n)%nat → ∃ k, (k < n)%nat ∧ pending (net_world (receive k s).2) = []).
Proof.
  revert s. induction n as [|n IH]; intros s Hs.
  { exists []. cbn. rewrite app_nil_r. split; [done|]. split; [done|]. split; [done|]. lia. }
  destruct (recv_frame_ok s Hs) as [a1 H1]. cbn. destruct (recv_frame s) as [r s1] eqn:E. destruct H1 as (Hs1 & He1 & Hr).
  destruct (IH s1 Hs1) as [a2 H2]. destruct (receive n s1) as [frames s2] eqn:E2. destruct H2 as (Hp2 & Hs2 & He2 & Hn2).
  destruct r as [frame|].
  - destruct Hr as (Hp1 & _). exists (a1 ++ a2). split; [by rewrite app_assoc, Hp1, <-app_comm_cons, Hp2|].
    split; [done|]. split; [congruence|]. cbn. intros Hlt. destruct Hn2 as (k & Hk & Hke); [lia|].
    exists (S k). split; [lia|]. cbn. rewrite E. by destruct (receive k s1).
  - destruct Hr as (Hp1 & -> & Hp1' & _). exists a2. split; [by rewrite Hp1, <-Hp2, Hp1'|].
    split; [done|]. split; [congruence|]. intros _. exists O. split; [lia|done].
Qed.

End Ring.

(** ** A simulated card

    Its ring holds the frames of legal size of a list; nothing arrives later. *)

Module RingExample.

Record SimRing : Type := mkSim { sim_frames : list (list Z); sim_at : Z }.

Definition legal (f : list Z) : Prop := 4 ≤ len f ≤ 1600.

#[local] Instance legal_dec f : Decision (legal f).
Proof. unfold legal. apply _. Defined.

Definition sim_pending (w : SimRing) : list (list Z) := filter legal (sim_frames w).

(** The header and the first frame, from the offset. *)
Definition sim_memory (w : SimRing) : list Z :=
  match sim_pending w with f :: _ => le 2 1 ++ le 2 (len f + 4) ++ f | [] => [] end.

#[export] Instance sim_ring_dma : Dma SimRing := {
  dma_read a w := default 0 (sim_memory w !! Z.to_nat (a - sim_at w));
  dma_write _ _ w := w;
}.

#[export] Instance sim_ring_ports : PortIO SimRing := {
  inb p w := (if bool_decide (sim_pending w = []) then CMD_RX_EMPTY else 0, w);
  inw _ w := (0, w);
  inl _ w := (0, w);
  outb _ _ w := w;
  outw _ v w :=
    match sim_pending w with
    | f :: rest => mkSim rest (ring_next (sim_at w) (len f))
    | [] => w
    end;
  outl _ _ w := w;
}.

Lemma sim_load w k n : 0 ≤ k → 0 ≤ n → k + n ≤ len (sim_memory w) →
  dma_load (0 + (sim_at w + k)) n w = slice k n (sim_memory w).
Proof.
  intros Hk Hn Hl. unfold len in Hl. apply list_eq. intros i. rewrite lookup_slice. unfold dma_load. rewrite list_lookup_fmap.
  destruct (decide (i < Z.to_nat n)%nat).
  - rewrite lookup_seqZ_lt by lia. cbn. replace (Z.to_nat (0 + (sim_at w + k) + (0 + Z.of_nat i) - sim_at w)) with (Z.to_nat k + i)%nat by lia.
    destruct (lookup_lt_is_Some_2 (sim_memory w) (Z.to_nat k + i)) as [b Hb]; [lia|]. by rewrite Hb.
  - by rewrite lookup_seqZ_ge by lia.
Qed.

Lemma sim_pending_legal w f rest : sim_pending w = f :: rest → legal f ∧ filter legal rest = rest.
Proof.
  intros Hp. assert (Forall legal (f :: rest)) as Hf.
  { rewrite <-Hp. unfold sim_pending. apply Forall_forall. intros x Hx. by apply list_elem_of_filter in Hx as [? _]. }
  inversion Hf as [|? ? H1 H2]; subst. split; [done|]. clear Hp Hf. induction H2 as [|x l Hx _ IH]; [done|].
  by rewrite filter_cons_True, IH.
Qed.

#[export] Instance sim_receive_ring : ReceiveRing SimRing 0 0.
Proof.
  refine (Build_ReceiveRing _ _ _ 0 0 sim_pending sim_at _ _ _).
  - intros w. cbn. split; [exists []; by rewrite app_nil_r|]. split; [done|]. by case_bool_decide.
  - intros w f rest Hp. destruct (sim_pending_legal w f rest Hp) as [Hl _]. unfold legal in Hl.
    assert (sim_memory w = le 2 1 ++ le 2 (len f + 4) ++ f) as Hm by (unfold sim_memory; by rewrite Hp).
    assert (len (sim_memory w) = len f + 4) as Hlen by (rewrite Hm, !len_app; unfold len; rewrite !length_le; lia).
    split; [done|]. pose proof (sim_load w 0 2 ltac:(lia) ltac:(lia) ltac:(lia)) as H1. rewrite Z.add_0_r in H1.
    rewrite H1, (sim_load w 2 2), (sim_load w 4 (len f)) by lia. rewrite Hm. split; [|split].
    + done.
    + change (slice 2 2 (le 2 1 ++ le 2 (len f + 4) ++ f)) with (le 2 (len f + 4)). by apply le_decode_le; lia.
    + change (slice 4 (len f) (le 2 1 ++ le 2 (len f + 4) ++ f)) with (take (Z.to_nat (len f)) f). apply take_ge. unfold len. lia.
  - intros w f rest Hp. cbn. rewrite Hp. destruct (sim_pending_legal w f rest Hp) as [_ Hr]. cbn.
    split; [exists []; unfold sim_pending; cbn; by rewrite Hr, app_nil_r|done].
Defined.

Definition net0 : NetDriver SimRing :=
  mkNet (mkNic 0 11 (zeros 6) 0 0 [0; 0; 0; 0] 0) 0 0 0 0 (mkSim [replicate 60 1; replicate 64 2] 0).

Lemma net0_ok : ring_ok 0 0 net0.
Proof. split; [reflexivity|reflexivity|reflexivity|unfold RX_RING_SIZE; cbn; lia|reflexivity]. Qed.

Lemma receive_fifo_witness :
  receive 3 net0 = ([replicate 60 1; replicate 64 2], (receive 3 net0).2) ∧
  ∃ arrived, sim_frames (net_world net0) ++ arrived = [replicate 60 1; replicate 64 2] ++ pending (io := 0) (ring := 0) (net_world (receive 3 net0).2).
Proof.
  split; [vm_compute; reflexivity|].
  destruct (receive_fifo 0 0 3 net0 net0_ok) as [arrived H]. exists arrived. destruct H as [H _]. exact H.
Defined.

End RingExample.
