(* ===== verification/NetStack.v ===== *)
(** * The network interface: [drivers/network.rs], second half

    The configuration, the public functions on TCP, UDP, ICMP, DHCP and DNS, and
    their loops with deadlines.  The protocols are those of the smoltcp crate, which
    is a parameter, the class [Smoltcp] on its state together with the clock of the
    scheduler.  [NetStack::drive] is translated; a [poll] that finds the stack
    locked is not modelled, since every caller has released it. *)

From S2P Require Import Prelude Bytes Str.

(** What the code asks of the crate and of the scheduler: the clock and the yield;
    one round of the interface; its address with a prefix, its route and its name
    servers; the events of the DHCP client; the ICMP socket, whose [recv] gives the
    type of a message that parses; the TCP, UDP and DNS sockets.  A result that the
    code only tests for success is a [bool]. *)
Inductive DhcpEvent : Type :=
| Configured (address : list Z) (prefix : Z) (router : option (list Z)) (dns_servers : list (list Z))
| Deconfigured.

Inductive DnsAnswer : Type := Pending | Addresses (l : list (list Z)) | Failed.

Class Smoltcp (S : Type) : Type := {
  ticks : S → Z;
  yield_to_main : S → S;
  iface_poll : S → S;
  update_ip_addrs : list Z → Z → S → S;
  set_default_route : list Z → S → S;
  update_servers : list Z → S → S;
  dhcp_poll : S → option DhcpEvent * S;
  dhcp_reset : S → S;
  icmp_can_recv : S → bool;
  icmp_recv : S → option (option Z) * S;
  icmp_can_send : S → bool;
  icmp_send : Z → list Z → S → bool * S;
  tcp_open : S → bool;
  tcp_abort : S → S;
  tcp_start : list Z → Z → Z → S → bool * S;
  tcp_may_recv : S → bool;
  tcp_recv_queue : S → Z;
  tcp_may_send : S → bool;
  tcp_send_slice : list Z → S → option Z * S;
  tcp_can_recv : S → bool;
  tcp_recv_slice : Z → S → option (list Z) * S;
  tcp_shut : S → S;
  udp_close : S → S;
  udp_bind : Z → S → bool * S;
  udp_send_slice : list Z → list Z → Z → S → bool * S;
  udp_recv_from : S → option (list Z * list Z * Z) * S;
  dns_start : list Z → S → option Z * S;
  dns_result : Z → S → DnsAnswer * S;
  dns_cancel : Z → S → S;
}.

Record NetConfig : Type := mkNetConfig { ip : list Z; netmask : list Z; gateway : list Z; dns : list Z }.

Definition DEFAULT_IP : list Z := [10; 0; 2; 15].
Definition DEFAULT_NETMASK : list Z := [255; 255; 255; 0].
Definition DEFAULT_GATEWAY : list Z := [10; 0; 2; 2].
Definition DEFAULT_DNS : list Z := [10; 0; 2; 3].
Definition NetConfig_default : NetConfig := mkNetConfig DEFAULT_IP DEFAULT_NETMASK DEFAULT_GATEWAY DEFAULT_DNS.

(** The statics; [stack] is [None] when no card was found. *)
Record Net (S : Type) : Type := mkNetState {
  config : NetConfig;
  stack : option S;
  udp_bound_port : Z;
  dhcp_gen : Z;
  icmp_echo_rx : Z;
  icmp_echo_tx : Z;
  ping_seq : Z;
  tcp_src_port_seq : Z;
}.
Arguments mkNetState {S}. Arguments config {S}. Arguments stack {S}. Arguments udp_bound_port {S}. Arguments dhcp_gen {S}.
Arguments icmp_echo_rx {S}. Arguments icmp_echo_tx {S}. Arguments ping_seq {S}. Arguments tcp_src_port_seq {S}.

(** ** Addresses *)

Definition count_ones (z : Z) : Z := count_range 0 32 (Z.testbit z).

(** [u32::from_be_bytes(mask).count_ones()] *)
Definition prefix_len (mask : list Z) : Z := count_ones (le_decode (reverse mask)).

(** A fifth part of [splitn(5, '.')] is there when there are four dots. *)
Definition parse_ipv4_literal (s : list Z) : option (list Z) :=
  match split_byte 46 s with
  | [s0; s1; s2; s3] =>
      a ← from_str_radix 10 255 s0;
      b ← from_str_radix 10 255 s1;
      c ← from_str_radix 10 255 s2;
      d ← from_str_radix 10 255 s3;
      Some [a; b; c; d]
  | _ => None
  end.

Section Stack.

Context {S : Type} `{Smoltcp S}.

Definition set_config (c : NetConfig) (n : Net S) : Net S :=
  mkNetState c (stack n) (udp_bound_port n) (dhcp_gen n) (icmp_echo_rx n) (icmp_echo_tx n) (ping_seq n) (tcp_src_port_seq n).
Definition set_stack (s : S) (n : Net S) : Net S :=
  mkNetState (config n) (Some s) (udp_bound_port n) (dhcp_gen n) (icmp_echo_rx n) (icmp_echo_tx n) (ping_seq n) (tcp_src_port_seq n).
Definition set_udp_port (p : Z) (n : Net S) : Net S :=
  mkNetState (config n) (stack n) p (dhcp_gen n) (icmp_echo_rx n) (icmp_echo_tx n) (ping_seq n) (tcp_src_port_seq n).
Definition set_gen (g : Z) (n : Net S) : Net S :=
  mkNetState (config n) (stack n) (udp_bound_port n) g (icmp_echo_rx n) (icmp_echo_tx n) (ping_seq n) (tcp_src_port_seq n).
Definition set_echo (rx tx : Z) (n : Net S) : Net S :=
  mkNetState (config n) (stack n) (udp_bound_port n) (dhcp_gen n) rx tx (ping_seq n) (tcp_src_port_seq n).
Definition set_seqs (ping tcp : Z) (n : Net S) : Net S :=
  mkNetState (config n) (stack n) (udp_bound_port n) (dhcp_gen n) (icmp_echo_rx n) (icmp_echo_tx n) ping tcp.

(** ** Driving the stack *)

Definition apply_config (c : NetConfig) (s : S) : S :=
  update_servers (dns c) (set_default_route (gateway c) (update_ip_addrs (ip c) (prefix_len (netmask c)) s)).

(** [Ipv4Cidr::netmask] *)
Definition prefix_mask (prefix : Z) : list Z := reverse (le 4 (u32 (Z.shiftl (Z.ones 32) (32 - prefix)))).

Definition dhcp_config (c : NetConfig) (address : list Z) (prefix : Z) (router : option (list Z)) (servers : list (list Z))
    : NetConfig :=
  mkNetConfig address (prefix_mask prefix) (default (gateway c) router) (default (dns c) (head servers)).

(** The ICMP queue holds a message for each of [fuel]. *)
Fixpoint drain_icmp (fuel : nat) (n : Net S) (s : S) : Net S * S :=
  match fuel with
  | O => (n, s)
  | Datatypes.S fuel =>
      if icmp_can_recv s then
        match icmp_recv s with
        | (Some (Some 0), s) => drain_icmp fuel (set_echo (u64 (icmp_echo_rx n + 1)) (icmp_echo_tx n) n) s
        | (Some _, s) => drain_icmp fuel n s
        | (None, s) => (n, s)
        end
      else (n, s)
  end.

(** The ICMP socket has room for 8 packets ([icmp_rx] of [NetStack::new]). *)
Definition drive (n : Net S) (s : S) : Net S :=
  let s := iface_poll s in
  let '(event, s) := dhcp_poll s in
  let '(n, s) :=
    match event with
    | Some (Configured address prefix router servers) =>
        let c := dhcp_config (config n) address prefix router servers in
        (set_gen (u64 (dhcp_gen n + 1)) (set_config c n), apply_config c s)
    | _ => (n, s)
    end in
  let '(n, s) := drain_icmp 8 n s in
  set_stack s n.

Definition net_poll (n : Net S) : Net S := match stack n with Some s => drive n s | None => n end.

(** An operation on the stack, which must be up. *)
Definition with_stack {A} (f : S → res A * S) : M (Net S) A := λ n,
  match stack n with
  | Some s => let '(r, s) := f s in (r, set_stack s n)
  | None => (Err "network unavailable", n)
  end.

Definition yield_now (n : Net S) : Net S := match stack n with Some s => set_stack (yield_to_main s) n | None => n end.

(** The clock is read when the stack is up. *)
Definition clock (n : Net S) : Z := match stack n with Some s => ticks s | None => 0 end.

(** ** Configuration *)

Definition reconfigure (f : NetConfig → NetConfig) (n : Net S) : Net S :=
  let n := set_config (f (config n)) n in
  match stack n with Some s => set_stack (apply_config (config n) s) n | None => n end.

Definition set_ip (a : list Z) : Net S → Net S := reconfigure (λ c, mkNetConfig a (netmask c) (gateway c) (dns c)).
Definition set_netmask (a : list Z) : Net S → Net S := reconfigure (λ c, mkNetConfig (ip c) a (gateway c) (dns c)).
Definition set_gateway (a : list Z) : Net S → Net S := reconfigure (λ c, mkNetConfig (ip c) (netmask c) a (dns c)).
Definition set_dns (a : list Z) : Net S → Net S := reconfigure (λ c, mkNetConfig (ip c) (netmask c) (gateway c) a).

(** [RTL8139] holds a card exactly when the stack is up. *)
Definition request_arp (n : Net S) : res unit * Net S :=
  match stack n with Some _ => (Ok tt, net_poll n) | None => (Err "network unavailable", n) end.

(** ** ICMP *)

Definition ping (target : list Z) : M (Net S) unit :=
  n ← m_get;
  let seq := ping_seq n in
  m_modify (λ n, set_seqs (u16 (ping_seq n + 1)) (tcp_src_port_seq n) n);;
  with_stack (λ s,
    if negb (icmp_can_send s) then (Err "icmp socket busy", s)
    else let '(ok, s) := icmp_send seq target s in (if ok : bool then Ok tt else Err "icmp send failed", s));;
  m_modify (λ n, set_echo (icmp_echo_rx n) (u64 (icmp_echo_tx n + 1)) n);;
  m_modify net_poll.

(** ** TCP *)

(** The next local port and the next value of the sequence. *)
Definition next_port (seq : Z) : Z * Z := if seq <? 49152 then (49152, 49153) else (seq, u16 (seq + 1)).

Definition tcp_connect (target : list Z) (port : Z) : M (Net S) unit :=
  n ← m_get;
  let '(local_port, seq) := next_port (tcp_src_port_seq n) in
  m_modify (λ n, set_seqs (ping_seq n) seq n);;
  with_stack (λ s,
    let s := if tcp_open s then tcp_abort s else s in
    let '(ok, s) := tcp_start target port local_port s in
    (if ok : bool then Ok tt else Err "tcp connect failed", s));;
  m_modify net_poll.

Definition tcp_is_connected (n : Net S) : bool :=
  match stack n with Some s => tcp_may_recv s || (0 <? tcp_recv_queue s) | None => false end.

Definition tcp_send_some (data : list Z) : M (Net S) Z :=
  with_stack (λ s,
    if negb (tcp_may_send s) then (Err "tcp not connected", s)
    else match tcp_send_slice data s with
         | (Some k, s) => (Ok k, s)
         | (None, s) => (Err "tcp send failed", s)
         end).

(** The loop of [tcp_send]; a result of [None] is out of fuel. *)
Fixpoint tcp_send_loop (fuel : nat) (deadline : Z) (data : list Z) (n : Net S) : option (res unit * Net S) :=
  if bool_decide (data = []) then Some (Ok tt, n)
  else
    match fuel with
    | O => None
    | Datatypes.S fuel =>
        match tcp_send_some data n with
        | (Ok k, n) =>
            let data := drop (Z.to_nat k) data in
            let n := net_poll n in
            if bool_decide (data = []) then Some (Ok tt, n)
            else if deadline <? clock n then Some (Err "tcp send timeout", n)
            else tcp_send_loop fuel deadline data (yield_now n)
        | (Err e, n) => Some (Err e, n)
        | (Panic, n) => Some (Panic, n)
        end
    end.

Definition tcp_send (fuel : nat) (data : list Z) (n : Net S) : option (res unit * Net S) :=
  match tcp_send_loop fuel (clock n + 10000) data n with
  | Some (Ok tt, n) => Some (Ok tt, net_poll n)
  | r => r
  end.

Definition tcp_read_into (size : Z) (n : Net S) : list Z * Net S :=
  if size =? 0 then ([], n)
  else
    match stack n with
    | Some s =>
        if tcp_can_recv s then let '(r, s) := tcp_recv_slice size s in (default [] r, set_stack s n) else ([], n)
    | None => ([], n)
    end.

Definition tcp_read (n : Net S) : option (list Z) * Net S :=
  let '(out, n) := tcp_read_into 1024 n in
  (if bool_decide (out = []) then None else Some out, n).

Definition tcp_close : M (Net S) unit :=
  with_stack (λ s, (Ok tt, tcp_shut s));;
  m_modify (for_range 0 4 (λ _, net_poll)).

(** ** UDP *)

Definition bind_port (src_port : Z) : M (Net S) unit :=
  n ← m_get;
  if udp_bound_port n =? src_port then mret tt
  else
    with_stack (λ s, let '(ok, s) := udp_bind src_port (udp_close s) in (if ok : bool then Ok tt else Err "udp bind failed", s));;
    m_modify (set_udp_port src_port).

Definition udp_send (dst_ip : list Z) (src_port dst_port : Z) (payload : list Z) : M (Net S) unit :=
  with_stack (λ s, (Ok tt, s));;
  bind_port src_port;;
  with_stack (λ s,
    let '(ok, s) := udp_send_slice payload dst_ip dst_port s in (if ok : bool then Ok tt else Err "udp send failed", s));;
  m_modify net_poll.

(** A datagram is cut to 1024 bytes. *)
Definition udp_recv (n : Net S) : option (list Z * Z * Z * list Z) * Net S :=
  let n := net_poll n in
  match stack n with
  | Some s =>
      match udp_recv_from s with
      | (Some (data, src, port), s) => (Some (src, port, udp_bound_port n, take 1024 data), set_stack s n)
      | (None, s) => (None, set_stack s n)
      end
  | None => (None, n)
  end.

(** ** DHCP *)

Fixpoint dhcp_wait (fuel : nat) (deadline generation : Z) (n : Net S) : option (res unit * Net S) :=
  if deadline <=? clock n then Some (Err "dhcp timeout", n)
  else
    match fuel with
    | O => None
    | Datatypes.S fuel =>
        let n := net_poll n in
        if negb (dhcp_gen n =? generation) then Some (Ok tt, n) else dhcp_wait fuel deadline generation (yield_now n)
    end.

Definition dhcp_configure (fuel : nat) (n : Net S) : option (res unit * Net S) :=
  let generation := dhcp_gen n in
  match with_stack (λ s, (Ok tt, dhcp_reset s)) n with
  | (Ok _, n) => dhcp_wait fuel (clock n + 8000) generation n
  | (Err e, n) => Some (Err e, n)
  | (Panic, n) => Some (Panic, n)
  end.

(** ** DNS *)

Fixpoint dns_wait (fuel : nat) (deadline query : Z) (n : Net S) : option (res (list Z) * Net S) :=
  match fuel with
  | O => None
  | Datatypes.S fuel =>
      let n := net_poll n in
      match with_stack (λ s, let '(a, s) := dns_result query s in (Ok a, s)) n with
      | (Ok (Addresses []), n) => Some (Err "dns: no A record", n)
      | (Ok (Addresses (a :: _)), n) => Some (Ok a, n)
      | (Ok Failed, n) => Some (Err "dns query failed", n)
      | (Ok Pending, n) =>
          if deadline <=? clock n then
            Some (Err "dns timeout", match stack n with Some s => set_stack (dns_cancel query s) n | None => n end)
          else dns_wait fuel deadline query (yield_now n)
      | (Err e, n) => Some (Err e, n)
      | (Panic, n) => Some (Panic, n)
      end
  end.

Definition dns_resolve_a (fuel : nat) (host : list Z) (n : Net S) : option (res (list Z) * Net S) :=
  if bool_decide (host = []) || (240 <? len host) then Some (Err "invalid host name", n)
  else
    match parse_ipv4_literal host with
    | Some addr => Some (Ok addr, n)
    | None =>
        match with_stack (λ s, match dns_start host s with (Some q, s) => (Ok q, s) | (None, s) => (Err "dns query failed to start", s) end) n with
        | (Ok q, n) => dns_wait fuel (clock n + 8000) q n
        | (Err e, n) => Some (Err e, n)
        | (Panic, n) => Some (Panic, n)
        end
    end.

End Stack.
