(* ===== verification/NetStackSpec.v ===== *)
(** * The network interface: sending, waiting and giving up

    Against the crate and the clock as the class [SmoltcpLaws] has them: what the
    TCP socket accepted is a stream that only its [send_slice] extends, by a prefix
    of the data; and time passes when the code yields. *)

From S2P Require Import Prelude Bytes Str NetStack.

Class SmoltcpLaws (S : Type) `{Smoltcp S} : Type := {
  sent : S → list Z;
  (** not behind, and with the same stream *)
  after : S → S → Prop := λ s s', ticks s ≤ ticks s' ∧ sent s' = sent s;
  send_slice_law data s : let '(r, s') := tcp_send_slice data s in
    ticks s ≤ ticks s' ∧
    match r with Some k => 0 ≤ k ≤ len data ∧ sent s' = sent s ++ take (Z.to_nat k) data | None => sent s' = sent s end;
  yield_law s : ticks s < ticks (yield_to_main s) ∧ sent (yield_to_main s) = sent s;
  poll_law s : after s (iface_poll s);
  dhcp_poll_law s : after s (dhcp_poll s).2;
  dhcp_reset_law s : after s (dhcp_reset s);
  addrs_law a p s : after s (update_ip_addrs a p s);
  route_law a s : after s (set_default_route a s);
  servers_law a s : after s (update_servers a s);
  icmp_law s : after s (icmp_recv s).2;
  dns_start_law h s : after s (dns_start h s).2;
  dns_result_law q s : after s (dns_result q s).2;
}.

(** What a poll preserves: a relation that every operation of [drive] respects. *)
Class Driven {S : Type} `{Smoltcp S} (R : relation S) : Prop := {
  driven_pre :: PreOrder R;
  driven_poll s : R s (iface_poll s);
  driven_dhcp s : R s (dhcp_poll s).2;
  driven_addrs a p s : R s (update_ip_addrs a p s);
  driven_route a s : R s (set_default_route a s);
  driven_servers a s : R s (update_servers a s);
  driven_icmp s : R s (icmp_recv s).2;
}.

Section Driving.

Context {S : Type} `{Smoltcp S} {R : relation S} `{!Driven R}.

Lemma apply_config_driven c s : R s (apply_config c s).
Proof using Type*. unfold apply_config. etrans; [apply driven_addrs|]. etrans; [apply driven_route|apply driven_servers]. Qed.

Lemma drain_icmp_driven fuel n s : R s (drain_icmp fuel n s).2.
Proof using Type*.
  revert n s. induction fuel as [|fuel IH]; intros n s; [done|]. cbn [drain_icmp]. destruct (icmp_can_recv s); [|done].
  pose proof (driven_icmp s) as Hi. destruct (icmp_recv s) as [[[z|]|] s']; cbn [snd] in *; [|by etrans; [exact Hi|]|done].
  destruct z; (etrans; [exact Hi|]); apply IH.
Qed.

Lemma poll_driven s n : stack n = Some s → ∃ s', stack (net_poll n) = Some s' ∧ R s s'.
Proof using Type*.
  intros Hs. unfold net_poll. rewrite Hs. unfold drive.
  pose proof (driven_dhcp (iface_poll s)) as Hd. destruct (dhcp_poll (iface_poll s)) as [event s1]. cbn [snd] in Hd.
  match goal with |- context [let '(_, _) := ?m in _] => assert (R s1 m.2) as Hm end.
  { destruct event as [[]|]; [apply apply_config_driven|done..]. }
  destruct (match event with Some _ => _ | None => _ end) as [n2 s2]. cbn [snd] in Hm.
  pose proof (drain_icmp_driven 8 n2 s2) as Hi. destruct (drain_icmp 8 n2 s2) as [n3 s3]. cbn [snd] in Hi.
  exists s3. split; [done|]. etrans; [apply driven_poll|]. etrans; [exact Hd|]. by etrans.
Qed.

End Driving.

Section Waits.

Context {S : Type} `{SmoltcpLaws S}.

#[local] Instance after_pre : PreOrder (@after S _ _).
Proof.
  split; [intros s; by split|]. intros s1 s2 s3 [H1 E1] [H2 E2]. split; [lia|congruence].
Qed.

#[export] Instance after_driven : Driven (@after S _ _).
Proof.
  split; [apply _|apply poll_law|apply dhcp_poll_law|apply addrs_law|apply route_law|apply servers_law|apply icmp_law].
Qed.

(** The stack is up, at or after [s]. *)
Definition up (s : S) (n : Net S) : Prop := ∃ s', stack n = Some s' ∧ after s s'.

Lemma poll_up s n : up s n → up s (net_poll n).
Proof.
  intros (s' & Hs & Ha). destruct (poll_driven s' n Hs) as (s2 & Hs2 & Ha2). exists s2. split; [done|]. by etrans.
Qed.

Lemma up_clock s n : up s n → ticks s ≤ clock n.
Proof. intros (s' & Hs & Ha & _). unfold clock. by rewrite Hs. Qed.

(** ** Sending *)

Lemma up_stack n s : stack n = Some s → up s n.
Proof. intros Hs. by exists s. Qed.

Lemma yield_up s n : up s n → ∃ s', stack (yield_now n) = Some s' ∧ clock n < ticks s' ∧ sent s' = sent s.
Proof.
  intros (s1 & Hs & _ & He). exists (yield_to_main s1). unfold yield_now, clock. rewrite Hs.
  destruct (yield_law s1) as [Ht Hy]. split; [done|]. split; [done|congruence].
Qed.

Lemma tcp_send_some_ok data n s : stack n = Some s →
  ∃ s', (tcp_send_some data n).2 = set_stack s' n ∧ ticks s ≤ ticks s' ∧
  match (tcp_send_some data n).1 with
  | Ok k => 0 ≤ k ≤ len data ∧ sent s' = sent s ++ take (Z.to_nat k) data
  | Err _ => sent s' = sent s
  | Panic => False
  end.
Proof.
  intros Hs. unfold tcp_send_some, with_stack. rewrite Hs. destruct (tcp_may_send s); cbn [negb].
  - pose proof (send_slice_law data s) as Hl. destruct (tcp_send_slice data s) as [[k|] s']; exists s'; cbn [fst snd];
      (split; [done|]); destruct Hl as [Ht Hl]; by split.
  - exists s. by repeat split.
Qed.

Lemma tcp_send_loop_ok deadline fuel : ∀ data n s,
  stack n = Some s → 0 < Z.of_nat fuel → deadline - ticks s + 1 < Z.of_nat fuel →
  ∃ r n' s' k, tcp_send_loop fuel deadline data n = Some (r, n') ∧ stack n' = Some s' ∧
    sent s' = sent s ++ take k data ∧ r ≠ Panic ∧ (r = Ok tt → (length data ≤ k)%nat).
Proof.
  induction fuel as [|fuel IH]; intros data n s Hs Hd Hf; cbn [tcp_send_loop]; case_bool_decide as He.
  1, 3: exists (Ok tt), n, s, O; subst; rewrite app_nil_r; by repeat split.
  - lia.
  - destruct (tcp_send_some_ok data n s Hs) as (s1 & Hn1 & Ht1 & Hr). destruct (tcp_send_some data n) as [r n1]. cbn [fst snd] in *. subst n1.
    destruct r as [k|e|]; [|exists (Err e), (set_stack s1 n), s1, O; rewrite app_nil_r; by repeat split|done].
    destruct Hr as [Hk Hsent]. destruct (poll_up s1 (set_stack s1 n)) as (s2 & Hs2 & Ht2 & He2); [by apply up_stack|].
    assert (clock (net_poll (set_stack s1 n)) = ticks s2) as Hc by (unfold clock; by rewrite Hs2).
    case_bool_decide as Hlast.
    { exists (Ok tt), (net_poll (set_stack s1 n)), s2, (Z.to_nat k). split; [done|]. split; [done|]. split; [congruence|]. split; [done|].
      intros _. apply (f_equal length) in Hlast. rewrite length_drop in Hlast. cbn in Hlast. lia. }
    destruct (Z.ltb_spec deadline (clock (net_poll (set_stack s1 n)))) as [Hlate|Htime].
    { eexists (Err _), _, s2, (Z.to_nat k). split; [done|]. split; [done|]. split; [congruence|]. by split. }
    destruct (yield_up s2 (net_poll (set_stack s1 n))) as (s3 & Hs3 & Ht3 & He3); [by exists s2|]. rewrite Hc in *.
    destruct (IH (drop (Z.to_nat k) data) (yield_now (net_poll (set_stack s1 n))) s3 Hs3) as (r & n' & s' & k' & -> & Hs' & Hsent' & Hp & Hok).
    { lia. }
    { lia. }
    exists r, n', s', (Z.to_nat k + k')%nat. split; [done|]. split; [done|]. split.
    + rewrite Hsent', He3, He2, Hsent, <-app_assoc. f_equal. apply take_take_drop.
    + split; [done|]. intros Hr. specialize (Hok Hr). rewrite length_drop in Hok. lia.
Qed.

(** ** Waiting *)

Lemma dhcp_wait_ends deadline gen fuel : ∀ n s, stack n = Some s → deadline - ticks s < Z.of_nat fuel →
  ∃ r n', dhcp_wait fuel deadline gen n = Some (r, n') ∧ up s n' ∧ r ≠ Panic.
Proof.
  induction fuel as [|fuel IH]; intros n s Hs Hf; cbn [dhcp_wait]; assert (clock n = ticks s) as -> by (unfold clock; by rewrite Hs).
  - rewrite (proj2 (Z.leb_le _ _)) by lia. eexists _, n. split; [done|]. split; [by apply up_stack|done].
  - destruct (Z.leb_spec deadline (ticks s)); [eexists _, n; split; [done|]; split; [by apply up_stack|done]|].
    pose proof (poll_up s n (up_stack n s Hs)) as Hup.
    destruct (negb _); [eexists _, _; split; [done|]; split; [done|done]|].
    destruct (yield_up s _ Hup) as (s2 & Hs2 & Ht2 & He2). pose proof (up_clock _ _ Hup).
    destruct (IH _ s2 Hs2) as (r & n' & -> & (s3 & Hs3 & Ha3) & Hp); [lia|]. exists r, n'. split; [done|]. split; [|done].
    exists s3. split; [done|]. destruct Ha3 as [Ht3 He3]. split; [lia|congruence].
Qed.

Lemma dns_wait_ends deadline q fuel : ∀ n s, stack n = Some s → 0 < Z.of_nat fuel → deadline - ticks s + 1 < Z.of_nat fuel →
  ∃ r n', dns_wait fuel deadline q n = Some (r, n') ∧ r ≠ Panic.
Proof using All.
  induction fuel as [|fuel IH]; intros n s Hs Hpos Hf; cbn [dns_wait]; [lia|].
  destruct (poll_up s n (up_stack n s Hs)) as (s1 & Hs1 & Ha1). unfold with_stack. rewrite Hs1.
  pose proof (dns_result_law q s1) as Hq. destruct (dns_result q s1) as [a s2]. cbn [snd] in Hq.
  destruct a as [|[|a l]|]; [|by eexists _, _..].
  assert (clock (set_stack s2 (net_poll n)) = ticks s2) as -> by done.
  destruct (Z.leb_spec deadline (ticks s2)); [by eexists _, _|].
  destruct (yield_up s2 (set_stack s2 (net_poll n))) as (s3 & Hs3 & Ht3 & _); [by apply up_stack|].
  assert (clock (set_stack s2 (net_poll n)) = ticks s2) as Hc by done. rewrite Hc in Ht3.
  destruct Ha1 as [Ht1 _], Hq as [Ht2 _]. apply (IH _ s3 Hs3); lia.
Qed.

(** the network functions give up in time.  With the stack up and a clock that
    every yield moves, [tcp_send], [dhcp_configure] and [dns_resolve_a] return after
    at most as many rounds as their deadlines have ticks, and never panic; [tcp_send]
    hands the socket a prefix of the data, in order and without a gap, the whole of
    it when it reports success. *)
Theorem network_deadlines fuel n s data host :
  stack n = Some s → 10001 < Z.of_nat fuel →
  (∃ r n' s' k, tcp_send fuel data n = Some (r, n') ∧ stack n' = Some s' ∧ sent s' = sent s ++ take k data ∧
     r ≠ Panic ∧ (r = Ok tt → (length data ≤ k)%nat)) ∧
  (∃ r n', dhcp_configure fuel n = Some (r, n') ∧ r ≠ Panic) ∧
  (∃ r n', dns_resolve_a fuel host n = Some (r, n') ∧ r ≠ Panic).
Proof.
  intros Hs Hf. assert (clock n = ticks s) as Hc by (unfold clock; by rewrite Hs). split; [|split].
  - unfold tcp_send. rewrite Hc. destruct (tcp_send_loop_ok (ticks s + 10000) fuel data n s) as (r & n1 & s1 & k & -> & Hs1 & Hsent & Hp & Hok);
      [done|lia..|]. destruct r as [[]|e|]; [|by exists (Err e), n1, s1, k|done].
    destruct (poll_up s1 n1 (up_stack n1 s1 Hs1)) as (s2 & Hs2 & _ & He2). exists (Ok tt), (net_poll n1), s2, k.
    split; [done|]. split; [done|]. split; [congruence|]. by split.
  - unfold dhcp_configure, with_stack. rewrite Hs.
    destruct (dhcp_wait_ends (clock (set_stack (dhcp_reset s) n) + 8000) (dhcp_gen n) fuel (set_stack (dhcp_reset s) n) (dhcp_reset s))
      as (r & n' & -> & _ & Hp); [done|unfold clock; cbn; lia|]. by exists r, n'.
  - unfold dns_resolve_a. destruct (_ || _); [by eexists _, _|]. destruct (parse_ipv4_literal host); [by eexists _, _|].
    unfold with_stack. rewrite Hs. destruct (dns_start host s) as [[q|] s1]; [|by eexists _, _].
    destruct (dns_wait_ends (clock (set_stack s1 n) + 8000) q fuel (set_stack s1 n) s1) as (r & n' & -> & Hp);
      [done|lia|unfold clock; cbn; lia|]. by exists r, n'.
Qed.

End Waits.

(** Local ports stay in the dynamic range as the sequence goes round. *)
Lemma next_port_range seq : 0 ≤ seq < 2 ^ 16 →
  49152 ≤ (next_port seq).1 < 2 ^ 16 ∧ 0 ≤ (next_port seq).2 < 2 ^ 16.
Proof.
  intros Hs. unfold next_port. destruct (Z.ltb_spec seq 49152); cbn [fst snd]; [lia|]. unfold u16, wrap.
  pose proof (Z.mod_pos_bound (seq + 1) (2 ^ 16)). lia.
Qed.

(** ** A toy crate: the socket takes ten bytes at a time *)

Module NetExample.

Record Toy : Type := mkToy { toy_ticks : Z; toy_sent : list Z }.

#[export] Instance toy_smoltcp : Smoltcp Toy := {
  ticks := toy_ticks;
  yield_to_main s := mkToy (toy_ticks s + 1) (toy_sent s);
  iface_poll s := s;
  update_ip_addrs _ _ s := s;
  set_default_route _ s := s;
  update_servers _ s := s;
  dhcp_poll s := (None, s);
  dhcp_reset s := s;
  icmp_can_recv _ := false;
  icmp_recv s := (None, s);
  icmp_can_send _ := true;
  icmp_send _ _ s := (true, s);
  tcp_open _ := true;
  tcp_abort s := s;
  tcp_start _ _ _ s := (true, s);
  tcp_may_recv _ := true;
  tcp_recv_queue _ := 0;
  tcp_may_send _ := true;
  tcp_send_slice data s := (Some (len (take 10 data)), mkToy (toy_ticks s) (toy_sent s ++ take 10 data));
  tcp_can_recv _ := false;
  tcp_recv_slice _ s := (None, s);
  tcp_shut s := s;
  udp_close s := s;
  udp_bind _ s := (true, s);
  udp_send_slice _ _ _ s := (true, s);
  udp_recv_from s := (None, s);
  dns_start _ s := (Some 0, s);
  dns_result _ s := (Pending, s);
  dns_cancel _ s := s;
}.

#[export] Instance toy_laws : SmoltcpLaws Toy.
Proof.
  refine (Build_SmoltcpLaws Toy _ toy_sent _ _ _ _ _ _ _ _ _ _ _); cbn; intros; try (split; [lia|done]).
  split; [lia|]. split.
  - unfold len. rewrite length_take. lia.
  - f_equal. unfold len. rewrite Nat2Z.id, length_take. destruct (decide (length data ≤ 10)%nat).
    + by rewrite !take_ge by lia.
    + by replace (10 `min` length data)%nat with 10%nat by lia.
Defined.

Definition net1 : Net Toy := mkNetState NetConfig_default (Some (mkToy 0 [])) 0 0 0 0 1 49152.

Lemma network_deadlines_witness :
  ∃ n', tcp_send (Z.to_nat 10002) (replicate 25 7) net1 = Some (Ok tt, n') ∧ ∃ s', stack n' = Some s' ∧ toy_sent s' = replicate 25 7.
Proof.
  destruct (network_deadlines (Z.to_nat 10002) net1 (mkToy 0 []) (replicate 25 7) [] eq_refl ltac:(lia)) as ((r & n' & s' & k & E & Hs & Hsent & _ & Hok) & _).
  assert (tcp_send (Z.to_nat 10002) (replicate 25 7) net1 = Some (Ok tt, set_stack (mkToy 2 (replicate 25 7)) net1)) as E2 by (vm_compute; reflexivity).
  rewrite E2 in E. injection E as <- <-. eexists. split; [exact E2|]. exists s'. split; [exact Hs|].
  etransitivity; [exact Hsent|]. cbn [app sent toy_laws]. apply take_ge. apply (Hok eq_refl).
Defined.

End NetExample.
