(* ===== verification/NetDevice.v ===== *)
(** * The card and the stack together: [CottonDevice], [NetStack::new] and [init] of
      [drivers/network.rs]

    The smoltcp crate drives the card through [CottonDevice]: the card hands out the
    frames of its ring, and a token takes a frame to send.  [NetStack::new] builds the
    interface with its sockets, the constructors of the crate being the class
    [SmoltcpNew]; [init] does both and is the only writer of [RTL8139] and [STACK].  A
    card that follows [TransmitRing] puts the frames on the wire in their order, short
    ones padded ([transmit_fifo]); the tokens of the stack reach the card
    ([token_sends], [token_receives]); after [init] there is a stack exactly when there
    is a card, and it is the one the card's address and the configuration determine
    ([net_init_spec]).  The lines printed are left out. *)

From S2P Require Import Prelude Bytes Physical Ports Rtl8139 NetStack.
From S2P Require Rtl8139Spec NetStackSpec.

(** ** [CottonDevice] *)

(** [RTL8139] with the counters and the devices. *)
Record NetCard (W : Type) : Type := mkCard { has_card : bool; card : NetDriver W }.
Arguments mkCard {W}. Arguments has_card {W}. Arguments card {W}.

Record DeviceCapabilities : Type := mkCaps { ethernet : bool; max_transmission_unit : Z; max_burst_size : option Z }.

Definition capabilities : DeviceCapabilities := mkCaps true 1514 (Some 4).

(** The token of a received frame holds the frame. *)
Definition rx_consume {R : Type} (frame : list Z) (f : list Z → R) : R := f frame.

Section Device.
Context {W : Type} `{PortIO W, Dma W}.

Definition device_receive (c : NetCard W) : option (list Z) * NetCard W :=
  if has_card c then let '(frame, d) := recv_frame (card c) in (frame, mkCard true d) else (None, c).

(** Is there a token? *)
Definition device_transmit (c : NetCard W) : bool := has_card c.

(** [f] fills the buffer; an error of the card is dropped. *)
Definition tx_consume {R : Type} (len : Z) (f : list Z → R * list Z) (c : NetCard W) : R * NetCard W :=
  let '(result, buf) := f (zeros len) in
  (result, if has_card c then mkCard true (send_frame buf (card c)).2 else c).

Definition is_available (c : NetCard W) : bool := has_card c.

Definition mac (c : NetCard W) : option (list Z) := if has_card c then Some (Rtl8139.mac (nic (card c))) else None.

End Device.

(** ** [NetStack::new] *)

Class SmoltcpNew (S : Type) : Type := {
  iface_new : list Z → Z → S;
  push_ip_addr : list Z → Z → S → S;
  add_default_route : list Z → S → S;
  add_tcp : Z → Z → bool → S → S;
  add_udp : Z → Z → Z → Z → S → S;
  add_dns : list (list Z) → Z → S → S;
  add_dhcp : S → S;
  add_icmp : Z → Z → Z → Z → Z → S → S;
}.

Definition PING_IDENT : Z := 0xC077.

Definition random_seed (ticks : Z) (mac : list Z) : Z :=
  let seed := Z.lxor (Z.lxor ticks (Z.shiftl (default 0 (mac !! 5%nat)) 40)) 0x9e3779b97f4a7c15 in
  if seed =? 0 then 1 else seed.

Section Stack.
Context {S : Type} `{SmoltcpNew S}.

Definition NetStack_new (ticks : Z) (mac : list Z) (cfg : NetConfig) : S :=
  let s := iface_new mac (random_seed ticks mac) in
  let s := push_ip_addr (NetStack.ip cfg) (prefix_len (NetStack.netmask cfg)) s in
  let s := add_default_route (NetStack.gateway cfg) s in
  let s := add_tcp 65536 16384 false s in
  let s := add_udp 8 8192 8 8192 s in
  let s := add_dns [NetStack.dns cfg] 4 s in
  let s := add_dhcp s in
  add_icmp 8 4096 8 4096 PING_IDENT s.

Definition ip (n : Net S) : list Z := NetStack.ip (config n).
Definition netmask (n : Net S) : list Z := NetStack.netmask (config n).
Definition gateway (n : Net S) : list Z := NetStack.gateway (config n).
Definition dns_server (n : Net S) : list Z := NetStack.dns (config n).

Context {W : Type} `{PortIO W, Dma W}.

Definition stats (c : NetCard W) (n : Net S) : Z * Z * Z * Z * Z * Z :=
  (rx_packets (card c), tx_packets (card c), rx_errors (card c), tx_errors (card c), icmp_echo_rx n, icmp_echo_tx n).

(** ** [init] *)

Definition net_init (ticks : Z) (c : NetCard W) (fa : FrameAllocator) (n : Net S) : NetCard W * FrameAllocator * Net S :=
  match nic_init (net_world (card c), fa) with
  | (Ok driver, (w, fa)) =>
      (mkCard true (set_nic driver (Rtl8139.set_world w (card c))), fa,
       mkNetState (config n) (Some (NetStack_new ticks (Rtl8139.mac driver) (config n))) 0 (dhcp_gen n) (icmp_echo_rx n)
         (icmp_echo_tx n) (ping_seq n) (tcp_src_port_seq n))
  | (_, (w, fa)) => (mkCard (has_card c) (Rtl8139.set_world w (card c)), fa, n)
  end.

End Stack.

(** ** Sending *)

(** Four descriptors, each with a buffer; [taken] looks until a descriptor is free; a
    write of its status sends that many bytes of its buffer. *)
Class TransmitRing (W : Type) `{PortIO W, Dma W} (io : Z) (buffers : list Z) : Type := {
  wire : W → list (list Z);
  taken : Z → W → nat;
  tx_status i w : 0 ≤ i < 4 →
    let '(v, w') := inl (io + (REG_TSD0 + i * 4)) w in
    wire w' = wire w ∧ taken i w' = pred (taken i w) ∧ set_bits v TSD_OWN = (taken i w =? 0)%nat;
  tx_store a b w : wire (dma_write a b w) = wire w;
  tx_stored a b x w : dma_read x (dma_write a b w) = if x =? a then b else dma_read x w;
  tx_send i n w : 0 ≤ i < 4 → taken i w = 0%nat →
    wire (outl (io + (REG_TSD0 + i * 4)) n w) = wire w ++ [dma_load (default 0 (buffers !! Z.to_nat i)) n w];
}.

Section Transmit.
Context {W : Type} `{PortIO W, Dma W} (io : Z) (buffers : list Z) `{!TransmitRing W io buffers}.
Hypothesis in_time : ∀ i w, Z.of_nat (taken i w) < 200000.
Hypothesis store_keeps : ∀ i a b w, taken i w = 0%nat → taken i (dma_write a b w) = 0%nat.

(** The driver's view of the card. *)
Record tx_ok (s : NetDriver W) : Prop := mk_tx_ok {
  tx_io : io_base (nic s) = io;
  tx_bufs : tx_buffers_phys (nic s) = buffers;
  tx_range : 0 ≤ tx_cur (nic s) < 4;
}.

(** A short frame is padded with zeros. *)
Definition padded (frame : list Z) : list Z := frame ++ zeros (60 - len frame).

Lemma dma_store_wire bs addr (w : W) : wire (dma_store addr bs w) = wire w.
Proof using Type. revert addr w. induction bs as [|b bs IH]; intros addr w; [done|]. cbn [dma_store]. by rewrite IH, tx_store. Qed.

Lemma dma_store_taken i bs addr (w : W) : taken i w = 0%nat → taken i (dma_store addr bs w) = 0%nat.
Proof using store_keeps. revert addr w. induction bs as [|b bs IH]; intros addr w Hw; [done|]. by apply IH, store_keeps. Qed.

Lemma len_cons {A} (a : A) l : len (a :: l) = 1 + len l.
Proof using Type. unfold len. cbn. lia. Qed.

Lemma dma_store_read bs addr x (w : W) :
  dma_read x (dma_store addr bs w) = if (addr <=? x) && (x <? addr + len bs) then default 0 (bs !! Z.to_nat (x - addr)) else dma_read x w.
Proof using TransmitRing0.
  revert addr w. induction bs as [|b bs IH]; intros addr w; cbn [dma_store].
  - change (len (@nil Z)) with 0. rewrite Z.add_0_r. destruct (Z.leb_spec addr x), (Z.ltb_spec x addr); try done; lia.
  - rewrite IH, tx_stored, len_cons. pose proof (len_nonneg bs).
    destruct (Z.eqb_spec x addr) as [->|Hx].
    + rewrite Z.sub_diag. destruct (Z.leb_spec (addr + 1) addr), (Z.leb_spec addr addr), (Z.ltb_spec addr (addr + (1 + len bs)));
        try lia. done.
    + destruct (Z.leb_spec (addr + 1) x), (Z.ltb_spec x (addr + 1 + len bs)), (Z.leb_spec addr x),
        (Z.ltb_spec x (addr + (1 + len bs))); try lia; try done.
      cbn [andb]. by replace (Z.to_nat (x - addr)) with (S (Z.to_nat (x - (addr + 1)))) by lia.
Qed.

Lemma dma_load_store bs addr (w : W) : dma_load addr (len bs) (dma_store addr bs w) = bs.
Proof using TransmitRing0.
  apply list_eq. intros k. unfold dma_load. rewrite list_lookup_fmap. unfold len. destruct (decide (k < length bs)%nat) as [Hk|Hk].
  - rewrite lookup_seqZ_lt by lia. cbn [fmap option_fmap option_map]. rewrite Z.add_0_l, dma_store_read. unfold len.
    destruct (Z.leb_spec addr (addr + Z.of_nat k)), (Z.ltb_spec (addr + Z.of_nat k) (addr + Z.of_nat (length bs))); try lia.
    cbn [andb]. replace (Z.to_nat (addr + Z.of_nat k - addr)) with k by lia.
    by destruct (lookup_lt_is_Some_2 bs k Hk) as [b ->].
  - rewrite lookup_seqZ_ge by lia. cbn. symmetry. apply lookup_ge_None_2. lia.
Qed.

Lemma dma_store_app a b addr (w : W) : dma_store (addr + len a) b (dma_store addr a w) = dma_store addr (a ++ b) w.
Proof using Type.
  revert addr w. induction a as [|x a IH]; intros addr w; cbn [dma_store app].
  - f_equal. unfold len. cbn. lia.
  - rewrite <- IH, len_cons. f_equal. lia.
Qed.

(** A frame goes out on the next descriptor. *)
Lemma send_frame_spec (s : NetDriver W) frame : tx_ok s → len frame ≤ 1792 →
  ∃ s', send_frame frame s = (Ok tt, s') ∧ tx_ok s' ∧ wire (net_world s') = wire (net_world s) ++ [padded frame] ∧
    tx_packets s' = u64 (tx_packets s + 1) ∧ tx_cur (nic s') = (tx_cur (nic s) + 1) mod 4.
Proof using in_time store_keeps.
  intros [Hio Hb Hr] Hl. unfold send_frame. destruct (Z.ltb_spec 1792 (len frame)); [lia|]. rewrite Hio, Hb.
  rewrite (Z.mod_small (tx_cur (nic s))) by lia. set (i := tx_cur (nic s)) in *.
  destruct (wait_ends (inl (io + (REG_TSD0 + i * 4))) own (taken i) (λ w, wire w = wire (net_world s)) 200000 (net_world s))
    as (r & w & E & Hw & Ht); [|done|apply in_time|].
  { intros w Hw. pose proof (tx_status i w Hr) as Hs. destruct (inl _ w) as [v w1]. destruct Hs as (Hw1 & Ht1 & Ho).
    split; [congruence|]. split; [done|]. unfold own. rewrite Ho. destruct (Nat.eqb_spec (taken i w) 0) as [->|]; [done|].
    split; [done|by intros []]. }
  rewrite E. set (addr := default 0 (buffers !! Z.to_nat i)).
  assert (∃ w', (if len frame <? 60 then (60, dma_store (addr + len frame) (zeros (60 - len frame)) (dma_store addr frame w))
    else (len frame, dma_store addr frame w)) = (len (padded frame), w') ∧ w' = dma_store addr (padded frame) w) as (w' & -> & ->).
  { unfold padded. destruct (Z.ltb_spec (len frame) 60).
    - eexists. rewrite dma_store_app. split; [|done]. f_equal. rewrite len_app, len_zeros by lia. lia.
    - eexists. unfold zeros. replace (Z.to_nat (60 - len frame)) with O by lia. cbn. rewrite app_nil_r. done. }
  eexists. split; [reflexivity|]. cbn. split_and!; [|rewrite tx_send|done..].
  - constructor; cbn; [done..|]. apply Z.mod_pos_bound. lia.
  - fold addr. by rewrite dma_load_store, dma_store_wire, Hw.
  - done.
  - by apply dma_store_taken.
Qed.

(** Frames given one after another are on the wire in that order. *)
Theorem transmit_fifo frames : ∀ s : NetDriver W, tx_ok s → Forall (λ f, len f ≤ 1792) frames →
  let s' := foldl (λ s f, (send_frame f s).2) s frames in
  tx_ok s' ∧ wire (net_world s') = wire (net_world s) ++ map padded frames.
Proof using in_time store_keeps.
  induction frames as [|f fs IH]; intros s Hok Hf; cbn; [by rewrite app_nil_r|]. inversion_clear Hf as [|?? H1 H2].
  destruct (send_frame_spec s f Hok H1) as (s' & -> & Hok' & Hw & _ & _). cbn. destruct (IH s' Hok' H2) as [Ho ->].
  split; [done|]. by rewrite Hw, <- app_assoc.
Qed.

(** What the token is given to fill goes on the wire, when it is within the size that
    [capabilities] tells the stack. *)
Theorem token_sends {R} n (f : list Z → R * list Z) (c : NetCard W) : has_card c = true → tx_ok (card c) →
  len (f (zeros n)).2 = n → n ≤ max_transmission_unit capabilities →
  (tx_consume n f c).1 = (f (zeros n)).1 ∧ has_card (tx_consume n f c).2 = true ∧ tx_ok (card (tx_consume n f c).2) ∧
  wire (net_world (card (tx_consume n f c).2)) = wire (net_world (card c)) ++ [padded (f (zeros n)).2].
Proof using in_time store_keeps.
  intros Hc Hok Hlen Hn. unfold tx_consume. rewrite Hc. destruct (f (zeros n)) as [r buf]. cbn in *.
  destruct (send_frame_spec (card c) buf Hok ltac:(lia)) as (s' & -> & Hok' & Hw & _). done.
Qed.

End Transmit.

(** ** Receiving *)

(** The token holds the first frame of the ring, which leaves it; without one there is
    no token, and the ring is empty. *)
Theorem token_receives {W} `{PortIO W, Dma W} io ring `{!Rtl8139Spec.ReceiveRing W io ring} (c : NetCard W) :
  has_card c = true → Rtl8139Spec.ring_ok io ring (card c) →
  ∃ arrived, let '(token, c') := device_receive c in
    Rtl8139Spec.ring_ok io ring (card c') ∧ has_card c' = true ∧
    match token with
    | Some frame =>
        Rtl8139Spec.pending (io := io) (ring := ring) (net_world (card c)) ++ arrived =
          rx_consume frame id :: Rtl8139Spec.pending (io := io) (ring := ring) (net_world (card c'))
    | None => Rtl8139Spec.pending (io := io) (ring := ring) (net_world (card c)) = []
    end.
Proof.
  intros Hc Hok. unfold device_receive. rewrite Hc. destruct (Rtl8139Spec.recv_frame_ok io ring (card c) Hok) as [arrived Hr].
  exists arrived. destruct (recv_frame (card c)) as [[frame|] d]; destruct Hr as (Hd & _ & Hr); split_and!; try done; by destruct Hr.
Qed.

(** ** Starting *)

Lemma random_seed_range ticks mac : 0 ≤ ticks < 2 ^ 64 → 0 ≤ default 0 (mac !! 5%nat) < 256 → 0 < random_seed ticks mac < 2 ^ 64.
Proof.
  intros Ht Hm. unfold random_seed. set (m := default 0 (mac !! 5%nat)) in *.
  assert (0 ≤ Z.lxor (Z.lxor ticks (Z.shiftl m 40)) 0x9e3779b97f4a7c15 < 2 ^ 64) as Hr.
  { apply lxor_range; [|lia]. apply lxor_range; [lia|]. rewrite Z.shiftl_mul_pow2 by lia. lia. }
  destruct (Z.eqb_spec (Z.lxor (Z.lxor ticks (Z.shiftl m 40)) 0x9e3779b97f4a7c15) 0); lia.
Qed.

(** The interface is up exactly with the card. *)
Definition consistent {S W} (c : NetCard W) (n : Net S) : Prop := has_card c = true ↔ is_Some (stack n).

Theorem net_init_spec {S W} `{SmoltcpNew S, PortIO W, Dma W} ticks (c : NetCard W) fa (n : Net S) :
  has_card c = false → stack n = None →
  let '(c', fa', n') := net_init ticks c fa n in
  consistent c' n' ∧ config n' = config n ∧
  match nic_init (net_world (card c), fa) with
  | (Ok driver, (w, fa1)) =>
      fa' = fa1 ∧ mac c' = Some (Rtl8139.mac driver) ∧ net_world (card c') = w ∧
      stack n' = Some (NetStack_new ticks (Rtl8139.mac driver) (config n))
  | (_, (w, fa1)) => fa' = fa1 ∧ mac c' = None ∧ net_world (card c') = w ∧ n' = n
  end.
Proof.
  intros Hc Hs. unfold net_init, consistent. destruct (nic_init (net_world (card c), fa)) as [[driver|e|] [w fa1]]; cbn.
  all: rewrite ?Hc, ?Hs; split_and!; try done; unfold mac; cbn; by rewrite ?Hc.
Qed.

(** ** A simulated card with descriptors *)

Module DeviceExample.

Record SimTx : Type := mkSimTx { memory : gmap Z Z; out : list (list Z) }.

Definition tx_buffers : list Z := [0x10000; 0x11000; 0x12000; 0x13000].

#[export] Instance sim_tx_dma : Dma SimTx := {
  dma_read a w := default 0 (memory w !! a);
  dma_write a b w := mkSimTx (<[a := b]> (memory w)) (out w);
}.

Definition sim_load (a n : Z) (w : SimTx) : list Z := map (λ i, default 0 (memory w !! (a + i))) (seqZ 0 n).

#[export] Instance sim_tx_ports : PortIO SimTx := {
  inb _ w := (0, w); inw _ w := (0, w);
  inl _ w := (TSD_OWN, w);
  outb _ _ w := w; outw _ _ w := w;
  outl p n w :=
    if (REG_TSD0 <=? p) && (p <? REG_TSD0 + 16)
    then mkSimTx (memory w) (out w ++ [sim_load (default 0 (tx_buffers !! Z.to_nat ((p - REG_TSD0) / 4))) n w]) else w;
}.

#[export] Instance sim_transmit_ring : TransmitRing SimTx 0 tx_buffers.
Proof.
  refine {| wire := out; taken := λ _ _, 0%nat |}.
  - intros i w Hi. cbn. done.
  - done.
  - intros a b x w. cbn. destruct (Z.eqb_spec x a) as [->|Hx]; [by rewrite lookup_insert_eq|by rewrite lookup_insert_ne].
  - intros i n w Hi _. unfold outl, sim_tx_ports. rewrite (proj2 (Z.leb_le _ _)), (proj2 (Z.ltb_lt _ _)) by (unfold REG_TSD0; lia).
    unfold andb. replace ((0 + (REG_TSD0 + i * 4) - REG_TSD0) / 4) with i by (unfold REG_TSD0; zdiv). done.
Defined.

Definition card0 : NetCard SimTx := mkCard true (mkNet (mkNic 0 11 (zeros 6) 0 0 tx_buffers 3) 0 0 0 0 (mkSimTx ∅ [])).

(** Two frames through the tokens: the first is padded. *)
Example two_frames :
  let c := (tx_consume 2 (λ buf, (tt, [1; 2])) card0).2 in
  let c := (tx_consume 64 (λ buf, (len buf, replicate 64 7)) c).2 in
  out (net_world (card c)) = [[1; 2] ++ zeros 58; replicate 64 7] ∧ tx_packets (card c) = 2.
Proof. by vm_compute. Qed.

Lemma card0_ok : tx_ok 0 tx_buffers (card card0).
Proof. constructor; [done..|]. cbn. lia. Qed.

Lemma transmit_fifo_witness :
  tx_ok 0 tx_buffers (card card0) ∧
  out (net_world (foldl (λ s f, (send_frame f s).2) (card card0) [[1; 2]; replicate 64 7])) = map padded [[1; 2]; replicate 64 7].
Proof.
  split; [exact card0_ok|].
  apply (@transmit_fifo SimTx sim_tx_ports sim_tx_dma 0 tx_buffers sim_transmit_ring (λ _ _, eq_refl) (λ _ _ _ _ _, eq_refl) [[1; 2]; replicate 64 7] (card card0)); [exact card0_ok|].
  repeat constructor; unfold len; cbn; lia.
Defined.

End DeviceExample.
