(* ===== verification/Http.v ===== *)
(** * Fetching pages: [browser.rs], the requests, and [crypto/tls.rs]

    The requests over the interface of NetStack.v, with their loops and deadlines.
    The TLS connection is that of the embedded-tls crate, the class [Tls], which
    calls back the stream [KernelTcpStream]; the instructions [rdrand] and [cpuid] are
    arguments of the random numbers.  Every loop has a fuel, and a result of [None] is a loop
    that ran out of it.  The clock counts milliseconds and is taken not to reach 2^64. *)

From S2P Require Import Prelude Bytes Str NetStack Browser Html.

#[local] Notation "'b' s" := (bytes_of_string s) (at level 9, s at level 9, only parsing).

Definition crlf : list Z := [13; 10].

(** ** Computations that wait *)

(** A [Result] whose error is a text; or a panic. *)
Inductive Outcome (A : Type) : Type := Returns (a : A) | Fails (e : list Z) | Panics.
Arguments Returns {A} _.
Arguments Fails {A} _.
Arguments Panics {A}.

Definition Wait (S A : Type) : Type := Net S → option (Outcome A * Net S).

#[export] Instance Wait_ret {S} : MRet (Wait S) := λ _ a n, Some (Returns a, n).
#[export] Instance Wait_bind {S} : MBind (Wait S) := λ _ _ f m n,
  match m n with
  | Some (Returns a, n) => f a n
  | Some (Fails e, n) => Some (Fails e, n)
  | Some (Panics, n) => Some (Panics, n)
  | None => None
  end.

Definition w_fail {S A} (e : list Z) : Wait S A := λ n, Some (Fails e, n).
Definition w_modify {S} (f : Net S → Net S) : Wait S unit := λ n, Some (Returns tt, f n).
Definition w_read {S A} (f : Net S → A) : Wait S A := λ n, Some (Returns (f n), n).
Definition w_res {S A} (r : res A) : Wait S A := λ n,
  Some (match r with Ok a => Returns a | Err e => Fails (b e) | Panic => Panics end, n).

(** [f().map_err(|e| format!("{}{}", prefix, e))?] *)
Definition w_waits {S A} (prefix : list Z) (f : Net S → option (res A * Net S)) : Wait S A := λ n,
  match f n with
  | Some (Ok a, n) => Some (Returns a, n)
  | Some (Err e, n) => Some (Fails (prefix ++ b e), n)
  | Some (Panic, n) => Some (Panics, n)
  | None => None
  end.

Definition w_m {S A} (prefix : list Z) (m : M (Net S) A) : Wait S A := w_waits prefix (λ n, Some (m n)).

(** The [Result] itself. *)
Definition w_try {S A} (m : Wait S A) : Wait S (A + list Z) := λ n,
  match m n with
  | Some (Returns a, n) => Some (Returns (inl a), n)
  | Some (Fails e, n) => Some (Returns (inr e), n)
  | Some (Panics, n) => Some (Panics, n)
  | None => None
  end.

(** [let _ = m;] *)
Definition w_ignore {S A} (m : Wait S A) : Wait S unit := w_try m;; mret tt.

Section Http.

Context {S : Type} `{Smoltcp S}.

(** ** The connection *)

(** How a loop rests: the fetch yields, the shell halts. *)
Implicit Types (rest : Net S → Net S).

(** [while !tcp_is_connected() && ticks() - start < limit], with [polls] polls a turn. *)
Fixpoint poll_connected (polls : nat) (n : Net S) : Net S :=
  match polls with
  | O => n
  | Datatypes.S polls => let n := net_poll n in if tcp_is_connected n then n else poll_connected polls n
  end.

Fixpoint connect_wait (fuel polls : nat) rest (start limit : Z) (n : Net S) : option (Net S) :=
  if negb (tcp_is_connected n) && (clock n - start <? limit) then
    match fuel with
    | O => None
    | Datatypes.S fuel => connect_wait fuel polls rest start limit (rest (poll_connected polls n))
    end
  else Some n.

(** After [tcp_connect]: wait, and close the socket when it does not come up. *)
Definition w_connected (fuel polls : nat) rest (limit : Z) (timeout : list Z) : Wait S unit := λ n,
  match connect_wait fuel polls rest (clock n) limit n with
  | Some n =>
      if tcp_is_connected n then Some (Returns tt, n) else (w_ignore (w_m [] tcp_close);; w_fail timeout) n
  | None => None
  end.

(** *** The response *)

Record Response : Type := mkResponse { body : list Z; last_data : Z; saw_data : bool }.

Definition MAX_RESPONSE : Z := 65536.

(** One read, when there are data. *)
Definition receive (r : Response) (n : Net S) : bool * Response * Net S :=
  let '(got, n) := tcp_read n in
  match got with
  | Some bs => (true, mkResponse (body r ++ from_utf8_lossy bs) (clock n) true, n)
  | None => (false, r, n)
  end.

(** Until [limit] ticks are over, the text is long enough, the connection is closed,
    or no data came for [idle] ticks. *)
Fixpoint read_response (fuel : nat) rest (start limit idle : Z) (r : Response) (n : Net S) : option (list Z * Net S) :=
  if clock n - start <? limit then
    match fuel with
    | O => None
    | Datatypes.S fuel =>
        let '(got, r, n) := receive r (net_poll n) in
        if got && (MAX_RESPONSE <=? len (body r)) then Some (body r, n)
        else if negb (tcp_is_connected n) then Some (body r, n)
        else if saw_data r && (idle <? clock n - last_data r) then Some (body r, n)
        else read_response fuel rest start limit idle r (rest n)
    end
  else Some (body r, n).

(** The response, after which the connection is closed. *)
Definition w_response (fuel : nat) rest (limit idle : Z) (none : list Z) : Wait S (list Z) :=
  out ← (λ n, match read_response fuel rest (clock n) limit idle (mkResponse [] (clock n) false) n with
              | Some (out, n) => Some (Returns out, n)
              | None => None
              end);
  w_ignore (w_m [] tcp_close);;
  if bool_decide (out = []) then w_fail none else mret out.

Definition get_request (path host headers : list Z) : list Z :=
  b "GET " ++ path ++ b " HTTP/1.0" ++ crlf ++ b "Host: " ++ host ++ crlf ++ headers ++ crlf.

Definition user_agent (agent : list Z) : list Z := b "User-Agent: " ++ agent ++ crlf.

Definition browser_headers (accept : list Z) : list Z :=
  user_agent (b "CottonBrowser/0.1") ++ b "Accept: " ++ accept ++ crlf ++ b "Connection: close" ++ crlf.

(** ** The requests of the browser *)

(** [parse_ipv4(host).or_else(|| dns_resolve_a(host).ok()).ok_or_else(..)] *)
Definition w_host (fuel : nat) (host : list Z) : Wait S (list Z) :=
  match parse_ipv4 host with
  | Some a => mret a
  | None =>
      r ← w_try (w_waits [] (dns_resolve_a fuel host));
      match r with inl a => mret a | inr _ => w_fail (b "DNS resolve failed for " ++ host) end
  end.

(** The two [request_arp] whose results are dropped. *)
Definition w_arp : Wait S unit := w_modify (λ n, (request_arp (request_arp n).2).2).

Definition http_get_raw (fuel : nat) (host path : list Z) : Wait S (list Z) :=
  a ← w_host fuel host;
  w_arp;;
  w_m (b "TCP connect: ") (tcp_connect a 80);;
  w_connected fuel 1 yield_now 8000 (b "TCP connect timeout");;
  w_waits (b "TCP send: ") (tcp_send fuel (get_request path host (browser_headers (b "text/html"))));;
  w_response fuel yield_now 8000 800 (b "No response received").

(** ** TLS *)

(** *** [KernelTcpStream] *)

Definition stream_connect (fuel : nat) (a : list Z) : Wait S unit :=
  w_m [] (tcp_connect a 443);;
  w_connected fuel 8 yield_now 5000 [].

(** At most [k] polls, each with a read into the buffer. *)
Fixpoint poll_read (k : nat) (size : Z) (n : Net S) : list Z * Net S :=
  match k with
  | O => ([], n)
  | Datatypes.S k =>
      let '(got, n) := tcp_read_into size (net_poll n) in
      if bool_decide (got = []) then poll_read k size n else (got, n)
  end.

(** [read], whose error is a timeout. *)
Fixpoint stream_read (fuel : nat) (deadline size : Z) (n : Net S) : option (option (list Z) * Net S) :=
  if size =? 0 then Some (Some [], n)
  else
    let '(got, n) := poll_read 4 size n in
    if negb (bool_decide (got = [])) then Some (Some got, n)
    else if negb (tcp_is_connected n) then Some (Some [], n)
    else if deadline <=? clock n then Some (None, n)
    else
      match fuel with
      | O => None
      | Datatypes.S fuel => stream_read fuel deadline size (yield_now n)
      end.

(** [buf.chunks(1200)] *)
Fixpoint chunks (fuel size : nat) (l : list Z) : list (list Z) :=
  match fuel, l with
  | Datatypes.S fuel, _ :: _ => take size l :: chunks fuel size (drop size l)
  | _, _ => []
  end.

Fixpoint send_chunks (fuel : nat) (cs : list (list Z)) (sent : Z) : Wait S Z :=
  match cs with
  | [] => mret sent
  | c :: cs => w_waits [] (tcp_send fuel c);; send_chunks fuel cs (sent + len c)
  end.

Definition stream_write (fuel : nat) (buf : list Z) : Wait S Z :=
  if bool_decide (buf = []) then mret 0
  else
    connected ← w_read tcp_is_connected;
    if connected : bool then send_chunks fuel (chunks (length buf) 1200 buf) 0 else w_fail (b "disconnected").

Definition stream_shutdown : Wait S unit := w_ignore (w_m [] tcp_close).

End Http.

(** The connection of the crate over the stream: its operations give their results,
    with the error as it prints, and act on its state and on the interface.  They are
    given the deadline that the stream checks. *)
Class Tls (S C : Type) : Type := {
  tls_new : list Z → C;
  tls_open : Z → C → Wait S C;
  tls_write : Z → list Z → C → Wait S (Z * C);
  tls_flush : Z → C → Wait S C;
  tls_read : Z → Z → C → Wait S (list Z * C);
  tls_close : C → Wait S unit;
}.

Section Https.

Context {S C : Type} `{Smoltcp S, !Tls S C}.

(** [r.map_err(|e| format!("{}{}", prefix, e))?] *)
Definition w_context {A} (prefix : list Z) (m : Wait S A) : Wait S A :=
  r ← w_try m;
  match r with inl a => mret a | inr e => w_fail (prefix ++ e) end.

(** [while sent < req_bytes.len()]: a write that does not fail takes a byte at least. *)
Fixpoint tls_send (fuel : nat) (deadline : Z) (data : list Z) (c : C) : Wait S C :=
  if bool_decide (data = []) then mret c
  else
    match fuel with
    | O => λ _, None
    | Datatypes.S fuel =>
        r ← w_context (b "httpsget: tls write failed: ") (tls_write deadline data c);
        if r.1 =? 0 then w_fail (b "httpsget: tls write returned 0")
        else tls_send fuel deadline (drop (Z.to_nat r.1) data) r.2
    end.

(** Until the end of the stream, an error, or enough text; an error before any text
    is the error of the request. *)
Fixpoint tls_receive (fuel : nat) (deadline : Z) (out : list Z) (c : C) : Wait S (list Z * C) :=
  match fuel with
  | O => λ _, None
  | Datatypes.S fuel =>
      r ← w_try (tls_read deadline 2048 c);
      match r with
      | inl ([], c) => mret (out, c)
      | inl (bs, c) =>
          let out := out ++ from_utf8_lossy bs in
          if MAX_RESPONSE <=? len out then mret (out, c) else tls_receive fuel deadline out c
      | inr e => if bool_decide (out = []) then w_fail (b "httpsget: tls read failed: " ++ e) else mret (out, c)
      end
  end.

(** A failure of [open] closes the connection; those of [write] and [flush] do not. *)
Definition https_get (fuel : nat) (host a path : list Z) : Wait S (list Z) :=
  start ← w_read clock;
  let deadline := start + 30000 in
  connected ← w_try (stream_connect fuel a);
  match connected with
  | inr _ => w_fail (b "httpsget: tcp connect failed")
  | inl _ =>
      opened ← w_try (tls_open deadline (tls_new host));
      match opened with
      | inr e => stream_shutdown;; w_fail (b "httpsget: tls handshake failed: " ++ e)
      | inl c =>
          now ← w_read clock;
          let deadline := now + 15000 in
          let req := get_request path host (browser_headers (b "text/html,*/*")) in
          c ← tls_send (length req) deadline req c;
          c ← w_context (b "httpsget: tls flush failed: ") (tls_flush deadline c);
          r ← tls_receive fuel deadline [] c;
          w_ignore (tls_close r.2);;
          stream_shutdown;;
          if bool_decide (r.1 = []) then w_fail (b "httpsget: empty response") else mret r.1
      end
  end.

(** ** Pages *)

Definition fetch_raw (fuel : nat) (url : list Z) : Wait S (list Z) :=
  let '(use_https, host, path) := split_url url in
  if use_https : bool then
    a ← w_host fuel host;
    w_arp;;
    https_get fuel host a path
  else http_get_raw fuel host path.

Definition too_many : list Z := b "Too many redirects (site may require HTTPS)".

(** [turns] requests are left. *)
Fixpoint fetch_turns (turns fuel : nat) (current : list Z) : Wait S Document :=
  match turns with
  | O => w_fail too_many
  | Datatypes.S turns =>
      raw ← fetch_raw fuel current;
      match handle_response current raw with
      | Redirect next => fetch_turns turns fuel next
      | Stop => w_fail too_many
      | Rendered (Some r) => w_res r
      | Rendered None => λ _, None
      end
  end.

Definition fetch_and_render (fuel : nat) (url : list Z) : Wait S Document := fetch_turns 5 fuel url.

End Https.

(** ** Random numbers *)

Module KernelRng.

(** [RDRAND_SUPPORT] — 0 not asked yet, 1 there, 2 not there — with the processor. *)
Record Cpu (P : Type) : Type := mkCpu { RDRAND_SUPPORT : Z; chip : P }.
Arguments mkCpu {P}. Arguments RDRAND_SUPPORT {P}. Arguments chip {P}.

Section Instruction.

(** [ecx] of leaf 1 of [cpuid], and the instruction: a word and the carry flag. *)
Context {P : Type} (leaf1_ecx : P → Z) (rdrand_insn : P → Z * bool * P).

Definition cpu_has_rdrand (c : Cpu P) : bool * Cpu P :=
  if RDRAND_SUPPORT c =? 1 then (true, c)
  else if RDRAND_SUPPORT c =? 2 then (false, c)
  else let has := negb (Z.land (leaf1_ecx (chip c)) (Z.shiftl 1 30) =? 0) in
    (has, mkCpu (if has then 1 else 2) (chip c)).

Definition rdrand_u64 (c : Cpu P) : option Z * Cpu P :=
  let '(has, c) := cpu_has_rdrand c in
  if has then
    let '(value, carry, p) := rdrand_insn (chip c) in
    (if carry then Some value else None, mkCpu (RDRAND_SUPPORT c) p)
  else (None, c).

End Instruction.

Section Rng.

(** The processor: whether and what [rdrand_u64] gives, one answer after the other. *)
Context {P : Type} (rdrand : P → option Z * P).

Definition GOLDEN : Z := 0x9e3779b97f4a7c15.

Definition rng_new (ticks rx tx rx_err tx_err : Z) (p : P) : Z * P :=
  let seed := Z.lxor (Z.lxor (Z.lxor (Z.lxor ticks (u64 (Z.shiftl rx 13))) (u64 (Z.shiftl tx 7))) (u64 (Z.shiftl rx_err 3))) tx_err in
  let '(v, p) := rdrand p in
  let seed := match v with Some v => Z.lxor seed v | None => seed end in
  (if seed =? 0 then GOLDEN else seed, p).

Definition rotate_left (v k : Z) : Z := Z.lor (u64 (Z.shiftl v k)) (Z.shiftr v (64 - k)).

Definition xorshift (x : Z) : Z :=
  let x := Z.lxor x (u64 (Z.shiftl x 13)) in
  let x := Z.lxor x (Z.shiftr x 7) in
  Z.lxor x (u64 (Z.shiftl x 17)).

(** The word and the next state. *)
Definition next_word (state : Z) (p : P) : Z * Z * P :=
  match rdrand p with
  | (Some v, p) => (v, Z.lxor state (rotate_left v 17), p)
  | (None, p) => (xorshift state, xorshift state, p)
  end.

Definition next_u32 (state : Z) (p : P) : Z * Z * P := let '(w, state, p) := next_word state p in (u32 w, state, p).

(** [fill_bytes] of [n] bytes. *)
Fixpoint fill_bytes (fuel : nat) (n : nat) (state : Z) (p : P) : list Z * Z * P :=
  match fuel, n with
  | Datatypes.S fuel, Datatypes.S _ =>
      let '(w, state, p) := next_word state p in
      let '(bs, state, p) := fill_bytes fuel (n - 8) state p in
      (take n (le 8 w) ++ bs, state, p)
  | _, _ => ([], state, p)
  end.

Definition try_fill_bytes (fuel n : nat) (state : Z) (p : P) : res unit * list Z * Z * P :=
  let '(bs, state, p) := fill_bytes fuel n state p in (Ok tt, bs, state, p).

End Rng.
End KernelRng.
