(* ===== verification/HttpSpec.v ===== *)
(** * Fetching pages: requests end, responses are whole

    Every computation of Http.v keeps the stack up and returns, with fuel for the
    ticks of its longest wait ([fetch_returns]); the text of a response is what the
    socket gave, read by read ([response_text]); the random numbers never stick at
    zero without [rdrand] ([rng_fills]), which can make them ([rng_sticks]). *)

From S2P Require Import Prelude Bytes Str NetStack NetStackSpec Browser BrowserSpec Html HtmlSpec Http.
Import KernelRng.

(** What a socket gave to the code so far: only a read adds to it, and what the crate
    and the code do between two reads does not go back in time. *)
Class ReceiveLaws (S : Type) `{Smoltcp S} : Type := {
  taken : S → list Z;
  still : S → S → Prop := λ s s', ticks s ≤ ticks s' ∧ taken s' = taken s;
  recv_slice_law size s : 0 ≤ size → let '(r, s') := tcp_recv_slice size s in
    ticks s ≤ ticks s' ∧ taken s' = taken s ++ default [] r ∧ len (default [] r) ≤ size;
  still_yield s : ticks s < ticks (yield_to_main s) ∧ taken (yield_to_main s) = taken s;
  still_poll s : still s (iface_poll s);
  still_dhcp s : still s (dhcp_poll s).2;
  still_addrs a p s : still s (update_ip_addrs a p s);
  still_route a s : still s (set_default_route a s);
  still_servers a s : still s (update_servers a s);
  still_icmp s : still s (icmp_recv s).2;
}.

Definition is_up {S} (n : Net S) : Prop := is_Some (stack n).

(** ** Texts of reads *)

Lemma utf8_step_inr l n : utf8_step l = inr n → (1 ≤ n)%nat.
Proof. unfold utf8_step. intros H. repeat (case_match; simplify_eq; try lia). Qed.

Lemma len_lossy_fuel fuel : ∀ l, len (utf8_lossy_fuel fuel l) ≤ 3 * len l.
Proof.
  induction fuel as [|fuel IH]; intros [|c l]; [done|unfold len; cbn; lia|done|]. cbn [utf8_lossy_fuel].
  destruct (utf8_step (c :: l)) as [k|k] eqn:E; rewrite len_app; specialize (IH (drop k (c :: l)));
    unfold len in *; rewrite length_drop in IH; [apply utf8_step_pos in E; rewrite length_take|apply utf8_step_inr in E];
    cbn [length] in *; lia.
Qed.

Lemma lossy_nonempty l : l ≠ [] → 1 ≤ len (from_utf8_lossy l).
Proof.
  destruct l as [|c l]; [done|]. intros _. unfold from_utf8_lossy. cbn [length utf8_lossy_fuel].
  destruct (utf8_step (c :: l)) as [k|k] eqn:E; rewrite len_app; [|cbn; pose proof (len_nonneg (utf8_lossy_fuel (length l) (drop k (c :: l)))); unfold len in *; cbn; lia].
  apply utf8_step_pos in E. pose proof (len_nonneg (utf8_lossy_fuel (length l) (drop k (c :: l)))).
  unfold len in *. rewrite length_take. cbn [length]. lia.
Qed.

(** ** Computations that return *)

(** With the stack up they return, and leave it up. *)
Definition runs {S A} (m : Wait S A) : Prop := ∀ n, is_up n → ∃ r n', m n = Some (r, n') ∧ is_up n'.

Section Runs.

Context {S : Type} `{Smoltcp S}.

Lemma runs_ret {A} (a : A) : runs (S:=S) (mret a).
Proof using Type. intros n Hn. by eexists _, n. Qed.

Lemma runs_bind {A B} (m : Wait S A) (f : A → Wait S B) : runs m → (∀ a, runs (f a)) → runs (m ≫= f).
Proof using Type.
  intros Hm Hf n Hn. destruct (Hm n Hn) as (r & n' & E & Hn'). unfold mbind, Wait_bind. rewrite E.
  destruct r as [a|e|]; [by apply Hf|by eexists _, _..].
Qed.

(** What a computation returns, when it does. *)
Definition gives {A} (Q : A → Prop) (m : Wait S A) : Prop := ∀ n a n', m n = Some (Returns a, n') → Q a.

Lemma gives_bind {A B} (Q : B → Prop) (m : Wait S A) (f : A → Wait S B) : (∀ a, gives Q (f a)) → gives Q (m ≫= f).
Proof using Type.
  intros Hf n c n'. unfold mbind, Wait_bind. destruct (m n) as [[[a|e|] n1]|]; try done. apply Hf.
Qed.

Lemma gives_fail {A} (Q : A → Prop) e : gives Q (w_fail e).
Proof using Type. by intros n a n' [=]. Qed.

Lemma runs_bind_gives {A B} (Q : A → Prop) (m : Wait S A) (f : A → Wait S B) :
  runs m → gives Q m → (∀ a, Q a → runs (f a)) → runs (m ≫= f).
Proof using Type.
  intros Hm Hg Hf n Hn. destruct (Hm n Hn) as (r & n' & E & Hn'). unfold mbind, Wait_bind. rewrite E.
  destruct r as [a|e|]; [eapply Hf; [by eapply Hg|done]|by eexists _, _..].
Qed.

Lemma runs_fail {A} e : runs (S:=S) (A:=A) (w_fail e).
Proof using Type. intros n Hn. by eexists _, n. Qed.

Lemma runs_read {A} (f : Net S → A) : runs (w_read f).
Proof using Type. intros n Hn. by eexists _, n. Qed.

Lemma runs_res {A} (r : res A) : runs (S:=S) (w_res r).
Proof using Type. intros n Hn. by eexists _, n. Qed.

Lemma runs_try {A} (m : Wait S A) : runs m → runs (w_try m).
Proof using Type.
  intros Hm n Hn. destruct (Hm n Hn) as (r & n' & E & Hn'). unfold w_try. rewrite E. destruct r; by eexists _, _.
Qed.

Lemma runs_waits {A} prefix (f : Net S → option (res A * Net S)) :
  (∀ n, is_up n → ∃ r n', f n = Some (r, n') ∧ is_up n') → runs (w_waits prefix f).
Proof using Type.
  intros Hf n Hn. destruct (Hf n Hn) as (r & n' & E & Hn'). unfold w_waits. rewrite E. destruct r; by eexists _, _.
Qed.

Definition keeps_up {A} (m : M (Net S) A) : Prop := ∀ n, is_up n → is_up (m n).2.

Lemma runs_m {A} prefix (m : M (Net S) A) : keeps_up m → runs (w_m prefix m).
Proof using Type.
  intros Hm. apply runs_waits. intros n Hn. specialize (Hm n Hn). destruct (m n) as [r n']. by eexists _, _.
Qed.

Lemma runs_modify (f : Net S → Net S) : (∀ n, is_up n → is_up (f n)) → runs (w_modify f).
Proof using Type. intros Hf n Hn. eexists _, _. split; [reflexivity|by apply Hf]. Qed.

Lemma runs_ignore {A} (m : Wait S A) : runs m → runs (w_ignore m).
Proof using Type. intros Hm. apply runs_bind; [by apply runs_try|intros; apply runs_ret]. Qed.

Lemma runs_context {A} prefix (m : Wait S A) : runs m → runs (w_context prefix m).
Proof using Type. intros Hm. apply runs_bind; [by apply runs_try|]. intros []; [apply runs_ret|apply runs_fail]. Qed.

(** Computations that do not panic. *)
Definition calm {A} (m : Wait S A) : Prop := ∀ n n', m n ≠ Some (Panics, n').

Lemma calm_ret {A} (a : A) : calm (mret a).
Proof using Type. by intros n n' [=]. Qed.

Lemma calm_bind {A B} (m : Wait S A) (f : A → Wait S B) : calm m → (∀ a, calm (f a)) → calm (m ≫= f).
Proof using Type.
  intros Hm Hf n n'. unfold mbind, Wait_bind. destruct (m n) as [[[a|e|] n1]|] eqn:E; [apply Hf|done| |done].
  by destruct (Hm n n1).
Qed.

Lemma calm_fail {A} e : calm (w_fail (A:=A) e).
Proof using Type. by intros n n' [=]. Qed.

Lemma calm_read {A} (f : Net S → A) : calm (w_read f).
Proof using Type. by intros n n' [=]. Qed.

Lemma calm_modify (f : Net S → Net S) : calm (w_modify f).
Proof using Type. by intros n n' [=]. Qed.

Lemma calm_try {A} (m : Wait S A) : calm m → calm (w_try m).
Proof using Type. intros Hm n n'. specialize (Hm n). unfold w_try. destruct (m n) as [[[a|e|] n1]|]; try done. by destruct (Hm n1). Qed.

Lemma calm_waits {A} prefix (f : Net S → option (res A * Net S)) : (∀ n n', f n ≠ Some (Panic, n')) → calm (w_waits prefix f).
Proof using Type. intros Hf n n'. specialize (Hf n). unfold w_waits. destruct (f n) as [[[a|e|] n1]|]; try done. by destruct (Hf n1). Qed.

Lemma calm_m {A} prefix (m : M (Net S) A) : (∀ n, (m n).1 ≠ Panic) → calm (w_m prefix m).
Proof using Type. intros Hm. apply calm_waits. intros n n' [=]. apply (Hm n). by rewrite H1. Qed.

Lemma calm_ignore {A} (m : Wait S A) : calm m → calm (w_ignore m).
Proof using Type. intros Hm. apply calm_bind; [by apply calm_try|intros; apply calm_ret]. Qed.

Lemma calm_context {A} prefix (m : Wait S A) : calm m → calm (w_context prefix m).
Proof using Type. intros Hm. apply calm_bind; [by apply calm_try|]. intros []; [apply calm_ret|apply calm_fail]. Qed.

Lemma calm_close : calm (w_ignore (w_m [] tcp_close)).
Proof using Type. apply calm_ignore, calm_m. intros n. unfold tcp_close, mbind, M_bind, with_stack. by destruct (stack n). Qed.

Lemma calm_connect prefix a port : calm (w_m prefix (tcp_connect a port)).
Proof using Type.
  apply calm_m. intros n. unfold tcp_connect. rewrite M_get_run. destruct (next_port _) as [local seq]. rewrite M_modify_run.
  unfold mbind, M_bind, with_stack. destruct (stack _); [|done]. by destruct (tcp_start _ _ _ _) as [[] s'].
Qed.

Lemma send_loop_calm deadline fuel : ∀ data n n', tcp_send_loop fuel deadline data n ≠ Some (Panic, n').
Proof using Type.
  induction fuel as [|fuel IH]; intros data n n'; cbn [tcp_send_loop]; (case_bool_decide; [done|]); [done|].
  unfold tcp_send_some, with_stack. destruct (stack n) as [s|]; [|done]. destruct (negb _); [done|].
  destruct (tcp_send_slice data s) as [[k|] s']; [|done]. cbn zeta. case_bool_decide; [done|]. by destruct (_ <? _).
Qed.

Lemma calm_send prefix fuel data : calm (w_waits prefix (tcp_send fuel data)).
Proof using Type.
  apply calm_waits. intros n n'. unfold tcp_send. pose proof (send_loop_calm (clock n + 10000) fuel data n) as Hl.
  by destruct (tcp_send_loop _ _ _ _) as [[[[]|e|] n1]|]; try done.
Qed.

Lemma dns_wait_calm deadline q fuel : ∀ n n', dns_wait fuel deadline q n ≠ Some (Panic, n').
Proof using Type.
  induction fuel as [|fuel IH]; intros n n'; cbn [dns_wait]; [done|]. unfold with_stack. destruct (stack _) as [s|]; [|done].
  destruct (dns_result q s) as [[|[|a l]|] s']; try done. by destruct (_ <=? _).
Qed.

Lemma calm_dns prefix fuel host : calm (w_waits prefix (dns_resolve_a fuel host)).
Proof using Type.
  apply calm_waits. intros n n'. unfold dns_resolve_a. destruct (_ || _); [done|]. destruct (parse_ipv4_literal host); [done|].
  unfold with_stack. destruct (stack n) as [s|]; [|done]. destruct (dns_start host s) as [[q|] s']; [|done]. apply dns_wait_calm.
Qed.

Lemma calm_connected fuel polls rest limit timeout : calm (w_connected fuel polls rest limit timeout).
Proof using Type.
  intros n n'. unfold w_connected. destruct (connect_wait _ _ _ _ _ _) as [n1|]; [|done]. destruct (tcp_is_connected n1); [done|].
  apply (calm_bind _ _ calm_close). intros _. apply calm_fail.
Qed.

Lemma calm_response fuel rest limit idle none : calm (w_response fuel rest limit idle none).
Proof using Type.
  apply calm_bind; [intros n n'; by destruct (read_response _ _ _ _ _ _ _) as [[out n1]|]|]. intros out.
  apply calm_bind; [apply calm_close|]. intros _. case_bool_decide; [apply calm_fail|apply calm_ret].
Qed.

Lemma calm_host fuel host : calm (w_host fuel host).
Proof using Type.
  unfold w_host. destruct (parse_ipv4 host); [apply calm_ret|]. apply calm_bind; [apply calm_try, calm_dns|].
  intros []; [apply calm_ret|apply calm_fail].
Qed.

(** *** The interface stays up *)

Lemma up_bind {A B} (m : M (Net S) A) (f : A → M (Net S) B) : keeps_up m → (∀ a, keeps_up (f a)) → keeps_up (m ≫= f).
Proof using Type.
  intros Hm Hf n Hn. specialize (Hm n Hn). unfold mbind, M_bind. destruct (m n) as [[a|e|] n']; [by apply Hf|done..].
Qed.

Lemma up_with_stack {A} (f : S → res A * S) : keeps_up (with_stack f).
Proof using Type. intros n [s Hs]. unfold with_stack. rewrite Hs. destruct (f s). by eexists. Qed.

Lemma up_poll n : is_up n → is_up (net_poll n).
Proof using Type.
  intros [s Hs]. unfold net_poll, drive. rewrite Hs. destruct (dhcp_poll _) as [event s1].
  destruct (match event with Some _ => _ | None => _ end) as [n2 s2]. destruct (drain_icmp 8 n2 s2) as [n3 s3]. by eexists.
Qed.

Lemma up_yield n : is_up n → is_up (yield_now n).
Proof using Type. intros [s Hs]. unfold yield_now. rewrite Hs. by eexists. Qed.

Lemma up_range k i n : is_up n → is_up (iter_from k i (λ _, net_poll) n).
Proof using Type. revert i n. induction k as [|k IH]; intros i n Hn; cbn; [done|]. by apply IH, up_poll. Qed.

Lemma up_modify (f : Net S → Net S) : (∀ n, is_up n → is_up (f n)) → keeps_up (m_modify f).
Proof using Type. intros Hf n Hn. by apply Hf. Qed.

Lemma up_close : keeps_up tcp_close.
Proof using Type. apply up_bind; [apply up_with_stack|]. intros _. apply up_modify. intros n. apply up_range. Qed.

Lemma up_connect a port : keeps_up (tcp_connect a port).
Proof using Type.
  apply up_bind; [by intros n Hn|]. intros n0. destruct (next_port _). apply up_bind; [by apply up_modify|]. intros _.
  apply up_bind; [apply up_with_stack|]. intros _. apply up_modify, up_poll.
Qed.

Lemma up_arp n : is_up n → is_up (request_arp n).2.
Proof using Type. intros [s Hs]. unfold request_arp. rewrite Hs. apply up_poll. by eexists. Qed.

Lemma runs_close : runs (w_ignore (w_m [] tcp_close)).
Proof using Type. apply runs_ignore, runs_m, up_close. Qed.

Lemma runs_arp : runs w_arp.
Proof using Type. apply runs_modify. intros n Hn. by apply up_arp, up_arp. Qed.

Lemma up_read size n : is_up n → is_up (tcp_read_into size n).2.
Proof using Type.
  intros Hn. unfold tcp_read_into. destruct (size =? 0); [done|]. destruct Hn as [s Hs]. rewrite Hs.
  destruct (tcp_can_recv s); [|by eexists]. destruct (tcp_recv_slice size s). by eexists.
Qed.

Lemma dns_wait_up deadline q fuel : ∀ n r n', is_up n → dns_wait fuel deadline q n = Some (r, n') → is_up n'.
Proof using Type.
  induction fuel as [|fuel IH]; intros n r n' Hn; cbn [dns_wait]; [done|].
  match goal with |- context [with_stack ?f ?m] => pose proof (up_with_stack f m (up_poll _ Hn)) as Hw; destruct (with_stack f m) as [a n1] end.
  cbn [snd] in Hw. destruct a as [[|[|a l]|]|e|]; try by intros [= <- <-].
  destruct (_ <=? _); [|apply IH; by apply up_yield]. intros [= <- <-]. destruct Hw as [s Hs]. rewrite Hs. by eexists.
Qed.

End Runs.

Create HintDb http.
#[export] Hint Resolve runs_ret runs_fail runs_read runs_res runs_close runs_arp up_poll up_yield up_connect up_close : http.
#[export] Hint Resolve calm_ret calm_fail calm_read calm_modify calm_try calm_ignore calm_context calm_close calm_connect calm_send
  calm_connected calm_response calm_host : http.

(** ** Waiting *)

Section Waits.

Context {S : Type} `{SmoltcpLaws S, !ReceiveLaws S}.

#[local] Instance still_driven : Driven (@still S _ _).
Proof.
  split; [|apply still_poll|apply still_dhcp|apply still_addrs|apply still_route|apply still_servers|apply still_icmp].
  split; [intros s; by split|]. intros s1 s2 s3 [H1 E1] [H2 E2]. split; [lia|congruence].
Qed.

(** Up, at or after [n], and with [bs] read since. *)
Definition read_since (n n' : Net S) (bs : list Z) : Prop :=
  ∃ s s', stack n = Some s ∧ stack n' = Some s' ∧ ticks s ≤ ticks s' ∧ taken s' = taken s ++ bs.

(** A rest moves the clock and reads nothing. *)
Definition rests (rest : Net S → Net S) : Prop := ∀ n, is_up n → read_since n (rest n) [] ∧ clock n < clock (rest n).

Lemma read_since_clock n n' bs : read_since n n' bs → clock n ≤ clock n' ∧ is_up n ∧ is_up n'.
Proof using Type. intros (s & s' & Hs & Hs' & Ht & _). unfold clock, is_up. rewrite Hs, Hs'. repeat split; [done|by eexists..]. Qed.

Lemma read_since_refl n : is_up n → read_since n n [].
Proof using Type. intros [s Hs]. exists s, s. by rewrite app_nil_r. Qed.

Lemma read_since_trans n1 n2 n3 b1 b2 : read_since n1 n2 b1 → read_since n2 n3 b2 → read_since n1 n3 (b1 ++ b2).
Proof using Type.
  intros (s1 & s2 & H1 & H2 & Ht & E) (s2' & s3 & H2' & H3 & Ht' & E'). assert (s2' = s2) as -> by congruence.
  exists s1, s3. rewrite app_assoc, <- E. split; [done|]. split; [done|]. split; [lia|done].
Qed.

Lemma poll_still n : is_up n → read_since n (net_poll n) [].
Proof using Type*.
  intros [s Hs]. destruct (poll_driven (R:=still) s n Hs) as (s' & Hs' & Ht & E). exists s, s'. by rewrite app_nil_r.
Qed.

Lemma yield_rests : rests yield_now.
Proof using Type*.
  intros n [s Hs]. destruct (still_yield s) as [Ht E]. unfold yield_now, clock. rewrite Hs. cbn. split; [|done].
  exists s, (yield_to_main s). rewrite app_nil_r. split; [done|]. split; [done|]. split; [lia|done].
Qed.

Lemma poll_connected_still k : ∀ n, is_up n → read_since n (poll_connected k n) [].
Proof using Type*.
  induction k as [|k IH]; intros n Hn; cbn [poll_connected]; [by apply read_since_refl|].
  pose proof (poll_still n Hn) as Hp. destruct (tcp_is_connected _); [done|]. rewrite <- (app_nil_r []).
  eapply read_since_trans; [done|]. apply IH. by apply up_poll.
Qed.

(** The wait for the connection is over when its limit is. *)
Lemma connect_wait_ends polls rest start limit fuel : rests rest → ∀ n, is_up n → limit - (clock n - start) < Z.of_nat fuel →
  ∃ n', connect_wait fuel polls rest start limit n = Some n' ∧ is_up n'.
Proof using Type*.
  intros Hr. induction fuel as [|fuel IH]; intros n Hn Hf; cbn [connect_wait];
    (destruct (negb (tcp_is_connected n)); cbn [andb]; [|by eexists]); (destruct (Z.ltb_spec (clock n - start) limit); [|by eexists]); [lia|].
  destruct (read_since_clock _ _ _ (poll_connected_still polls n Hn)) as (Ht & _ & Hn2).
  destruct (Hr _ Hn2) as [Hs3 Ht3]. destruct (read_since_clock _ _ _ Hs3) as (_ & _ & Hn3). apply IH; [done|lia].
Qed.

Lemma runs_connected fuel polls rest limit timeout : rests rest → limit < Z.of_nat fuel → runs (w_connected fuel polls rest limit timeout).
Proof using Type*.
  intros Hr Hf n Hn. unfold w_connected.
  destruct (connect_wait_ends polls rest (clock n) limit fuel Hr n Hn) as (n' & -> & Hn'); [lia|].
  destruct (tcp_is_connected n'); [by eexists _, _|]. by apply runs_bind; [apply runs_close|intros; apply runs_fail|].
Qed.

(** A read: nothing, or the bytes that the text grows by. *)
Lemma receive_spec r n : is_up n → ∃ bs, read_since n (receive r n).2 bs ∧
  body (receive r n).1.2 = body r ++ (if bool_decide (bs = []) then [] else from_utf8_lossy bs) ∧
  (receive r n).1.1 = negb (bool_decide (bs = [])).
Proof using Type*.
  intros [s Hs]. unfold receive, tcp_read, tcp_read_into. rewrite Hs. cbn [Z.eqb].
  destruct (tcp_can_recv s); [|exists []; cbn; rewrite app_nil_r; split; [by apply read_since_refl; eexists|done]].
  pose proof (recv_slice_law 1024 s ltac:(lia)) as Hl. destruct (tcp_recv_slice 1024 s) as [got s']. destruct Hl as (Ht & E & _).
  exists (default [] got). destruct (default [] got) as [|c bs] eqn:Eg; cbn -[from_utf8_lossy]; (split; [|by rewrite ?app_nil_r]);
    exists s, s'; by rewrite E.
Qed.

Lemma receive_unread r n : (receive r n).1.1 = false → (receive r n).1.2 = r.
Proof using Type. unfold receive. destruct (tcp_read n) as [[bs|] n']; [done|]. done. Qed.

(** The reads of a response: each adds its text, and the last leaves it as it is. *)
Definition texts (reads : list (list Z)) : list Z := concat (map from_utf8_lossy reads).

Lemma read_response_spec rest start limit idle fuel : rests rest → ∀ r n, is_up n → limit - (clock n - start) < Z.of_nat fuel →
  ∃ reads n', read_response fuel rest start limit idle r n = Some (body r ++ texts reads, n') ∧
    read_since n n' (concat reads).
Proof using Type*.
  intros Hr. induction fuel as [|fuel IH]; intros r n Hn Hf; cbn [read_response]; (destruct (Z.ltb_spec (clock n - start) limit);
    [|exists [], n; rewrite app_nil_r; split; [done|by apply read_since_refl]]); [lia|].
  pose proof (poll_still n Hn) as Hp. destruct (read_since_clock _ _ _ Hp) as (Ht1 & _ & Hn1).
  destruct (receive_spec r (net_poll n) Hn1) as (bs & Hread & Hbody & _).
  destruct (receive r (net_poll n)) as [[got r2] n2]. cbn [fst snd] in *.
  pose proof (read_since_trans _ _ _ _ _ Hp Hread) as Hs2. cbn in Hs2. destruct (read_since_clock _ _ _ Hread) as (Ht2 & _ & Hn2).
  set (one := if bool_decide (bs = []) then [] else [bs]).
  assert (texts one = (if bool_decide (bs = []) then [] else from_utf8_lossy bs)) as Ho
    by (unfold one, texts; case_bool_decide; cbn; by rewrite ?app_nil_r).
  assert (concat one = bs) as Hc by (unfold one; case_bool_decide; cbn; by rewrite ?app_nil_r).
  rewrite <- Ho in Hbody. rewrite <- Hc in Hs2.
  repeat match goal with |- context [if ?c then _ else _] =>
    destruct c; [exists one, n2; split; [by rewrite Hbody|done]|] end.
  destruct (Hr n2 Hn2) as [Hs3 Ht3]. destruct (read_since_clock _ _ _ Hs3) as (_ & _ & Hn3).
  destruct (IH r2 (rest n2) Hn3) as (reads & n' & -> & Hs'); [lia|].
  exists (one ++ reads), n'. split.
  - rewrite Hbody, <- app_assoc. unfold texts. by rewrite map_app, concat_app.
  - rewrite concat_app. eapply read_since_trans; [exact Hs2|]. apply (read_since_trans _ _ _ [] _ Hs3 Hs').
Qed.

Lemma runs_response fuel rest limit idle none : rests rest → limit < Z.of_nat fuel → runs (w_response fuel rest limit idle none).
Proof using Type*.
  intros Hr Hf. apply runs_bind; [|intros out; apply runs_bind; [auto with http|]; intros; case_bool_decide; auto with http].
  intros n Hn. destruct (read_response_spec rest (clock n) limit idle fuel Hr (mkResponse [] (clock n) false) n Hn) as (reads & n' & -> & Hs);
    [lia|]. eexists _, n'. split; [done|]. by apply (read_since_clock _ _ _ Hs).
Qed.

End Waits.

(** ** Requests *)

(** What the code relies on of the TLS crate: each operation returns and leaves the
    stack up; a write takes no negative number of bytes, and a read gives at most as
    many as it was asked for. *)
Class TlsLaws (S C : Type) `{Smoltcp S, !Tls S C} : Prop := {
  open_law d (c : C) : runs (tls_open d c);
  write_law d data (c : C) : runs (tls_write d data c);
  write_count d data (c : C) : gives (λ r, 0 ≤ r.1) (tls_write d data c);
  flush_law d (c : C) : runs (tls_flush d c);
  read_law d k (c : C) : runs (tls_read d k c);
  read_count d k (c : C) : 0 ≤ k → gives (λ r, len r.1 ≤ k) (tls_read d k c);
  close_law (c : C) : runs (tls_close c);
}.

(** None of its operations panics. *)
Class TlsSafe (S C : Type) `{Smoltcp S, !Tls S C} : Prop := {
  open_safe d (c : C) : calm (tls_open d c);
  write_safe d data (c : C) : calm (tls_write d data c);
  flush_safe d (c : C) : calm (tls_flush d c);
  read_safe d k (c : C) : calm (tls_read d k c);
  close_safe (c : C) : calm (tls_close c);
}.

#[export] Hint Extern 1 (calm stream_shutdown) => apply calm_close : http.
#[export] Hint Extern 1 (calm (tls_open _ _)) => apply open_safe : http.
#[export] Hint Extern 1 (calm (tls_write _ _ _)) => apply write_safe : http.
#[export] Hint Extern 1 (calm (tls_flush _ _)) => apply flush_safe : http.
#[export] Hint Extern 1 (calm (tls_read _ _ _)) => apply read_safe : http.
#[export] Hint Extern 1 (calm (tls_close _)) => apply close_safe : http.

#[export] Hint Extern 1 (runs stream_shutdown) => apply runs_close : http.
#[export] Hint Extern 1 (runs (tls_open _ _)) => apply open_law : http.
#[export] Hint Extern 1 (runs (tls_write _ _ _)) => apply write_law : http.
#[export] Hint Extern 1 (runs (tls_flush _ _)) => apply flush_law : http.
#[export] Hint Extern 1 (runs (tls_read _ _ _)) => apply read_law : http.
#[export] Hint Extern 1 (runs (tls_close _)) => apply close_law : http.

(** More than a response can be. *)
Definition MAX_RAW : Z := 2 ^ 17.

Section Requests.

Context {S C : Type} `{SmoltcpLaws S, !ReceiveLaws S, !Tls S C, !TlsLaws S C}.

Lemma runs_send fuel data : 10001 < Z.of_nat fuel → ∀ prefix, runs (w_waits prefix (tcp_send fuel data)).
Proof using Type*.
  intros Hf prefix. apply runs_waits. intros n [s Hs]. unfold tcp_send.
  assert (clock n = ticks s) as -> by (unfold clock; by rewrite Hs).
  destruct (tcp_send_loop_ok (ticks s + 10000) fuel data n s) as (r & n' & s' & k & -> & Hs' & _); [done|lia..|].
  assert (is_up n') by (by eexists). destruct r as [[]|e|]; eexists _, _; (split; [done|]); [by apply up_poll|done..].
Qed.

Lemma runs_dns fuel host : 8002 < Z.of_nat fuel → ∀ prefix, runs (w_waits prefix (dns_resolve_a fuel host)).
Proof using Type*.
  intros Hf prefix. apply runs_waits. intros n Hn. unfold dns_resolve_a. destruct (_ || _); [by eexists _, n|].
  destruct (parse_ipv4_literal host); [by eexists _, n|].
  match goal with |- context [with_stack ?f n] => pose proof (up_with_stack f n Hn) as Hw; destruct (with_stack f n) as [r n1] end.
  cbn [snd] in Hw. destruct r as [q|e|]; [|by eexists _, n1..]. destruct Hw as [s Hs].
  destruct (dns_wait_ends (clock n1 + 8000) q fuel n1 s) as (r & n' & E & _);
    [done|lia|unfold clock; rewrite Hs; lia|]. exists r, n'. split; [done|]. eapply dns_wait_up; [|exact E]. by eexists.
Qed.

Lemma runs_host fuel host : 8002 < Z.of_nat fuel → runs (w_host fuel host).
Proof using Type*.
  intros Hf. unfold w_host. destruct (parse_ipv4 host); [auto with http|]. apply runs_bind; [by apply runs_try, runs_dns|].
  intros []; auto with http.
Qed.

Lemma receive_length r n : len (body r) < MAX_RESPONSE → len (body (receive r n).1.2) ≤ MAX_RAW.
Proof using Type*.
  intros Hl. unfold MAX_RESPONSE, MAX_RAW in *. unfold receive, tcp_read, tcp_read_into. cbn [Z.eqb].
  destruct (stack n) as [s|]; [|cbn; lia]. destruct (tcp_can_recv s); [|cbn; lia].
  pose proof (recv_slice_law 1024 s ltac:(lia)) as Hr. destruct (tcp_recv_slice 1024 s) as [got s']. destruct Hr as (_ & _ & Hr).
  destruct (default [] got) as [|c bs] eqn:E; cbn -[from_utf8_lossy]; [lia|]. rewrite len_app.
  pose proof (len_lossy_fuel (length (c :: bs)) (c :: bs)). unfold from_utf8_lossy. lia.
Qed.

Lemma response_length fuel rest start limit idle : ∀ r n out n',
  len (body r) < MAX_RESPONSE → read_response fuel rest start limit idle r n = Some (out, n') → len out ≤ MAX_RAW.
Proof using Type*.
  assert (MAX_RESPONSE < MAX_RAW) as Hm by done.
  induction fuel as [|fuel IH]; intros r n out n' Hl; cbn [read_response]; (destruct (_ <? limit); [|intros [= <- <-]; lia]); [done|].
  pose proof (receive_length r (net_poll n) Hl) as Hb. pose proof (receive_unread r (net_poll n)) as Hu.
  destruct (receive r (net_poll n)) as [[got r2] n2]. cbn [fst snd] in *.
  destruct got; cbn [andb]; [|rewrite Hu in * by done].
  - destruct (Z.leb_spec MAX_RESPONSE (len (body r2))); [by intros [= <- <-]|].
    repeat case_match; try (by intros [= <- <-]); by apply IH.
  - repeat case_match; try (by intros [= <- <-]); by apply IH.
Qed.

(** What [fetch_raw] promises: it returns, and what it returns is not too long. *)
Definition requests (m : Wait S (list Z)) : Prop := runs m ∧ gives (λ raw, len raw ≤ MAX_RAW) m.

Lemma requests_bind {A} (m : Wait S A) (f : A → Wait S (list Z)) : runs m → (∀ a, requests (f a)) → requests (m ≫= f).
Proof using Type. intros Hm Hf. split; [apply runs_bind; [done|]|apply gives_bind]; apply Hf. Qed.

Lemma requests_fail e : requests (w_fail e).
Proof using Type. split; [apply runs_fail|apply gives_fail]. Qed.

Lemma requests_response fuel rest limit idle none : rests rest → limit < Z.of_nat fuel → requests (w_response fuel rest limit idle none).
Proof using Type*.
  intros Hr Hf. split; [by apply runs_response|]. intros n a n'. unfold w_response, mbind, Wait_bind.
  destruct (read_response _ _ _ _ _ _ n) as [[out n1]|] eqn:E; [|done]. apply response_length in E; [|done].
  destruct (w_ignore (w_m [] tcp_close) n1) as [[[]]|]; try done. case_bool_decide; [done|]. by intros [= <- <-].
Qed.

Lemma requests_http fuel host path : 10001 < Z.of_nat fuel → requests (http_get_raw fuel host path).
Proof using Type*.
  intros Hf. unfold http_get_raw. apply requests_bind; [apply runs_host; lia|]. intros a.
  apply requests_bind; [auto with http|]. intros _. apply requests_bind; [apply runs_m; auto with http|]. intros _.
  apply requests_bind; [apply runs_connected; [apply yield_rests|lia]|]. intros _.
  apply requests_bind; [by apply runs_send|]. intros _. apply requests_response; [apply yield_rests|lia].
Qed.

(** *** TLS *)

Lemma runs_tls_send d fuel : ∀ data (c : C), (length data ≤ fuel)%nat → runs (tls_send fuel d data c).
Proof using Type*.
  induction fuel as [|fuel IH]; intros data c Hl; cbn [tls_send]; (case_bool_decide; [auto with http|]).
  { destruct data; [done|cbn in Hl; lia]. }
  apply (runs_bind_gives (λ r, 0 ≤ r.1)); [apply runs_context; auto with http| |].
  - intros n a n'. unfold w_context, w_try, mbind, Wait_bind. destruct (tls_write d data c n) as [[[r|e|] n1]|] eqn:E; try done.
    intros [= <- <-]. by eapply write_count.
  - intros [k c'] Hk. cbn [fst snd] in *. destruct (Z.eqb_spec k 0); [auto with http|]. apply IH. rewrite length_drop.
    destruct data; [done|]. cbn [length] in *. lia.
Qed.

Lemma requests_receive d fuel : ∀ out (c : C), len out < MAX_RESPONSE → MAX_RESPONSE - len out ≤ Z.of_nat fuel →
  runs (tls_receive fuel d out c) ∧ gives (λ r, len r.1 ≤ MAX_RAW) (tls_receive fuel d out c).
Proof using Type*.
  assert (MAX_RESPONSE + 3 * 2048 < MAX_RAW) as Hm by done.
  induction fuel as [|fuel IH]; intros out c Hl Hf; [lia|].
  assert (∀ a, len (from_utf8_lossy a) ≤ 3 * len a) as Hlen by (intros; apply len_lossy_fuel).
  assert (∀ bs c', bs ≠ [] → len bs ≤ 2048 → let out := out ++ from_utf8_lossy bs in
    let m := if MAX_RESPONSE <=? len out then mret (out, c') else tls_receive fuel d out c' in
    runs m ∧ gives (λ r, len r.1 ≤ MAX_RAW) m) as Hstep.
  { intros bs c' Hbs Hk. cbn zeta. pose proof (lossy_nonempty bs Hbs) as H1. specialize (Hlen bs). rewrite len_app.
    destruct (Z.leb_spec MAX_RESPONSE (len out + len (from_utf8_lossy bs))); [|apply IH; rewrite len_app; lia].
    split; [auto with http|]. intros n a n' [= <- <-]. cbn. rewrite len_app. lia. }
  cbn [tls_receive]. split.
  - apply (runs_bind_gives (λ r, match r with inl r => len r.1 ≤ 2048 | inr _ => True end)); [apply runs_try; auto with http| |].
    + intros n a n'. unfold w_try. destruct (tls_read d 2048 c n) as [[[r|e|] n1]|] eqn:E; try done; intros [= <- <-]; [|done].
      by eapply (read_count d 2048).
    + intros [[[|x bs] c']|e] Hk; [auto with http|by apply Hstep|]. case_bool_decide; auto with http.
  - intros n a n'. unfold mbind, Wait_bind, w_try. destruct (tls_read d 2048 c n) as [[[[bs c']|e|] n1]|] eqn:E; try done.
    + apply read_count in E; [|lia]. cbn in E. destruct bs as [|x bs]; [intros [= <- <-]; cbn; lia|]. by eapply Hstep.
    + case_bool_decide; [done|]. intros [= <- <-]. cbn. lia.
Qed.

Lemma requests_https fuel host a path : 65536 ≤ Z.of_nat fuel → requests (https_get fuel host a path).
Proof using Type*.
  intros Hf. unfold https_get. apply requests_bind; [apply runs_read|]. intros start.
  apply requests_bind.
  { apply runs_try, runs_bind; [apply runs_m; auto with http|]. intros _. apply runs_connected; [apply yield_rests|lia]. }
  intros [_|e]; [|apply requests_fail]. apply requests_bind; [apply runs_try; auto with http|]. intros [c|e].
  2: { apply requests_bind; [auto with http|]. intros _. apply requests_fail. }
  apply requests_bind; [apply runs_read|]. intros now. apply requests_bind; [by apply runs_tls_send|]. intros c1.
  apply requests_bind; [apply runs_context; auto with http|]. intros c2.
  destruct (requests_receive (now + 15000) fuel [] c2) as [Hr Hg]; [done|unfold MAX_RESPONSE, len in *; cbn; lia|]. split.
  - apply runs_bind; [done|]. intros r. apply runs_bind; [apply runs_ignore; auto with http|]. intros _.
    apply runs_bind; [auto with http|]. intros _. case_bool_decide; auto with http.
  - intros n raw n'. unfold mbind at 1, Wait_bind at 1. destruct (tls_receive _ _ _ _ n) as [[[r|e|] n1]|] eqn:E; try done.
    apply Hg in E. revert n1 raw n'. change (gives (λ raw, len raw ≤ MAX_RAW) (w_ignore (tls_close r.2);; stream_shutdown;;
      if bool_decide (r.1 = []) then w_fail (bytes_of_string "httpsget: empty response") else mret r.1)).
    apply gives_bind. intros _. apply gives_bind. intros _. case_bool_decide; [apply gives_fail|]. by intros n1 raw n' [= <- <-].
Qed.

Lemma requests_raw fuel url : 65536 ≤ Z.of_nat fuel → requests (fetch_raw fuel url).
Proof using Type*.
  intros Hf. unfold fetch_raw. destruct (split_url url) as [[[] host] path]; [|apply requests_http; lia].
  apply requests_bind; [apply runs_host; lia|]. intros a. apply requests_bind; [auto with http|]. intros _. by apply requests_https.
Qed.

(** *** Pages *)

(** A response that is not a redirect is rendered, or its chunks panic. *)
Lemma handle_response_renders current raw d : len raw ≤ MAX_RAW → handle_response current raw = Rendered d →
  ∃ r, d = Some r ∧ ∀ doc, r = Ok doc → doc_ok doc.
Proof using Type.
  intros Hl. unfold handle_response. destruct (find_redirect_location raw) as [loc|]; [by destruct (redirect_target current loc)|].
  intros [= <-]. unfold render_response. set (raw_body := drop (body_start raw) raw).
  assert (∃ r, (if is_chunked (take (body_start raw) raw) then decode_chunked raw_body else Some (Ok raw_body)) = Some r) as [r ->].
  { destruct (is_chunked _); [|by eexists]. apply decode_chunked_terminates. unfold MAX_RAW, raw_body, len in *.
    rewrite length_drop. lia. }
  cbn. destruct r as [text|e|]; [|by eexists..].
  destruct (render_loop_ok (length text) current text (mkFlags false false false) DocBuilder_new) as (b & E & Hb); [done|apply builder_new_ok|].
  unfold render_html_doc. rewrite E. cbn. eexists. split; [done|]. intros doc [= <-]. by apply finish_ok.
Qed.

Lemma fetch_turns_ends fuel turns : 65536 ≤ Z.of_nat fuel → ∀ url,
  runs (fetch_turns turns fuel url) ∧ gives doc_ok (fetch_turns turns fuel url).
Proof using Type*.
  intros Hf. induction turns as [|turns IH]; intros url; cbn [fetch_turns]; [split; [apply runs_fail|apply gives_fail]|].
  destruct (requests_raw fuel url Hf) as [Hr Hg].
  assert (∀ raw, len raw ≤ MAX_RAW → let m := match handle_response url raw with
      | Redirect next => fetch_turns turns fuel next | Stop => w_fail too_many
      | Rendered (Some r) => w_res r | Rendered None => λ _, None end in runs m ∧ gives doc_ok m) as Hstep.
  { intros raw Hl. cbn zeta. destruct (handle_response url raw) as [d|next|] eqn:E; [|apply IH|split; [apply runs_fail|apply gives_fail]].
    destruct (handle_response_renders url raw d Hl E) as (r & -> & Hd). split; [apply runs_res|].
    intros n doc n'. unfold w_res. intros [= Ed _]. apply Hd. destruct r; by simplify_eq. }
  split.
  - eapply runs_bind_gives; [done..|]. intros raw Hl. by apply Hstep.
  - intros n doc n'. unfold mbind, Wait_bind. destruct (fetch_raw fuel url n) as [[[raw|e|] n1]|] eqn:E; try done. eapply Hstep. by eapply Hg.
Qed.

(** *** The course of a fetch *)

(** A chunked body on which the decoder panics. *)
Definition bad_chunks (raw : list Z) : Prop :=
  is_chunked (take (body_start raw) raw) = true ∧ decode_chunked (drop (body_start raw) raw) = Some Panic.

(** With [turns] requests left: the addresses that are asked for, in order, and how it
    ends. *)
Inductive fetched (fuel : nat) : nat → list Z → Net S → list (list Z) → Outcome Document → Net S → Prop :=
| no_turn url n : fetched fuel 0 url n [] (Fails too_many) n
| request_fails turns url n e n' :
    fetch_raw fuel url n = Some (Fails e, n') → fetched fuel (Datatypes.S turns) url n [url] (Fails e) n'
| redirected turns url next n raw n1 urls r n' :
    fetch_raw fuel url n = Some (Returns raw, n1) → handle_response url raw = Redirect next →
    fetched fuel turns next n1 urls r n' → fetched fuel (Datatypes.S turns) url n (url :: urls) r n'
| stopped turns url n raw n' :
    fetch_raw fuel url n = Some (Returns raw, n') → handle_response url raw = Stop →
    fetched fuel (Datatypes.S turns) url n [url] (Fails too_many) n'
| page_comes turns url n raw n' doc :
    fetch_raw fuel url n = Some (Returns raw, n') → handle_response url raw = Rendered (Some (Ok doc)) → doc_ok doc →
    fetched fuel (Datatypes.S turns) url n [url] (Returns doc) n'
| bad_body turns url n raw n' e :
    fetch_raw fuel url n = Some (Returns raw, n') → handle_response url raw = Rendered (Some (Err e)) →
    fetched fuel (Datatypes.S turns) url n [url] (Fails (bytes_of_string e)) n'
| split_chunk turns url n raw n' :
    fetch_raw fuel url n = Some (Returns raw, n') → bad_chunks raw → fetched fuel (Datatypes.S turns) url n [url] Panics n'.

Lemma fetched_turns fuel turns url n urls r n' : fetched fuel turns url n urls r n' → (length urls ≤ turns)%nat.
Proof using Type. induction 1; cbn [length]; lia. Qed.

Lemma fetched_panic fuel turns url n urls r n' : fetched fuel turns url n urls r n' → r = Panics →
  ∃ u n1 n2 raw, last urls = Some u ∧ fetch_raw fuel u n1 = Some (Returns raw, n2) ∧ bad_chunks raw.
Proof using Type.
  induction 1 as [| |turns url next n raw n1 urls r n' ? ? ? IH| | | |turns url n raw n' Hr Hb]; intros; try done.
  - destruct (IH ltac:(done)) as (u & n2 & n3 & raw' & Hl & ?). exists u, n2, n3, raw'. by rewrite last_cons, Hl.
  - by exists url, n, n', raw.
Qed.

Lemma fetched_doc fuel turns url n urls r n' doc : fetched fuel turns url n urls r n' → r = Returns doc → doc_ok doc.
Proof using Type. induction 1; intros; simplify_eq; auto. Qed.

Lemma renders_panic current raw : handle_response current raw = Rendered (Some Panic) → bad_chunks raw.
Proof using Type.
  unfold handle_response. destruct (find_redirect_location raw) as [loc|]; [by destruct (redirect_target current loc)|].
  unfold render_response, bad_chunks. intros [= Hd]. destruct (is_chunked _); [|cbn in Hd; by destruct (render_html_doc current (drop (body_start raw) raw))].
  destruct (decode_chunked _) as [[text|e|]|]; try done. cbn in Hd. by destruct (render_html_doc current text).
Qed.

Lemma calm_tls_send `{!TlsSafe S C} d fuel : ∀ data (c : C), calm (tls_send fuel d data c).
Proof using Type.
  induction fuel as [|fuel IH]; intros data c; cbn [tls_send]; (case_bool_decide; [auto with http|]); [done|].
  apply calm_bind; [auto with http|]. intros r. destruct (r.1 =? 0); auto with http.
Qed.

Lemma calm_tls_receive `{!TlsSafe S C} d fuel : ∀ out (c : C), calm (tls_receive fuel d out c).
Proof using Type.
  induction fuel as [|fuel IH]; intros out c; cbn [tls_receive]; [done|]. apply calm_bind; [auto with http|].
  intros [[[|x bs] c']|e]; [auto with http| |case_bool_decide; auto with http]. cbn zeta. destruct (_ <=? _); auto with http.
Qed.

Lemma calm_raw `{!TlsSafe S C} fuel url : calm (fetch_raw fuel url).
Proof using Type.
  unfold fetch_raw. destruct (split_url url) as [[[] host] path].
  - apply calm_bind; [auto with http|]. intros a. apply calm_bind; [apply calm_modify|]. intros _. unfold https_get.
    apply calm_bind; [auto with http|]. intros start. apply calm_bind; [apply calm_try, calm_bind; auto with http|].
    intros [_|e]; [|auto with http]. apply calm_bind; [auto with http|]. intros [c|e].
    2: { apply calm_bind; auto with http. }
    apply calm_bind; [auto with http|]. intros now. apply calm_bind; [apply calm_tls_send|]. intros c1.
    apply calm_bind; [auto with http|]. intros c2. apply calm_bind; [apply calm_tls_receive|]. intros r.
    apply calm_bind; [auto with http|]. intros _. apply calm_bind; [auto with http|]. intros _. case_bool_decide; auto with http.
  - unfold http_get_raw. apply calm_bind; [auto with http|]. intros a. apply calm_bind; [apply calm_modify|]. intros _.
    apply calm_bind; [auto with http|]. intros _. apply calm_bind; [auto with http|]. intros _.
    apply calm_bind; auto with http.
Qed.

Lemma fetch_turns_fetched `{!TlsSafe S C} fuel turns : 65536 ≤ Z.of_nat fuel → ∀ url n r n',
  fetch_turns turns fuel url n = Some (r, n') → ∃ urls, fetched fuel turns url n urls r n'.
Proof using Type*.
  intros Hf. induction turns as [|turns IH]; intros url n r n'; cbn [fetch_turns]; [intros [= <- <-]; eexists; constructor|].
  unfold mbind, Wait_bind. destruct (fetch_raw fuel url n) as [[[raw|e|] n1]|] eqn:E; [| | |done].
  - destruct (requests_raw fuel url Hf) as [_ Hg]. pose proof (Hg _ _ _ E) as Hl. cbn beta in Hl.
    destruct (handle_response url raw) as [d|next|] eqn:Eh.
    + destruct (handle_response_renders url raw d Hl Eh) as (p & -> & Hd). intros [= <- <-]. exists [url].
      destruct p as [doc|e|]; [by eapply page_comes; eauto|by eapply bad_body|eapply split_chunk; [done|by eapply renders_panic]].
    + intros [urls Hu]%IH. exists (url :: urls). by eapply redirected.
    + intros [= <- <-]. exists [url]. by eapply stopped.
  - intros [= <- <-]. exists [url]. by apply request_fails.
  - by apply calm_raw in E.
Qed.

(** C34: fetching a page.  With the network up, a clock that every yield moves and a TLS
    connection whose operations return and do not panic, [fetch_and_render] returns
    whatever the servers send, with no loop of it taking more than 65536 turns.  It
    asks for at most five addresses, one redirecting to the next, and ends with an
    error; or with a document of at most 300 links in which every link of a span
    refers to one of them; or with a panic, and then the last response has a chunked
    body of which [decode_chunked] slices a character. *)
Theorem fetch_returns `{!TlsSafe S C} fuel url n :
  is_up n → 65536 ≤ Z.of_nat fuel →
  ∃ urls r n', fetch_and_render fuel url n = Some (r, n') ∧ is_up n' ∧ fetched fuel 5 url n urls r n' ∧ (length urls ≤ 5)%nat ∧
    (∀ doc, r = Returns doc → doc_ok doc) ∧
    (r = Panics → ∃ u n1 n2 raw, last urls = Some u ∧ fetch_raw fuel u n1 = Some (Returns raw, n2) ∧ bad_chunks raw).
Proof using Type*.
  intros Hn Hf. destruct (fetch_turns_ends fuel 5 Hf url) as [Hr _]. destruct (Hr n Hn) as (r & n' & E & Hn').
  destruct (fetch_turns_fetched fuel 5 Hf url n r n' E) as [urls Hu]. exists urls, r, n'. do 3 (split; [done|]).
  split; [by eapply fetched_turns|]. split; [intros doc; by eapply fetched_doc|by eapply fetched_panic].
Qed.

(** The text of a response.  It is made of reads, in order and without a gap: the
    bytes the socket gave since are those of the reads one after the other, and the
    text is the reads decoded one by one, which is the bytes themselves when they
    are ASCII. *)
Theorem response_text rest limit idle fuel n :
  rests rest → is_up n → limit < Z.of_nat fuel →
  ∃ reads n', read_response fuel rest (clock n) limit idle (mkResponse [] (clock n) false) n = Some (texts reads, n') ∧
    read_since n n' (concat reads) ∧
    (Forall (λ c, 0 ≤ c < 128) (concat reads) → texts reads = concat reads).
Proof using Type*.
  intros Hr Hn Hf. destruct (read_response_spec rest (clock n) limit idle fuel Hr (mkResponse [] (clock n) false) n Hn)
    as (reads & n' & E & Hs); [lia|]. exists reads, n'. split; [exact E|]. split; [done|].
  intros Ha. unfold texts. clear -Ha. induction reads as [|bs reads IH]; [done|]. cbn in *. apply Forall_app in Ha as [Hb Ha].
  rewrite IH by done. f_equal. by apply from_utf8_lossy_valid, valid_utf8_ascii.
Qed.

End Requests.

(** ** Random numbers *)

Section Rng.

Context {P : Type} (rdrand : P → option Z * P).

Lemma xor_nonzero x y : x ≠ y → Z.lxor x y ≠ 0.
Proof using Type. intros Hne Hx. by apply Z.lxor_eq in Hx. Qed.

(** A shift to the left by [k] moves every word but zero: 2^k - 1 is odd. *)
Lemma shiftl_moves x k : 0 < x < 2 ^ 64 → 0 ≤ k → Z.gcd (2 ^ 64) (2 ^ k - 1) = 1 → x ≠ u64 (Z.shiftl x k).
Proof using Type.
  intros Hx Hk Hg E. unfold u64, wrap in E. rewrite Z.shiftl_mul_pow2 in E by lia.
  assert (2 ^ 64 | (2 ^ k - 1) * x) as Hd.
  { exists (x * 2 ^ k / 2 ^ 64). pose proof (Z.div_mod (x * 2 ^ k) (2 ^ 64)) as Hm. lia. }
  apply Z.gauss in Hd; [|done]. apply Z.divide_pos_le in Hd; lia.
Qed.

Lemma shiftr_range x k : 0 ≤ x < 2 ^ 64 → 0 ≤ k → 0 ≤ Z.shiftr x k < 2 ^ 64.
Proof using Type.
  intros Hx Hk. rewrite Z.shiftr_div_pow2 by done. assert (0 < 2 ^ k) by (apply Z.pow_pos_nonneg; lia).
  split; [apply Z.div_pos; lia|]. apply Z.div_lt_upper_bound; nia.
Qed.

Lemma xor_word x y : 0 ≤ x < 2 ^ 64 → 0 ≤ y < 2 ^ 64 → x ≠ y → 0 < Z.lxor x y < 2 ^ 64.
Proof using Type. intros Hx Hy Hne. pose proof (lxor_range x y Hx Hy). pose proof (xor_nonzero x y Hne). lia. Qed.

Lemma xorshift_word x : 0 < x < 2 ^ 64 → 0 < xorshift x < 2 ^ 64.
Proof using Type.
  intros Hx. unfold xorshift. set (y := Z.lxor x (u64 (Z.shiftl x 13))). set (z := Z.lxor y (Z.shiftr y 7)).
  assert (0 < y < 2 ^ 64) as Hy by (apply xor_word; [lia|apply u64_range|by apply shiftl_moves]).
  assert (0 < z < 2 ^ 64) as Hz.
  { apply xor_word; [lia|apply shiftr_range; lia|]. rewrite Z.shiftr_div_pow2 by lia.
    apply Z.neq_sym, Z.lt_neq, Z.div_lt; lia. }
  apply xor_word; [lia|apply u64_range|by apply shiftl_moves].
Qed.

Lemma rng_new_word ticks rx tx rx_err tx_err (p : P) :
  0 ≤ ticks < 2 ^ 64 → 0 ≤ tx_err < 2 ^ 64 → (∀ v p', rdrand p = (Some v, p') → 0 ≤ v < 2 ^ 64) →
  0 < (rng_new rdrand ticks rx tx rx_err tx_err p).1 < 2 ^ 64.
Proof using Type.
  intros Ht He Hv. unfold rng_new. set (seed := Z.lxor _ tx_err).
  assert (0 ≤ seed < 2 ^ 64) as Hs by (repeat (apply lxor_range; [|by auto using u64_range]); done).
  destruct (rdrand p) as [v p'].
  assert (0 ≤ (match v with Some v => Z.lxor seed v | None => seed end) < 2 ^ 64) as Hs'
    by (destruct v; [apply lxor_range; [done|by eapply Hv]|done]).
  set (t := match v with Some _ => _ | None => _ end) in *. destruct (Z.eqb_spec t 0); [done|cbn; lia].
Qed.

Lemma fill_without (I : P → Prop) fuel m state p :
  (∀ p, I p → (rdrand p).1 = None ∧ I (rdrand p).2) → (m ≤ fuel)%nat → 0 < state < 2 ^ 64 → I p →
  let '(bs, state', _) := fill_bytes rdrand fuel m state p in length bs = m ∧ is_bytes bs ∧ 0 < state' < 2 ^ 64.
Proof using Type.
  intros Hr. revert m state p. induction fuel as [|fuel IH]; intros [|m] state p Hm Hs Hp;
    try (by cbn; split; [done|]; split; [constructor|]); [lia|].
  cbn [fill_bytes]. unfold next_word. destruct (Hr p Hp) as [Hn Hp']. destruct (rdrand p) as [v p']. cbn in Hn, Hp'. subst v.
  specialize (IH (Datatypes.S m - 8)%nat (xorshift state) p' ltac:(lia) (xorshift_word state Hs) Hp').
  destruct (fill_bytes rdrand fuel (Datatypes.S m - 8) (xorshift state) p') as [[bs state'] p2]. destruct IH as (Hl & Hb & Hw).
  split; [|split; [|done]].
  - rewrite length_app, length_take, length_le, Hl. lia.
  - apply is_bytes_app. split; [|done]. apply is_bytes_take, is_bytes_le.
Qed.

(** The random numbers of a connection while [rdrand] gives nothing, which is an
    invariant [I] of the processor.  A request for [n] bytes is answered with [n] bytes,
    and the state the generator starts with and the one it is left with are 64-bit
    words that are not zero, where it would stick. *)
Theorem rng_fills (I : P → Prop) ticks rx tx rx_err tx_err p n :
  0 ≤ ticks < 2 ^ 64 → 0 ≤ tx_err < 2 ^ 64 → (∀ p, I p → (rdrand p).1 = None ∧ I (rdrand p).2) → I p →
  let '(state, p) := rng_new rdrand ticks rx tx rx_err tx_err p in
  let '(bs, state', _) := fill_bytes rdrand n n state p in
  0 < state < 2 ^ 64 ∧ length bs = n ∧ is_bytes bs ∧ 0 < state' < 2 ^ 64.
Proof using Type.
  intros Ht He Hr Hp.
  assert (0 < (rng_new rdrand ticks rx tx rx_err tx_err p).1 < 2 ^ 64 ∧ I (rng_new rdrand ticks rx tx rx_err tx_err p).2) as [Hst Hp1].
  { split.
    - apply rng_new_word; [done..|]. intros v p' E. specialize (Hr p Hp). rewrite E in Hr. by destruct Hr.
    - unfold rng_new. specialize (Hr p Hp). destruct (rdrand p). apply Hr. }
  destruct (rng_new rdrand ticks rx tx rx_err tx_err p) as [state p1]. cbn in Hst, Hp1.
  pose proof (fill_without I n n state p1 Hr (le_n n) Hst Hp1) as H.
  destruct (fill_bytes rdrand n n state p1) as [[bs state'] p2]. by split.
Qed.

(** The state is mixed with each word of [rdrand] and not looked at: when they cancel
    and [rdrand] then gives nothing, every word that follows is zero. *)
Theorem rng_sticks v p p' (I : P → Prop) : rdrand p = (Some v, p') → I p' → (∀ p, I p → (rdrand p).1 = None ∧ I (rdrand p).2) →
  let '(_, state, p1) := next_word rdrand (rotate_left v 17) p in
  ∀ n, (fill_bytes rdrand n n state p1).1.1 = replicate n 0.
Proof using Type.
  intros E Hp Hr. unfold next_word. rewrite E, Z.lxor_nilpotent. intros n.
  assert (∀ fuel m q, (m ≤ fuel)%nat → I q → (fill_bytes rdrand fuel m 0 q).1.1 = replicate m 0) as H; [|by apply H].
  induction fuel as [|fuel IH]; intros [|m] q Hm Hq; [done|lia|done|].
  cbn [fill_bytes]. unfold next_word. destruct (Hr q Hq) as [Hn Hq']. destruct (rdrand q) as [w q']. cbn in Hn, Hq'. subst w.
  change (xorshift 0) with 0. specialize (IH (Datatypes.S m - 8)%nat q' ltac:(lia) Hq').
  destruct (fill_bytes rdrand fuel (Datatypes.S m - 8) 0 q') as [[bs s'] q2]. cbn in IH |- *. rewrite IH.
  change (take (Datatypes.S m) (replicate 8 0) ++ replicate (Datatypes.S m - 8) 0 = replicate (Datatypes.S m) 0).
  rewrite take_replicate, <- replicate_add. f_equal. lia.
Qed.

End Rng.

(** *** The instruction *)

Section Instruction.
Context {P : Type} (leaf1_ecx : P → Z) (rdrand_insn : P → Z * bool * P).
Hypothesis same_leaf : ∀ p, leaf1_ecx (rdrand_insn p).2 = leaf1_ecx p.

(** What is remembered is what the processor says. *)
Definition support_ok (c : Cpu P) : Prop :=
  RDRAND_SUPPORT c = 0 ∨ RDRAND_SUPPORT c = if Z.testbit (leaf1_ecx (chip c)) 30 then 1 else 2.

Lemma cpu_has_rdrand_spec c : support_ok c →
  cpu_has_rdrand leaf1_ecx c = (Z.testbit (leaf1_ecx (chip c)) 30, mkCpu (if Z.testbit (leaf1_ecx (chip c)) 30 then 1 else 2) (chip c)).
Proof using Type.
  intros H. unfold cpu_has_rdrand. destruct c as [s p]. unfold support_ok in H. simpl chip in *. simpl RDRAND_SUPPORT in *.
  assert (negb (Z.land (leaf1_ecx p) (Z.shiftl 1 30) =? 0) = Z.testbit (leaf1_ecx p) 30) as Hb.
  { apply eq_true_iff_eq. rewrite negb_true_iff, Z.eqb_neq. split.
    - intros Hne. destruct (Z.testbit (leaf1_ecx p) 30) eqn:E; [done|]. destruct Hne. apply Z.bits_inj_0. intros n.
      destruct (decide (0 ≤ n)); [|apply Z.testbit_neg_r; lia].
      rewrite Z.land_spec, shiftl_1_testbit by lia. case_bool_decide; [subst n; by rewrite E|apply andb_false_r].
    - intros E Hz. apply (f_equal (λ z, Z.testbit z 30)) in Hz. rewrite Z.land_spec, E, Z.bits_0 in Hz. discriminate Hz. }
  rewrite Hb. destruct H as [-> | ->]; [done|]. by destruct (Z.testbit (leaf1_ecx p) 30).
Qed.

(** [rdrand] is executed only on a processor that has it, which is asked once. *)
Theorem rdrand_u64_spec c : support_ok c →
  let '(v, c') := rdrand_u64 leaf1_ecx rdrand_insn c in
  support_ok c' ∧ leaf1_ecx (chip c') = leaf1_ecx (chip c) ∧
  if Z.testbit (leaf1_ecx (chip c)) 30
  then chip c' = (rdrand_insn (chip c)).2 ∧ v = let '(w, carry, _) := rdrand_insn (chip c) in if carry then Some w else None
  else chip c' = chip c ∧ v = None.
Proof using same_leaf.
  intros H. unfold rdrand_u64. rewrite (cpu_has_rdrand_spec c H). pose proof (same_leaf (chip c)) as Hl.
  unfold support_ok. destruct (Z.testbit (leaf1_ecx (chip c)) 30) eqn:E; simpl chip; simpl RDRAND_SUPPORT.
  - destruct (rdrand_insn (chip c)) as [[w carry] p]. simpl snd in *. simpl chip. simpl RDRAND_SUPPORT. rewrite Hl, E. auto.
  - rewrite E. auto.
Qed.

End Instruction.

(** ** A server that answers each connection with pieces *)

Module HttpExample.

Record Peer : Type := mkPeer { p_ticks : Z; p_next : list (list (list Z)); p_in : list (list Z); p_sent : list Z; p_taken : list Z }.

#[export] Instance peer_smoltcp : Smoltcp Peer := {
  ticks := p_ticks;
  yield_to_main s := mkPeer (p_ticks s + 1) (p_next s) (p_in s) (p_sent s) (p_taken s);
  iface_poll s := s;
  update_ip_addrs _ _ s := s;
  set_default_route _ s := s;
  update_servers _ s := s;
  dhcp_poll s := (None, s);
  dhcp_reset s := s;
  icmp_can_recv _ := false;
  icmp_recv s := (None, s);
  icmp_can_send _ := true;
  icmp_send _ _ s := (true, s);
  tcp_open _ := false;
  tcp_abort s := s;
  tcp_start _ _ _ s := (true, mkPeer (p_ticks s) (tail (p_next s)) (default [] (hd_error (p_next s))) (p_sent s) (p_taken s));
  tcp_may_recv s := negb (bool_decide (p_in s = []));
  tcp_recv_queue _ := 0;
  tcp_may_send _ := true;
  tcp_send_slice data s := (Some (len data), mkPeer (p_ticks s) (p_next s) (p_in s) (p_sent s ++ data) (p_taken s));
  tcp_can_recv s := negb (bool_decide (p_in s = []));
  tcp_recv_slice size s :=
    match p_in s with
    | bs :: l => (Some (take (Z.to_nat size) bs), mkPeer (p_ticks s) (p_next s) l (p_sent s) (p_taken s ++ take (Z.to_nat size) bs))
    | [] => (None, s)
    end;
  tcp_shut s := s;
  udp_close s := s;
  udp_bind _ s := (true, s);
  udp_send_slice _ _ _ s := (true, s);
  udp_recv_from s := (None, s);
  dns_start _ s := (Some 0, s);
  dns_result _ s := (Failed, s);
  dns_cancel _ s := s;
}.

#[export] Instance peer_laws : SmoltcpLaws Peer.
Proof.
  refine (Build_SmoltcpLaws Peer _ p_sent _ _ _ _ _ _ _ _ _ _ _); cbn; intros; try (split; [lia|done]).
  split; [lia|]. split; [unfold len; lia|]. f_equal. unfold len. by rewrite Nat2Z.id, take_ge.
Defined.

#[export] Instance peer_receive : ReceiveLaws Peer.
Proof.
  refine (Build_ReceiveLaws Peer _ p_taken _ _ _ _ _ _ _ _); cbn; intros; try (split; [lia|done]).
  destruct (p_in s) as [|bs l]; cbn; (split; [lia|]).
  - by rewrite app_nil_r.
  - split; [done|]. unfold len. rewrite length_take. lia.
Defined.

(** A TLS connection to a server that closes. *)
#[export] Instance peer_tls : Tls Peer unit := {
  tls_new _ := tt;
  tls_open _ c := mret c;
  tls_write _ data c := mret (len data, c);
  tls_flush _ c := mret c;
  tls_read _ _ c := mret ([], c);
  tls_close _ := mret tt;
}.

#[export] Instance peer_tls_laws : TlsLaws Peer unit.
Proof.
  split; intros; try apply runs_ret; intros n a n' [= <- <-]; cbn; [unfold len; lia|done].
Defined.

#[export] Instance peer_tls_safe : TlsSafe Peer unit.
Proof. split; intros; by intros n n' [=]. Defined.

Definition served (answers : list (list (list Z))) : Net Peer :=
  mkNetState NetConfig_default (Some (mkPeer 0 (tail answers) (default [] (hd_error answers)) [] [])) 0 0 0 0 1 49152.

Definition head : list Z := bytes_of_string "HTTP/1.0 200 OK" ++ crlf ++ crlf.
Definition fuel : nat := Z.to_nat 65536.

Definition text_of (r : option (Outcome Document * Net Peer)) : option (list Z) :=
  match r with Some (Returns d, _) => Some (to_text d) | _ => None end.

Lemma fetch_returns_witness :
  ∃ (urls : list (list Z)) r n', fetch_and_render fuel (bytes_of_string "http://10.0.2.9/a") (served [[]; [head; bytes_of_string "<p>hello</p>"]]) = Some (r, n') ∧
    is_up n' ∧ (length urls ≤ 5)%nat ∧ ∀ doc, r = Returns doc → doc_ok doc.
Proof.
  destruct (fetch_returns fuel (bytes_of_string "http://10.0.2.9/a") (served [[]; [head; bytes_of_string "<p>hello</p>"]]))
    as (urls & r & n' & E & Hn & _ & Hl & Hd & _); [by eexists|unfold fuel; lia|].
  exists urls, r, n'. split; [exact E|]. split; [exact Hn|]. split; [exact Hl|exact Hd].
Defined.

Lemma response_text_witness :
  ∃ reads n', read_response fuel yield_now 0 8000 800 (mkResponse [] 0 false) (served [[[104; 105]; [33]]]) = Some (texts reads, n') ∧
    read_since (served [[[104; 105]; [33]]]) n' (concat reads).
Proof.
  destruct (response_text yield_now 8000 800 fuel (served [[[104; 105]; [33]]])) as (reads & n' & E & Hs & _);
    [apply yield_rests|by eexists|unfold fuel; lia|]. exists reads, n'. split; [exact E|exact Hs].
Defined.

(** A processor that has no [rdrand]. *)
Lemma rng_fills_witness :
  let rdrand := rdrand_u64 (λ _ : unit, 0) (λ p, (0, true, p)) in
  let '(state, p) := rng_new rdrand 0 0 0 0 0 (mkCpu 0 tt) in
  let '(bs, state', _) := fill_bytes rdrand 20 20 state p in
  0 < state < 2 ^ 64 ∧ length bs = 20%nat ∧ is_bytes bs ∧ 0 < state' < 2 ^ 64.
Proof.
  apply (rng_fills (rdrand_u64 (λ _ : unit, 0) (λ p, (0, true, p))) (support_ok (λ _, 0)) 0 0 0 0 0 (mkCpu 0 tt) 20); [lia|lia| |by left].
  intros c Hc. pose proof (rdrand_u64_spec (λ _ : unit, 0) (λ p, (0, true, p)) (λ _, eq_refl) c Hc) as H.
  destruct (rdrand_u64 _ _ c) as [v c']. cbn in H |- *. by destruct H as (? & _ & _ & ->).
Defined.

(** A word of [rdrand] that cancels the state, and then none. *)
Lemma rng_sticks_witness :
  let rdrand := λ p : bool, if p then (Some 5, false) else (None, false) in
  let '(_, state, p1) := next_word rdrand (rotate_left 5 17) true in
  ∀ n, (fill_bytes rdrand n n state p1).1.1 = replicate n 0.
Proof.
  refine (rng_sticks (λ p : bool, if p then (Some 5, false) else (None, false)) 5 true false (λ p, p = false) eq_refl eq_refl _).
  by intros ? ->.
Defined.

(** The page, and the request the server got. *)
Example page_shown :
  text_of (fetch_and_render fuel (bytes_of_string "http://10.0.2.9/a") (served [[]; [head; bytes_of_string "<p>hello</p>"]])) =
  Some (bytes_of_string "hello" ++ [10]).
Proof. by vm_compute. Qed.

(** A redirect is followed; one that goes round ends after five requests. *)
Definition moved : list Z :=
  bytes_of_string "HTTP/1.0 302 Found" ++ crlf ++ bytes_of_string "Location: /a" ++ crlf ++ crlf.

Example redirects_end :
  match fetch_and_render fuel (bytes_of_string "http://10.0.2.9/a") (served [[]; [moved]; [moved]; [moved]; [moved]; [moved]; [head]]) with
  | Some (Fails e, n') => e = too_many
  | _ => False
  end.
Proof. by vm_compute. Qed.

(** A character that falls on two reads is lost: each read is decoded by itself. *)
Example split_character :
  text_of (fetch_and_render fuel (bytes_of_string "http://10.0.2.9/a") (served [[]; [head ++ [195]; [169]]])) =
    Some ([239; 191; 189; 239; 191; 189] ++ [10]) ∧
  text_of (fetch_and_render fuel (bytes_of_string "http://10.0.2.9/a") (served [[]; [head ++ [195; 169]]])) = Some ([195; 169] ++ [10]).
Proof. split; by vm_compute. Qed.

End HttpExample.
