(* ===== verification/Editor.v ===== *)
(** * The text editor: [TextEditorState] of [gui/mod.rs]

    The lines, the cursor, the undo history and every operation.  A position in a
    line counts bytes, as the indices into a [String] do; an operation that indexes
    beyond a vector or inside a character panics. *)

From S2P Require Import Prelude Bytes Str Vfs Files.

(** ** State *)

(** The lines and the cursor's line and column. *)
Definition Snapshot : Type := (list (list Z) * nat * nat)%type.

Record Editor : Type := mkEditor {
  lines : list (list Z);
  cursor_line : nat;
  cursor_col : nat;
  scroll_y : nat;
  scroll_x : nat;
  filename : option (list Z);
  modified : bool;
  undo_stack : list Snapshot;
  redo_stack : list Snapshot;
  selection_start : option (nat * nat);
  cursor_visible : bool;
  blink_counter : Z;
}.

Definition Editor_new : Editor := mkEditor [[]] 0 0 0 0 None false [] [] None true 0.

Definition set_text (ls : list (list Z)) (line col : nat) (e : Editor) : Editor :=
  mkEditor ls line col (scroll_y e) (scroll_x e) (filename e) (modified e) (undo_stack e) (redo_stack e)
    (selection_start e) (cursor_visible e) (blink_counter e).

Definition set_cursor (line col : nat) (e : Editor) : Editor := set_text (lines e) line col e.

Definition set_scroll (sy sx : nat) (e : Editor) : Editor :=
  mkEditor (lines e) (cursor_line e) (cursor_col e) sy sx (filename e) (modified e) (undo_stack e) (redo_stack e)
    (selection_start e) (cursor_visible e) (blink_counter e).

Definition set_modified (m : bool) (e : Editor) : Editor :=
  mkEditor (lines e) (cursor_line e) (cursor_col e) (scroll_y e) (scroll_x e) (filename e) m (undo_stack e)
    (redo_stack e) (selection_start e) (cursor_visible e) (blink_counter e).

Definition set_history (undos redos : list Snapshot) (e : Editor) : Editor :=
  mkEditor (lines e) (cursor_line e) (cursor_col e) (scroll_y e) (scroll_x e) (filename e) (modified e) undos redos
    (selection_start e) (cursor_visible e) (blink_counter e).

Definition clear_selection (e : Editor) : Editor :=
  mkEditor (lines e) (cursor_line e) (cursor_col e) (scroll_y e) (scroll_x e) (filename e) (modified e) (undo_stack e)
    (redo_stack e) None (cursor_visible e) (blink_counter e).

Definition set_blink (visible : bool) (counter : Z) (e : Editor) : Editor :=
  mkEditor (lines e) (cursor_line e) (cursor_col e) (scroll_y e) (scroll_x e) (filename e) (modified e) (undo_stack e)
    (redo_stack e) (selection_start e) visible counter.

(** ** Strings and vectors *)

(** [self.lines.join("\n")] *)
Fixpoint join_lines (ls : list (list Z)) : list Z :=
  match ls with
  | [] => []
  | [l] => l
  | l :: ls => l ++ 10 :: join_lines ls
  end.

(** [v.pop()] *)
Definition vec_pop {A} (v : list A) : option (A * list A) :=
  match reverse v with [] => None | x :: r => Some (x, reverse r) end.

(** [s.split_at(i)] *)
Definition str_split_at (i : nat) (s : list Z) : res (list Z * list Z) :=
  if is_char_boundary s (Z.of_nat i) then Ok (take i s, drop i s) else Panic.

(** [s.insert(i, c)] *)
Definition str_insert (i : nat) (c s : list Z) : res (list Z) :=
  if is_char_boundary s (Z.of_nat i) then Ok (take i s ++ c ++ drop i s) else Panic.

(** [s.remove(i)], which needs a character at [i]. *)
Definition str_remove (i : nat) (s : list Z) : res (list Z) :=
  if is_char_boundary s (Z.of_nat i)
  then match chars (drop i s) with c :: _ => Ok (take i s ++ drop (i + length c) s) | [] => Panic end
  else Panic.

(** [self.lines[i]], and [self.lines[i] = l]. *)
Definition line_at (i : nat) : M Editor (list Z) := λ e,
  match lines e !! i with Some l => (Ok l, e) | None => (Panic, e) end.

Definition set_line (i : nat) (l : list Z) : M Editor unit :=
  line_at i;; m_modify (λ e, set_text (<[i := l]> (lines e)) (cursor_line e) (cursor_col e) e).

(** [self.lines.insert(i, l)] and [self.lines.remove(i)]. *)
Definition insert_line (i : nat) (l : list Z) : M Editor unit := λ e,
  if decide (i ≤ length (lines e))%nat
  then (Ok tt, set_text (take i (lines e) ++ l :: drop i (lines e)) (cursor_line e) (cursor_col e) e)
  else (Panic, e).

Definition remove_line (i : nat) : M Editor (list Z) :=
  l ← line_at i;
  m_modify (λ e, set_text (delete i (lines e)) (cursor_line e) (cursor_col e) e);;
  mret l.

Definition go_to (line col : nat) : M Editor unit := m_modify (set_cursor line col).

(** ** Files *)

Definition content (e : Editor) : list Z := join_lines (lines e).

(** The editor of a text that was read. *)
Definition loaded_text (path text : list Z) (e : Editor) : Editor :=
  let ls := Str.lines text in
  mkEditor (if decide (ls = []) then [[]] else ls) 0 0 0 0 (Some path) false [] [] None (cursor_visible e) (blink_counter e).

Section EditorFiles.
Context {S I F : Type} `{!InodeOps S I, !FileSystemOps S I F}.

Definition load_file (path : list Z) (e : Editor) : M (VFS S I F) Editor := λ v,
  match read_file path v with
  | (Ok bs, v) => (Ok (loaded_text path (from_utf8_lossy bs) e), v)
  | (Err _, v) => (Ok e, v)
  | (Panic, v) => (Panic, v)
  end.

Definition save_file (e : Editor) : M (VFS S I F) (bool * Editor) :=
  match filename e with
  | None => mret (false, e)
  | Some path => λ v,
      match write_file path (content e) v with
      | (Ok _, v) => (Ok (true, set_modified false e), v)
      | (Err _, v) => (Ok (false, e), v)
      | (Panic, v) => (Panic, v)
      end
  end.

End EditorFiles.

(** ** Undo *)

Definition snapshot (e : Editor) : Snapshot := (lines e, cursor_line e, cursor_col e).

Definition restore (s : Snapshot) (e : Editor) : Editor :=
  let '(ls, line, col) := s in set_modified true (set_text ls line col e).

Definition push_undo (e : Editor) : Editor :=
  let undos := undo_stack e ++ [snapshot e] in
  set_history (if decide (100 < length undos)%nat then drop 1 undos else undos) [] e.

Definition undo (e : Editor) : Editor :=
  match vec_pop (undo_stack e) with
  | Some (s, undos) => restore s (set_history undos (redo_stack e ++ [snapshot e]) e)
  | None => e
  end.

Definition redo (e : Editor) : Editor :=
  match vec_pop (redo_stack e) with
  | Some (s, redos) => restore s (set_history (undo_stack e ++ [snapshot e]) redos e)
  | None => e
  end.

(** ** Editing *)

Definition begin_edit : M Editor unit := m_modify (λ e, clear_selection (push_undo e)).

Definition newline : list Z := [10].

(** [c] is the encoding of a character. *)
Definition insert_char (c : list Z) : M Editor unit :=
  begin_edit;;
  e ← m_get;
  current ← line_at (cursor_line e);
  (if bool_decide (c = newline) then
     p ← m_lift (str_split_at (Nat.min (cursor_col e) (length current)) current);
     set_line (cursor_line e) p.1;;
     insert_line (S (cursor_line e)) p.2;;
     go_to (S (cursor_line e)) 0
   else
     l ← m_lift (if decide (length current ≤ cursor_col e)%nat then Ok (current ++ c) else str_insert (cursor_col e) c current);
     set_line (cursor_line e) l;;
     go_to (cursor_line e) (S (cursor_col e)));;
  m_modify (set_modified true).

Definition delete_char : M Editor unit :=
  begin_edit;;
  e ← m_get;
  (match cursor_col e, cursor_line e with
   | S col, line =>
       l ← line_at line;
       (if decide (S col ≤ length l)%nat then l' ← m_lift (str_remove col l); set_line line l' else mret tt);;
       go_to line col
   | O, S line =>
       current ← remove_line (S line);
       l ← line_at line;
       set_line line (l ++ current);;
       go_to line (length l)
   | O, O => mret tt
   end);;
  m_modify (set_modified true).

Definition delete_forward : M Editor unit :=
  begin_edit;;
  e ← m_get;
  l ← line_at (cursor_line e);
  if decide (cursor_col e < length l)%nat then
    l' ← m_lift (str_remove (cursor_col e) l);
    set_line (cursor_line e) l';;
    m_modify (set_modified true)
  else if decide (S (cursor_line e) < length (lines e))%nat then
    next ← remove_line (S (cursor_line e));
    set_line (cursor_line e) (l ++ next);;
    m_modify (set_modified true)
  else mret tt.

(** ** Moving *)

(** The column is cut to the length of the new line. *)
Definition go_to_line (line : nat) : M Editor unit :=
  e ← m_get;
  l ← line_at line;
  go_to line (if decide (length l < cursor_col e)%nat then length l else cursor_col e).

Definition move_up : M Editor unit :=
  e ← m_get;
  match cursor_line e with O => mret tt | S line => go_to_line line end.

Definition move_down : M Editor unit :=
  e ← m_get;
  if decide (S (cursor_line e) < length (lines e))%nat then go_to_line (S (cursor_line e)) else mret tt.

Definition move_left : M Editor unit :=
  e ← m_get;
  match cursor_col e, cursor_line e with
  | S col, line => go_to line col
  | O, S line => l ← line_at line; go_to line (length l)
  | O, O => mret tt
  end.

Definition move_right : M Editor unit :=
  e ← m_get;
  l ← line_at (cursor_line e);
  if decide (cursor_col e < length l)%nat then go_to (cursor_line e) (S (cursor_col e))
  else if decide (S (cursor_line e) < length (lines e))%nat then go_to (S (cursor_line e)) 0
  else mret tt.

Definition move_home : M Editor unit := e ← m_get; go_to (cursor_line e) 0.

Definition move_end : M Editor unit :=
  e ← m_get;
  l ← line_at (cursor_line e);
  go_to (cursor_line e) (length l).

Definition move_to_start : M Editor unit := go_to 0 0.

Definition move_to_end : M Editor unit :=
  e ← m_get;
  l ← line_at (length (lines e) - 1);
  go_to (length (lines e) - 1) (length l).

Definition page_up (visible_lines : nat) : M Editor unit :=
  e ← m_get; go_to_line (cursor_line e - visible_lines).

Definition page_down (visible_lines : nat) : M Editor unit :=
  e ← m_get; go_to_line (Nat.min (cursor_line e + visible_lines) (length (lines e) - 1)).

(** ** Display *)

(** The first row shown when [pos] has to be among [visible]. *)
Definition scroll_to (pos visible scroll : nat) : nat :=
  if decide (pos < scroll)%nat then pos
  else if decide (scroll + visible ≤ pos)%nat then (pos - visible + 1)%nat
  else scroll.

Definition ensure_cursor_visible (visible_lines visible_cols : nat) (e : Editor) : Editor :=
  set_scroll (scroll_to (cursor_line e) visible_lines (scroll_y e)) (scroll_to (cursor_col e) visible_cols (scroll_x e)) e.

Definition update_blink (e : Editor) : Editor :=
  let counter := u32 (blink_counter e + 1) in
  if 30 <=? counter then set_blink (negb (cursor_visible e)) 0 e else set_blink (cursor_visible e) counter e.

Definition line_count (e : Editor) : nat := length (lines e).

Definition char_count (e : Editor) : nat := sum_list (map length (lines e)) + (length (lines e) - 1).
