(* ===== verification/EditorSpec.v ===== *)
(** * The text editor keeps a text with a cursor

    A text of ASCII characters is the part before the cursor and the part after it.
    Every editing operation is the corresponding operation on the two parts
    ([editor_refines]), undo takes an edit back and redo repeats it
    ([undo_redo]), and a saved text is loaded again, but for an empty last line
    ([save_load_roundtrip]). *)

From S2P Require Import Prelude Bytes Str Vfs Files RamFS FilesSpec RamSpec Editor.

(** ** The specification *)

(** The text before the cursor and after it. *)
Definition Gap : Type := (list Z * list Z)%type.

(** The text, the texts to go back to and the ones to come back to. *)
Record Buffer : Type := mkBuffer { gap : Gap; undos : list Gap; redos : list Gap }.

(** The last line of a text: what follows the last newline. *)
Fixpoint last_line (s : list Z) : list Z :=
  match s with
  | [] => []
  | c :: s => if bool_decide (10 ∈ s) then last_line s else if c =? 10 then s else c :: s
  end.

Definition first_line (s : list Z) : list Z := before_byte 10 s.

(** Lines with a newline after, and before, each of them. *)
Definition lead (ls : list (list Z)) : list Z := concat (map (λ l, l ++ [10]) ls).
Definition trail (ls : list (list Z)) : list Z := concat (map (cons 10) ls).

Inductive EdOp : Type :=
| Insert (c : Z) | Backspace | Delete | Left | Right | Home | End | Start | Finish
| Up | Down | PageUp (visible_lines : nat) | PageDown (visible_lines : nat) | Undo | Redo.

(** The edits, which can be undone. *)
Definition edit (op : EdOp) (g : Gap) : option Gap :=
  let '(b, a) := g in
  match op with
  | Insert c => Some (b ++ [c], a)
  | Backspace => Some (take (length b - 1) b, a)
  | Delete => Some (b, drop 1 a)
  | _ => None
  end.

(** The movements: some characters change sides. *)
Definition back (n : nat) (g : Gap) : Gap :=
  let '(b, a) := g in (take (length b - n) b, drop (length b - n) b ++ a).
Definition forward (n : nat) (g : Gap) : Gap := let '(b, a) := g in (b ++ take n a, drop n a).

Definition newlines (s : list Z) : nat := length (filter (λ c, c = 10) s).

(** To the same column of line [n] of the text, or to its end when it is shorter. *)
Definition to_line (n : nat) (g : Gap) : Gap :=
  let text := g.1 ++ g.2 in
  let ls := split_byte 10 text in
  let pos := (length (lead (take n ls)) + Nat.min (length (last_line g.1)) (length (default [] (ls !! n))))%nat in
  (take pos text, drop pos text).

Definition move (op : EdOp) (g : Gap) : Gap :=
  match op with
  | Left => back 1 g
  | Right => forward 1 g
  | Home => back (length (last_line g.1)) g
  | End => forward (length (first_line g.2)) g
  | Start => back (length g.1) g
  | Finish => forward (length g.2) g
  | Up => to_line (newlines g.1 - 1) g
  | Down => to_line (Nat.min (S (newlines g.1)) (newlines (g.1 ++ g.2))) g
  | PageUp n => to_line (newlines g.1 - n) g
  | PageDown n => to_line (Nat.min (newlines g.1 + n) (newlines (g.1 ++ g.2))) g
  | _ => g
  end.

(** The last hundred. *)
Definition remember (g : Gap) (gs : list Gap) : list Gap :=
  drop (length (gs ++ [g]) - 100) (gs ++ [g]).

Definition buffer_op (op : EdOp) (s : Buffer) : Buffer :=
  match op, edit op (gap s) with
  | _, Some g => mkBuffer g (remember (gap s) (undos s)) []
  | Undo, _ =>
      match vec_pop (undos s) with Some (g, us) => mkBuffer g us (redos s ++ [gap s]) | None => s end
  | Redo, _ =>
      match vec_pop (redos s) with Some (g, rs) => mkBuffer g (undos s ++ [gap s]) rs | None => s end
  | _, _ => mkBuffer (move op (gap s)) (undos s) (redos s)
  end.

(** ** What the editor does *)

Definition run_op (op : EdOp) : M Editor unit :=
  match op with
  | Insert c => insert_char [c]
  | Backspace => delete_char
  | Delete => delete_forward
  | Left => move_left
  | Right => move_right
  | Home => move_home
  | End => move_end
  | Start => move_to_start
  | Finish => move_to_end
  | Up => move_up
  | Down => move_down
  | PageUp n => page_up n
  | PageDown n => page_down n
  | Undo => m_modify undo
  | Redo => m_modify redo
  end.

Definition ascii (c : Z) : Prop := 0 ≤ c < 128.
Definition line_ok (l : list Z) : Prop := Forall (λ c, ascii c ∧ c ≠ 10) l.

#[export] Instance line_ok_dec l : Decision (line_ok l).
Proof. unfold line_ok, ascii. apply _. Defined.

(** The cursor is in the text. *)
Definition snapshot_ok (s : Snapshot) : Prop :=
  let '(ls, line, col) := s in
  Forall line_ok ls ∧ match ls !! line with Some l => (col ≤ length l)%nat | None => False end.

#[export] Instance snapshot_ok_dec s : Decision (snapshot_ok s).
Proof. destruct s as [[ls line] col]. cbn. destruct (ls !! line); apply _. Defined.

Record editor_ok (e : Editor) : Prop := {
  eo_now : snapshot_ok (snapshot e);
  eo_undo : Forall snapshot_ok (undo_stack e);
  eo_redo : Forall snapshot_ok (redo_stack e);
  eo_history : (length (undo_stack e) + length (redo_stack e) ≤ 100)%nat;
}.

Definition gap_of (s : Snapshot) : Gap :=
  let '(ls, line, col) := s in
  let l := default [] (ls !! line) in
  (lead (take line ls) ++ take col l, drop col l ++ trail (drop (S line) ls)).

Definition buffer_of (e : Editor) : Buffer :=
  mkBuffer (gap_of (snapshot e)) (map gap_of (undo_stack e)) (map gap_of (redo_stack e)).

(** ** Lines *)

Lemma lead_app ls ks : lead (ls ++ ks) = lead ls ++ lead ks.
Proof. unfold lead. by rewrite map_app, concat_app. Qed.

Lemma lead_snoc ls l : lead (ls ++ [l]) = lead ls ++ l ++ [10].
Proof. rewrite lead_app. unfold lead at 2. cbn. by rewrite app_nil_r. Qed.

Lemma join_lines_cons l ls : join_lines (l :: ls) = l ++ trail ls.
Proof.
  revert l. induction ls as [|k ls IH]; intros l; cbn [join_lines]; [cbn; by rewrite app_nil_r|].
  f_equal. unfold trail. cbn. f_equal. apply IH.
Qed.

Lemma join_lines_split ls l ks : join_lines (ls ++ l :: ks) = lead ls ++ l ++ trail ks.
Proof.
  induction ls as [|k ls IH]; cbn [app]; [apply join_lines_cons|].
  rewrite join_lines_cons. unfold lead. cbn. rewrite <- !app_assoc. f_equal. cbn. f_equal. fold (lead ls).
  rewrite <- IH. destruct ls as [|k' ls]; cbn [app] in *; rewrite join_lines_cons; unfold trail; reflexivity.
Qed.

(** The two parts make up the text. *)
Lemma content_gap e : editor_ok e → content e = (gap_of (snapshot e)).1 ++ (gap_of (snapshot e)).2.
Proof.
  intros [[_ Hc] _ _ _]. unfold content, gap_of, snapshot in *. destruct (lines e !! cursor_line e) as [l|] eqn:El; [|done].
  cbn. rewrite <- (take_drop_middle _ _ _ El) at 1. rewrite join_lines_split, <- !app_assoc. f_equal.
  rewrite app_assoc, take_drop. done.
Qed.

(** ** Strings of ASCII characters *)

Lemma ascii_boundary s i : line_ok s → (i ≤ length s)%nat → is_char_boundary s (Z.of_nat i) = true.
Proof.
  intros Hs Hi. unfold is_char_boundary. rewrite Nat2Z.id. destruct (s !! i) as [b|] eqn:E.
  - unfold line_ok in Hs. rewrite Forall_lookup in Hs. apply Hs in E as [[E1 E2] _]. unfold is_cont. apply negb_true_iff, andb_false_iff. left. lia.
  - apply lookup_ge_None in E. unfold len. apply Z.eqb_eq. lia.
Qed.

Lemma split_at_line p q : line_ok (p ++ q) → str_split_at (length p) (p ++ q) = Ok (p, q).
Proof.
  intros H. unfold str_split_at. rewrite ascii_boundary by (rewrite ?length_app; done || lia).
  by rewrite take_app_length, drop_app_length.
Qed.

Lemma insert_line_char p q c : line_ok (p ++ q) → str_insert (length p) c (p ++ q) = Ok (p ++ c ++ q).
Proof.
  intros H. unfold str_insert. rewrite ascii_boundary by (rewrite ?length_app; done || lia).
  by rewrite take_app_length, drop_app_length.
Qed.

Lemma remove_line_char p x q : line_ok (p ++ x :: q) → str_remove (length p) (p ++ x :: q) = Ok (p ++ q).
Proof.
  intros H. unfold str_remove. rewrite ascii_boundary by (rewrite ?length_app; done || lia).
  rewrite drop_app_length, take_app_length. apply Forall_app in H as [_ [[[H1 H2] _] _]%Forall_cons].
  assert (∃ cs, chars (x :: q) = [x] :: cs) as [cs ->].
  { unfold chars. cbn [length chars_fuel]. unfold utf8_step. rewrite (proj2 (Z.ltb_lt x 0x80)) by lia. cbn. by eexists. }
  f_equal. cbn [length]. rewrite drop_app_ge by lia.
  replace (length p + 1 - length p)%nat with 1%nat by lia. done.
Qed.

(** ** The cursor in the lines *)

(** A text cut at the cursor: the lines above, the two parts of the current line, the
    lines below. *)
Definition place (A : list (list Z)) (p q : list Z) (B : list (list Z)) (e : Editor) : Editor :=
  set_text (A ++ (p ++ q) :: B) (length A) (length p) e.

Lemma lookup_here {X} (A : list X) x B : (A ++ x :: B) !! length A = Some x.
Proof. by apply list_lookup_middle. Qed.

Lemma insert_here {X} (A : list X) x y B : <[length A := y]> (A ++ x :: B) = A ++ y :: B.
Proof. rewrite <- (Nat.add_0_r (length A)) at 1. by rewrite insert_app_r. Qed.

Lemma line_at_text A x B i j e :
  line_at (length A) (set_text (A ++ x :: B) i j e) = (Ok x, set_text (A ++ x :: B) i j e).
Proof. unfold line_at. cbn [lines set_text]. by rewrite lookup_here. Qed.

Lemma set_line_text A x y B i j e :
  set_line (length A) y (set_text (A ++ x :: B) i j e) = (Ok tt, set_text (A ++ y :: B) i j e).
Proof.
  unfold set_line. rewrite (M_bind_run _ _ _ _ _ (line_at_text A x B i j e)). unfold m_modify. cbn [lines set_text].
  by rewrite insert_here.
Qed.

Lemma insert_line_text A x y B i j e :
  insert_line (S (length A)) y (set_text (A ++ x :: B) i j e) = (Ok tt, set_text (A ++ x :: y :: B) i j e).
Proof.
  unfold insert_line. cbn [lines set_text]. rewrite decide_True by (rewrite length_app; cbn; lia).
  assert (S (length A) = length (A ++ [x])) as -> by (rewrite length_app; cbn; lia).
  replace (A ++ x :: B) with ((A ++ [x]) ++ B) by (by rewrite <- app_assoc).
  rewrite take_app_length, drop_app_length. by rewrite <- app_assoc.
Qed.

Lemma remove_line_text A x y B i j e :
  remove_line (S (length A)) (set_text (A ++ x :: y :: B) i j e) = (Ok y, set_text (A ++ x :: B) i j e).
Proof.
  assert (S (length A) = length (A ++ [x])) as -> by (rewrite length_app; cbn; lia).
  unfold remove_line. replace (A ++ x :: y :: B) with ((A ++ [x]) ++ y :: B) by (by rewrite <- app_assoc).
  rewrite (M_bind_run _ _ _ _ _ (line_at_text (A ++ [x]) y B i j e)).
  rewrite M_modify_run. cbn [lines set_text cursor_line cursor_col]. by rewrite delete_middle, <- app_assoc.
Qed.

(** The state an edit starts from. *)
Definition begun (e : Editor) : Editor := clear_selection (push_undo e).

Lemma begin_edit_run {X} (f : unit → M Editor X) e : (begin_edit ≫= f) e = f tt (begun e).
Proof. done. Qed.

Lemma begun_text ls i j e :
  begun (set_text ls i j e) = set_text ls i j (begun (set_text ls i j e)).
Proof. unfold begun, push_undo, clear_selection, set_history, set_text. done. Qed.

Lemma place_self A p q B e : place A p q B e = set_text (A ++ (p ++ q) :: B) (length A) (length p) e.
Proof. done. Qed.

Lemma place_ok e : snapshot_ok (snapshot e) → ∃ A p q B, e = place A p q B e ∧ Forall line_ok A ∧ line_ok (p ++ q) ∧ Forall line_ok B.
Proof.
  unfold snapshot_ok, snapshot. intros [Hl Hc]. destruct (lines e !! cursor_line e) as [l|] eqn:El; [|done].
  pose proof (take_drop_middle _ _ _ El) as E.
  exists (take (cursor_line e) (lines e)), (take (cursor_col e) l), (drop (cursor_col e) l), (drop (S (cursor_line e)) (lines e)).
  rewrite take_drop. split.
  - unfold place. rewrite take_drop, E. apply lookup_lt_Some in El.
    rewrite !length_take_le by lia. by destruct e.
  - rewrite <- E in Hl. apply Forall_app in Hl as [H1 [H2 H3]%Forall_cons]. done.
Qed.

Lemma gap_of_place A p q B : gap_of (A ++ (p ++ q) :: B, length A, length p) = (lead A ++ p, q ++ trail B).
Proof.
  unfold gap_of. rewrite lookup_here. cbn [default from_option id].
  rewrite !take_app_length, drop_app_length.
  replace (A ++ (p ++ q) :: B) with ((A ++ [p ++ q]) ++ B) by (by rewrite <- app_assoc).
  rewrite drop_app_length'; [done|]. rewrite length_app. cbn. lia.
Qed.

Lemma snapshot_ok_place A p q B :
  Forall line_ok A → line_ok (p ++ q) → Forall line_ok B → snapshot_ok (A ++ (p ++ q) :: B, length A, length p).
Proof.
  intros HA Hl HB. unfold snapshot_ok. split; [by apply Forall_app; split; [|constructor]|].
  rewrite lookup_here, length_app. lia.
Qed.

(** ** The operations, at a place *)

Ltac run_line :=
  first [rewrite (M_bind_run _ _ _ _ _ (line_at_text _ _ _ _ _ _))
        |rewrite (M_bind_run _ _ _ _ _ (set_line_text _ _ _ _ _ _ _))
        |rewrite (M_bind_run _ _ _ _ _ (insert_line_text _ _ _ _ _ _ _))
        |rewrite (M_bind_run _ _ _ _ _ (remove_line_text _ _ _ _ _ _ _))].

(** Start an edit at a place: the state is the one with the undo recorded. *)
Ltac start_edit :=
  rewrite begin_edit_run; unfold place at 1; rewrite begun_text;
  match goal with |- context [set_text _ _ _ (begun ?x)] => set (b := begun x) end;
  rewrite M_get_run; cbn [lines cursor_line cursor_col set_text].

Definition edited A p q B (e : Editor) : Editor := set_modified true (place A p q B (begun e)).

Lemma insert_newline_run A p q B e :
  line_ok (p ++ q) →
  insert_char newline (place A p q B e) = (Ok tt, edited (A ++ [p]) [] q B (place A p q B e)).
Proof.
  intros Hl. unfold insert_char. start_edit. run_line. rewrite bool_decide_eq_true_2 by done.
  rewrite Nat.min_l by (rewrite length_app; lia). rewrite split_at_line by done.
  unfold mbind at 1, M_bind at 1. rewrite M_lift_run. cbn [fst snd]. run_line. run_line.
  unfold go_to, m_modify. unfold edited, place. subst b. rewrite length_app, <- app_assoc. cbn [length app]. rewrite Nat.add_1_r. done.
Qed.

Lemma insert_char_run c A p q B e :
  line_ok (p ++ q) → c ≠ 10 →
  insert_char [c] (place A p q B e) = (Ok tt, edited A (p ++ [c]) q B (place A p q B e)).
Proof.
  intros Hl Hc. unfold insert_char. start_edit. run_line. rewrite bool_decide_eq_false_2 by (unfold newline; congruence).
  unfold mbind at 1, M_bind at 1.
  assert ((if decide (length (p ++ q) ≤ length p)%nat then Ok ((p ++ q) ++ [c]) else str_insert (length p) [c] (p ++ q))
    = Ok ((p ++ [c]) ++ q)) as ->.
  { case_decide as Hq; [|rewrite insert_line_char by done; by rewrite <- app_assoc].
    rewrite length_app in Hq. destruct q; [by rewrite !app_nil_r|cbn in Hq; lia]. }
  rewrite M_lift_run. run_line.
  unfold go_to, m_modify. unfold edited, place. subst b. rewrite (length_app p [c]). cbn [length]. rewrite Nat.add_1_r. done.
Qed.

Lemma delete_back_run A p x q B e :
  line_ok ((p ++ [x]) ++ q) →
  delete_char (place A (p ++ [x]) q B e) = (Ok tt, edited A p q B (place A (p ++ [x]) q B e)).
Proof.
  intros Hl. unfold delete_char. start_edit. rewrite length_app, Nat.add_1_r in *.
  unfold mbind at 1, M_bind at 1. run_line. rewrite decide_True by (rewrite !length_app; cbn; lia).
  rewrite <- app_assoc in *. cbn [app] in *. rewrite remove_line_char by done.
  unfold mbind at 1, M_bind at 1. rewrite M_lift_run, set_line_text. done.
Qed.

Lemma delete_join_run A l q B e :
  delete_char (place (A ++ [l]) [] q B e) = (Ok tt, edited A l q B (place (A ++ [l]) [] q B e)).
Proof.
  unfold delete_char. start_edit. rewrite !length_app, Nat.add_1_r in *. cbn [length]. rewrite <- !app_assoc. cbn [app].
  unfold mbind at 1, M_bind at 1. run_line. run_line. run_line. done.
Qed.

Lemma delete_none_run q B e :
  delete_char (place [] [] q B e) = (Ok tt, edited [] [] q B (place [] [] q B e)).
Proof. unfold delete_char. start_edit. done. Qed.

Lemma delete_here_run A p x q B e :
  line_ok (p ++ x :: q) →
  delete_forward (place A p (x :: q) B e) = (Ok tt, edited A p q B (place A p (x :: q) B e)).
Proof.
  intros Hl. unfold delete_forward. start_edit. run_line. rewrite decide_True by (rewrite !length_app; cbn; lia).
  rewrite remove_line_char by done. rewrite M_lift_run. run_line. done.
Qed.

Lemma delete_next_run A p l B e :
  delete_forward (place A p [] (l :: B) e) = (Ok tt, edited A p l B (place A p [] (l :: B) e)).
Proof.
  unfold delete_forward. start_edit. run_line. rewrite app_nil_r, decide_False by lia.
  rewrite decide_True by (rewrite !length_app; cbn; lia). run_line. run_line. done.
Qed.

Lemma delete_nothing_run A p e :
  delete_forward (place A p [] [] e) = (Ok tt, place A p [] [] (begun (place A p [] [] e))).
Proof.
  unfold delete_forward. start_edit. run_line. rewrite app_nil_r, decide_False by lia.
  rewrite decide_False by (rewrite !length_app; cbn; lia). subst b. unfold place. by rewrite app_nil_r.
Qed.

(** ** The operations follow the specification *)

Definition is_history (op : EdOp) : bool := match op with Undo | Redo => true | _ => false end.

Lemma buffer_op_edit op s g : edit op (gap s) = Some g → buffer_op op s = mkBuffer g (remember (gap s) (undos s)) [].
Proof. intros E. by destruct op; cbn [buffer_op]; rewrite E. Qed.

Lemma buffer_op_move op s : edit op (gap s) = None → is_history op = false → buffer_op op s = mkBuffer (move op (gap s)) (undos s) (redos s).
Proof. intros E Hh. by destruct op; cbn [buffer_op]; rewrite ?E. Qed.

Lemma remember_stack s stack :
  (length stack ≤ 100)%nat →
  remember (gap_of s) (map gap_of stack) =
  map gap_of (if decide (100 < length (stack ++ [s]))%nat then drop 1 (stack ++ [s]) else stack ++ [s]).
Proof.
  intros Hl. unfold remember. change [gap_of s] with (map gap_of [s]). rewrite <- map_app, length_map, length_app. cbn [length].
  case_decide as Hd; [|by replace (length stack + 1 - 100)%nat with O by lia].
  replace (length stack + 1 - 100)%nat with 1%nat by lia. by rewrite skipn_map.
Qed.

Lemma edit_refines op e e' :
  editor_ok e → snapshot_ok (snapshot e') → undo_stack e' = undo_stack (push_undo e) → redo_stack e' = [] →
  edit op (gap_of (snapshot e)) = Some (gap_of (snapshot e')) →
  editor_ok e' ∧ buffer_of e' = buffer_op op (buffer_of e).
Proof.
  intros [Hn Hu Hr Hh] Hs Eu Er E. split.
  - split; [done| |by rewrite Er|].
    + rewrite Eu. unfold push_undo. cbn. assert (Forall snapshot_ok (undo_stack e ++ [snapshot e])) as H by (apply Forall_app; split; [done|by constructor]).
      case_decide; [by apply Forall_drop|done].
    + rewrite Eu, Er. unfold push_undo. cbn. case_decide as Hd; rewrite ?length_drop, length_app in *; cbn in *; lia.
  - rewrite (buffer_op_edit op (buffer_of e) _ E). unfold buffer_of. rewrite Eu, Er. cbn [gap undos]. f_equal. symmetry. apply remember_stack. lia.
Qed.

Lemma move_refines op e line col :
  editor_ok e → snapshot_ok (lines e, line, col) → edit op (gap_of (snapshot e)) = None → is_history op = false →
  move op (gap_of (snapshot e)) = gap_of (lines e, line, col) →
  editor_ok (set_cursor line col e) ∧ buffer_of (set_cursor line col e) = buffer_op op (buffer_of e).
Proof.
  intros [Hn Hu Hr Hh] Hs E Eh Em. split; [by split|]. rewrite (buffer_op_move op (buffer_of e) E Eh). cbn [gap buffer_of]. by rewrite Em.
Qed.

(** *** The history *)

Lemma vec_pop_Some {A} (v : list A) x r : vec_pop v = Some (x, r) → v = r ++ [x].
Proof.
  unfold vec_pop. destruct (reverse v) as [|y w] eqn:E; [done|]. intros [= -> <-].
  rewrite <- (reverse_involutive v), E, reverse_cons. done.
Qed.

Lemma vec_pop_snoc {A} (r : list A) x : vec_pop (r ++ [x]) = Some (x, r).
Proof. unfold vec_pop. rewrite reverse_snoc. by rewrite reverse_involutive. Qed.

Lemma vec_pop_map {A B} (f : A → B) (v : list A) : vec_pop (map f v) = prod_map f (map f) <$> vec_pop v.
Proof.
  destruct v as [|x v _] using rev_ind; [done|]. rewrite map_app. cbn [map]. by rewrite !vec_pop_snoc.
Qed.

Lemma buffer_op_undo s :
  buffer_op Undo s = match vec_pop (undos s) with Some (g, us) => mkBuffer g us (redos s ++ [gap s]) | None => s end.
Proof. by destruct s as [[b a] us rs]. Qed.

Lemma buffer_op_redo s :
  buffer_op Redo s = match vec_pop (redos s) with Some (g, rs) => mkBuffer g (undos s ++ [gap s]) rs | None => s end.
Proof. by destruct s as [[b a] us rs]. Qed.

Lemma undo_refines e : editor_ok e → editor_ok (undo e) ∧ buffer_of (undo e) = buffer_op Undo (buffer_of e).
Proof.
  intros Hok. pose proof Hok as [Hn Hu Hr Hh]. rewrite buffer_op_undo. unfold undo.
  unfold buffer_of at 2. cbn [undos]. rewrite vec_pop_map.
  destruct (vec_pop (undo_stack e)) as [[[[ls line] col] us]|] eqn:E; [|done].
  apply vec_pop_Some in E. rewrite E in *. apply Forall_app in Hu as [Hu [Hs _]%Forall_cons]. rewrite length_app in Hh. cbn in Hh.
  split.
  - split; cbn; [done|done|by apply Forall_app; split; [|constructor]|rewrite length_app; cbn; lia].
  - unfold buffer_of. cbn. by rewrite map_app.
Qed.

Lemma redo_refines e : editor_ok e → editor_ok (redo e) ∧ buffer_of (redo e) = buffer_op Redo (buffer_of e).
Proof.
  intros Hok. pose proof Hok as [Hn Hu Hr Hh]. rewrite buffer_op_redo. unfold redo.
  unfold buffer_of at 2. cbn [redos]. rewrite vec_pop_map.
  destruct (vec_pop (redo_stack e)) as [[[[ls line] col] rs]|] eqn:E; [|done].
  apply vec_pop_Some in E. rewrite E in *. apply Forall_app in Hr as [Hr [Hs _]%Forall_cons]. rewrite length_app in Hh. cbn in Hh.
  split.
  - split; cbn; [done|by apply Forall_app; split; [|constructor]|done|rewrite length_app; cbn; lia].
  - unfold buffer_of. cbn. by rewrite map_app.
Qed.

(** *** Moving *)

Lemma back_app x y a : back (length y) (x ++ y, a) = (x, y ++ a).
Proof.
  unfold back. rewrite length_app, Nat.add_sub. by rewrite take_app_length, drop_app_length.
Qed.

Lemma forward_app b x y : forward (length x) (b, x ++ y) = (b ++ x, y).
Proof. unfold forward. by rewrite take_app_length, drop_app_length. Qed.

Lemma no_newline l : line_ok l → 10 ∉ l.
Proof. unfold line_ok. rewrite Forall_forall. intros H Hl. by apply (H 10) in Hl as [_ ?]. Qed.

Lemma last_line_place A p : line_ok p → last_line (lead A ++ p) = p.
Proof.
  intros Hp%no_newline. assert (∀ s, 10 ∉ p → last_line (s ++ 10 :: p) = p) as H.
  { intros s _. induction s as [|c s IH]; cbn [app last_line].
    - rewrite bool_decide_eq_false_2 by done. done.
    - rewrite bool_decide_eq_true_2; [done|]. apply elem_of_app. right. by constructor. }
  destruct A as [|l A _] using rev_ind.
  - cbn. destruct p as [|c p]; [done|]. apply not_elem_of_cons in Hp as [Hc Hp]. cbn [last_line].
    rewrite bool_decide_eq_false_2 by done. by rewrite (proj2 (Z.eqb_neq c 10)) by done.
  - rewrite lead_snoc, <- !app_assoc. cbn [app]. rewrite app_assoc. by apply H.
Qed.

Lemma first_line_place q B : line_ok q → first_line (q ++ trail B) = q.
Proof.
  intros Hq%no_newline. unfold first_line. induction q as [|c q IH]; cbn.
  - by destruct B.
  - apply not_elem_of_cons in Hq as [Hc Hq]. rewrite (proj2 (Z.eqb_neq c 10)) by done. by rewrite IH.
Qed.

Definition legal (op : EdOp) : Prop := match op with Insert c => ascii c | _ => True end.

Definition refines (op : EdOp) (e : Editor) : Prop :=
  ∃ e', run_op op e = (Ok tt, e') ∧ editor_ok e' ∧ buffer_of e' = buffer_op op (buffer_of e).

(** An edit that ends at another place. *)
Lemma edit_place op e A p q B A' p' q' B' :
  editor_ok e → e = place A p q B e → Forall line_ok A' → line_ok (p' ++ q') → Forall line_ok B' →
  run_op op (place A p q B e) = (Ok tt, edited A' p' q' B' (place A p q B e)) →
  edit op (lead A ++ p, q ++ trail B) = Some (lead A' ++ p', q' ++ trail B') →
  refines op e.
Proof.
  intros Hok E HA Hl HB Hrun Hed. rewrite <- E in Hrun. eexists. split; [exact Hrun|].
  apply edit_refines; [done|by apply snapshot_ok_place|done|done|].
  change (snapshot (edited A' p' q' B' e)) with (A' ++ (p' ++ q') :: B', length A', length p').
  rewrite (gap_of_place A' p' q' B').
  assert (gap_of (snapshot e) = (lead A ++ p, q ++ trail B)) as -> by (rewrite E; apply gap_of_place). done.
Qed.

(** A movement to another place of the same lines. *)
Lemma move_place op e A p q B A' p' q' B' :
  editor_ok e → e = place A p q B e → Forall line_ok A' → line_ok (p' ++ q') → Forall line_ok B' →
  A ++ (p ++ q) :: B = A' ++ (p' ++ q') :: B' →
  run_op op e = (Ok tt, set_cursor (length A') (length p') e) →
  edit op (lead A ++ p, q ++ trail B) = None → is_history op = false →
  move op (lead A ++ p, q ++ trail B) = (lead A' ++ p', q' ++ trail B') →
  refines op e.
Proof.
  intros Hok E HA Hl HB Hls Hrun Hed Hh Hmv. eexists. split; [exact Hrun|].
  assert (lines e = A' ++ (p' ++ q') :: B') as El by (rewrite E; exact Hls).
  assert (gap_of (snapshot e) = (lead A ++ p, q ++ trail B)) as Eg by (rewrite E; apply gap_of_place).
  apply move_refines; rewrite ?Eg, ?El; [done|by apply snapshot_ok_place|done|done|]. by rewrite gap_of_place.
Qed.

Lemma insert_refines c e : editor_ok e → ascii c → refines (Insert c) e.
Proof.
  intros Hok Hc. destruct (place_ok e (eo_now e Hok)) as (A & p & q & B & E & HA & Hl & HB).
  pose proof Hl as [Hp Hq]%Forall_app. destruct (decide (c = 10)) as [->|Hne].
  - apply (edit_place (Insert 10) e A p q B (A ++ [p]) [] q B); [done|done| |done|done|by apply insert_newline_run|].
    + apply Forall_app. split; [done|by constructor].
    + cbn. rewrite lead_snoc, app_nil_r, !app_assoc. done.
  - apply (edit_place (Insert c) e A p q B A (p ++ [c]) q B); [done|done|done| |done|by apply insert_char_run|].
    + unfold line_ok in *. rewrite !Forall_app. split_and!; [done|by constructor|done].
    + cbn. by rewrite app_assoc.
Qed.

Lemma backspace_refines e : editor_ok e → refines Backspace e.
Proof.
  intros Hok. destruct (place_ok e (eo_now e Hok)) as (A & p & q & B & E & HA & Hl & HB).
  pose proof Hl as [Hp Hq]%Forall_app. destruct p as [|x p _] using rev_ind.
  - destruct A as [|l A _] using rev_ind.
    + apply (edit_place Backspace e [] [] q B [] [] q B); done.
    + apply Forall_app in HA as [HA [Hline _]%Forall_cons].
      apply (edit_place Backspace e (A ++ [l]) [] q B A l q B); try done; [by apply Forall_app|apply delete_join_run|].
      cbn. rewrite lead_snoc, app_nil_r, app_assoc, length_app, Nat.add_sub, take_app_length. done.
  - apply (edit_place Backspace e A (p ++ [x]) q B A p q B); try done; [|by apply delete_back_run|].
    + apply Forall_app in Hp as [Hp _]. by apply Forall_app.
    + cbn. rewrite app_assoc, length_app, Nat.add_sub, take_app_length. done.
Qed.

Lemma delete_refines e : editor_ok e → refines Delete e.
Proof.
  intros Hok. destruct (place_ok e (eo_now e Hok)) as (A & p & q & B & E & HA & Hl & HB).
  pose proof Hl as [Hp Hq]%Forall_app. destruct q as [|x q].
  - destruct B as [|l B].
    + exists (place A p [] [] (begun (place A p [] [] e))). split; [rewrite E at 1; apply delete_nothing_run|].
      rewrite <- E. apply edit_refines; [done|by apply snapshot_ok_place|done|done|].
      change (snapshot (place A p [] [] (begun e))) with (A ++ [p ++ []], length A, length p).
      rewrite E at 1. rewrite gap_of_place. change (snapshot (place A p [] [] e)) with (A ++ [p ++ []], length A, length p).
      by rewrite gap_of_place.
    + apply Forall_cons in HB as [Hline HB].
      apply (edit_place Delete e A p [] (l :: B) A p l B); try done; [by apply Forall_app|apply delete_next_run].
  - apply (edit_place Delete e A p (x :: q) B A p q B); try done; [|by apply delete_here_run].
    apply Forall_cons in Hq as [_ Hq]. by apply Forall_app.
Qed.

(** *** The movements *)

Lemma place_fields A p q B e f :
  e = place A p q B f → lines e = A ++ (p ++ q) :: B ∧ cursor_line e = length A ∧ cursor_col e = length p.
Proof. by intros ->. Qed.

Lemma line_at_lookup i l e : lines e !! i = Some l → line_at i e = (Ok l, e).
Proof. unfold line_at. by intros ->. Qed.

Lemma left_refines e : editor_ok e → refines Left e.
Proof.
  intros Hok. destruct (place_ok e (eo_now e Hok)) as (A & p & q & B & E & HA & Hl & HB).
  destruct (place_fields A p q B e e E) as (El & Ei & Ec).
  pose proof Hl as [Hp Hq]%Forall_app. destruct p as [|x p _] using rev_ind.
  - destruct A as [|l A _] using rev_ind.
    + apply (move_place Left e [] [] q B [] [] q B); try done. rewrite E. done.
    + apply Forall_app in HA as [HA [Hline _]%Forall_cons].
      apply (move_place Left e (A ++ [l]) [] q B A l [] (q :: B)); try done.
      * by rewrite app_nil_r.
      * by constructor.
      * by rewrite app_nil_r, <- app_assoc.
      * cbn [run_op]. unfold move_left. rewrite M_get_run, Ec, Ei, length_app, Nat.add_1_r. cbn [length].
        rewrite (M_bind_run _ _ e l e); [done|]. apply line_at_lookup. rewrite El, <- app_assoc. apply lookup_here.
      * cbn [move]. rewrite lead_snoc, app_nil_r, app_assoc. apply (back_app (lead A ++ l) [10]).
  - apply (move_place Left e A (p ++ [x]) q B A p ([x] ++ q) B); try done.
    + by rewrite app_assoc.
    + by rewrite app_assoc.
    + cbn [run_op]. unfold move_left. by rewrite M_get_run, Ec, Ei, length_app, Nat.add_1_r.
    + cbn [move]. rewrite app_assoc. apply (back_app (lead A ++ p) [x]).
Qed.

Lemma right_refines e : editor_ok e → refines Right e.
Proof.
  intros Hok. destruct (place_ok e (eo_now e Hok)) as (A & p & q & B & E & HA & Hl & HB).
  destruct (place_fields A p q B e e E) as (El & Ei & Ec).
  pose proof Hl as [Hp Hq]%Forall_app.
  assert (run_op Right e = (if decide (length p < length (p ++ q))%nat then go_to (length A) (S (length p))
    else if decide (S (length A) < length (A ++ (p ++ q) :: B))%nat then go_to (S (length A)) 0 else mret tt) e) as Hrun.
  { cbn [run_op]. unfold move_right. rewrite M_get_run, Ec, Ei, El.
    rewrite (M_bind_run _ _ e (p ++ q) e); [done|]. apply line_at_lookup. rewrite El. apply lookup_here. }
  destruct q as [|x q].
  - destruct B as [|l B].
    + apply (move_place Right e A p [] [] A p [] []); try done.
      * rewrite Hrun, app_nil_r, decide_False, decide_False by (rewrite ?length_app; cbn; lia).
        unfold set_cursor. rewrite <- Ei, <- Ec. unfold mret, M_ret. by destruct e.
      * cbn. by rewrite app_nil_r.
    + apply Forall_cons in HB as [Hline HB].
      apply (move_place Right e A p [] (l :: B) (A ++ [p]) [] l B); try done.
      * apply Forall_app. split; [done|by constructor].
      * by rewrite app_nil_r, <- app_assoc.
      * rewrite Hrun, app_nil_r, decide_False, decide_True by (rewrite ?length_app; cbn; lia).
        by rewrite length_app, Nat.add_1_r.
      * cbn [move]. rewrite lead_snoc, app_nil_r, (app_assoc (lead A)). apply (forward_app (lead A ++ p) [10]).
  - apply (move_place Right e A p (x :: q) B A (p ++ [x]) q B); try done.
    + rewrite <- app_assoc. done.
    + by rewrite <- app_assoc.
    + rewrite Hrun, decide_True by (rewrite ?length_app; cbn; lia). by rewrite length_app, Nat.add_1_r.
    + cbn [move]. rewrite app_assoc. apply (forward_app (lead A ++ p) [x]).
Qed.

Lemma home_refines e : editor_ok e → refines Home e.
Proof.
  intros Hok. destruct (place_ok e (eo_now e Hok)) as (A & p & q & B & E & HA & Hl & HB).
  destruct (place_fields A p q B e e E) as (El & Ei & Ec).
  pose proof Hl as [Hp Hq]%Forall_app. apply (move_place Home e A p q B A [] (p ++ q) B); try done.
  - cbn [run_op]. unfold move_home. by rewrite M_get_run, Ei.
  - cbn [move fst]. rewrite last_line_place by done. rewrite back_app, app_nil_r, <- app_assoc. done.
Qed.

Lemma end_refines e : editor_ok e → refines End e.
Proof.
  intros Hok. destruct (place_ok e (eo_now e Hok)) as (A & p & q & B & E & HA & Hl & HB).
  destruct (place_fields A p q B e e E) as (El & Ei & Ec).
  pose proof Hl as [Hp Hq]%Forall_app. apply (move_place End e A p q B A (p ++ q) [] B); try done.
  - by rewrite app_nil_r.
  - by rewrite app_nil_r.
  - cbn [run_op]. unfold move_end. rewrite M_get_run, Ei. rewrite (M_bind_run _ _ e (p ++ q) e); [done|].
    apply line_at_lookup. rewrite El. apply lookup_here.
  - cbn [move snd]. rewrite first_line_place by done. rewrite forward_app. by rewrite app_assoc.
Qed.

(** The two parts of the text at its ends. *)
Lemma content_place A p q B : lead A ++ p ++ q ++ trail B = join_lines (A ++ (p ++ q) :: B).
Proof. by rewrite join_lines_split, <- !app_assoc. Qed.

Lemma start_refines e : editor_ok e → refines Start e.
Proof.
  intros Hok. destruct (place_ok e (eo_now e Hok)) as (A & p & q & B & E & HA & Hl & HB).
  destruct (place_fields A p q B e e E) as (El & Ei & Ec).
  assert (Forall line_ok (A ++ (p ++ q) :: B)) as Hls by (apply Forall_app; split; [done|by constructor]).
  assert (∃ l ls, A ++ (p ++ q) :: B = l :: ls) as (l & ls & Els) by (destruct A; cbn; eauto).
  rewrite Els in Hls. apply Forall_cons in Hls as [Hline Hls].
  apply (move_place Start e A p q B [] [] l ls); try done.
  cbn [move fst]. rewrite <- (app_nil_l (lead A ++ p)) at 2. rewrite back_app.
  change (lead [] ++ []) with (@nil Z). rewrite <- app_assoc, content_place, Els, join_lines_cons. done.
Qed.

Lemma finish_refines e : editor_ok e → refines Finish e.
Proof.
  intros Hok. destruct (place_ok e (eo_now e Hok)) as (A & p & q & B & E & HA & Hl & HB).
  destruct (place_fields A p q B e e E) as (El & Ei & Ec).
  assert (Forall line_ok (A ++ (p ++ q) :: B)) as Hls by (apply Forall_app; split; [done|by constructor]).
  assert (∃ ls l, A ++ (p ++ q) :: B = ls ++ [l]) as (ls & l & Els).
  { destruct B as [|k B _] using rev_ind; [by eexists _, _|]. exists (A ++ (p ++ q) :: B), k. by rewrite <- app_assoc. }
  rewrite Els in Hls. apply Forall_app in Hls as [Hls [Hline _]%Forall_cons].
  apply (move_place Finish e A p q B ls l [] []); try done; rewrite ?app_nil_r; try done.
  - cbn [run_op]. unfold move_to_end. rewrite M_get_run.
    rewrite El, Els, length_app, Nat.add_sub. rewrite (M_bind_run _ _ e l e); [done|].
    apply line_at_lookup. rewrite El, Els. apply lookup_here.
  - cbn [move snd]. rewrite <- (app_nil_r (q ++ trail B)) at 2. rewrite forward_app, <- !app_assoc, content_place, Els.
    rewrite join_lines_split. cbn. by rewrite !app_nil_r.
Qed.

(** Moving up and down lands on the line and on the column as far as the line goes. *)
Definition goes_to (m : M Editor unit) (line : nat) (e : Editor) : Prop :=
  ∃ l, lines e !! line = Some l ∧ let e' := set_cursor line (Nat.min (cursor_col e) (length l)) e in
    m e = (Ok tt, e') ∧ editor_ok e'.

Lemma go_to_line_ok line e : editor_ok e → (line < length (lines e))%nat → goes_to (go_to_line line) line e.
Proof.
  intros [[Hl Hc] Hu Hr Hh] Hlt. destruct (lookup_lt_is_Some_2 _ _ Hlt) as [l El]. exists l. split; [done|]. split.
  - unfold go_to_line. rewrite M_get_run, (M_bind_run _ _ e l e) by (by apply line_at_lookup).
    unfold go_to, m_modify. case_decide; [rewrite Nat.min_r by lia|rewrite Nat.min_l by lia]; done.
  - split; [|done..]. unfold snapshot_ok. cbn. rewrite El. split; [done|lia].
Qed.

Lemma cursor_in_text e : editor_ok e → ∃ l, lines e !! cursor_line e = Some l ∧ (cursor_col e ≤ length l)%nat.
Proof. intros [[_ Hc] _ _ _]. destruct (lines e !! cursor_line e) as [l|] eqn:E; [eauto|done]. Qed.

Lemma goes_nowhere m e : editor_ok e → m e = (Ok tt, e) → goes_to m (cursor_line e) e.
Proof.
  intros Hok Hm. destruct (cursor_in_text e Hok) as (l & El & Hc). exists l. split; [done|]. cbn zeta.
  rewrite Nat.min_l by done. assert (set_cursor (cursor_line e) (cursor_col e) e = e) as -> by (by destruct e). done.
Qed.

Lemma vertical_moves e n :
  editor_ok e →
  goes_to move_up (cursor_line e - 1) e ∧
  goes_to move_down (Nat.min (S (cursor_line e)) (length (lines e) - 1)) e ∧
  goes_to (page_up n) (cursor_line e - n) e ∧
  goes_to (page_down n) (Nat.min (cursor_line e + n) (length (lines e) - 1)) e.
Proof.
  intros Hok. destruct (cursor_in_text e Hok) as (l & El%lookup_lt_Some & _). split; [|split; [|split]].
  - destruct (cursor_line e) as [|line] eqn:Ei.
    + rewrite <- Ei at 1. replace (cursor_line e - 1)%nat with (cursor_line e) by lia.
      apply goes_nowhere; [done|]. unfold move_up. by rewrite M_get_run, Ei.
    + replace (S line - 1)%nat with line by lia. destruct (go_to_line_ok line e) as (l' & El' & E & Hok'); [done|lia|].
      exists l'. split; [done|]. split; [|done]. unfold move_up. by rewrite M_get_run, Ei.
  - unfold goes_to, move_down. setoid_rewrite M_get_run. destruct (decide (S (cursor_line e) < length (lines e))%nat) as [Hd|Hd].
    + rewrite Nat.min_l by lia. by apply go_to_line_ok.
    + replace (Nat.min (S (cursor_line e)) (length (lines e) - 1)) with (cursor_line e) by lia. by apply goes_nowhere.
  - apply go_to_line_ok; [done|lia].
  - apply go_to_line_ok; [done|lia].
Qed.

Lemma split_byte_lines ls : Forall line_ok ls → ls ≠ [] → split_byte 10 (join_lines ls) = ls.
Proof.
  destruct ls as [|l ls]; [done|]. intros Hls _. revert l Hls.
  induction ls as [|k ls IH]; intros l Hls; apply Forall_cons in Hls as [Hl%no_newline Hls].
  - rewrite <- (app_nil_r (join_lines [l])). cbn [join_lines]. rewrite split_byte_app by done. cbn. by rewrite app_nil_r.
  - change (join_lines (l :: k :: ls)) with (l ++ 10 :: join_lines (k :: ls)). rewrite split_byte_app by done.
    change (split_byte 10 (10 :: join_lines (k :: ls))) with ([] :: split_byte 10 (join_lines (k :: ls))).
    rewrite IH by done. by rewrite app_nil_r.
Qed.

Lemma newlines_app s t : newlines (s ++ t) = (newlines s + newlines t)%nat.
Proof. unfold newlines. by rewrite filter_app, length_app. Qed.

Lemma newlines_none l : 10 ∉ l → newlines l = 0%nat.
Proof.
  unfold newlines. induction l as [|c l IH]; [done|]. intros [Hc Hl]%not_elem_of_cons. rewrite filter_cons_False by done. by apply IH.
Qed.

Lemma newlines_lead ls p : Forall line_ok ls → line_ok p → newlines (lead ls ++ p) = length ls.
Proof.
  intros Hls Hp%no_newline. rewrite newlines_app, (newlines_none p), Nat.add_0_r by done.
  induction Hls as [|l ls Hl%no_newline _ IH]; [done|].
  change (lead (l :: ls)) with ((l ++ [10]) ++ lead ls). rewrite !newlines_app, IH, (newlines_none l) by done. done.
Qed.

Lemma newlines_join ls : Forall line_ok ls → ls ≠ [] → newlines (join_lines ls) = (length ls - 1)%nat.
Proof.
  intros Hls Hne. destruct ls as [|l ls _] using rev_ind; [done|]. apply Forall_app in Hls as [Hls [Hl _]%Forall_cons].
  rewrite join_lines_split. cbn [trail map concat]. rewrite app_nil_r, newlines_lead, length_app by done. cbn. lia.
Qed.

(** The line and the column of the cursor, in the text. *)
Lemma cursor_in_gap e : editor_ok e →
  newlines (gap_of (snapshot e)).1 = cursor_line e ∧ length (last_line (gap_of (snapshot e)).1) = cursor_col e ∧
  newlines ((gap_of (snapshot e)).1 ++ (gap_of (snapshot e)).2) = (length (lines e) - 1)%nat.
Proof.
  intros Hok. rewrite <- content_gap by done. destruct (place_ok e (eo_now e Hok)) as (A & p & q & B & E & HA & Hl & HB).
  destruct (place_fields A p q B e e E) as (El & Ei & Ec). pose proof Hl as [Hp Hq]%Forall_app.
  assert (gap_of (snapshot e) = (lead A ++ p, q ++ trail B)) as -> by (rewrite E; apply gap_of_place). cbn [fst snd]. split_and!.
  - rewrite Ei. by apply newlines_lead.
  - rewrite Ec. by rewrite last_line_place.
  - apply newlines_join; [apply (eo_now e Hok)|]. rewrite El. by destruct A.
Qed.

Lemma to_line_ok e line l : editor_ok e → lines e !! line = Some l →
  to_line line (gap_of (snapshot e)) = gap_of (lines e, line, Nat.min (cursor_col e) (length l)).
Proof.
  intros Hok El. destruct (cursor_in_gap e Hok) as (_ & Hcol & _). unfold to_line. rewrite Hcol, <- content_gap by done.
  unfold content. rewrite split_byte_lines; [|apply (eo_now e Hok)|by intros Hn; rewrite Hn in El].
  rewrite El. unfold gap_of. rewrite El. cbn [default from_option id]. set (k := Nat.min _ _). set (A := take line (lines e)).
  rewrite <- (take_drop_middle _ _ _ El) at 1 2. fold A. rewrite join_lines_split.
  assert (k ≤ length l)%nat as Hk by (unfold k; lia). f_equal.
  - rewrite take_app_add, take_app_le by done. done.
  - rewrite drop_app_add, drop_app_le by done. done.
Qed.

(** The vertical movements. *)
Lemma vertical_refines op m line e : editor_ok e → run_op op = m → goes_to m line e → edit op (gap_of (snapshot e)) = None →
  is_history op = false → move op (gap_of (snapshot e)) = to_line line (gap_of (snapshot e)) → refines op e.
Proof.
  intros Hok Em (l & El & E & _) Hed Hh Hm. eexists. rewrite Em. split; [exact E|]. apply move_refines; try done.
  - split; [apply (eo_now e Hok)|]. rewrite El. lia.
  - rewrite Hm. by apply to_line_ok.
Qed.

Lemma op_refines op e : editor_ok e → legal op → refines op e.
Proof.
  intros Hok Hop. destruct (cursor_in_gap e Hok) as (Hln & _ & Hlast). destruct (vertical_moves e 0 Hok) as (Hup & Hdown & _).
  destruct op.
  - by apply insert_refines.
  - by apply backspace_refines.
  - by apply delete_refines.
  - by apply left_refines.
  - by apply right_refines.
  - by apply home_refines.
  - by apply end_refines.
  - by apply start_refines.
  - by apply finish_refines.
  - eapply vertical_refines; try done. cbn [move]. by rewrite Hln.
  - eapply vertical_refines; try done. cbn [move]. by rewrite Hln, Hlast.
  - destruct (vertical_moves e visible_lines Hok) as (_ & _ & Hpage & _). eapply vertical_refines; try done. cbn [move]. by rewrite Hln.
  - destruct (vertical_moves e visible_lines Hok) as (_ & _ & _ & Hpage). eapply vertical_refines; try done. cbn [move]. by rewrite Hln, Hlast.
  - exists (undo e). split; [done|by apply undo_refines].
  - exists (redo e). split; [done|by apply redo_refines].
Qed.

(** ** What the editor promises *)

Fixpoint run_ops (ops : list EdOp) : M Editor unit :=
  match ops with [] => mret tt | op :: ops => run_op op;; run_ops ops end.

(** C29: editing ASCII text.  From an editor whose text, undo and redo history are
    ASCII, with the cursor in the text, whatever sequence of insertions of ASCII
    characters, deletions, movements of the cursor (by a character, to the ends of the
    line and of the text, up and down by a line or a page), undo and redo does not
    panic and leaves such an editor; its text is the one before the cursor followed by
    the one after it, and both, with the history, are what the operations on two
    strings give.  (On other text it can panic: [insert_after_utf8_panics].) *)
Theorem editor_refines ops e :
  editor_ok e → Forall legal ops →
  ∃ e', run_ops ops e = (Ok tt, e') ∧ editor_ok e' ∧
    buffer_of e' = foldl (λ s op, buffer_op op s) (buffer_of e) ops ∧
    content e' = (gap (buffer_of e')).1 ++ (gap (buffer_of e')).2.
Proof.
  intros Hok Hops. revert e Hok. induction Hops as [|op ops Hop _ IH]; intros e Hok; cbn [run_ops foldl].
  - exists e. split; [done|]. split; [done|]. split; [done|by apply content_gap].
  - destruct (op_refines op e Hok Hop) as (e1 & E1 & Hok1 & <-). destruct (IH e1 Hok1) as (e2 & E2 & H2).
    exists e2. split; [|done]. by rewrite (M_bind_run _ _ _ _ _ E1).
Qed.

(** An edit is taken back by undo and repeated by redo. *)
Theorem undo_redo op e g :
  editor_ok e → legal op → edit op (gap_of (snapshot e)) = Some g →
  ∃ e1 e2 e3, run_op op e = (Ok tt, e1) ∧ gap_of (snapshot e1) = g ∧
    run_op Undo e1 = (Ok tt, e2) ∧ gap_of (snapshot e2) = gap_of (snapshot e) ∧ content e2 = content e ∧
    run_op Redo e2 = (Ok tt, e3) ∧ gap_of (snapshot e3) = g ∧ content e3 = content e1.
Proof.
  intros Hok Hop Hed. destruct (op_refines op e Hok Hop) as (e1 & E1 & Hok1 & B1).
  destruct (op_refines Undo e1 Hok1 I) as (e2 & E2 & Hok2 & B2).
  destruct (op_refines Redo e2 Hok2 I) as (e3 & E3 & Hok3 & B3).
  rewrite (buffer_op_edit op (buffer_of e) g Hed) in B1.
  assert (gap_of (snapshot e1) = g) as G1 by (change (gap (buffer_of e1) = g); by rewrite B1).
  rewrite buffer_op_undo, B1 in B2. cbn [undos redos gap] in B2.
  assert (∃ us, remember (gap_of (snapshot e)) (map gap_of (undo_stack e)) = us ++ [gap_of (snapshot e)]) as [us Eus].
  { unfold remember. eexists. rewrite drop_app_le; [done|]. rewrite length_app, length_map. cbn. destruct Hok. lia. }
  change (undos (buffer_of e)) with (map gap_of (undo_stack e)) in B2. change (gap (buffer_of e)) with (gap_of (snapshot e)) in B2.
  rewrite Eus, vec_pop_snoc in B2. rewrite buffer_op_redo, B2 in B3. cbn [undos redos gap app] in B3.
  assert (gap_of (snapshot e2) = gap_of (snapshot e)) as G2 by (change (gap (buffer_of e2) = gap_of (snapshot e)); by rewrite B2).
  assert (gap_of (snapshot e3) = g) as G3 by (change (gap (buffer_of e3) = g); by rewrite B3).
  exists e1, e2, e3. rewrite !content_gap by done. rewrite G1, G2, G3. done.
Qed.

(** ** Saving and loading *)

(** What is loaded again of the lines that were saved. *)
Definition reloaded (ls : list (list Z)) : list (list Z) :=
  match last ls with
  | Some [] => if decide (length ls = 1%nat) then [[]] else take (length ls - 1) ls
  | _ => ls
  end.

Lemma strip_cr_none l : 13 ∉ l → strip_cr l = l.
Proof.
  intros H. unfold strip_cr. destruct (reverse l) as [|c r] eqn:E; [done|].
  assert (c ∈ l) as Hc by (apply elem_of_reverse; rewrite E; by constructor).
  destruct (decide (c = 13)) as [->|Hne]; [done|]. repeat (case_match; try done); congruence.
Qed.

Lemma reloaded_cons l k ls : reloaded (l :: k :: ls) = l :: match last (k :: ls) with Some [] => take (length ls) (k :: ls) | _ => k :: ls end.
Proof. unfold reloaded. rewrite last_cons_cons. destruct (last (k :: ls)) as [[|]|]; [|done..]. by rewrite decide_False. Qed.

Lemma lines_join ls :
  Forall line_ok ls → Forall (λ l, 13 ∉ l) ls → ls ≠ [] →
  (let ks := Str.lines (join_lines ls) in if decide (ks = []) then [[]] else ks) = reloaded ls.
Proof.
  intros Hls Hcr Hne. unfold Str.lines. rewrite split_byte_lines by done. clear Hls.
  assert (∀ l ms, Forall (λ l, 13 ∉ l) (l :: ms) →
    drop_last_empty (l :: ms) = match last (l :: ms) with Some [] => take (length ms) (l :: ms) | _ => l :: ms end) as H.
  { clear. intros l ms. revert l. induction ms as [|k ms IH]; intros l Hcr; [by destruct l|].
    apply Forall_cons in Hcr as [Hl Hcr].
    change (drop_last_empty (l :: k :: ms)) with (strip_cr l :: drop_last_empty (k :: ms)).
    rewrite strip_cr_none, last_cons_cons, (IH k Hcr) by done.
    by destruct (last (k :: ms)) as [[|]|]. }
  destruct ls as [|l [|k ls]]; [done| |].
  - rewrite H by done. by destruct l.
  - rewrite H, reloaded_cons, last_cons_cons by done. destruct (last (k :: ls)) as [[|]|]; done.
Qed.

Section Saving.
Context {S I F : Type} `{!InodeOps S I, !FileSystemOps S I F}.

(** On a file system that reads back what was written, a text without carriage
    returns that is saved and loaded has the lines it had, except that an empty last
    line is lost; and the saved text is no longer marked as modified. *)
Theorem save_load_roundtrip (e e0 : Editor) (path : list Z) (v v1 v2 : VFS S I F) :
  editor_ok e → Forall (λ l, 13 ∉ l) (lines e) → filename e = Some path →
  write_file path (content e) v = (Ok tt, v1) → read_file path v1 = (Ok (content e), v2) →
  save_file e v = (Ok (true, set_modified false e), v1) ∧
  ∃ e', load_file path e0 v1 = (Ok e', v2) ∧ lines e' = reloaded (lines e) ∧ filename e' = Some path ∧
    modified e' = false ∧ undo_stack e' = [] ∧ editor_ok e'.
Proof using Type.
  intros Hok Hcr Hf Hw Hr. pose proof Hok as [[Hl Hc] _ _ _].
  assert (lines e ≠ []) as Hne by (intros E; by rewrite E in Hc).
  assert (Forall (λ b, 0 ≤ b < 128) (content e)) as Hascii.
  { unfold content. clear -Hl. assert (∀ l, line_ok l → Forall (λ b, 0 ≤ b < 128) l) as Hline.
    { intros l H. eapply Forall_impl; [exact H|]. by intros b [Hb _]. }
    induction Hl as [|l ls H1 _ IH]; [constructor|]. destruct ls as [|k ls]; [by apply Hline|].
    apply Forall_app. split; [by apply Hline|]. constructor; [lia|done]. }
  split; [unfold save_file; by rewrite Hf, Hw|]. unfold load_file. rewrite Hr.
  rewrite from_utf8_lossy_valid by (by apply valid_utf8_ascii). eexists. split; [done|].
  pose proof (lines_join (lines e) Hl Hcr Hne) as E. split; [exact E|]. split_and!; try done.
  split; [|done|done|cbn; lia]. unfold snapshot_ok, snapshot. cbn [loaded_text lines cursor_line cursor_col].
  cbv zeta in E. unfold content. rewrite E. split.
  - unfold reloaded. destruct (last (lines e)) as [[|]|]; [|done..]. destruct (decide (length (lines e) = 1%nat)); [by apply Forall_singleton, Forall_nil|by apply Forall_take].
  - destruct (reloaded (lines e) !! 0%nat) eqn:E0; [lia|]. apply lookup_ge_None in E0. revert E0. enough (reloaded (lines e) ≠ []) as Hr0 by (destruct (reloaded (lines e)); [done|cbn; lia]).
    unfold reloaded. destruct (lines e) as [|l [|k ls]]; [done| |]; cbn [last].
    + by destruct l.
    + by destruct (last _) as [[|]|].
Qed.
End Saving.

(** ** Concrete runs *)

Module EditorExample.

(** Type "ab", a newline and "c", go left and back up, delete, undo and redo. *)
Definition keys : list EdOp := [Insert 97; Insert 98; Insert 10; Insert 99; Left; Backspace; Undo; Redo; Finish; Insert 33].

Lemma new_ok : editor_ok Editor_new.
Proof. split; [apply (bool_decide_unpack _); by vm_compute|constructor|constructor|cbn; lia]. Qed.

Lemma editor_refines_witness :
  ∃ e', run_ops keys Editor_new = (Ok tt, e') ∧ content e' = [97; 98; 99; 33] ∧ gap (buffer_of e') = ([97; 98; 99; 33], []).
Proof.
  destruct (editor_refines keys Editor_new new_ok) as (e' & E & _ & B & C);
    [repeat constructor; unfold ascii; lia|].
  exists e'. split; [exact E|]. rewrite C, B. by vm_compute.
Defined.

Lemma undo_redo_witness :
  ∃ e1 e2 e3, run_op (Insert 65) Editor_new = (Ok tt, e1) ∧ run_op Undo e1 = (Ok tt, e2) ∧ content e2 = [] ∧
    run_op Redo e2 = (Ok tt, e3) ∧ content e3 = content e1.
Proof.
  destruct (undo_redo (Insert 65) Editor_new ([65], []) new_ok) as (e1 & e2 & e3 & H1 & _ & H2 & _ & H3 & H4 & _ & H5);
    [cbn; unfold ascii; lia|by vm_compute|]. exists e1, e2, e3. done.
Defined.

(** Two lines in a file of the RAM file system. *)
Definition path0 : list Z := bytes_of_string "/tmp/note".
Definition two_lines : Editor := mkEditor [[97]; [98]] 1 1 0 0 (Some path0) true [] [] None true 0.

Lemma two_lines_ok : editor_ok two_lines.
Proof.
  split; [|constructor|constructor|cbn; lia]. apply (bool_decide_unpack _). by vm_compute.
Qed.

Lemma save_load_roundtrip_witness :
  ∃ v1 v2 e', save_file two_lines RamExample.v0 = (Ok (true, set_modified false two_lines), v1) ∧
    load_file path0 Editor_new v1 = (Ok e', v2) ∧ lines e' = [[97]; [98]].
Proof.
  exists (write_file path0 (content two_lines) RamExample.v0).2,
    (read_file path0 (write_file path0 (content two_lines) RamExample.v0).2).2.
  edestruct (save_load_roundtrip two_lines Editor_new path0 RamExample.v0) as (H & e' & H1 & H2 & _);
    [exact two_lines_ok|apply (bool_decide_unpack _); by vm_compute|done|by vm_compute|by vm_compute|].
  exists e'. split; [exact H|]. split; [exact H1|exact H2].
Defined.

(** A file that ends with a newline loses it when it is loaded and saved, and CR LF
    becomes LF. *)
Lemma load_drops_newline :
  content (loaded_text path0 [97; 10] Editor_new) = [97] ∧ content (loaded_text path0 [97; 13; 10; 98] Editor_new) = [97; 10; 98].
Proof. by vm_compute. Qed.

(** The column counts bytes, but moving right adds one: after a character of two
    bytes the cursor is inside it, and the next key stops the kernel. *)
Lemma insert_after_utf8_panics :
  let e := loaded_text path0 [0xC3; 0xA9] Editor_new in
  ((move_right;; insert_char [120]) e).1 = Panic.
Proof. by vm_compute. Qed.

End EditorExample.
