(* ===== verification/Windows.v ===== *)
(** * Windows and what they show: [gui/mod.rs], the state

    The window list in the order of the screen, the last one on top; the contents of
    the windows; the file manager, the Save-As dialog and the browser window.  The
    text editor is in Editor.v, the events in Desktop.v. *)

From stdpp Require Import sorting.
From S2P Require Import Prelude Bytes Str Vfs Files Html Layout Editor.

#[local] Notation "'b' s" := (bytes_of_string s) (at level 9, s at level 9, only parsing).

(** ** Strings *)

(** The path of an entry of a directory. *)
Definition path_in (dir name : list Z) : list Z :=
  if bool_decide (dir = [Files.slash]) then Files.slash :: name else dir ++ Files.slash :: name.

(** [parts.join("/")] *)
Fixpoint join_slash (ws : list (list Z)) : list Z :=
  match ws with [] => [] | [w] => w | w :: ws => w ++ Files.slash :: join_slash ws end.

(** ** Contents *)

Record FileEntry : Type := mkEntry { entry_name : list Z; is_dir : bool }.

Record AboutState : Type := mkAbout { about_scroll : Z; max_scroll : Z }.
Definition AboutState_new : AboutState := mkAbout 0 150.

Record TerminalState : Type := mkTerm { term_buffer : list Z; term_input : list Z; term_cursor : bool; term_scroll : Z }.

Record FileManagerState : Type := mkFM {
  current_path : list Z;
  files : list FileEntry;
  selected : option nat;
  history : list (list Z);
  history_index : nat;
  fm_scroll : nat;
}.

Record SaveAsState : Type := mkSaveAs {
  sas_filename : list Z;
  current_dir : list Z;
  dirs : list FileEntry;
  sas_selected : option nat;
  sas_scroll : nat;
  sas_content : list Z;
}.

(** Rectangles of the links on the screen, with the link's index. *)
Record LinkRect : Type := mkRect { rect_x : Z; rect_y : Z; rect_w : Z; rect_h : Z; rect_link : Z }.

Record BrowserState : Type := mkBrowser {
  url_input : list Z;
  url_focused : bool;
  doc : Document;
  doc_layout : list (list LaidSpan);
  layout_width : Z;
  link_rects : list LinkRect;
  visited : list (list Z);
  current_url : list Z;
  br_scroll : Z;
  status : list Z;
  pending_url : option (list Z);
}.

Inductive WindowContent : Type :=
| Empty
| Text (t : list Z)
| Terminal (t : TerminalState)
| About (a : AboutState)
| FileManager (fm : FileManagerState)
| TextEditor (e : Editor)
| SaveAs (s : SaveAsState)
| Browser (br : BrowserState).

(** ** The browser window *)

Definition set_doc (d : Document) (br : BrowserState) : BrowserState :=
  mkBrowser (url_input br) (url_focused br) d [] 0 [] (visited br) (current_url br) 0 (status br) (pending_url br).

Definition loading (url : list Z) (br : BrowserState) : BrowserState :=
  let br := set_doc (from_text (b "Loading: " ++ url ++ 10 :: 10 :: b "Please wait...")) br in
  mkBrowser url false (doc br) (doc_layout br) (layout_width br) (link_rects br) (visited br) (current_url br)
    (br_scroll br) (b "Fetching...") (Some url).

Definition set_visited (h : list (list Z)) (br : BrowserState) : BrowserState :=
  mkBrowser (url_input br) (url_focused br) (doc br) (doc_layout br) (layout_width br) (link_rects br) h (current_url br)
    (br_scroll br) (status br) (pending_url br).

Definition navigate (url : list Z) (br : BrowserState) : BrowserState :=
  loading url
    (if bool_decide (current_url br ≠ []) && bool_decide (current_url br ≠ url)
     then set_visited (visited br ++ [current_url br]) br else br).

Definition browser_back (br : BrowserState) : bool * BrowserState :=
  match vec_pop (visited br) with
  | Some (prev, h) => (true, loading prev (set_visited h br))
  | None => (false, br)
  end.

Definition set_url (input : list Z) (focused : bool) (br : BrowserState) : BrowserState :=
  mkBrowser input focused (doc br) (doc_layout br) (layout_width br) (link_rects br) (visited br) (current_url br)
    (br_scroll br) (status br) (pending_url br).

Definition set_br_scroll (n : Z) (br : BrowserState) : BrowserState :=
  mkBrowser (url_input br) (url_focused br) (doc br) (doc_layout br) (layout_width br) (link_rects br) (visited br)
    (current_url br) n (status br) (pending_url br).

Definition set_pending (u : option (list Z)) (br : BrowserState) : BrowserState :=
  mkBrowser (url_input br) (url_focused br) (doc br) (doc_layout br) (layout_width br) (link_rects br) (visited br)
    (current_url br) (br_scroll br) (status br) u.

Definition set_page (url st : list Z) (br : BrowserState) : BrowserState :=
  mkBrowser (url_input br) (url_focused br) (doc br) (doc_layout br) (layout_width br) (link_rects br) (visited br)
    url (br_scroll br) st (pending_url br).

Definition welcome : list Z :=
  b "Type a URL or search term above and press Enter." ++ 10 :: 10 :: b "Examples:" ++ 10 :: b "  rust programming  (search)" ++
  10 :: b "  example.com       (open site)" ++ 10 :: b "  http://info.cern.ch" ++ 10 :: 10 ::
  b "Click links to follow them. '<' or Backspace goes back." ++ 10 ::
  b "Scroll with the mouse wheel, arrows or PgUp/PgDn." ++ 10 :: b "'u' refocuses the address bar.".

Definition BrowserState_new : BrowserState :=
  mkBrowser [] true (from_text welcome) [] 0 [] [] [] 0 (b "Ready") None.

(** ** The file manager *)

(** Directories first, then by name. *)
Definition entry_before (x y : FileEntry) : Prop :=
  match is_dir x, is_dir y with
  | true, false => True
  | false, true => False
  | _, _ => bytes_leb (entry_name x) (entry_name y) = true
  end.

#[export] Instance entry_before_dec x y : Decision (entry_before x y).
Proof. unfold entry_before. destruct (is_dir x), (is_dir y); apply _. Defined.

Definition name_before (x y : FileEntry) : Prop := bytes_leb (entry_name x) (entry_name y) = true.

#[export] Instance name_before_dec x y : Decision (name_before x y).
Proof. unfold name_before. apply _. Defined.

Definition shown_entries (es : list DirEntry) : list FileEntry :=
  map (λ e, mkEntry (de_name e) (bool_decide (de_file_type e = Directory)))
    (filter (λ e, de_name e ≠ dot ∧ de_name e ≠ dotdot) es).

Section Windows.
Context {S I F : Type} `{!InodeOps S I, !FileSystemOps S I F}.

(** [if let Ok(entries) = readdir(path)], otherwise none. *)
Definition entries_of (path : list Z) : M (VFS S I F) (list FileEntry) := λ v,
  match readdir path v with
  | (Ok es, v) => (Ok (shown_entries es), v)
  | (Err _, v) => (Ok [], v)
  | (Panic, v) => (Panic, v)
  end.

Definition refresh_files (fm : FileManagerState) : M (VFS S I F) FileManagerState :=
  es ← entries_of (current_path fm);
  mret (mkFM (current_path fm) (merge_sort entry_before es) None (history fm) (history_index fm) 0).

Definition FileManagerState_new (path : list Z) : M (VFS S I F) FileManagerState :=
  refresh_files (mkFM path [] None [path] 0 0).

Definition navigate_to (path : list Z) (fm : FileManagerState) : M (VFS S I F) FileManagerState :=
  let h := if Z.of_nat (history_index fm) <? u64 (len (history fm) - 1) then take (Datatypes.S (history_index fm)) (history fm) else history fm in
  refresh_files (mkFM path (files fm) (selected fm) (h ++ [path]) (length h) (fm_scroll fm)).

(** Show the path at a position of the history. *)
Definition visit (i : nat) (fm : FileManagerState) : M (VFS S I F) FileManagerState :=
  match history fm !! i with
  | Some path => refresh_files (mkFM path (files fm) (selected fm) (history fm) i (fm_scroll fm))
  | None => m_panic
  end.

Definition fm_back (fm : FileManagerState) : M (VFS S I F) (bool * FileManagerState) :=
  match history_index fm with
  | O => mret (false, fm)
  | Datatypes.S i => fm ← visit i fm; mret (true, fm)
  end.

Definition fm_forward (fm : FileManagerState) : M (VFS S I F) (bool * FileManagerState) :=
  if Z.of_nat (history_index fm) <? u64 (len (history fm) - 1)
  then fm ← visit (Datatypes.S (history_index fm)) fm; mret (true, fm)
  else mret (false, fm).

Definition selected_entry (fm : FileManagerState) : option FileEntry :=
  idx ← selected fm; files fm !! idx.

Definition get_selected_file_path (fm : FileManagerState) : option (list Z) :=
  entry ← selected_entry fm;
  if is_dir entry then None else Some (path_in (current_path fm) (entry_name entry)).

(** The directory a selected directory stands for. *)
Definition target_dir (cur name : list Z) : list Z :=
  if bool_decide (name = dotdot) then
    (if bool_decide (cur = [Files.slash]) then [Files.slash]
     else
       let parts := filter (λ w, w ≠ []) (split_slash cur) in
       let up := take (length parts - 1) parts in
       if decide (up = []) then [Files.slash] else Files.slash :: join_slash up)
  else if bool_decide (name = dot) then cur
  else path_in cur name.

Definition open_selected (fm : FileManagerState) : M (VFS S I F) (bool * FileManagerState) :=
  match selected_entry fm with
  | Some entry =>
      if is_dir entry then fm ← navigate_to (target_dir (current_path fm) (entry_name entry)) fm; mret (true, fm)
      else mret (false, fm)
  | None => mret (false, fm)
  end.

(** ** The Save-As dialog *)

Definition subdirs (path : list Z) : M (VFS S I F) (list FileEntry) :=
  es ← entries_of path;
  mret (merge_sort name_before (filter (λ e, is_dir e = true) es)).

Definition SaveAsState_new (dir name text : list Z) : M (VFS S I F) SaveAsState :=
  ds ← subdirs dir;
  mret (mkSaveAs name dir ds None 0 text).

(** [refresh], in the directory [dir]. *)
Definition sas_refresh (dir : list Z) (sas : SaveAsState) : M (VFS S I F) SaveAsState :=
  ds ← subdirs dir;
  mret (mkSaveAs (sas_filename sas) dir ds None 0 (sas_content sas)).

End Windows.

Definition set_fm_scroll (n : nat) (fm : FileManagerState) : FileManagerState :=
  mkFM (current_path fm) (files fm) (selected fm) (history fm) (history_index fm) n.

Definition set_selected (i : option nat) (fm : FileManagerState) : FileManagerState :=
  mkFM (current_path fm) (files fm) i (history fm) (history_index fm) (fm_scroll fm).

Definition set_sas_filename (n : list Z) (s : SaveAsState) : SaveAsState :=
  mkSaveAs n (current_dir s) (dirs s) (sas_selected s) (sas_scroll s) (sas_content s).

(** ** Windows *)

Record Window : Type := mkWindow {
  win_id : Z;
  title : list Z;
  win_x : Z;
  win_y : Z;
  width : Z;
  height : Z;
  visible : bool;
  focused : bool;
  dragging : bool;
  drag_offset_x : Z;
  drag_offset_y : Z;
  win_content : WindowContent;
}.

Definition Window_new (id : Z) (t : list Z) (x y w h : Z) : Window :=
  mkWindow id t x y w h true true false 0 0 Empty.

Definition set_focused (f : bool) (w : Window) : Window :=
  mkWindow (win_id w) (title w) (win_x w) (win_y w) (width w) (height w) (visible w) f (dragging w) (drag_offset_x w)
    (drag_offset_y w) (win_content w).
Definition set_content (c : WindowContent) (w : Window) : Window :=
  mkWindow (win_id w) (title w) (win_x w) (win_y w) (width w) (height w) (visible w) (focused w) (dragging w)
    (drag_offset_x w) (drag_offset_y w) c.
Definition set_position (x y : Z) (w : Window) : Window :=
  mkWindow (win_id w) (title w) x y (width w) (height w) (visible w) (focused w) (dragging w) (drag_offset_x w)
    (drag_offset_y w) (win_content w).
Definition set_drag (d : bool) (ox oy : Z) (w : Window) : Window :=
  mkWindow (win_id w) (title w) (win_x w) (win_y w) (width w) (height w) (visible w) (focused w) d ox oy (win_content w).

Definition point_in_titlebar (px py : Z) (w : Window) : bool :=
  (win_x w <=? px) && (px <? win_x w + width w) && (win_y w <=? py) && (py <? win_y w + 32).

Definition point_in_close (px py : Z) (w : Window) : bool :=
  let dx := px - (win_x w + 14) in
  let dy := py - (win_y w + 16) in
  dx * dx + dy * dy <=? 49.

Definition point_in_window (px py : Z) (w : Window) : bool :=
  (win_x w <=? px) && (px <? win_x w + width w) && (win_y w <=? py) && (py <? win_y w + height w).

(** ** The desktop *)

Inductive IconAction : Type := OpenTerminal | OpenAbout | OpenFiles | OpenEditor | OpenBrowser.

Record GuiState : Type := mkGui {
  windows : list Window;
  next_window_id : Z;
  dock_items : list (list Z * IconAction);
  mouse_x : Z;
  mouse_y : Z;
  mouse_prev_left : bool;
  mouse_prev_right : bool;
  running : bool;
  needs_full_redraw : bool;
  needs_window_redraw : bool;
  hovered_dock : option nat;
}.

Definition GuiState_new : GuiState := mkGui [] 1 [] 640 360 false false true true false None.

Definition set_windows (ws : list Window) (g : GuiState) : GuiState :=
  mkGui ws (next_window_id g) (dock_items g) (mouse_x g) (mouse_y g) (mouse_prev_left g) (mouse_prev_right g) (running g)
    (needs_full_redraw g) (needs_window_redraw g) (hovered_dock g).
Definition redraw_all (g : GuiState) : GuiState :=
  mkGui (windows g) (next_window_id g) (dock_items g) (mouse_x g) (mouse_y g) (mouse_prev_left g) (mouse_prev_right g)
    (running g) true (needs_window_redraw g) (hovered_dock g).
Definition redraw_windows (g : GuiState) : GuiState :=
  mkGui (windows g) (next_window_id g) (dock_items g) (mouse_x g) (mouse_y g) (mouse_prev_left g) (mouse_prev_right g)
    (running g) (needs_full_redraw g) true (hovered_dock g).
Definition set_hovered (h : option nat) (g : GuiState) : GuiState :=
  mkGui (windows g) (next_window_id g) (dock_items g) (mouse_x g) (mouse_y g) (mouse_prev_left g) (mouse_prev_right g)
    (running g) (needs_full_redraw g) (needs_window_redraw g) h.
Definition set_mouse (x y : Z) (l r : bool) (g : GuiState) : GuiState :=
  mkGui (windows g) (next_window_id g) (dock_items g) x y l r (running g) (needs_full_redraw g) (needs_window_redraw g)
    (hovered_dock g).

Definition create_window (t : list Z) (x y w h : Z) (g : GuiState) : Z * GuiState :=
  let id := next_window_id g in
  (id, mkGui (map (set_focused false) (windows g) ++ [Window_new id t x y w h]) (u32 (id + 1)) (dock_items g) (mouse_x g)
         (mouse_y g) (mouse_prev_left g) (mouse_prev_right g) (running g) (needs_full_redraw g) (needs_window_redraw g)
         (hovered_dock g)).

Definition close_window (id : Z) (g : GuiState) : GuiState := set_windows (filter (λ w, win_id w ≠ id) (windows g)) g.

(** The position of the first window with [p], from the bottom and from the top. *)
Fixpoint find_window (p : Window → bool) (ws : list Window) : option nat :=
  match ws with
  | [] => None
  | w :: ws => if p w then Some O else Datatypes.S <$> find_window p ws
  end.

Fixpoint top_window (p : Window → bool) (ws : list Window) : option nat :=
  match ws with
  | [] => None
  | w :: ws =>
      match top_window p ws with
      | Some n => Some (Datatypes.S n)
      | None => if p w then Some O else None
      end
  end.

Definition focus_window (id : Z) (g : GuiState) : GuiState :=
  let ws := map (λ w, set_focused (win_id w =? id) w) (windows g) in
  match find_window (λ w, win_id w =? id) ws with
  | Some pos => match ws !! pos with Some w => set_windows (delete pos ws ++ [w]) g | None => set_windows ws g end
  | None => set_windows ws g
  end.

(** Change the content of the window at a position. *)
Definition put_content (i : nat) (c : WindowContent) (g : GuiState) : GuiState :=
  set_windows (alter (set_content c) i (windows g)) g.
