(* ===== verification/Desktop.v ===== *)
(** * The events of the desktop: [gui/mod.rs], the handlers

    [handle_mouse], [handle_key_event], [handle_keyboard], the page that is being
    fetched and the layout of pages, on the windows of Windows.v and the files.  The
    command interpreter behind a terminal is a parameter.  A handler that returns
    early skips what comes after it, also the record of the mouse buttons. *)

From S2P Require Import Prelude Bytes Str Vfs Files Html Layout Browser Editor Windows Keyboard.

#[local] Notation "'b' s" := (bytes_of_string s) (at level 9, s at level 9, only parsing).

Definition sat_add (w x y : Z) : Z := Z.min (2 ^ w - 1) (x + y).

#[export] Instance res_fmap : FMap res := λ _ _ f r,
  match r with Ok a => Ok (f a) | Err e => Err e | Panic => Panic end.

(** ** State *)

(** The desktop, the files, the command interpreter and the size of the screen. *)
Record Desk (S I F T : Type) : Type := mkDesk {
  gui : GuiState;
  vfs : VFS S I F;
  shell : T;
  screen_w : Z;
  screen_h : Z;
}.
Arguments mkDesk {S I F T} _ _ _ _ _.
Arguments gui {S I F T} _.
Arguments vfs {S I F T} _.
Arguments shell {S I F T} _.
Arguments screen_w {S I F T} _.
Arguments screen_h {S I F T} _.

(** *** The dock *)

Definition dock_item_size : Z := 48.
Definition dock_padding : Z := 8.
Definition dock_spacing : Z := 4.

Record Dock : Type := mkDock { dock_x : Z; dock_y : Z; dock_width : Z; dock_height : Z }.

Definition dock_of (items : nat) (w h : Z) : Dock :=
  let n := Z.of_nat items in
  let dw := n * dock_item_size + (n + 1) * dock_spacing + dock_padding * 2 in
  let dh := dock_item_size + dock_padding * 2 in
  mkDock (Z.quot (w - dw) 2) (h - dh - 8) dw dh.

Definition in_dock (d : Dock) (mx my : Z) : bool :=
  (dock_y d <=? my) && (my <? dock_y d + dock_height d) && (dock_x d <=? mx) && (mx <? dock_x d + dock_width d).

(** Whether the pointer is on item [i], with a margin above and below. *)
Definition on_item (d : Dock) (margin mx my : Z) (i : Z) : bool :=
  let item_x := dock_x d + dock_padding + dock_spacing + i * (dock_item_size + dock_spacing) in
  let item_y := dock_y d + dock_padding in
  (item_x <=? mx) && (mx <? item_x + dock_item_size) && (item_y - margin <=? my) && (my <? item_y + dock_item_size + margin).

Definition dock_item (items : nat) (w h margin mx my : Z) : option nat :=
  let d := dock_of items w h in
  if in_dock d mx my then Z.to_nat <$> find_range 0 (Z.of_nat items) (on_item d margin mx my) else None.

(** *** Scrolling *)

Definition set_term_scroll (n : Z) (t : TerminalState) : TerminalState :=
  mkTerm (term_buffer t) (term_input t) (term_cursor t) n.
Definition set_about_scroll (n : Z) (a : AboutState) : AboutState := mkAbout n (max_scroll a).
Definition set_editor_scroll (n : nat) (e : Editor) : Editor := set_scroll n (scroll_x e) e.

(** Right-button drag by [dy]: the content scrolled, when it scrolls. *)
Definition drag_scroll (dy : Z) (c : WindowContent) : option WindowContent :=
  let amount := Z.max 1 (Z.quot (Z.abs dy) 5) in
  match c with
  | Terminal t => Some (Terminal (set_term_scroll (if dy <? 0 then sat_add 32 (term_scroll t) amount else sat_sub (term_scroll t) amount) t))
  | FileManager fm =>
      Some (FileManager (set_fm_scroll
        (if dy <? 0 then (fm_scroll fm - Z.to_nat amount)%nat else (Nat.min (fm_scroll fm + Z.to_nat amount) (length (files fm) - 8))%nat) fm))
  | About a =>
      Some (About (set_about_scroll (if dy <? 0 then Z.max 0 (about_scroll a - amount * 3) else Z.min 150 (about_scroll a + amount * 3)) a))
  | TextEditor e =>
      Some (TextEditor (set_editor_scroll (if dy <? 0 then (scroll_y e - Z.to_nat amount)%nat else (scroll_y e + Z.to_nat amount)%nat) e))
  | Windows.Browser br =>
      Some (Windows.Browser (set_br_scroll (if dy <? 0 then sat_sub (br_scroll br) amount else sat_add 64 (br_scroll br) amount) br))
  | _ => None
  end.

(** The wheel, upwards when [delta] is positive. *)
Definition wheel_scroll (delta : Z) (c : WindowContent) : option WindowContent :=
  match c with
  | Terminal t => Some (Terminal (set_term_scroll (if 0 <? delta then sat_add 32 (term_scroll t) 3 else sat_sub (term_scroll t) 3) t))
  | FileManager fm =>
      Some (FileManager (set_fm_scroll (if 0 <? delta then (fm_scroll fm - 1)%nat else (Nat.min (fm_scroll fm + 1) (length (files fm) - 8))%nat) fm))
  | About a => Some (About (set_about_scroll (if 0 <? delta then Z.max 0 (about_scroll a - 30) else Z.min 150 (about_scroll a + 30)) a))
  | TextEditor e => Some (TextEditor (set_editor_scroll (if 0 <? delta then (scroll_y e - 3)%nat else (scroll_y e + 3)%nat) e))
  | Windows.Browser br =>
      Some (Windows.Browser (set_br_scroll (if 0 <? delta then sat_sub (br_scroll br) 3 else sat_add 64 (br_scroll br) 3) br))
  | _ => None
  end.

(** Scroll what is under the pointer. *)
Definition scroll_at (mx my : Z) (f : WindowContent → option WindowContent) (g : GuiState) : GuiState :=
  match top_window (λ w, visible w && point_in_window mx my w) (windows g) with
  | Some i =>
      match windows g !! i with
      | Some w => match f (win_content w) with Some c => redraw_windows (put_content i c g) | None => g end
      | None => g
      end
  | None => g
  end.

(** *** The parts of [handle_mouse] before the click *)

Definition hover (w h mx my : Z) (g : GuiState) : GuiState :=
  let now := dock_item (length (dock_items g)) w h 8 mx my in
  let g' := set_hovered now g in
  if bool_decide (hovered_dock g = now) then g' else redraw_all g'.

Definition drag (mx my : Z) (left : bool) (g : GuiState) : GuiState :=
  match top_window dragging (windows g) with
  | Some i =>
      if left then
        redraw_all (set_windows
          (alter (λ w, set_position (mx - drag_offset_x w) (Z.max 0 (my - drag_offset_y w)) w) i (windows g)) g)
      else set_windows (alter (λ w, set_drag false (drag_offset_x w) (drag_offset_y w) w) i (windows g)) g
  | None => g
  end.

(** ** The handlers *)

Section Desktop.
Context {S I F T : Type} `{!InodeOps S I, !FileSystemOps S I F}.
Context (execute_command : list Z → M (VFS S I F * T) (list Z)) (get_cwd : T → list Z).


#[local] Abbreviation Act := (M (Desk S I F T)).

Definition set_gui (g : GuiState) (d : Desk S I F T) : Desk S I F T := mkDesk g (vfs d) (shell d) (screen_w d) (screen_h d).
Definition set_vfs (v : VFS S I F) (d : Desk S I F T) : Desk S I F T := mkDesk (gui d) v (shell d) (screen_w d) (screen_h d).

Definition on_gui (f : GuiState → GuiState) : Act unit := m_modify (λ d, set_gui (f (gui d)) d).
Definition on_vfs {A} (m : M (VFS S I F) A) : Act A := λ d, let '(r, v) := m (vfs d) in (r, set_vfs v d).
Definition get_gui : Act GuiState := λ d, (Ok (gui d), d).

Definition put (i : nat) (c : WindowContent) : Act unit := on_gui (put_content i c).

(** A window with this content, on top. *)
Definition open_window (t : list Z) (x y w h : Z) (c : WindowContent) : Act unit :=
  g ← get_gui;
  let '(id, g) := create_window t x y w h g in
  on_gui (λ _, match find_window (λ w, win_id w =? id) (windows g) with Some i => put_content i c g | None => g end).

Definition open_file_in_editor (path : list Z) : Act unit :=
  t ← m_lift (if 40 <? len path then (λ s, b "Editor - ..." ++ s) <$> str_slice (len path - 35) (len path) path
              else Ok (b "Editor - " ++ path));
  g ← get_gui;
  let '(id, g) := create_window t 150 50 700 500 g in
  on_gui (λ _, g);;
  e ← on_vfs (load_file path Editor_new);
  on_gui (λ g, redraw_all
    match find_window (λ w, win_id w =? id) (windows g) with Some i => put_content i (TextEditor e) g | None => g end).

(** Run a click on the content of the window [id], if it has the focus; the result
    says whether the handler returned. *)
Definition with_content (id : Z) (f : nat → Window → Act bool) : Act bool :=
  g ← get_gui;
  match find_window (λ w, (win_id w =? id) && focused w) (windows g) with
  | Some i => match windows g !! i with Some w => f i w | None => mret false end
  | None => mret false
  end.

Definition within (lo n x : Z) : bool := (lo <=? x) && (x <? lo + n).

Definition done (m : Act unit) (returned : bool) : Act bool := m;; mret returned.

(** *** Clicks in the file manager *)

Definition fm_toolbar (mx my content_x content_y : Z) (i : nat) (fm : FileManagerState) : Act bool :=
  let del_x := content_x + 90 in
  let del_y := content_y + 6 in
  if within (content_x + 8) 28 mx then
    '(moved, fm) ← on_vfs (fm_back fm);
    done (put i (FileManager fm);; if (moved : bool) then on_gui redraw_windows else mret tt) false
  else if within (content_x + 42) 28 mx then
    '(moved, fm) ← on_vfs (fm_forward fm);
    done (put i (FileManager fm);; if (moved : bool) then on_gui redraw_windows else mret tt) false
  else
    match get_selected_file_path fm with
    | Some path =>
        if within del_x 80 mx && within del_y 24 my then
          on_vfs (m_ignore (remove path));;
          fm ← on_vfs (refresh_files fm);
          done (put i (FileManager fm);; on_gui redraw_windows) true
        else if within (del_x + 92) 100 mx && within del_y 24 my then
          done (open_file_in_editor path;; on_gui redraw_all) true
        else mret false
    | None => mret false
    end.

(** The file under the pointer: position in the list. *)
Definition grid_index (mx my content_x content_y content_w content_h : Z) (fm : FileManagerState) : option Z :=
  let grid_y := content_y + 44 in
  let cols := Z.max 1 (Z.quot (content_w - 24) 90) in
  let visible_rows := u64 (Z.quot (content_h - 68) 80) in
  let rx := mx - content_x - 12 in
  let ry := my - grid_y in
  if (0 <=? rx) && (0 <=? ry) then
    let col := rx / 90 in
    let row := ry / 80 in
    if (col <? cols) && (row <? visible_rows) then Some (Z.of_nat (fm_scroll fm) + (row * cols + col)) else None
  else None.

Definition fm_grid (i : nat) (idx : Z) (fm : FileManagerState) : Act bool :=
  if idx <? len (files fm) then
    let idx := Z.to_nat idx in
    if bool_decide (selected fm = Some idx) then
      match get_selected_file_path fm with
      | Some path => done (open_file_in_editor path;; on_gui redraw_all) true
      | None =>
          '(moved, fm) ← on_vfs (open_selected fm);
          done (put i (FileManager fm);; if (moved : bool) then on_gui redraw_windows else mret tt) false
      end
    else done (put i (FileManager (set_selected (Some idx) fm));; on_gui redraw_windows) false
  else done (put i (FileManager (set_selected None fm));; on_gui redraw_windows) false.

Definition click_files (mx my id : Z) : Act bool :=
  with_content id (λ i w,
    match win_content w with
    | FileManager fm =>
        let content_x := win_x w + 1 in
        let content_y := win_y w + 32 in
        if within content_y 36 my then fm_toolbar mx my content_x content_y i fm
        else if content_y + 44 <=? my then
          match grid_index mx my content_x content_y (width w - 2) (height w - 33) fm with
          | Some idx => fm_grid i idx fm
          | None => mret false
          end
        else mret false
    | _ => mret false
    end).

(** *** Clicks in the browser *)

(** The first link whose rectangle, three pixels taller, has the pointer. *)
Definition link_at (mx my : Z) (rects : list LinkRect) : option Z :=
  rect_link ∘ snd <$> list_find (λ r, within (rect_x r) (rect_w r) mx && within (rect_y r - 3) (rect_h r + 6) my = true) rects.

Definition follow (mx my : Z) (br : BrowserState) : BrowserState :=
  match (k ← link_at mx my (link_rects br); doc_links (doc br) !! Z.to_nat k) with
  | Some url => navigate url br
  | None => br
  end.

Definition click_browser (mx my id : Z) : Act bool :=
  with_content id (λ i w,
    match win_content w with
    | Windows.Browser br =>
        let content_x := win_x w + 1 in
        let content_y := win_y w + 32 in
        let content_w := width w - 2 in
        let content_h := height w - 33 in
        let in_toolbar := within (content_y + 4) 28 my in
        if in_toolbar && within (content_x + 4) 26 mx then
          done (put i (Windows.Browser (browser_back br).2);; on_gui redraw_windows) false
        else if in_toolbar && (content_x + 34 <=? mx) && (mx <? content_x + content_w - 4) then
          done (put i (Windows.Browser (set_url (url_input br) true br));; on_gui redraw_windows) false
        else if (content_y + 36 <=? my) && (my <? content_y + content_h - 20) then
          done (put i (Windows.Browser (follow mx my (set_url (url_input br) false br)));; on_gui redraw_windows) false
        else mret false
    | _ => mret false
    end).

(** *** Clicks in the editor and in the dialog *)

(** The name, the directory and the text the dialog starts with. *)
Definition save_as_defaults (e : Editor) : list Z * list Z :=
  match filename e with
  | Some path =>
      match rfind_slash path with
      | Some pos => (drop (Datatypes.S pos) path, take pos path)
      | None => (path, [Files.slash])
      end
  | None => (b "untitled.txt", b "/home/user")
  end.

(** The cursor under the pointer. *)
Definition click_text (mx my text_x text_y : Z) (e : Editor) : res Editor :=
  let col := (Z.to_nat (Z.quot (mx - text_x) 8) + scroll_x e)%nat in
  let row := (Z.to_nat (Z.quot (my - text_y) 18) + scroll_y e)%nat in
  let line := Nat.min row (length (lines e) - 1) in
  match lines e !! line with
  | Some l => Ok (set_cursor line (Nat.min col (length l)) e)
  | None => Panic
  end.

Definition editor_toolbar (mx content_x : Z) (i : nat) (e : Editor) : Act bool :=
  if within (content_x + 10) 56 mx then
    '(_, e) ← on_vfs (save_file e);
    done (put i (TextEditor e);; on_gui redraw_windows) false
  else if within (content_x + 74) 72 mx then
    let '(name, dir) := save_as_defaults e in
    sas ← on_vfs (SaveAsState_new dir name (content e));
    done (open_window (b "Save As") 260 180 560 360 (SaveAs sas);; on_gui redraw_all) true
  else if within (content_x + 154) 52 mx then
    done (put i (TextEditor (undo e));; on_gui redraw_windows) false
  else if within (content_x + 210) 52 mx then
    done (put i (TextEditor (redo e));; on_gui redraw_windows) false
  else mret false.

Definition go_to_dir (dir : list Z) (i : nat) (sas : SaveAsState) : Act bool :=
  sas ← on_vfs (sas_refresh dir sas);
  done (put i (SaveAs sas);; on_gui redraw_windows) true.

Definition parent_dir (dir : list Z) : list Z :=
  match rfind_slash dir with
  | Some O => [Files.slash]
  | Some pos => take pos dir
  | None => dir
  end.

Definition sas_list (mx my content_x content_y content_w content_h : Z) (i : nat) (sas : SaveAsState) : Act bool :=
  let list_top := content_y + 150 in
  let list_h := content_h - 150 - 12 in
  if within list_top list_h my && within (content_x + 12) (content_w - 24) mx && (0 <=? my - list_top - 4) then
    let row := Z.to_nat ((my - list_top - 4) / 24) in
    if bool_decide (current_dir sas = [Files.slash]) then
      match dirs sas !! (sas_scroll sas + row)%nat with
      | Some d => go_to_dir (Files.slash :: entry_name d) i sas
      | None => mret false
      end
    else
      match row with
      | O => go_to_dir (parent_dir (current_dir sas)) i sas
      | Datatypes.S row =>
          match dirs sas !! (sas_scroll sas + row)%nat with
          | Some d => go_to_dir (path_in (current_dir sas) (entry_name d)) i sas
          | None => mret false
          end
      end
  else mret false.

Definition sas_path (sas : SaveAsState) : list Z := path_in (current_dir sas) (sas_filename sas).

Definition click_dialog (mx my id : Z) (i : nat) (w : Window) (sas : SaveAsState) : Act bool :=
  let content_x := win_x w + 1 in
  let content_y := win_y w + 32 in
  if within (content_x + 12) 80 mx && within (content_y + 6) 24 my then
    on_vfs (m_ignore (write_file (sas_path sas) (sas_content sas)));;
    on_gui (close_window id);;
    done (open_file_in_editor (sas_path sas);; on_gui redraw_all) true
  else if within (content_x + 104) 80 mx && within (content_y + 6) 24 my then
    done (on_gui (close_window id);; on_gui redraw_all) true
  else sas_list mx my content_x content_y (width w - 2) (height w - 33) i sas.

Definition click_editor (mx my id : Z) : Act bool :=
  with_content id (λ i w,
    let content_x := win_x w + 1 in
    let content_y := win_y w + 32 in
    match win_content w with
    | TextEditor e =>
        if within (content_y + 6) 24 my then editor_toolbar mx content_x i e
        else if (content_y + 36 <=? my) && (content_x + 56 <=? mx) then
          e ← m_lift (click_text mx my (content_x + 56) (content_y + 40) e);
          done (put i (TextEditor e);; on_gui redraw_windows) false
        else mret false
    | SaveAs sas => click_dialog mx my id i w sas
    | _ => mret false
    end).

(** *** A click *)

Definition or_return (m1 m2 : Act bool) : Act bool := m1 ≫= λ r : bool, if r then mret true else m2.

Definition click_contents (mx my id : Z) : Act bool :=
  or_return (click_files mx my id) (or_return (click_browser mx my id) (click_editor mx my id)).

(** The topmost window with the pointer on it. *)
Definition hit (mx my : Z) (w : Window) : bool :=
  point_in_close mx my w || point_in_titlebar mx my w || point_in_window mx my w.

Definition start_drag (mx my : Z) (w : Window) (g : GuiState) : GuiState :=
  match find_window (λ w', win_id w' =? win_id w) (windows g) with
  | Some i => set_windows (alter (set_drag true (mx - win_x w) (my - win_y w)) i (windows g)) g
  | None => g
  end.

Definition click_window (mx my : Z) (w : Window) : Act bool :=
  if point_in_close mx my w then done (on_gui (close_window (win_id w));; on_gui redraw_all) false
  else
    on_gui (focus_window (win_id w));;
    on_gui redraw_windows;;
    (if point_in_titlebar mx my w then on_gui (start_drag mx my w) else mret tt);;
    click_contents mx my (win_id w).

Definition open_item (a : IconAction) : Act unit :=
  match a with
  | OpenTerminal => open_window (b "Terminal") 200 80 600 400 (Terminal (mkTerm [] [] true 0));; on_gui redraw_all
  | OpenAbout => open_window (b "System Info") 250 80 360 480 (About AboutState_new);; on_gui redraw_all
  | OpenFiles =>
      fm ← on_vfs (FileManagerState_new [Files.slash]);
      open_window (b "Files") 250 100 550 450 (FileManager fm);; on_gui redraw_windows
  | OpenEditor => open_window (b "Text Editor") 150 50 700 500 (TextEditor Editor_new);; on_gui redraw_all
  | OpenBrowser => open_window (b "Browser") 80 40 780 540 (Windows.Browser BrowserState_new);; on_gui redraw_all
  end.

Definition click_dock (mx my : Z) : Act unit := λ d,
  match dock_item (length (dock_items (gui d))) (screen_w d) (screen_h d) 0 mx my with
  | Some i => match dock_items (gui d) !! i with Some (_, a) => open_item a d | None => (Ok tt, d) end
  | None => (Ok tt, d)
  end.

Definition click (mx my : Z) : Act bool :=
  g ← get_gui;
  match top_window (hit mx my) (windows g) with
  | Some i => match windows g !! i with Some w => click_window mx my w | None => mret false end
  | None => done (click_dock mx my) false
  end.

(** ** The mouse *)

Definition handle_mouse (mx my : Z) (left right : bool) (scroll_delta : Z) : Act unit :=
  g ← get_gui;
  let left_click := left && negb (mouse_prev_left g) in
  let dy := my - mouse_y g in
  (if right && mouse_prev_right g && negb (dy =? 0) then on_gui (scroll_at mx my (drag_scroll dy)) else mret tt);;
  (if negb (scroll_delta =? 0) then on_gui (scroll_at mx my (wheel_scroll scroll_delta)) else mret tt);;
  m_modify (λ d : Desk S I F T, set_gui (hover (screen_w d) (screen_h d) mx my (gui d)) d);;
  on_gui (drag mx my left);;
  (if left_click then click mx my else mret false) ≫= λ returned : bool,
  if returned then mret tt else on_gui (set_mouse mx my left right).

(** ** Special keys *)

(** An editing operation, then the cursor scrolled into view. *)
Definition run_editor (m : M Editor unit) (e : Editor) : res Editor :=
  match m e with (Ok _, e) => Ok e | (Err err, _) => Err err | (Panic, _) => Panic end.

Definition move_editor (m : M Editor unit) (e : Editor) : M (VFS S I F) (option WindowContent) :=
  e ← m_lift (run_editor m e);
  mret (Some (TextEditor (ensure_cursor_visible 25 80 e))).

Definition term_key (k : KeyCode.t) (t : TerminalState) : option TerminalState :=
  match k with
  | KeyCode.Up => Some (set_term_scroll (sat_add 32 (term_scroll t) 1) t)
  | KeyCode.Down => Some (set_term_scroll (sat_sub (term_scroll t) 1) t)
  | KeyCode.PageUp => Some (set_term_scroll (sat_add 32 (term_scroll t) 10) t)
  | KeyCode.PageDown => Some (set_term_scroll (sat_sub (term_scroll t) 10) t)
  | KeyCode.Home => Some t
  | KeyCode.End => Some (set_term_scroll 0 t)
  | KeyCode.Delete => Some (mkTerm (term_buffer t) (str_pop (term_input t)) (term_cursor t) 0)
  | _ => None
  end.

(** The selection in a grid of eight columns; the first file when nothing is selected. *)
Definition move_selection (f : nat → option nat) (fm : FileManagerState) : option FileManagerState :=
  match selected fm with
  | Some sel => (λ i, set_selected (Some i) fm) <$> f sel
  | None => if decide (files fm = []) then None else Some (set_selected (Some O) fm)
  end.

Definition fm_key (k : KeyCode.t) (fm : FileManagerState) : M (VFS S I F) (option FileManagerState) :=
  let n := length (files fm) in
  match k with
  | KeyCode.Up => mret (move_selection (λ sel, if decide (8 ≤ sel)%nat then Some (sel - 8)%nat else None) fm)
  | KeyCode.Down => mret (move_selection (λ sel, if decide (sel + 8 < n)%nat then Some (sel + 8)%nat else None) fm)
  | KeyCode.Left => mret (move_selection (λ sel, if decide (0 < sel)%nat then Some (sel - 1)%nat else None) fm)
  | KeyCode.Right => mret (move_selection (λ sel, if decide (sel + 1 < n)%nat then Some (sel + 1)%nat else None) fm)
  | KeyCode.Enter => '(moved, fm) ← open_selected fm; mret (if (moved : bool) then Some fm else None)
  | KeyCode.Backspace => '(moved, fm) ← fm_back fm; mret (if (moved : bool) then Some fm else None)
  | KeyCode.PageUp => mret (Some (set_fm_scroll (fm_scroll fm - 8)%nat fm))
  | KeyCode.PageDown => mret (Some (set_fm_scroll (Nat.min (fm_scroll fm + 8) (n - 16))%nat fm))
  | _ => mret None
  end.

Definition about_key (k : KeyCode.t) (a : AboutState) : option AboutState :=
  match k with
  | KeyCode.Up => Some (set_about_scroll (Z.max 0 (about_scroll a - 20)) a)
  | KeyCode.Down => Some (set_about_scroll (Z.min 150 (about_scroll a + 20)) a)
  | KeyCode.PageUp => Some (set_about_scroll (Z.max 0 (about_scroll a - 80)) a)
  | KeyCode.PageDown => Some (set_about_scroll (Z.min 150 (about_scroll a + 80)) a)
  | KeyCode.Home => Some (set_about_scroll 0 a)
  | KeyCode.End => Some (set_about_scroll 150 a)
  | _ => None
  end.

Definition editor_key (k : KeyCode.t) (e : Editor) : M (VFS S I F) (option WindowContent) :=
  match k with
  | KeyCode.Up => move_editor move_up e
  | KeyCode.Down => move_editor move_down e
  | KeyCode.Left => move_editor move_left e
  | KeyCode.Right => move_editor move_right e
  | KeyCode.Home => move_editor move_home e
  | KeyCode.End => move_editor move_end e
  | KeyCode.PageUp => move_editor (page_up 20) e
  | KeyCode.PageDown => move_editor (page_down 20) e
  | KeyCode.Delete => e ← m_lift (run_editor delete_forward e); mret (Some (TextEditor e))
  | _ => mret None
  end.

Definition browser_key (k : KeyCode.t) (br : BrowserState) : option BrowserState :=
  match k with
  | KeyCode.Up => Some (set_br_scroll (sat_sub (br_scroll br) 1) br)
  | KeyCode.Down => Some (set_br_scroll (u64 (br_scroll br + 1)) br)
  | KeyCode.PageUp => Some (set_br_scroll (sat_sub (br_scroll br) 15) br)
  | KeyCode.PageDown => Some (set_br_scroll (u64 (br_scroll br + 15)) br)
  | KeyCode.Home => Some (set_br_scroll 0 br)
  | KeyCode.End => Some (set_br_scroll ((2 ^ 64 - 1) / 2) br)
  | _ => None
  end.

(** The new content, when the key does something. *)
Definition key_content (k : KeyCode.t) (c : WindowContent) : M (VFS S I F) (option WindowContent) :=
  match c with
  | Terminal t => mret (Terminal <$> term_key k t)
  | FileManager fm => r ← fm_key k fm; mret (FileManager <$> r)
  | About a => mret (About <$> about_key k a)
  | TextEditor e => editor_key k e
  | Windows.Browser br => mret (Windows.Browser <$> browser_key k br)
  | _ => mret None
  end.

Definition handle_key_event (ev : KeyEvent) : Act unit :=
  g ← get_gui;
  if negb (pressed ev) then mret tt
  else
    match top_window focused (windows g) with
    | Some i =>
        match windows g !! i with
        | Some w =>
            r ← on_vfs (key_content (keycode ev) (win_content w));
            match r with Some c => put i c;; on_gui redraw_windows | None => mret tt end
        | None => mret tt
        end
    | None => mret tt
    end.

(** ** Characters *)

(** A character is its encoding. *)
Definition is_enter (c : list Z) : bool := bool_decide (c = [10]) || bool_decide (c = [13]).
Definition is_rubout (c : list Z) : bool := bool_decide (c = [8]) || bool_decide (c = [127]).
Definition is_printable (c : list Z) : bool := match c with [x] => (32 <=? x) && (x <=? 126) | _ => false end.
Definition is_above_space (c : list Z) : bool := match c with [x] => 32 <=? x | _ => true end.

Definition clear_output : list Z := [27] ++ b "[CLEAR]".

(** What a command leaves in the terminal. *)
Definition print_output (output : list Z) (t : TerminalState) : TerminalState :=
  if bool_decide (output = clear_output) then mkTerm [] [] (term_cursor t) (term_scroll t)
  else
    let text := if bool_decide (output = []) then [] else output ++ (if bool_decide (last output = Some 10) then [] else [10]) in
    mkTerm (term_buffer t ++ text) [] (term_cursor t) (term_scroll t).

Definition run_command (t : TerminalState) : Act TerminalState := λ d,
  let prompt := get_cwd (shell d) ++ b "> " ++ term_input t ++ [10] in
  let t := mkTerm (term_buffer t ++ prompt) (term_input t) (term_cursor t) 0 in
  let '(r, (v, sh)) := execute_command (term_input t) (vfs d, shell d) in
  ((out ← r; Ok (print_output out t)), mkDesk (gui d) v sh (screen_w d) (screen_h d)).

Definition set_input (input : list Z) (t : TerminalState) : TerminalState := mkTerm (term_buffer t) input (term_cursor t) 0.

Definition type_terminal (c : list Z) (t : TerminalState) : Act TerminalState :=
  if is_enter c then run_command t
  else mret
    (if is_rubout c then set_input (str_pop (term_input t)) t
     else if bool_decide (c = [9]) then set_input (term_input t ++ b "    ") t
     else if bool_decide (c = [27]) then set_input [] t
     else if is_printable c then set_input (term_input t ++ c) t
     else t).

Fixpoint insert_spaces (n : nat) : M Editor unit :=
  match n with O => mret tt | Datatypes.S n => insert_char [32];; insert_spaces n end.

Definition type_editor (c : list Z) (e : Editor) : res Editor :=
  e ← (if is_enter c then ensure_cursor_visible 25 80 <$> run_editor (insert_char [10]) e
       else if is_rubout c then ensure_cursor_visible 25 80 <$> run_editor delete_char e
       else if bool_decide (c = [9]) then ensure_cursor_visible 25 80 <$> run_editor (insert_spaces 4) e
       else if is_printable c then ensure_cursor_visible 25 80 <$> run_editor (insert_char c) e
       else Ok e);
  Ok (set_blink true 0 e).

Definition type_browser (c : list Z) (br : BrowserState) : BrowserState :=
  if url_focused br then
    if is_enter c then match build_navigate_url (url_input br) with Some url => navigate url br | None => br end
    else if is_rubout c then set_url (str_pop (url_input br)) true br
    else if bool_decide (c = [27]) then set_url (url_input br) false br
    else if is_above_space c then set_url (url_input br ++ c) true br
    else br
  else
    if bool_decide (c = b "u") || bool_decide (c = b "U") then set_url [] true br
    else if is_rubout c then (browser_back br).2
    else br.

Definition type_dialog (c : list Z) (i : nat) (w : Window) (sas : SaveAsState) : Act unit :=
  if is_enter c then
    on_vfs (m_ignore (write_file (sas_path sas) (sas_content sas)));;
    open_file_in_editor (sas_path sas);;
    on_gui (close_window (win_id w));;
    on_gui redraw_all
  else if is_rubout c then put i (SaveAs (set_sas_filename (str_pop (sas_filename sas)) sas));; on_gui redraw_windows
  else if is_printable c then put i (SaveAs (set_sas_filename (sas_filename sas ++ c) sas));; on_gui redraw_windows
  else if bool_decide (c = [27]) then on_gui (close_window (win_id w));; on_gui redraw_all
  else on_gui redraw_windows.

(** The contents that take characters. *)
Definition takes_text (c : WindowContent) : bool :=
  match c with Terminal _ | TextEditor _ | SaveAs _ | Windows.Browser _ => true | _ => false end.

Definition type_content (c : list Z) (i : nat) (w : Window) : Act unit :=
  match win_content w with
  | Terminal t => t ← type_terminal c t; put i (Terminal t);; on_gui redraw_windows
  | TextEditor e => e ← m_lift (type_editor c e); put i (TextEditor e);; on_gui redraw_windows
  | SaveAs sas => type_dialog c i w sas
  | Windows.Browser br => put i (Windows.Browser (type_browser c br));; on_gui redraw_windows
  | _ => mret tt
  end.

Definition handle_keyboard (c : list Z) : Act unit :=
  g ← get_gui;
  match top_window (λ w, focused w && takes_text (win_content w)) (windows g) with
  | Some i => match windows g !! i with Some w => type_content c i w | None => mret tt end
  | None => mret tt
  end.

(** ** Pages *)

(** The rectangles of the links in a row of the page. *)
Fixpoint row_rects (text_x y : Z) (line : list LaidSpan) : list LinkRect :=
  match line with
  | [] => []
  | s :: line =>
      match l_link s with
      | Some k => mkRect (text_x + l_col s * 8) y (len (l_text s) * 8) 14 k :: row_rects text_x y line
      | None => row_rects text_x y line
      end
  end.

Fixpoint page_rects (text_x y : Z) (rows : list (list LaidSpan)) : list LinkRect :=
  match rows with
  | [] => []
  | line :: rows => row_rects text_x y line ++ page_rects text_x (y + 14) rows
  end.

(** Lay the page out again when the width changed, keep the scroll in the page, and
    find the links on the screen. *)
Definition prepare_layout (w : Window) (br : BrowserState) : option (res BrowserState) :=
  let content_w := sat_sub (width w) 2 in
  let content_h := sat_sub (height w) 33 in
  let text_x := win_x w + 9 in
  let text_y := win_y w + 32 + 36 in
  let max_chars := sat_sub content_w 16 / 8 in
  let max_lines := sat_sub content_h 64 / 14 in
  let laid := if layout_width br =? max_chars then Some (Ok (doc_layout br)) else layout (doc br) max_chars in
  match laid with
  | Some (Ok rows) =>
      let scroll := Z.min (br_scroll br) (sat_sub (len rows) max_lines) in
      let start := Z.min scroll (sat_sub (len rows) 1) in
      let shown := slice start (Z.min (start + max_lines) (len rows) - start) rows in
      Some (Ok (mkBrowser (url_input br) (url_focused br) (doc br) rows max_chars (page_rects text_x text_y shown)
        (visited br) (current_url br) scroll (status br) (pending_url br)))
  | Some (Err e) => Some (Err e)
  | Some Panic => Some Panic
  | None => None
  end.

Fixpoint prepare_windows (ws : list Window) : option (res (list Window)) :=
  match ws with
  | [] => Some (Ok [])
  | w :: ws =>
      r ← match win_content w with
          | Windows.Browser br =>
              if visible w then r ← prepare_layout w br; Some ((λ br, set_content (Windows.Browser br) w) <$> r) else Some (Ok w)
          | _ => Some (Ok w)
          end;
      rs ← prepare_windows ws;
      Some (w ← r; ws ← rs; Ok (w :: ws))
  end.

Definition prepare_browser_layouts : Act (option unit) := λ d,
  match prepare_windows (windows (gui d)) with
  | Some (Ok ws) => (Ok (Some tt), set_gui (set_windows ws (gui d)) d)
  | Some _ => (Panic, d)
  | None => (Ok None, d)
  end.

(** The page that failed to load. *)
Definition error_page (e : list Z) : Document :=
  from_text (b "Could not load page." ++ 10 :: 10 :: b "Error: " ++ e ++ 10 :: 10 :: b "Working sites:" ++ 10 ::
    b "  * http://example.com" ++ 10 :: b "  * http://info.cern.ch" ++ 10 :: b "  * http://wiby.me" ++ 10 ::
    b "  * http://neverssl.com").

(** "OK — " *)
Definition ok_status (url : list Z) : list Z := b "OK " ++ [0xE2; 0x80; 0x94] ++ b " " ++ url.

Definition show_result (result : Document + list Z) (br : BrowserState) : BrowserState :=
  let url := url_input br in
  match result with
  | inl d => set_page url (ok_status url) (set_doc d br)
  | inr e => let br := set_doc (error_page e) br in set_page (current_url br) (b "Error: " ++ e) br
  end.

(** The fetch of window [id] has finished. *)
Definition finish_fetch (id : Z) (result : Document + list Z) (g : GuiState) : GuiState :=
  match find_window (λ w, win_id w =? id) (windows g) with
  | Some i =>
      match win_content <$> windows g !! i with
      | Some (Windows.Browser br) => redraw_all (put_content i (Windows.Browser (show_result result br)) g)
      | _ => g
      end
  | None => g
  end.

Definition wants_page (w : Window) : bool :=
  match win_content w with Windows.Browser br => bool_decide (pending_url br ≠ None) | _ => false end.

(** The next page to fetch, taken from its window. *)
Definition take_pending (g : GuiState) : option (Z * list Z) * GuiState :=
  match top_window wants_page (windows g) with
  | Some i =>
      match windows g !! i with
      | Some w =>
          match win_content w with
          | Windows.Browser br =>
              match pending_url br with
              | Some url => (Some (win_id w, url), put_content i (Windows.Browser (set_pending None br)) g)
              | None => (None, g)
              end
          | _ => (None, g)
          end
      | None => (None, g)
      end
  | None => (None, g)
  end.

End Desktop.

(** ** Start-up and the cursor *)

Definition gui_init : GuiState :=
  mkGui [] 1
    [(b "Terminal", OpenTerminal); (b "Files", OpenFiles); (b "Editor", OpenEditor); (b "Info", OpenAbout);
     (b "Browser", OpenBrowser)]
    640 360 false false true true false None.

Definition blink_window (w : Window) : Window :=
  match win_content w with TextEditor e => set_content (TextEditor (update_blink e)) w | _ => w end.

Definition blink_cursors (g : GuiState) : GuiState := set_windows (map blink_window (windows g)) g.
