(* ===== verification/DesktopSpec.v ===== *)
(** * The desktop keeps its windows in order

    Identifiers are unique, only the window on top can have the focus, a click raises
    the window it hits, and a key reaches the window with the focus only
    ([desktop_invariant]).  The file manager walks its history like a browser
    ([fm_history]) and shows the entries of a directory in order. *)

From stdpp Require Import sorting.
From S2P Require Import Prelude Bytes Str Vfs Files Html Layout Editor Windows Keyboard Desktop RamFS RamSpec.

(** ** The window list *)

(** The invariant of the list, with the identifiers below [n]. *)
Record windows_ok (good : WindowContent → Prop) (n : Z) (ws : list Window) : Prop := {
  wo_ids : NoDup (map win_id ws);
  wo_below : Forall (λ w, 0 < win_id w < n) ws;
  wo_focus : ∀ i w, ws !! i = Some w → focused w = true → Datatypes.S i = length ws;
  wo_content : Forall (λ w, good (win_content w)) ws;
}.

Section WindowList.
Context (good : WindowContent → Prop).
Implicit Types (w : Window) (ws : list Window) (g : GuiState).

Lemma find_window_Some p ws i : find_window p ws = Some i → ∃ w, ws !! i = Some w ∧ p w = true.
Proof using Type.
  revert i. induction ws as [|w ws IH]; intros i; cbn; [done|]. destruct (p w) eqn:E.
  - intros [= <-]. by exists w.
  - intros (j & Hj & ->)%fmap_Some. by apply IH.
Qed.

Lemma find_window_None p ws : find_window p ws = None → Forall (λ w, p w = false) ws.
Proof using Type.
  induction ws as [|w ws IH]; cbn; [constructor|]. destruct (p w) eqn:E; [done|].
  intros H%fmap_None. constructor; [done|by apply IH].
Qed.

(** The topmost window with [p]: it has [p] and none above it does. *)
Lemma top_window_Some p ws i :
  top_window p ws = Some i → ∃ w, ws !! i = Some w ∧ p w = true ∧ ∀ j w', ws !! j = Some w' → p w' = true → (j ≤ i)%nat.
Proof using Type.
  revert i. induction ws as [|w ws IH]; intros i; cbn; [done|]. destruct (top_window p ws) as [n|] eqn:E.
  - intros [= <-]. destruct (IH n eq_refl) as (w1 & H1 & H2 & H3). exists w1. split_and!; [done|done|].
    intros [|j] w' Hj Hp; [lia|]. apply le_n_S. by apply (H3 j w').
  - destruct (p w) eqn:Ep; [|done]. intros [= <-]. exists w. split_and!; [done|done|]. clear IH.
    intros [|j] w' Hj Hp; [lia|]. exfalso. cbn in Hj. clear -E Hj Hp. revert j Hj E.
    induction ws as [|w1 ws IH]; intros j Hj; cbn; [done|]. destruct (top_window p ws) eqn:E1; [done|].
    destruct (p w1) eqn:E2; [done|]. intros _. destruct j as [|j]; cbn in Hj; [congruence|by apply (IH j Hj)].
Qed.

Lemma top_window_None p ws : top_window p ws = None → Forall (λ w, p w = false) ws.
Proof using Type.
  induction ws as [|w ws IH]; cbn; [constructor|]. destruct (top_window p ws); [done|].
  destruct (p w) eqn:E; [done|]. intros _. constructor; [done|by apply IH].
Qed.

(** A change of one window that keeps its identifier and gives it no focus. *)
Lemma windows_ok_alter n ws i (f : Window → Window) :
  windows_ok good n ws → (∀ w, win_id (f w) = win_id w) → (∀ w, focused (f w) = focused w) →
  (∀ w, ws !! i = Some w → good (win_content w) → good (win_content (f w))) → windows_ok good n (alter f i ws).
Proof using Type.
  intros [H1 H2 H3 H4] Hid Hf Hg. assert (∀ k w, alter f i ws !! k = Some w → ∃ w0, ws !! k = Some w0 ∧
    win_id w = win_id w0 ∧ focused w = focused w0 ∧ (good (win_content w0) → good (win_content w))) as Hl.
  { intros k w. destruct (decide (k = i)) as [->|Hne].
    - rewrite list_lookup_alter_eq. intros (w0 & E & ->)%fmap_Some. exists w0. split_and!; auto.
    - rewrite list_lookup_alter_ne by done. intros E. exists w. by split_and!. }
  split.
  - enough (map win_id (alter f i ws) = map win_id ws) as -> by done.
    apply list_eq. intros k. rewrite !list_lookup_fmap. destruct (decide (k = i)) as [->|Hne].
    + rewrite list_lookup_alter_eq. destruct (ws !! i); cbn; [by rewrite Hid|done].
    + by rewrite list_lookup_alter_ne.
  - apply Forall_lookup. intros k w (w0 & E & -> & _)%Hl. by apply (Forall_lookup_1 _ _ _ _ H2 E).
  - intros k w (w0 & E & _ & -> & _)%Hl. rewrite length_alter. by apply H3.
  - apply Forall_lookup. intros k w (w0 & E & _ & _ & Hg0)%Hl. apply Hg0, (Forall_lookup_1 _ _ _ _ H4 E).
Qed.

Lemma Forall_filtered (P Q : Window → Prop) `{∀ w, Decision (P w)} ws : Forall Q ws → Forall Q (filter P ws).
Proof using Type. rewrite !Forall_forall. intros HQ w [_ Hw]%list_elem_of_filter. by apply HQ. Qed.

Lemma windows_ok_filter n ws (P : Window → Prop) `{∀ w, Decision (P w)} : windows_ok good n ws → windows_ok good n (filter P ws).
Proof using Type.
  intros [H1 H2 H3 H4]. split.
  - clear -H1. induction ws as [|w ws IH]; [done|]. apply NoDup_cons in H1 as [Hw H1]. destruct (decide (P w)) as [Hp|Hp].
    + rewrite filter_cons_True by done. cbn. apply NoDup_cons. split; [|by apply IH].
      intros (w' & E & Hw')%list_elem_of_fmap. apply Hw, list_elem_of_fmap. exists w'. split; [done|].
      by apply list_elem_of_filter in Hw' as [_ ?].
    + rewrite filter_cons_False by done. by apply IH.
  - by apply Forall_filtered.
  - clear -H3. induction ws as [|w ws IH]; [done|].
    assert (∀ i w0, ws !! i = Some w0 → focused w0 = true → Datatypes.S i = length ws) as H4.
    { intros i w0 Hi Hf. specialize (H3 (Datatypes.S i) w0 Hi Hf). cbn in H3. lia. }
    destruct (decide (P w)) as [Hp|Hp]; [|rewrite filter_cons_False by done; by apply IH].
    rewrite filter_cons_True by done. intros [|i] w0 E Hf; cbn in E.
    + injection E as <-. specialize (H3 0%nat w eq_refl Hf). cbn in H3. destruct ws; [done|cbn in H3; lia].
    + cbn. f_equal. by apply (IH H4 i w0).
  - by apply Forall_filtered.
Qed.

Lemma map_id_set_focused (f : Window → bool) ws : map win_id (map (λ w, set_focused (f w) w) ws) = map win_id ws.
Proof using Type. rewrite map_map. by apply map_ext. Qed.

(** [focus_window] raises the window: the others keep their order and lose the focus. *)
Lemma focus_window_spec id g i w :
  NoDup (map win_id (windows g)) → windows g !! i = Some w → win_id w = id →
  windows (focus_window id g) = map (set_focused false) (delete i (windows g)) ++ [set_focused true w].
Proof using Type.
  intros Hnd Hi Hid. unfold focus_window. set (ws := windows g) in *.
  pose proof (take_drop_middle _ _ _ Hi) as E. set (A := take i ws) in *. set (B := drop (Datatypes.S i) ws) in *.
  assert (length A = i) as HA by (apply length_take_le; apply lookup_lt_Some in Hi; lia).
  rewrite <- E in Hnd. rewrite map_app in Hnd. apply NoDup_app in Hnd as (_ & Hdis & [HwB _]%NoDup_cons).
  assert (∀ l, (∀ w', w' ∈ l → win_id w' ≠ id) → map (λ w0, set_focused (win_id w0 =? id) w0) l = map (set_focused false) l) as Hmap.
  { intros l Hl. apply map_ext_in. intros w' Hw'%list_elem_of_In. by rewrite (proj2 (Z.eqb_neq _ _) (Hl w' Hw')). }
  assert (∀ w', w' ∈ A → win_id w' ≠ id) as HAid.
  { intros w' Hw' Hid'. apply (Hdis id); [apply list_elem_of_fmap; by exists w'|]. rewrite <- Hid. constructor. }
  assert (∀ w', w' ∈ B → win_id w' ≠ id) as HBid.
  { intros w' Hw' Hid'. apply HwB. rewrite Hid. apply list_elem_of_fmap. by exists w'. }
  assert (map (λ w0, set_focused (win_id w0 =? id) w0) ws = map (set_focused false) A ++ set_focused true w :: map (set_focused false) B) as Ews.
  { rewrite <- E, map_app. cbn [map]. rewrite Hid, Z.eqb_refl. by rewrite !Hmap. }
  rewrite Ews.
  assert (find_window (λ w0, win_id w0 =? id) (map (set_focused false) A ++ set_focused true w :: map (set_focused false) B) = Some i) as ->.
  { rewrite <- HA. clear -HAid Hid. induction A as [|a A IH]; cbn; [by rewrite Hid, Z.eqb_refl|].
    rewrite (proj2 (Z.eqb_neq (win_id a) id)) by (apply HAid; constructor). rewrite IH; [done|].
    intros w' Hw'. apply HAid. by constructor. }
  assert (∀ (X : list Window) y Y, length X = i → (X ++ y :: Y) !! i = Some y ∧ delete i (X ++ y :: Y) = X ++ Y) as Hmid.
  { intros X y Y <-. split; [by apply list_lookup_middle|apply delete_middle]. }
  destruct (Hmid (map (set_focused false) A) (set_focused true w) (map (set_focused false) B)) as [-> ->]; [by rewrite length_map|].
  cbn [windows set_windows]. rewrite <- E. rewrite (proj2 (Hmid A w B HA)), map_app. by rewrite <- app_assoc.
Qed.

Lemma lookup_snoc_inv {A} (l : list A) x i y : (l ++ [x]) !! i = Some y → (l !! i = Some y ∧ (i < length l)%nat) ∨ (i = length l ∧ y = x).
Proof using Type.
  intros H. destruct (decide (i < length l)%nat) as [Hi|Hi].
  - left. by rewrite lookup_app_l in H.
  - right. rewrite lookup_app_r in H by lia. destruct (i - length l)%nat eqn:E; cbn in H; [|done]. injection H as <-. split; [lia|done].
Qed.

(** A list without focus under a new window. *)
Lemma windows_ok_snoc n ws w :
  windows_ok good n ws → Forall (λ w', focused w' = false) ws → win_id w ∉ map win_id ws → 0 < win_id w < n →
  good (win_content w) → windows_ok good n (ws ++ [w]).
Proof using Type.
  intros [H1 H2 H3 H4] Hf Hid Hn Hg. split.
  - rewrite map_app. apply NoDup_app. split; [done|]. split; [|by apply NoDup_singleton].
    intros x Hx ->%list_elem_of_singleton. done.
  - apply Forall_app. split; [done|by constructor].
  - intros i w' [[E _]|[-> ->]]%lookup_snoc_inv Hw'; rewrite length_app; cbn; [|lia].
    apply (Forall_lookup_1 _ _ _ _ Hf) in E. congruence.
  - apply Forall_app. split; [done|by constructor].
Qed.

Lemma windows_ok_unfocus n ws : windows_ok good n ws → windows_ok good n (map (set_focused false) ws).
Proof using Type.
  intros [H1 H2 H3 H4]. split.
  - rewrite map_map. done.
  - apply Forall_map. done.
  - intros i w. rewrite list_lookup_fmap. intros (w0 & _ & ->)%fmap_Some. done.
  - apply Forall_map. done.
Qed.

Lemma windows_ok_focus n g id :
  windows_ok good n (windows g) → windows_ok good n (windows (focus_window id g)).
Proof using Type.
  intros H. destruct (find_window (λ w, win_id w =? id) (windows g)) as [i|] eqn:E.
  - apply find_window_Some in E as (w & Ei & Hid%Z.eqb_eq). destruct H as [H1 H2 H3 H4].
    rewrite (focus_window_spec id g i w) by done. apply delete_Permutation in Ei.
    rewrite (Permutation_map win_id Ei) in H1. rewrite Ei in H2, H4. cbn in H1. apply NoDup_cons in H1 as [Hw H1].
    apply Forall_cons in H2 as [Hn H2], H4 as [Hg H4]. apply windows_ok_snoc; try done.
    + split; [by rewrite map_map|by apply Forall_map| |by apply Forall_map].
      intros k w'. rewrite list_lookup_fmap. by intros (w0 & _ & ->)%fmap_Some.
    + by apply Forall_map, Forall_true.
    + by rewrite map_map.
  - assert (∀ w, w ∈ windows g → (win_id w =? id) = false) as Hno.
    { intros w Hw. apply find_window_None in E. rewrite Forall_forall in E. by apply E. }
    unfold focus_window. assert (find_window (λ w, win_id w =? id) (map (λ w, set_focused (win_id w =? id) w) (windows g)) = None) as ->.
    { revert Hno. generalize (windows g). clear. intros ws. induction ws as [|w ws IH]; intros Hno; cbn; [done|].
      rewrite Hno by constructor. rewrite IH; [done|]. intros w' Hw'. apply Hno. by constructor. }
    assert (map (λ w, set_focused (win_id w =? id) w) (windows g) = map (set_focused false) (windows g)) as ->.
    { apply map_ext_in. intros w Hw%list_elem_of_In. by rewrite Hno. }
    by apply windows_ok_unfocus.
Qed.

Lemma windows_ok_create n g t (x y w h : Z) :
  windows_ok good (next_window_id g) (windows g) → 1 ≤ next_window_id g → next_window_id g < n → good Empty →
  windows_ok good n (windows (create_window t x y w h g).2).
Proof using Type.
  intros H Hlo Hn He. pose proof H as [_ H2 _ _].
  assert (windows_ok good n (windows g)) as Hok.
  { destruct H as [H1 _ H3 H4]. split; [done| |done|done]. eapply Forall_impl; [exact H2|]. cbn. intros; lia. }
  apply windows_ok_snoc; [by apply windows_ok_unfocus|by apply Forall_map, Forall_true| |cbn; lia|done].
  rewrite map_map. cbn. intros (w' & E & Hw')%list_elem_of_fmap. rewrite Forall_forall in H2. apply H2 in Hw'. lia.
Qed.

Lemma windows_ok_close n g id : windows_ok good n (windows g) → windows_ok good n (windows (close_window id g)).
Proof using Type. apply windows_ok_filter. Qed.

Lemma windows_ok_put n g i c : windows_ok good n (windows g) → good c → windows_ok good n (windows (put_content i c g)).
Proof using Type. intros H Hc. by apply windows_ok_alter. Qed.

End WindowList.

Lemma windows_ok_mono (good good' : WindowContent → Prop) n n' ws :
  windows_ok good n ws → n ≤ n' → (∀ c, good c → good' c) → windows_ok good' n' ws.
Proof.
  intros [H1 H2 H3 H4] Hn Hg. split; [done| |done|].
  - eapply Forall_impl; [exact H2|]. cbn. intros; lia.
  - eapply Forall_impl; [exact H4|]. auto.
Qed.

(** ** The file manager *)

(** The selection is a file that is shown, and the history holds the current path. *)
Record fm_ok (n : Z) (fm : FileManagerState) : Prop := {
  fo_path : history fm !! history_index fm = Some (current_path fm);
  fo_length : len (history fm) ≤ n;
  fo_selected : ∀ i, selected fm = Some i → (i < length (files fm))%nat;
}.

(** Where one has been, where one is, and where one came back from. *)
Definition trail_of (fm : FileManagerState) : list (list Z) * list Z * list (list Z) :=
  (take (history_index fm) (history fm), current_path fm, drop (Datatypes.S (history_index fm)) (history fm)).

(** The entries in the order of the window. *)
Definition listed (es ks : list FileEntry) : Prop := Sorted entry_before ks ∧ ks ≡ₚ es.

Lemma bytes_leb_total x y : bytes_leb x y = true ∨ bytes_leb y x = true.
Proof.
  revert y. induction x as [|a x IH]; intros [|c y]; cbn; [by left|by left|by right|].
  destruct (Z.ltb_spec a c), (Z.ltb_spec c a); auto; lia.
Qed.

#[export] Instance entry_before_total : Total entry_before.
Proof. intros x y. unfold entry_before. destruct (is_dir x), (is_dir y); auto using bytes_leb_total. Qed.

Lemma listed_sort es : listed es (merge_sort entry_before es).
Proof. split; [apply Sorted_merge_sort, _|apply merge_sort_Permutation]. Qed.

Section FileManager.
Context {S I F : Type} `{!InodeOps S I, !FileSystemOps S I F}.
Implicit Types (v : VFS S I F) (fm : FileManagerState).

Lemma refresh_run fm v es v' :
  entries_of (current_path fm) v = (Ok es, v') →
  refresh_files fm v = (Ok (mkFM (current_path fm) (merge_sort entry_before es) None (history fm) (history_index fm) 0), v').
Proof using Type. intros E. unfold refresh_files. by rewrite (M_bind_run _ _ _ _ _ E). Qed.

(** Every result of [refresh_files], for a history that is in order. *)
Definition settles (n : Z) (m : M (VFS S I F) FileManagerState) : Prop :=
  ∀ v, match m v with (Ok fm, _) => fm_ok n fm | _ => True end.

Lemma refresh_settles n fm :
  history fm !! history_index fm = Some (current_path fm) → len (history fm) ≤ n → settles n (refresh_files fm).
Proof using Type.
  intros H1 H2 v. unfold refresh_files, mbind, M_bind. destruct (entries_of (current_path fm) v) as [[es| |] v1]; [|done..].
  split; [done|done|by intros i].
Qed.

Lemma history_last n fm : fm_ok n fm → n < 2 ^ 32 → u64 (len (history fm) - 1) = len (history fm) - 1 ∧ 0 < len (history fm).
Proof using Type.
  intros [H1 H2 _] Hn. apply lookup_lt_Some in H1. unfold len in *. split; [apply u64_small|]; lia.
Qed.

Lemma trail_length n fm : fm_ok n fm → len (trail_of fm).1.1 = Z.of_nat (history_index fm).
Proof using Type. intros [H1 _ _]. apply lookup_lt_Some in H1. unfold len. cbn. rewrite length_take_le; lia. Qed.

Lemma forward_test n fm :
  fm_ok n fm → n < 2 ^ 32 → (Z.of_nat (history_index fm) <? u64 (len (history fm) - 1)) = negb (bool_decide ((trail_of fm).2 = [])).
Proof using Type.
  intros Hok Hn. destruct (history_last n fm Hok Hn) as [-> H]. cbn. unfold len in *.
  destruct (Z.ltb_spec (Z.of_nat (history_index fm)) (Z.of_nat (length (history fm)) - 1)) as [Hlt|Hge].
  - rewrite bool_decide_eq_false_2; [done|]. intros E. apply (f_equal length) in E. rewrite length_drop in E. cbn in E. lia.
  - rewrite bool_decide_eq_true_2; [done|]. apply drop_ge. lia.
Qed.

Lemma navigate_path n fm path : fm_ok n fm → n < 2 ^ 32 →
  (navigate_to path fm : M (VFS S I F) _) = refresh_files (mkFM path (files fm) (selected fm)
    ((trail_of fm).1.1 ++ [current_path fm] ++ [path]) (Datatypes.S (history_index fm)) (fm_scroll fm)).
Proof using Type.
  intros Hok Hn. unfold navigate_to. rewrite (forward_test n) by done. destruct Hok as [H1 _ _].
  assert ((if negb (bool_decide ((trail_of fm).2 = [])) then take (Datatypes.S (history_index fm)) (history fm) else history fm)
    = take (Datatypes.S (history_index fm)) (history fm)) as ->.
  { case_bool_decide as E; [|done]. cbn. symmetry. apply take_ge. apply (f_equal length) in E. cbn in E. rewrite length_drop in E. cbn in E. lia. }
  rewrite (take_S_r _ _ _ H1). rewrite length_app, length_take_le by (apply lookup_lt_Some in H1; lia).
  cbn [length trail_of fst]. rewrite Nat.add_1_r, <- app_assoc. done.
Qed.

Lemma navigate_settles n fm path : fm_ok n fm → n < 2 ^ 32 → settles (n + 1) (navigate_to path fm).
Proof using Type.
  intros Hok Hn. rewrite (navigate_path n) by done. pose proof Hok as [H1 H2 _]. apply lookup_lt_Some in H1 as Hlt.
  apply refresh_settles; cbn.
  - rewrite lookup_app_r by (rewrite length_take_le; lia). rewrite length_take_le by lia.
    by replace (Datatypes.S (history_index fm) - history_index fm)%nat with 1%nat by lia.
  - unfold len in *. rewrite !length_app, length_take_le by lia. cbn. lia.
Qed.

Lemma visit_settles n fm i : fm_ok n fm → settles n (visit i fm).
Proof using Type.
  intros [H1 H2 _]. unfold visit. destruct (history fm !! i) as [p|] eqn:E; [by apply refresh_settles|by intros v].
Qed.

Lemma visit_run n fm i p v es v' :
  fm_ok n fm → history fm !! i = Some p → entries_of p v = (Ok es, v') →
  visit i fm v = (Ok (mkFM p (merge_sort entry_before es) None (history fm) i 0), v').
Proof using Type. intros Hok Hi E. unfold visit. rewrite Hi. by apply (refresh_run (mkFM p _ _ _ _ _)). Qed.

Lemma split_here {A} (X Y : list A) y i : i = length X → take i (X ++ y :: Y) = X ∧ drop (Datatypes.S i) (X ++ y :: Y) = Y.
Proof using Type.
  intros ->. split; [apply take_app_length|]. rewrite drop_app_ge by lia.
  by replace (Datatypes.S (length X) - length X)%nat with 1%nat by lia.
Qed.

(** The history of the file manager is that of a browser: going to a directory
    forgets the way forward, going back and forward moves along it, and at an end
    nothing happens; each time the entries of the directory are shown, directories
    first and by name. *)
Theorem fm_history n fm v back cur fwd :
  fm_ok n fm → n < 2 ^ 32 → trail_of fm = (back, cur, fwd) →
  (∀ path es v', entries_of path v = (Ok es, v') → ∃ fm', navigate_to path fm v = (Ok fm', v') ∧
    trail_of fm' = (back ++ [cur], path, []) ∧ listed es (files fm') ∧ fm_ok (n + 1) fm') ∧
  (back = [] → fm_back fm v = (Ok (false, fm), v)) ∧
  (fwd = [] → fm_forward fm v = (Ok (false, fm), v)) ∧
  (∀ back' p es v', back = back' ++ [p] → entries_of p v = (Ok es, v') → ∃ fm', fm_back fm v = (Ok (true, fm'), v') ∧
    trail_of fm' = (back', p, cur :: fwd) ∧ listed es (files fm') ∧ fm_ok n fm') ∧
  (∀ p fwd' es v', fwd = p :: fwd' → entries_of p v = (Ok es, v') → ∃ fm', fm_forward fm v = (Ok (true, fm'), v') ∧
    trail_of fm' = (back ++ [cur], p, fwd') ∧ listed es (files fm') ∧ fm_ok n fm').
Proof using Type.
  intros Hok Hn Htr. pose proof Hok as [H1 H2 _]. pose proof (lookup_lt_Some _ _ _ H1) as Hlt.
  pose proof (forward_test n fm Hok Hn) as Hfw. rewrite Htr in Hfw. cbn [snd] in Hfw.
  injection Htr as Hb Hc Hf. assert (history fm = back ++ cur :: fwd) as Hh.
  { rewrite <- Hb, <- Hf, <- Hc. symmetry. by apply take_drop_middle. }
  assert (history_index fm = length back) as Hi by (rewrite <- Hb, length_take_le; lia).
  split; [|split; [|split; [|split]]].
  - intros path es v' E. pose proof (navigate_settles n fm path Hok Hn v) as Hs.
    rewrite (navigate_path n) in * by done.
    rewrite (refresh_run _ _ es v') in * by exact E. eexists. split; [done|]. split; [|split; [apply listed_sort|exact Hs]].
    unfold trail_of. cbn [history_index history current_path fst snd]. rewrite Hb, Hc, Hi.
    replace (back ++ [cur] ++ [path]) with ((back ++ [cur]) ++ [path]) by (by rewrite <- app_assoc).
    destruct (split_here (back ++ [cur]) [] path (Datatypes.S (length back))) as [-> ->]; [rewrite length_app; cbn; lia|done].
  - intros ->. unfold fm_back. by rewrite Hi.
  - intros ->. unfold fm_forward. by rewrite Hfw.
  - intros back' p es v' -> E. rewrite <- app_assoc in Hh. cbn [app] in Hh. rewrite length_app, Nat.add_1_r in Hi.
    assert (history fm !! length back' = Some p) as Hp by (rewrite Hh; by apply list_lookup_middle).
    eexists. split; [unfold fm_back; rewrite Hi; by rewrite (M_bind_run _ _ _ _ _ (visit_run n fm _ p v es v' Hok Hp E))|].
    split; [|split; [apply listed_sort|split; [exact Hp|exact H2|by intros ?]]].
    unfold trail_of. cbn [history_index history current_path]. rewrite Hh.
    by destruct (split_here back' (cur :: fwd) p (length back') eq_refl) as [-> ->].
  - intros p fwd' es v' -> E.
    assert (history fm !! Datatypes.S (length back) = Some p) as Hp.
    { rewrite Hh. rewrite lookup_app_r by lia. by replace (Datatypes.S (length back) - length back)%nat with 1%nat by lia. }
    eexists. split.
    { unfold fm_forward. rewrite Hfw, bool_decide_eq_false_2, Hi by done. cbn [negb].
      by rewrite (M_bind_run _ _ _ _ _ (visit_run n fm _ p v es v' Hok Hp E)). }
    split; [|split; [apply listed_sort|split; [exact Hp|exact H2|by intros ?]]].
    unfold trail_of. cbn [history_index history current_path]. rewrite Hh.
    replace (back ++ cur :: p :: fwd') with ((back ++ [cur]) ++ p :: fwd') by (by rewrite <- app_assoc).
    destruct (split_here (back ++ [cur]) fwd' p (Datatypes.S (length back))) as [-> ->]; [rewrite length_app; cbn; lia|done].
Qed.

End FileManager.

(** ** The invariant of the desktop *)

Definition content_ok (n : Z) (c : WindowContent) : Prop :=
  match c with
  | FileManager fm => fm_ok n fm
  | About a => 0 ≤ about_scroll a ≤ 150
  | _ => True
  end.

(** [n] bounds the identifiers and the histories. *)
Definition gui_inv (n : Z) (g : GuiState) : Prop :=
  windows_ok (content_ok n) (next_window_id g) (windows g) ∧ 1 ≤ next_window_id g ≤ n.

Lemma fm_ok_mono n n' fm : fm_ok n fm → n ≤ n' → fm_ok n' fm.
Proof. intros [H1 H2 H3] Hn. split; [done|lia|done]. Qed.

Lemma content_ok_mono n n' c : n ≤ n' → content_ok n c → content_ok n' c.
Proof. intros Hn. destruct c; cbn; try done. intros H. by eapply fm_ok_mono. Qed.

Lemma gui_inv_mono n n' g : gui_inv n g → n ≤ n' → gui_inv n' g.
Proof.
  intros [H1 H2] Hn. split; [|lia]. eapply windows_ok_mono; [exact H1|lia|]. intros c. by apply content_ok_mono.
Qed.

(** The handlers that leave the windows alone. *)
Lemma gui_inv_same n g g' : gui_inv n g → windows g' = windows g → next_window_id g' = next_window_id g → gui_inv n g'.
Proof. intros [H1 H2] Ew En. unfold gui_inv. by rewrite Ew, En. Qed.

Lemma redraw_all_inv n g : gui_inv n g → gui_inv n (redraw_all g).
Proof. intros H. by apply (gui_inv_same _ g). Qed.

Lemma redraw_windows_inv n g : gui_inv n g → gui_inv n (redraw_windows g).
Proof. intros H. by apply (gui_inv_same _ g). Qed.

Lemma gui_inv_put n g i c : gui_inv n g → content_ok n c → gui_inv n (put_content i c g).
Proof. intros [H1 H2] Hc. split; [|done]. by apply windows_ok_put. Qed.

Lemma gui_inv_close n g id : gui_inv n g → gui_inv n (close_window id g).
Proof. intros [H1 H2]. split; [|done]. by apply windows_ok_close. Qed.

Lemma focus_window_next id g : next_window_id (focus_window id g) = next_window_id g.
Proof. unfold focus_window. destruct (find_window _ _); [|done]. by destruct (_ !! _). Qed.

Lemma gui_inv_focus n g id : gui_inv n g → gui_inv n (focus_window id g).
Proof. intros [H1 H2]. split; rewrite focus_window_next; [by apply windows_ok_focus|done]. Qed.

(** A change of a window that keeps what the invariant is about. *)
Lemma gui_inv_alter n g i (f : Window → Window) :
  gui_inv n g → (∀ w, win_id (f w) = win_id w) → (∀ w, focused (f w) = focused w) →
  (∀ w, win_content (f w) = win_content w) → gui_inv n (set_windows (alter f i (windows g)) g).
Proof. intros [H1 H2] Hid Hf Hc. split; [|done]. apply windows_ok_alter; try done. intros w _. by rewrite Hc. Qed.

Lemma gui_inv_create n g t x y w h c :
  gui_inv n g → n + 1 < 2 ^ 32 → content_ok (n + 1) c →
  let '(id, g') := create_window t x y w h g in gui_inv (n + 1) g' ∧
    gui_inv (n + 1) match find_window (λ w, win_id w =? id) (windows g') with Some i => put_content i c g' | None => g' end.
Proof.
  intros [H1 H2] Hn Hc. destruct (create_window t x y w h g) as [id g'] eqn:E.
  assert (gui_inv (n + 1) g') as Hg.
  { assert (g' = (create_window t x y w h g).2) as -> by (by rewrite E). split.
    - cbn [create_window next_window_id snd]. unfold u32. rewrite wrap_small by (unfold in_range; lia).
      apply windows_ok_create; [|lia|lia|done]. eapply windows_ok_mono; [exact H1|lia|]. intros k. apply content_ok_mono. lia.
    - cbn. unfold u32. rewrite wrap_small by (unfold in_range; lia). lia. }
  split; [done|]. case_match; [by apply gui_inv_put|done].
Qed.

Lemma gui_inv_content n g i w : gui_inv n g → windows g !! i = Some w → content_ok n (win_content w).
Proof. intros [[_ _ _ H] _] Hi. by apply (Forall_lookup_1 _ _ _ _ H Hi). Qed.

Section Events.
Context {S I F T : Type} `{!InodeOps S I, !FileSystemOps S I F}.
Context (execute_command : list Z → M (VFS S I F * T) (list Z)) (get_cwd : T → list Z).

#[local] Abbreviation Act := (M (Desk S I F T)).

(** [m] takes the invariant for [n] to the one for [n']. *)
Definition keeps {A} (n n' : Z) (m : Act A) : Prop :=
  ∀ d, gui_inv n (gui d) → match m d with (Ok _, d') => gui_inv n' (gui d') | _ => True end.

Lemma keeps_bind {A B} n n1 n2 (m : Act A) (f : A → Act B) :
  keeps n n1 m → (∀ a, keeps n1 n2 (f a)) → keeps n n2 (m ≫= f).
Proof using Type.
  intros Hm Hf d Hd. specialize (Hm d Hd). unfold mbind, M_bind. destruct (m d) as [[a| |] d1]; [|done..]. by apply Hf.
Qed.

Lemma keeps_ret {A} n n' (a : A) : n ≤ n' → keeps n n' (mret a).
Proof using Type. intros Hn d Hd. by eapply gui_inv_mono. Qed.

Lemma keeps_get {A} n n' (f : GuiState → Act A) : (∀ g, gui_inv n g → keeps n n' (f g)) → keeps n n' (get_gui ≫= f).
Proof using Type. intros Hf d Hd. by apply Hf. Qed.

Lemma keeps_gui n n' f : (∀ g, gui_inv n g → gui_inv n' (f g)) → keeps n n' (on_gui f).
Proof using Type. intros Hf d Hd. by apply Hf. Qed.

Lemma keeps_vfs {A B} n n' (m : M (VFS S I F) A) (P : A → Prop) (f : A → Act B) :
  (∀ v, match m v with (Ok a, _) => P a | _ => True end) → (∀ a, P a → keeps n n' (f a)) → keeps n n' (on_vfs m ≫= f).
Proof using Type.
  intros Hm Hf d Hd. unfold mbind, M_bind, on_vfs. specialize (Hm (vfs d)). destruct (m (vfs d)) as [[a| |] v]; [|done..]. by apply Hf.
Qed.

Lemma keeps_vfs_any {A B} n n' (m : M (VFS S I F) A) (f : A → Act B) :
  (∀ a, keeps n n' (f a)) → keeps n n' (on_vfs m ≫= f).
Proof using Type. intros Hf. apply (keeps_vfs _ _ _ (λ _, True)); [|done]. intros v. by destruct (m v) as [[]]. Qed.

Lemma keeps_lift {A B} n n' (r : res A) (f : A → Act B) : (∀ a, keeps n n' (f a)) → keeps n n' (m_lift r ≫= f).
Proof using Type. intros Hf d Hd. destruct r; [|done..]. by apply Hf. Qed.

Lemma keeps_mono {A} n n' n'' (m : Act A) : keeps n n' m → n' ≤ n'' → keeps n n'' m.
Proof using Type.
  intros Hm Hn d Hd. specialize (Hm d Hd). destruct (m d) as [[a| |] d1]; [|done..]. by eapply gui_inv_mono.
Qed.

Lemma keeps_redraw_all n : keeps n n (on_gui redraw_all).
Proof using Type. apply keeps_gui. intros g H. by eapply gui_inv_same. Qed.

Lemma keeps_redraw_windows n : keeps n n (on_gui redraw_windows).
Proof using Type. apply keeps_gui. intros g H. by eapply gui_inv_same. Qed.

Lemma keeps_put n i c : content_ok n c → keeps n n (put i c).
Proof using Type. intros Hc. apply keeps_gui. intros g H. by apply gui_inv_put. Qed.

Lemma keeps_close n id : keeps n n (on_gui (close_window id)).
Proof using Type. apply keeps_gui. intros g H. by apply gui_inv_close. Qed.

(** Handlers that change the content of one window. *)
Lemma keeps_show n n' i c (b : bool) : content_ok n' c → n ≤ n' → keeps n n' (done (put i c;; on_gui redraw_windows) b).
Proof using Type.
  intros Hc Hn. apply keeps_mono with (n' := n'); [|lia]. intros d Hd. eapply (gui_inv_mono _ n') in Hd; [|done].
  cbn. apply (gui_inv_same n' (put_content i c (gui d))); [by apply gui_inv_put|done|done].
Qed.

Lemma keeps_show_if n n' i c (moved b : bool) :
  content_ok n' c → n ≤ n' → keeps n n' (done (put i c;; if moved then on_gui redraw_windows else mret tt) b).
Proof using Type.
  intros Hc Hn. destruct moved; [by apply keeps_show|]. intros d Hd. eapply (gui_inv_mono _ n') in Hd; [|done]. cbn. by apply gui_inv_put.
Qed.

Lemma keeps_done n n' (m : Act unit) (b : bool) : keeps n n' m → keeps n n' (done m b).
Proof using Type. intros H. eapply keeps_bind; [exact H|]. intros a. apply keeps_ret. lia. Qed.


Lemma keeps_open_window n t x y w h c :
  n + 1 < 2 ^ 32 → content_ok (n + 1) c → keeps n (n + 1) (open_window t x y w h c).
Proof using Type.
  intros Hn Hc. apply keeps_get. intros g Hg. pose proof (gui_inv_create n g t x y w h c Hg Hn Hc) as H.
  destruct (create_window t x y w h g) as [id g']. apply keeps_gui. intros g1 _. apply H.
Qed.

Lemma keeps_open_file n path : n + 1 < 2 ^ 32 → keeps n (n + 1) (open_file_in_editor path).
Proof using Type.
  intros Hn. apply keeps_lift. intros t. apply keeps_get. intros g Hg.
  pose proof (gui_inv_create n g t 150 50 700 500 Empty Hg Hn Logic.I) as H.
  destruct (create_window t 150 50 700 500 g) as [id g'].
  apply keeps_bind with (n1 := n + 1); [apply keeps_gui; intros g1 _; apply H|]. intros _. apply keeps_vfs_any. intros e.
  apply keeps_gui. intros g1 H1. apply redraw_all_inv. clear H. case_match; [by apply gui_inv_put|done].
Qed.

Lemma keeps_with_content n n' id f :
  n ≤ n' → (∀ i w, content_ok n (win_content w) → keeps n n' (f i w)) → keeps n n' (with_content id f).
Proof using Type.
  intros Hn Hf. apply keeps_get. intros g Hg. destruct (find_window _ _) as [i|]; [|by apply keeps_ret].
  destruct (windows g !! i) as [w|] eqn:E; [|by apply keeps_ret]. apply Hf. by eapply gui_inv_content.
Qed.

(** ** The handlers *)

Context (n : Z) (Hn : n + 1 < 2 ^ 32) (H1 : 1 ≤ n).

Lemma keeps_skip {A} (a : A) : keeps n (n + 1) (mret a).
Proof using Type. apply keeps_ret. lia. Qed.

Lemma keeps_seq {A B} (m : Act A) (f : A → Act B) : keeps n n m → (∀ a, keeps n (n + 1) (f a)) → keeps n (n + 1) (m ≫= f).
Proof using Type. apply keeps_bind. Qed.

Lemma keeps_then {A B} (m : Act A) (f : A → Act B) : keeps n (n + 1) m → (∀ a, keeps (n + 1) (n + 1) (f a)) → keeps n (n + 1) (m ≫= f).
Proof using Type. apply keeps_bind. Qed.

Lemma keeps_inv n0 f : (∀ g, gui_inv n0 g → gui_inv n0 (f g)) → keeps n0 n0 (on_gui f).
Proof using Type. apply keeps_gui. Qed.

(** Open a window or a file, then draw. *)
Lemma keeps_opened (m : Act unit) f b :
  keeps n (n + 1) m → (∀ g, gui_inv (n + 1) g → gui_inv (n + 1) (f g)) → keeps n (n + 1) (done (m;; on_gui f) b).
Proof using Type. intros Hm Hf. apply keeps_done, keeps_then; [done|]. intros _. by apply keeps_inv. Qed.

Lemma selected_ok n0 fm i : fm_ok n0 fm → (∀ k, i = Some k → (k < length (files fm))%nat) → fm_ok n0 (set_selected i fm).
Proof using Type. intros [A1 A2 A3] Hi. by split. Qed.

Lemma fm_scroll_ok n0 fm k : fm_ok n0 fm → fm_ok n0 (set_fm_scroll k fm).
Proof using Type. intros [A1 A2 A3]. by split. Qed.

(** What the moves of the file manager return. *)
Definition settles_moved (n0 : Z) (m : M (VFS S I F) (bool * FileManagerState)) : Prop :=
  ∀ v, match m v with (Ok (_, fm), _) => fm_ok n0 fm | _ => True end.

Lemma settles_ret n0 (b : bool) fm : fm_ok n0 fm → settles_moved n0 (mret (b, fm)).
Proof using Type. by intros H v. Qed.

Lemma settles_bind n0 (b : bool) (m : M (VFS S I F) FileManagerState) :
  settles n0 m → settles_moved n0 (fm ← m; mret (b, fm)).
Proof using Type. intros H v. specialize (H v). unfold mbind, M_bind. destruct (m v) as [[fm| |] v']; by try apply H. Qed.

Lemma back_settles fm : fm_ok n fm → settles_moved n (fm_back fm).
Proof using Type. intros H. unfold fm_back. case_match; [by apply settles_ret|]. by apply settles_bind, visit_settles. Qed.

Lemma forward_settles fm : fm_ok n fm → settles_moved n (fm_forward fm).
Proof using Type. intros H. unfold fm_forward. case_match; [|by apply settles_ret]. by apply settles_bind, visit_settles. Qed.

Lemma open_settles fm : fm_ok n fm → settles_moved (n + 1) (open_selected fm).
Proof using Hn H1.
  intros H. assert (fm_ok (n + 1) fm) as H' by (apply (fm_ok_mono n); [done|lia]). unfold open_selected. destruct (selected_entry fm) as [e|]; [|by apply settles_ret].
  destruct (is_dir e); [|by apply settles_ret]. apply settles_bind, navigate_settles; [done|lia].
Qed.

(** Run a move of the file manager and show it. *)
Lemma keeps_moved n0 i m :
  n ≤ n0 → settles_moved n0 m →
  keeps n n0 ('(moved, fm) ← on_vfs m; done (put i (FileManager fm);; if (moved : bool) then on_gui redraw_windows else mret tt) false).
Proof using Type.
  intros H0 Hm. apply keeps_vfs with (P := λ '(_, fm), fm_ok n0 fm).
  - intros v. specialize (Hm v). destruct (m v) as [[[]| |] v']; done.
  - intros [moved fm] H. by apply keeps_show_if.
Qed.

Lemma keeps_fm_toolbar mx my cx cy i fm : fm_ok n fm → keeps n (n + 1) (fm_toolbar mx my cx cy i fm).
Proof using Hn H1.
  intros H. unfold fm_toolbar. destruct (within (cx + 8) 28 mx).
  { apply keeps_mono with n; [|lia]. apply keeps_moved; [lia|by apply back_settles]. }
  destruct (within (cx + 42) 28 mx).
  { apply keeps_mono with n; [|lia]. apply keeps_moved; [lia|by apply forward_settles]. }
  destruct (get_selected_file_path fm) as [path|]; [|apply keeps_skip]. destruct (_ && _).
  { apply keeps_vfs_any. intros _. apply keeps_vfs with (P := fm_ok n).
    - intros v. destruct H as [A1 A2 A3]. apply (refresh_settles n fm A1 A2 v).
    - intros fm' H'. apply keeps_mono with n; [|lia]. by apply keeps_show. }
  destruct (_ && _); [|apply keeps_skip]. apply keeps_opened; [by apply keeps_open_file|apply redraw_all_inv].
Qed.

Lemma keeps_fm_grid i idx fm : fm_ok n fm → 0 ≤ idx → keeps n (n + 1) (fm_grid i idx fm).
Proof using Hn H1.
  intros H Hi. unfold fm_grid. destruct (Z.ltb_spec idx (len (files fm))) as [Hlt|Hge].
  - destruct (bool_decide _).
    + destruct (get_selected_file_path fm) as [path|].
      * apply keeps_opened; [by apply keeps_open_file|apply redraw_all_inv].
      * apply keeps_moved; [lia|by apply open_settles].
    + apply keeps_mono with n; [|lia]. apply keeps_show; [|lia]. apply selected_ok; [done|]. intros k [= <-]. unfold len in Hlt. lia.
  - apply keeps_mono with n; [|lia]. apply keeps_show; [|lia]. by apply selected_ok.
Qed.

Lemma grid_index_nonneg mx my cx cy cw ch fm idx : grid_index mx my cx cy cw ch fm = Some idx → 0 ≤ idx.
Proof using Type.
  unfold grid_index. destruct (_ && _) eqn:E; [|done]. apply andb_true_iff in E as [E1%Z.leb_le E2%Z.leb_le].
  destruct (_ && _); [|done]. intros [= <-]. assert (0 ≤ (mx - cx - 12) / 90) by (apply Z.div_pos; lia).
  assert (0 ≤ (my - (cy + 44)) / 80) by (apply Z.div_pos; lia). nia.
Qed.

Lemma keeps_click_files mx my id : keeps n (n + 1) (click_files mx my id).
Proof using Hn H1.
  apply keeps_with_content; [lia|]. intros i w Hw. destruct (win_content w) as [| | | |fm| | |]; try apply keeps_skip.
  cbv zeta. case_match; [by apply keeps_fm_toolbar|]. case_match; [|apply keeps_skip].
  destruct (grid_index _ _ _ _ _ _ _) as [idx|] eqn:E; [|apply keeps_skip]. apply keeps_fm_grid; [done|by eapply grid_index_nonneg].
Qed.

Lemma keeps_shown i c b : content_ok n c → keeps n (n + 1) (done (put i c;; on_gui redraw_windows) b).
Proof using Type. intros Hc. apply keeps_mono with n; [by apply keeps_show|lia]. Qed.

Lemma keeps_click_browser mx my id : keeps n (n + 1) (click_browser mx my id).
Proof using Hn H1.
  apply keeps_with_content; [lia|]. intros i w Hw. destruct (win_content w); try apply keeps_skip.
  cbv zeta. repeat (case_match; [by apply keeps_shown|]). apply keeps_skip.
Qed.

Lemma keeps_editor_toolbar mx cx i e : keeps n (n + 1) (editor_toolbar mx cx i e).
Proof using Hn H1.
  unfold editor_toolbar. case_match; [apply keeps_vfs_any; intros [b' e']; by apply keeps_shown|].
  case_match.
  { destruct (save_as_defaults e) as [name dir]. apply keeps_vfs_any. intros sas.
    apply keeps_opened; [by apply keeps_open_window|apply redraw_all_inv]. }
  repeat (case_match; [by apply keeps_shown|]). apply keeps_skip.
Qed.

Lemma keeps_go_to_dir dir i sas : keeps n (n + 1) (go_to_dir dir i sas).
Proof using Hn H1. apply keeps_vfs_any. intros s. by apply keeps_shown. Qed.

Lemma keeps_sas_list mx my cx cy cw ch i sas : keeps n (n + 1) (sas_list mx my cx cy cw ch i sas).
Proof using Hn H1. unfold sas_list. repeat case_match; try apply keeps_skip; apply keeps_go_to_dir. Qed.

Lemma keeps_click_dialog mx my id i w sas : keeps n (n + 1) (click_dialog mx my id i w sas).
Proof using Hn H1.
  unfold click_dialog. case_match.
  { apply keeps_vfs_any. intros _. apply keeps_seq; [apply keeps_close|]. intros _.
    apply keeps_opened; [by apply keeps_open_file|apply redraw_all_inv]. }
  case_match; [|apply keeps_sas_list]. apply keeps_mono with n; [|lia].
  apply keeps_done. eapply keeps_bind; [apply keeps_close|]. intros _. apply keeps_redraw_all.
Qed.

Lemma keeps_click_editor mx my id : keeps n (n + 1) (click_editor mx my id).
Proof using Hn H1.
  apply keeps_with_content; [lia|]. intros i w Hw. destruct (win_content w); cbv zeta; try apply keeps_skip.
  - case_match; [apply keeps_editor_toolbar|]. case_match; [|apply keeps_skip].
    apply keeps_lift. intros e'. by apply keeps_shown.
  - apply keeps_click_dialog.
Qed.

End Events.

Section Handlers.
Context {S I F T : Type} `{!InodeOps S I, !FileSystemOps S I F}.
Context (execute_command : list Z → M (VFS S I F * T) (list Z)) (get_cwd : T → list Z).

#[local] Abbreviation Act := (M (Desk S I F T)).

(** A handler adds at most a few windows or places to the histories. *)
Definition adds {A} (k : Z) (m : Act A) : Prop := ∀ n, 1 ≤ n → n + k < 2 ^ 32 → keeps n (n + k) m.

Lemma adds_seq {A B} j k (m : Act A) (f : A → Act B) :
  0 ≤ j → 0 ≤ k → adds j m → (∀ a, adds k (f a)) → adds (j + k) (m ≫= f).
Proof using Type.
  intros Hj Hk Hm Hf n H1 Hn. eapply keeps_bind; [apply Hm; lia|]. intros a.
  replace (n + (j + k)) with (n + j + k) by lia. apply Hf; lia.
Qed.

Lemma adds_none {A} k (m : Act A) : 0 ≤ k → (∀ n, keeps n n m) → adds k m.
Proof using Type. intros Hk Hm n H1 Hn. apply keeps_mono with n; [done|lia]. Qed.

Lemma adds_gui f : (∀ n g, gui_inv n g → gui_inv n (f g)) → adds 0 (on_gui f : Act unit).
Proof using Type. intros Hf. apply adds_none; [lia|]. intros n. apply keeps_gui, Hf. Qed.

Lemma adds_ret {A} k (a : A) : 0 ≤ k → adds k (mret a : Act A).
Proof using Type. intros Hk. apply adds_none; [done|]. intros n. by apply keeps_ret. Qed.

Lemma adds_or_return k1 k2 (m1 m2 : Act bool) : 0 ≤ k1 → 0 ≤ k2 → adds k1 m1 → adds k2 m2 → adds (k1 + k2) (or_return m1 m2).
Proof using Type. intros. apply adds_seq; try done. intros []; [by apply adds_ret|done]. Qed.

Lemma adds_contents mx my id : adds 3 (click_contents mx my id : Act bool).
Proof using Type.
  replace 3 with (1 + (1 + 1)) by lia. apply adds_or_return; [lia..| |apply adds_or_return; [lia..| |]]; intros n H1 Hn.
  - by apply keeps_click_files.
  - by apply keeps_click_browser.
  - by apply keeps_click_editor.
Qed.

Lemma start_drag_inv n mx my w g : gui_inv n g → gui_inv n (start_drag mx my w g).
Proof using Type. intros H. unfold start_drag. destruct (find_window _ _); [|done]. by apply gui_inv_alter. Qed.

Lemma adds_click_window mx my w : adds 3 (click_window mx my w : Act bool).
Proof using Type.
  unfold click_window. case_match.
  - apply adds_none; [lia|]. intros n. apply keeps_done. eapply keeps_bind; [apply keeps_close|]. intros _. apply keeps_redraw_all.
  - replace 3 with (0 + (0 + (0 + 3))) by lia.
    apply adds_seq; [lia..|by apply adds_gui; intros; apply gui_inv_focus|intros _].
    apply adds_seq; [lia..|by apply adds_gui; intros; apply redraw_windows_inv|intros _].
    apply adds_seq; [lia..| |intros _; apply adds_contents].
    case_match; [by apply adds_gui; intros; apply start_drag_inv|by apply adds_ret].
Qed.

Lemma adds_opened t x y w h c (f : GuiState → GuiState) :
  (∀ n, 1 ≤ n → content_ok n c) → (∀ n g, gui_inv n g → gui_inv n (f g)) →
  adds 1 (open_window t x y w h c;; on_gui f : Act unit).
Proof using Type.
  intros Hc Hf n H1 Hn. eapply keeps_bind; [apply keeps_open_window; [done|apply Hc; lia]|]. intros _. by apply keeps_gui, Hf.
Qed.

Lemma adds_open_item a : adds 1 (open_item a : Act unit).
Proof using Type.
  destruct a; cbn [open_item]; try (apply adds_opened; [|intros; by apply redraw_all_inv]; intros n _; cbn; try done; lia).
  intros n H1 Hn. apply keeps_vfs with (P := fm_ok (n + 1)).
  - intros v. apply (refresh_settles (n + 1)); [done|]. unfold len; cbn. lia.
  - intros fm H. eapply keeps_bind; [by apply keeps_open_window|]. intros _. apply keeps_redraw_windows.
Qed.

Lemma adds_click mx my : adds 3 (click mx my : Act bool).
Proof using Type.
  intros n H1 Hn. apply keeps_get. intros g Hg. destruct (top_window _ _) as [i|].
  - destruct (windows g !! i); [by apply adds_click_window|apply keeps_ret; lia].
  - apply keeps_done. intros d Hd. unfold click_dock.
    assert (gui_inv (n + 3) (gui d)) as Hd' by (apply (gui_inv_mono n); [done|lia]).
    destruct (dock_item _ _ _ _ _ _); [|done]. destruct (dock_items (gui d) !! _) as [[nm a]|]; [|done].
    apply (keeps_mono n (n + 1)); [apply adds_open_item; lia|lia|done].
Qed.

(** *** The mouse *)

Lemma drag_scroll_ok n dy c c' : content_ok n c → drag_scroll dy c = Some c' → content_ok n c'.
Proof using Type.
  destruct c as [| |t|a|fm|e| |br]; cbn [drag_scroll]; intros Hc [= <-]; try done.
  - cbn in *. assert (0 < Z.max 1 (Z.abs dy ÷ 5)) by lia. case_match; cbn; lia.
  - by apply fm_scroll_ok.
Qed.

Lemma wheel_scroll_ok n delta c c' : content_ok n c → wheel_scroll delta c = Some c' → content_ok n c'.
Proof using Type.
  destruct c as [| |t|a|fm|e| |br]; cbn [wheel_scroll]; intros Hc [= <-]; try done.
  - cbn in *. case_match; cbn; lia.
  - by apply fm_scroll_ok.
Qed.

Lemma scroll_at_inv n mx my f g :
  (∀ c c', content_ok n c → f c = Some c' → content_ok n c') → gui_inv n g → gui_inv n (scroll_at mx my f g).
Proof using Type.
  intros Hf H. unfold scroll_at. destruct (top_window _ _) as [i|]; [|done]. destruct (windows g !! i) as [w|] eqn:E; [|done].
  destruct (f (win_content w)) as [c|] eqn:Ec; [|done]. apply redraw_windows_inv, gui_inv_put; [done|].
  eapply Hf; [|exact Ec]. by eapply gui_inv_content.
Qed.

Lemma hover_inv n w h mx my g : gui_inv n g → gui_inv n (hover w h mx my g).
Proof using Type. intros H. unfold hover. cbv zeta. case_match; by apply (gui_inv_same _ g). Qed.

Lemma drag_inv n mx my left g : gui_inv n g → gui_inv n (drag mx my left g).
Proof using Type.
  intros H. unfold drag. destruct (top_window _ _); [|done]. destruct left; [apply redraw_all_inv|]; by apply gui_inv_alter.
Qed.

Lemma adds_mouse mx my left right delta : adds 3 (handle_mouse mx my left right delta : Act unit).
Proof using Type.
  intros n H1 Hn. apply keeps_get. intros g _. cbv zeta.
  eapply keeps_bind with (n1 := n); [|intros _; eapply keeps_bind with (n1 := n); [|intros _; eapply keeps_bind with (n1 := n);
    [|intros _; eapply keeps_bind with (n1 := n); [|intros _; eapply keeps_bind with (n1 := n + 3)]]]].
  - case_match; [|by apply keeps_ret]. apply keeps_gui. intros g0. apply scroll_at_inv. intros c c'. apply drag_scroll_ok.
  - case_match; [|by apply keeps_ret]. apply keeps_gui. intros g0. apply scroll_at_inv. intros c c'. apply wheel_scroll_ok.
  - intros d Hd. by apply hover_inv.
  - apply keeps_gui. intros g0. apply drag_inv.
  - destruct (_ && _); [by apply adds_click|apply keeps_ret; lia].
  - intros [|]; [by apply keeps_ret|]. apply keeps_gui. intros g0 H0. by apply (gui_inv_same _ g0).
Qed.

(** *** Keys and characters *)

Lemma move_selection_ok n f fm fm' :
  fm_ok n fm → (∀ i j, (i < length (files fm))%nat → f i = Some j → (j < length (files fm))%nat) →
  move_selection f fm = Some fm' → fm_ok n fm'.
Proof using Type.
  intros H Hf. unfold move_selection. destruct (selected fm) as [sel|] eqn:E.
  - intros (j & Hj & ->)%fmap_Some. apply selected_ok; [done|]. intros k [= <-]. apply (Hf sel); [|done]. by apply (fo_selected n).
  - case_decide as Hnil; [done|]. intros [= <-]. apply selected_ok; [done|]. intros k [= <-]. destruct (files fm); [done|cbn; lia].
Qed.

(** The contents a key may leave. *)
Definition key_ok (n : Z) (m : M (VFS S I F) (option WindowContent)) : Prop :=
  ∀ v, match m v with (Ok (Some c), _) => content_ok n c | _ => True end.

Definition fm_key_ok (n : Z) (m : M (VFS S I F) (option FileManagerState)) : Prop :=
  ∀ v, match m v with (Ok (Some fm), _) => fm_ok n fm | _ => True end.

Lemma fm_key_ret n o : (∀ fm, o = Some fm → fm_ok n fm) → fm_key_ok n (mret o).
Proof using Type. intros H v. destruct o; [by apply H|done]. Qed.

Lemma fm_key_moved n m : settles_moved n m → fm_key_ok n ('(moved, fm) ← m; mret (if (moved : bool) then Some fm else None)).
Proof using Type.
  intros H v. specialize (H v). unfold mbind, M_bind. destruct (m v) as [[[[] fm]| |] v']; try done.
Qed.

Lemma fm_key_keeps n k fm : 1 ≤ n → n + 1 < 2 ^ 32 → fm_ok n fm → fm_key_ok (n + 1) (fm_key k fm).
Proof using Type.
  intros H1 Hn H0. assert (fm_ok (n + 1) fm) as H by (apply (fm_ok_mono n); [done|lia]).
  destruct k; cbn [fm_key]; try (by apply fm_key_ret; intros ? [=]);
    try (by apply fm_key_ret; intros fm' [= <-]; apply fm_scroll_ok);
    try (apply fm_key_ret; intros fm'; apply move_selection_ok; [done|]; intros i j Hi; case_decide; [|done]; intros [= <-]; lia).
  - apply fm_key_moved. by apply open_settles.
  - apply fm_key_moved. intros v. pose proof (back_settles n fm H0 v) as Hs. destruct (fm_back fm v) as [[[]| |] v']; try done.
    apply (fm_ok_mono n); [done|lia].
Qed.

Lemma about_key_ok n k a a' : content_ok n (About a) → about_key k a = Some a' → content_ok n (About a').
Proof using Type. cbn. intros H. destruct k; cbn; intros [= <-]; cbn; lia. Qed.

(** Contents of which the invariant says nothing. *)
Definition plain (c : WindowContent) : bool := match c with FileManager _ | About _ => false | _ => true end.

Lemma plain_ok n c : plain c = true → content_ok n c.
Proof using Type. by destruct c. Qed.

Lemma move_editor_plain f e v : match move_editor f e v : _ * VFS S I F with (Ok (Some c), _) => plain c = true | _ => True end.
Proof using Type. unfold move_editor, mbind, M_bind, m_lift. by destruct (run_editor f e). Qed.

Lemma editor_key_plain k e v : match editor_key k e v : _ * VFS S I F with (Ok (Some c), _) => plain c = true | _ => True end.
Proof using Type.
  destruct k; cbn [editor_key]; try apply move_editor_plain; try done.
  unfold mbind, M_bind, m_lift. by destruct (run_editor delete_forward e).
Qed.

Lemma key_content_ok n k c : 1 ≤ n → n + 1 < 2 ^ 32 → content_ok n c → key_ok (n + 1) (key_content k c).
Proof using Type.
  intros H1 Hn Hc v. destruct c as [| |t|a|fm|e| |br]; cbn [key_content]; try done.
  - cbn. by destruct (term_key k t).
  - cbn. destruct (about_key k a) as [a'|] eqn:E; [|done]. by apply (about_key_ok (n + 1) k a a').
  - pose proof (fm_key_keeps n k fm H1 Hn Hc v) as H. unfold mbind, M_bind.
    destruct (fm_key k fm v) as [[[fm'|]| |] v']; done.
  - pose proof (editor_key_plain k e v) as H. destruct (editor_key k e v) as [[[c|]| |] v']; try done. by apply plain_ok.
  - cbn. by destruct (browser_key k br).
Qed.

Lemma adds_key ev : adds 1 (handle_key_event ev : Act unit).
Proof using Type.
  intros n H1 Hn. apply keeps_get. intros g Hg. destruct (negb (pressed ev)); [apply keeps_ret; lia|].
  destruct (top_window _ _) as [i|]; [|apply keeps_ret; lia]. destruct (windows g !! i) as [w|] eqn:E; [|apply keeps_ret; lia].
  apply keeps_vfs with (P := λ r, match r with Some c => content_ok (n + 1) c | None => True end).
  - intros v. pose proof (key_content_ok n (keycode ev) _ H1 Hn (gui_inv_content n g i w Hg E) v) as H.
    destruct (key_content _ _ v) as [[[c|]| |] v']; done.
  - intros [c|] Hc; [|apply keeps_ret; lia]. apply keeps_bind with (n1 := n + 1); [|intros _; apply keeps_redraw_windows].
    intros d Hd. apply gui_inv_put; [|done]. apply (gui_inv_mono n); [done|lia].
Qed.

Lemma keeps_put_plain n n' i c : n ≤ n' → plain c = true → keeps n n' (put i c;; on_gui redraw_windows : Act unit).
Proof using Type.
  intros Hn Hc. apply keeps_mono with n; [|done]. eapply keeps_bind; [by apply keeps_put, plain_ok|]. intros _. apply keeps_redraw_windows.
Qed.

Lemma keeps_terminal {B} n n' c t (f : TerminalState → Act B) :
  (∀ t, keeps n n' (f t)) → keeps n n' (type_terminal execute_command get_cwd c t ≫= f).
Proof using Type.
  intros Hf. unfold type_terminal. case_match; [|intros d Hd; by apply Hf]. intros d Hd.
  unfold run_command, mbind, M_bind. cbn zeta. destruct (execute_command _ _) as [[out| |] [v sh]]; cbn; try done.
  by apply Hf.
Qed.

Lemma adds_dialog c i w sas : adds 1 (type_dialog c i w sas : Act unit).
Proof using Type.
  intros n H1 Hn. unfold type_dialog. case_match.
  { apply keeps_vfs_any. intros _. eapply keeps_bind; [by apply keeps_open_file|]. intros _.
    eapply keeps_bind; [apply keeps_close|]. intros _. apply keeps_redraw_all. }
  case_match; [by apply keeps_put_plain; [lia|]|]. case_match; [by apply keeps_put_plain; [lia|]|].
  apply keeps_mono with n; [|lia]. case_match; [|apply keeps_redraw_windows].
  eapply keeps_bind; [apply keeps_close|]. intros _. apply keeps_redraw_all.
Qed.

Lemma adds_char c : adds 1 (handle_keyboard execute_command get_cwd c : Act unit).
Proof using Type.
  intros n H1 Hn. apply keeps_get. intros g Hg. destruct (top_window _ _) as [i|]; [|apply keeps_ret; lia].
  destruct (windows g !! i) as [w|]; [|apply keeps_ret; lia]. unfold type_content. destruct (win_content w); try (apply keeps_ret; lia).
  - apply keeps_terminal. intros t'. by apply keeps_put_plain; [lia|].
  - apply keeps_lift. intros e'. by apply keeps_put_plain; [lia|].
  - by apply adds_dialog.
  - by apply keeps_put_plain; [lia|].
Qed.

(** *** Pages *)

(** Only the pages of browsers change. *)
Definition same_but_pages (w w' : Window) : Prop :=
  ∃ c, w' = set_content c w ∧ (c = win_content w ∨ plain c = true).

Lemma set_content_same w : set_content (win_content w) w = w.
Proof using Type. by destruct w. Qed.

Lemma same_refl w : same_but_pages w w.
Proof using Type. exists (win_content w). rewrite set_content_same. auto. Qed.

Lemma gui_inv_pages n g ws : gui_inv n g → Forall2 same_but_pages (windows g) ws → gui_inv n (set_windows ws g).
Proof using Type.
  intros [[A1 A2 A3 A4] B] Hws. split; [|done]. cbn [windows set_windows next_window_id].
  assert (map win_id ws = map win_id (windows g)) as Hids.
  { clear -Hws. induction Hws as [|w w' ws ws' (c & -> & _) _ IH]; [done|]. cbn. by rewrite IH. }
  split.
  - by rewrite Hids.
  - clear -A2 Hws. induction Hws as [|w w' ws ws' (c & -> & _) _ IH]; [done|].
    apply Forall_cons in A2 as [? ?]. constructor; [done|by apply IH].
  - intros i w' Hi Hf. destruct (Forall2_lookup_r _ _ _ _ _ Hws Hi) as (w & Ew & c & -> & _).
    rewrite <- (Forall2_length _ _ _ Hws). by apply (A3 i w).
  - clear -A4 Hws. induction Hws as [|w w' ws ws' (c & -> & Hc) _ IH]; [done|].
    apply Forall_cons in A4 as [Hw ?]. constructor; [|by apply IH]. cbn. destruct Hc as [->|Hc]; [done|by apply plain_ok].
Qed.

Lemma prepare_same ws ws' : prepare_windows ws = Some (Ok ws') → Forall2 same_but_pages ws ws'.
Proof using Type.
  revert ws'. induction ws as [|w ws IH]; intros ws'; cbn; [by intros [= <-]|].
  intros (r & Hr & (rs & Hrs & E)%bind_Some)%bind_Some. destruct r as [w1| |]; [|done..]. destruct rs as [ws1| |]; [|done..].
  injection E as <-. constructor; [|by apply IH].
  destruct (win_content w) as [| | | | | | |br]; try (injection Hr as <-; apply same_refl).
  destruct (visible w); [|injection Hr as <-; apply same_refl].
  apply bind_Some in Hr as (r & _ & [= Hr]). destruct r as [br'| |]; [|done..]. injection Hr as <-. eexists. split; [done|by right].
Qed.

Lemma adds_prepare : adds 0 (prepare_browser_layouts : Act (option unit)).
Proof using Type.
  apply adds_none; [lia|]. intros n d Hd. unfold prepare_browser_layouts.
  destruct (prepare_windows (windows (gui d))) as [[ws| |]|] eqn:E; try done. apply gui_inv_pages; [done|]. by apply prepare_same.
Qed.

Lemma finish_fetch_inv n id r g : gui_inv n g → gui_inv n (finish_fetch id r g).
Proof using Type.
  intros H. unfold finish_fetch. destruct (find_window _ _) as [i|]; [|done].
  destruct (win_content <$> windows g !! i) as [[]|]; try done. apply redraw_all_inv. by apply gui_inv_put.
Qed.

Lemma take_pending_inv n g : gui_inv n g → gui_inv n (take_pending g).2.
Proof using Type.
  intros H. unfold take_pending. destruct (top_window _ _) as [i|]; [|done]. destruct (windows g !! i) as [w|]; [|done].
  destruct (win_content w); try done. destruct (pending_url br); [|done]. by apply gui_inv_put.
Qed.

Lemma blink_inv n g : gui_inv n g → gui_inv n (blink_cursors g).
Proof using Type.
  intros H. apply gui_inv_pages; [done|]. induction (windows g) as [|w ws IH]; constructor; [|done].
  unfold blink_window. destruct (win_content w); try apply same_refl. eexists. split; [done|by right].
Qed.

(** ** Everything that happens *)

Inductive Event : Type :=
| Mouse (mx my : Z) (l r : bool) (scroll_delta : Z)
| Key (ev : KeyEvent)
| Char (c : list Z)
| Fetched (id : Z) (result : Document + list Z)
| StartFetch
| PrepareLayouts
| Blink.

Definition run_event (ev : Event) : Act unit :=
  match ev with
  | Mouse mx my l r delta => handle_mouse mx my l r delta
  | Key ev => handle_key_event ev
  | Char c => handle_keyboard execute_command get_cwd c
  | Fetched id r => on_gui (finish_fetch id r)
  | StartFetch => on_gui (λ g, (take_pending g).2)
  | PrepareLayouts => prepare_browser_layouts;; mret tt
  | Blink => on_gui blink_cursors
  end.

Fixpoint run_events (evs : list Event) : Act unit :=
  match evs with [] => mret tt | ev :: evs => run_event ev;; run_events evs end.

Lemma adds_event ev : adds 3 (run_event ev).
Proof using Type.
  destruct ev; cbn [run_event].
  - apply adds_mouse.
  - intros n H1 Hn. apply keeps_mono with (n + 1); [apply adds_key; lia|lia].
  - intros n H1 Hn. apply keeps_mono with (n + 1); [apply adds_char; lia|lia].
  - apply adds_none; [lia|]. intros n. apply keeps_gui. intros g. apply finish_fetch_inv.
  - apply adds_none; [lia|]. intros n. apply keeps_gui. intros g. apply take_pending_inv.
  - apply (adds_seq 0 3); [lia..|apply adds_prepare|]. intros _. by apply adds_ret.
  - apply adds_none; [lia|]. intros n. apply keeps_gui. intros g. apply blink_inv.
Qed.

Lemma adds_events evs : adds (3 * len evs) (run_events evs).
Proof using Type.
  induction evs as [|ev evs IH]; cbn [run_events]; [by apply adds_ret|].
  replace (3 * len (ev :: evs)) with (3 + 3 * len evs) by (unfold len; cbn; lia). apply adds_seq; [lia|unfold len; lia|apply adds_event|done].
Qed.

Lemma gui_init_inv : gui_inv 1 gui_init.
Proof using Type. split; [|cbn; lia]. split; [constructor|constructor|done|constructor]. Qed.

(** C30: after any events the windows have different identifiers, a window with the
    focus is on top, a selected file is one that is shown, the path a file manager
    shows is the one its history is at, and the "System Info" text is scrolled
    within its bounds. *)
Theorem desktop_invariant evs d d' :
  gui d = gui_init → 3 * len evs + 1 < 2 ^ 32 → run_events evs d = (Ok tt, d') →
  NoDup (map win_id (windows (gui d'))) ∧
  (∀ i w, windows (gui d') !! i = Some w → focused w = true → Datatypes.S i = length (windows (gui d'))) ∧
  Forall (λ w, content_ok (3 * len evs + 1) (win_content w)) (windows (gui d')).
Proof using Type.
  intros Hd Hlen Hrun. pose proof (adds_events evs 1) as H. specialize (H ltac:(lia) ltac:(lia) d).
  rewrite Hd, Hrun in H. destruct (H gui_init_inv) as [[A1 A2 A3 A4] _]. split_and!; [done..|].
  by rewrite (Z.add_comm _ 1).
Qed.

(** A page that arrives takes the address that stands in the bar by then. *)
Lemma typed_address_wins page url br : current_url (show_result (inl page) (set_url url true br)) = url.
Proof using Type. done. Qed.

End Handlers.

(** ** A session *)

Module DesktopExample.

(** The interpreter that prints the line it reads. *)
Definition echo (line : list Z) : M (VFS RamStore Z Z * unit) (list Z) := λ s, (Ok line, s).
Definition cwd_of (_ : unit) : list Z := [Files.slash].

Definition d0 : Desk RamStore Z Z unit := mkDesk gui_init RamExample.v0 tt 1280 720.

Definition run (evs : list Event) : Desk RamStore Z Z unit := (run_events echo cwd_of evs d0).2.

Definition press (x y : Z) : Event := Mouse x y true false 0.
Definition release (x y : Z) : Event := Mouse x y false false 0.

(** Open the file manager and the editor from the dock, then type. *)
Definition session : list Event :=
  [press 580 670; release 580 670; press 630 670; release 630 670; Char [97]; Blink].

Lemma session_runs : (run_events echo cwd_of session d0).1 = Ok tt.
Proof. by vm_compute. Qed.

Lemma session_windows : map win_id (windows (gui (run session))) = [1; 2].
Proof. by vm_compute. Qed.

Lemma desktop_invariant_witness :
  map win_id (windows (gui (run session))) = [1; 2] ∧
  ∀ i w, windows (gui (run session)) !! i = Some w → focused w = true → Datatypes.S i = length (windows (gui (run session))).
Proof.
  split; [exact session_windows|].
  destruct (desktop_invariant echo cwd_of session d0 (run session)) as (_ & H & _); [done|by vm_compute| |exact H].
  unfold run. rewrite <- session_runs. apply surjective_pairing.
Defined.

Definition opened := FileManagerState_new [Files.slash] RamExample.v0.
Definition fm0 : FileManagerState := match opened.1 with Ok fm => fm | _ => mkFM [] [] None [] 0 0 end.
Definition tmp_path : list Z := Files.slash :: RamExample.tmp.
Definition tmp_entries := entries_of tmp_path opened.2.

Lemma opened_runs : opened.1 = Ok fm0.
Proof. by vm_compute. Qed.

Lemma opened_trail : trail_of fm0 = ([], [Files.slash], []) ∧ selected fm0 = None ∧ history fm0 = [[Files.slash]].
Proof. by vm_compute. Qed.

Lemma tmp_empty : tmp_entries.1 = Ok [].
Proof. by vm_compute. Qed.

Lemma opened_path : history fm0 !! history_index fm0 = Some (current_path fm0).
Proof. by vm_compute. Qed.

Lemma fm0_ok : fm_ok 1 fm0.
Proof.
  destruct opened_trail as (_ & Hs & Hh). split; [exact opened_path|rewrite Hh; unfold len; cbn; lia|].
  intros i. rewrite Hs. discriminate.
Qed.

Lemma fm_history_witness :
  fm_ok 1 fm0 ∧ ∃ fm', navigate_to tmp_path fm0 opened.2 = (Ok fm', tmp_entries.2) ∧
    trail_of fm' = ([[Files.slash]], tmp_path, []).
Proof.
  split; [exact fm0_ok|]. destruct opened_trail as [Ht _].
  destruct (fm_history 1 fm0 opened.2 [] [Files.slash] [] fm0_ok eq_refl Ht) as (Hnav & _).
  destruct (Hnav tmp_path [] tmp_entries.2) as (fm' & H1 & H2 & _); [|exists fm'; exact (conj H1 H2)].
  rewrite <- tmp_empty. exact (surjective_pairing tmp_entries).
Defined.

(** While the button is held on "Save As" each frame opens another dialog: the early
    return skips the record of the button. *)
Lemma held_button_repeats :
  length (windows (gui (run [press 630 670; release 630 670; press 230 95; press 230 95; press 230 95]))) = 4%nat.
Proof. by vm_compute. Qed.

End DesktopExample.
