(* ===== verification/Graphics.v ===== *)
(** * The frame buffer and the back buffer: [drivers/graphics.rs]

    A pixel of the back buffer is a 32-bit word of a vector; the frame buffer is
    bytes of memory, with its own width of a row.  The two have the same shapes, which
    are given once over [set_pixel].  The gradient ([fill_gradient_v]) computes with
    [f32] and is left out. *)

From stdpp Require Import gmap.
From S2P Require Import Prelude Bytes Str.

(** ** Colours *)

Record Color : Type := mkColor { red : Z; green : Z; blue : Z; alpha : Z }.

#[export] Instance Color_eq_dec : EqDecision Color.
Proof. solve_decision. Defined.

Definition rgb (r g b : Z) : Color := mkColor r g b 255.
Definition rgba (r g b a : Z) : Color := mkColor r g b a.

Definition blend_channel (al x y : Z) : Z := u8 (u32 (x * al + y * (255 - al)) / 255).

(** [self] over [other] *)
Definition blend (c other : Color) : Color :=
  if alpha c =? 255 then c
  else if alpha c =? 0 then other
  else rgb (blend_channel (alpha c) (red c) (red other)) (blend_channel (alpha c) (green c) (green other)) (blend_channel (alpha c) (blue c) (blue other)).

Definition WHITE : Color := rgb 255 255 255.
Definition DARK_GRAY : Color := rgb 44 44 46.
Definition BLACK : Color := rgb 0 0 0.
Definition WINDOW_BG : Color := rgb 44 44 46.
Definition TEXT_PRIMARY : Color := rgb 255 255 255.
Definition TEXT_SECONDARY : Color := rgb 152 152 157.
Definition ACCENT : Color := rgb 10 132 255.
Definition CLOSE_BTN : Color := rgb 255 95 87.

(** ** Buffers *)

Record Framebuffer : Type := mkFramebuffer {
  address : Z;
  width : Z;
  height : Z;
  pitch : Z;
  bpp : Z;
  red_shift : Z;
  green_shift : Z;
  blue_shift : Z;
}.

Definition Framebuffer_new : Framebuffer := mkFramebuffer 0 0 0 0 0 16 8 0.

(** The bytes of memory, [FRAMEBUFFER], and [BACK_BUFFER] with its size. *)
Record Gfx : Type := mkGfx {
  memory : gmap Z Z;
  fb : Framebuffer;
  back : list Z;
  bb_width : Z;
  bb_height : Z;
}.

Definition set_memory (m : gmap Z Z) (s : Gfx) : Gfx := mkGfx m (fb s) (back s) (bb_width s) (bb_height s).
Definition set_back (p : list Z) (s : Gfx) : Gfx := mkGfx (memory s) (fb s) p (bb_width s) (bb_height s).

Definition mem_byte (m : gmap Z Z) (addr : Z) : Z := default 0 (m !! addr).

Fixpoint mem_write (addr : Z) (bs : list Z) (m : gmap Z Z) : gmap Z Z :=
  match bs with [] => m | x :: bs => mem_write (addr + 1) bs (<[addr := x]> m) end.

(** [(x as u32) << shift]: the processor takes the shift modulo 32. *)
Definition shl32 (x shift : Z) : Z := u32 (Z.shiftl x (Z.land shift 31)).

Definition pack (f : Framebuffer) (c : Color) : Z :=
  Z.lor (Z.lor (shl32 (red c) (red_shift f)) (shl32 (green c) (green_shift f))) (shl32 (blue c) (blue_shift f)).

Definition init (addr w h p bits : Z) (s : Gfx) : Gfx :=
  mkGfx (memory s) (mkFramebuffer addr w h p bits 16 8 0) (back s) (bb_width s) (bb_height s).

Definition is_available (s : Gfx) : bool := negb (address (fb s) =? 0) && (0 <? width (fb s)) && (0 <? height (fb s)).

Definition init_back_buffer (w h : Z) (s : Gfx) : Gfx :=
  mkGfx (memory s) (fb s) (zeros (u32 (w * h))) w h.

(** ** The font *)

Definition glyph (rows : list Z) : list Z := rows ++ replicate (16 - length rows) 0.

Definition font : list (Z * list Z) :=
  [
   (69, glyph [0x00; 0x7E; 0x60; 0x60; 0x7C; 0x60; 0x60; 0x60; 0x7E]);
   (70, glyph [0x00; 0x7E; 0x60; 0x60; 0x7C; 0x60; 0x60; 0x60; 0x60]);
   (71, glyph [0x00; 0x3C; 0x66; 0x60; 0x60; 0x6E; 0x66; 0x66; 0x3E]);
   (72, glyph [0x00; 0x66; 0x66; 0x66; 0x7E; 0x66; 0x66; 0x66; 0x66]);
   (73, glyph [0x00; 0x3C; 0x18; 0x18; 0x18; 0x18; 0x18; 0x18; 0x3C]);
   (74, glyph [0x00; 0x1E; 0x0C; 0x0C; 0x0C; 0x0C; 0x6C; 0x6C; 0x38]);
   (75, glyph [0x00; 0x66; 0x6C; 0x78; 0x70; 0x78; 0x6C; 0x66; 0x66]);
   (76, glyph [0x00; 0x60; 0x60; 0x60; 0x60; 0x60; 0x60; 0x60; 0x7E]);
   (77, glyph [0x00; 0x63; 0x77; 0x7F; 0x6B; 0x63; 0x63; 0x63; 0x63]);
   (78, glyph [0x00; 0x66; 0x76; 0x7E; 0x7E; 0x6E; 0x66; 0x66; 0x66]);
   (79, glyph [0x00; 0x3C; 0x66; 0x66; 0x66; 0x66; 0x66; 0x66; 0x3C]);
   (80, glyph [0x00; 0x7C; 0x66; 0x66; 0x7C; 0x60; 0x60; 0x60; 0x60]);
   (81, glyph [0x00; 0x3C; 0x66; 0x66; 0x66; 0x66; 0x6E; 0x3C; 0x0E]);
   (82, glyph [0x00; 0x7C; 0x66; 0x66; 0x7C; 0x78; 0x6C; 0x66; 0x66]);
   (83, glyph [0x00; 0x3C; 0x66; 0x60; 0x3C; 0x06; 0x06; 0x66; 0x3C]);
   (84, glyph [0x00; 0x7E; 0x18; 0x18; 0x18; 0x18; 0x18; 0x18; 0x18]);
   (85, glyph [0x00; 0x66; 0x66; 0x66; 0x66; 0x66; 0x66; 0x66; 0x3C]);
   (86, glyph [0x00; 0x66; 0x66; 0x66; 0x66; 0x66; 0x3C; 0x3C; 0x18]);
   (87, glyph [0x00; 0x63; 0x63; 0x63; 0x6B; 0x7F; 0x77; 0x63; 0x63]);
   (88, glyph [0x00; 0x66; 0x66; 0x3C; 0x18; 0x3C; 0x66; 0x66; 0x66]);
   (89, glyph [0x00; 0x66; 0x66; 0x66; 0x3C; 0x18; 0x18; 0x18; 0x18]);
   (90, glyph [0x00; 0x7E; 0x06; 0x0C; 0x18; 0x30; 0x60; 0x60; 0x7E]);
   (97, glyph [0x00; 0x00; 0x00; 0x3C; 0x06; 0x3E; 0x66; 0x66; 0x3E]);
   (98, glyph [0x00; 0x60; 0x60; 0x7C; 0x66; 0x66; 0x66; 0x66; 0x7C]);
   (99, glyph [0x00; 0x00; 0x00; 0x3C; 0x66; 0x60; 0x60; 0x66; 0x3C]);
   (100, glyph [0x00; 0x06; 0x06; 0x3E; 0x66; 0x66; 0x66; 0x66; 0x3E]);
   (101, glyph [0x00; 0x00; 0x00; 0x3C; 0x66; 0x7E; 0x60; 0x60; 0x3C]);
   (102, glyph [0x00; 0x1C; 0x36; 0x30; 0x7C; 0x30; 0x30; 0x30; 0x30]);
   (103, glyph [0x00; 0x00; 0x00; 0x3E; 0x66; 0x66; 0x3E; 0x06; 0x3C]);
   (104, glyph [0x00; 0x60; 0x60; 0x7C; 0x66; 0x66; 0x66; 0x66; 0x66]);
   (105, glyph [0x00; 0x18; 0x00; 0x38; 0x18; 0x18; 0x18; 0x18; 0x3C]);
   (106, glyph [0x00; 0x0C; 0x00; 0x1C; 0x0C; 0x0C; 0x0C; 0x6C; 0x38]);
   (107, glyph [0x00; 0x60; 0x60; 0x66; 0x6C; 0x78; 0x6C; 0x66; 0x66]);
   (108, glyph [0x00; 0x38; 0x18; 0x18; 0x18; 0x18; 0x18; 0x18; 0x3C]);
   (109, glyph [0x00; 0x00; 0x00; 0x76; 0x7F; 0x6B; 0x6B; 0x63; 0x63]);
   (110, glyph [0x00; 0x00; 0x00; 0x7C; 0x66; 0x66; 0x66; 0x66; 0x66]);
   (111, glyph [0x00; 0x00; 0x00; 0x3C; 0x66; 0x66; 0x66; 0x66; 0x3C]);
   (112, glyph [0x00; 0x00; 0x00; 0x7C; 0x66; 0x66; 0x7C; 0x60; 0x60]);
   (113, glyph [0x00; 0x00; 0x00; 0x3E; 0x66; 0x66; 0x3E; 0x06; 0x06]);
   (114, glyph [0x00; 0x00; 0x00; 0x7C; 0x66; 0x60; 0x60; 0x60; 0x60]);
   (115, glyph [0x00; 0x00; 0x00; 0x3E; 0x60; 0x3C; 0x06; 0x06; 0x7C]);
   (116, glyph [0x00; 0x30; 0x30; 0x7C; 0x30; 0x30; 0x30; 0x36; 0x1C]);
   (117, glyph [0x00; 0x00; 0x00; 0x66; 0x66; 0x66; 0x66; 0x66; 0x3E]);
   (118, glyph [0x00; 0x00; 0x00; 0x66; 0x66; 0x66; 0x3C; 0x3C; 0x18]);
   (119, glyph [0x00; 0x00; 0x00; 0x63; 0x63; 0x6B; 0x7F; 0x77; 0x63]);
   (120, glyph [0x00; 0x00; 0x00; 0x66; 0x3C; 0x18; 0x3C; 0x66; 0x66]);
   (121, glyph [0x00; 0x00; 0x00; 0x66; 0x66; 0x3E; 0x06; 0x66; 0x3C]);
   (122, glyph [0x00; 0x00; 0x00; 0x7E; 0x0C; 0x18; 0x30; 0x60; 0x7E]);
   (48, glyph [0x00; 0x3C; 0x66; 0x6E; 0x76; 0x66; 0x66; 0x66; 0x3C]);
   (49, glyph [0x00; 0x18; 0x38; 0x18; 0x18; 0x18; 0x18; 0x18; 0x7E]);
   (50, glyph [0x00; 0x3C; 0x66; 0x06; 0x0C; 0x18; 0x30; 0x60; 0x7E]);
   (51, glyph [0x00; 0x3C; 0x66; 0x06; 0x1C; 0x06; 0x06; 0x66; 0x3C]);
   (52, glyph [0x00; 0x0C; 0x1C; 0x3C; 0x6C; 0x7E; 0x0C; 0x0C; 0x0C]);
   (53, glyph [0x00; 0x7E; 0x60; 0x7C; 0x06; 0x06; 0x06; 0x66; 0x3C]);
   (54, glyph [0x00; 0x3C; 0x60; 0x60; 0x7C; 0x66; 0x66; 0x66; 0x3C]);
   (55, glyph [0x00; 0x7E; 0x06; 0x0C; 0x18; 0x18; 0x18; 0x18; 0x18]);
   (56, glyph [0x00; 0x3C; 0x66; 0x66; 0x3C; 0x66; 0x66; 0x66; 0x3C]);
   (57, glyph [0x00; 0x3C; 0x66; 0x66; 0x3E; 0x06; 0x06; 0x06; 0x3C]);
   (32, glyph []);
   (46, glyph [0x00; 0x00; 0x00; 0x00; 0x00; 0x00; 0x00; 0x18; 0x18]);
   (44, glyph [0x00; 0x00; 0x00; 0x00; 0x00; 0x00; 0x00; 0x18; 0x18; 0x30]);
   (58, glyph [0x00; 0x00; 0x18; 0x18; 0x00; 0x00; 0x18; 0x18]);
   (33, glyph [0x00; 0x18; 0x18; 0x18; 0x18; 0x18; 0x00; 0x18; 0x18]);
   (63, glyph [0x00; 0x3C; 0x66; 0x06; 0x0C; 0x18; 0x00; 0x18; 0x18]);
   (45, glyph [0x00; 0x00; 0x00; 0x00; 0x7E]);
   (95, glyph [0x00; 0x00; 0x00; 0x00; 0x00; 0x00; 0x00; 0x00; 0x7E]);
   (47, glyph [0x00; 0x02; 0x06; 0x0C; 0x18; 0x30; 0x60; 0x40]);
   (40, glyph [0x00; 0x0C; 0x18; 0x30; 0x30; 0x30; 0x18; 0x0C]);
   (41, glyph [0x00; 0x30; 0x18; 0x0C; 0x0C; 0x0C; 0x18; 0x30]);
   (91, glyph [0x00; 0x3C; 0x30; 0x30; 0x30; 0x30; 0x30; 0x3C]);
   (93, glyph [0x00; 0x3C; 0x0C; 0x0C; 0x0C; 0x0C; 0x0C; 0x3C]);
   (61, glyph [0x00; 0x00; 0x00; 0x7E; 0x00; 0x7E]);
   (43, glyph [0x00; 0x00; 0x18; 0x18; 0x7E; 0x18; 0x18]);
   (42, glyph [0x00; 0x00; 0x66; 0x3C; 0xFF; 0x3C; 0x66]);
   (60, glyph [0x00; 0x0C; 0x18; 0x30; 0x60; 0x30; 0x18; 0x0C]);
   (62, glyph [0x00; 0x30; 0x18; 0x0C; 0x06; 0x0C; 0x18; 0x30]);
   (64, glyph [0x00; 0x3C; 0x66; 0x6E; 0x6E; 0x6E; 0x60; 0x3E]);
   (35, glyph [0x00; 0x36; 0x36; 0x7F; 0x36; 0x7F; 0x36; 0x36]);
   (36, glyph [0x00; 0x18; 0x3E; 0x60; 0x3C; 0x06; 0x7C; 0x18]);
   (37, glyph [0x00; 0x62; 0x66; 0x0C; 0x18; 0x30; 0x66; 0x46]);
   (94, glyph [0x00; 0x18; 0x3C; 0x66]);
   (38, glyph [0x00; 0x38; 0x6C; 0x38; 0x76; 0xDC; 0xCC; 0x76]);
   (123, glyph [0x00; 0x0E; 0x18; 0x18; 0x70; 0x18; 0x18; 0x0E]);
   (125, glyph [0x00; 0x70; 0x18; 0x18; 0x0E; 0x18; 0x18; 0x70]);
   (124, glyph [0x00; 0x18; 0x18; 0x18; 0x18; 0x18; 0x18; 0x18; 0x18]);
   (92, glyph [0x00; 0x40; 0x60; 0x30; 0x18; 0x0C; 0x06; 0x02]);
   (59, glyph [0x00; 0x00; 0x18; 0x18; 0x00; 0x18; 0x18; 0x30]);
   (39, glyph [0x00; 0x18; 0x18; 0x18]);
   (34, glyph [0x00; 0x6C; 0x6C; 0x24]);
   (126, glyph [0x00; 0x00; 0x00; 0x76; 0xDC]);
   (96, glyph [0x00; 0x30; 0x18; 0x0C])].

(** A filled box for the characters the font does not have. *)
Definition unknown_glyph : list Z := glyph [0x00; 0x7E; 0x7E; 0x7E; 0x7E; 0x7E; 0x7E; 0x7E].

(** A character is its encoding. *)
Definition get_char_bitmap (c : list Z) : list Z :=
  match c with
  | [x] => match list_find (λ p, p.1 = x) font with Some (_, (_, rows)) => rows | None => unknown_glyph end
  | _ => unknown_glyph
  end.

(** ** Shapes, over the setting of a pixel *)

Section Shapes.
Context {St : Type} (screen_w : Z) (set_pixel : Z → Z → Color → St → St).

Definition draw_hline (x y len : Z) (c : Color) : St → St := for_range 0 len (λ dx, set_pixel (u32 (x + dx)) y c).
Definition draw_vline (x y len : Z) (c : Color) : St → St := for_range 0 len (λ dy, set_pixel x (u32 (y + dy)) c).

(** One pixel after the other. *)
Definition fill_each (x y w h : Z) (c : Color) : St → St :=
  for_range 0 h (λ dy, for_range 0 w (λ dx, set_pixel (u32 (x + dx)) (u32 (y + dy)) c)).

Definition draw_rect (x y w h : Z) (c : Color) (s : St) : St :=
  let s := for_range 0 w (λ dx s, set_pixel (u32 (x + dx)) (u32 (u32 (y + h) - 1)) c (set_pixel (u32 (x + dx)) y c s)) s in
  for_range 0 h (λ dy s, set_pixel (u32 (u32 (x + w) - 1)) (u32 (y + dy)) c (set_pixel x (u32 (y + dy)) c s)) s.

(** The two edges of a border: above and left, below and right. *)
Definition draw_border (x y w h : Z) (above below : Color) (s : St) : St :=
  let s := draw_hline x y w above s in
  let s := draw_vline x y h above s in
  let s := draw_hline x (u32 (u32 (y + h) - 1)) w below s in
  draw_vline (u32 (u32 (x + w) - 1)) y h below s.

Definition draw_raised_rect (x y w h : Z) : St → St := draw_border x y w h WHITE DARK_GRAY.
Definition draw_sunken_rect (x y w h : Z) : St → St := draw_border x y w h DARK_GRAY WHITE.

(** The pixel of row [row] and column [col] of a character. *)
Definition draw_dot (x y : Z) (bits : Z) (row col : Z) (fg : Color) (bg : option Color) (s : St) : St :=
  if Z.land (Z.shiftr bits (7 - col)) 1 =? 1 then set_pixel (u32 (x + col)) (u32 (y + row)) fg s
  else match bg with Some c => set_pixel (u32 (x + col)) (u32 (y + row)) c s | None => s end.

Definition draw_char (x y : Z) (c : list Z) (fg : Color) (bg : option Color) : St → St :=
  let bitmap := get_char_bitmap c in
  for_range 0 16 (λ row,
    let bits := nth (Z.to_nat row) bitmap 0 in
    for_range 0 8 (λ col, draw_dot x y bits row col fg bg)).

Fixpoint draw_chars (cx y : Z) (cs : list (list Z)) (fg : Color) (bg : option Color) (s : St) : St :=
  match cs with
  | [] => s
  | c :: cs => if screen_w <? u32 (cx + 8) then s else draw_chars (u32 (cx + 8)) y cs fg bg (draw_char cx y c fg bg s)
  end.

Definition draw_string (x y : Z) (text : list Z) (fg : Color) (bg : option Color) : St → St :=
  draw_chars x y (chars text) fg bg.

(** [i32] coordinates around the centre. *)
Definition fill_circle (cx cy rad : Z) (c : Color) : St → St :=
  let r_sq := to_signed 32 (u32 (rad * rad)) in
  let d := u32 (rad * 2) + 1 in
  for_range 0 d (λ dy, for_range 0 d (λ dx s,
    let px := to_signed 32 (u32 (dx - rad)) in
    let py := to_signed 32 (u32 (dy - rad)) in
    if to_signed 32 (u32 (px * px + py * py)) <=? r_sq then set_pixel (u32 (cx + px)) (u32 (cy + py)) c s else s)).

(** The same corner pixel in the four corners. *)
Definition corners (x y w h dx dy : Z) (c : Color) (s : St) : St :=
  let right := u32 (u32 (u32 (x + w) - 1) - dx) in
  let bottom := u32 (u32 (u32 (y + h) - 1) - dy) in
  let s := set_pixel (u32 (x + dx)) (u32 (y + dy)) c s in
  let s := set_pixel right (u32 (y + dy)) c s in
  let s := set_pixel (u32 (x + dx)) bottom c s in
  set_pixel right bottom c s.

(** The distance from the corner's centre decides. *)
Definition draw_corners (x y w h rad : Z) (p : Z → bool) (c : Color) : St → St :=
  for_range 0 rad (λ dy, for_range 0 rad (λ dx s,
    let px := to_signed 32 (u32 (rad - dx - 1)) in
    let py := to_signed 32 (u32 (rad - dy - 1)) in
    if p (to_signed 32 (u32 (px * px + py * py))) then corners x y w h dx dy c s else s)).

Definition corner_radius (radius w h : Z) : Z := Z.min (Z.min radius (w / 2)) (h / 2).

Definition draw_rounded_rect (x y w h radius : Z) (c : Color) (s : St) : St :=
  let rad := corner_radius radius w h in
  let s := draw_hline (u32 (x + rad)) y (u32 (w - u32 (2 * rad))) c s in
  let s := draw_hline (u32 (x + rad)) (u32 (u32 (y + h) - 1)) (u32 (w - u32 (2 * rad))) c s in
  let s := draw_vline x (u32 (y + rad)) (u32 (h - u32 (2 * rad))) c s in
  let s := draw_vline (u32 (u32 (x + w) - 1)) (u32 (y + rad)) (u32 (h - u32 (2 * rad))) c s in
  let r_sq := to_signed 32 (u32 (rad * rad)) in
  let r_inner_sq := to_signed 32 (u32 (u32 (rad - 1) * u32 (rad - 1))) in
  draw_corners x y w h rad (λ dist, (dist <=? r_sq) && (r_inner_sq <=? dist)) c s.

Definition fill_rounded_rect (fill_rect : Z → Z → Z → Z → Color → St → St) (x y w h radius : Z) (c : Color) (s : St) : St :=
  let rad := corner_radius radius w h in
  let s := fill_rect (u32 (x + rad)) y (u32 (w - u32 (2 * rad))) h c s in
  let s := fill_rect x (u32 (y + rad)) rad (u32 (h - u32 (2 * rad))) c s in
  let s := fill_rect (u32 (u32 (x + w) - rad)) (u32 (y + rad)) rad (u32 (h - u32 (2 * rad))) c s in
  draw_corners x y w h rad (λ dist, dist <=? to_signed 32 (u32 (rad * rad))) c s.

End Shapes.

(** ** The frame buffer *)

Definition fb_set_pixel (x y : Z) (c : Color) (s : Gfx) : Gfx :=
  let f := fb s in
  if (width f <=? x) || (height f <=? y) || (address f =? 0) then s
  else
    let pixel_offset := u32 (u32 (y * pitch f) + u32 (x * (bpp f / 8))) in
    set_memory (mem_write (u64 (address f + pixel_offset)) (le 4 (pack f c)) (memory s)) s.

Definition fb_fill_rect : Z → Z → Z → Z → Color → Gfx → Gfx := fill_each fb_set_pixel.
Definition fb_draw_rect : Z → Z → Z → Z → Color → Gfx → Gfx := draw_rect fb_set_pixel.
Definition fb_draw_raised_rect : Z → Z → Z → Z → Gfx → Gfx := draw_raised_rect fb_set_pixel.
Definition fb_draw_sunken_rect : Z → Z → Z → Z → Gfx → Gfx := draw_sunken_rect fb_set_pixel.
Definition fb_clear (c : Color) (s : Gfx) : Gfx := fb_fill_rect 0 0 (width (fb s)) (height (fb s)) c s.
Definition fb_draw_char : Z → Z → list Z → Color → option Color → Gfx → Gfx := draw_char fb_set_pixel.
Definition fb_draw_string (x y : Z) (text : list Z) (fg : Color) (bg : option Color) (s : Gfx) : Gfx :=
  draw_string (width (fb s)) fb_set_pixel x y text fg bg s.
Definition fb_draw_hline : Z → Z → Z → Color → Gfx → Gfx := draw_hline fb_set_pixel.
Definition fb_draw_vline : Z → Z → Z → Color → Gfx → Gfx := draw_vline fb_set_pixel.

(** ** The back buffer *)

(** The position of a pixel: the rows have the width of the screen. *)
Definition bb_index (x y : Z) (s : Gfx) : nat := Z.to_nat (u32 (u32 (y * width (fb s)) + x)).

(** [buffer[idx] = value] inside the vector. *)
Definition bb_store (x y v : Z) (s : Gfx) : Gfx := set_back (<[bb_index x y s := v]> (back s)) s.

Definition bb_set_pixel (x y : Z) (c : Color) (s : Gfx) : Gfx :=
  if (width (fb s) <=? x) || (height (fb s) <=? y) then s else bb_store x y (pack (fb s) c) s.

(** A row, up to the right edge. *)
Fixpoint fill_row (n : nat) (dx x py v : Z) (s : Gfx) : Gfx :=
  match n with
  | O => s
  | S n =>
      let px := u32 (x + dx) in
      if width (fb s) <=? px then s else fill_row n (dx + 1) x py v (bb_store px py v s)
  end.

(** The rows, down to the lower edge. *)
Fixpoint fill_rows (n : nat) (dy x y w v : Z) (s : Gfx) : Gfx :=
  match n with
  | O => s
  | S n =>
      let py := u32 (y + dy) in
      if height (fb s) <=? py then s else fill_rows n (dy + 1) x y w v (fill_row (Z.to_nat w) 0 x py v s)
  end.

Definition bb_fill_rect (x y w h : Z) (c : Color) (s : Gfx) : Gfx :=
  fill_rows (Z.to_nat h) 0 x y w (pack (fb s) c) s.

Definition bb_clear (c : Color) (s : Gfx) : Gfx := set_back (map (λ _, pack (fb s) c) (back s)) s.

Definition bb_draw_rect : Z → Z → Z → Z → Color → Gfx → Gfx := draw_rect bb_set_pixel.
Definition bb_draw_raised_rect : Z → Z → Z → Z → Gfx → Gfx := draw_raised_rect bb_set_pixel.
Definition bb_draw_sunken_rect : Z → Z → Z → Z → Gfx → Gfx := draw_sunken_rect bb_set_pixel.
Definition bb_draw_char : Z → Z → list Z → Color → option Color → Gfx → Gfx := draw_char bb_set_pixel.
Definition bb_draw_string (x y : Z) (text : list Z) (fg : Color) (bg : option Color) (s : Gfx) : Gfx :=
  draw_string (width (fb s)) bb_set_pixel x y text fg bg s.
Definition bb_draw_hline : Z → Z → Z → Color → Gfx → Gfx := draw_hline bb_set_pixel.
Definition bb_draw_vline : Z → Z → Z → Color → Gfx → Gfx := draw_vline bb_set_pixel.
Definition bb_fill_circle : Z → Z → Z → Color → Gfx → Gfx := fill_circle bb_set_pixel.
Definition bb_fill_rounded_rect : Z → Z → Z → Z → Z → Color → Gfx → Gfx := fill_rounded_rect bb_set_pixel bb_fill_rect.
Definition bb_draw_rounded_rect : Z → Z → Z → Z → Z → Color → Gfx → Gfx := draw_rounded_rect bb_set_pixel.

(** A channel of a pixel. *)
Definition channel (pixel shift : Z) : Z := Z.land (Z.shiftr pixel (Z.land shift 31)) 0xFF.

Definition set_pixel_alpha (x y : Z) (c : Color) (s : Gfx) : Gfx :=
  let f := fb s in
  if (width f <=? x) || (height f <=? y) || (alpha c =? 0) then s
  else
    match back s !! bb_index x y s with
    | None => s
    | Some existing =>
        if alpha c =? 255 then bb_store x y (pack f c) s
        else
          let old := rgb (channel existing (red_shift f)) (channel existing (green_shift f)) (channel existing (blue_shift f)) in
          bb_store x y (pack f (blend c old)) s
    end.

Definition fill_rect_alpha : Z → Z → Z → Z → Color → Gfx → Gfx := fill_each set_pixel_alpha.

(** ** The swap *)

(** The bytes of the back buffer. *)
Definition back_bytes (s : Gfx) : list Z := le_list 4 (back s).

Definition swap_row (y : Z) (s : Gfx) : Gfx :=
  let f := fb s in
  let row_bytes := bb_width s * (bpp f / 8) in
  let src := slice (4 * u32 (y * bb_width s)) row_bytes (back_bytes s) in
  set_memory (mem_write (u64 (address f + u32 (y * pitch f))) src (memory s)) s.

Definition swap_buffers (s : Gfx) : Gfx :=
  if (address (fb s) =? 0) || bool_decide (back s = []) then s
  else for_range 0 (bb_height s) swap_row s.
