(* ===== verification/GraphicsSpec.v ===== *)
(** * What drawing leaves on the screen

    A canvas is a buffer with a law for the setting of a pixel; the frame buffer and
    the back buffer are canvases ([fb_canvas], [bb_canvas]), and the shapes are
    specified once, by the colour they give to each pixel ([paints]).  The clipped
    [fill_rect] of the back buffer is the one that sets each pixel
    ([fill_rect_each]), and the swap shows the back buffer ([swap_shows]). *)

From stdpp Require Import gmap.
From S2P Require Import Prelude Bytes Str Graphics.

(** ** Memory *)

Lemma mem_write_byte bs : ∀ addr m k,
  mem_byte (mem_write addr bs m) k = if decide (addr ≤ k < addr + len bs) then nth (Z.to_nat (k - addr)) bs 0 else mem_byte m k.
Proof.
  induction bs as [|x bs IH]; intros addr m k; cbn [mem_write].
  - rewrite decide_False; [done|]. unfold len. cbn. lia.
  - rewrite IH. unfold len. cbn [length]. destruct (decide (addr + 1 ≤ k < addr + 1 + Z.of_nat (length bs))) as [H|H].
    + rewrite decide_True by lia. replace (Z.to_nat (k - addr)) with (S (Z.to_nat (k - (addr + 1)))) by lia. done.
    + unfold mem_byte. destruct (decide (k = addr)) as [->|Hne].
      * rewrite lookup_insert_eq, decide_True by lia. by rewrite Z.sub_diag.
      * rewrite lookup_insert_ne by done. rewrite decide_False by lia. done.
Qed.

(** ** Canvases *)

(** Pixels [pix] of a screen of [w] columns and [h] rows. *)
Class Canvas {St : Type} (w h : Z) (good : St → Prop) (set : Z → Z → Color → St → St) (pix : Z → Z → St → Z)
    (pk : Color → Z) : Prop := {
  cv_good s x y c : good s → good (set x y c s);
  cv_pixel s x y c px py : good s → 0 ≤ x → 0 ≤ y → 0 ≤ px < w → 0 ≤ py < h →
    pix px py (set x y c s) = if decide (px = x ∧ py = y) then pk c else pix px py s;
}.

Section Paints.
Context {St : Type} {w h : Z} {good : St → Prop} {set : Z → Z → Color → St → St} {pix : Z → Z → St → Z} {pk : Color → Z}.
Context `{!Canvas w h good set pix pk}.

(** [m] gives the pixels for which [f] says so their colour and leaves the others. *)
Definition paints (m : St → St) (f : Z → Z → option Color) : Prop :=
  ∀ s, good s → good (m s) ∧ ∀ px py, 0 ≤ px < w → 0 ≤ py < h →
    pix px py (m s) = match f px py with Some c => pk c | None => pix px py s end.

Lemma paints_ext m f g : paints m f → (∀ px py, 0 ≤ px < w → 0 ≤ py < h → f px py = g px py) → paints m g.
Proof using Type. intros Hm Hfg s Hs. destruct (Hm s Hs) as [Hg Hp]. split; [done|]. intros px py Hx Hy. rewrite Hp by done. by rewrite Hfg. Qed.

Lemma paints_id : paints id (λ _ _, None).
Proof using Type. done. Qed.

Lemma paints_set x y c : 0 ≤ x → 0 ≤ y → paints (set x y c) (λ px py, if decide (px = x ∧ py = y) then Some c else None).
Proof using All.
  intros Hx Hy s Hs. split; [by apply (cv_good (w:=w) (h:=h) (pix:=pix) (pk:=pk))|]. intros px py Hpx Hpy. rewrite (cv_pixel s) by done. by case_decide.
Qed.

Lemma paints_then m1 m2 f1 f2 :
  paints m1 f1 → paints m2 f2 → paints (λ s, m2 (m1 s)) (λ px py, match f2 px py with Some c => Some c | None => f1 px py end).
Proof using Type.
  intros H1 H2 s Hs. destruct (H1 s Hs) as [G1 P1]. destruct (H2 _ G1) as [G2 P2]. split; [done|].
  intros px py Hx Hy. rewrite P2 by done. destruct (f2 px py); [done|]. by apply P1.
Qed.

(** A loop whose turns agree on the colour of a pixel. *)
Lemma paints_range lo hi m f g :
  (∀ i, lo ≤ i < hi → paints (m i) (f i)) →
  (∀ i px py c, lo ≤ i < hi → f i px py = Some c → g px py = Some c) →
  (∀ px py c, 0 ≤ px < w → 0 ≤ py < h → g px py = Some c → ∃ i, lo ≤ i < hi ∧ f i px py ≠ None) →
  paints (for_range lo hi m) g.
Proof using Type.
  intros Hm Hsome Hex s Hs.
  destruct (decide (lo ≤ hi)) as [Hle|Hgt]; [|rewrite for_range_empty by lia; split; [done|]; intros px py Hx Hy;
    destruct (g px py) as [c|] eqn:E; [|done]; destruct (Hex px py c Hx Hy E) as (i & ? & _); lia].
  assert (good (for_range lo hi m s) ∧ ∀ px py, 0 ≤ px < w → 0 ≤ py < h →
    ((∀ i, lo ≤ i < hi → f i px py = None) → pix px py (for_range lo hi m s) = pix px py s) ∧
    (∀ i c, lo ≤ i < hi → f i px py = Some c → g px py = Some c → pix px py (for_range lo hi m s) = pk c)) as [Hg Hp].
  { apply (for_range_ind (λ k s', good s' ∧ ∀ px py, 0 ≤ px < w → 0 ≤ py < h →
      ((∀ i, lo ≤ i < k → f i px py = None) → pix px py s' = pix px py s) ∧
      (∀ i c, lo ≤ i < k → f i px py = Some c → g px py = Some c → pix px py s' = pk c))); [done| |].
    - split; [done|]. intros px py _ _. split; [done|]. intros i c ?. lia.
    - intros k s' Hk [G P]. destruct (Hm k Hk s' G) as [G' P']. split; [done|]. intros px py Hx Hy.
      destruct (P px py Hx Hy) as [PN PS]. rewrite P' by done. split.
      + intros HN. rewrite HN by lia. apply PN. intros i Hi. apply HN. lia.
      + intros i c Hi Hf Hgc. destruct (f k px py) as [c'|] eqn:Ek.
        * apply Hsome in Ek; [|done]. congruence.
        * destruct (decide (i = k)) as [->|Hne]; [congruence|]. apply (PS i c); [lia|done|done]. }
  split; [done|]. intros px py Hx Hy. destruct (Hp px py Hx Hy) as [PN PS]. destruct (g px py) as [c|] eqn:Eg.
  - destruct (Hex px py c Hx Hy Eg) as (i & Hi & Hne). destruct (f i px py) as [c'|] eqn:Ef; [|done].
    pose proof (Hsome i px py c' Hi Ef) as E. assert (c' = c) as -> by congruence. by apply (PS i c).
  - apply PN. intros i Hi. destruct (f i px py) as [c|] eqn:Ef; [|done]. apply Hsome in Ef; [congruence|done].
Qed.

(** *** Lines and rectangles *)

Definition in_box (x y bw bh px py : Z) : bool := (x <=? px) && (px <? x + bw) && (y <=? py) && (py <? y + bh).

Lemma in_box_true x y bw bh px py : in_box x y bw bh px py = true ↔ x ≤ px < x + bw ∧ y ≤ py < y + bh.
Proof using Type. unfold in_box. rewrite !andb_true_iff, !Z.leb_le, !Z.ltb_lt. lia. Qed.

Definition box_color (x y bw bh : Z) (c : Color) (px py : Z) : option Color := if in_box x y bw bh px py then Some c else None.

Lemma box_color_Some x y bw bh c px py c' :
  box_color x y bw bh c px py = Some c' ↔ c' = c ∧ x ≤ px < x + bw ∧ y ≤ py < y + bh.
Proof using Type.
  unfold box_color. destruct (in_box x y bw bh px py) eqn:E.
  - apply in_box_true in E. split; [by intros [= ->]|by intros (-> & _)].
  - split; [done|]. intros (_ & H). apply in_box_true in H. congruence.
Qed.

Lemma u32_small z : 0 ≤ z < 2 ^ 32 → u32 z = z.
Proof using Type. intros Hz. by apply wrap_small. Qed.

Lemma paints_point x y c : 0 ≤ x → 0 ≤ y → paints (set x y c) (box_color x y 1 1 c).
Proof using All.
  intros Hx Hy. eapply paints_ext; [by apply paints_set|]. intros px py _ _. cbn. unfold box_color.
  destruct (in_box x y 1 1 px py) eqn:E.
  - apply in_box_true in E. rewrite decide_True by lia. done.
  - rewrite decide_False; [done|]. intros [-> ->]. rewrite (proj2 (in_box_true _ _ _ _ _ _)) in E by lia. done.
Qed.

Lemma paints_hline x y n c : 0 ≤ x → 0 ≤ y → 0 ≤ n → x + n ≤ 2 ^ 32 → paints (draw_hline set x y n c) (box_color x y n 1 c).
Proof using All.
  intros Hx Hy Hn Hb. apply paints_range with (f := λ dx, box_color (x + dx) y 1 1 c).
  - intros i Hi. rewrite u32_small by lia. apply paints_point; lia.
  - intros i px py c' Hi. rewrite !box_color_Some. intros (-> & H). split; [done|lia].
  - intros px py c' _ _. rewrite box_color_Some. intros (-> & H). exists (px - x). split; [lia|].
    rewrite (proj2 (box_color_Some _ _ _ _ c _ _ c)) by (split; [done|lia]). done.
Qed.

Lemma paints_vline x y n c : 0 ≤ x → 0 ≤ y → 0 ≤ n → y + n ≤ 2 ^ 32 → paints (draw_vline set x y n c) (box_color x y 1 n c).
Proof using All.
  intros Hx Hy Hn Hb. apply paints_range with (f := λ dy, box_color x (y + dy) 1 1 c).
  - intros i Hi. rewrite u32_small by lia. apply paints_point; lia.
  - intros i px py c' Hi. rewrite !box_color_Some. intros (-> & H). split; [done|lia].
  - intros px py c' _ _. rewrite box_color_Some. intros (-> & H). exists (py - y). split; [lia|].
    rewrite (proj2 (box_color_Some _ _ _ _ c _ _ c)) by (split; [done|lia]). done.
Qed.

Lemma paints_fill x y bw bh c :
  0 ≤ x → 0 ≤ y → 0 ≤ bw → 0 ≤ bh → x + bw ≤ 2 ^ 32 → y + bh ≤ 2 ^ 32 → paints (fill_each set x y bw bh c) (box_color x y bw bh c).
Proof using All.
  intros Hx Hy Hw Hh Hb1 Hb2. apply paints_range with (f := λ dy, box_color x (y + dy) bw 1 c).
  - intros i Hi. rewrite (u32_small (y + i)) by lia. apply (paints_hline x (y + i) bw c); lia.
  - intros i px py c' Hi. rewrite !box_color_Some. intros (-> & H). split; [done|lia].
  - intros px py c' _ _. rewrite box_color_Some. intros (-> & H). exists (py - y). split; [lia|].
    rewrite (proj2 (box_color_Some _ _ _ _ c _ _ c)) by (split; [done|lia]). done.
Qed.

(** *** Text *)

(** The dot of a character. *)
Definition dot_color (ch : list Z) (col row : Z) (fg : Color) (bg : option Color) : option Color :=
  if Z.testbit (nth (Z.to_nat row) (get_char_bitmap ch) 0) (7 - col) then Some fg else bg.

Lemma bit_test bits k : 0 ≤ k → (Z.land (Z.shiftr bits k) 1 =? 1) = Z.testbit bits k.
Proof using Type.
  intros _. rewrite Z.testbit_odd. change 1 with (Z.ones 1) at 1. rewrite Z.land_ones by lia. by rewrite Zodd_mod.
Qed.

Definition char_color (x y : Z) (ch : list Z) (fg : Color) (bg : option Color) (px py : Z) : option Color :=
  if in_box x y 8 16 px py then dot_color ch (px - x) (py - y) fg bg else None.

Lemma paints_dot x y ch row col fg bg :
  0 ≤ x → 0 ≤ y → x + 8 ≤ 2 ^ 32 → y + 16 ≤ 2 ^ 32 → 0 ≤ row < 16 → 0 ≤ col < 8 →
  paints (draw_dot set x y (nth (Z.to_nat row) (get_char_bitmap ch) 0) row col fg bg)
    (λ px py, if in_box (x + col) (y + row) 1 1 px py then dot_color ch col row fg bg else None).
Proof using All.
  intros Hx Hy Hbx Hby Hr Hc. unfold draw_dot, dot_color. rewrite bit_test by lia. rewrite !u32_small by lia.
  destruct (Z.testbit _ _); [by apply paints_point; lia|]. destruct bg as [c|]; [by apply paints_point; lia|].
  eapply paints_ext; [apply paints_id|]. intros. cbn. by destruct (in_box _ _ _ _ _ _).
Qed.

Lemma paints_char x y ch fg bg :
  0 ≤ x → 0 ≤ y → x + 8 ≤ 2 ^ 32 → y + 16 ≤ 2 ^ 32 → paints (draw_char set x y ch fg bg) (char_color x y ch fg bg).
Proof using All.
  intros Hx Hy Hbx Hby.
  apply paints_range with (f := λ row px py, if in_box x (y + row) 8 1 px py then dot_color ch (px - x) row fg bg else None).
  - intros row Hr. cbv zeta.
    apply paints_range with (f := λ col px py, if in_box (x + col) (y + row) 1 1 px py then dot_color ch col row fg bg else None).
    + intros col Hc. by apply paints_dot.
    + intros col px py c Hc. destruct (in_box (x + col) _ _ _ _ _) eqn:E; [|done]. apply in_box_true in E.
      rewrite (proj2 (in_box_true _ _ _ _ _ _)) by lia. by replace (px - x) with col by lia.
    + intros px py c _ _. destruct (in_box x _ _ _ _ _) eqn:E; [|done]. apply in_box_true in E. intros Hd.
      exists (px - x). split; [lia|]. rewrite (proj2 (in_box_true _ _ _ _ _ _)) by lia. by rewrite Hd.
  - intros row px py c Hr. unfold char_color. destruct (in_box x (y + row) _ _ _ _) eqn:E; [|done]. apply in_box_true in E.
    rewrite (proj2 (in_box_true _ _ _ _ _ _)) by lia. by replace (py - y) with row by lia.
  - intros px py c _ _. unfold char_color. destruct (in_box x y _ _ _ _) eqn:E; [|done]. apply in_box_true in E. intros Hd.
    exists (py - y). split; [lia|]. rewrite (proj2 (in_box_true _ _ _ _ _ _)) by lia. by rewrite Hd.
Qed.

(** The characters stand side by side, and the ones that do not fit are not shown. *)
Fixpoint text_color (cx y : Z) (cs : list (list Z)) (fg : Color) (bg : option Color) (px py : Z) : option Color :=
  match cs with
  | [] => None
  | ch :: cs =>
      if w <? cx + 8 then None
      else match char_color cx y ch fg bg px py with Some c => Some c | None => text_color (cx + 8) y cs fg bg px py end
  end.

Lemma text_color_left cs : ∀ cx y fg bg px py, px < cx → text_color cx y cs fg bg px py = None.
Proof using Type.
  induction cs as [|ch cs IH]; intros cx y fg bg px py Hp; cbn; [done|]. destruct (w <? cx + 8); [done|].
  unfold char_color. destruct (in_box cx y 8 16 px py) eqn:E; [apply in_box_true in E; lia|]. apply IH. lia.
Qed.

Lemma paints_chars cs : ∀ cx y fg bg,
  w + 8 < 2 ^ 32 → 0 ≤ cx < 2 ^ 32 - 8 → 0 ≤ y → y + 16 ≤ 2 ^ 32 → paints (draw_chars w set cx y cs fg bg) (text_color cx y cs fg bg).
Proof using All.
  induction cs as [|ch cs IH]; intros cx y fg bg Hw Hcx Hy Hby; cbn [draw_chars text_color]; [apply paints_id|].
  rewrite u32_small by lia. destruct (Z.ltb_spec w (cx + 8)) as [Hlt|Hge]; [apply paints_id|].
  eapply paints_ext; [eapply paints_then; [apply (paints_char cx y ch fg bg); lia|apply IH; lia]|].
  intros px py _ _. cbn. destruct (char_color cx y ch fg bg px py) as [c|] eqn:E; [|by destruct (text_color _ _ _ _ _ _ _)].
  rewrite text_color_left; [done|]. unfold char_color in E. destruct (in_box _ _ _ _ _ _) eqn:Eb; [|done].
  apply in_box_true in Eb. lia.
Qed.

End Paints.

(** ** The two canvases *)

(** A mode of 32 bits per pixel whose rows fit in memory, and a back buffer of the
    size of the screen. *)
Record screen_ok (s : Gfx) : Prop := {
  so_address : 0 < address (fb s);
  so_width : 0 < width (fb s) < 2 ^ 31;
  so_height : 0 ≤ height (fb s) < 2 ^ 31;
  so_bpp : bpp (fb s) = 32;
  so_pitch : 4 * width (fb s) ≤ pitch (fb s);
  so_rows : height (fb s) * pitch (fb s) < 2 ^ 32;
  so_end : address (fb s) + height (fb s) * pitch (fb s) < 2 ^ 64;
  so_bw : bb_width s = width (fb s);
  so_bh : bb_height s = height (fb s);
  so_back : len (back s) = width (fb s) * height (fb s);
  so_words : Forall (λ v, 0 ≤ v < 2 ^ 32) (back s);
}.

(** What a pixel of the screen and of the back buffer shows. *)
Definition pixel_addr (x y : Z) (s : Gfx) : Z := address (fb s) + (y * pitch (fb s) + 4 * x).
Definition mem_word (m : gmap Z Z) (addr : Z) : Z := le_decode (map (λ i, mem_byte m (addr + i)) [0; 1; 2; 3]).
Definition fb_pixel (x y : Z) (s : Gfx) : Z := mem_word (memory s) (pixel_addr x y s).
Definition bb_pixel (x y : Z) (s : Gfx) : Z := nth (Z.to_nat (y * width (fb s) + x)) (back s) 0.

Lemma lor_u32 x y : 0 ≤ x < 2 ^ 32 → 0 ≤ y < 2 ^ 32 → 0 ≤ Z.lor x y < 2 ^ 32.
Proof.
  intros Hx Hy. assert (0 ≤ Z.lor x y) by (apply Z.lor_nonneg; lia). split; [done|].
  destruct (decide (Z.lor x y = 0)) as [->|Hne]; [done|]. apply Z.log2_lt_pow2; [lia|]. rewrite Z.log2_lor by lia.
  apply Z.max_lub_lt.
  - destruct (decide (x = 0)) as [->|?]; [cbn; lia|]. apply Z.log2_lt_pow2; lia.
  - destruct (decide (y = 0)) as [->|?]; [cbn; lia|]. apply Z.log2_lt_pow2; lia.
Qed.

Lemma pack_u32 f c : 0 ≤ pack f c < 2 ^ 32.
Proof. unfold pack, shl32, u32. apply lor_u32; [apply lor_u32|]; by apply wrap_range. Qed.

(** Two pixels have different places. *)
Lemma place_unique (p x y px py wd : Z) : 0 ≤ x < wd → 0 ≤ px < wd → 0 ≤ y → 0 ≤ py → wd ≤ p →
  (py * p + px = y * p + x ↔ px = x ∧ py = y).
Proof.
  intros Hx Hpx Hy Hpy Hp. split; [|by intros [-> ->]]. intros E.
  assert (py = y) as -> by (apply (Z.div_mod_unique p py y px x); lia). lia.
Qed.

Lemma place_bound (x y wd ht p : Z) : 0 ≤ x < wd → 0 ≤ y < ht → wd ≤ p → 0 ≤ y * p + x < ht * p.
Proof. intros. nia. Qed.

Lemma index_ok s x y : screen_ok s → 0 ≤ x < width (fb s) → 0 ≤ y < height (fb s) →
  bb_index x y s = Z.to_nat (y * width (fb s) + x) ∧ (bb_index x y s < length (back s))%nat.
Proof.
  intros [] Hx Hy. pose proof (place_bound x y (width (fb s)) (height (fb s)) (width (fb s)) Hx Hy ltac:(lia)) as H.
  assert (height (fb s) * width (fb s) < 2 ^ 32) by nia.
  assert (bb_index x y s = Z.to_nat (y * width (fb s) + x)) as E.
  { unfold bb_index. rewrite (u32_small (y * width (fb s))) by nia. by rewrite u32_small by lia. }
  split; [done|]. rewrite E. unfold len in *. lia.
Qed.

Lemma screen_back s p : screen_ok s → length p = length (back s) → Forall (λ v, 0 ≤ v < 2 ^ 32) p → screen_ok (set_back p s).
Proof. intros [] Hl Hw. split; try done. unfold len in *. cbn. by rewrite Hl. Qed.

Lemma screen_store s x y v : screen_ok s → 0 ≤ v < 2 ^ 32 → screen_ok (bb_store x y v s).
Proof.
  intros H Hv. apply screen_back; [done|by rewrite length_insert|]. destruct H as [].
  by apply Forall_insert.
Qed.

Lemma nth_insert (l : list Z) i j v : (i < length l)%nat → nth j (<[i := v]> l) 0 = if decide (j = i) then v else nth j l 0.
Proof.
  intros Hi. rewrite !nth_lookup. destruct (decide (j = i)) as [->|Hne].
  - by rewrite list_lookup_insert_eq.
  - by rewrite list_lookup_insert_ne.
Qed.

#[export] Instance bb_canvas f :
  Canvas (width f) (height f) (λ s, screen_ok s ∧ fb s = f) bb_set_pixel bb_pixel (pack f).
Proof.
  split.
  - intros s x y c [Hs Hf]. unfold bb_set_pixel. destruct (_ || _); [done|]. split; [|done]. apply screen_store; [done|apply pack_u32].
  - intros s x y c px py [Hs <-] Hx Hy Hpx Hpy. unfold bb_set_pixel.
    destruct (Z.leb_spec (width (fb s)) x) as [H1|H1]; cbn [orb]; [rewrite decide_False by lia; done|].
    destruct (Z.leb_spec (height (fb s)) y) as [H2|H2]; cbn [orb]; [rewrite decide_False by lia; done|].
    destruct (index_ok s x y Hs) as [E Hlt]; [lia..|]. unfold bb_pixel, bb_store. cbn [back fb set_back].
    rewrite nth_insert by done. rewrite E. pose proof (so_width s Hs).
    destruct (place_unique (width (fb s)) x y px py (width (fb s))) as [P1 P2]; [lia..|].
    destruct (decide (px = x ∧ py = y)) as [D|D].
    + by rewrite decide_True by (rewrite P2; done).
    + rewrite decide_False; [done|]. intros Eq. apply D, P1. nia.
Qed.

Lemma mem_word_write m addr bs k :
  len bs = 4 → (∀ i, In i [0; 1; 2; 3] → ∀ j, In j [0; 1; 2; 3] → k ≠ addr → k + i ≠ addr + j) →
  mem_word (mem_write addr bs m) k = if decide (k = addr) then le_decode bs else mem_word m k.
Proof.
  intros Hl Hsep. unfold mem_word. destruct (decide (k = addr)) as [->|Hne].
  - destruct bs as [|b0 [|b1 [|b2 [|b3 [|]]]]]; unfold len in Hl; cbn [length] in Hl; try lia.
    cbn [map le_decode]. rewrite !mem_write_byte. unfold len. cbn [length].
    repeat (rewrite decide_True by lia). replace (addr + 0 - addr) with 0 by lia. replace (addr + 1 - addr) with 1 by lia.
    replace (addr + 2 - addr) with 2 by lia. by replace (addr + 3 - addr) with 3 by lia.
  - f_equal. apply map_ext_in. intros i Hi. rewrite mem_write_byte, decide_False; [done|]. intros H.
    pose proof (Hsep i Hi (k + i - addr)) as Hs. apply Hs; [|done|lia].
    assert (k + i - addr = 0 ∨ k + i - addr = 1 ∨ k + i - addr = 2 ∨ k + i - addr = 3) as Hc by lia.
    cbn. intuition.
Qed.

Lemma place4 (p x y px py wd ht : Z) i j :
  0 ≤ x < wd → 0 ≤ px < wd → 0 ≤ y → 0 ≤ py → 4 * wd ≤ p → In i [0; 1; 2; 3] → In j [0; 1; 2; 3] →
  py * p + 4 * px + i = y * p + 4 * x + j → px = x ∧ py = y.
Proof.
  intros Hx Hpx Hy Hpy Hp Hi Hj E. assert (0 ≤ i < 4 ∧ 0 ≤ j < 4) as [Hi' Hj'] by (cbn in Hi, Hj; lia).
  assert (py = y) as -> by (apply (Z.div_mod_unique p py y (4 * px + i) (4 * x + j)); lia). lia.
Qed.

Lemma fb_offset_ok s x y : screen_ok s → 0 ≤ x < width (fb s) → 0 ≤ y < height (fb s) →
  u64 (address (fb s) + u32 (u32 (y * pitch (fb s)) + u32 (x * (bpp (fb s) / 8)))) = pixel_addr x y s ∧
  0 ≤ y * pitch (fb s) < 2 ^ 32 ∧ 0 ≤ y * pitch (fb s) + 4 * x ∧ y * pitch (fb s) + 4 * x + 4 ≤ height (fb s) * pitch (fb s).
Proof.
  intros [] Hx Hy. rewrite so_bpp0. change (32 / 8) with 4.
  assert (y * pitch (fb s) + pitch (fb s) ≤ height (fb s) * pitch (fb s)) by nia.
  assert (0 ≤ y * pitch (fb s)) by nia. unfold pixel_addr. rewrite (u32_small (y * _)) by lia. rewrite (u32_small (x * 4)) by lia.
  rewrite u32_small by lia. rewrite u64_small by lia. split; [lia|]. lia.
Qed.

#[export] Instance fb_canvas f :
  Canvas (width f) (height f) (λ s, screen_ok s ∧ fb s = f) fb_set_pixel fb_pixel (pack f).
Proof.
  split.
  - intros s x y c [Hs Hf]. unfold fb_set_pixel. cbv zeta. destruct (_ || _); [done|]. split; [|done]. by destruct Hs; split.
  - intros s x y c px py [Hs <-] Hx Hy Hpx Hpy. unfold fb_set_pixel. cbv zeta. pose proof (so_address s Hs).
    destruct (Z.leb_spec (width (fb s)) x) as [H1|H1]; cbn [orb]; [rewrite decide_False by lia; done|].
    destruct (Z.leb_spec (height (fb s)) y) as [H2|H2]; cbn [orb]; [rewrite decide_False by lia; done|].
    destruct (Z.eqb_spec (address (fb s)) 0) as [H3|H3]; [lia|].
    destruct (fb_offset_ok s x y Hs) as [E _]; [lia..|]. unfold fb_pixel. cbn [memory set_memory fb]. rewrite E.
    change (pixel_addr px py (set_memory _ s)) with (pixel_addr px py s). pose proof (so_pitch s Hs). unfold pixel_addr.
    assert (∀ i j, In i [0; 1; 2; 3] → In j [0; 1; 2; 3] → pixel_addr px py s + i = pixel_addr x y s + j → px = x ∧ py = y) as Hsep.
    { intros i j Hi Hj Eij. unfold pixel_addr in Eij. apply (place4 (pitch (fb s)) x y px py (width (fb s)) (height (fb s)) i j); try done; lia. }
    unfold pixel_addr in Hsep. rewrite mem_word_write.
    + destruct (decide (px = x ∧ py = y)) as [[-> ->]|D].
      * rewrite decide_True by done. apply le_decode_le. apply pack_u32.
      * rewrite decide_False; [done|]. intros Eq. apply D. apply (Hsep 0 0); [by left|by left|lia].
    + unfold len. by rewrite length_le.
    + intros i Hi j Hj Hne Eij. destruct (Hsep i j Hi Hj Eij) as [-> ->]. done.
Qed.

(** ** The clipped rectangle *)

Lemma store_fb x y v s : fb (bb_store x y v s) = fb s.
Proof. done. Qed.

Lemma fill_row_fb n : ∀ dx x py v s, fb (fill_row n dx x py v s) = fb s.
Proof. induction n as [|n IH]; intros; cbn [fill_row]; [done|]. case_match; [done|]. by rewrite IH. Qed.

Lemma fill_rows_fb n : ∀ dy x y w v s, fb (fill_rows n dy x y w v s) = fb s.
Proof. induction n as [|n IH]; intros; cbn [fill_rows]; [done|]. case_match; [done|]. by rewrite IH, fill_row_fb. Qed.

Lemma set_pixel_outside x y c s : width (fb s) ≤ x ∨ height (fb s) ≤ y → bb_set_pixel x y c s = s.
Proof.
  intros H. unfold bb_set_pixel. destruct (Z.leb_spec (width (fb s)) x) as [H1|H1]; [done|].
  destruct (Z.leb_spec (height (fb s)) y) as [H2|H2]; [done|]. destruct H; exfalso; lia.
Qed.

(** A row beyond the edge is cut without a change. *)
Lemma fill_row_each n : ∀ dx x py c s,
  0 ≤ dx → 0 ≤ x → x + dx + Z.of_nat n ≤ 2 ^ 32 → 0 ≤ py < height (fb s) →
  fill_row n dx x py (pack (fb s) c) s = iter_from n dx (λ dx, bb_set_pixel (u32 (x + dx)) py c) s.
Proof.
  induction n as [|n IH]; intros dx x py c s Hdx Hx Hb Hpy; cbn [fill_row iter_from]; [done|].
  rewrite (u32_small (x + dx)) by lia. destruct (Z.leb_spec (width (fb s)) (x + dx)) as [Hge|Hlt].
  - rewrite set_pixel_outside by lia. symmetry.
    assert (∀ k dx s', width (fb s') ≤ x + dx → 0 ≤ dx → x + dx + Z.of_nat k ≤ 2 ^ 32 →
      iter_from k dx (λ dx, bb_set_pixel (u32 (x + dx)) py c) s' = s') as Hskip.
    { clear -Hx. induction k as [|k IH]; intros dx s' Hw Hd Hb; cbn; [done|]. rewrite (u32_small (x + dx)) by lia.
      rewrite set_pixel_outside by lia. apply IH; lia. }
    apply Hskip; lia.
  - assert (bb_set_pixel (x + dx) py c s = bb_store (x + dx) py (pack (fb s) c) s) as ->.
    { unfold bb_set_pixel. rewrite (proj2 (Z.leb_gt _ _)) by lia. by rewrite (proj2 (Z.leb_gt _ _)) by lia. }
    rewrite <- IH; [by rewrite store_fb|lia|lia|lia|by rewrite store_fb].
Qed.

Lemma each_row_fb n : ∀ dx x py c s, fb (iter_from n dx (λ dx, bb_set_pixel (u32 (x + dx)) py c) s) = fb s.
Proof. induction n as [|n IH]; intros; cbn; [done|]. rewrite IH. unfold bb_set_pixel. by case_match. Qed.

Lemma each_row_outside n : ∀ dx x py c s, height (fb s) ≤ py → iter_from n dx (λ dx, bb_set_pixel (u32 (x + dx)) py c) s = s.
Proof. induction n as [|n IH]; intros dx x py c s Hp; cbn; [done|]. rewrite set_pixel_outside by lia. by apply IH. Qed.

Lemma fill_rows_each n : ∀ dy x y w c s,
  0 ≤ dy → 0 ≤ x → 0 ≤ y → 0 ≤ w → x + w ≤ 2 ^ 32 → y + dy + Z.of_nat n ≤ 2 ^ 32 →
  fill_rows n dy x y w (pack (fb s) c) s =
  iter_from n dy (λ dy, iter_from (Z.to_nat w) 0 (λ dx, bb_set_pixel (u32 (x + dx)) (u32 (y + dy)) c)) s.
Proof.
  induction n as [|n IH]; intros dy x y w c s Hdy Hx Hy Hw Hbw Hb; cbn [fill_rows iter_from]; [done|].
  rewrite (u32_small (y + dy)) by lia. destruct (Z.leb_spec (height (fb s)) (y + dy)) as [Hge|Hlt].
  - rewrite each_row_outside by lia. symmetry. clear IH.
    assert (∀ k dy s', height (fb s') ≤ y + dy → 0 ≤ dy → y + dy + Z.of_nat k ≤ 2 ^ 32 →
      iter_from k dy (λ dy, iter_from (Z.to_nat w) 0 (λ dx, bb_set_pixel (u32 (x + dx)) (u32 (y + dy)) c)) s' = s') as Hskip.
    { clear -Hy. induction k as [|k IH]; intros dy s' Hh Hd Hb; cbn [iter_from]; [done|]. rewrite (u32_small (y + dy)) by lia.
      rewrite each_row_outside by lia. apply IH; lia. }
    apply Hskip; lia.
  - rewrite fill_row_each by lia. rewrite <- IH by lia. f_equal. by rewrite each_row_fb.
Qed.

(** The clipped rectangle of the back buffer leaves what setting every pixel of
    the rectangle leaves, wherever it lies on or beside the screen; a rectangle that
    wraps around the coordinates is the one case that is cut. *)
Theorem fill_rect_each x y w h c s :
  0 ≤ x → 0 ≤ y → 0 ≤ w → 0 ≤ h → x + w ≤ 2 ^ 32 → y + h ≤ 2 ^ 32 →
  bb_fill_rect x y w h c s = fill_each bb_set_pixel x y w h c s.
Proof.
  intros Hx Hy Hw Hh Hbx Hby. unfold bb_fill_rect, fill_each. rewrite fill_rows_each by lia.
  unfold for_range. by rewrite !Z.sub_0_r.
Qed.

(** ** The swap *)

Lemma nth_le_list l : ∀ k i, (k < length l)%nat → (i < 4)%nat → nth (4 * k + i) (le_list 4 l) 0 = nth i (le 4 (nth k l 0)) 0.
Proof.
  unfold le_list. induction l as [|v l IH]; intros k i Hk Hi; cbn [length] in Hk; [lia|]. cbn [map concat].
  destruct k as [|k].
  - rewrite app_nth1 by (rewrite length_le; lia). done.
  - rewrite app_nth2 by (rewrite length_le; lia). rewrite length_le.
    replace (4 * S k + i - 4)%nat with (4 * k + i)%nat by lia. by rewrite IH by lia.
Qed.

(** The byte of the back buffer that belongs at an address. *)
Definition byte_for (s : Gfx) (k addr : Z) : option Z :=
  let off := addr - address (fb s) in
  let row := off / pitch (fb s) in
  let col := off mod pitch (fb s) in
  if (0 <=? off) && (row <? k) && (col <? 4 * width (fb s))
  then Some (nth (Z.to_nat (4 * (row * width (fb s)) + col)) (back_bytes s) 0) else None.

Lemma byte_for_at s k y j : screen_ok s → 0 ≤ y → 0 ≤ j < 4 * width (fb s) →
  byte_for s k (address (fb s) + y * pitch (fb s) + j) =
  if decide (y < k) then Some (nth (Z.to_nat (4 * (y * width (fb s)) + j)) (back_bytes s) 0) else None.
Proof.
  intros [] Hy Hj. unfold byte_for. replace (address (fb s) + y * pitch (fb s) + j - address (fb s)) with (j + y * pitch (fb s)) by lia.
  rewrite Z.div_add, Z.mod_add, Z.div_small, Z.mod_small by lia. rewrite Z.add_0_l.
  rewrite (proj2 (Z.leb_le _ _)) by nia. rewrite (proj2 (Z.ltb_lt j _)) by lia. rewrite andb_true_r. cbn [andb].
  destruct (decide (y < k)) as [H|H]; [by rewrite (proj2 (Z.ltb_lt y k)) by lia|by rewrite (proj2 (Z.ltb_ge y k)) by lia].
Qed.

Lemma byte_for_step s k addr : screen_ok s → 0 ≤ k →
  byte_for s (k + 1) addr =
  if decide (address (fb s) + k * pitch (fb s) ≤ addr < address (fb s) + k * pitch (fb s) + 4 * width (fb s))
  then Some (nth (Z.to_nat (4 * (k * width (fb s)) + (addr - (address (fb s) + k * pitch (fb s))))) (back_bytes s) 0)
  else byte_for s k addr.
Proof.
  intros Hs Hk. destruct (decide _) as [H|H].
  - set (j := addr - (address (fb s) + k * pitch (fb s))) in *.
    replace addr with (address (fb s) + k * pitch (fb s) + j) by lia. rewrite byte_for_at by (done || lia).
    by rewrite decide_True by lia.
  - unfold byte_for. cbv zeta. destruct Hs as []. set (off := addr - address (fb s)) in *.
    destruct (Z.leb_spec 0 off) as [Ho|Ho]; cbn [andb]; [|done].
    pose proof (Z.div_mod off (pitch (fb s)) ltac:(lia)) as E. pose proof (Z.mod_pos_bound off (pitch (fb s)) ltac:(lia)) as Eb.
    destruct (Z.ltb_spec (off / pitch (fb s)) k) as [H1|H1].
    + by rewrite (proj2 (Z.ltb_lt _ (k + 1))) by lia.
    + destruct (Z.ltb_spec (off / pitch (fb s)) (k + 1)) as [H2|H2]; cbn [andb]; [|done].
      assert (off / pitch (fb s) = k) as Ek by lia. rewrite Ek in *.
      destruct (Z.ltb_spec (off mod pitch (fb s)) (4 * width (fb s))) as [H3|H3]; [|done]. exfalso. lia.
Qed.

Lemma swap_row_bytes s k m : screen_ok s → 0 ≤ k < height (fb s) →
  (∀ addr, mem_byte m addr = default (mem_byte (memory s) addr) (byte_for s k addr)) →
  ∀ addr, mem_byte (memory (swap_row k (set_memory m s))) addr = default (mem_byte (memory s) addr) (byte_for s (k + 1) addr).
Proof.
  intros Hs Hk Hm addr. rewrite byte_for_step by (done || lia). unfold swap_row. cbn [memory set_memory fb bb_width].
  pose proof Hs as []. rewrite so_bpp0, so_bw0. change (32 / 8) with 4.
  assert (k * pitch (fb s) + pitch (fb s) ≤ height (fb s) * pitch (fb s)) by nia.
  assert (k * width (fb s) + width (fb s) ≤ height (fb s) * width (fb s)) by nia.
  assert (height (fb s) * width (fb s) < 2 ^ 32) by nia.
  rewrite (u32_small (k * pitch (fb s))) by nia. rewrite (u32_small (k * width (fb s))) by nia. rewrite u64_small by nia.
  change (back_bytes (set_memory m s)) with (back_bytes s).
  assert (len (back_bytes s) = 4 * (width (fb s) * height (fb s))) as Hl.
  { unfold back_bytes, len in *. rewrite length_le_list. lia. }
  rewrite mem_write_byte, len_slice by nia. replace (width (fb s) * 4) with (4 * width (fb s)) by lia.
  destruct (decide _) as [H3|H3]; [|by apply Hm]. cbn [from_option id].
  rewrite !nth_lookup, lookup_slice. rewrite decide_True by lia.
  assert (0 ≤ k * width (fb s)) by nia. do 2 f_equal. lia.
Qed.

Lemma swap_bytes s : screen_ok s → back s ≠ [] →
  ∃ m, swap_buffers s = set_memory m s ∧
    ∀ addr, mem_byte m addr = default (mem_byte (memory s) addr) (byte_for s (height (fb s)) addr).
Proof.
  intros Hs Hne. unfold swap_buffers. pose proof Hs as []. rewrite (proj2 (Z.eqb_neq _ _)) by lia.
  rewrite bool_decide_eq_false_2 by done. cbn [orb]. rewrite so_bh0.
  apply (for_range_ind (λ k s', ∃ m, s' = set_memory m s ∧ ∀ addr, mem_byte m addr = default (mem_byte (memory s) addr) (byte_for s k addr))).
  - lia.
  - exists (memory s). split; [by destruct s|]. intros addr. unfold byte_for. cbv zeta.
    destruct (Z.leb_spec 0 (addr - address (fb s))) as [Ho|Ho]; cbn [andb]; [|done].
    rewrite (proj2 (Z.ltb_ge _ 0)) by (apply Z.div_pos; lia). done.
  - intros k s' Hk (m & -> & Hm). exists (memory (swap_row k (set_memory m s))). split; [done|]. by apply swap_row_bytes.
Qed.

(** The swap shows on every pixel of the screen what the back buffer holds, and
    writes no byte of memory outside the rows of the screen. *)
Theorem swap_shows s : screen_ok s → back s ≠ [] →
  (∀ x y, 0 ≤ x < width (fb s) → 0 ≤ y < height (fb s) → fb_pixel x y (swap_buffers s) = bb_pixel x y s) ∧
  (∀ addr, byte_for s (height (fb s)) addr = None → mem_byte (memory (swap_buffers s)) addr = mem_byte (memory s) addr) ∧
  back (swap_buffers s) = back s.
Proof.
  intros Hs Hne. destruct (swap_bytes s Hs Hne) as (m & -> & Hm). split; [|split; [|done]].
  - intros x y Hx Hy. unfold fb_pixel, mem_word, bb_pixel. cbn [memory set_memory fb].
    destruct (index_ok s x y Hs Hx Hy) as [E Hlt]. rewrite E in Hlt.
    set (k := Z.to_nat (y * width (fb s) + x)) in *.
    assert (0 ≤ nth k (back s) 0 < 2 ^ 32) as Hw.
    { destruct (lookup_lt_is_Some_2 _ _ Hlt) as [v Hv]. rewrite nth_lookup, Hv. by apply (Forall_lookup_1 _ _ _ _ (so_words s Hs) Hv). }
    rewrite <- (le_decode_le 4 (nth k (back s) 0)) by exact Hw. f_equal.
    assert (∀ i : nat, (i < 4)%nat → mem_byte m (pixel_addr x y s + Z.of_nat i) = nth i (le 4 (nth k (back s) 0)) 0) as Hb.
    { intros i Hi. rewrite Hm. unfold pixel_addr.
      replace (address (fb s) + (y * pitch (fb s) + 4 * x) + Z.of_nat i) with (address (fb s) + y * pitch (fb s) + (4 * x + Z.of_nat i)) by lia.
      rewrite byte_for_at by (done || lia). rewrite decide_True by lia. cbn [from_option id]. rewrite <- nth_le_list by done.
      unfold back_bytes. subst k. assert (0 ≤ y * width (fb s)) by (pose proof (so_width s Hs); nia). f_equal. lia. }
    change (pixel_addr x y (set_memory m s)) with (pixel_addr x y s). cbn [map le].
    pose proof (Hb 0%nat) as B0. pose proof (Hb 1%nat) as B1. pose proof (Hb 2%nat) as B2. pose proof (Hb 3%nat) as B3.
    change (Z.of_nat 0) with 0 in B0. change (Z.of_nat 1) with 1 in B1. change (Z.of_nat 2) with 2 in B2. change (Z.of_nat 3) with 3 in B3.
    rewrite B0, B1, B2, B3 by lia. done.
  - intros addr Ha. cbn [memory set_memory]. by rewrite Hm, Ha.
Qed.

(** A string drawn in the back buffer and shown, and the same string drawn on
    the screen, give a pixel the colour of its dot of its character, and leave every
    other pixel; the characters that do not fit in the row are left out. *)
Theorem text_on_screen x y text fg bg s px py :
  screen_ok s → 0 ≤ x < 2 ^ 32 - 8 → 0 ≤ y → y + 16 ≤ 2 ^ 32 → 0 ≤ px < width (fb s) → 0 ≤ py < height (fb s) →
  let dots := text_color (w := width (fb s)) x y (chars text) fg bg in
  fb_pixel px py (swap_buffers (bb_draw_string x y text fg bg s)) =
    match dots px py with Some c => pack (fb s) c | None => bb_pixel px py s end ∧
  fb_pixel px py (fb_draw_string x y text fg bg s) =
    match dots px py with Some c => pack (fb s) c | None => fb_pixel px py s end.
Proof.
  intros Hs Hx Hy Hby Hpx Hpy dots. pose proof (so_width s Hs). split.
  - destruct (paints_chars (Canvas0 := bb_canvas (fb s)) (chars text) x y fg bg ltac:(lia) Hx Hy Hby s (conj Hs eq_refl)) as [[Hg Hf] Hp].
    change (draw_chars (width (fb s)) bb_set_pixel x y (chars text) fg bg s) with (bb_draw_string x y text fg bg s) in *.
    destruct (swap_shows _ Hg) as [Hsw _].
    + destruct Hg as []. intros E. rewrite E, Hf in so_back0. unfold len in so_back0. cbn in so_back0. nia.
    + rewrite Hsw by (rewrite Hf; lia). by apply Hp.
  - destruct (paints_chars (Canvas0 := fb_canvas (fb s)) (chars text) x y fg bg ltac:(lia) Hx Hy Hby s (conj Hs eq_refl)) as [_ Hp].
    by apply Hp.
Qed.

(** ** Shapes stay where they are drawn *)

Section Stays.
Context {St : Type} {w h : Z} {good : St → Prop} {set : Z → Z → Color → St → St} {pix : Z → Z → St → Z} {pk : Color → Z}.
Context `{!Canvas w h good set pix pk}.

(** [m] changes no pixel outside the box. *)
Definition stays (x y bw bh : Z) (m : St → St) : Prop :=
  ∀ s, good s → good (m s) ∧ ∀ px py, 0 ≤ px < w → 0 ≤ py < h → in_box x y bw bh px py = false → pix px py (m s) = pix px py s.

Lemma stays_then x y bw bh m1 m2 : stays x y bw bh m1 → stays x y bw bh m2 → stays x y bw bh (λ s, m2 (m1 s)).
Proof using Type.
  intros H1 H2 s Hs. destruct (H1 s Hs) as [G1 P1]. destruct (H2 _ G1) as [G2 P2]. split; [done|].
  intros px py Hx Hy Hb. rewrite P2 by done. by apply P1.
Qed.

Lemma stays_range x y bw bh lo hi m : (∀ i, lo ≤ i < hi → stays x y bw bh (m i)) → stays x y bw bh (for_range lo hi m).
Proof using Type.
  intros Hm s Hs. apply (for_range_inv (λ s', good s' ∧ ∀ px py, 0 ≤ px < w → 0 ≤ py < h → in_box x y bw bh px py = false →
    pix px py s' = pix px py s)); [done|]. intros i s' Hi [G P]. destruct (Hm i Hi s' G) as [G' P']. split; [done|].
  intros px py Hx Hy Hb. rewrite P' by done. by apply P.
Qed.

Lemma stays_if x y bw bh (b : bool) m : stays x y bw bh m → stays x y bw bh (λ s, if b then m s else s).
Proof using Type. intros H. by destruct b. Qed.

Lemma stays_set x y bw bh px py c : 0 ≤ px → 0 ≤ py → (px < w → py < h → in_box x y bw bh px py = true) → stays x y bw bh (set px py c).
Proof using All.
  intros Hx Hy Hb s Hs. split; [by apply (cv_good (w:=w) (h:=h) (pix:=pix) (pk:=pk))|]. intros qx qy Hqx Hqy Hq.
  rewrite (cv_pixel s) by done. rewrite decide_False; [done|]. intros [-> ->]. rewrite Hb in Hq by lia. done.
Qed.

Lemma stays_paints x y bw bh m f : paints (w:=w) (h:=h) (good:=good) (pix:=pix) (pk:=pk) m f →
  (∀ px py c, f px py = Some c → in_box x y bw bh px py = true) → stays x y bw bh m.
Proof using Type.
  intros Hm Hf s Hs. destruct (Hm s Hs) as [G P]. split; [done|]. intros px py Hx Hy Hb. rewrite P by done.
  destruct (f px py) as [c|] eqn:E; [|done]. apply Hf in E. congruence.
Qed.

Lemma stays_hline x y bw bh lx ly n c : 0 ≤ lx → 0 ≤ ly → 0 ≤ n → lx + n ≤ 2 ^ 32 →
  (0 < n → x ≤ lx ∧ lx + n ≤ x + bw ∧ y ≤ ly < y + bh) → stays x y bw bh (draw_hline set lx ly n c).
Proof using All.
  intros Hx Hy Hn Hb Hin. eapply stays_paints; [by apply paints_hline|]. intros px py c' (_ & H)%box_color_Some.
  apply in_box_true. lia.
Qed.

Lemma stays_vline x y bw bh lx ly n c : 0 ≤ lx → 0 ≤ ly → 0 ≤ n → ly + n ≤ 2 ^ 32 →
  (0 < n → y ≤ ly ∧ ly + n ≤ y + bh ∧ x ≤ lx < x + bw) → stays x y bw bh (draw_vline set lx ly n c).
Proof using All.
  intros Hx Hy Hn Hb Hin. eapply stays_paints; [by apply paints_vline|]. intros px py c' (_ & H)%box_color_Some.
  apply in_box_true. lia.
Qed.

Lemma stays_corners x y bw bh rad p c :
  0 ≤ x → 0 ≤ y → x + bw < 2 ^ 32 → y + bh < 2 ^ 32 → rad ≤ bw → rad ≤ bh → stays x y bw bh (draw_corners set x y bw bh rad p c).
Proof using All.
  intros Hx Hy Hbw Hbh Hr1 Hr2. apply stays_range. intros dy Hdy. apply stays_range. intros dx Hdx. cbv zeta.
  apply stays_if. unfold corners. rewrite (u32_small (x + bw)), (u32_small (y + bh)), (u32_small (x + dx)), (u32_small (y + dy)) by lia.
  rewrite (u32_small (x + bw - 1)), (u32_small (y + bh - 1)) by lia. rewrite (u32_small (x + bw - 1 - dx)), (u32_small (y + bh - 1 - dy)) by lia.
  assert (∀ px py, x ≤ px < x + bw → y ≤ py < y + bh → stays x y bw bh (set px py c)) as Hset.
  { intros px py Hpx Hpy. apply stays_set; [lia..|]. intros _ _. by apply in_box_true. }
  do 3 (apply (stays_then x y bw bh (λ s, _)); [|apply Hset; lia]). apply Hset; lia.
Qed.

Lemma radius_ok radius bw bh : 0 ≤ radius → 0 ≤ bw → 0 ≤ bh →
  0 ≤ corner_radius radius bw bh ∧ 2 * corner_radius radius bw bh ≤ bw ∧ 2 * corner_radius radius bw bh ≤ bh.
Proof using Type. intros. unfold corner_radius. pose proof (Z.mul_div_le bw 2). pose proof (Z.mul_div_le bh 2).
  pose proof (Z.div_pos bw 2). pose proof (Z.div_pos bh 2). lia. Qed.

Lemma stays_rounded_outline x y bw bh radius c :
  0 ≤ x → 0 ≤ y → 0 < bw → 0 < bh → 0 ≤ radius → x + bw < 2 ^ 32 → y + bh < 2 ^ 32 →
  stays x y bw bh (draw_rounded_rect set x y bw bh radius c).
Proof using All.
  intros Hx Hy Hw Hh Hr Hbw Hbh. destruct (radius_ok radius bw bh) as (R1 & R2 & R3); [lia..|].
  unfold draw_rounded_rect. cbv zeta. set (rad := corner_radius radius bw bh) in *. clearbody rad.
  rewrite (u32_small (2 * rad)), (u32_small (x + rad)), (u32_small (y + rad)), (u32_small (x + bw)), (u32_small (y + bh)) by lia.
  rewrite (u32_small (bw - 2 * rad)), (u32_small (bh - 2 * rad)), (u32_small (x + bw - 1)), (u32_small (y + bh - 1)) by lia.
  apply (stays_then x y bw bh (λ s, _)); [|by apply stays_corners; lia].
  apply (stays_then x y bw bh (λ s, _)); [|apply stays_vline; lia].
  apply (stays_then x y bw bh (λ s, _)); [|apply stays_vline; lia].
  apply (stays_then x y bw bh (λ s, _)); [|apply stays_hline; lia]. apply stays_hline; lia.
Qed.

Lemma stays_rounded_fill x y bw bh radius c :
  0 ≤ x → 0 ≤ y → 0 < bw → 0 < bh → 0 ≤ radius → x + bw < 2 ^ 32 → y + bh < 2 ^ 32 →
  stays x y bw bh (fill_rounded_rect set (fill_each set) x y bw bh radius c).
Proof using All.
  intros Hx Hy Hw Hh Hr Hbw Hbh. destruct (radius_ok radius bw bh) as (R1 & R2 & R3); [lia..|].
  unfold fill_rounded_rect. cbv zeta. set (rad := corner_radius radius bw bh) in *. clearbody rad.
  rewrite (u32_small (2 * rad)), (u32_small (x + rad)), (u32_small (y + rad)), (u32_small (x + bw)) by lia.
  rewrite (u32_small (bw - 2 * rad)), (u32_small (bh - 2 * rad)), (u32_small (x + bw - rad)) by lia.
  assert (∀ fx fy fw fh, x ≤ fx → fx + fw ≤ x + bw → y ≤ fy → fy + fh ≤ y + bh → 0 ≤ fw → 0 ≤ fh →
    stays x y bw bh (fill_each set fx fy fw fh c)) as Hfill.
  { intros fx fy fw fh ? ? ? ? ? ?. eapply stays_paints; [apply paints_fill; lia|].
    intros px py c' (_ & Hp)%box_color_Some. apply in_box_true. lia. }
  apply (stays_then x y bw bh (λ s, _)); [|by apply stays_corners; lia].
  apply (stays_then x y bw bh (λ s, _)); [|apply Hfill; lia].
  apply (stays_then x y bw bh (λ s, _)); apply Hfill; lia.
Qed.

Lemma stays_border x y bw bh above below :
  0 ≤ x → 0 ≤ y → 0 < bw → 0 < bh → x + bw < 2 ^ 32 → y + bh < 2 ^ 32 → stays x y bw bh (draw_border set x y bw bh above below).
Proof using All.
  intros Hx Hy Hw Hh Hbw Hbh. unfold draw_border. cbv zeta.
  rewrite (u32_small (x + bw)), (u32_small (y + bh)) by lia. rewrite (u32_small (x + bw - 1)), (u32_small (y + bh - 1)) by lia.
  apply (stays_then x y bw bh (λ s, _)); [|apply stays_vline; lia].
  apply (stays_then x y bw bh (λ s, _)); [|apply stays_hline; lia].
  apply (stays_then x y bw bh (λ s, _)); [apply stays_hline; lia|apply stays_vline; lia].
Qed.

End Stays.

(** A rounded box in the back buffer leaves the pixels outside its rectangle alone. *)
Lemma rounded_box_stays x y bw bh radius c s :
  screen_ok s → 0 ≤ x → 0 ≤ y → 0 < bw → 0 < bh → 0 ≤ radius → x + bw < 2 ^ 32 → y + bh < 2 ^ 32 →
  ∀ px py, 0 ≤ px < width (fb s) → 0 ≤ py < height (fb s) → in_box x y bw bh px py = false →
  bb_pixel px py (bb_fill_rounded_rect x y bw bh radius c s) = bb_pixel px py s ∧
  bb_pixel px py (bb_draw_rounded_rect x y bw bh radius c s) = bb_pixel px py s.
Proof.
  intros Hs Hx Hy Hw Hh Hr Hbx Hby px py Hpx Hpy Hb. split.
  - destruct (radius_ok radius bw bh) as (R1 & R2 & R3); [lia..|].
    assert (bb_fill_rounded_rect x y bw bh radius c s = fill_rounded_rect bb_set_pixel (fill_each bb_set_pixel) x y bw bh radius c s) as ->.
    { unfold bb_fill_rounded_rect, fill_rounded_rect. cbv zeta. set (rad := corner_radius radius bw bh) in *. clearbody rad.
      rewrite (u32_small (2 * rad)), (u32_small (x + rad)), (u32_small (y + rad)), (u32_small (x + bw)) by lia.
      rewrite (u32_small (bw - 2 * rad)), (u32_small (bh - 2 * rad)), (u32_small (x + bw - rad)) by lia.
      unfold bb_fill_rect, fill_each. rewrite !fill_rows_each by lia. unfold for_range. by rewrite !Z.sub_0_r. }
    by apply (stays_rounded_fill (Canvas0 := bb_canvas (fb s)) x y bw bh radius c Hx Hy Hw Hh Hr Hbx Hby s (conj Hs eq_refl)).
  - by apply (stays_rounded_outline (Canvas0 := bb_canvas (fb s)) x y bw bh radius c Hx Hy Hw Hh Hr Hbx Hby s (conj Hs eq_refl)).
Qed.

(** ** Blending *)

Definition color_ok (c : Color) : Prop := is_byte (red c) ∧ is_byte (green c) ∧ is_byte (blue c) ∧ is_byte (alpha c).

(** The usual layout of a pixel, as [init] sets it. *)
Definition rgb_layout (f : Framebuffer) : Prop := red_shift f = 16 ∧ green_shift f = 8 ∧ blue_shift f = 0.

Lemma blend_channel_between al x y : is_byte al → is_byte x → is_byte y → Z.min x y ≤ blend_channel al x y ≤ Z.max x y.
Proof.
  unfold is_byte. intros Hal Hx Hy. unfold blend_channel. rewrite u32_small by nia.
  assert (Z.min x y ≤ (x * al + y * (255 - al)) / 255 ≤ Z.max x y) as H.
  { split; [apply Z.div_le_lower_bound; nia|]. apply Z.div_le_upper_bound; nia. }
  unfold u8. rewrite wrap_small; [done|]. unfold in_range. lia.
Qed.

Lemma pack_sum f c : rgb_layout f → color_ok c → pack f c = blue c + green c * 2 ^ 8 + red c * 2 ^ 16.
Proof.
  intros (E1 & E2 & E3) (Hr & Hg & Hb & _). unfold is_byte in *. unfold pack, shl32. rewrite E1, E2, E3.
  change (Z.land 16 31) with 16. change (Z.land 8 31) with 8. change (Z.land 0 31) with 0.
  rewrite !Z.shiftl_mul_pow2 by lia. rewrite !u32_small by lia. rewrite <- !Z.shiftl_mul_pow2 by lia. rewrite Z.shiftl_0_r.
  assert (∀ R G B, Z.lor (Z.lor R G) B = Z.lor (Z.lor B G) R) as E.
  { intros R G B. apply Z.bits_inj'. intros n _. rewrite !Z.lor_spec. by destruct (Z.testbit R n), (Z.testbit G n), (Z.testbit B n). }
  rewrite E, (lor_shiftl (blue c)) by lia. rewrite lor_shiftl; [by rewrite !Z.shiftl_mul_pow2 by lia|lia|lia].
Qed.

Lemma channel_byte v k : 0 ≤ k < 32 → channel v k = v / 2 ^ k mod 256.
Proof.
  intros Hk. unfold channel. change 31 with (Z.ones 5). rewrite Z.land_ones, Z.mod_small by lia.
  rewrite Z.shiftr_div_pow2 by lia. change 0xFF with (Z.ones 8). by rewrite Z.land_ones by lia.
Qed.

(** The colour of a pixel. *)
Definition unpack (f : Framebuffer) (v : Z) : Color := rgb (channel v (red_shift f)) (channel v (green_shift f)) (channel v (blue_shift f)).

Lemma unpack_pack f c : rgb_layout f → color_ok c → unpack f (pack f c) = rgb (red c) (green c) (blue c).
Proof.
  intros Hf Hc. unfold unpack. rewrite (pack_sum f c Hf Hc). destruct Hf as (E1 & E2 & E3). destruct Hc as (Hr & Hg & Hb & _).
  unfold is_byte in *. rewrite E1, E2, E3, !channel_byte by lia. unfold rgb. f_equal; zdiv.
Qed.

Lemma alpha_shows x y top under s :
  screen_ok s → rgb_layout (fb s) → color_ok top → color_ok under → alpha under = 255 →
  0 ≤ x < width (fb s) → 0 ≤ y < height (fb s) →
  unpack (fb s) (bb_pixel x y (set_pixel_alpha x y top (bb_set_pixel x y under s))) = blend top under.
Proof.
  intros Hs Hf Ht Hu Hua Hx Hy. destruct (index_ok s x y Hs Hx Hy) as [Ei Hlt].
  assert (bb_set_pixel x y under s = bb_store x y (pack (fb s) under) s) as ->.
  { unfold bb_set_pixel. rewrite (proj2 (Z.leb_gt _ _)) by lia. by rewrite (proj2 (Z.leb_gt _ _)) by lia. }
  set (s1 := bb_store x y (pack (fb s) under) s). assert (back s1 !! bb_index x y s1 = Some (pack (fb s) under)) as El.
  { subst s1. cbn. by apply list_lookup_insert_eq. }
  assert (∀ v, bb_pixel x y (bb_store x y v s1) = v) as Hst.
  { intros v. unfold bb_pixel, bb_store. cbn [back set_back fb]. rewrite nth_insert by (subst s1; cbn; by rewrite length_insert).
    change (bb_index x y s1) with (bb_index x y s). rewrite decide_True by (rewrite Ei; done). done. }
  assert (bb_pixel x y s1 = pack (fb s) under) as Hold.
  { unfold bb_pixel. rewrite nth_lookup. change (width (fb s1)) with (width (fb s)). rewrite <- Ei.
    change (bb_index x y s) with (bb_index x y s1). by rewrite El. }
  pose proof (unpack_pack (fb s) under Hf Hu) as Eu. assert (rgb (red under) (green under) (blue under) = under) as Eun.
  { destruct under as [ur ug ub ua]. cbn in *. by subst ua. }
  unfold set_pixel_alpha. cbv zeta. change (fb s1) with (fb s).
  rewrite (proj2 (Z.leb_gt _ _)) by lia. rewrite (proj2 (Z.leb_gt (height _) _)) by lia. cbn [orb]. rewrite El.
  unfold unpack in Eu. cbn [channel] in Eu. unfold blend. destruct (Z.eqb_spec (alpha top) 0) as [H0|H0].
  - rewrite H0, Hold. change (0 =? 255) with false. cbn [orb]. by rewrite <- Eun at 2.
  - destruct (Z.eqb_spec (alpha top) 255) as [H1|H1]; rewrite Hst.
    + rewrite unpack_pack by done. destruct top as [tr tg tb ta]. cbn in *. by subst ta.
    + rewrite Eu, Eun.
      destruct Ht as (T1 & T2 & T3 & T4). destruct Hu as (U1 & U2 & U3 & _).
      pose proof (blend_channel_between _ _ _ T4 T1 U1). pose proof (blend_channel_between _ _ _ T4 T2 U2).
      pose proof (blend_channel_between _ _ _ T4 T3 U3). unfold is_byte in *.
      rewrite unpack_pack by (done || (unfold color_ok, is_byte; cbn; lia)). done.
Qed.

(** Drawing a colour over another one mixes them: every channel lies between the
    two, an opaque colour hides the other and a transparent one leaves it; nothing
    else of the buffer changes. *)
Theorem blend_over x y top under s :
  screen_ok s → rgb_layout (fb s) → color_ok top → color_ok under → alpha under = 255 →
  0 ≤ x < width (fb s) → 0 ≤ y < height (fb s) →
  let shown := unpack (fb s) (bb_pixel x y (set_pixel_alpha x y top (bb_set_pixel x y under s))) in
  shown = blend top under ∧
  Z.min (red top) (red under) ≤ red shown ≤ Z.max (red top) (red under) ∧
  Z.min (green top) (green under) ≤ green shown ≤ Z.max (green top) (green under) ∧
  Z.min (blue top) (blue under) ≤ blue shown ≤ Z.max (blue top) (blue under) ∧
  (alpha top = 255 → shown = top) ∧ (alpha top = 0 → shown = under).
Proof.
  intros Hs Hf Ht Hu Hua Hx Hy shown.
  assert (shown = blend top under) as E by (by apply alpha_shows).
  rewrite E. destruct Ht as (T1 & T2 & T3 & T4). destruct Hu as (U1 & U2 & U3 & _).
  pose proof (blend_channel_between _ _ _ T4 T1 U1). pose proof (blend_channel_between _ _ _ T4 T2 U2).
  pose proof (blend_channel_between _ _ _ T4 T3 U3). split; [done|]. unfold blend.
  destruct (Z.eqb_spec (alpha top) 255); [split_and!; try lia; done|]. destruct (Z.eqb_spec (alpha top) 0); [split_and!; try lia; done|].
  cbn. split_and!; lia.
Qed.

(** ** A screen of 16 by 16 pixels *)

Module GraphicsExample.

Definition screen : Gfx := init_back_buffer 16 16 (init 4096 16 16 68 32 (mkGfx ∅ Framebuffer_new [] 0 0)).

Lemma screen_good : screen_ok screen.
Proof.
  split; try (cbn; lia); [done..|]. by apply Forall_replicate.
Qed.

Definition letters : list Z := bytes_of_string "ABC".

Lemma fill_rect_each_witness : bb_fill_rect 10 12 20 20 WHITE screen = fill_each bb_set_pixel 10 12 20 20 WHITE screen.
Proof. apply fill_rect_each; lia. Defined.

(** A rectangle that starts left of the screen is dropped by the clipped loop and cut
    by the plain one. *)
Lemma fill_rect_negative :
  bb_fill_rect (u32 (-4)) 0 8 1 WHITE screen = screen ∧
  bb_pixel 3 0 (fill_each bb_set_pixel (u32 (-4)) 0 8 1 WHITE screen) = 0xFFFFFF.
Proof. split; by vm_compute. Qed.

Lemma swap_shows_witness : fb_pixel 3 2 (swap_buffers (bb_set_pixel 3 2 WHITE screen)) = 0xFFFFFF.
Proof.
  destruct (swap_shows (bb_set_pixel 3 2 WHITE screen)) as (H & _).
  - apply (cv_good (Canvas := bb_canvas (fb screen)) screen 3 2 WHITE (conj screen_good eq_refl)).
  - done.
  - rewrite H by (cbn; lia). by vm_compute.
Defined.

Lemma text_on_screen_witness :
  fb_pixel 3 1 (swap_buffers (bb_draw_string 0 0 letters WHITE None screen)) = 0xFFFFFF ∧
  fb_pixel 3 1 (fb_draw_string 0 0 letters WHITE None screen) = 0xFFFFFF.
Proof.
  destruct (text_on_screen 0 0 letters WHITE None screen 3 1 screen_good) as [H1 H2]; [lia|lia|lia|cbn; lia|cbn; lia|].
  split; [rewrite H1|rewrite H2]; by vm_compute.
Defined.

Lemma blend_over_witness :
  blend (rgba 255 0 0 128) (rgb 0 0 255) = rgb 128 0 127 ∧
  unpack (fb screen) (bb_pixel 5 5 (set_pixel_alpha 5 5 (rgba 255 0 0 128) (bb_set_pixel 5 5 (rgb 0 0 255) screen))) = rgb 128 0 127.
Proof.
  split; [by vm_compute|].
  destruct (blend_over 5 5 (rgba 255 0 0 128) (rgb 0 0 255) screen screen_good) as [H _];
    [done|unfold color_ok, is_byte; cbn; lia|unfold color_ok, is_byte; cbn; lia|done|cbn; lia|cbn; lia|].
  exact H.
Defined.

(** With 24 bits per pixel the rows are copied as if a pixel of the back buffer had
    three bytes: the second pixel starts with the fourth byte of the first. *)
Definition screen24 : Gfx := init_back_buffer 2 1 (init 4096 2 1 6 24 (mkGfx ∅ Framebuffer_new [] 0 0)).

Lemma swap_24_bits :
  map (mem_byte (memory (swap_buffers (bb_fill_rect 0 0 2 1 WHITE screen24)))) [4096; 4097; 4098; 4099; 4100; 4101] = [255; 255; 255; 0; 255; 255].
Proof. by vm_compute. Qed.

End GraphicsExample.
