(* ===== verification/Draw.v ===== *)
(** * Drawing the desktop: [gui/mod.rs], the drawing half

    A drawing function is the list of the calls it makes on the back buffer ([Draw]),
    and [perform] makes them.  Sums of coordinates are taken modulo 2^32 once, when
    the call is made; where the source divides or compares, the wrap is written out.
    A slice inside a character panics; wrapping a line to no columns never ends
    ([None]).  What the system window shows of the other parts of the kernel is the
    argument [Facts]. *)

From S2P Require Import Prelude Bytes Str Files CottonFS Html Layout Graphics ShellText Editor Windows Desktop.

#[local] Notation "'b' s" := (bytes_of_string s) (at level 9, s at level 9, only parsing).

(** ** The calls *)

Inductive Draw : Type :=
| FillRect (x y w h : Z) (c : Color)
| Outline (x y w h : Z) (c : Color)
| FillRounded (x y w h radius : Z) (c : Color)
| Rounded (x y w h radius : Z) (c : Color)
| HLine (x y n : Z) (c : Color)
| Circle (cx cy radius : Z) (c : Color)
| Str (x y : Z) (text : list Z) (fg : Color) (bg : option Color)
| Dot (x y : Z) (c : Color).

#[export] Instance Draw_eq_dec : EqDecision Draw.
Proof. solve_decision. Defined.

Definition perform (d : Draw) : Gfx → Gfx :=
  match d with
  | FillRect x y w h c => bb_fill_rect (u32 x) (u32 y) (u32 w) (u32 h) c
  | Outline x y w h c => bb_draw_rect (u32 x) (u32 y) (u32 w) (u32 h) c
  | FillRounded x y w h r c => bb_fill_rounded_rect (u32 x) (u32 y) (u32 w) (u32 h) r c
  | Rounded x y w h r c => bb_draw_rounded_rect (u32 x) (u32 y) (u32 w) (u32 h) r c
  | HLine x y n c => bb_draw_hline (u32 x) (u32 y) (u32 n) c
  | Circle x y r c => bb_fill_circle (u32 x) (u32 y) r c
  | Str x y text fg bg => bb_draw_string (u32 x) (u32 y) text fg bg
  | Dot x y c => bb_set_pixel (u32 x) (u32 y) c
  end.

Definition perform_all (ds : list Draw) (s : Gfx) : Gfx := foldl (λ s d, perform d s) s ds.

(** Lists of calls that may not come to an end, or panic. *)
Definition Picture : Type := option (res (list Draw)).

Definition draws (ds : list Draw) : Picture := Some (Ok ds).

Definition both (p q : Picture) : Picture := r ← p; r' ← q; Some (ds ← r; es ← r'; Ok (ds ++ es)).

Fixpoint all_of (ps : list Picture) : Picture :=
  match ps with [] => draws [] | p :: ps => both p (all_of ps) end.

(** ** The background *)

(** The letters of the logo. *)
Definition logo_bitmap (c : Z) : list Z :=
  if c =? 99 then [0; 0; 0; 0; 0x3C; 0x66; 0x60; 0x60; 0x60; 0x60; 0x66; 0x3C; 0; 0; 0; 0]
  else if c =? 111 then [0; 0; 0; 0; 0x3C; 0x66; 0x66; 0x66; 0x66; 0x66; 0x66; 0x3C; 0; 0; 0; 0]
  else if c =? 116 then [0; 0; 0x18; 0x18; 0x7E; 0x18; 0x18; 0x18; 0x18; 0x18; 0x18; 0x0E; 0; 0; 0; 0]
  else if c =? 110 then [0; 0; 0; 0; 0x7C; 0x66; 0x66; 0x66; 0x66; 0x66; 0x66; 0x66; 0; 0; 0; 0]
  else if c =? 79 then [0; 0x3C; 0x66; 0x66; 0x66; 0x66; 0x66; 0x66; 0x66; 0x66; 0x66; 0x3C; 0; 0; 0; 0]
  else if c =? 83 then [0; 0x3C; 0x66; 0x60; 0x60; 0x3C; 0x06; 0x06; 0x06; 0x06; 0x66; 0x3C; 0; 0; 0; 0]
  else replicate 16 0.

Definition draw_scaled_char (x y c : Z) (color : Color) (scale : Z) : list Draw :=
  concat (imap (λ row bits,
    seqZ 0 8 ≫= λ col,
      if Z.land (Z.shiftr bits (7 - col)) 1 =? 1
      then [FillRect (x + col * scale) (y + Z.of_nat row * scale) scale scale color] else [])
    (logo_bitmap c)).

Definition draw_cottonos_logo (bw bh : Z) : list Draw :=
  let text := b "cottonOS" in
  let scale := 4 in
  let char_w := 8 * scale in
  let char_h := 16 * scale in
  let x := u32 (bw - len text * char_w) / 2 in
  let y := u32 (bh - char_h) / 2 in
  concat (imap (λ i c, draw_scaled_char (x + Z.of_nat i * char_w) y c WHITE scale) text).

Definition draw_background (bw bh : Z) : list Draw :=
  FillRect 0 0 bw bh BLACK :: draw_cottonos_logo bw bh.

(** ** The dock *)

Definition draw_icon (a : IconAction) (x y : Z) : list Draw :=
  match a with
  | OpenTerminal => [FillRounded (x + 8) (y + 8) 32 32 4 (rgb 30 30 32); Str (x + 12) (y + 18) (b ">_") (rgb 80 250 123) None]
  | OpenFiles => [FillRounded (x + 8) (y + 14) 32 24 4 (rgb 100 180 255); FillRounded (x + 8) (y + 10) 14 6 2 (rgb 100 180 255)]
  | OpenEditor =>
      [FillRounded (x + 12) (y + 10) 24 30 3 (rgb 200 200 210); FillRect (x + 16) (y + 18) 16 2 (rgb 80 80 90);
       FillRect (x + 16) (y + 24) 14 2 (rgb 80 80 90); FillRect (x + 16) (y + 30) 12 2 (rgb 80 80 90)]
  | OpenAbout => [Circle (x + 24) (y + 24) 14 ACCENT; Str (x + 20) (y + 17) (b "i") WHITE None]
  | OpenBrowser =>
      [Circle (x + 24) (y + 24) 16 (rgb 20 100 220); HLine (x + 8) (y + 24) 32 (rgb 150 200 255);
       Str (x + 17) (y + 14) (b "W") WHITE None]
  end.

Definition draw_tooltip (x y : Z) (name : list Z) : list Draw :=
  let tooltip_w := len name * 8 + 16 in
  let tooltip_x := x + dock_item_size / 2 - tooltip_w / 2 in
  let tooltip_y := y - 28 in
  [FillRounded tooltip_x tooltip_y tooltip_w 22 6 (rgb 60 60 64); Str (tooltip_x + 8) (tooltip_y + 4) name WHITE None].

Definition draw_dock_item (x y : Z) (hovered : bool) (name : list Z) (a : IconAction) : list Draw :=
  let y := if hovered then y - 8 else y in
  FillRounded x y dock_item_size dock_item_size 10 (rgb 72 72 76) :: draw_icon a x y
    ++ (if hovered then draw_tooltip x y name else []).

Definition draw_dock (bw bh : Z) (g : GuiState) : list Draw :=
  let n := len (dock_items g) in
  let dw := n * dock_item_size + (n + 1) * dock_spacing + dock_padding * 2 in
  let dh := dock_item_size + dock_padding * 2 in
  let x := u32 (bw - dw) / 2 in
  let y := bh - dh - 8 in
  [FillRounded x y dw dh 12 (rgb 50 50 54); Rounded x y dw dh 12 (rgb 80 80 84)] ++
  concat (imap (λ i '(name, a),
    draw_dock_item (x + dock_padding + dock_spacing + Z.of_nat i * (dock_item_size + dock_spacing)) (y + dock_padding)
      (bool_decide (hovered_dock g = Some i)) name a) (dock_items g)).

(** ** System information *)

(** What the window shows of the rest of the kernel. *)
Record Facts : Type := mkFacts {
  mem_total : Z; mem_used : Z; mem_free : Z;
  storage : option StorageInfo;
  fb_width : Z; fb_height : Z;
  cwd : list Z;
}.

(** A row of the page, with what it adds to the vertical position. *)
Inductive AboutRow : Type :=
| Head (t : list Z) (skip : Z)
| Pair (t value : list Z) (c : Color) (skip : Z)
| Separator
| Space (n : Z)
| UsageBar (percent : Z).

Definition megabytes (n : Z) : list Z := decimal (n / (1024 * 1024)) ++ b " MB".

Definition storage_rows (s : option StorageInfo) : list AboutRow :=
  match s with
  | Some i =>
      [Pair (b "Total:") (format_bytes (si_total_bytes i)) TEXT_PRIMARY 18;
       Pair (b "Used:") (format_bytes (si_used_bytes i)) TEXT_PRIMARY 18;
       Pair (b "Free:") (format_bytes (si_free_bytes i)) TEXT_PRIMARY 18;
       Pair (b "Usage:") (decimal (usage_percent i) ++ b "%") TEXT_PRIMARY 18;
       Pair (b "Files:") (decimal (si_used_inodes i) ++ b "/" ++ decimal (si_total_inodes i)) TEXT_PRIMARY 18;
       UsageBar (usage_percent i)]
  | None => [Pair (b "Status:") (b "RAM only") (rgb 255 180 80) 18]
  end.

Definition about_rows (f : Facts) : list AboutRow :=
  [Head (b "System Info") 26; Separator;
   Pair (b "OS:") (b "CottonOS v0.1.0") TEXT_PRIMARY 18; Pair (b "Arch:") (b "x86_64") TEXT_PRIMARY 18;
   Pair (b "Kernel:") (b "CottonOS Kernel") TEXT_PRIMARY 26; Separator;
   Head (b "Memory") 18; Pair (b "Total:") (megabytes (mem_total f)) TEXT_PRIMARY 18;
   Pair (b "Used:") (megabytes (mem_used f)) TEXT_PRIMARY 18; Pair (b "Free:") (megabytes (mem_free f)) TEXT_PRIMARY 26; Separator;
   Head (b "Storage") 18] ++ storage_rows (storage f) ++
  [Space 4; Separator;
   Head (b "Display") 18; Pair (b "Res:") (decimal (fb_width f) ++ b "x" ++ decimal (fb_height f)) TEXT_PRIMARY 18;
   Pair (b "Color:") (b "32-bit RGBA") TEXT_PRIMARY 26; Separator;
   Head (b "Devices") 18; Pair (b "Keyboard:") (b "PS/2") TEXT_PRIMARY 18; Pair (b "Mouse:") (b "PS/2 + Scroll") TEXT_PRIMARY 0].

Section About.
(** The content's box, the width without the scroll bar, and its vertical range as [i32]. *)
Context (content_x : Z) (inner_w : Z) (top bottom : Z).

Definition about_text (x y : Z) (t : list Z) (c : Color) : list Draw :=
  if (top - 16 <=? y) && (y <? bottom) then [Str x y t c None] else [].

Definition usage_bar (percent y : Z) : list Draw :=
  if (top <=? y) && (y + 12 <? bottom) then
    let bar_width := u32 (inner_w - 48) in
    let used_width := Z.min (u32 (u32 percent * bar_width) / 100) bar_width in
    let color := if 90 <? percent then rgb 255 80 80 else if 70 <? percent then rgb 255 180 80 else ACCENT in
    FillRounded (content_x + 12) y bar_width 12 4 (rgb 50 50 54) ::
    (if 0 <? used_width then [FillRounded (content_x + 12) y used_width 12 4 color] else [])
  else [].

(** A row at [y], and the position of the next one. *)
Definition about_row (r : AboutRow) (y : Z) : list Draw * Z :=
  match r with
  | Head t skip => (about_text (content_x + 12) y t ACCENT, y + skip)
  | Pair t v c skip => (about_text (content_x + 12) y t TEXT_SECONDARY ++ about_text (content_x + 100) y v c, y + skip)
  | Separator =>
      ((if (top <=? y) && (y <? bottom) then [HLine (content_x + 12) y (inner_w - 24) (rgb 60 60 62)] else []), y + 12)
  | Space n => ([], y + n)
  | UsageBar percent => (usage_bar percent (y + 4), y + 4 + 12 + 8)
  end.

Fixpoint about_page (rows : list AboutRow) (y : Z) : list Draw :=
  match rows with [] => [] | r :: rows => let '(ds, y) := about_row r y in ds ++ about_page rows y end.
End About.

Definition scrollbar_width : Z := 10.
Definition total_content_height : Z := 450.

Definition about_scrollbar (x y w h scroll : Z) : list Draw :=
  let max_scroll := Z.max (total_content_height - to_signed 32 h + 20) 0 in
  if 0 <? max_scroll then
    let bar_x := x + w - scrollbar_width - 2 in
    let track := u32 (h - 8) in
    let clamped := Z.max (Z.min scroll max_scroll) 0 in
    let thumb_h := Z.min (Z.max (u32 (h * track) / total_content_height) 30) (u32 (track - 10)) in
    let travel := u32 (track - thumb_h) in
    let thumb_y := y + 4 + Z.min (u32 (clamped * travel) / max_scroll) travel in
    [FillRounded bar_x (y + 4) scrollbar_width track 4 (rgb 50 50 54);
     FillRounded bar_x thumb_y scrollbar_width thumb_h 4 (rgb 100 100 105)]
  else [].

Definition draw_about (f : Facts) (a : AboutState) (x y w h : Z) : list Draw :=
  let top := to_signed 32 y in
  FillRect x y w h (rgb 30 30 32) ::
  about_page x (u32 (w - scrollbar_width - 4)) top (to_signed 32 (y + h)) (about_rows f) (top + 12 - about_scroll a) ++
  about_scrollbar x y w h (about_scroll a).

(** ** The terminal *)

(** A line in pieces of [max] bytes; with no columns the loop of the source does not end. *)
Fixpoint wrap_text (fuel : nat) (max : nat) (line : list Z) : option (res (list (list Z))) :=
  match fuel with
  | O => None
  | S fuel =>
      if decide (line = []) then Some (Ok [])
      else if decide (length line ≤ max)%nat then Some (Ok [line])
      else
        match str_split_at max line with
        | Ok (first, rest) => r ← wrap_text fuel max rest; Some (ps ← r; Ok (first :: ps))
        | Err e => Some (Err e)
        | Panic => Some Panic
        end
  end.

Definition wrap_line (max : nat) (line : list Z) : option (res (list (list Z))) :=
  if decide (line = []) then Some (Ok [[]]) else wrap_text (S (length line)) max line.

Fixpoint wrap_lines (max : nat) (ls : list (list Z)) : option (res (list (list Z))) :=
  match ls with
  | [] => Some (Ok [])
  | l :: ls => r ← wrap_line max l; r' ← wrap_lines max ls; Some (ps ← r; qs ← r'; Ok (ps ++ qs))
  end.

Definition prompt_of (dir : list Z) : list Z := dir ++ b "> ".

(** The lines on display: the output, and the input behind its prompt, whose first
    piece is marked. *)
Definition display_lines (max : nat) (dir : list Z) (t : TerminalState) : option (res (list (list Z * bool))) :=
  r ← wrap_lines max (Str.lines (term_buffer t));
  r' ← wrap_text (S (length (prompt_of dir ++ term_input t))) max (prompt_of dir ++ term_input t);
  Some (output ← r; input ← r';
    Ok (map (λ l, (l, false)) output ++ imap (λ i l, (l, bool_decide (i = O))) input)).

(** The first and the last line on the screen. *)
Definition visible_range (total max_visible scroll : Z) : Z * Z :=
  let visible_count := Z.min max_visible total in
  let end_line := if scroll <? total then total - scroll else total in
  (if visible_count <? end_line then end_line - visible_count else 0, end_line).

Definition term_bg : Color := rgb 22 22 24.
Definition term_fg : Color := rgb 220 220 220.
Definition prompt_color : Color := rgb 102 217 239.

Definition draw_terminal_line (x y : Z) (prompt line : list Z) (prompted : bool) : res (list Draw) :=
  if prompted then
    if len prompt <=? len line then
      '(p, rest) ← str_split_at (length prompt) line;
      Ok [Str x y p prompt_color (Some term_bg); Str (x + len prompt * 8) y rest term_fg (Some term_bg)]
    else Ok [Str x y line prompt_color (Some term_bg)]
  else Ok [Str x y line term_fg (Some term_bg)].

(** The lines from position [i] on, at row [row]; [input_at] is the last line on the
    screen, [bottom] the end of the content. *)
Fixpoint draw_terminal_lines (x y bottom : Z) (prompt : list Z) (input_at : Z) (ls : list (list Z * bool)) (i row : Z) : res (list Draw) :=
  match ls with
  | [] => Ok []
  | (line, is_prompt) :: ls =>
      if u32 bottom <? u32 (y + row * 14 + 14) then Ok []
      else
        ds ← draw_terminal_line x (y + row * 14) prompt line (is_prompt && (i =? input_at));
        es ← draw_terminal_lines x y bottom prompt input_at ls (i + 1) (row + 1);
        Ok (ds ++ es)
  end.

(** Column and row of the cursor, if it is on the screen. *)
Definition terminal_cursor (max_chars total start_line end_line : Z) (dir : list Z) (t : TerminalState) : option (Z * Z) :=
  let full := len (prompt_of dir) + len (term_input t) in
  let line := u64 (total - 1 - full / max_chars) in
  if (start_line <=? line) && (line <? end_line) then Some (full mod max_chars, line - start_line) else None.

Definition draw_terminal (dir : list Z) (t : TerminalState) (x y w h : Z) : Picture :=
  let max_chars := u32 (w - 12) / 8 in
  r ← display_lines (Z.to_nat max_chars) dir t;
  Some (
    ls ← r;
    let total := len ls in
    let scroll := term_scroll t in
    let '(start_line, end_line) := visible_range total (u32 (h - 8) / 14) scroll in
    text ← draw_terminal_lines (x + 12) (y + 4) (y + h) (prompt_of dir) (total - 1 - Z.min scroll (total - 1))
      (slice start_line (end_line - start_line) ls) start_line 0;
    let cursor :=
      if term_cursor t && (scroll =? 0) then
        match terminal_cursor max_chars total start_line end_line dir t with
        | Some (col, row) => if u32 (x + 12 + col * 8) <? u32 (x + w - 6) then [FillRect (x + 12 + col * 8) (y + 4 + row * 14) 2 14 TEXT_PRIMARY] else []
        | None => []
        end
      else [] in
    let arrow := if 0 <? start_line then [Str (x + w - 20) (y + 4) (b "^") TEXT_SECONDARY (Some term_bg)] else [] in
    Ok (FillRect x y w h term_bg :: text ++ cursor ++ arrow)).

(** ** The file manager *)

Definition compute_path_box_width (content_w : Z) : Z := Z.max (Z.min 320 (sat_sub content_w 48)) 80.

Definition trim_path_for_box (path : list Z) (max_chars : nat) : res (list Z) :=
  if decide (length path ≤ max_chars)%nat then Ok path
  else if decide (max_chars ≤ 3)%nat then Ok (b "...")
  else '(_, t) ← str_split_at (length path - (max_chars - 3)) path; Ok (b "..." ++ t).

Definition fm_actions (x y : Z) (fm : FileManagerState) : list Draw :=
  match selected_entry fm with
  | Some e =>
      if is_dir e then []
      else
        let del_x := x + 86 in
        let open_x := del_x + 64 + 10 in
        [FillRounded del_x (y + 7) 64 22 5 (rgb 220 80 80); Str (del_x + 12) (y + 7 + 4) (b "Delete") WHITE None;
         FillRounded open_x (y + 7) 64 22 5 (rgb 100 150 255); Str (open_x + 12) (y + 7 + 4) (b "Open") WHITE None]
  | None => []
  end.

Definition draw_filemanager_toolbar (x y w : Z) (fm : FileManagerState) : res (list Draw) :=
  let disabled := rgb 80 80 82 in
  let back_color := if (0 <? history_index fm)%nat then TEXT_PRIMARY else disabled in
  let fwd_color := if (history_index fm <? length (history fm) - 1)%nat then TEXT_PRIMARY else disabled in
  let path_w := compute_path_box_width w in
  let path_x := x + w - path_w - 8 in
  shown ← trim_path_for_box (current_path fm) (Z.to_nat ((path_w - 16) / 8));
  Ok ([FillRect x y w 36 (rgb 45 45 48);
       FillRounded (x + 8) (y + 6) 28 24 6 (rgb 60 60 64); Str (x + 16) (y + 10) (b "<") back_color None;
       FillRounded (x + 42) (y + 6) 28 24 6 (rgb 60 60 64); Str (x + 50) (y + 10) (b ">") fwd_color None]
      ++ fm_actions x y fm ++
      [FillRounded path_x (y + 6) path_w 24 6 (rgb 60 60 64); Rounded path_x (y + 6) path_w 24 6 (rgb 80 80 84);
       Str (path_x + 10) (y + 6 + 4) shown TEXT_SECONDARY None]).

Definition icon_size : Z := 48.
Definition cell_w : Z := 90.
Definition cell_h : Z := 80.

Definition fm_icon (dir : bool) (x y : Z) : list Draw :=
  if dir then
    [FillRounded x (y + 12) icon_size (icon_size - 14) 6 (rgb 80 160 240); FillRounded x (y + 6) (icon_size / 2) 10 4 (rgb 80 160 240);
     FillRounded (x + 2) (y + 16) (icon_size - 4) (icon_size - 22) 4 (rgb 100 180 255)]
  else
    [FillRounded (x + 8) y (icon_size - 16) icon_size 4 (rgb 220 220 225); FillRect (x + icon_size - 20) y 12 12 (rgb 180 180 185);
     FillRect (x + 14) (y + 16) (icon_size - 28) 2 (rgb 160 160 165); FillRect (x + 14) (y + 22) (icon_size - 28) 2 (rgb 160 160 165);
     FillRect (x + 14) (y + 28) (icon_size - 36) 2 (rgb 160 160 165)].

(** The name below an icon: twelve bytes, or nine and three dots. *)
Definition shown_name (name : list Z) : res (list Z) :=
  let max_name_chars := Z.to_nat (cell_w / 7) in
  if (max_name_chars <? length name)%nat then
    '(t, _) ← str_split_at (max_name_chars - 3) name; Ok (t ++ b "...")
  else Ok name.

Definition draw_cell (x y : Z) (selected : bool) (e : FileEntry) : res (list Draw) :=
  name ← shown_name (entry_name e);
  let name_x := x + u32 (cell_w - len name * 7) / 2 in
  Ok ((if selected then [FillRounded (x + 8) y (cell_w - 16) (cell_h - 8) 8 (rgb 60 80 100)] else [])
      ++ fm_icon (is_dir e) (x + (cell_w - icon_size) / 2) (y + 4)
      ++ [Str name_x (y + icon_size + 8) name (if selected then WHITE else TEXT_PRIMARY) None]).

Definition fm_cols (w : Z) : Z := Z.max (u32 (w - 24) / cell_w) 1.
Definition fm_rows (h : Z) : Z := u32 (h - 36 - 32) / cell_h.

(** The files from the one at place [k] of the grid, which is number [i], until the
    next row would reach the status bar at [bottom]. *)
Fixpoint draw_cells (x y bottom cols : Z) (sel : option nat) (es : list FileEntry) (k : Z) (i : nat) : res (list Draw) :=
  match es with
  | [] => Ok []
  | e :: es =>
      let cell_x := x + 12 + k mod cols * cell_w in
      let cell_y := y + k / cols * cell_h in
      if u32 bottom <? u32 (cell_y + cell_h) then Ok []
      else
        ds ← draw_cell cell_x cell_y (bool_decide (sel = Some i)) e;
        rest ← draw_cells x y bottom cols sel es (k + 1) (Datatypes.S i);
        Ok (ds ++ rest)
  end.

Definition draw_filemanager (fm : FileManagerState) (x y w h : Z) : res (list Draw) :=
  toolbar ← draw_filemanager_toolbar x y w fm;
  let shown := take (Z.to_nat (fm_cols w * fm_rows h)) (drop (fm_scroll fm) (files fm)) in
  cells ← draw_cells x (y + 36 + 8) (y + h - 24) (fm_cols w) (selected fm) shown 0 (fm_scroll fm);
  Ok ([FillRect x y w h (rgb 30 30 32)] ++ toolbar ++ [HLine x (y + 36) w (rgb 60 60 62)] ++ cells ++
      [FillRect x (y + h - 24) w 24 (rgb 38 38 40); Str (x + 12) (y + h - 24 + 5) (decimal (len (files fm)) ++ b " items") TEXT_SECONDARY None]).

(** ** The text editor *)

Definition file_label (e : Editor) : list Z :=
  match filename e with
  | Some name => match rfind_slash name with Some pos => drop (Datatypes.S pos) name | None => name end
  | None => b "Untitled"
  end.

Definition draw_editor_toolbar (e : Editor) (x y w : Z) : list Draw :=
  let button (empty : bool) := if empty then rgb 70 70 72 else rgb 100 100 105 in
  let file_x := x + w - len (file_label e) * 8 - 40 in
  [FillRect x y w 36 (rgb 36 36 40);
   FillRounded (x + 10) (y + 6) 56 24 4 (rgb 70 130 220); Str (x + 20) (y + 11) (b "Save") WHITE None;
   FillRounded (x + 74) (y + 6) 72 24 4 (rgb 60 160 100); Str (x + 82) (y + 11) (b "Save As") WHITE None;
   FillRounded (x + 154) (y + 6) 52 24 4 (button (bool_decide (undo_stack e = []))); Str (x + 162) (y + 11) (b "Undo") (rgb 180 180 180) None;
   FillRounded (x + 210) (y + 6) 52 24 4 (button (bool_decide (redo_stack e = []))); Str (x + 218) (y + 11) (b "Redo") (rgb 180 180 180) None;
   Str file_x (y + 11) (file_label e) (rgb 160 160 165) None]
  ++ (if modified e then [Circle (file_x - 12) (y + 17) 4 (rgb 255 180 80)] else [])
  ++ [HLine x (y + 35) w (rgb 50 50 55)].

Definition editor_text_h (h : Z) : Z := sat_sub h (36 + 24).
Definition visible_rows (h : Z) : Z := editor_text_h h / 18.
Definition visible_cols (w : Z) : Z := u32 (w - 48 - 8 * 2) / 8.

(** The line number and the characters of a line that are on the screen. *)
Definition draw_editor_line (e : Editor) (x y cols : Z) (idx : nat) (line : list Z) : list Draw :=
  let start := Nat.min (scroll_x e) (length line) in
  Str (x + 4) y (pad_left 4 (decimal (Z.of_nat idx + 1))) (if decide (idx = cursor_line e) then rgb 140 140 145 else rgb 90 90 95) (Some (rgb 30 30 33))
  :: (if (start <? length line)%nat
      then [Str (x + 48 + 8) y (concat (take (Z.to_nat cols) (drop start (chars line)))) (rgb 212 212 212) (Some (rgb 24 24 26))]
      else []).

(** Where the cursor is drawn. *)
Definition cursor_at (e : Editor) (x y w h : Z) : option (Z * Z) :=
  let end_line := Z.min (Z.of_nat (scroll_y e) + visible_rows h) (len (lines e)) in
  let col := Z.of_nat (cursor_col e - scroll_x e) in
  if (scroll_y e <=? cursor_line e)%nat && (Z.of_nat (cursor_line e) <? end_line) && (col <? visible_cols w)
  then Some (x + 48 + 8 + col * 8, y + 36 + 4 + Z.of_nat (cursor_line e - scroll_y e) * 18)
  else None.

Definition draw_editor (e : Editor) (x y w h : Z) : list Draw :=
  let text_h := editor_text_h h in
  let shown := take (Z.to_nat (visible_rows h)) (drop (scroll_y e) (lines e)) in
  let info := decimal (Z.of_nat (line_count e)) ++ b " lines | " ++ decimal (Z.of_nat (char_count e)) ++ b " chars" in
  let status_y := y + h - 24 in
  [FillRect x y w h (rgb 24 24 26)] ++ draw_editor_toolbar e x y w ++
  [FillRect x (y + 36) 48 text_h (rgb 30 30 33); FillRect (x + 48 - 1) (y + 36) 1 text_h (rgb 45 45 50)] ++
  concat (imap (λ row line, draw_editor_line e x (y + 36 + 4 + Z.of_nat row * 18) (visible_cols w) (scroll_y e + row)%nat line) shown) ++
  (match cursor_at e x y w h with
   | Some (cx, cy) => if cursor_visible e then [FillRect cx cy 2 16 (rgb 255 255 255)] else []
   | None => []
   end) ++
  [FillRect x status_y w 24 (rgb 32 32 36); HLine x status_y w (rgb 50 50 55);
   Str (x + 12) (status_y + 5) (b "Ln " ++ decimal (Z.of_nat (cursor_line e) + 1) ++ b ", Col " ++ decimal (Z.of_nat (cursor_col e) + 1)) (rgb 140 140 145) None;
   Str (x + u32 (w - len info * 8) / 2) (status_y + 5) info (rgb 100 100 105) None;
   Str (x + w - 5 * 8 - 12) (status_y + 5) (b "UTF-8") (rgb 100 100 105) None].


(** ** The Save-As dialog *)

Definition folder_color : Color := rgb 100 180 255.

Definition draw_folder_row (x y w : Z) (selected : bool) (name : list Z) : list Draw :=
  (if selected then [FillRect (x + 2) (y - 2) (w - 4) 24 (rgb 60 90 140)] else []) ++
  [FillRounded (x + 8) (y + 2) 16 12 2 folder_color; FillRounded (x + 8) y 8 4 1 folder_color;
   Str (x + 30) (y + 2) name TEXT_PRIMARY None].

(** The rows of the list; the parent directory's is selected by [usize::MAX]. *)
Definition folder_rows (s : SaveAsState) (max_lines : Z) : list (bool * list Z) :=
  let parent :=
    if bool_decide (current_dir s ≠ [Files.slash]) && (0 <? max_lines)
    then [(bool_decide (Z.of_nat <$> sas_selected s = Some (2 ^ 64 - 1)), b ".. (Parent Directory)")] else [] in
  parent ++ imap (λ k d, (bool_decide (sas_selected s = Some (sas_scroll s + k)%nat), entry_name d))
    (take (Z.to_nat max_lines - length parent) (drop (sas_scroll s) (dirs s))).

Definition draw_saveas (s : SaveAsState) (x y w h : Z) : list Draw :=
  let input_bg := rgb 30 30 32 in
  let list_bg := rgb 28 28 30 in
  let box_y := y + 36 + 12 + 18 in
  let label_y := box_y + 28 + 12 in
  let list_x := x + 12 in
  let list_w := w - 24 in
  let list_top := label_y + 24 + 20 in
  let list_h := u32 (h - (list_top - y) - 12) in
  [FillRect x y w h (rgb 36 36 38); FillRect x y w 36 (rgb 50 50 52);
   FillRounded (x + 12) (y + 6) 80 24 5 (rgb 100 150 255); Str (x + 12 + 18) (y + 6 + 6) (b "Save") WHITE None;
   FillRounded (x + 12 + 80 + 12) (y + 6) 80 24 5 (rgb 120 120 120); Str (x + 12 + 80 + 12 + 12) (y + 6 + 6) (b "Cancel") WHITE None;
   Str (x + 12) (y + 36 + 12) (b "Filename:") TEXT_SECONDARY None;
   FillRect (x + 12) box_y (w - 24) 28 input_bg; Outline (x + 12) box_y (w - 24) 28 (rgb 70 70 75);
   Str (x + 12 + 8) (box_y + 7) (sas_filename s) WHITE None;
   FillRect (x + 12 + 8 + len (sas_filename s) * 8) (box_y + 5) 2 (28 - 10) WHITE;
   Str (x + 12) label_y (b "Location: " ++ current_dir s) (rgb 140 140 145) None;
   Str (x + 12) (label_y + 24) (b "Folders:") TEXT_SECONDARY None;
   FillRect list_x list_top list_w list_h list_bg; Outline list_x list_top list_w list_h (rgb 50 50 55)]
  ++ concat (imap (λ row '(sel, name), draw_folder_row list_x (list_top + 4 + Z.of_nat row * 24) list_w sel name) (folder_rows s (list_h / 24)))
  ++ (if bool_decide (dirs s = []) && bool_decide (current_dir s = [Files.slash])
      then [Str (list_x + 12) (list_top + 30) (b "(No subdirectories)") (rgb 100 100 105) None] else []).

(** ** The browser *)

Definition page_bg : Color := rgb 22 22 24.

(** The text of the address bar: the end of a long address. *)
Definition shown_url (max : nat) (url : list Z) : res (list Z) :=
  if (max <? length url)%nat then '(_, t) ← str_split_at (length url - max) url; Ok t else Ok url.

Definition draw_url_bar (br : BrowserState) (x y w : Z) : res (list Draw) :=
  let has_back := bool_decide (visited br ≠ []) in
  let back_bg := if has_back then rgb 48 48 54 else rgb 32 32 36 in
  let back_fg := if has_back then TEXT_PRIMARY else rgb 90 90 95 in
  let url_x := x + 4 + 26 + 4 in
  let url_w := sat_sub w (8 + 26 + 4) in
  let bar_bg := if url_focused br then rgb 50 50 58 else rgb 38 38 42 in
  let caret (at_x : Z) := if url_focused br then [FillRect at_x (y + 7) 2 16 ACCENT] else [] in
  shown ← shown_url (Z.to_nat (sat_sub url_w 20 / 8)) (url_input br);
  Ok ([FillRect (x + 4) (y + 4) 26 28 back_bg; Str (x + 4 + 9) (y + 10) (b "<") back_fg (Some back_bg);
       FillRect url_x (y + 4) url_w 28 bar_bg]
      ++ (if url_focused br then [Outline url_x (y + 4) url_w 28 ACCENT] else [])
      ++ (if bool_decide (url_input br = [])
          then Str (url_x + 6) (y + 8) (if url_focused br then b "Type a URL or search term, then press Enter" else b "Click to search or enter a URL")
                 TEXT_SECONDARY (Some bar_bg) :: caret (url_x + 6)
          else Str (url_x + 6) (y + 8) shown TEXT_PRIMARY (Some bar_bg) :: caret (url_x + 6 + len shown * 8))).

(** Colour, bold, underlined. *)
Definition span_style (s : LaidSpan) : Color * bool * bool :=
  match l_link s with
  | Some _ => (rgb 110 170 255, false, true)
  | None =>
      match l_style s with
      | StHeading => (rgb 245 245 250, true, false)
      | StBold => (rgb 235 235 240, true, false)
      | StPre => (rgb 150 220 150, false, false)
      | StBullet => (rgb 80 200 120, false, false)
      | StNormal => (rgb 210 210 215, false, false)
      end
  end.

Definition draw_span (text_x y : Z) (s : LaidSpan) : list Draw :=
  let '(color, bold, underline) := span_style s in
  let x := text_x + l_col s * 8 in
  Str x y (l_text s) color (Some page_bg)
  :: (if bold then [Str (x + 1) y (l_text s) color None] else [])
  ++ (if underline then [FillRect x (y + 12) (len (l_text s) * 8) 1 color] else []).

Definition draw_page (text_x y : Z) (rows : list (list LaidSpan)) : list Draw :=
  concat (imap (λ row line, concat (map (draw_span text_x (y + Z.of_nat row * 14)) line)) rows).

Definition draw_browser (br : BrowserState) (x y w h : Z) : res (list Draw) :=
  let text_y := y + 28 + 8 in
  let text_h := sat_sub h (28 + 20 + 16) in
  let max_lines := text_h / 14 in
  let total := len (doc_layout br) in
  let start := Z.min (br_scroll br) (sat_sub total 1) in
  let stop := Z.min (start + max_lines) total in
  let status_y := y + h - 20 in
  let hint := decimal (len (doc_links (doc br))) ++ b " links | click to follow" in
  bar ← draw_url_bar br x y w;
  Ok (FillRect x y w h page_bg :: bar ++ [FillRect x text_y w text_h page_bg]
      ++ draw_page (x + 8) text_y (slice start (stop - start) (doc_layout br))
      ++ (if 0 <? start then [Str (x + w - 20) text_y (b "^") TEXT_SECONDARY (Some page_bg)] else [])
      ++ (if stop <? total then [Str (x + w - 20) (text_y + sat_sub max_lines 1 * 14) (b "v") TEXT_SECONDARY (Some page_bg)] else [])
      ++ [FillRect x status_y w 20 (rgb 32 32 36); Str (x + 8) (status_y + 3) (status br) TEXT_SECONDARY None]
      ++ (if bool_decide (doc_links (doc br) = []) then [] else [Str (x + sat_sub w (len hint * 8 + 8)) (status_y + 3) hint TEXT_SECONDARY None])).

(** ** Windows *)

Definition draw_window_content (f : Facts) (win : Window) : Picture :=
  let x := win_x win + 1 in
  let y := win_y win + 32 in
  let w := u32 (Windows.width win - 2) in
  let h := u32 (Windows.height win - 33) in
  match win_content win with
  | Empty => draws [FillRect x y w h WINDOW_BG]
  | Text t => draws [FillRect x y w h WINDOW_BG; Str (x + 16) (y + 16) t TEXT_PRIMARY None]
  | About a => draws (draw_about f a x y w h)
  | Terminal t => draw_terminal (cwd f) t x y w h
  | FileManager fm => Some (draw_filemanager fm x y w h)
  | TextEditor e => draws (draw_editor e x y w h)
  | SaveAs s => draws (draw_saveas s x y w h)
  | Windows.Browser br => Some (draw_browser br x y w h)
  end.

(** The frame, the title bar, the close button and the title. *)
Definition draw_border_and_title (win : Window) : list Draw :=
  let x := win_x win in
  let y := win_y win in
  let w := Windows.width win in
  let h := Windows.height win in
  [FillRounded x y w h 10 (if focused win then rgb 44 44 46 else rgb 38 38 40);
   Rounded x y w h 10 (rgb 68 68 70);
   FillRect (x + 1) (y + 1) (w - 2) 30 (if focused win then rgb 50 50 52 else rgb 44 44 46);
   Circle (x + 14) (y + 10 + 6) 6 CLOSE_BTN;
   Str (x + u32 (w - len (title win) * 8) / 2) (y + 8) (title win) TEXT_SECONDARY None].

Definition draw_window (f : Facts) (win : Window) : Picture :=
  if visible win then both (draws (draw_border_and_title win)) (draw_window_content f win) else draws [].

Definition draw_windows (f : Facts) (g : GuiState) : Picture := all_of (map (draw_window f) (windows g)).

(** ** The pointer *)

(** Black and white dots, row by row. *)
Definition cursor_bitmap : list (list Z) :=
  [[1;1;0;0;0;0;0;0;0;0;0;0;0;0];
   [1;2;1;0;0;0;0;0;0;0;0;0;0;0];
   [1;2;2;1;0;0;0;0;0;0;0;0;0;0];
   [1;2;2;2;1;0;0;0;0;0;0;0;0;0];
   [1;2;2;2;2;1;0;0;0;0;0;0;0;0];
   [1;2;2;2;2;2;1;0;0;0;0;0;0;0];
   [1;2;2;2;2;2;2;1;0;0;0;0;0;0];
   [1;2;2;2;2;2;2;2;1;0;0;0;0;0];
   [1;2;2;2;2;2;2;2;2;1;0;0;0;0];
   [1;2;2;2;2;2;2;2;2;2;1;0;0;0];
   [1;2;2;2;2;2;2;2;2;2;2;1;0;0];
   [1;2;2;2;2;2;2;2;2;2;2;2;1;0];
   [1;2;2;2;2;2;2;1;1;1;1;1;1;1];
   [1;2;2;2;2;2;2;1;0;0;0;0;0;0];
   [1;2;2;1;2;2;2;1;0;0;0;0;0;0];
   [1;2;1;0;1;2;2;2;1;0;0;0;0;0];
   [1;1;0;0;1;2;2;2;1;0;0;0;0;0];
   [1;0;0;0;0;1;2;2;2;1;0;0;0;0];
   [0;0;0;0;0;1;2;2;2;1;0;0;0;0];
   [0;0;0;0;0;0;1;2;2;1;0;0;0;0];
   [0;0;0;0;0;0;1;1;1;0;0;0;0;0]].

Definition cursor_dot (bw bh px py pixel : Z) : list Draw :=
  if (0 <=? px) && (0 <=? py) && (px <? bw) && (py <? bh) then
    if pixel =? 1 then [Dot px py BLACK] else if pixel =? 2 then [Dot px py WHITE] else []
  else [].

Definition draw_cursor_to_bb (bw bh mx my : Z) : list Draw :=
  concat (imap (λ dy row, concat (imap (λ dx pixel, cursor_dot bw bh (mx + Z.of_nat dx) (my + Z.of_nat dy) pixel) row)) cursor_bitmap).

(** ** A frame *)

Definition draw_desktop_static (f : Facts) (g : GuiState) (bw bh : Z) : Picture :=
  both (draws (draw_background bw bh)) (both (draws (draw_dock bw bh g)) (draw_windows f g)).

(** Everything to the back buffer, in this order, which is then put on the screen. *)
Definition draw_frame (f : Facts) (g : GuiState) (bw bh mx my : Z) : Picture :=
  both (draw_desktop_static f g bw bh) (draws (draw_cursor_to_bb bw bh mx my)).

Definition show_frame (f : Facts) (g : GuiState) (mx my : Z) (s : Gfx) : option (res Gfx) :=
  r ← draw_frame f g (bb_width s) (bb_height s) mx my;
  Some (ds ← r; Ok (swap_buffers (perform_all ds s))).
