(* ===== verification/DrawSpec.v ===== *)
(** * What the desktop shows

    The calls that draw a window stay in the box of the window ([inside_stays]) and
    depend, at a pixel, on that pixel alone ([perform_alike]); so the screen shows at a
    point what the window that a click there reaches draws ([click_what_is_seen]).  A
    terminal draws in its box, whatever it holds ([terminal_fits]); in the editor and
    in the file manager a click reaches what is drawn under it. *)

From S2P Require Import Prelude Bytes Str Vfs Files Html Layout Graphics GraphicsSpec ShellText Editor EditorSpec Windows Desktop DesktopSpec Draw.

(** ** A pixel depends on that pixel *)

Section Alike.
Context (f : Framebuffer) (px py : Z).
Context (Hpx : 0 ≤ px < Graphics.width f) (Hpy : 0 ≤ py < Graphics.height f).

(** Two screens of the same mode that agree on the pixel. *)
Definition alike (s s' : Gfx) : Prop :=
  (screen_ok s ∧ fb s = f) ∧ (screen_ok s' ∧ fb s' = f) ∧ bb_pixel px py s = bb_pixel px py s'.

Lemma alike_fb s s' : alike s s' → fb s = f ∧ fb s' = f.
Proof using Type. by intros ((_ & ?) & (_ & ?) & _). Qed.

Lemma alike_refl s : screen_ok s → fb s = f → alike s s.
Proof using Type. done. Qed.

Lemma alike_set x y c s s' : 0 ≤ x → 0 ≤ y → alike s s' → alike (bb_set_pixel x y c s) (bb_set_pixel x y c s').
Proof using All.
  intros Hx Hy (G & G' & E). split; [by apply (cv_good (Canvas := bb_canvas f))|]. split; [by apply (cv_good (Canvas := bb_canvas f))|].
  etrans; [by apply (cv_pixel (Canvas := bb_canvas f) s)|]. symmetry. etrans; [by apply (cv_pixel (Canvas := bb_canvas f) s')|].
  by rewrite E.
Qed.

Lemma alike_iter n : ∀ i m s s', (∀ j t t', alike t t' → alike (m j t) (m j t')) → alike s s' → alike (iter_from n i m s) (iter_from n i m s').
Proof using Type. induction n as [|n IH]; intros i m s s' Hm H; cbn [iter_from]; [done|]. apply IH; [done|]. by apply Hm. Qed.

Lemma alike_range lo hi m s s' :
  (∀ j t t', alike t t' → alike (m j t) (m j t')) → alike s s' → alike (for_range lo hi m s) (for_range lo hi m s').
Proof using Type. intros. unfold for_range. by apply alike_iter. Qed.

Lemma u32_nonneg z : 0 ≤ u32 z.
Proof using Type. by apply wrap_range. Qed.

Ltac alike :=
  repeat (cbv zeta; first
    [ assumption
    | match goal with
      | |- alike (bb_set_pixel _ _ _ _) _ => apply alike_set; [by apply u32_nonneg || assumption|by apply u32_nonneg || assumption|]
      | |- alike (for_range _ _ _ _) _ => apply alike_range; [intros ? ? ? ?|]
      | |- alike (if ?b then _ else _) _ => destruct b
      | |- alike (match ?b with Some _ => _ | None => _ end) _ => destruct b
      end ]).

Lemma alike_fill_row n : ∀ dx x y c s s', 0 ≤ y < Graphics.height f → alike s s' →
  alike (fill_row n dx x y (pack f c) s) (fill_row n dx x y (pack f c) s').
Proof using All.
  induction n as [|n IH]; intros dx x y c s s' Hy H; cbn [fill_row]; [done|]. destruct (alike_fb s s' H) as [F F'].
  rewrite F, F'. destruct (Z.leb_spec (Graphics.width f) (u32 (x + dx))) as [Hw|Hw]; [done|].
  assert (∀ t, fb t = f → bb_store (u32 (x + dx)) y (pack f c) t = bb_set_pixel (u32 (x + dx)) y c t) as E.
  { intros t Ht. unfold bb_set_pixel. rewrite Ht, !(proj2 (Z.leb_gt _ _)) by lia. done. }
  apply IH; [done|]. rewrite !E by done. apply alike_set; [apply u32_nonneg|lia|done].
Qed.

Lemma alike_fill_rows n : ∀ dy x y w c s s', alike s s' →
  alike (fill_rows n dy x y w (pack f c) s) (fill_rows n dy x y w (pack f c) s').
Proof using All.
  induction n as [|n IH]; intros dy x y w c s s' H; cbn [fill_rows]; [done|]. destruct (alike_fb s s' H) as [F F'].
  rewrite F, F'. destruct (Z.leb_spec (Graphics.height f) (u32 (y + dy))) as [Hw|Hw]; [done|].
  apply IH. apply alike_fill_row; [|done]. split; [apply u32_nonneg|done].
Qed.

Lemma alike_fill_rect x y w h c s s' : alike s s' → alike (bb_fill_rect x y w h c s) (bb_fill_rect x y w h c s').
Proof using All. intros H. unfold bb_fill_rect. destruct (alike_fb s s' H) as [-> ->]. by apply alike_fill_rows. Qed.

Lemma alike_dot x y bits row col fg bg s s' : alike s s' →
  alike (draw_dot bb_set_pixel x y bits row col fg bg s) (draw_dot bb_set_pixel x y bits row col fg bg s').
Proof using All. intros H. unfold draw_dot. alike. Qed.

Lemma alike_chars w cs : ∀ cx y fg bg s s', alike s s' →
  alike (draw_chars w bb_set_pixel cx y cs fg bg s) (draw_chars w bb_set_pixel cx y cs fg bg s').
Proof using All.
  induction cs as [|ch cs IH]; intros cx y fg bg s s' H; cbn [draw_chars]; [done|]. destruct (w <? u32 (cx + 8)); [done|].
  apply IH. unfold draw_char. apply alike_range; [|done]. intros row t t' Ht. cbv zeta. apply alike_range; [|done].
  intros col u u' Hu. by apply alike_dot.
Qed.

Lemma alike_corners x y w h rad p c s s' : alike s s' →
  alike (draw_corners bb_set_pixel x y w h rad p c s) (draw_corners bb_set_pixel x y w h rad p c s').
Proof using All. intros H. unfold draw_corners, corners. alike. Qed.

(** Every call does. *)
Lemma perform_alike d s s' : alike s s' → alike (perform d s) (perform d s').
Proof using All.
  intros H. destruct d; cbn [perform].
  - by apply alike_fill_rect.
  - unfold bb_draw_rect, draw_rect. pose proof u32_nonneg. alike.
  - unfold bb_fill_rounded_rect, fill_rounded_rect. cbv zeta. apply alike_corners. by repeat apply alike_fill_rect.
  - unfold bb_draw_rounded_rect, draw_rounded_rect, draw_hline, draw_vline. cbv zeta. apply alike_corners. alike.
  - unfold bb_draw_hline, draw_hline. alike.
  - unfold bb_fill_circle, fill_circle. alike.
  - unfold bb_draw_string, draw_string. destruct (alike_fb s s' H) as [-> ->]. by apply alike_chars.
  - apply alike_set; [apply u32_nonneg..|done].
Qed.

Lemma perform_all_alike ds : ∀ s s', alike s s' → alike (perform_all ds s) (perform_all ds s').
Proof using All.
  unfold perform_all. induction ds as [|d ds IH]; intros s s' H; cbn [foldl]; [done|]. apply IH. by apply perform_alike.
Qed.

End Alike.

(** ** The box of a call *)

Definition box_in (x y w h bx by' bw bh : Z) : bool :=
  (x <=? bx) && (y <=? by') && (0 <=? bw) && (0 <=? bh) && (bx + bw <=? x + w) && (by' + bh <=? y + h).

Lemma box_in_true x y w h bx by' bw bh :
  box_in x y w h bx by' bw bh = true ↔ x ≤ bx ∧ y ≤ by' ∧ 0 ≤ bw ∧ 0 ≤ bh ∧ bx + bw ≤ x + w ∧ by' + bh ≤ y + h.
Proof. unfold box_in. rewrite !andb_true_iff, !Z.leb_le. lia. Qed.

(** The call draws in the box. *)
Definition inside (x y w h : Z) (d : Draw) : bool :=
  match d with
  | FillRect bx by' bw bh _ => box_in x y w h bx by' bw bh
  | Outline bx by' bw bh _ => box_in x y w h bx by' bw bh && (0 <? bw) && (0 <? bh)
  | FillRounded bx by' bw bh r _ | Rounded bx by' bw bh r _ => box_in x y w h bx by' bw bh && (0 <? bw) && (0 <? bh) && (0 <=? r)
  | HLine bx by' n _ => box_in x y w h bx by' n 1
  | Circle cx cy r _ => box_in x y w h (cx - r) (cy - r) (2 * r + 1) (2 * r + 1) && (0 <=? r) && (r <? 2 ^ 15)
  | Str bx by' t _ _ => box_in x y w h bx by' (8 * len (chars t)) 16
  | Dot bx by' _ => box_in x y w h bx by' 1 1
  end.

(** A box on a screen whose coordinates do not wrap. *)
Definition placed_ok (x y w h : Z) : bool := (0 <=? x) && (0 <=? y) && (x + w <? 2 ^ 31) && (y + h <? 2 ^ 31).

Lemma placed_ok_true x y w h : placed_ok x y w h = true ↔ 0 ≤ x ∧ 0 ≤ y ∧ x + w < 2 ^ 31 ∧ y + h < 2 ^ 31.
Proof. unfold placed_ok. rewrite !andb_true_iff, !Z.leb_le, !Z.ltb_lt. lia. Qed.

Lemma to_signed_small z : - 2 ^ 31 ≤ z < 2 ^ 31 → to_signed 32 (u32 z) = z.
Proof.
  intros Hz. unfold to_signed. assert (wrap 32 (u32 z) = u32 z) as ->.
  { apply wrap_small. apply wrap_range. lia. }
  destruct (decide (0 ≤ z)) as [Hp|Hn].
  - rewrite u32_small by lia. destruct (Z.ltb_spec z (2 ^ (32 - 1))); lia.
  - assert (u32 z = z + 2 ^ 32) as ->.
    { unfold u32, wrap. symmetry. apply (Z.mod_unique_pos z (2 ^ 32) (-1)); lia. }
    destruct (Z.ltb_spec (z + 2 ^ 32) (2 ^ (32 - 1))); lia.
Qed.

Section Boxes.
Context {St : Type} {w h : Z} {good : St → Prop} {set : Z → Z → Color → St → St} {pix : Z → Z → St → Z} {pk : Color → Z}.
Context `{!Canvas w h good set pix pk}.

#[local] Abbreviation stays := (stays (w := w) (h := h) (good := good) (pix := pix)).

Lemma stays_widen x y bw bh x' y' bw' bh' m :
  x ≤ x' → y ≤ y' → x' + bw' ≤ x + bw → y' + bh' ≤ y + bh → stays x' y' bw' bh' m → stays x y bw bh m.
Proof using Type.
  intros H1 H2 H3 H4 Hm s Hs. destruct (Hm s Hs) as [G P]. split; [done|]. intros px py Hx Hy Hb. apply P; [done..|].
  apply not_true_iff_false. intros Hin%in_box_true. apply not_true_iff_false in Hb. apply Hb, in_box_true. lia.
Qed.

Lemma stays_fill x y bw bh c :
  0 ≤ x → 0 ≤ y → 0 ≤ bw → 0 ≤ bh → x + bw ≤ 2 ^ 32 → y + bh ≤ 2 ^ 32 → stays x y bw bh (fill_each set x y bw bh c).
Proof using All.
  intros. eapply stays_paints; [by apply paints_fill|]. intros px py c' (_ & Hp)%box_color_Some. by apply in_box_true.
Qed.

Lemma stays_outline x y bw bh c :
  0 ≤ x → 0 ≤ y → 0 < bw → 0 < bh → x + bw < 2 ^ 32 → y + bh < 2 ^ 32 → stays x y bw bh (draw_rect set x y bw bh c).
Proof using All.
  intros Hx Hy Hw Hh Hbw Hbh. unfold draw_rect. cbv zeta.
  rewrite (u32_small (x + bw)), (u32_small (y + bh)) by lia. rewrite (u32_small (x + bw - 1)), (u32_small (y + bh - 1)) by lia.
  assert (∀ px py, x ≤ px < x + bw → y ≤ py < y + bh → stays x y bw bh (set px py c)) as Hset.
  { intros px py Hpx Hpy. apply stays_set; [lia..|]. intros _ _. by apply in_box_true. }
  apply (stays_then x y bw bh (λ s, _)); apply stays_range; intros i Hi.
  - rewrite (u32_small (x + i)) by lia. apply (stays_then x y bw bh (λ s, _)); apply Hset; lia.
  - rewrite (u32_small (y + i)) by lia. apply (stays_then x y bw bh (λ s, _)); apply Hset; lia.
Qed.

Lemma stays_circle cx cy r c :
  0 ≤ cx - r → 0 ≤ cy - r → 0 ≤ r < 2 ^ 15 → cx + r < 2 ^ 31 → cy + r < 2 ^ 31 →
  stays (cx - r) (cy - r) (2 * r + 1) (2 * r + 1) (fill_circle set cx cy r c).
Proof using All.
  intros Hx Hy Hr Hbx Hby. unfold fill_circle. cbv zeta. rewrite (u32_small (r * 2)) by lia.
  apply stays_range. intros dy Hdy. apply stays_range. intros dx Hdx. apply stays_if.
  rewrite !to_signed_small by lia. rewrite !u32_small by lia. apply stays_set; [lia..|]. intros _ _. apply in_box_true. lia.
Qed.

Lemma stays_text x y t fg bg :
  w + 8 < 2 ^ 32 → 0 ≤ x < 2 ^ 32 - 8 → 0 ≤ y → y + 16 ≤ 2 ^ 32 → stays x y (8 * len (chars t)) 16 (draw_string w set x y t fg bg).
Proof using All.
  intros Hw Hx Hy Hby. eapply stays_paints; [by apply paints_chars|]. unfold len. generalize (chars t) as cs. intros cs. clear Hx.
  revert x. induction cs as [|ch cs IH]; intros x px py c; cbn [text_color length]; [done|].
  destruct (w <? x + 8); [done|]. unfold char_color. destruct (in_box x y 8 16 px py) eqn:E.
  - intros _. apply in_box_true in E. apply in_box_true. lia.
  - intros H%IH%in_box_true. apply in_box_true. lia.
Qed.
End Boxes.

(** ** What a list of calls leaves alone *)

Section Inside.
Context (f : Framebuffer) (px py : Z).
Context (Hpx : 0 ≤ px < Graphics.width f) (Hpy : 0 ≤ py < Graphics.height f).

(** A call in a box leaves the pixels outside. *)
Lemma inside_stays x y w h d s :
  placed_ok x y w h = true → inside x y w h d = true → in_box x y w h px py = false → screen_ok s → fb s = f →
  alike f px py s (perform d s).
Proof using All.
  intros (P1 & P2 & P3 & P4)%placed_ok_true Hd Hout Hs Hf.
  split; [done|]. split; [by apply (perform_alike f px py Hpx Hpy d s s)|]. symmetry.
  assert (∀ bx by' bw bh m, box_in x y w h bx by' bw bh = true →
    stays (w := Graphics.width f) (h := Graphics.height f) (good := λ s, screen_ok s ∧ fb s = f) (pix := bb_pixel) bx by' bw bh m →
    bb_pixel px py (m s) = bb_pixel px py s) as Hm.
  { intros bx by' bw bh m Hb%box_in_true Hm. apply (stays_widen x y w h) in Hm; [|lia..]. by apply (Hm s). }
  assert (∀ bx by' bw bh, box_in x y w h bx by' bw bh = true → in_box bx by' bw bh px py = false) as Hsmall.
  { intros bx by' bw bh Hb%box_in_true. apply not_true_iff_false. intros Hin%in_box_true. apply not_true_iff_false in Hout.
    apply Hout, in_box_true. lia. }
  pose proof (so_width s Hs) as Hw. rewrite Hf in Hw.
  destruct d; cbn [inside] in Hd; rewrite ?andb_true_iff, ?Z.ltb_lt, ?Z.leb_le in Hd.
  all: repeat match type of Hd with _ ∧ _ => let H := fresh in destruct Hd as [Hd H] end.
  all: pose proof Hd as HB; apply box_in_true in HB.
  all: cbn [perform]; rewrite ?u32_small by lia.
  - rewrite fill_rect_each by lia. eapply Hm; [done|]. apply (stays_fill (Canvas0 := bb_canvas f)); lia.
  - eapply Hm; [done|]. apply (stays_outline (Canvas0 := bb_canvas f)); lia.
  - apply rounded_box_stays; rewrite ?Hf; try (done || lia). by apply Hsmall.
  - apply rounded_box_stays; rewrite ?Hf; try (done || lia). by apply Hsmall.
  - eapply Hm; [done|]. eapply stays_paints; [apply (paints_hline (Canvas0 := bb_canvas f)); lia|].
    intros qx qy c' (_ & Hq)%box_color_Some. by apply in_box_true.
  - eapply Hm; [done|]. apply (stays_circle (Canvas0 := bb_canvas f)); lia.
  - unfold bb_draw_string. rewrite Hf. eapply Hm; [done|]. apply (stays_text (Canvas0 := bb_canvas f)); lia.
  - eapply Hm; [done|]. apply (stays_set (Canvas0 := bb_canvas f)); [lia..|]. intros _ _. apply in_box_true. lia.
Qed.

Lemma all_inside_stays x y w h ds : ∀ s,
  placed_ok x y w h = true → Forall (λ d, inside x y w h d = true) ds → in_box x y w h px py = false → screen_ok s → fb s = f →
  alike f px py s (perform_all ds s).
Proof using All.
  induction ds as [|d ds IH]; intros s HP Hds Hout Hs Hf; [done|]. apply Forall_cons in Hds as [Hd Hds].
  destruct (inside_stays x y w h d s HP Hd Hout Hs Hf) as (G & [G1 G2] & E).
  destruct (IH (perform d s) HP Hds Hout G1 G2) as (_ & G' & E'). split; [done|]. split; [done|]. by etrans.
Qed.

(** A filled rectangle decides the pixels it covers. *)
Lemma covered x y w h c s s' :
  0 ≤ x → 0 ≤ y → x + w < 2 ^ 32 → y + h < 2 ^ 32 → in_box x y w h px py = true →
  screen_ok s ∧ fb s = f → screen_ok s' ∧ fb s' = f → alike f px py (perform (FillRect x y w h c) s) (perform (FillRect x y w h c) s').
Proof using All.
  intros Hx Hy Hw Hh Hin G G'. apply in_box_true in Hin as Hb. cbn [perform]. rewrite !u32_small by lia. rewrite !fill_rect_each by lia.
  pose proof (paints_fill (Canvas0 := bb_canvas f) x y w h c) as H. do 6 (specialize (H ltac:(lia))).
  destruct (H s G) as [G1 P1], (H s' G') as [G2 P2].
  split; [done|]. split; [done|]. rewrite P1, P2 by done. unfold box_color. by rewrite Hin.
Qed.

(** So what comes before it does not matter. *)
Lemma covered_all x y w h c before after s s' :
  0 ≤ x → 0 ≤ y → x + w < 2 ^ 32 → y + h < 2 ^ 32 → in_box x y w h px py = true →
  screen_ok s ∧ fb s = f → screen_ok s' ∧ fb s' = f →
  let ds := before ++ FillRect x y w h c :: after in alike f px py (perform_all ds s) (perform_all ds s').
Proof using All.
  intros Hx Hy Hw Hh Hin G G' ds. unfold ds, perform_all. rewrite !foldl_app. cbn [foldl].
  apply (perform_all_alike f px py Hpx Hpy after). apply covered; try done.
  - by apply (perform_all_alike f px py Hpx Hpy before s s).
  - by apply (perform_all_alike f px py Hpx Hpy before s' s').
Qed.

End Inside.

(** ** Windows *)

Definition win_box (win : Window) (d : Draw) : bool := inside (win_x win) (win_y win) (Windows.width win) (Windows.height win) d.

(** The window is on the screen and draws in its box. *)
Definition tidy (f : Facts) (win : Window) : bool :=
  placed_ok (win_x win) (win_y win) (Windows.width win) (Windows.height win) && (2 <=? Windows.width win) && (33 <=? Windows.height win) &&
  match draw_window f win with Some (Ok ds) => forallb (win_box win) ds | _ => false end.

Lemma tidy_draws f win : tidy f win = true →
  ∃ ds, draw_window f win = Some (Ok ds) ∧ placed_ok (win_x win) (win_y win) (Windows.width win) (Windows.height win) = true ∧
    2 ≤ Windows.width win ∧ 33 ≤ Windows.height win ∧ Forall (λ d, win_box win d = true) ds.
Proof.
  unfold tidy. rewrite !andb_true_iff, !Z.leb_le. intros [[[H1 H2] H3] H4]. destruct (draw_window f win) as [[ds|e|]|]; try done.
  exists ds. split_and!; try done. apply Forall_forall. intros d Hd. rewrite forallb_forall in H4. by apply H4, list_elem_of_In.
Qed.

(** The title bar and the content, without the frame. *)
Definition on_face (px py : Z) (win : Window) : bool :=
  in_box (win_x win + 1) (win_y win + 1) (Windows.width win - 2) 30 px py ||
  in_box (win_x win + 1) (win_y win + 32) (Windows.width win - 2) (Windows.height win - 33) px py.

Lemma bind_ok {A B} (m : res A) (k : A → res B) b : m ≫= k = Ok b → ∃ a, m = Ok a ∧ k a = Ok b.
Proof. destruct m; [eauto|done..]. Qed.

Lemma content_background f win ds : draw_window_content f win = Some (Ok ds) →
  ∃ c ds', ds = FillRect (win_x win + 1) (win_y win + 32) (u32 (Windows.width win - 2)) (u32 (Windows.height win - 33)) c :: ds'.
Proof.
  unfold draw_window_content. cbv zeta. destruct (win_content win) as [|t|t|a|fm|e|s|br].
  - intros [= <-]. eauto.
  - intros [= <-]. eauto.
  - unfold draw_terminal. cbv zeta. destruct (display_lines _ _ _) as [r|]; [|done]. cbn [mbind option_bind]. intros H%(inj Some).
    apply bind_ok in H as (ls & _ & H). destruct (visible_range _ _ _) as [a z]. apply bind_ok in H as (text & _ & [= <-]). eauto.
  - intros [= <-]. eauto.
  - intros H%(inj Some). unfold draw_filemanager in H. apply bind_ok in H as (tb & _ & H). apply bind_ok in H as (cs & _ & [= <-]). eauto.
  - intros [= <-]. eauto.
  - intros [= <-]. eauto.
  - intros H%(inj Some). unfold draw_browser in H. apply bind_ok in H as (bar & _ & [= <-]). eauto.
Qed.

Lemma both_ok p q ds : both p q = Some (Ok ds) ↔ ∃ d1 d2, p = Some (Ok d1) ∧ q = Some (Ok d2) ∧ ds = d1 ++ d2.
Proof.
  unfold both. split.
  - destruct p as [[d1|e|]|]; [|by destruct q..|done]. destruct q as [[d2|e|]|]; cbn; try done. intros [= <-]. by exists d1, d2.
  - by intros (d1 & d2 & -> & -> & ->).
Qed.

Lemma windows_tidy f ws : Forall (λ w, tidy f w = true) ws → ∃ ds, all_of (map (draw_window f) ws) = Some (Ok ds).
Proof.
  induction 1 as [|w ws Hw _ [d2 E2]]; cbn [map all_of]; [by exists []|]. destruct (tidy_draws f w Hw) as (d1 & E1 & _).
  exists (d1 ++ d2). apply both_ok. eauto.
Qed.

Lemma all_of_app ps qs d1 d2 : all_of ps = Some (Ok d1) → all_of qs = Some (Ok d2) → all_of (ps ++ qs) = Some (Ok (d1 ++ d2)).
Proof.
  revert d1. induction ps as [|p ps IH]; intros d1; cbn [app all_of]; [by intros [= <-]|].
  intros (d & d' & Hp & Hps & ->)%both_ok Hqs. rewrite <- app_assoc. apply both_ok. exists d, (d' ++ d2). eauto.
Qed.

Section Shown.
Context (f : Facts) (fr : Framebuffer) (px py : Z).
Context (Hpx : 0 ≤ px < Graphics.width fr) (Hpy : 0 ≤ py < Graphics.height fr).

(** The face of a window does not depend on what was there. *)
Lemma face_decides win ds s s' :
  tidy f win = true → visible win = true → on_face px py win = true → draw_window f win = Some (Ok ds) →
  screen_ok s ∧ fb s = fr → screen_ok s' ∧ fb s' = fr → alike fr px py (perform_all ds s) (perform_all ds s').
Proof using All.
  intros Ht Hv Hface Hd G G'. apply tidy_draws in Ht as (_ & _ & (P1 & P2 & P3 & P4)%placed_ok_true & Hw & Hh & _).
  unfold draw_window in Hd. rewrite Hv in Hd. apply both_ok in Hd as (d1 & d2 & [= <-] & (c & d2' & ->)%content_background & ->).
  unfold on_face in Hface. apply orb_true_iff in Hface as [Hface|Hface]; apply in_box_true in Hface as HB.
  - apply (covered_all fr px py Hpx Hpy _ _ _ _ _ [_; _]); try done; lia.
  - apply (covered_all fr px py Hpx Hpy _ _ _ _ _ (draw_border_and_title win)); rewrite ?u32_small by lia; try done; lia.
Qed.

(** A window leaves what is outside its box. *)
Lemma window_stays win ds s :
  tidy f win = true → draw_window f win = Some (Ok ds) → point_in_window px py win = false → screen_ok s → fb s = fr →
  alike fr px py s (perform_all ds s).
Proof using All.
  intros (ds' & E & HP & _ & _ & Hin)%tidy_draws Hd Hout Hs Hf. rewrite Hd in E. injection E as <-.
  by apply (all_inside_stays fr px py Hpx Hpy _ _ _ _ ds s HP Hin Hout Hs Hf).
Qed.

Lemma windows_stay ws : ∀ s,
  Forall (λ w, tidy f w = true) ws → Forall (λ w, point_in_window px py w = false) ws → screen_ok s → fb s = fr →
  ∃ ds, all_of (map (draw_window f) ws) = Some (Ok ds) ∧ alike fr px py s (perform_all ds s).
Proof using All.
  induction ws as [|w ws IH]; intros s Ht Ho Hs Hf; cbn [map all_of]; [by exists []|].
  apply Forall_cons in Ht as [Hw Ht]. apply Forall_cons in Ho as [How Ho].
  destruct (tidy_draws f w Hw) as (d1 & E1 & _). destruct (window_stays w d1 s Hw E1 How Hs Hf) as (_ & [G1 G2] & A1).
  destruct (IH _ Ht Ho G1 G2) as (d2 & E2 & _ & G' & A2). exists (d1 ++ d2). split; [apply both_ok; eauto|].
  unfold perform_all in *. rewrite foldl_app. split; [done|]. split; [done|]. by etrans.
Qed.

(** The topmost window at a point shows there. *)
Lemma topmost_shows g i w s s' :
  Forall (λ w, tidy f w = true) (windows g) →
  top_window (hit px py) (windows g) = Some i → windows g !! i = Some w → visible w = true → on_face px py w = true →
  screen_ok s ∧ fb s = fr → screen_ok s' ∧ fb s' = fr →
  ∃ ds dsw, draw_windows f g = Some (Ok ds) ∧ draw_window f w = Some (Ok dsw) ∧
    alike fr px py (perform_all ds s) (perform_all dsw s').
Proof using All.
  intros Ht Htop Hw Hv Hface G G'. apply top_window_Some in Htop as (w' & Hw' & _ & Habove). rewrite Hw in Hw'. injection Hw' as <-.
  rewrite <- (take_drop_middle _ _ _ Hw) in Ht. apply Forall_app in Ht as [Hb Ht]. apply Forall_cons in Ht as [Hwt Ha].
  destruct (windows_tidy f _ Hb) as [db Eb]. destruct (tidy_draws f w Hwt) as (dsw & Ew & _).
  pose proof (perform_all_alike fr px py Hpx Hpy db s s (conj G (conj G eq_refl))) as ([Gb1 Gb2] & _).
  pose proof (face_decides w dsw (perform_all db s) s' Hwt Hv Hface Ew (conj Gb1 Gb2) G') as (G1 & G2 & E1).
  destruct (windows_stay (drop (Datatypes.S i) (windows g)) (perform_all dsw (perform_all db s)) Ha) as (da & Ea & _ & G3 & E3).
  { apply Forall_lookup. intros j w1 Hj. rewrite lookup_drop in Hj. destruct (point_in_window px py w1) eqn:E; [|done]. exfalso.
    assert (Datatypes.S i + j ≤ i)%nat; [|lia]. apply (Habove _ w1 Hj). unfold hit. by rewrite E, !orb_true_r. }
  { apply G1. }
  { apply G1. }
  exists (db ++ dsw ++ da), dsw. split; [|split; [done|]].
  - unfold draw_windows. rewrite <- (take_drop_middle _ _ _ Hw), map_app. apply all_of_app; [done|]. cbn [map all_of]. apply both_ok. eauto.
  - unfold perform_all in *. rewrite !foldl_app. split; [done|]. split; [done|]. by rewrite <- E3.
Qed.

End Shown.

(** ** A frame *)

Lemma Forall_concat_imap {A B} (P : B → Prop) (g : nat → A → list B) l :
  (∀ i x, l !! i = Some x → Forall P (g i x)) → Forall P (concat (imap g l)).
Proof.
  intros H. apply Forall_concat, Forall_lookup. intros i ds Hi. rewrite list_lookup_imap in Hi.
  apply fmap_Some in Hi as (x & Hx & ->). by apply H.
Qed.

Lemma cursor_inside bw bh mx my : Forall (λ d, inside mx my 14 21 d = true) (draw_cursor_to_bb bw bh mx my).
Proof.
  apply Forall_concat_imap. intros dy row Hdy. apply Forall_concat_imap. intros dx v Hdx.
  assert (length row = 14%nat) as Hr.
  { assert (Forall (λ row, length row = 14%nat) cursor_bitmap) as H by (repeat constructor).
    rewrite Forall_lookup in H. by apply H in Hdy. }
  apply lookup_lt_Some in Hdy. apply lookup_lt_Some in Hdx. cbn in Hdy.
  unfold cursor_dot. destruct (_ && _); [|constructor].
  assert (∀ c, inside mx my 14 21 (Dot (mx + Z.of_nat dx) (my + Z.of_nat dy) c) = true) as Hi by (intros c; apply box_in_true; lia).
  destruct (v =? 1); [by repeat constructor|]. destruct (v =? 2); by repeat constructor.
Qed.

Lemma back_nonempty s px py : screen_ok s → 0 ≤ px < Graphics.width (fb s) → 0 ≤ py < Graphics.height (fb s) → Graphics.back s ≠ [].
Proof. intros [] Hx Hy E. rewrite E in so_back. unfold len in so_back. cbn in so_back. nia. Qed.

(** C39: when all windows are on the screen and draw in their boxes, the frame that is put on
    the screen shows, at a point on the face of the window that a click there
    reaches, what this window draws on any screen of the mode: nothing that lies under
    it, nothing of the windows above and nothing of the dock; only the pointer is
    above it. *)
Theorem click_what_is_seen f g mx my px py i w s s' :
  Forall (λ w, tidy f w = true) (windows g) →
  top_window (hit px py) (windows g) = Some i → windows g !! i = Some w → visible w = true → on_face px py w = true →
  screen_ok s → screen_ok s' → fb s' = fb s → 0 ≤ px < Graphics.width (fb s) → 0 ≤ py < Graphics.height (fb s) →
  placed_ok mx my 14 21 = true → in_box mx my 14 21 px py = false →
  ∃ shown dsw, show_frame f g mx my s = Some (Ok shown) ∧ draw_window f w = Some (Ok dsw) ∧
    fb_pixel px py shown = bb_pixel px py (perform_all dsw s').
Proof.
  intros Ht Htop Hw Hv Hface Hs Hs' Hfb Hpx Hpy Hp Hout.
  set (under := draw_background (bb_width s) (bb_height s) ++ draw_dock (bb_width s) (bb_height s) g).
  pose proof (perform_all_alike (fb s) px py Hpx Hpy under s s (alike_refl _ _ _ _ Hs eq_refl)) as (G & _).
  destruct (topmost_shows f (fb s) px py Hpx Hpy g i w (perform_all under s) s' Ht Htop Hw Hv Hface G (conj Hs' Hfb))
    as (ds & dsw & Hds & Hdsw & ([G1 F1] & _ & E)).
  set (cursor := draw_cursor_to_bb (bb_width s) (bb_height s) mx my).
  destruct (all_inside_stays (fb s) px py Hpx Hpy mx my 14 21 cursor (perform_all ds (perform_all under s)) Hp) as (_ & [G2 F2] & E2);
    [apply cursor_inside|done..|].
  exists (swap_buffers (perform_all cursor (perform_all ds (perform_all under s)))), dsw. split_and!; [|done|].
  - unfold show_frame, draw_frame, draw_desktop_static. rewrite Hds. cbn [both draws mbind option_bind res_bind].
    do 3 f_equal. fold cursor. unfold perform_all, under. by rewrite !foldl_app.
  - destruct (swap_shows _ G2) as [Hsw _]; [by apply (back_nonempty _ px py); rewrite ?F2|].
    rewrite Hsw by (rewrite F2; done). by rewrite <- E2, E.
Qed.

(** ** The terminal *)

(** *** Wrapping *)

Definition ascii_text (s : list Z) : Prop := Forall ascii s.

Lemma split_ascii n s : ascii_text s → (n ≤ length s)%nat → str_split_at n s = Ok (take n s, drop n s).
Proof.
  intros Hs Hn. unfold str_split_at, is_char_boundary. rewrite Nat2Z.id. destruct (s !! n) as [c|] eqn:E.
  - unfold ascii_text in Hs. rewrite Forall_lookup in Hs. apply Hs in E as [_ E]. unfold is_cont.
    by rewrite (proj2 (Z.leb_gt 0x80 c)) by lia.
  - apply lookup_ge_None in E. unfold len. by rewrite (proj2 (Z.eqb_eq _ _)) by lia.
Qed.

Definition pieces_ok (max : nat) (ps : list (list Z)) : Prop := Forall (λ p, ascii_text p ∧ (length p ≤ max)%nat) ps.

Lemma wrap_text_ok max fuel : ∀ line, (0 < max)%nat → ascii_text line → (length line < fuel)%nat →
  ∃ ps, wrap_text fuel max line = Some (Ok ps) ∧ concat ps = line ∧ pieces_ok max ps ∧ Forall (λ p, p ≠ []) ps.
Proof.
  induction fuel as [|fuel IH]; intros line Hm Ha Hf; [lia|]. cbn [wrap_text].
  destruct (decide (line = [])) as [->|Hne]; [exists []; repeat constructor|].
  destruct (decide (length line ≤ max)%nat) as [Hle|Hgt].
  - exists [line]. split; [done|]. split; [apply app_nil_r|]. by repeat constructor.
  - rewrite split_ascii by (done || lia). destruct (IH (drop max line)) as (ps & -> & Hc & Hp & Hn); [done|by apply Forall_drop|rewrite length_drop; lia|].
    exists (take max line :: ps). cbn [mbind option_bind res_bind concat]. rewrite Hc, take_drop. split; [done|]. split; [done|].
    split; constructor; try done.
    + split; [by apply Forall_take|rewrite length_take; lia].
    + intros E. apply (f_equal length) in E. rewrite length_take in E. cbn in E. lia.
Qed.

Lemma wrap_line_ok max line : (0 < max)%nat → ascii_text line →
  ∃ ps, wrap_line max line = Some (Ok ps) ∧ concat ps = line ∧ pieces_ok max ps ∧ ps ≠ [].
Proof.
  intros Hm Ha. unfold wrap_line. destruct (decide (line = [])) as [->|Hne].
  - exists [[]]. split_and!; try done. repeat constructor. cbn. lia.
  - destruct (wrap_text_ok max (Datatypes.S (length line)) line) as (ps & -> & Hc & Hp & _); [done|done|lia|].
    exists ps. split_and!; try done. intros ->. by rewrite <- Hc in Hne.
Qed.

Lemma wrap_lines_ok max ls : (0 < max)%nat → Forall ascii_text ls →
  ∃ ps, wrap_lines max ls = Some (Ok ps) ∧ concat ps = concat ls ∧ pieces_ok max ps ∧ (length ls ≤ length ps)%nat.
Proof.
  intros Hm. induction 1 as [|l ls Hl _ (ps & E & Hc & Hp & Hn)]; cbn [wrap_lines].
  - exists []. repeat constructor.
  - destruct (wrap_line_ok max l Hm Hl) as (qs & -> & Hcq & Hpq & Hq). rewrite E. exists (qs ++ ps). split; [done|].
    rewrite concat_app. cbn [concat]. rewrite Hcq, Hc. split; [done|]. split; [by apply Forall_app|].
    rewrite length_app. destruct qs; [done|]. cbn. lia.
Qed.

Lemma split_ascii_lines c s : ascii_text s → Forall ascii_text (split_byte c s).
Proof.
  unfold ascii_text. induction 1 as [|x s Hx Hs IH]; cbn [split_byte]; [by apply Forall_singleton, Forall_nil|].
  destruct (x =? c); [by apply Forall_cons; split; [apply Forall_nil|]|].
  destruct (split_byte c s) as [|w ws]; [by apply Forall_singleton, Forall_singleton|]. apply Forall_cons in IH as [Hw Hws].
  by apply Forall_cons; split; [apply Forall_cons|].
Qed.

Lemma lines_ascii s : ascii_text s → Forall ascii_text (Str.lines s).
Proof.
  intros Hs. unfold Str.lines. pose proof (split_ascii_lines 10 s Hs) as H. induction H as [|l ls Hl _ IH]; [constructor|].
  assert (ascii_text (strip_cr l)) as Hcr.
  { unfold strip_cr. destruct (reverse l) as [|x r] eqn:E; [done|].
    assert (ascii_text (reverse r)) as Hr.
    { unfold ascii_text. apply Forall_reverse. assert (Forall ascii (reverse l)) as Hrev by (by apply Forall_reverse). rewrite E in Hrev.
      by apply Forall_cons in Hrev as [_ ?]. }
    repeat (case_match; try done). }
  cbn [drop_last_empty]. destruct ls as [|l' ls]; [|by constructor]. destruct l; [constructor|]. by constructor.
Qed.

(** *** The lines on display *)

Definition fits_line (max : nat) (l : list Z * bool) : Prop := ascii_text l.1 ∧ (length l.1 ≤ max)%nat.

Lemma fits_map {A} max (g : nat → list Z → list Z * A) ps : (∀ i p, (g i p).1 = p) →
  pieces_ok max ps → Forall (λ l, ascii_text l.1 ∧ (length l.1 ≤ max)%nat) (imap g ps) ∧ map fst (imap g ps) = ps.
Proof.
  intros Hg H. split.
  - apply Forall_lookup. intros i l Hl. rewrite list_lookup_imap in Hl. apply fmap_Some in Hl as (p & Hp & ->). rewrite Hg.
    unfold pieces_ok in H. rewrite Forall_lookup in H. by apply H in Hp.
  - clear H. revert g Hg. induction ps as [|p ps IH]; intros g Hg; [done|]. cbn [map imap]. rewrite Hg. f_equal. apply IH. intros i q. apply Hg.
Qed.

Lemma display_lines_ok max dir t : (0 < max)%nat → ascii_text (term_buffer t) → ascii_text (term_input t) → ascii_text dir →
  ∃ ls, display_lines max dir t = Some (Ok ls) ∧ Forall (fits_line max) ls ∧ ls ≠ [] ∧
    concat (map fst ls) = concat (Str.lines (term_buffer t)) ++ prompt_of dir ++ term_input t.
Proof.
  intros Hm Hb Hi Hd. unfold display_lines.
  destruct (wrap_lines_ok max (Str.lines (term_buffer t)) Hm (lines_ascii _ Hb)) as (ps & -> & Hc & Hp & _). cbn [mbind option_bind].
  assert (ascii_text (prompt_of dir ++ term_input t)) as Hl.
  { apply Forall_app. split; [|done]. apply Forall_app. split; [done|]. unfold ascii. repeat constructor; lia. }
  destruct (wrap_text_ok max (Datatypes.S (length (prompt_of dir ++ term_input t))) _ Hm Hl) as (qs & -> & Hcq & Hq & _); [lia|].
  cbn [mbind option_bind res_bind]. eexists. split; [done|].
  destruct (fits_map max (λ i l, (l, bool_decide (i = O))) qs) as [F2 M2]; [done|done|].
  split_and!.
  - apply Forall_app. split; [|exact F2]. apply Forall_map. eapply Forall_impl; [exact Hp|]. done.
  - intros E%(f_equal length). rewrite length_app, length_imap in E. destruct qs; [|cbn in E; lia]. cbn in Hcq.
    apply (f_equal length) in Hcq. unfold prompt_of in Hcq. rewrite !length_app in Hcq. cbn in Hcq. lia.
  - rewrite map_app, map_map, map_id, concat_app, M2, Hc, Hcq. done.
Qed.

Lemma chars_fuel_length fuel : ∀ s, (length (chars_fuel fuel s) ≤ fuel)%nat.
Proof. induction fuel as [|fuel IH]; intros s; cbn [chars_fuel]; [done|]. destruct s; cbn [length]; [lia|]. apply le_n_S, IH. Qed.

Lemma len_chars s : 0 ≤ len (chars s) ≤ len s.
Proof. unfold len, chars. pose proof (chars_fuel_length (length s) s). lia. Qed.

(** *** Drawing them *)

Lemma str_inside x y w h bx by' t fg bg :
  x ≤ bx → y ≤ by' → bx + 8 * len t ≤ x + w → by' + 16 ≤ y + h → inside x y w h (Str bx by' t fg bg) = true.
Proof. intros. pose proof (len_chars t). apply box_in_true. lia. Qed.

Section Terminal.
Context (x y w h : Z) (max : nat).
Context (HP : placed_ok x y w h = true) (Hmax : 8 * Z.of_nat max ≤ w - 12).

Definition in_content (d : Draw) : Prop := inside x y w h d = true.

Lemma terminal_line_ok prompt line b row :
  fits_line max (line, b) → 0 ≤ row → 14 * row + 20 ≤ h →
  ∃ ds, draw_terminal_line (x + 12) (y + 4 + row * 14) prompt line b = Ok ds ∧ Forall in_content ds.
Proof using All.
  intros [Ha Hl] Hr Hh. cbn [fst] in *. unfold draw_terminal_line. assert (len line ≤ Z.of_nat max) as Hl' by (unfold len; lia).
  destruct b; [destruct (Z.leb_spec (len prompt) (len line)) as [Hp|Hp]|].
  - rewrite split_ascii by (done || (unfold len in *; lia)). cbn [mbind res_bind]. eexists. split; [done|].
    unfold len in *. repeat constructor; apply str_inside; unfold len; rewrite ?length_take, ?length_drop; lia.
  - eexists. split; [done|]. repeat constructor. apply str_inside; lia.
  - eexists. split; [done|]. repeat constructor. apply str_inside; lia.
Qed.

Lemma terminal_lines_ok prompt input_at rows ls : ∀ i row,
  Forall (fits_line max) ls → 0 ≤ row → row + len ls ≤ rows → 14 * rows ≤ h - 8 →
  ∃ ds, draw_terminal_lines (x + 12) (y + 4) (y + h) prompt input_at ls i row = Ok ds ∧ Forall in_content ds.
Proof using All.
  apply placed_ok_true in HP as HP'. induction ls as [|[line b] ls IH]; intros i row Hls Hr Hn Hh; cbn [draw_terminal_lines]; [by exists []|].
  unfold len in Hn. cbn [length] in Hn. apply Forall_cons in Hls as [Hl Hls]. destruct (_ <? _); [by exists []|].
  destruct (terminal_line_ok prompt line (b && (i =? input_at)) row) as (ds & -> & Hds); [by destruct Hl|lia|lia|].
  destruct (IH (i + 1) (row + 1)) as (es & -> & Hes); [done|lia|unfold len; lia|done|].
  cbn [mbind res_bind]. eexists. split; [done|]. by apply Forall_app.
Qed.
End Terminal.

Lemma visible_range_ok total rows scroll : 0 ≤ total → 0 ≤ rows → 0 ≤ scroll →
  let '(start, stop) := visible_range total rows scroll in 0 ≤ start ≤ stop ∧ stop ≤ total ∧ stop - start ≤ rows.
Proof.
  intros Ht Hr Hs. unfold visible_range. cbv zeta. destruct (Z.ltb_spec scroll total); case_match eqn:E;
    rewrite ?Z.ltb_lt, ?Z.ltb_ge in E; lia.
Qed.

(** C40: a terminal in a box of at least 20 by 20, whose text is ASCII: all of its text is on
    lines that fit in the box, wrapping loses nothing, drawing ends, and it draws in the
    box, whatever the terminal holds and however it is scrolled. *)
Theorem terminal_fits dir t x y w h :
  ascii_text (term_buffer t) → ascii_text (term_input t) → ascii_text dir → 0 ≤ term_scroll t →
  placed_ok x y w h = true → 20 ≤ w → 20 ≤ h →
  ∃ ls ds, display_lines (Z.to_nat ((w - 12) / 8)) dir t = Some (Ok ls) ∧
    concat (map fst ls) = concat (Str.lines (term_buffer t)) ++ prompt_of dir ++ term_input t ∧
    Forall (λ l, x + 12 + 8 * len l.1 ≤ x + w) ls ∧
    draw_terminal dir t x y w h = Some (Ok ds) ∧ Forall (λ d, inside x y w h d = true) ds.
Proof.
  intros Hb Hi Hd Hsc HP Hw Hh. apply placed_ok_true in HP as (P1 & P2 & P3 & P4).
  set (max := Z.to_nat ((w - 12) / 8)).
  assert (0 < (w - 12) / 8) as Hpos by (apply Z.div_str_pos; lia).
  assert (8 * Z.of_nat max ≤ w - 12) as Hmax by (unfold max; pose proof (Z.mul_div_le (w - 12) 8); lia).
  destruct (display_lines_ok max dir t) as (ls & E & Hls & Hne & Hc); [lia|done..|].
  unfold draw_terminal. cbv zeta. rewrite (u32_small (w - 12)), (u32_small (h - 8)) by lia. fold max. rewrite E. cbn [mbind option_bind res_bind].
  pose proof (visible_range_ok (len ls) ((h - 8) / 14) (term_scroll t)) as HV.
  assert (0 ≤ (h - 8) / 14) as Hrows by (apply Z.div_pos; lia).
  pose proof (Z.mul_div_le (h - 8) 14).
  destruct (visible_range _ _ _) as [start stop]. destruct HV as (V1 & V2 & V3); [unfold len; lia|lia|lia|].
  destruct (terminal_lines_ok x y w h max ltac:(by apply placed_ok_true) Hmax (prompt_of dir)
    (len ls - 1 - Z.min (term_scroll t) (len ls - 1)) ((h - 8) / 14) (slice start (stop - start) ls) start 0) as (text & -> & Htext).
  { by apply Forall_take, Forall_drop. }
  { done. }
  { rewrite len_slice by lia. lia. }
  { lia. }
  exists ls. eexists. split; [done|]. split; [done|]. split.
  { eapply Forall_impl; [exact Hls|]. intros l [_ Hl]. unfold len. lia. }
  cbn [res_bind]. split; [done|]. apply Forall_cons. split; [apply box_in_true; lia|]. apply Forall_app. split; [exact Htext|].
  apply Forall_app. split.
  - destruct (_ && _); [|constructor]. unfold terminal_cursor. cbv zeta.
    set (line := u64 _). destruct (Z.leb_spec start line) as [Hl1|Hl1]; cbn [andb]; [|constructor].
    destruct (Z.ltb_spec line stop) as [Hl2|Hl2]; [|constructor].
    set (col := (_ mod _)). assert (0 ≤ col < (w - 12) / 8) as Hcol by (apply Z.mod_pos_bound; lia).
    rewrite (u32_small (x + 12 + col * 8)), (u32_small (x + w - 6)) by lia.
    destruct (Z.ltb_spec (x + 12 + col * 8) (x + w - 6)) as [Hc1|Hc1]; [|constructor].
    repeat constructor. apply box_in_true. lia.
  - destruct (0 <? start); repeat constructor. apply str_inside; unfold len; cbn; lia.
Qed.

(** ** Clicks and what is drawn under them *)

(** *** The editor *)

(** A click in the text area puts the cursor on the line and the column that are drawn
    there, and the cursor is then drawn in the cell that was clicked; right of the end
    of the line it goes to the end. *)
Theorem editor_click x y w h mx my e :
  editor_ok e → x + 56 ≤ mx → y + 40 ≤ my →
  (mx - (x + 56)) / 8 < visible_cols w → (my - (y + 40)) / 18 < visible_rows h →
  Z.of_nat (scroll_y e) + (my - (y + 40)) / 18 < len (lines e) →
  ∃ e' l, click_text mx my (x + 56) (y + 40) e = Ok e' ∧
    lines e' = lines e ∧ scroll_x e' = scroll_x e ∧ scroll_y e' = scroll_y e ∧
    Z.of_nat (cursor_line e') = Z.of_nat (scroll_y e) + (my - (y + 40)) / 18 ∧ lines e !! cursor_line e' = Some l ∧
    if bool_decide (Z.of_nat (scroll_x e) + (mx - (x + 56)) / 8 ≤ len l)
    then ∃ cx cy, cursor_at e' x y w h = Some (cx, cy) ∧ in_box cx cy 8 18 mx my = true
    else cursor_col e' = length l.
Proof.
  intros He Hx Hy Hc Hr Hl. unfold click_text. cbv zeta. rewrite !Z.quot_div_nonneg by lia.
  set (col := (mx - (x + 56)) / 8) in *. set (row := (my - (y + 40)) / 18) in *.
  assert (0 ≤ col) as Hcol by (apply Z.div_pos; lia). assert (0 ≤ row) as Hrow by (apply Z.div_pos; lia).
  assert (Nat.min (Z.to_nat row + scroll_y e) (length (lines e) - 1) = (Z.to_nat row + scroll_y e)%nat) as -> by (unfold len in Hl; lia).
  destruct (lookup_lt_is_Some_2 (lines e) (Z.to_nat row + scroll_y e)) as [l El]; [unfold len in Hl; lia|]. rewrite El.
  eexists _, l. split; [done|]. cbn [set_cursor set_text lines scroll_x scroll_y cursor_line cursor_col]. split_and!; try done; [lia|].
  case_bool_decide as Hd.
  - unfold cursor_at. cbn [set_cursor set_text lines scroll_x scroll_y cursor_line cursor_col].
    rewrite (proj2 (Nat.leb_le _ _)) by lia. rewrite (proj2 (Z.ltb_lt _ _)) by lia.
    assert (Nat.min (Z.to_nat col + scroll_x e) (length l) - scroll_x e = Z.to_nat col)%nat as -> by (unfold len in Hd; lia).
    rewrite (proj2 (Z.ltb_lt _ _)) by lia. cbn [andb]. eexists _, _. split; [done|]. apply in_box_true.
    pose proof (Z.div_mod (mx - (x + 56)) 8). pose proof (Z.mod_pos_bound (mx - (x + 56)) 8).
    pose proof (Z.div_mod (my - (y + 40)) 18). pose proof (Z.mod_pos_bound (my - (y + 40)) 18).
    replace (Z.of_nat (Z.to_nat row + scroll_y e - scroll_y e)) with row by lia. unfold col, row in *. lia.
  - unfold len in Hd. lia.
Qed.

(** *** The file manager *)

Lemma grid_agrees x y w h mx my fm k :
  24 ≤ w < 2 ^ 31 → 68 ≤ h < 2 ^ 31 → 0 ≤ k < fm_cols w * fm_rows h →
  in_box (x + 12 + k mod fm_cols w * cell_w) (y + 44 + k / fm_cols w * cell_h) cell_w cell_h mx my = true →
  grid_index mx my x y w h fm = Some (Z.of_nat (fm_scroll fm) + k).
Proof.
  intros Hw Hh Hk Hin. apply in_box_true in Hin. unfold grid_index, fm_cols, fm_rows, cell_w, cell_h in *. cbv zeta.
  rewrite !Z.quot_div_nonneg by lia. rewrite (u32_small (w - 24)) in * by lia. rewrite (u32_small (h - 36 - 32)) in * by lia.
  assert (0 ≤ (h - 68) / 80 < 2 ^ 31) as Hrows by (split; [apply Z.div_pos; lia|apply Z.div_lt_upper_bound; lia]).
  rewrite u64_small by lia. replace (h - 36 - 32) with (h - 68) in * by lia. rewrite (Z.max_comm 1).
  set (cols := Z.max ((w - 24) / 90) 1) in *.
  assert (1 ≤ cols) as Hcols by lia. clearbody cols.
  pose proof (Z.mod_pos_bound k cols). pose proof (Z.div_pos k cols). pose proof (Z.div_mod k cols).
  assert (k / cols < (h - 68) / 80) as Hrow by (apply Z.div_lt_upper_bound; lia).
  rewrite (proj2 (Z.leb_le _ _)), (proj2 (Z.leb_le _ _)) by lia. cbn [andb].
  assert ((mx - x - 12) / 90 = k mod cols) as -> by (symmetry; apply (Z.div_unique_pos _ _ _ (mx - x - 12 - 90 * (k mod cols))); lia).
  assert ((my - (y + 44)) / 80 = k / cols) as -> by (symmetry; apply (Z.div_unique_pos _ _ _ (my - (y + 44) - 80 * (k / cols))); lia).
  rewrite (proj2 (Z.ltb_lt _ _)), (proj2 (Z.ltb_lt _ _)) by lia. cbn [andb]. do 2 f_equal. lia.
Qed.

Lemma draw_cells_all x y bottom cols rows sel es : ∀ k i ds,
  0 ≤ k → 1 ≤ cols → k + len es ≤ cols * rows → 0 ≤ y → y + rows * cell_h ≤ bottom → bottom < 2 ^ 31 →
  draw_cells x y bottom cols sel es k i = Ok ds →
  ∀ j e, es !! j = Some e → ∃ cell,
    draw_cell (x + 12 + (k + Z.of_nat j) mod cols * cell_w) (y + (k + Z.of_nat j) / cols * cell_h) (bool_decide (sel = Some (i + j)%nat)) e = Ok cell ∧
    ∀ d, d ∈ cell → d ∈ ds.
Proof.
  induction es as [|e es IH]; intros k i ds Hk Hcols Hn Hy Hb Hbb H j e' Hj; [done|]. cbn [draw_cells] in H.
  unfold len in Hn. cbn [length] in Hn. unfold cell_h in *.
  assert (k / cols < rows) as Hrow by (apply Z.div_lt_upper_bound; lia). pose proof (Z.div_pos k cols).
  rewrite (u32_small bottom), (u32_small (y + k / cols * 80 + 80)) in H by lia.
  rewrite (proj2 (Z.ltb_ge _ _)) in H by lia.
  apply bind_ok in H as (cell & Hcell & H). apply bind_ok in H as (rest & Hrest & [= <-]).
  destruct j as [|j]; cbn in Hj.
  - injection Hj as <-. rewrite Z.add_0_r, Nat.add_0_r. exists cell. split; [done|]. intros d Hd. apply elem_of_app. by left.
  - destruct (IH (k + 1) (Datatypes.S i) rest ltac:(lia) Hcols ltac:(unfold len; lia) Hy Hb Hbb Hrest j e' Hj) as (c & Hc & Hin).
    replace (k + Z.of_nat (Datatypes.S j)) with (k + 1 + Z.of_nat j) by lia. replace (i + Datatypes.S j)%nat with (Datatypes.S i + j)%nat by lia.
    exists c. split; [done|]. intros d Hd. apply elem_of_app. right. by apply Hin.
Qed.

(** Every file that has a place in the grid is drawn there, and a click in its place
    is a click on this file. *)
Theorem file_click x y w h fm ds k e :
  placed_ok x y w h = true → 24 ≤ w → 68 ≤ h →
  draw_filemanager fm x y w h = Ok ds → 0 ≤ k < fm_cols w * fm_rows h → files fm !! (fm_scroll fm + Z.to_nat k)%nat = Some e →
  let cell_x := x + 12 + k mod fm_cols w * cell_w in
  let cell_y := y + 44 + k / fm_cols w * cell_h in
  (∃ cell, draw_cell cell_x cell_y (bool_decide (selected fm = Some (fm_scroll fm + Z.to_nat k)%nat)) e = Ok cell ∧ ∀ d, d ∈ cell → d ∈ ds) ∧
  ∀ mx my, in_box cell_x cell_y cell_w cell_h mx my = true → grid_index mx my x y w h fm = Some (Z.of_nat (fm_scroll fm) + k).
Proof.
  intros (P1 & P2 & P3 & P4)%placed_ok_true Hw Hh H Hk He cell_x cell_y. split; [|intros mx my Hin; by apply grid_agrees; try lia].
  unfold draw_filemanager in H. apply bind_ok in H as (tb & _ & H). apply bind_ok in H as (cells & Hcells & [= <-]).
  set (shown := take (Z.to_nat (fm_cols w * fm_rows h)) (drop (fm_scroll fm) (files fm))) in *.
  assert (80 * fm_rows h ≤ h - 68) as Hrows.
  { unfold fm_rows, cell_h. rewrite (u32_small (h - 36 - 32)) by lia. pose proof (Z.mul_div_le (h - 36 - 32) 80). lia. }
  assert (1 ≤ fm_cols w) as Hcols by (unfold fm_cols; lia).
  assert (len shown ≤ fm_cols w * fm_rows h) as Hlen by (unfold shown, len; rewrite length_take; lia).
  destruct (draw_cells_all x (y + 36 + 8) (y + h - 24) (fm_cols w) (fm_rows h) (selected fm) shown 0 (fm_scroll fm) cells ltac:(lia) Hcols ltac:(lia) ltac:(lia) ltac:(unfold cell_h; lia) ltac:(lia) Hcells (Z.to_nat k) e)
    as (cell & Hcell & Hin).
  { unfold shown. rewrite lookup_take_lt by lia. by rewrite lookup_drop. }
  rewrite Z.add_0_l, Z2Nat.id in Hcell by lia. exists cell. split; [by replace cell_y with (y + 36 + 8 + k / fm_cols w * cell_h) by (unfold cell_y; lia)|].
  clear Hk. intros d Hd. apply Hin in Hd. set_solver.
Qed.

(** *** The browser *)

Lemma row_rects_spec tx ty line r :
  r ∈ row_rects tx ty line ↔ ∃ s k, s ∈ line ∧ l_link s = Some k ∧ r = mkRect (tx + l_col s * 8) ty (len (l_text s) * 8) 14 k.
Proof.
  induction line as [|s line IH]; cbn [row_rects].
  - split; [by intros ?%elem_of_nil|]. by intros (s & k & ?%elem_of_nil & _).
  - assert (∀ P : LaidSpan → Prop, (∃ s', s' ∈ s :: line ∧ P s') ↔ P s ∨ ∃ s', s' ∈ line ∧ P s') as Hcons.
    { intros P. split; [intros (s' & [->|?]%elem_of_cons & ?); [by left|right; eauto]|].
      intros [?|(s' & ? & ?)]; [exists s|exists s']; (split; [apply elem_of_cons; auto|done]). }
    assert (∀ (P : LaidSpan → Z → Prop) (l : list LaidSpan), (∃ s k, s ∈ l ∧ P s k) ↔ ∃ s, s ∈ l ∧ ∃ k, P s k) as Hex.
    { intros P l. split; [intros (s' & k & ? & ?); eauto|intros (s' & ? & k & ?); eauto]. }
    rewrite Hex, Hcons, <- Hex. destruct (l_link s) as [k|].
    + rewrite elem_of_cons, IH. split; (intros [H|H]; [left|by right]).
      * by exists k.
      * by destruct H as (k' & [= <-] & ->).
    + rewrite IH. split; [by right|]. by intros [(k & ? & _)|H].
Qed.

Lemma page_rects_spec tx rows r : ∀ ty,
  r ∈ page_rects tx ty rows ↔ ∃ i line s k, rows !! i = Some line ∧ s ∈ line ∧ l_link s = Some k ∧
    r = mkRect (tx + l_col s * 8) (ty + Z.of_nat i * 14) (len (l_text s) * 8) 14 k.
Proof.
  induction rows as [|line rows IH]; intros ty; cbn [page_rects].
  - split; [by intros ?%elem_of_nil|]. by intros (i & line & s & k & ? & _).
  - rewrite elem_of_app, row_rects_spec, IH. split.
    + intros [(s & k & H1 & H2 & ->)|(i & l & s & k & H1 & H2 & H3 & ->)].
      * exists O, line, s, k. split_and!; try done. f_equal; lia.
      * exists (Datatypes.S i), l, s, k. split_and!; try done. f_equal; lia.
    + intros ([|i] & l & s & k & H1 & H2 & H3 & ->); cbn in H1.
      * injection H1 as <-. left. exists s, k. split_and!; try done. f_equal; lia.
      * right. exists i, l, s, k. split_and!; try done. f_equal; lia.
Qed.

Lemma draw_page_span tx ty rows i line s d :
  rows !! i = Some line → s ∈ line → d ∈ draw_span tx (ty + Z.of_nat i * 14) s → d ∈ draw_page tx ty rows.
Proof.
  intros Hi Hs Hd. unfold draw_page. apply list_elem_of_In, in_concat.
  exists (concat (map (draw_span tx (ty + Z.of_nat i * 14)) line)). split.
  - apply list_elem_of_In, list_elem_of_lookup. exists i. by rewrite list_lookup_imap, Hi.
  - apply in_concat. exists (draw_span tx (ty + Z.of_nat i * 14) s). split; [|by apply list_elem_of_In].
    apply in_map. by apply list_elem_of_In.
Qed.

(** The rectangles of the links are where the frame draws and underlines the text of
    the links, for every page, scroll and size of the window. *)
Theorem links_drawn win br br' ds r :
  prepare_layout win br = Some (Ok br') → 2 ≤ Windows.width win → 33 ≤ Windows.height win →
  draw_browser br' (win_x win + 1) (win_y win + 32) (Windows.width win - 2) (Windows.height win - 33) = Ok ds →
  r ∈ link_rects br' →
  ∃ s, l_link s = Some (rect_link r) ∧ rect_w r = 8 * len (l_text s) ∧ rect_h r = 14 ∧
    Str (rect_x r) (rect_y r) (l_text s) (rgb 110 170 255) (Some page_bg) ∈ ds ∧
    FillRect (rect_x r) (rect_y r + 12) (rect_w r) 1 (rgb 110 170 255) ∈ ds.
Proof.
  intros Hp Hw Hh Hd Hr. unfold prepare_layout in Hp. cbv zeta in Hp.
  destruct (if _ =? _ then _ else _) as [[rows|e|]|]; try done. injection Hp as <-.
  cbn [link_rects] in Hr. apply page_rects_spec in Hr as (i & line & s & k & Hi & Hs & Hk & ->).
  exists s. cbn [rect_link rect_w rect_h rect_x rect_y]. split; [done|]. split; [lia|]. split; [done|].
  unfold draw_browser in Hd. cbv zeta in Hd. cbn [doc_layout br_scroll] in Hd. apply bind_ok in Hd as (bar & _ & [= <-]).
  replace (sat_sub (Windows.width win) 2) with (Windows.width win - 2) in * by (unfold sat_sub; lia).
  replace (sat_sub (Windows.height win) 33) with (Windows.height win - 33) in * by (unfold sat_sub; lia).
  change (28 + 20 + 16) with 64.
  match goal with H : slice ?a ?b rows !! i = _ |- _ => set (shown := slice a b rows) in * end.
  assert (∀ d, d ∈ draw_span (win_x win + 1 + 8) (win_y win + 32 + 28 + 8 + Z.of_nat i * 14) s →
    d ∈ draw_page (win_x win + 1 + 8) (win_y win + 32 + 28 + 8) shown) as Hspan by (intros d; by apply (draw_page_span _ _ _ i line)).
  replace (win_x win + 9 + l_col s * 8) with (win_x win + 1 + 8 + l_col s * 8) by lia.
  replace (win_y win + 32 + 36 + Z.of_nat i * 14) with (win_y win + 32 + 28 + 8 + Z.of_nat i * 14) by lia.
  unfold draw_span, span_style in Hspan. rewrite Hk in Hspan. cbv zeta in Hspan.
  split; (apply list_elem_of_further, elem_of_app; right; apply list_elem_of_further, elem_of_app; left; apply Hspan).
  - apply list_elem_of_here.
  - apply list_elem_of_further. apply list_elem_of_here.
Qed.

(** ** Where they disagree *)

(** The left ten pixels of the button "Open" delete the file. *)
Lemma open_button_deletes {S I F T : Type} `{!InodeOps S I, !FileSystemOps S I F} x y i fm path mx my (d : Desk S I F T) :
  get_selected_file_path fm = Some path → x + 160 ≤ mx < x + 170 → y + 7 ≤ my < y + 29 →
  FillRounded (x + 160) (y + 7) 64 22 5 (rgb 100 150 255) ∈ fm_actions x y fm ∧
  fm_toolbar mx my x y i fm d =
    (on_vfs (m_ignore (remove path));;
     fm ← on_vfs (refresh_files fm);
     done (put i (FileManager fm);; on_gui redraw_windows) true) d.
Proof.
  intros Hp Hx Hy. split.
  - unfold fm_actions. unfold get_selected_file_path in Hp. destruct (selected_entry fm) as [e|]; [|done]. cbn in Hp.
    destruct (is_dir e); [done|]. cbv zeta. replace (x + 86 + 64 + 10) with (x + 160) by lia. do 2 apply list_elem_of_further. apply list_elem_of_here.
  - unfold fm_toolbar. cbv zeta. rewrite Hp. unfold within.
    rewrite (proj2 (Z.ltb_ge mx (x + 8 + 28))), (proj2 (Z.ltb_ge mx (x + 42 + 28))), !andb_false_r by lia.
    by rewrite (proj2 (Z.leb_le (x + 90) mx)), (proj2 (Z.ltb_lt mx (x + 90 + 80))), (proj2 (Z.leb_le (y + 6) my)), (proj2 (Z.ltb_lt my (y + 6 + 24))) by lia.
Qed.

(** In the upper three pixels of a link the link in the row above is followed. *)
Lemma link_above_wins x y wd k k' mx my :
  0 < wd → x ≤ mx < x + wd → y + 14 ≤ my < y + 17 →
  let rects := row_rects x y [mkLaid 0 (replicate (Z.to_nat wd) 97) StNormal (Some k)] ++
    row_rects x (y + 14) [mkLaid 0 (replicate (Z.to_nat wd) 98) StNormal (Some k')] in
  link_at mx my rects = Some k.
Proof.
  intros Hw Hx Hy. cbv zeta. unfold link_at. cbn [row_rects app l_link l_col l_text].
  cbn [list_find]. rewrite decide_True; [done|]. cbn [rect_x rect_y rect_w rect_h]. unfold within, len. rewrite length_replicate.
  rewrite !andb_true_iff, !Z.leb_le, !Z.ltb_lt. lia.
Qed.

Module DrawExample.

#[local] Notation "'b' s" := (bytes_of_string s) (at level 9, s at level 9, only parsing).

Definition facts : Facts := mkFacts 0 0 0 None 16 16 (b "/").

Definition win (id x y : Z) : Window := mkWindow id (b "w") x y 120 60 true false false 0 0 Empty.
Definition desk : GuiState := set_windows [win 1 0 0; win 2 6 2] GuiState_new.

Lemma click_what_is_seen_witness :
  ∃ shown dsw, show_frame facts desk 50 50 GraphicsExample.screen = Some (Ok shown) ∧ draw_window facts (win 1 0 0) = Some (Ok dsw) ∧
    fb_pixel 3 5 shown = bb_pixel 3 5 (perform_all dsw GraphicsExample.screen).
Proof.
  apply (click_what_is_seen facts desk 50 50 3 5 0 (win 1 0 0) GraphicsExample.screen GraphicsExample.screen).
  - repeat constructor; by vm_compute.
  - by vm_compute.
  - reflexivity.
  - reflexivity.
  - by vm_compute.
  - apply GraphicsExample.screen_good.
  - apply GraphicsExample.screen_good.
  - reflexivity.
  - cbn; lia.
  - cbn; lia.
  - by vm_compute.
  - by vm_compute.
Defined.

Definition term (input : list Z) : TerminalState := mkTerm (b "cottonOS") input true 0.

Lemma terminal_fits_witness : ∃ ls ds,
  display_lines 4 (b "/") (term (b "abc")) = Some (Ok ls) ∧ draw_terminal (b "/") (term (b "abc")) 5 5 44 60 = Some (Ok ds) ∧
  Forall (λ d, inside 5 5 44 60 d = true) ds.
Proof.
  destruct (terminal_fits (b "/") (term (b "abc")) 5 5 44 60) as (ls & ds & H1 & _ & _ & H2 & H3).
  1, 2, 3: unfold ascii_text, ascii; cbn; repeat constructor; lia.
  1: cbn; lia.
  1: by vm_compute.
  1, 2: lia.
  exists ls, ds. split; [exact H1|]. split; [exact H2|exact H3].
Defined.

(** A cursor on the second line of a wrapped input is drawn on the first one; after
    a full line it is drawn on the line above it, or not at all. *)
Lemma cursor_on_first_line :
  display_lines 4 (b "/") (mkTerm [] (b "abcd") true 0) = Some (Ok [(b "/> a", true); (b "bcd", false)]) ∧
  terminal_cursor 4 2 0 2 (b "/") (mkTerm [] (b "abcd") true 0) = Some (3, 0) ∧
  terminal_cursor 4 2 0 2 (b "/") (mkTerm [] (b "abcde") true 0) = None.
Proof. by vm_compute. Qed.

(** A name of twelve letters is wider than its cell. *)
Lemma name_wider_than_cell :
  match draw_cell 0 0 false (mkEntry (b "abcdefghijkl") false) with
  | Ok ds => Str 3 56 (b "abcdefghijkl") TEXT_PRIMARY None ∈ ds ∧ cell_w < 3 + 8 * len (chars (b "abcdefghijkl"))
  | _ => False
  end.
Proof. split; [|by vm_compute]. apply (bool_decide_unpack _). by vm_compute. Qed.

(** A name whose ninth and tenth bytes are one character stops the kernel. *)
Lemma name_slice_panics : shown_name (b "abcdefgh" ++ [0xC3; 0xA9] ++ b "xyz") = Panic.
Proof. by vm_compute. Qed.

Lemma editor_click_witness : ∃ e' l,
  click_text 72 62 56 40 EditorExample.two_lines = Ok e' ∧ lines EditorExample.two_lines !! cursor_line e' = Some l ∧ cursor_line e' = 1%nat.
Proof.
  destruct (editor_click 0 0 700 400 72 62 EditorExample.two_lines) as (e' & l & H1 & _ & _ & _ & H2 & H3 & _).
  - apply EditorExample.two_lines_ok.
  - lia.
  - lia.
  - by vm_compute.
  - by vm_compute.
  - by vm_compute.
  - exists e', l. split; [exact H1|]. split; [exact H3|]. apply Nat2Z.inj. rewrite H2. by vm_compute.
Defined.

Definition fm : FileManagerState := mkFM (b "/") [mkEntry (b "bin") true; mkEntry (b "notes") false] None [b "/"] 0 0.
Definition picture : list Draw := match draw_filemanager fm 0 0 300 200 with Ok ds => ds | _ => [] end.

Lemma file_click_witness : grid_index 110 60 0 0 300 200 fm = Some 1.
Proof.
  destruct (file_click 0 0 300 200 fm picture 1 (mkEntry (b "notes") false)) as [_ H].
  - by vm_compute.
  - lia.
  - lia.
  - by vm_compute.
  - split; by vm_compute.
  - reflexivity.
  - rewrite (H 110 60); [reflexivity|by vm_compute].
Defined.

End DrawExample.
