(* ===== verification/Descriptors.v ===== *)
(** * Descriptor tables: [arch/x86_64/gdt.rs], [arch/x86_64/idt.rs]

    The packed structures the processor reads, with the bytes they are in memory, and
    the filling of the two tables.  Where the handlers, the tables and the stacks lie
    is decided by the linker, and a parameter.  What the processor reads in a
    descriptor ([gate_offset], [segment_base], ..) is its documented format.  The
    instructions that load the tables are [load]: what the descriptor register holds
    afterwards. *)

From S2P Require Import Prelude Bytes.

(** ** Segments *)

Record GdtEntry : Type := mkGdtEntry {
  limit_low : Z; base_low : Z; base_middle : Z; access : Z; granularity : Z; base_high : Z;
}.

Definition GdtEntry_null : GdtEntry := mkGdtEntry 0 0 0 0 0 0.

Definition GdtEntry_new (base limit access granularity : Z) : GdtEntry :=
  mkGdtEntry
    (u16 (Z.land limit 0xFFFF)) (u16 (Z.land base 0xFFFF)) (u8 (Z.land (Z.shiftr base 16) 0xFF)) access
    (Z.lor (u8 (Z.land (Z.shiftr limit 16) 0x0F)) (Z.land granularity 0xF0)) (u8 (Z.land (Z.shiftr base 24) 0xFF)).

Definition code_segment : GdtEntry := GdtEntry_new 0 0xFFFFF 0x9A 0xA0.
Definition data_segment : GdtEntry := GdtEntry_new 0 0xFFFFF 0x92 0xC0.
Definition user_code_segment : GdtEntry := GdtEntry_new 0 0xFFFFF 0xFA 0xA0.
Definition user_data_segment : GdtEntry := GdtEntry_new 0 0xFFFFF 0xF2 0xC0.

Definition GdtEntry_bytes (e : GdtEntry) : list Z :=
  le 2 (limit_low e) ++ le 2 (base_low e) ++ le 1 (base_middle e) ++ le 1 (access e) ++ le 1 (granularity e) ++ le 1 (base_high e).

Record TssEntry : Type := mkTssEntry {
  te_length : Z; te_base_low : Z; te_base_middle : Z; te_flags1 : Z; te_flags2 : Z; te_base_high : Z;
  te_base_upper : Z; te_reserved : Z;
}.

Definition TssEntry_null : TssEntry := mkTssEntry 0 0 0 0 0 0 0 0.

Definition TssEntry_new (tss_addr tss_size : Z) : TssEntry :=
  mkTssEntry tss_size (u16 (Z.land tss_addr 0xFFFF)) (u8 (Z.land (Z.shiftr tss_addr 16) 0xFF)) 0x89 0
    (u8 (Z.land (Z.shiftr tss_addr 24) 0xFF)) (u32 (Z.land (Z.shiftr tss_addr 32) 0xFFFFFFFF)) 0.

Definition TssEntry_bytes (e : TssEntry) : list Z :=
  le 2 (te_length e) ++ le 2 (te_base_low e) ++ le 1 (te_base_middle e) ++ le 1 (te_flags1 e) ++ le 1 (te_flags2 e) ++
  le 1 (te_base_high e) ++ le 4 (te_base_upper e) ++ le 4 (te_reserved e).

Record TaskStateSegment : Type := mkTss {
  tss_reserved1 : Z; rsp0 : Z; rsp1 : Z; rsp2 : Z; tss_reserved2 : Z;
  ist1 : Z; ist2 : Z; ist3 : Z; ist4 : Z; ist5 : Z; ist6 : Z; ist7 : Z;
  tss_reserved3 : Z; tss_reserved4 : Z; iomap_base : Z;
}.

Definition Tss_bytes (t : TaskStateSegment) : list Z :=
  le 4 (tss_reserved1 t) ++ le 8 (rsp0 t) ++ le 8 (rsp1 t) ++ le 8 (rsp2 t) ++ le 8 (tss_reserved2 t) ++
  le 8 (ist1 t) ++ le 8 (ist2 t) ++ le 8 (ist3 t) ++ le 8 (ist4 t) ++ le 8 (ist5 t) ++ le 8 (ist6 t) ++ le 8 (ist7 t) ++
  le 8 (tss_reserved3 t) ++ le 2 (tss_reserved4 t) ++ le 2 (iomap_base t).

(** [size_of::<TaskStateSegment>()] of the packed structure. *)
Definition TSS_SIZE : Z := 4 + 8 * 3 + 8 + 8 * 7 + 8 + 2 + 2.

Definition Tss_new : TaskStateSegment := mkTss 0 0 0 0 0 0 0 0 0 0 0 0 0 0 (u16 TSS_SIZE).

Record Gdt : Type := mkGdt {
  g_null : GdtEntry; kernel_code : GdtEntry; kernel_data : GdtEntry; user_code : GdtEntry; user_data : GdtEntry; g_tss : TssEntry;
}.

Definition GDT0 : Gdt := mkGdt GdtEntry_null code_segment data_segment user_code_segment user_data_segment TssEntry_null.

Definition Gdt_bytes (g : Gdt) : list Z :=
  concat (map GdtEntry_bytes [g_null g; kernel_code g; kernel_data g; user_code g; user_data g]) ++ TssEntry_bytes (g_tss g).

(** [size_of::<Gdt>()] *)
Definition GDT_SIZE : Z := 5 * 8 + 16.

Definition KERNEL_CODE_SELECTOR : Z := 0x08.
Definition KERNEL_DATA_SELECTOR : Z := 0x10.
Definition USER_CODE_SELECTOR : Z := Z.lor 0x18 3.
Definition USER_DATA_SELECTOR : Z := Z.lor 0x20 3.
Definition TSS_SELECTOR : Z := 0x28.

(** Where the linker put the statics. *)
Record Statics : Type := mkStatics { addr_GDT : Z; addr_TSS : Z; addr_KERNEL_STACK : Z; addr_IST_STACK1 : Z; addr_IDT : Z }.

Definition KERNEL_STACK_LEN : Z := 32768.
Definition IST_STACK1_LEN : Z := 16384.

(** A descriptor register: the size less one and the address of a table. *)
Record TableRegister : Type := mkTableReg { tr_size : Z; tr_offset : Z }.

(** The registers that say which tables are in use; [None] before they are loaded. *)
Record Tables : Type := mkTables {
  gdt : Gdt; tss : TaskStateSegment;
  gdtr : option TableRegister; cs_reg : Z; ds_regs : Z; tr : option Z;
}.

Definition gdt_init (at_ : Statics) (t : Tables) : Tables :=
  let tss_size := u16 (TSS_SIZE - 1) in
  let tss := mkTss (tss_reserved1 (tss t)) (u64 (addr_KERNEL_STACK at_ + KERNEL_STACK_LEN)) (rsp1 (tss t)) (rsp2 (tss t)) (tss_reserved2 (tss t))
    (u64 (addr_IST_STACK1 at_ + IST_STACK1_LEN)) (ist2 (tss t)) (ist3 (tss t)) (ist4 (tss t)) (ist5 (tss t)) (ist6 (tss t)) (ist7 (tss t))
    (tss_reserved3 (tss t)) (tss_reserved4 (tss t)) (iomap_base (tss t)) in
  let g := mkGdt (g_null (gdt t)) (kernel_code (gdt t)) (kernel_data (gdt t)) (user_code (gdt t)) (user_data (gdt t))
    (TssEntry_new (addr_TSS at_) tss_size) in
  mkTables g tss (Some (mkTableReg (u16 (GDT_SIZE - 1)) (addr_GDT at_))) KERNEL_CODE_SELECTOR KERNEL_DATA_SELECTOR (Some TSS_SELECTOR).

(** ** Gates *)

Inductive GateType : Type := Interrupt | Trap.

#[export] Instance GateType_eq_dec : EqDecision GateType.
Proof. solve_decision. Defined.

Definition gate_type_code (g : GateType) : Z := match g with Interrupt => 0xE | Trap => 0xF end.

Record IdtEntry : Type := mkIdtEntry {
  offset_low : Z; selector : Z; ist : Z; type_attr : Z; offset_mid : Z; offset_high : Z; i_reserved : Z;
}.

#[export] Instance IdtEntry_eq_dec : EqDecision IdtEntry.
Proof. solve_decision. Defined.

Definition IdtEntry_null : IdtEntry := mkIdtEntry 0 0 0 0 0 0 0.

Definition IdtEntry_new (handler selector ist : Z) (gate_type : GateType) (dpl : Z) : IdtEntry :=
  mkIdtEntry (u16 (Z.land handler 0xFFFF)) selector ist
    (Z.lor (Z.lor (Z.shiftl 1 7) (u8 (Z.shiftl (Z.land dpl 3) 5))) (gate_type_code gate_type))
    (u16 (Z.land (Z.shiftr handler 16) 0xFFFF)) (u32 (Z.land (Z.shiftr handler 32) 0xFFFFFFFF)) 0.

Definition set_handler (handler : Z) (e : IdtEntry) : IdtEntry :=
  mkIdtEntry (u16 (Z.land handler 0xFFFF)) KERNEL_CODE_SELECTOR (ist e)
    (Z.lor (Z.shiftl 1 7) (gate_type_code Interrupt))
    (u16 (Z.land (Z.shiftr handler 16) 0xFFFF)) (u32 (Z.land (Z.shiftr handler 32) 0xFFFFFFFF)) (i_reserved e).

Definition IdtEntry_bytes (e : IdtEntry) : list Z :=
  le 2 (offset_low e) ++ le 2 (selector e) ++ le 1 (ist e) ++ le 1 (type_attr e) ++ le 2 (offset_mid e) ++
  le 4 (offset_high e) ++ le 4 (i_reserved e).

(** [size_of::<Idt>()] *)
Definition IDT_SIZE : Z := 256 * 16.

(** The entry points: the naked functions of the source. *)
Inductive Entry : Type :=
| divide_error | debug | nmi | breakpoint | overflow | bound_range | invalid_opcode | device_not_available
| double_fault | invalid_tss | segment_not_present | stack_segment | general_protection | page_fault
| x87_fp_exception | alignment_check | machine_check | simd_fp_exception | virtualization
| irq (n : Z)
| syscall_handler.

#[export] Instance Entry_eq_dec : EqDecision Entry.
Proof. solve_decision. Defined.

Section Idt.
Context (entry_point : Entry → Z).

(** [IDT.entries[v].set_handler(e as u64)] *)
Definition install (v : Z) (e : Entry) (idt : arr IdtEntry) : arr IdtEntry :=
  arr_set idt v (set_handler (entry_point e) (arr_get idt v)).

Definition IDT0 : arr IdtEntry := arr_new 256 IdtEntry_null.

(** The exceptions before and after the double fault. *)
Definition exceptions_low : list (Z * Entry) :=
  [(0, divide_error); (1, debug); (2, nmi); (3, breakpoint); (4, overflow); (5, bound_range); (6, invalid_opcode);
   (7, device_not_available)].
Definition exceptions_high : list (Z * Entry) :=
  [(10, invalid_tss); (11, segment_not_present); (12, stack_segment); (13, general_protection); (14, page_fault);
   (16, x87_fp_exception); (17, alignment_check); (18, machine_check); (19, simd_fp_exception); (20, virtualization)].
Definition irqs : list (Z * Entry) := map (λ n, (32 + n, irq n)) (seqZ 0 16).

(** The table that [init] of idt.rs fills. *)
Definition idt_entries (idt : arr IdtEntry) : arr IdtEntry :=
  let idt := iter_list exceptions_low (λ '(v, e), install v e) idt in
  let idt := arr_set idt 8 (IdtEntry_new (entry_point double_fault) KERNEL_CODE_SELECTOR 1 Interrupt 0) in
  let idt := iter_list exceptions_high (λ '(v, e), install v e) idt in
  let idt := iter_list irqs (λ '(v, e), install v e) idt in
  arr_set idt 0x80 (IdtEntry_new (entry_point syscall_handler) KERNEL_CODE_SELECTOR 0 Trap 3).

(** [lidt] *)
Definition idt_register (at_ : Statics) : TableRegister := mkTableReg (u16 (IDT_SIZE - 1)) (addr_IDT at_).

(** ** What the processor reads *)

Definition gate_offset (e : IdtEntry) : Z := offset_low e + offset_mid e * 2 ^ 16 + offset_high e * 2 ^ 32.
Definition gate_present (e : IdtEntry) : bool := bit_on (type_attr e) 7.
Definition gate_dpl (e : IdtEntry) : Z := Z.land (Z.shiftr (type_attr e) 5) 3.
Definition gate_type (e : IdtEntry) : Z := Z.land (type_attr e) 0xF.

Definition segment_base (e : GdtEntry) : Z := base_low e + base_middle e * 2 ^ 16 + base_high e * 2 ^ 24.
Definition segment_limit (e : GdtEntry) : Z := limit_low e + Z.land (granularity e) 0xF * 2 ^ 16.
Definition tss_base (e : TssEntry) : Z :=
  te_base_low e + te_base_middle e * 2 ^ 16 + te_base_high e * 2 ^ 24 + te_base_upper e * 2 ^ 32.

End Idt.
