(* ===== verification/Interrupts.v ===== *)
(** * Interrupts: [arch/x86_64/idt.rs], [arch/mod.rs]

    The naked entry points are the instruction lists of the source, run on all
    registers and a memory of 64-bit words at multiples of eight.  The processor's
    part, [deliver] and [iretq], is its documented behaviour at one privilege level.
    What a compiled Rust function does to registers and memory is the parameter
    [call_rust]; what it does to the kernel is [run_inner], of this file for the
    interrupts of the devices.  The 8259 is reached through the ports. *)

From stdpp Require Import gmap.
From S2P Require Import Prelude Bytes Str Ports Descriptors ShellText.
From S2P Require Scheduler Keyboard Mouse Rtl8139.

(** ** Registers and instructions *)

Inductive Reg : Type := RAX | RBX | RCX | RDX | RSI | RDI | RBP | R8 | R9 | R10 | R11 | R12 | R13 | R14 | R15.

#[export] Instance Reg_eq_dec : EqDecision Reg.
Proof. solve_decision. Defined.

Record Cpu : Type := mkCpu { gpr : Reg → Z; rsp : Z; rip : Z; rflags : Z; cs : Z; ss : Z }.

Abbreviation Mem := (gmap Z Z).
Definition word (m : Mem) (a : Z) : Z := default 0 (m !! a).

(** The functions an entry point calls. *)
Inductive Inner : Type :=
| exception_handler (e : Entry)
| double_fault_inner
| page_fault_inner
| irq_common_handler
| syscall_handler_inner.

#[export] Instance Inner_eq_dec : EqDecision Inner.
Proof. solve_decision. Defined.

Inductive Instr : Type :=
| Push (r : Reg)
| Pop (r : Reg)
| MovRdiRsp
| MovRdi (n : Z)
| CallRust (f : Inner)
| AddRsp (n : Z)
| Iretq.

(** ** The entry points *)

Definition saved : list Reg := [RAX; RBX; RCX; RDX; RSI; RDI; RBP; R8; R9; R10; R11; R12; R13; R14; R15].
Definition pushes : list Instr := map Push saved.
Definition pops : list Instr :=
  map Pop [R15; R14; R13; R12; R11; R10; R9; R8; RBP; RDI; RSI; RDX; RCX; RBX; RAX].

Definition exception_handler_no_error (f : Inner) : list Instr := pushes ++ [MovRdiRsp; CallRust f] ++ pops ++ [Iretq].
Definition exception_handler_with_error (f : Inner) : list Instr :=
  pushes ++ [MovRdiRsp; CallRust f] ++ pops ++ [AddRsp 8; Iretq].
Definition double_fault_code : list Instr := [MovRdiRsp; CallRust double_fault_inner; Iretq].
Definition irq_handler (n : Z) : list Instr := pushes ++ [MovRdi n; CallRust irq_common_handler] ++ pops ++ [Iretq].

Definition entry_code (e : Entry) : list Instr :=
  match e with
  | double_fault => double_fault_code
  | page_fault => exception_handler_with_error page_fault_inner
  | irq n => irq_handler n
  | syscall_handler => exception_handler_no_error syscall_handler_inner
  | invalid_tss | segment_not_present | stack_segment | general_protection | alignment_check =>
      exception_handler_with_error (exception_handler e)
  | _ => exception_handler_no_error (exception_handler e)
  end.

Definition all_entries : list Entry :=
  [divide_error; debug; nmi; breakpoint; overflow; bound_range; invalid_opcode; device_not_available; double_fault;
   invalid_tss; segment_not_present; stack_segment; general_protection; page_fault; x87_fp_exception; alignment_check;
   machine_check; simd_fp_exception; virtualization; syscall_handler] ++ map irq (seqZ 0 16).

(** ** Running them *)

Definition set_gpr (r : Reg) (v : Z) (c : Cpu) : Cpu :=
  mkCpu (λ q, if decide (q = r) then v else gpr c q) (rsp c) (rip c) (rflags c) (cs c) (ss c).
Definition set_rsp (v : Z) (c : Cpu) : Cpu := mkCpu (gpr c) v (rip c) (rflags c) (cs c) (ss c).

Definition push (v : Z) (s : Cpu * Mem) : Cpu * Mem :=
  let sp := u64 (rsp s.1 - 8) in (set_rsp sp s.1, <[sp := v]> s.2).

Section Run.

Context {D : Type}.
(** The call of a function with what it leaves in the registers, in memory and in the
    kernel; [None] when it does not return. *)
Context (call_rust : Inner → Cpu * Mem → D → option (Cpu * Mem * D)).

Definition iretq (s : Cpu * Mem) : Cpu * Mem :=
  let '(c, m) := s in
  (mkCpu (gpr c) (word m (u64 (rsp c + 24))) (word m (rsp c)) (word m (u64 (rsp c + 16))) (word m (u64 (rsp c + 8)))
     (word m (u64 (rsp c + 32))), m).

Definition step (i : Instr) (s : Cpu * Mem) (d : D) : option (Cpu * Mem * D) :=
  let '(c, m) := s in
  match i with
  | Push r => Some (push (gpr c r) s, d)
  | Pop r => Some (set_gpr r (word m (rsp c)) (set_rsp (u64 (rsp c + 8)) c), m, d)
  | MovRdiRsp => Some (set_gpr RDI (rsp c) c, m, d)
  | MovRdi n => Some (set_gpr RDI n c, m, d)
  | CallRust f => call_rust f s d
  | AddRsp n => Some (set_rsp (u64 (rsp c + n)) c, m, d)
  | Iretq => Some (iretq s, d)
  end.

Fixpoint run (code : list Instr) (s : Cpu * Mem) (d : D) : option (Cpu * Mem * D) :=
  match code with
  | [] => Some (s, d)
  | i :: code => '(s, d) ← step i s d; run code s d
  end.

(** ** An interrupt *)

Context (entry_point : Entry → Z).
(** The stacks of the task state segment, if one is loaded. *)
Context (ist_stack : Z → option Z).

Definition IF_FLAG : Z := 9.

(** The processor through the gate of vector [v]; [err] is the error code the vector
    comes with.  [None] when no gate or no stack is there. *)
Definition deliver (idt : arr IdtEntry) (v : Z) (err : option Z) (s : Cpu * Mem) : option (Cpu * Mem) :=
  let '(c, m) := s in
  let g := arr_get idt v in
  if gate_present g then
    sp ← (if ist g =? 0 then Some (rsp c) else ist_stack (ist g));
    let s := (set_rsp (Z.land sp (not_w 64 15)) c, m) in
    let s := push (cs c) (push (rflags c) (push (rsp c) (push (ss c) s))) in
    let s := push (rip c) s in
    let s := match err with Some e => push e s | None => s end in
    let masked := Z.lor (Z.lor (Z.shiftl 1 8) (Z.shiftl 1 14)) (if gate_type g =? 0xE then Z.shiftl 1 IF_FLAG else 0) in
    Some (mkCpu (gpr c) (rsp s.1) (gate_offset g) (Z.land (rflags c) (not_w 64 masked)) (selector g) (ss c), s.2)
  else None.

(** The entry point at an address. *)
Definition entry_at (a : Z) : option Entry := List.find (λ e, entry_point e =? a) all_entries.

Definition interrupt (idt : arr IdtEntry) (v : Z) (err : option Z) (s : Cpu * Mem) (d : D) : option (Cpu * Mem * D) :=
  s ← deliver idt v err s;
  e ← entry_at (rip s.1);
  run (entry_code e) s d.

End Run.

(** The exceptions that push an error code, as documented. *)
Definition has_error (v : Z) : bool := bool_decide (v ∈ [8; 10; 11; 12; 13; 14; 17; 21; 29; 30]).

(** ** The controller *)

Definition PIC1_CMD : Z := 0x20.
Definition PIC1_DATA : Z := 0x21.
Definition PIC2_CMD : Z := 0xA0.
Definition PIC2_DATA : Z := 0xA1.

Section Pic.
Context {W : Type} `{PortIO W}.

Definition init_pic (w : W) : W :=
  let '(_mask1, w) := inb PIC1_DATA w in
  let '(_mask2, w) := inb PIC2_DATA w in
  let w := outb PIC2_CMD 0x11 (outb PIC1_CMD 0x11 w) in
  let w := outb PIC2_DATA 0x28 (outb PIC1_DATA 0x20 w) in
  let w := outb PIC2_DATA 0x02 (outb PIC1_DATA 0x04 w) in
  let w := outb PIC2_DATA 0x01 (outb PIC1_DATA 0x01 w) in
  outb PIC2_DATA 0x00 (outb PIC1_DATA 0x00 w).

Definition send_eoi (irq : Z) (w : W) : W :=
  let w := if 8 <=? irq then outb PIC2_CMD 0x20 w else w in
  outb PIC1_CMD 0x20 w.

(** [init]: the table, its register, the controller. *)
Definition idt_init (entry_point : Entry → Z) (at_ : Statics) (idt : arr IdtEntry) (w : W)
    : arr IdtEntry * TableRegister * W :=
  (idt_entries entry_point idt, idt_register at_, init_pic w).

(** ** What the handlers do *)

(** The spin locks that the handlers take. *)
Inductive Lock : Type := SCHEDULER | PROCESSES | EXTENDED_KEY | MODIFIERS | KEYBOARD_BUFFER | MOUSE | RTL8139 | CONSOLE.

#[export] Instance Lock_eq_dec : EqDecision Lock.
Proof. solve_decision. Defined.

(** The parts of the kernel they reach, the locks that the interrupted code holds, and
    the text printed. *)
Record Machine : Type := mkMachine {
  kern : Scheduler.Kernel;
  kbd : Keyboard.Keyboard;
  pointer : Mouse.MouseState;
  has_nic : bool;
  held : list Lock;
  net : Rtl8139.NetDriver W;
  printed : list Z;
}.

Definition set_kern (k : Scheduler.Kernel) (d : Machine) : Machine :=
  mkMachine k (kbd d) (pointer d) (has_nic d) (held d) (net d) (printed d).
Definition set_kbd (k : Keyboard.Keyboard) (d : Machine) : Machine :=
  mkMachine (kern d) k (pointer d) (has_nic d) (held d) (net d) (printed d).
Definition set_pointer (p : Mouse.MouseState) (d : Machine) : Machine :=
  mkMachine (kern d) (kbd d) p (has_nic d) (held d) (net d) (printed d).
Definition set_net (n : Rtl8139.NetDriver W) (d : Machine) : Machine :=
  mkMachine (kern d) (kbd d) (pointer d) (has_nic d) (held d) n (printed d).
Definition ports (d : Machine) : W := Rtl8139.net_world (net d).
Definition set_ports (w : W) (d : Machine) : Machine := set_net (Rtl8139.set_world w (net d)) d.
Definition kprintln (s : list Z) (d : Machine) : Machine :=
  mkMachine (kern d) (kbd d) (pointer d) (has_nic d) (held d) (net d) (printed d ++ s ++ [10]).

(** One of the locks is held.  The handler that asks for it spins, and the code that
    holds it does not run again until the handler returns: it spins for ever. *)
Definition spins (ls : list Lock) (d : Machine) : bool := existsb (λ l, bool_decide (l ∈ held d)) ls.

(** [f] with the locks [ls] taken, and let go of again, on the way. *)
Definition takes (ls : list Lock) (f : Machine → Machine) (d : Machine) : option Machine := if spins ls d then None else Some (f d).

Definition exception_message (e : Entry) : list Z :=
  bytes_of_string ("Exception: " ++ match e with
  | divide_error => "Division Error" | debug => "Debug" | nmi => "Non-Maskable Interrupt" | breakpoint => "Breakpoint"
  | overflow => "Overflow" | bound_range => "Bound Range Exceeded" | invalid_opcode => "Invalid Opcode"
  | device_not_available => "Device Not Available" | invalid_tss => "Invalid TSS"
  | segment_not_present => "Segment Not Present" | stack_segment => "Stack-Segment Fault"
  | general_protection => "General Protection Fault" | x87_fp_exception => "x87 Floating-Point Exception"
  | alignment_check => "Alignment Check" | machine_check => "Machine Check"
  | simd_fp_exception => "SIMD Floating-Point Exception" | virtualization => "Virtualization Exception" | _ => ""
  end).

(** [{:#x}] *)
Fixpoint hex_digits (fuel : nat) (n : Z) : list Z :=
  match fuel with
  | O => []
  | S fuel => if n <? 16 then [hex_lower n] else hex_digits fuel (n / 16) ++ [hex_lower (n mod 16)]
  end.
Definition hex (n : Z) : list Z := bytes_of_string "0x" ++ hex_digits 16 n.

Definition page_fault_handler (cr2 : Z) : Machine → option Machine :=
  takes [CONSOLE] (kprintln (bytes_of_string "Page Fault at address: " ++ hex cr2)).

(** [keyboard::handle_interrupt], [mouse::handle_interrupt] with the port they read,
    [network::handle_interrupt] with the lock it tries. *)
Definition keyboard_locks (scancode : Z) : list Lock :=
  if scancode =? 0xE0 then [EXTENDED_KEY] else [EXTENDED_KEY; MODIFIERS; KEYBOARD_BUFFER].

Definition keyboard_interrupt (d : Machine) : option Machine :=
  let '(scancode, w) := inb 0x60 (ports d) in
  takes (keyboard_locks scancode) (λ d, set_kbd (Keyboard.handle_interrupt scancode (kbd d)) d) (set_ports w d).

Definition mouse_interrupt (d : Machine) : option Machine :=
  let '(byte, w) := inb 0x60 (ports d) in
  takes [MOUSE] (λ d, set_pointer (Mouse.handle_interrupt byte (pointer d)) d) (set_ports w d).

Definition network_interrupt (d : Machine) : Machine :=
  if negb (spins [RTL8139] d) && has_nic d then set_net (Rtl8139.handle_interrupt (net d)) d else d.

(** Does the tick stay on the stack it was called on? *)
Definition keeps_stack (k : Scheduler.Kernel) : bool :=
  Scheduler.cpu_rsp (Scheduler.timer_tick (Scheduler.set_cpu_rsp (-1) k)) =? -1.

(** The tick, and the scheduling that it may start, look at the processes when there is
    a current one or one to run next. *)
Definition tick_locks (k : Scheduler.Kernel) : list Lock :=
  if negb (Scheduler.enabled k) then []
  else
    match Scheduler.current_p (Scheduler.sched k), (Scheduler.select_next (Scheduler.sched k)).1 with
    | None, None => [SCHEDULER]
    | _, _ => [SCHEDULER; PROCESSES]
    end.

Definition timer_interrupt (d : Machine) : option Machine :=
  takes (tick_locks (kern d)) (λ d, set_kern (Scheduler.timer_tick (kern d)) d) d.

(** [irq_common_handler]; [None] when it spins for ever. *)
Definition irq_common (irq : Z) (d : Machine) : option Machine :=
  d ← (if irq =? 0 then timer_interrupt d
       else if irq =? 1 then keyboard_interrupt d
       else if irq =? 11 then Some (network_interrupt d)
       else if irq =? 12 then mouse_interrupt d
       else Some d);
  Some (set_ports (send_eoi irq (ports d)) d).

(** The functions, with [rdi], on the machine; the system calls are in Syscall.v. *)
Definition run_inner (cr2 : Z) (syscall : Mem → Z → Machine → option Machine) (f : Inner) (rdi : Z) (m : Mem) (d : Machine)
    : option Machine :=
  match f with
  | exception_handler e => takes [CONSOLE] (kprintln (exception_message e)) d
  | double_fault_inner => None
  | page_fault_inner => page_fault_handler cr2 d
  | irq_common_handler =>
      let irq := u8 rdi in
      if (irq =? 0) && negb (keeps_stack (kern d)) then None else irq_common irq d
  | syscall_handler_inner => syscall m rdi d
  end.

End Pic.
Arguments Machine W : clear implicits.

(** ** Interrupts off *)

(** [without_interrupts] with the interrupt flag: [cli], the closure, [sti]. *)
Definition without_interrupts {S R : Type} (f : S → bool → R * S * bool) (s : S) (enabled : bool) : R * S * bool :=
  let fl := if enabled then false else enabled in
  let '(r, s, fl) := f s fl in
  (r, s, if enabled then true else fl).

(** ** A lock shared with an interrupt handler

    One processor: the code of the kernel takes the spin lock of a driver, works, and
    lets it go ([mouse::get_position], [keyboard::read_key]); the handler of the
    device takes the same lock.  While the handler runs the code does not. *)

Module SharedLock.

Inductive Code : Type := Outside | Inside.
Inductive Handler : Type := NotRunning | Spinning | Working.

Record State : Type := mkState { code : Code; handler : Handler; locked : bool }.

Inductive lstep : State → State → Prop :=
| code_takes : lstep (mkState Outside NotRunning false) (mkState Inside NotRunning true)
| code_leaves l : lstep (mkState Inside NotRunning l) (mkState Outside NotRunning false)
| arrives c l : lstep (mkState c NotRunning l) (mkState c Spinning l)
| handler_spins c : lstep (mkState c Spinning true) (mkState c Spinning true)
| handler_takes c : lstep (mkState c Spinning false) (mkState c Working true)
| handler_returns c l : lstep (mkState c Working l) (mkState c NotRunning false).

End SharedLock.
