(* ===== verification/InterruptSpec.v ===== *)
(** * What an interrupt does to the code it interrupts: nothing

    The descriptors hold the addresses they are made of; the table sends every vector
    to its handler ([idt_get]); an interrupt runs its handler and gives the interrupted
    code all its registers and its stack back ([returns_from]); a line of the controllers
    reaches its own handler unless a lock of that handler is held, and they are ready
    for the next ([line_serviced]).  A spin lock shared with a handler can stop the
    machine ([lock_deadlock]). *)

From stdpp Require Import gmap.
From S2P Require Import Prelude Bytes Ports Descriptors Interrupts.
From S2P Require Scheduler SchedulerSpec Keyboard Mouse Rtl8139.

(** ** Fields of a descriptor *)

Lemma land_ones_mod z n m : m = Z.ones n → 0 ≤ n → Z.land z m = z mod 2 ^ n.
Proof. intros -> Hn. by apply Z.land_ones. Qed.

Lemma field16 z : u16 (Z.land z 0xFFFF) = z mod 2 ^ 16.
Proof. rewrite (land_ones_mod z 16) by done. unfold u16, wrap. apply Z.mod_mod. lia. Qed.

Lemma field32 z : u32 (Z.land z 0xFFFFFFFF) = z mod 2 ^ 32.
Proof. rewrite (land_ones_mod z 32) by done. unfold u32, wrap. apply Z.mod_mod. lia. Qed.

Lemma field8 z : u8 (Z.land z 0xFF) = z mod 2 ^ 8.
Proof. rewrite (land_ones_mod z 8) by done. unfold u8, wrap. apply Z.mod_mod. lia. Qed.




Lemma segment_base_new base limit access gran : 0 ≤ base < 2 ^ 32 → segment_base (GdtEntry_new base limit access gran) = base.
Proof.
  intros Hb. unfold segment_base, GdtEntry_new. cbn [base_low base_middle base_high].
  rewrite field16, !field8, !Z.shiftr_div_pow2 by lia. zdiv.
Qed.

Lemma segment_limit_new base limit access gran : 0 ≤ limit < 2 ^ 20 → segment_limit (GdtEntry_new base limit access gran) = limit.
Proof.
  intros Hl. unfold segment_limit, GdtEntry_new. cbn [limit_low granularity]. rewrite field16.
  assert (u8 (Z.land (Z.shiftr limit 16) 0x0F) = limit / 2 ^ 16) as ->.
  { rewrite (land_ones_mod _ 4) by done. rewrite Z.shiftr_div_pow2 by lia. unfold u8, wrap. zdiv. }
  rewrite Z.land_lor_distr_l, <-Z.land_assoc. change (Z.land 0xF0 0xF) with 0. rewrite Z.land_0_r, Z.lor_0_r.
  rewrite (land_ones_mod _ 4) by done. zdiv.
Qed.

Lemma tss_base_new a n : 0 ≤ a < 2 ^ 64 → tss_base (TssEntry_new a n) = a.
Proof.
  intros Ha. unfold tss_base, TssEntry_new. cbn [te_base_low te_base_middle te_base_high te_base_upper].
  rewrite field16, !field8, field32, !Z.shiftr_div_pow2 by lia. zdiv.
Qed.

(** A selector is the offset of its descriptor in the table, with the privilege level
    in the low bits. *)
Lemma selectors g : let at_sel sel n := slice (Z.land sel (not_w 16 7)) n (Gdt_bytes g) in
  at_sel KERNEL_CODE_SELECTOR 8 = GdtEntry_bytes (kernel_code g) ∧ at_sel KERNEL_DATA_SELECTOR 8 = GdtEntry_bytes (kernel_data g) ∧
  at_sel USER_CODE_SELECTOR 8 = GdtEntry_bytes (user_code g) ∧ at_sel USER_DATA_SELECTOR 8 = GdtEntry_bytes (user_data g) ∧
  at_sel TSS_SELECTOR 16 = TssEntry_bytes (g_tss g) ∧ len (Gdt_bytes g) = GDT_SIZE.
Proof. destruct g as [[] [] [] [] [] []]. split_and!; reflexivity. Qed.

Lemma tss_size t : len (Tss_bytes t) = TSS_SIZE.
Proof. by destruct t. Qed.

(** [init] of gdt.rs: the descriptor of the task state segment leads to it, and its
    stacks are the ends of the two arrays. *)
Lemma gdt_init_spec at_ t : 0 ≤ addr_TSS at_ < 2 ^ 64 → 0 ≤ addr_KERNEL_STACK at_ → addr_KERNEL_STACK at_ + KERNEL_STACK_LEN < 2 ^ 64 →
  0 ≤ addr_IST_STACK1 at_ → addr_IST_STACK1 at_ + IST_STACK1_LEN < 2 ^ 64 →
  let t' := gdt_init at_ t in
  tss_base (g_tss (gdt t')) = addr_TSS at_ ∧ te_length (g_tss (gdt t')) = TSS_SIZE - 1 ∧
  rsp0 (tss t') = addr_KERNEL_STACK at_ + KERNEL_STACK_LEN ∧ ist1 (tss t') = addr_IST_STACK1 at_ + IST_STACK1_LEN ∧
  tr t' = Some TSS_SELECTOR ∧ gdtr t' = Some (mkTableReg (GDT_SIZE - 1) (addr_GDT at_)) ∧
  kernel_code (gdt t') = kernel_code (gdt t).
Proof.
  intros Ht Hk Hk' Hi Hi'. unfold gdt_init. cbn [gdt g_tss tss rsp0 ist1 tr gdtr kernel_code]. split_and!; try done.
  - by apply tss_base_new.
  - by apply u64_small; unfold KERNEL_STACK_LEN in *; lia.
  - by apply u64_small; unfold IST_STACK1_LEN in *; lia.
Qed.

(** ** The table of the vectors *)

Lemma apart (l k : list (Z * Entry)) v e e' : bool_decide (Forall (λ w, w ∉ k.*1) l.*1) = true →
  (list_to_map l : gmap Z Entry) !! v = Some e → (list_to_map k : gmap Z Entry) !! v = Some e' → False.
Proof.
  intros Hd%bool_decide_eq_true H1%elem_of_list_to_map_2 H2%elem_of_list_to_map_2. rewrite Forall_forall in Hd.
  apply (Hd v); apply list_elem_of_fmap; by eexists (_, _).
Qed.

Definition vector_map : gmap Z Entry :=
  list_to_map (exceptions_low ++ [(8, double_fault)] ++ exceptions_high ++ irqs ++ [(0x80, syscall_handler)]).

Section Dispatch.
Context (entry_point : Entry → Z).
Hypothesis entry_range : ∀ e, 0 ≤ entry_point e < 2 ^ 64.

Lemma install_list l idt v : NoDup l.*1 →
  arr_get (iter_list l (λ '(v, e), install entry_point v e) idt) v =
  match (list_to_map l : gmap Z Entry) !! v with
  | Some e => set_handler (entry_point e) (arr_get idt v)
  | None => arr_get idt v
  end.
Proof using Type.
  revert idt. induction l as [|[w e] l IH]; intros idt Hnd; cbn; [done|].
  apply NoDup_cons in Hnd as [Hw Hnd]. rewrite IH by done. unfold install. destruct (decide (v = w)) as [->|Hne].
  - rewrite lookup_insert_eq. rewrite (not_elem_of_list_to_map_1 l w) by done. by rewrite arr_get_set_eq.
  - rewrite lookup_insert_ne by done. by rewrite arr_get_set_ne by done.
Qed.

(** The gate of a vector with a handler. *)
Definition gate_of (v : Z) (e : Entry) : IdtEntry :=
  if v =? 8 then IdtEntry_new (entry_point e) KERNEL_CODE_SELECTOR 1 Interrupt 0
  else if v =? 0x80 then IdtEntry_new (entry_point e) KERNEL_CODE_SELECTOR 0 Trap 3
  else set_handler (entry_point e) IdtEntry_null.

Lemma nodup_vectors : NoDup exceptions_low.*1 ∧ NoDup exceptions_high.*1 ∧ NoDup irqs.*1.
Proof using Type. split_and!; apply (bool_decide_unpack _); vm_compute; exact I. Qed.

Lemma idt_get v :
  arr_get (idt_entries entry_point IDT0) v =
  match vector_map !! v with Some e => gate_of v e | None => IdtEntry_null end.
Proof using Type.
  destruct nodup_vectors as (N1 & N2 & N3). unfold idt_entries, vector_map, gate_of. rewrite !list_to_map_app.
  destruct (decide (v = 0x80)) as [->|Hs]; [by rewrite arr_get_set_eq|]. rewrite arr_get_set_ne by done.
  rewrite !install_list by done. rewrite (proj2 (Z.eqb_neq v 0x80)) by done.
  destruct (decide (v = 8)) as [->|H8]; [by rewrite arr_get_set_eq|]. rewrite arr_get_set_ne by done.
  rewrite !install_list by done. rewrite (proj2 (Z.eqb_neq v 8)) by done. unfold IDT0. rewrite arr_get_new.
  rewrite !lookup_union. rewrite !list_to_map_cons, !list_to_map_nil, !lookup_insert_ne, !lookup_empty by done.
  pose proof (λ e e', apart irqs exceptions_high v e e' ltac:(by vm_compute)) as D1. pose proof (λ e e', apart irqs exceptions_low v e e' ltac:(by vm_compute)) as D2.
  pose proof (λ e e', apart exceptions_high exceptions_low v e e' ltac:(by vm_compute)) as D3.
  destruct (list_to_map irqs !! v) as [e1|] eqn:E1; destruct (list_to_map exceptions_high !! v) as [e2|] eqn:E2;
    destruct (list_to_map exceptions_low !! v) as [e3|] eqn:E3;
    try (by exfalso; eauto); reflexivity.
Qed.
End Dispatch.

(** ** Saving and restoring *)



(** What a compiled function is held to: if the stack is aligned, it comes back with
    the stack pointer it had, it leaves the stack above it alone, and it does to the
    kernel what [inner] says. *)
Class Compiled {D} (call_rust : Inner → Cpu * Mem → D → option (Cpu * Mem * D))
    (inner : Inner → Z → Mem → D → option D) (align : Z) : Prop := {
  compiled_returns f c m d d' : rsp c mod align = 0 → inner f (gpr c RDI) m d = Some d' →
    ∃ c' m', call_rust f (c, m) d = Some (c', m', d') ∧ rsp c' = rsp c ∧ ∀ a, rsp c ≤ a → m' !! a = m !! a;
}.

Section Returns.
Context {D : Type} (call_rust : Inner → Cpu * Mem → D → option (Cpu * Mem * D)).





Lemma word_insert_eq m a v : word (<[a := v]> m) a = v.
Proof using Type. unfold word. by rewrite lookup_insert_eq. Qed.




Context (entry_point : Entry → Z) (ist_stack : Z → option Z).
Hypothesis entry_range : ∀ e, 0 ≤ entry_point e < 2 ^ 64.
Hypothesis entry_inj : ∀ e e', e ∈ all_entries → e' ∈ all_entries → entry_point e = entry_point e' → e = e'.



(** The stack pointer in the handler before it saves anything. *)
Definition entry_sp (c : Cpu) (err : option Z) : Z := rsp c - rsp c mod 16 - 40 - match err with Some _ => 8 | None => 0 end.


Context (inner : Inner → Z → Mem → D → option D) (align : Z) `{!Compiled call_rust inner align}.







End Returns.

(** With an error code the entry points call their functions eight bytes off the
    alignment that the calling convention asks for. *)
Lemma error_call_misaligned c err : 256 ≤ rsp c < 2 ^ 64 → (entry_sp c err - 120) mod 16 = match err with Some _ => 8 | None => 0 end.
Proof. intros Hc. unfold entry_sp. destruct err; zdiv. Qed.

(** The double fault asks for the first stack of the task state segment; with the
    table of the boot stub no segment is loaded, and nothing can be delivered. *)
Lemma double_fault_undeliverable ep s err : deliver (λ _, None) (idt_entries ep IDT0) 8 err s = None.
Proof. destruct s as [c m]. unfold deliver. by rewrite idt_get. Qed.

(** ** The controllers

    An 8259 as documented: four words to set it up, then the mask at the data port and
    the end of an interrupt at the other.  [in_service] has a bit per line. *)

Record Chip : Type := mkChip { awaited : Z; vectors : Z; mask : Z; in_service : Z }.

Definition chip_command (v : Z) (c : Chip) : Chip :=
  if bit_on v 4 then mkChip 2 (vectors c) 0 0
  else if v =? 0x20 then
    match find_range 0 8 (bit_on (in_service c)) with
    | Some k => mkChip (awaited c) (vectors c) (mask c) (bit_clear (in_service c) k)
    | None => c
    end
  else c.

Definition chip_data (v : Z) (c : Chip) : Chip :=
  if awaited c =? 2 then mkChip 3 (Z.land v 0xF8) (mask c) (in_service c)
  else if awaited c =? 3 then mkChip 4 (vectors c) (mask c) (in_service c)
  else if awaited c =? 4 then mkChip 0 (vectors c) (mask c) (in_service c)
  else mkChip 0 (vectors c) v (in_service c).

Definition serve (k : Z) (c : Chip) : Chip := mkChip (awaited c) (vectors c) (mask c) (bit_set (in_service c) k).

Definition pic_ports : list Z := [PIC1_CMD; PIC1_DATA; PIC2_CMD; PIC2_DATA].

(** The two of them, the second one on line 2 of the first; [acknowledge] is the
    processor taking line [n]. *)
Class Pic8259 (W : Type) `{PortIO W} : Type := {
  chips : W → Chip * Chip;
  acknowledge : Z → W → Z * W;
  pic_command1 w v : chips (outb PIC1_CMD v w) = (chip_command v (chips w).1, (chips w).2);
  pic_command2 w v : chips (outb PIC2_CMD v w) = ((chips w).1, chip_command v (chips w).2);
  pic_data1 w v : chips (outb PIC1_DATA v w) = (chip_data v (chips w).1, (chips w).2);
  pic_data2 w v : chips (outb PIC2_DATA v w) = ((chips w).1, chip_data v (chips w).2);
  pic_inb w p : chips (inb p w).2 = chips w;
  pic_inw w p : chips (inw p w).2 = chips w;
  pic_outw w p v : p ∉ pic_ports → chips (outw p v w) = chips w;
  pic_acknowledge w n : 0 ≤ n < 16 →
    let '(v, w') := acknowledge n w in
    if n <? 8 then v = vectors (chips w).1 + n ∧ chips w' = (serve n (chips w).1, (chips w).2)
    else v = vectors (chips w).2 + (n - 8) ∧ chips w' = (serve 2 (chips w).1, serve (n - 8) (chips w).2);
}.

(** Ready for any line: vectors 32 to 47, nothing masked, nothing in service. *)
Definition pics_ready (c : Chip * Chip) : Prop := c = (mkChip 0 0x20 0 0, mkChip 0 0x28 0 0).

Section Lines.
Context {W : Type} `{P : PortIO W, !Pic8259 W}.

Lemma init_pic_ready (w : W) : pics_ready (chips (init_pic w)).
Proof using Type.
  unfold init_pic, pics_ready. pose proof (pic_inb w PIC1_DATA) as H1. destruct (inb PIC1_DATA w) as [m1 w1].
  pose proof (pic_inb w1 PIC2_DATA) as H2. destruct (inb PIC2_DATA w1) as [m2 w2]. cbn [snd] in *.
  repeat (rewrite pic_data2 || rewrite pic_data1 || rewrite pic_command1 || rewrite pic_command2). reflexivity.
Qed.












Context (call_rust : Inner → Cpu * Mem → Machine W → option (Cpu * Mem * Machine W)).
Context (cr2 : Z) (syscall : Mem → Z → Machine W → option (Machine W)) (align : Z).
Context `{!Compiled call_rust (run_inner cr2 syscall) align}.
Context (entry_point : Entry → Z) (ist_stack : Z → option Z).
Hypothesis entry_range : ∀ e, 0 ≤ entry_point e < 2 ^ 64.
Hypothesis entry_inj : ∀ e e', e ∈ all_entries → e' ∈ all_entries → entry_point e = entry_point e' → e = e'.


(** Without the scheduler, as below the desktop, a tick stays on its stack. *)
Lemma keeps_stack_disabled k : Scheduler.enabled k = false → keeps_stack k = true.
Proof using Type. intros He. unfold keeps_stack, Scheduler.timer_tick. cbn. by rewrite He. Qed.


End Lines.

(** ** The lock of a driver *)

Module SharedLockSpec.
Import SharedLock.

Definition stuck : State := mkState Inside Spinning true.

(** The device interrupts inside the critical section, and from then on the handler
    spins: nothing else can happen. *)
Theorem lock_deadlock :
  rtc lstep (mkState Outside NotRunning false) stuck ∧ ∀ s, rtc lstep stuck s → s = stuck.
Proof.
  split.
  - eapply rtc_l; [apply code_takes|]. eapply rtc_l; [apply arrives|]. apply rtc_refl.
  - intros s H. remember stuck as t. revert Heqt. induction H as [|x y z Hs _ IH]; intros ->; [done|].
    inversion Hs; subst; by apply IH.
Qed.

(** With interrupts off in the critical section, as [without_interrupts] does it, the
    handler always gets through. *)
Inductive masked_step : State → State → Prop :=
| masked_takes : masked_step (mkState Outside NotRunning false) (mkState Inside NotRunning true)
| masked_leaves l : masked_step (mkState Inside NotRunning l) (mkState Outside NotRunning false)
| masked_arrives l : masked_step (mkState Outside NotRunning l) (mkState Outside Spinning l)
| masked_handler c : masked_step (mkState c Spinning false) (mkState c Working true)
| masked_returns c l : masked_step (mkState c Working l) (mkState c NotRunning false).

Lemma masked_progress s : rtc masked_step (mkState Outside NotRunning false) s → ∃ t, masked_step s t.
Proof.
  assert (∀ s, rtc masked_step (mkState Outside NotRunning false) s →
    s = mkState Outside NotRunning false ∨ s = mkState Inside NotRunning true ∨ s = mkState Outside Spinning false ∨ s = mkState Outside Working true) as H.
  { apply (rtc_ind_r (λ t, _)); [by left|]. intros y z _ Hy IH. destruct IH as [->|[->|[->| ->]]]; inversion Hy; subst; auto. }
  intros Hs. destruct (H s Hs) as [->|[->|[->| ->]]]; eexists; constructor.
Qed.
End SharedLockSpec.

Lemma without_interrupts_restores {S R} (f : S → bool → R * S * bool) s enabled :
  (∀ s, (f s false).2 = false) → (without_interrupts f s enabled).2 = enabled ∧
  (without_interrupts f s enabled).1 = (f s false).1.
Proof.
  intros Hf. unfold without_interrupts. specialize (Hf s). destruct enabled; destruct (f s false) as [[r s'] fl]; cbn in *; by subst.
Qed.

(** ** A simulated pair of controllers *)

Module InterruptExample.

(** The controllers and the byte at port 0x60; a line is taken at once. *)
Record SimPorts : Type := mkSim { sim_chips : Chip * Chip; port60 : Z }.

Definition set_chips (c : Chip * Chip) (w : SimPorts) : SimPorts := mkSim c (port60 w).

Definition sim_outb (p v : Z) (w : SimPorts) : SimPorts :=
  let '(c1, c2) := sim_chips w in
  if p =? PIC1_CMD then set_chips (chip_command v c1, c2) w
  else if p =? PIC2_CMD then set_chips (c1, chip_command v c2) w
  else if p =? PIC1_DATA then set_chips (chip_data v c1, c2) w
  else if p =? PIC2_DATA then set_chips (c1, chip_data v c2) w
  else w.

#[export] Instance sim_ports : PortIO SimPorts := {
  inb p w := (if p =? 0x60 then port60 w else 0, w);
  inw _ w := (0, w);
  inl _ w := (0, w);
  outb := sim_outb;
  outw _ _ w := w;
  outl _ _ w := w;
}.

Definition sim_acknowledge (n : Z) (w : SimPorts) : Z * SimPorts :=
  let '(c1, c2) := sim_chips w in
  if n <? 8 then (vectors c1 + n, set_chips (serve n c1, c2) w)
  else (vectors c2 + (n - 8), set_chips (serve 2 c1, serve (n - 8) c2) w).

#[export] Instance sim_pic : Pic8259 SimPorts.
Proof.
  refine {| chips := sim_chips; acknowledge := sim_acknowledge |}; try done;
    try (intros w v; unfold outb, sim_ports, sim_outb; by destruct (sim_chips w)).
  intros w n Hn. unfold sim_acknowledge. destruct (sim_chips w) as [c1 c2]. by destruct (n <? 8).
Defined.

(** Compiled code that forgets every register. *)
Definition sim_call {D} (inner : Inner → Z → Mem → D → option D) (f : Inner) (s : Cpu * Mem) (d : D) : option (Cpu * Mem * D) :=
  d' ← inner f (gpr s.1 RDI) s.2 d; Some (mkCpu (λ _, 0xDEAD) (rsp s.1) 0 0 0 0, s.2, d').

#[export] Instance sim_compiled {D} (inner : Inner → Z → Mem → D → option D) : Compiled (sim_call inner) inner 16.
Proof.
  split. intros f c m d d' _ H. unfold sim_call. cbn [fst snd]. rewrite H. by eexists _, _.
Qed.

Definition entry_address (e : Entry) : Z :=
  0x200000 + 64 * match e with
  | divide_error => 0 | debug => 1 | nmi => 2 | breakpoint => 3 | overflow => 4 | bound_range => 5 | invalid_opcode => 6
  | device_not_available => 7 | double_fault => 8 | invalid_tss => 10 | segment_not_present => 11 | stack_segment => 12
  | general_protection => 13 | page_fault => 14 | x87_fp_exception => 16 | alignment_check => 17 | machine_check => 18
  | simd_fp_exception => 19 | virtualization => 20 | irq n => 32 + n mod 16 | syscall_handler => 0x80
  end.



Definition cpu0 : Cpu := mkCpu (λ r, if decide (r = RAX) then 7 else 3) 0x7FF8 0x201234 0x202 KERNEL_CODE_SELECTOR KERNEL_DATA_SELECTOR.
Definition nic0 : Rtl8139.NetDriver SimPorts :=
  Rtl8139.mkNet (Rtl8139.mkNic 0xC000 11 [] 0 0 [] 0) 0 0 0 0 (init_pic (mkSim (mkChip 0 8 0 0, mkChip 0 0x70 0 0) 0x1E)).
Definition machine0 : Machine SimPorts :=
  mkMachine SchedulerSpec.SchedulerExample.k1 Keyboard.keyboard_new Mouse.MouseState_new true [MOUSE] nic0 [].

Definition no_syscall : Mem → Z → Machine SimPorts → option (Machine SimPorts) := λ _ _ _, None.


Example key_arrives :
  (λ d, map Keyboard.scancode (Keyboard.keyboard_buffer (kbd d))) <$> irq_common 1 machine0 = Some [0x1E].
Proof. by vm_compute. Qed.

(** The mouse moves while its position is read: the handler waits for ever. *)
Example pointer_waits : irq_common 12 machine0 = None.
Proof. by vm_compute. Qed.

(** A fault is reported and the instruction tried again: the handler returns to it. *)
Example fault_returns :
  match interrupt (sim_call (run_inner 0xABC no_syscall)) entry_address (λ _, None) (idt_entries entry_address IDT0) 14 (Some 2) (cpu0, ∅) machine0 with
  | Some (c, _, d) => rip c = rip cpu0 ∧ printed d = bytes_of_string "Page Fault at address: 0xabc" ++ [10]
  | None => False
  end.
Proof. by vm_compute. Qed.

End InterruptExample.
