(* ===== verification/Machine.v ===== *)
(** * The processor and its chips: [arch/x86_64]

    The timer ([pit.rs]), the serial port ([serial.rs], and its early form in
    [main.rs]), the local APIC ([apic.rs]), identification ([cpu.rs]) and the start of
    all of it ([mod.rs]).  Ports are the class [PortIO]; registers in memory, model
    specific registers and [cpuid] are parameters with the state of the devices. *)

From S2P Require Import Prelude Bytes Str Ports Paging Descriptors Interrupts.

(** ** The timer *)

Module Pit.

Definition PIT_CH0_DATA : Z := 0x40.
Definition PIT_CH2_DATA : Z := 0x42.
Definition PIT_CMD : Z := 0x43.
Definition PIT_FREQUENCY : Z := 1193182.

(** [TICK_COUNT], [TIMER_FREQ] and the devices. *)
Record Pit (W : Type) : Type := mkPit { tick_count : Z; timer_freq : Z; world : W }.
Arguments mkPit {W}. Arguments tick_count {W}. Arguments timer_freq {W}. Arguments world {W}.

Section Pit.
Context {W : Type} `{PortIO W}.

Definition out (port v : Z) (s : Pit W) : Pit W := mkPit (tick_count s) (timer_freq s) (outb port v (world s)).
Definition inp (port : Z) (s : Pit W) : Z * Pit W :=
  let '(v, w) := inb port (world s) in (v, mkPit (tick_count s) (timer_freq s) w).

(** Division by zero panics, after the frequency is stored. *)
Definition pit_init (freq : Z) : M (Pit W) unit := λ s,
  let s := mkPit (tick_count s) freq (world s) in
  if freq =? 0 then (Panic, s)
  else
    let divisor := PIT_FREQUENCY / freq in
    let s := out PIT_CMD 0x36 s in
    let s := out PIT_CH0_DATA (u8 (Z.land divisor 0xFF)) s in
    (Ok tt, out PIT_CH0_DATA (u8 (Z.land (Z.shiftr divisor 8) 0xFF)) s).

Definition ticks (s : Pit W) : Z := tick_count s.
Definition tick (s : Pit W) : Pit W := mkPit (u64 (tick_count s + 1)) (timer_freq s) (world s).
Definition frequency (s : Pit W) : Z := timer_freq s.

Definition uptime_ms (s : Pit W) : res Z :=
  if frequency s =? 0 then Panic else Ok (u64 (ticks s * 1000) / frequency s).
Definition uptime_secs (s : Pit W) : res Z :=
  if frequency s =? 0 then Panic else Ok (ticks s / frequency s).

(** The loop of [sleep_ms]; [halts i] is what happens while the processor halts. *)
Fixpoint sleep_loop (fuel : nat) (halts : nat → Pit W → Pit W) (i : nat) (target : Z) (s : Pit W) : option (res unit * Pit W) :=
  match fuel with
  | O => None
  | S fuel =>
      match uptime_ms s with
      | Ok now => if now <? target then sleep_loop fuel halts (S i) target (halts i s) else Some (Ok tt, s)
      | Err e => Some (Err e, s)
      | Panic => Some (Panic, s)
      end
  end.

Definition sleep_ms (fuel : nat) (halts : nat → Pit W → Pit W) (ms : Z) (s : Pit W) : option (res unit * Pit W) :=
  match uptime_ms s with
  | Ok now => sleep_loop fuel halts 0 (u64 (now + ms)) s
  | Err e => Some (Err e, s)
  | Panic => Some (Panic, s)
  end.

Definition read_count (s : Pit W) : Z * Pit W :=
  let s := out PIT_CMD 0x00 s in
  let '(low, s) := inp PIT_CH0_DATA s in
  let '(high, s) := inp PIT_CH0_DATA s in
  (Z.lor (u16 (Z.shiftl high 8)) low, s).

Definition speaker_on (freq : Z) : M (Pit W) unit := λ s,
  if freq =? 0 then (Panic, s)
  else
    let divisor := PIT_FREQUENCY / freq in
    let s := out PIT_CMD 0xB6 s in
    let s := out PIT_CH2_DATA (u8 (Z.land divisor 0xFF)) s in
    let s := out PIT_CH2_DATA (u8 (Z.land (Z.shiftr divisor 8) 0xFF)) s in
    let '(tmp, s) := inp 0x61 s in
    (Ok tt, out 0x61 (Z.lor tmp 0x03) s).

Definition speaker_off (s : Pit W) : Pit W :=
  let '(tmp, s) := inp 0x61 s in out 0x61 (Z.land tmp 0xFC) s.

End Pit.
End Pit.

(** ** The serial port *)

Module Serial.

Definition COM1 : Z := 0x3F8.

Section Serial.
Context {W : Type} `{PortIO W}.

(** [Serial] is the number of its first port. *)
Definition serial_init (port : Z) (w : W) : W :=
  let w := outb (port + 1) 0x00 w in
  let w := outb (port + 3) 0x80 w in
  let w := outb (port + 1) 0x00 (outb (port + 0) 0x01 w) in
  let w := outb (port + 3) 0x03 w in
  let w := outb (port + 2) 0xC7 w in
  let w := outb (port + 4) 0x0B w in
  let w := outb (port + 4) 0x1E w in
  let w := outb (port + 0) 0xAE w in
  let '(v, w) := inb (port + 0) w in
  if negb (v =? 0xAE) then w else outb (port + 4) 0x0F w.

Definition is_transmit_empty (port : Z) (w : W) : bool * W :=
  let '(v, w) := inb (port + 5) w in (negb (Z.land v 0x20 =? 0), w).

(** [while !self.is_transmit_empty() {}]: [None] when it is not over in [fuel] turns. *)
Fixpoint wait_empty (fuel : nat) (port : Z) (w : W) : option W :=
  match fuel with
  | O => None
  | S fuel => let '(b, w) := is_transmit_empty port w in if (b : bool) then Some w else wait_empty fuel port w
  end.

Definition write_byte (fuel : nat) (port byte : Z) (w : W) : option W :=
  w ← wait_empty fuel port w; Some (outb port byte w).

Definition has_data (port : Z) (w : W) : bool * W :=
  let '(v, w) := inb (port + 5) w in (negb (Z.land v 0x01 =? 0), w).

Definition read_byte (port : Z) (w : W) : option Z * W :=
  let '(b, w) := has_data port w in
  if (b : bool) then let '(v, w) := inb port w in (Some v, w) else (None, w).

Fixpoint write_string (fuel : nat) (port : Z) (s : list Z) (w : W) : option W :=
  match s with
  | [] => Some w
  | byte :: s =>
      w ← (if byte =? 10 then write_byte fuel port 13 w else Some w);
      w ← write_byte fuel port byte w;
      write_string fuel port s w
  end.

(** [early_serial_init] and [early_serial_write] of main.rs. *)
Definition early_serial_init (w : W) : W :=
  let w := outb (COM1 + 1) 0x00 w in
  let w := outb (COM1 + 3) 0x80 w in
  let w := outb (COM1 + 1) 0x00 (outb (COM1 + 0) 0x01 w) in
  let w := outb (COM1 + 3) 0x03 w in
  let w := outb (COM1 + 2) 0xC7 w in
  outb (COM1 + 4) 0x0F w.

Fixpoint early_serial_write (fuel : nat) (s : list Z) (w : W) : option W :=
  match s with
  | [] => Some w
  | byte :: s => w ← write_byte fuel COM1 byte w; early_serial_write fuel s w
  end.

End Serial.
End Serial.

(** ** Registers by number *)

(** Registers in memory (32 bits) and model specific ones (the halves in edx and eax). *)
Class RegisterIO (W : Type) : Type := {
  mem_read : Z → W → Z * W;
  mem_write : Z → Z → W → W;
  msr_read : Z → W → (Z * Z) * W;
  msr_write : Z → Z → Z → W → W;
}.

Section Registers.
Context {W : Type} `{RegisterIO W}.

Definition rdmsr (msr : Z) (w : W) : Z * W :=
  let '((high, low), w) := msr_read msr w in (Z.lor (Z.shiftl high 32) low, w).

Definition wrmsr (msr value : Z) (w : W) : W :=
  msr_write msr (u32 (Z.shiftr value 32)) (u32 value) w.

(** [rdtsc] has its halves in the same registers. *)
Definition rdtsc (high low : Z) : Z := Z.lor (Z.shiftl high 32) low.
End Registers.

(** ** The local APIC *)

Module Apic.

Definition IA32_APIC_BASE_MSR : Z := 0x1B.
Definition ID : Z := 0x020.
Definition VERSION : Z := 0x030.
Definition TPR : Z := 0x080.
Definition EOI : Z := 0x0B0.
Definition SVR : Z := 0x0F0.
Definition ICR_LOW : Z := 0x300.
Definition ICR_HIGH : Z := 0x310.
Definition LVT_TIMER : Z := 0x320.
Definition LVT_THERMAL : Z := 0x330.
Definition LVT_PERF : Z := 0x340.
Definition LVT_LINT0 : Z := 0x350.
Definition LVT_LINT1 : Z := 0x360.
Definition LVT_ERROR : Z := 0x370.
Definition TIMER_ICR : Z := 0x380.
Definition TIMER_CCR : Z := 0x390.
Definition TIMER_DCR : Z := 0x3E0.

(** [APIC_BASE] and the devices. *)
Record Apic (W : Type) : Type := mkApic { apic_base : Z; aworld : W }.
Arguments mkApic {W}. Arguments apic_base {W}. Arguments aworld {W}.

Section Apic.
Context {W : Type} `{RegisterIO W}.

(** eax, ebx, ecx, edx *)
Context (cpuid : Z → Z * Z * Z * Z).

Definition is_available : bool := let '(_, _, _, edx) := cpuid 1 in negb (Z.land edx (Z.shiftl 1 9) =? 0).

Definition read_reg (offset : Z) (s : Apic W) : Z * Apic W :=
  let '(v, w) := mem_read (u64 (apic_base s + offset)) (aworld s) in (v, mkApic (apic_base s) w).
Definition write_reg (offset value : Z) (s : Apic W) : Apic W :=
  mkApic (apic_base s) (mem_write (u64 (apic_base s + offset)) value (aworld s)).

Definition MASKED : Z := Z.shiftl 1 16.

Definition apic_init (s : Apic W) : bool * Apic W :=
  if negb is_available then (false, s)
  else
    let '(base, w) := rdmsr IA32_APIC_BASE_MSR (aworld s) in
    let s := mkApic (Z.land base 0xFFFFF000) (wrmsr IA32_APIC_BASE_MSR (Z.lor base (Z.shiftl 1 11)) w) in
    let s := write_reg TPR 0 (write_reg SVR 0x1FF s) in
    let s := iter_list [LVT_TIMER; LVT_THERMAL; LVT_PERF; LVT_LINT0; LVT_LINT1; LVT_ERROR] (λ r, write_reg r MASKED) s in
    (true, s).

Definition apic_send_eoi (s : Apic W) : Apic W := write_reg EOI 0 s.
Definition get_id (s : Apic W) : Z * Apic W :=
  let '(v, s) := read_reg ID s in (u8 (Z.land (Z.shiftr v 24) 0xFF), s).
Definition get_version (s : Apic W) : Z * Apic W :=
  let '(v, s) := read_reg VERSION s in (u8 (Z.land v 0xFF), s).

Definition divide_code (divider : Z) : Z :=
  if divider =? 1 then 0xB else if divider =? 2 then 0x0 else if divider =? 4 then 0x1 else if divider =? 8 then 0x2
  else if divider =? 16 then 0x3 else if divider =? 32 then 0x8 else if divider =? 64 then 0x9
  else if divider =? 128 then 0xA else 0xB.

Definition configure_timer (vector divider initial_count : Z) (periodic : bool) (s : Apic W) : Apic W :=
  let s := write_reg TIMER_DCR (divide_code divider) s in
  let mode := if periodic then 0x20000 else 0 in
  let s := write_reg LVT_TIMER (Z.lor vector mode) s in
  write_reg TIMER_ICR initial_count s.

Definition stop_timer (s : Apic W) : Apic W := write_reg LVT_TIMER MASKED (write_reg TIMER_ICR 0 s).
Definition timer_current (s : Apic W) : Z * Apic W := read_reg TIMER_CCR s.

Definition send_ipi (apic_id vector : Z) (s : Apic W) : Apic W :=
  write_reg ICR_LOW vector (write_reg ICR_HIGH (u32 (Z.shiftl apic_id 24)) s).
Definition send_init_ipi_all (s : Apic W) : Apic W := write_reg ICR_LOW 0xC4500 (write_reg ICR_HIGH 0 s).
Definition send_startup_ipi_all (vector : Z) (s : Apic W) : Apic W :=
  write_reg ICR_LOW (Z.lor 0xC4600 vector) (write_reg ICR_HIGH 0 s).

End Apic.
End Apic.

(** ** Identification *)

Module Cpuid.

Record CpuFeatures : Type := mkFeatures {
  vendor : list Z; brand : list Z; family : Z; model : Z; stepping : Z;
  has_sse : bool; has_sse2 : bool; has_sse3 : bool; has_ssse3 : bool; has_sse4_1 : bool; has_sse4_2 : bool;
  has_avx : bool; has_avx2 : bool; has_apic : bool; has_x2apic : bool; has_tsc : bool; has_msr : bool; has_pae : bool;
  has_nx : bool; has_vmx : bool; has_svm : bool; cores : Z; threads_per_core : Z;
}.

Section Cpuid.
Context (cpuid : Z → Z * Z * Z * Z).

Definition reg_a (leaf : Z) : Z := let '(a, _, _, _) := cpuid leaf in a.
Definition reg_b (leaf : Z) : Z := let '(_, b, _, _) := cpuid leaf in b.
Definition reg_c (leaf : Z) : Z := let '(_, _, c, _) := cpuid leaf in c.
Definition reg_d (leaf : Z) : Z := let '(_, _, _, d) := cpuid leaf in d.

(** [value & (1 << n) != 0] *)
Definition flag (value n : Z) : bool := negb (Z.land value (Z.shiftl 1 n) =? 0).

Definition vendor_bytes : list Z :=
  splice 8 (le 4 (reg_c 0)) (splice 4 (le 4 (reg_d 0)) (splice 0 (le 4 (reg_b 0)) (zeros 12))).

(** Family, model and stepping of a signature; the model is extended after the
    family has been. *)
Definition signature (eax : Z) : Z * Z * Z :=
  let stepping := u8 (Z.land eax 0xF) in
  let model := u8 (Z.land (Z.shiftr eax 4) 0xF) in
  let family := u8 (Z.land (Z.shiftr eax 8) 0xF) in
  let family := if family =? 0xF then u8 (family + u8 (Z.land (Z.shiftr eax 20) 0xFF)) else family in
  let model :=
    if (family =? 0x6) || (family =? 0xF) then u8 (model + u8 (Z.shiftl (Z.land (Z.shiftr eax 16) 0xF) 4)) else model in
  (family, model, stepping).

Definition brand_bytes : list Z :=
  for_range 0 3 (λ i brand,
    let leaf := 0x80000002 + i in
    let offset := i * 16 in
    splice (offset + 12) (le 4 (reg_d leaf)) (splice (offset + 8) (le 4 (reg_c leaf))
      (splice (offset + 4) (le 4 (reg_b leaf)) (splice offset (le 4 (reg_a leaf)) brand)))) (zeros 48).

Definition detect : CpuFeatures :=
  let '(family, model, stepping) := signature (reg_a 1) in
  let ecx := reg_c 1 in
  let edx := reg_d 1 in
  let max := reg_a 0x80000000 in
  let threads := u8 (Z.land (Z.shiftr (reg_b 1) 16) 0xFF) in
  {| vendor := vendor_bytes; brand := if 0x80000004 <=? max then brand_bytes else zeros 48;
     family := family; model := model; stepping := stepping;
     has_sse := flag edx 25; has_sse2 := flag edx 26; has_sse3 := flag ecx 0; has_ssse3 := flag ecx 9;
     has_sse4_1 := flag ecx 19; has_sse4_2 := flag ecx 20; has_avx := flag ecx 28; has_avx2 := flag (reg_b 7) 5;
     has_apic := flag edx 9; has_x2apic := flag ecx 21; has_tsc := flag edx 4; has_msr := flag edx 5; has_pae := flag edx 6;
     has_nx := (0x80000001 <=? max) && flag (reg_d 0x80000001) 20;
     has_vmx := flag ecx 5; has_svm := flag (reg_c 0x80000001) 2;
     cores := 1; threads_per_core := if threads =? 0 then 1 else threads |}.

End Cpuid.

(** [from_utf8(..).unwrap_or("Unknown")] *)
Definition vendor_string (f : CpuFeatures) : list Z :=
  if is_utf8 (vendor f) then vendor f else bytes_of_string "Unknown".

Definition brand_string (f : CpuFeatures) : list Z :=
  let s := before_byte 0 (brand f) in
  trim (if is_utf8 s then s else bytes_of_string "Unknown").

End Cpuid.

(** ** The start: [init] of [mod.rs]

    In its order, with the lines it sends to the serial port: the interrupt table and
    its controllers, the page tables, the timer, the serial port, and then interrupts
    are on.  The descriptor table of the boot stub stays in use. *)

Module Arch.

Record Arch (W : Type) : Type := mkArch {
  idt : arr IdtEntry;
  idtr : option TableRegister;
  page_memory : gmap Z Z;
  pit : Pit.Pit W;
  interrupts_on : bool;
}.
Arguments mkArch {W}. Arguments idt {W}. Arguments idtr {W}. Arguments page_memory {W}. Arguments pit {W}. Arguments interrupts_on {W}.

Section Init.
Context {W : Type} `{PortIO W}.
Context (fuel : nat) (entry_point : Entry → Z) (at_ : Statics) (L : Layout).

(** [None] when the serial port is never ready, [Panic] when a step panics. *)
Definition Step : Type := Arch W → option (res unit * Arch W).

Definition then_ (a b : Step) : Step := λ s,
  '(r, s) ← a s; match r with Ok _ => b s | Err e => Some (Err e, s) | Panic => Some (Panic, s) end.

Definition on_ports (f : W → option W) : Step := λ s,
  w ← f (Pit.world (pit s));
  Some (Ok tt, mkArch (idt s) (idtr s) (page_memory s) (Pit.mkPit (Pit.tick_count (pit s)) (Pit.timer_freq (pit s)) w) (interrupts_on s)).

Definition say (s : string) : Step := on_ports (Serial.early_serial_write fuel (bytes_of_string s ++ [13; 10])).

Definition step_idt : Step := λ s,
  let '(table, r, w) := idt_init entry_point at_ (idt s) (Pit.world (pit s)) in
  Some (Ok tt, mkArch table (Some r) (page_memory s) (Pit.mkPit (Pit.tick_count (pit s)) (Pit.timer_freq (pit s)) w) (interrupts_on s)).

Definition step_paging : Step := λ s,
  Some (Ok tt, mkArch (idt s) (idtr s) (paging_init L (page_memory s)) (pit s) (interrupts_on s)).

Definition step_pit : Step := λ s,
  let '(r, p) := Pit.pit_init 1000 (pit s) in Some (r, mkArch (idt s) (idtr s) (page_memory s) p (interrupts_on s)).

Definition enable_interrupts : Step := λ s, Some (Ok tt, mkArch (idt s) (idtr s) (page_memory s) (pit s) true).

Definition init : Step :=
  then_ (say "Using boot GDT") (then_ (say "IDT init...") (then_ step_idt (then_ (say "IDT done")
  (then_ (say "Paging init...") (then_ step_paging (then_ (say "Paging done")
  (then_ (say "Using legacy PIC")
  (then_ (say "PIT init...") (then_ step_pit (then_ (say "PIT done")
  (then_ (say "Serial init...") (then_ (on_ports (λ w, Some (Serial.serial_init Serial.COM1 w))) (then_ (say "Serial done")
  (then_ (say "Enabling interrupts...") (then_ enable_interrupts (say "Interrupts enabled")))))))))))))))).

End Init.

End Arch.
