(* ===== verification/MachineSpec.v ===== *)
(** * The timer, the serial port and the processor's registers

    A text sent to a serial port that follows [Uart] is transmitted, with a carriage
    return before each newline, and the waiting ends ([serial_text]).  The timer gets
    the divisor of its frequency, unless that is 18 Hz or less; a sleep lasts as many
    milliseconds as it should ([sleep_returns]).  Identification reads what the
    registers say, but for the model of the families above 15. *)

From S2P Require Import Prelude Bytes Str Ports Machine.
From S2P Require Paging Descriptors Interrupts InterruptSpec.

(** ** The serial port *)

(** An UART at [port] as documented: outside loopback and with the divisor latch
    closed, bit 5 of the line status says that the holding register is empty, which it
    is after [remaining] more looks; a byte written then is transmitted. *)
Class Uart (W : Type) `{PortIO W} (port : Z) : Type := {
  open : W → bool;
  transmitted : W → list Z;
  remaining : W → nat;
  uart_status w : open w = true →
    let '(v, w') := inb (port + 5) w in
    open w' = true ∧ transmitted w' = transmitted w ∧ bit_on v 5 = (remaining w =? 0)%nat ∧ remaining w' = pred (remaining w);
  uart_data w v : open w = true → remaining w = 0%nat →
    open (outb port v w) = true ∧ transmitted (outb port v w) = transmitted w ++ [v];
}.

Section SerialSpec.
Context {W : Type} `{P : PortIO W} (port : Z) `{!Uart W port}.
Context (bound : nat).
Hypothesis in_time : ∀ w, (remaining w < bound)%nat.

Lemma wait_empty_spec fuel (w : W) : open w = true → (remaining w < fuel)%nat →
  ∃ w', Serial.wait_empty fuel port w = Some w' ∧ open w' = true ∧ transmitted w' = transmitted w ∧ remaining w' = 0%nat.
Proof using Type.
  revert w. induction fuel as [|fuel IH]; intros w Ho Hr; [lia|]. cbn [Serial.wait_empty]. unfold Serial.is_transmit_empty.
  pose proof (uart_status w Ho) as Hs. destruct (inb (port + 5) w) as [v w1]. destruct Hs as (Ho1 & Ht1 & Hb & Hr1).
  change (negb (Z.land v 0x20 =? 0)) with (bit_on v 5). rewrite Hb. destruct (Nat.eqb_spec (remaining w) 0) as [E|E].
  - exists w1. rewrite Hr1, E. done.
  - destruct (IH w1 Ho1) as (w' & E' & Ho' & Ht' & Hr'); [lia|]. exists w'. by rewrite Ht', Ht1.
Qed.

Lemma write_byte_spec b (w : W) : open w = true →
  ∃ w', Serial.write_byte bound port b w = Some w' ∧ open w' = true ∧ transmitted w' = transmitted w ++ [b].
Proof using in_time.
  intros Ho. destruct (wait_empty_spec bound w Ho (in_time w)) as (w1 & E & Ho1 & Ht & Hr). unfold Serial.write_byte. rewrite E.
  destruct (uart_data w1 b Ho1 Hr) as [Ho2 Ht2]. exists (outb port b w1). by rewrite Ht2, Ht.
Qed.

(** What goes over the line for a text. *)
Definition line_text (s : list Z) : list Z := s ≫= λ b, if b =? 10 then [13; 10] else [b].

(** A text is transmitted byte by byte, a carriage return before each newline,
    after what was sent before; the wait for the port is over each time. *)
Theorem serial_text s (w : W) : open w = true →
  ∃ w', Serial.write_string bound port s w = Some w' ∧ open w' = true ∧ transmitted w' = transmitted w ++ line_text s.
Proof using in_time.
  revert w. induction s as [|b s IH]; intros w Ho; [exists w; by rewrite app_nil_r|]. cbn [Serial.write_string].
  assert (∃ w1, (if b =? 10 then Serial.write_byte bound port 13 w else Some w) = Some w1 ∧ open w1 = true ∧
    transmitted w1 = transmitted w ++ (if b =? 10 then [13] else [])) as (w1 & -> & Ho1 & Ht1).
  { destruct (b =? 10); [by apply write_byte_spec|exists w; by rewrite app_nil_r]. }
  cbn [mbind option_bind]. destruct (write_byte_spec b w1 Ho1) as (w2 & -> & Ho2 & Ht2). cbn [mbind option_bind].
  destruct (IH w2 Ho2) as (w3 & -> & Ho3 & Ht3). exists w3. split_and!; [done|done|].
  rewrite Ht3, Ht2, Ht1. unfold line_text. cbn. destruct (b =? 10) eqn:E; [apply Z.eqb_eq in E as ->|]; by rewrite <-!(assoc_L app).
Qed.

(** The early form sends the bytes as they are. *)
Lemma early_serial_text s (w : W) : port = Serial.COM1 → open w = true →
  ∃ w', Serial.early_serial_write bound s w = Some w' ∧ open w' = true ∧ transmitted w' = transmitted w ++ s.
Proof using in_time.
  intros Hp. revert w. induction s as [|b s IH]; intros w Ho; [exists w; by rewrite app_nil_r|]. cbn [Serial.early_serial_write].
  destruct (write_byte_spec b w Ho) as (w1 & E1 & Ho1 & Ht1). rewrite <-Hp, E1. cbn [mbind option_bind].
  destruct (IH w1 Ho1) as (w2 & -> & Ho2 & Ht2). exists w2. split_and!; [done|done|]. rewrite Ht2, Ht1. by rewrite <-(assoc_L app).
Qed.
End SerialSpec.

(** A port that is never ready: no number of looks is enough. *)
Lemma serial_stuck {W} `{PortIO W} port b (w : W) n : inb (port + 5) w = (0, w) → Serial.write_byte n port b w = None.
Proof.
  intros Hi. unfold Serial.write_byte. assert (Serial.wait_empty n port w = None) as ->; [|done].
  induction n as [|n IH]; [done|]. cbn [Serial.wait_empty]. unfold Serial.is_transmit_empty. by rewrite Hi.
Qed.

(** ** The timer *)

Section PitSpec.
Context {W : Type} `{PortIO W}.
#[local] Open Scope Z_scope.

(** The two bytes sent are the divisor, as long as it has sixteen bits. *)
Lemma pit_divisor freq : 19 ≤ freq → let d := Pit.PIT_FREQUENCY / freq in
  u8 (Z.land d 0xFF) + 256 * u8 (Z.land (Z.shiftr d 8) 0xFF) = d.
Proof using Type.
  intros Hf d. assert (0 ≤ d < 65536) as Hd.
  { unfold d, Pit.PIT_FREQUENCY. split; [apply Z.div_pos; lia|apply Z.div_lt_upper_bound; lia]. }
  assert (∀ z, Z.land z 0xFF = z mod 256) as Hl by (intros; by apply (Z.land_ones _ 8)).
  rewrite !Hl, Z.shiftr_div_pow2 by lia. unfold u8, wrap. change (2 ^ 8) with 256. clearbody d. zdiv.
Qed.

(** At 18 Hz and below it has more, and the timer gets another one. *)
Lemma pit_divisor_too_big : let d := Pit.PIT_FREQUENCY / 18 in
  u8 (Z.land d 0xFF) + 256 * u8 (Z.land (Z.shiftr d 8) 0xFF) = d - 65536 ∧ Pit.PIT_FREQUENCY / (d - 65536) = 1588.
Proof using Type. by vm_compute. Qed.

Lemma uptime_1000 (s : Pit.Pit W) : Pit.timer_freq s = 1000 → 0 ≤ Pit.tick_count s < 2 ^ 54 →
  Pit.uptime_ms s = Ok (Pit.tick_count s) ∧ Pit.uptime_secs s = Ok (Pit.tick_count s / 1000).
Proof using Type.
  intros Hf Ht. unfold Pit.uptime_ms, Pit.uptime_secs, Pit.frequency, Pit.ticks. rewrite Hf. change (1000 =? 0) with false. cbv iota.
  rewrite u64_small by lia. split; [|done]. by rewrite Z.div_mul by lia.
Qed.

(** A sleep is over when as many ticks have come as it has milliseconds, and not
    before; each halt is ended by at least one tick. *)
Lemma sleep_returns (halts : nat → Pit.Pit W → Pit.Pit W) ms (s : Pit.Pit W) fuel :
  (∀ i s, Pit.timer_freq (halts i s) = Pit.timer_freq s ∧ Pit.tick_count s < Pit.tick_count (halts i s)) →
  (∀ i s, Pit.tick_count s < 2 ^ 53 → Pit.tick_count (halts i s) < 2 ^ 54) →
  Pit.timer_freq s = 1000 → 0 ≤ Pit.tick_count s → 0 ≤ ms → Pit.tick_count s + ms < 2 ^ 53 → ms < Z.of_nat fuel →
  ∃ s', Pit.sleep_ms fuel halts ms s = Some (Ok tt, s') ∧ Pit.tick_count s + ms ≤ Pit.tick_count s'.
Proof using Type.
  intros Hh Hb Hf Ht Hms Hs Hfuel. unfold Pit.sleep_ms. destruct (uptime_1000 s Hf) as [-> _]; [lia|].
  rewrite u64_small by lia. set (target := Pit.tick_count s + ms).
  assert (∀ fuel i t, Pit.timer_freq t = 1000 → 0 ≤ Pit.tick_count t < 2 ^ 54 → target - Pit.tick_count t < Z.of_nat fuel →
    (0 < fuel)%nat → ∃ s', Pit.sleep_loop fuel halts i target t = Some (Ok tt, s') ∧ target ≤ Pit.tick_count s') as G.
  { clear fuel Hfuel. induction fuel as [|fuel IH]; intros i t Hft Htt Hfu Hpos; [lia|]. cbn [Pit.sleep_loop].
    destruct (uptime_1000 t Hft Htt) as [-> _]. destruct (Z.ltb_spec (Pit.tick_count t) target) as [Hlt|Hge]; [|by eexists].
    destruct (Hh i t) as [Hf' Ht']. pose proof (Hb i t ltac:(lia)). apply IH; [by rewrite Hf'|lia|lia|lia]. }
  apply G; [done|lia|lia|lia].
Qed.
End PitSpec.

(** ** Registers *)

Lemma msr_halves v : 0 ≤ v < 2 ^ 64 → Z.lor (Z.shiftl (u32 (Z.shiftr v 32)) 32) (u32 v) = v.
Proof.
  intros Hv. rewrite Z.lor_comm, lor_shiftl by (try lia; apply Z.mod_pos_bound; lia). unfold u32, wrap.
  rewrite Z.shiftr_div_pow2 by lia. zdiv.
Qed.

(** A base above 4 GB loses its upper half: the registers are looked for elsewhere. *)
Lemma apic_base_truncated base : 0 ≤ base → Z.land base 0xFFFFF000 = base mod 2 ^ 32 - base mod 2 ^ 12.
Proof.
  intros Hb. change 0xFFFFF000 with (Z.ldiff (Z.ones 32) (Z.ones 12)). rewrite Z.ldiff_land, Z.land_assoc, Z.land_ones by lia.
  rewrite <-Z.ldiff_land, Z.ldiff_ones_r by lia. rewrite Z.shiftl_mul_pow2, Z.shiftr_div_pow2 by lia. zdiv.
Qed.

(** The documented divisor of a divide configuration. *)
Definition divisor_of (code : Z) : Z :=
  let k := Z.land code 3 + 4 * (Z.shiftr code 3) in if k =? 7 then 1 else 2 ^ (k + 1).

Lemma divide_code_spec d : d ∈ [1; 2; 4; 8; 16; 32; 64; 128] → divisor_of (Apic.divide_code d) = d.
Proof. intros Hd. repeat (apply elem_of_cons in Hd as [->|Hd]; [reflexivity|]). by apply not_elem_of_nil in Hd. Qed.

(** ** Identification *)

Section CpuidSpec.
Context (cpuid : Z → Z * Z * Z * Z).

Lemma vendor_bytes_spec : Cpuid.vendor_bytes cpuid = le 4 (Cpuid.reg_b cpuid 0) ++ le 4 (Cpuid.reg_d cpuid 0) ++ le 4 (Cpuid.reg_c cpuid 0).
Proof using Type. reflexivity. Qed.

Lemma brand_bytes_spec :
  Cpuid.brand_bytes cpuid = [0; 1; 2] ≫= λ i, let leaf := 0x80000002 + i in
    le 4 (Cpuid.reg_a cpuid leaf) ++ le 4 (Cpuid.reg_b cpuid leaf) ++ le 4 (Cpuid.reg_c cpuid leaf) ++ le 4 (Cpuid.reg_d cpuid leaf).
Proof using Type. reflexivity. Qed.
End CpuidSpec.

(** Family, model and stepping as documented: the model is extended for the families
    whose short form is 6 or 15. *)
Definition documented_signature (eax : Z) : Z * Z * Z :=
  let stepping := eax mod 16 in
  let model := eax / 16 mod 16 in
  let family := eax / 256 mod 16 in
  let ext_model := eax / 2 ^ 16 mod 16 in
  let ext_family := eax / 2 ^ 20 mod 256 in
  (if family =? 15 then family + ext_family else family,
   if (family =? 6) || (family =? 15) then model + 16 * ext_model else model, stepping).

(** The code agrees for the families up to 15. *)
Lemma signature_spec eax : 0 ≤ eax < 2 ^ 32 → eax / 2 ^ 20 mod 256 = 0 →
  Cpuid.signature eax = documented_signature eax.
Proof.
  intros He Hx. unfold Cpuid.signature, documented_signature. rewrite !Z.shiftr_div_pow2 by lia.
  assert (∀ z, Z.land z 0xF = z mod 16) as H4 by (intros; by apply (Z.land_ones _ 4)).
  assert (∀ z, Z.land z 0xFF = z mod 256) as H8 by (intros; by apply (Z.land_ones _ 8)).
  rewrite !H4, !H8. change (2 ^ 4) with 16. change (2 ^ 8) with 256. rewrite Hx.
  assert (∀ z, u8 (z mod 16) = z mod 16) as Hu by (intros; unfold u8, wrap; zdiv). rewrite !Hu.
  change (u8 0) with 0. rewrite !Z.add_0_r. assert (∀ z, u8 (z mod 16) = z mod 16) as Hu' by done.
  assert ((if eax / 256 mod 16 =? 15 then u8 (eax / 256 mod 16) else eax / 256 mod 16) = eax / 256 mod 16) as -> by (rewrite Hu; by destruct (_ =? 15)).
  assert ((if eax / 256 mod 16 =? 15 then eax / 256 mod 16 else eax / 256 mod 16) = eax / 256 mod 16) as -> by by destruct (_ =? 15).
  destruct (_ || _); [|done]. do 2 f_equal. rewrite Z.shiftl_mul_pow2 by lia. unfold u8, wrap. zdiv.
Qed.

(** A processor of family 0x17, model 0x71: the code finds model 1. *)
Lemma signature_diverges : Cpuid.signature 0x00870F10 = (0x17, 1, 0) ∧ documented_signature 0x00870F10 = (0x17, 0x71, 0).
Proof. by vm_compute. Qed.

(** ** A simulated serial port and controllers *)

Module MachineExample.

(** How many looks until the register is empty. *)
Inductive Wait : Type := Now | Soon | Later.
Definition looks (w : Wait) : nat := match w with Now => 0 | Soon => 1 | Later => 2 end.
Definition less (w : Wait) : Wait := match w with Later => Soon | _ => Now end.

Record SimUart : Type := mkUart { lcr : Z; mcr : Z; echo : Z; sent : list Z; waiting : Wait; pics : InterruptSpec.Chip * InterruptSpec.Chip }.

Definition is_open (u : SimUart) : bool := negb (bit_on (lcr u) 7) && negb (bit_on (mcr u) 4).

Definition sim_inb (p : Z) (u : SimUart) : Z * SimUart :=
  if p =? Serial.COM1 then (echo u, u)
  else if p =? Serial.COM1 + 5 then
    (match waiting u with Now => 0x60 | _ => 0 end, mkUart (lcr u) (mcr u) (echo u) (sent u) (less (waiting u)) (pics u))
  else (0, u).

Definition sim_outb (p v : Z) (u : SimUart) : SimUart :=
  if p =? Serial.COM1 then
    if bit_on (lcr u) 7 then u
    else if bit_on (mcr u) 4 then mkUart (lcr u) (mcr u) v (sent u) (waiting u) (pics u)
    else mkUart (lcr u) (mcr u) (echo u) (sent u ++ [v]) Later (pics u)
  else if p =? Serial.COM1 + 3 then mkUart v (mcr u) (echo u) (sent u) (waiting u) (pics u)
  else if p =? Serial.COM1 + 4 then mkUart (lcr u) v (echo u) (sent u) (waiting u) (pics u)
  else
    let to_pics c := mkUart (lcr u) (mcr u) (echo u) (sent u) (waiting u) c in
    let '(c1, c2) := pics u in
    if p =? Interrupts.PIC1_CMD then to_pics (InterruptSpec.chip_command v c1, c2)
    else if p =? Interrupts.PIC2_CMD then to_pics (c1, InterruptSpec.chip_command v c2)
    else if p =? Interrupts.PIC1_DATA then to_pics (InterruptSpec.chip_data v c1, c2)
    else if p =? Interrupts.PIC2_DATA then to_pics (c1, InterruptSpec.chip_data v c2)
    else u.

#[export] Instance sim_ports : PortIO SimUart := {
  inb := sim_inb; inw _ u := (0, u); inl _ u := (0, u);
  outb := sim_outb; outw _ _ u := u; outl _ _ u := u;
}.

#[export] Instance sim_uart : Uart SimUart Serial.COM1.
Proof.
  refine {| open := is_open; transmitted := sent; remaining u := looks (waiting u) |}.
  - intros u Ho. cbn. unfold sim_inb. cbn. split_and!; [done|done|by destruct (waiting u)|by destruct (waiting u)].
  - intros u v Ho _. cbn. unfold sim_outb. cbn. unfold is_open in Ho. destruct (bit_on (lcr u) 7) eqn:E1; [done|].
    destruct (bit_on (mcr u) 4) eqn:E2; [done|]. split; [|done]. unfold is_open. cbn. by rewrite E1, E2.
Defined.

Lemma sim_in_time (u : SimUart) : (remaining u < 3)%nat.
Proof. cbn. destruct (waiting u); cbn; lia. Qed.

Definition uart0 : SimUart :=
  mkUart 0x80 0 0 [] Now (InterruptSpec.mkChip 0 8 0 0, InterruptSpec.mkChip 0 0x70 0 0).

(** The test byte of the initialisation stays in the loop. *)
Example serial_init_opens : open (Serial.serial_init Serial.COM1 uart0) = true ∧ transmitted (Serial.serial_init Serial.COM1 uart0) = [].
Proof. by vm_compute. Qed.

Lemma serial_text_witness :
  open (Serial.serial_init Serial.COM1 uart0) = true ∧
  ∃ w', Serial.write_string 3 Serial.COM1 [72; 105; 10] (Serial.serial_init Serial.COM1 uart0) = Some w' ∧ open w' = true ∧
    transmitted w' = transmitted (Serial.serial_init Serial.COM1 uart0) ++ line_text [72; 105; 10].
Proof. split; [by vm_compute|]. apply (serial_text Serial.COM1 3 sim_in_time). by vm_compute. Defined.

(** The whole start: the table is loaded, the controllers and the timer are set, the
    serial port works, interrupts are on, and all is reported. *)
Definition arch0 : Arch.Arch SimUart :=
  Arch.mkArch Descriptors.IDT0 None ∅ (Pit.mkPit 0 1000 (Serial.early_serial_init uart0)) false.
Definition statics0 : Descriptors.Statics := Descriptors.mkStatics 0x300000 0x301000 0x302000 0x30A000 0x30E000.

Example arch_starts :
  match Arch.init 3 InterruptSpec.InterruptExample.entry_address statics0 Paging.L0 arch0 with
  | Some (Ok _, s) =>
      Arch.interrupts_on s = true ∧ Arch.idtr s = Some (Descriptors.mkTableReg 4095 0x30E000) ∧
      InterruptSpec.pics_ready (pics (Pit.world (Arch.pit s))) ∧ open (Pit.world (Arch.pit s)) = true ∧
      Descriptors.gate_offset (arr_get (Arch.idt s) 0x21) = InterruptSpec.InterruptExample.entry_address (Descriptors.irq 1) ∧
      take 17 (transmitted (Pit.world (Arch.pit s))) = bytes_of_string "Using boot GDT" ++ [13; 10; 73]
  | _ => False
  end.
Proof. vm_compute. split_and!; reflexivity. Qed.

End MachineExample.
