(* ===== verification/Boot.v ===== *)
(** * The entry from the boot loader: [main.rs]

    [_start64] walks the tags of the Multiboot2 information in memory, from which it
    takes the memory map and the frame buffer, and [kernel_main] decides between the
    desktop and the text console.  What is printed on the serial line on the way is
    left out. *)

From S2P Require Import Prelude Bytes Physical Graphics.

(** ** Memory *)

(** [*(addr as *const uN)], [n] bytes. *)
Definition rd (mem : Z → Z) (n : nat) (addr : Z) : Z := le_decode (map (λ i, mem (addr + Z.of_nat i)) (seq 0 n)).

(** ** What is collected *)

Record FramebufferInfo : Type := mkFbInfo { fi_address : Z; fi_width : Z; fi_height : Z; fi_pitch : Z; fi_bpp : Z }.

(** The VGA text mode. *)
Definition vga_text : FramebufferInfo := mkFbInfo 0xb8000 80 25 160 16.

Definition MAX_MMAP_ENTRIES : Z := 64.
Definition EMPTY_MMAP_ENTRY : MemoryMapEntry := mkEntry 0 0 Reserved.

(** The screen, [BOOT_MMAP] and [BOOT_MMAP_COUNT]. *)
Record Collected : Type := mkCollected { screen : FramebufferInfo; boot_mmap : list MemoryMapEntry; mmap_count : Z }.

Definition nothing : Collected := mkCollected vga_text (replicate (Z.to_nat MAX_MMAP_ENTRIES) EMPTY_MMAP_ENTRY) 0.

(** ** Tags *)

Definition memory_type (mtype : Z) : MemoryType :=
  if mtype =? 1 then Available
  else if mtype =? 3 then AcpiReclaimable
  else if mtype =? 4 then AcpiNvs
  else if mtype =? 5 then BadMemory
  else Reserved.

Definition read_entry (mem : Z → Z) (e : Z) : MemoryMapEntry :=
  mkEntry (rd mem 8 e) (rd mem 8 (u64 (e + 8))) (memory_type (rd mem 4 (u64 (e + 16)))).

(** The loop over the entries: [n] are left, [count] are stored. *)
Fixpoint read_entries (n : nat) (mem : Z → Z) (addr entry_size count : Z) (map : list MemoryMapEntry) : Z * list MemoryMapEntry :=
  match n with
  | O => (count, map)
  | S n =>
      if MAX_MMAP_ENTRIES <=? count then (count, map)
      else
        let e := u64 (addr + 16 + u64 (count * entry_size)) in
        read_entries n mem addr entry_size (count + 1) (<[Z.to_nat count := read_entry mem e]> map)
  end.

Definition memory_map_tag (mem : Z → Z) (addr tag_size : Z) (c : Collected) : Collected :=
  let entry_size := rd mem 4 (u64 (addr + 8)) in
  if (0 <? entry_size) && (16 <? tag_size) then
    let n_entries := (tag_size - 16) / entry_size in
    let '(count, map) := read_entries (Z.to_nat n_entries) mem addr entry_size 0 (boot_mmap c) in
    mkCollected (screen c) map count
  else c.

(** A direct colour screen of at least 24 bits, a palette, or text mode. *)
Definition choose_screen (fb : FramebufferInfo) (fb_type : Z) : FramebufferInfo :=
  if (fb_type =? 1) && negb (fi_address fb =? 0) && (0 <? fi_width fb) && (24 <=? fi_bpp fb) then fb
  else if (fb_type =? 0) && negb (fi_address fb =? 0) then fb
  else vga_text.

Definition framebuffer_tag (mem : Z → Z) (addr : Z) (c : Collected) : Collected :=
  let fb := mkFbInfo (rd mem 8 (u64 (addr + 8))) (rd mem 4 (u64 (addr + 20))) (rd mem 4 (u64 (addr + 24))) (rd mem 4 (u64 (addr + 16)))
              (rd mem 1 (u64 (addr + 28))) in
  let fb_type := rd mem 1 (u64 (addr + 29)) in
  mkCollected (choose_screen fb fb_type) (boot_mmap c) (mmap_count c).

Definition read_tag (mem : Z → Z) (addr tag_type tag_size : Z) (c : Collected) : Collected :=
  let c := if tag_type =? 6 then memory_map_tag mem addr tag_size c else c in
  if tag_type =? 8 then framebuffer_tag mem addr c else c.

(** [(tag_size + 7) & !7] *)
Definition tag_step (tag_size : Z) : Z := Z.land (u32 (tag_size + 7)) (not_w 32 7).

(** [while addr < end]; [None] when the fuel is used up. *)
Fixpoint walk_tags (fuel : nat) (mem : Z → Z) (addr end_ : Z) (c : Collected) : option Collected :=
  match fuel with
  | O => None
  | S fuel =>
      if end_ <=? addr then Some c
      else
        let tag_type := rd mem 4 addr in
        let tag_size := rd mem 4 (u64 (addr + 4)) in
        if tag_type =? 0 then Some c
        else walk_tags fuel mem (u64 (addr + tag_step tag_size)) end_ (read_tag mem addr tag_type tag_size c)
  end.

Definition parse_multiboot (fuel : nat) (mem : Z → Z) (multiboot_info : Z) : option Collected :=
  if multiboot_info =? 0 then Some nothing
  else
    let total_size := rd mem 4 multiboot_info in
    walk_tags fuel mem (u64 (multiboot_info + 8)) (u64 (multiboot_info + total_size)) nothing.

(** ** [kernel_main] *)

(** What the memory manager is given. *)
Definition boot_info (c : Collected) : BootInfo :=
  mkBoot (if 0 <? mmap_count c then Some (take (Z.to_nat (mmap_count c)) (boot_mmap c)) else None) 0x100000 0x200000.

(** The screen is used for the desktop. *)
Definition wants_graphics (f : FramebufferInfo) : bool :=
  negb (fi_address f =? 0xb8000) && (640 <=? fi_width f) && (480 <=? fi_height f) && (8 <=? fi_bpp f).

(** [drivers::init_graphics], and the part of [gui::init] about the screen. *)
Definition start_graphics (f : FramebufferInfo) (s : Gfx) : Gfx :=
  if wants_graphics f then
    let s := Graphics.init (fi_address f) (fi_width f) (fi_height f) (fi_pitch f) (fi_bpp f) s in
    if address (fb s) =? 0 then s else init_back_buffer (width (fb s)) (height (fb s)) s
  else s.

(** The desktop runs; otherwise the scheduler with the shell. *)
Definition runs_desktop (f : FramebufferInfo) (s : Gfx) : bool := is_available (start_graphics f s).
