(* ===== verification/BootSpec.v ===== *)
(** * The walk over the boot information

    A Multiboot2 table in memory is read as the memory map and the frame buffer it
    holds ([parse_table]); on any memory the walk ends unless a tag gives its size as
    0 ([walk_terminates], [zero_tag_loops]). *)

From S2P Require Import Prelude Bytes Physical Graphics GraphicsSpec Boot.

(** ** Memory that holds bytes *)

Definition holds (mem : Z → Z) (addr : Z) (bs : list Z) : Prop := ∀ i : nat, (i < length bs)%nat → mem (addr + Z.of_nat i) = nth i bs 0.

Lemma holds_app mem addr xs ys : holds mem addr (xs ++ ys) ↔ holds mem addr xs ∧ holds mem (addr + len xs) ys.
Proof.
  unfold holds, len. split.
  - intros H. split; intros i Hi.
    + rewrite H by (rewrite length_app; lia). by rewrite app_nth1.
    + replace (addr + Z.of_nat (length xs) + Z.of_nat i) with (addr + Z.of_nat (length xs + i)) by lia.
      rewrite H by (rewrite length_app; lia). rewrite app_nth2 by lia. f_equal. lia.
  - intros [H1 H2] i Hi. rewrite length_app in Hi. destruct (decide (i < length xs)%nat).
    + rewrite app_nth1 by done. by apply H1.
    + rewrite app_nth2 by lia. rewrite <- H2 by lia. f_equal. lia.
Qed.

Lemma holds_at mem a a' bs : holds mem a bs → a = a' → holds mem a' bs.
Proof. by intros ? <-. Qed.

Lemma lookup_nth {A} (l : list A) i d : (i < length l)%nat → l !! i = Some (nth i l d).
Proof. intros H. destruct (lookup_lt_is_Some_2 _ _ H) as [x E]. by rewrite nth_lookup, E. Qed.

Lemma rd_holds mem addr n v : holds mem addr (le n v) → 0 ≤ v < 2 ^ (8 * Z.of_nat n) → rd mem n addr = v.
Proof.
  intros H Hv. unfold rd. rewrite <- (le_decode_le n v) by done. f_equal.
  apply list_eq. intros i. rewrite list_lookup_fmap. destruct (decide (i < n)%nat) as [Hi|Hi].
  - rewrite lookup_seq_lt by done. cbn. rewrite H by (by rewrite length_le). symmetry. apply lookup_nth. by rewrite length_le.
  - rewrite lookup_seq_ge by lia. symmetry. apply lookup_ge_None. rewrite length_le. lia.
Qed.

(** ** Tables *)

(** An entry of a memory map: its region with the number of its type, and the bytes
    that follow the number. *)
Record RawEntry : Type := mkRaw { entry : MemoryMapEntry; code : Z; rest : list Z }.

(** A memory map with the size of its entries and its version; a frame buffer with the
    bytes that follow its type, which are reserved or tell its colours; another tag. *)
Inductive Tag : Type :=
| MemMap (size version : Z) (es : list RawEntry)
| Screen (f : FramebufferInfo) (fb_type : Z) (info : list Z)
| Other (tag_type : Z) (payload : list Z).

Definition type_code (t : MemoryType) : Z :=
  match t with Available => 1 | AcpiReclaimable => 3 | AcpiNvs => 4 | BadMemory => 5 | _ => 2 end.

Definition entry_bytes (e : RawEntry) : list Z := le 8 (base (entry e)) ++ le 8 (length_ (entry e)) ++ le 4 (code e) ++ rest e.

Definition tag_code (t : Tag) : Z := match t with MemMap _ _ _ => 6 | Screen _ _ _ => 8 | Other ty _ => ty end.

Definition tag_body (t : Tag) : list Z :=
  match t with
  | MemMap size version es => le 4 size ++ le 4 version ++ concat (map entry_bytes es)
  | Screen f ty info => le 8 (fi_address f) ++ le 4 (fi_pitch f) ++ le 4 (fi_width f) ++ le 4 (fi_height f) ++ le 1 (fi_bpp f) ++ le 1 ty ++ info
  | Other _ payload => payload
  end.

Definition padding (n : Z) : list Z := zeros ((- n) mod 8).

Definition tag_size (t : Tag) : Z := 8 + len (tag_body t).

Definition tag_bytes (t : Tag) : list Z := le 4 (tag_code t) ++ le 4 (tag_size t) ++ tag_body t ++ padding (len (tag_body t)).

Definition table_body (ts : list Tag) : list Z := concat (map tag_bytes ts) ++ le 4 0 ++ le 4 8.
Definition table_bytes (ts : list Tag) : list Z := le 4 (8 + len (table_body ts)) ++ le 4 0 ++ table_body ts.

(** A number that the standard gives no type is a reserved region. *)
Definition code_of (c : Z) (t : MemoryType) : Prop := if decide (c ∈ [1; 3; 4; 5]) then c = type_code t else t = Reserved.

Definition entry_ok (size : Z) (e : RawEntry) : Prop :=
  0 ≤ base (entry e) < 2 ^ 64 ∧ 0 ≤ length_ (entry e) < 2 ^ 64 ∧ 0 ≤ code e < 2 ^ 32 ∧ code_of (code e) (mem_type (entry e)) ∧
  len (rest e) = size - 20.

Definition tag_ok (t : Tag) : Prop :=
  tag_size t + 7 < 2 ^ 32 ∧
  match t with
  | MemMap size version es => 24 ≤ size < 2 ^ 32 ∧ Forall (entry_ok size) es
  | Screen f ty _ => 0 ≤ fi_address f < 2 ^ 64 ∧ 0 ≤ fi_width f < 2 ^ 32 ∧ 0 ≤ fi_height f < 2 ^ 32 ∧ 0 ≤ fi_pitch f < 2 ^ 32 ∧
      0 ≤ fi_bpp f < 256 ∧ 0 ≤ ty < 256
  | Other ty _ => 0 < ty < 2 ^ 32 ∧ ty ≠ 6 ∧ ty ≠ 8
  end.

(** ** What a table says *)

(** The last memory map that is not empty. *)
Definition last_map (ts : list Tag) : option (list MemoryMapEntry) :=
  foldl (λ m t, match t with MemMap _ _ (e :: es) => Some (map entry (e :: es)) | _ => m end) None ts.

(** A frame buffer the kernel draws on: RGB with at least 24 bits, or a palette. *)
Definition usable (f : FramebufferInfo) (ty : Z) : bool :=
  negb (fi_address f =? 0) && ((ty =? 1) && (0 <? fi_width f) && (24 <=? fi_bpp f) || (ty =? 0)).

(** The last frame buffer when it is usable, text mode when it is not or there is none. *)
Definition last_screen (ts : list Tag) : FramebufferInfo :=
  foldl (λ s t, match t with Screen f ty _ => if usable f ty then f else vga_text | _ => s end) vga_text ts.

(** ** Reading a tag *)

Lemma len_entry size e : entry_ok size e → len (entry_bytes e) = size.
Proof. intros (_ & _ & _ & _ & H). unfold entry_bytes, len in *. rewrite !length_app, !length_le. lia. Qed.

Lemma len_table_entries size es : Forall (entry_ok size) es → len (concat (map entry_bytes es)) = size * len es.
Proof.
  induction 1 as [|e es He _ IH]; cbn [map concat]; [by rewrite Z.mul_0_r|].
  rewrite len_app, IH, (len_entry size) by done. unfold len. cbn [length]. lia.
Qed.

Lemma len_le n v : len (le n v) = Z.of_nat n.
Proof. unfold len. by rewrite length_le. Qed.

Lemma memory_type_code c t : code_of c t → memory_type c = t.
Proof.
  unfold code_of, memory_type. case_decide as H.
  - intros ->. rewrite !elem_of_cons, elem_of_nil in H. destruct t; cbn in *; done || (exfalso; lia).
  - intros ->. rewrite !not_elem_of_cons in H. destruct H as (H1 & H3 & H4 & H5 & _).
    by rewrite (proj2 (Z.eqb_neq _ _) H1), (proj2 (Z.eqb_neq _ _) H3), (proj2 (Z.eqb_neq _ _) H4), (proj2 (Z.eqb_neq _ _) H5).
Qed.

Lemma read_entry_ok mem size e addr :
  holds mem addr (entry_bytes e) → entry_ok size e → 0 ≤ addr → addr + 24 < 2 ^ 64 → read_entry mem addr = entry e.
Proof.
  unfold entry_bytes. rewrite !holds_app, !len_le. intros (H1 & H2 & H3 & _) (E1 & E2 & E3 & E4 & _) Ha Hb. unfold read_entry.
  rewrite !u64_small by lia. change (addr + 8) with (addr + Z.of_nat 8).
  replace (addr + 16) with (addr + Z.of_nat 8 + Z.of_nat 8) by lia.
  rewrite (rd_holds _ _ 8 _ H1), (rd_holds _ _ 8 _ H2), (rd_holds _ _ 4 _ H3) by done.
  rewrite (memory_type_code _ _ E4). by destruct (entry e).
Qed.

(** The map is overwritten from its start. *)
Definition overlay (es m : list MemoryMapEntry) : list MemoryMapEntry := es ++ drop (length es) m.

Lemma overlay_insert es (m : list MemoryMapEntry) e : (length es < length m)%nat →
  <[length es := e]> (overlay es m) = overlay (es ++ [e]) m.
Proof.
  intros Hl. unfold overlay. rewrite <- app_assoc. replace (length es) with (length es + 0)%nat at 1 by lia. rewrite insert_app_r.
  f_equal. rewrite length_app. cbn [length]. rewrite (drop_S m (nth (length es) m e) (length es)).
  - cbn. by replace (S (length es)) with (length es + 1)%nat by lia.
  - by apply lookup_nth.
Qed.

Lemma read_entries_ok mem addr size es : ∀ pre m,
  (length pre ≤ 64)%nat → length m = 64%nat → 24 ≤ size → Forall (entry_ok size) es → 0 ≤ addr →
  addr + 16 + size * (len pre + len es) < 2 ^ 64 →
  holds mem (addr + 16 + size * len pre) (concat (map entry_bytes es)) →
  read_entries (length es) mem addr size (len pre) (overlay pre m) =
  (Z.min 64 (len pre + len es), overlay (take 64 (pre ++ map entry es)) m).
Proof.
  unfold len. induction es as [|e es IH]; intros pre m Hpre Hm Hsz Hes Ha Hb Hh; cbn [length read_entries map].
  - rewrite app_nil_r, take_ge by done. f_equal. lia.
  - change MAX_MMAP_ENTRIES with 64. destruct (Z.leb_spec 64 (Z.of_nat (length pre))) as [H|H].
    + rewrite take_app_le by lia. rewrite take_ge by lia. f_equal. lia.
    + apply Forall_cons in Hes as [He Hes]. cbn [map concat] in Hh. apply holds_app in Hh as [He1 Hh].
      rewrite (len_entry size) in Hh by done. cbn [length] in Hb. rewrite (u64_small (Z.of_nat _ * size)) by nia.
      rewrite u64_small by nia. rewrite (Z.mul_comm (Z.of_nat _) size), (read_entry_ok mem size e) by (done || nia).
      rewrite Nat2Z.id, overlay_insert by lia.
      replace (Z.of_nat (length pre) + 1) with (Z.of_nat (length (pre ++ [entry e]))) by (rewrite length_app; cbn; lia).
      rewrite IH; rewrite ?length_app; cbn [length] in *; try done; try nia.
      * rewrite <- app_assoc. cbn. f_equal. lia.
      * eapply holds_at; [exact Hh|]. nia.
Qed.

Lemma length_overlay es m : (length es ≤ length m)%nat → length (overlay es m) = length m.
Proof. intros H. unfold overlay. rewrite length_app, length_drop. lia. Qed.

(** What [read_tag] makes of a tag. *)
Definition apply_tag (c : Collected) (t : Tag) : Collected :=
  match t with
  | MemMap _ _ [] => c
  | MemMap _ _ es => mkCollected (screen c) (overlay (take 64 (map entry es)) (boot_mmap c)) (Z.min 64 (len es))
  | Screen f ty _ => mkCollected (if usable f ty then f else vga_text) (boot_mmap c) (mmap_count c)
  | Other _ _ => c
  end.

Lemma map_tag_ok mem addr size version es c : let t := MemMap size version es in
  tag_ok t → holds mem (addr + 8) (tag_body t) → 0 ≤ addr → addr + tag_size t < 2 ^ 64 →
  length (boot_mmap c) = 64%nat → memory_map_tag mem addr (tag_size t) c = apply_tag c t.
Proof.
  intros t [Hsz [Hz Hes]] Hh Ha Hb Hm. subst t. assert (tag_size (MemMap size version es) = 16 + size * len es) as Esz.
  { unfold tag_size. cbn [tag_body]. rewrite !len_app, !len_le, (len_table_entries size) by done. lia. }
  cbn [tag_body] in Hh. rewrite !holds_app, !len_le in Hh. destruct Hh as (H1 & _ & H3). unfold memory_map_tag.
  rewrite Esz in *. pose proof (len_nonneg es). rewrite u64_small by nia. rewrite (rd_holds _ _ _ _ H1) by lia.
  rewrite (proj2 (Z.ltb_lt 0 size)) by lia. cbn [andb].
  destruct es as [|e es]; [by rewrite Z.mul_0_r|].
  assert (1 ≤ len (e :: es)) as Hl by (unfold len; cbn [length]; lia). rewrite (proj2 (Z.ltb_lt 16 _)) by nia.
  replace (16 + size * len (e :: es) - 16) with (len (e :: es) * size) by lia. rewrite Z.div_mul by lia.
  replace (Z.to_nat (len (e :: es))) with (length (e :: es)) by (unfold len; lia).
  change 0 with (len (@nil MemoryMapEntry)). change (boot_mmap c) with (overlay [] (boot_mmap c)).
  rewrite read_entries_ok; change (len (@nil MemoryMapEntry)) with 0; try done; cbn [length]; try lia.
  eapply holds_at; [exact H3|]. lia.
Qed.

Lemma screen_tag_ok mem addr f ty info c :
  tag_ok (Screen f ty info) → holds mem (addr + 8) (tag_body (Screen f ty info)) → 0 ≤ addr → addr + tag_size (Screen f ty info) < 2 ^ 64 →
  framebuffer_tag mem addr c = apply_tag c (Screen f ty info).
Proof.
  intros [_ (F1 & F2 & F3 & F4 & F5 & F6)] Hh Ha Hb. assert (30 ≤ tag_size (Screen f ty info)) as Esz.
  { unfold tag_size. cbn [tag_body]. rewrite !len_app, !len_le. pose proof (len_nonneg info). lia. }
  cbn [tag_body] in Hh. rewrite !holds_app, !len_le in Hh. destruct Hh as (H1 & H2 & H3 & H4 & H5 & H6 & _).
  unfold framebuffer_tag. rewrite !u64_small by lia.
  rewrite (rd_holds mem (addr + 8) 8 (fi_address f)) by done.
  rewrite (rd_holds mem (addr + 16) 4 (fi_pitch f)) by (done || (eapply holds_at; [exact H2|lia])).
  rewrite (rd_holds mem (addr + 20) 4 (fi_width f)) by (done || (eapply holds_at; [exact H3|lia])).
  rewrite (rd_holds mem (addr + 24) 4 (fi_height f)) by (done || (eapply holds_at; [exact H4|lia])).
  rewrite (rd_holds mem (addr + 28) 1 (fi_bpp f)) by (done || (eapply holds_at; [exact H5|lia])).
  rewrite (rd_holds mem (addr + 29) 1 ty) by (done || (eapply holds_at; [exact H6|lia])).
  cbn [fi_address fi_width fi_bpp apply_tag]. unfold usable, choose_screen.
  destruct f as [a w h p b]. cbn [fi_address fi_width fi_height fi_pitch fi_bpp].
  f_equal. destruct (a =? 0), (Z.eqb_spec ty 1), (Z.eqb_spec ty 0), (0 <? w), (24 <=? b); cbn; try done; lia.
Qed.

Lemma read_tag_ok mem addr t c :
  tag_ok t → holds mem (addr + 8) (tag_body t) → 0 ≤ addr → addr + tag_size t < 2 ^ 64 → length (boot_mmap c) = 64%nat →
  read_tag mem addr (tag_code t) (tag_size t) c = apply_tag c t.
Proof.
  intros Ht Hh Ha Hb Hm. destruct t as [size version es|f ty info|ty payload]; cbn [tag_code read_tag].
  - by apply map_tag_ok.
  - by apply screen_tag_ok.
  - destruct Ht as [_ (_ & H6 & H8)]. unfold read_tag. by rewrite (proj2 (Z.eqb_neq _ _) H6), (proj2 (Z.eqb_neq _ _) H8).
Qed.

Lemma apply_length c t : length (boot_mmap c) = 64%nat → length (boot_mmap (apply_tag c t)) = 64%nat.
Proof.
  intros Hm. destruct t as [? ? [|e es]|f ty info|ty p]; try done. cbn [apply_tag boot_mmap]. rewrite length_overlay; [done|].
  rewrite length_take. lia.
Qed.

(** ** The walk *)

Lemma tag_step_ok n : 0 ≤ n → n + 7 < 2 ^ 32 → tag_step n = n + (- n) mod 8.
Proof.
  intros H0 H1. unfold tag_step. rewrite u32_small by lia. unfold not_w. change (Z.lxor 7 (Z.ones 32)) with (Z.ones 29 * 8).
  assert (Z.land (n + 7) (Z.ones 29 * 8) = (n + 7) / 8 * 8) as ->.
  { change 8 with (2 ^ 3) at 1 3. rewrite <- !Z.shiftl_mul_pow2 by lia.
    change 8 with (2 ^ 3). rewrite <- Z.shiftr_div_pow2 by lia.
    apply Z.bits_inj'. intros i Hi. rewrite Z.land_spec. destruct (decide (i < 3)) as [Hi3|Hi3].
    - rewrite !Z.shiftl_spec_low by lia. by rewrite andb_false_r.
    - rewrite !Z.shiftl_spec_high by lia. rewrite Z.shiftr_spec by lia. replace (i - 3 + 3) with i by lia.
      destruct (decide (i < 32)) as [Hi32|Hi32].
      + rewrite Z.ones_spec_low by lia. by rewrite andb_true_r.
      + rewrite Z.ones_spec_high by lia. rewrite andb_false_r. symmetry. destruct (decide (n + 7 = 0)); [lia|].
        apply Z.bits_above_log2; [lia|]. apply (Z.lt_le_trans _ 32); [|lia]. apply Z.log2_lt_pow2; lia. }
  zdiv.
Qed.

Lemma len_tag t : len (tag_bytes t) = tag_size t + (- len (tag_body t)) mod 8.
Proof.
  unfold tag_bytes, padding. rewrite !len_app, !len_le. rewrite len_zeros by (apply Z.mod_pos_bound; lia). unfold tag_size. lia.
Qed.

Lemma tag_code_ok t : tag_ok t → 0 < tag_code t < 2 ^ 32.
Proof. by destruct t; intros [_ H]; cbn; try lia. Qed.

Lemma walk_ok mem ts : ∀ fuel addr end_ c,
  (length ts < fuel)%nat → Forall tag_ok ts → holds mem addr (table_body ts) → 0 ≤ addr → end_ = addr + len (table_body ts) →
  end_ < 2 ^ 64 → length (boot_mmap c) = 64%nat → walk_tags fuel mem addr end_ c = Some (foldl apply_tag c ts).
Proof.
  induction ts as [|t ts IH]; intros fuel addr end_ c Hf Hts Hh Ha He Hb Hm; (destruct fuel as [|fuel]; [lia|]); cbn [walk_tags foldl].
  - unfold table_body in *. cbn [map concat app] in *. rewrite len_app, !len_le in He. rewrite (proj2 (Z.leb_gt _ _)) by lia.
    apply holds_app in Hh as [H1 _]. by rewrite (rd_holds _ _ 4 _ H1) by lia.
  - apply Forall_cons in Hts as [Ht Hts].
    assert (table_body (t :: ts) = tag_bytes t ++ table_body ts) as Eb by (unfold table_body; cbn [map concat]; by rewrite <- app_assoc).
    rewrite Eb in Hh, He. apply holds_app in Hh as [Htag Hh]. rewrite len_app in He.
    pose proof (len_tag t) as El. pose proof (len_nonneg (table_body ts)). pose proof (tag_code_ok t Ht) as Hc.
    pose proof (Z.mod_pos_bound (- len (tag_body t)) 8 ltac:(lia)). pose proof (len_nonneg (tag_body t)).
    assert (tag_size t = 8 + len (tag_body t)) as Es by done.
    unfold tag_bytes in Htag. rewrite !holds_app, !len_le in Htag. destruct Htag as (T1 & T2 & T3 & _).
    rewrite (proj2 (Z.leb_gt _ _)) by lia. rewrite (rd_holds _ _ 4 _ T1) by lia.
    rewrite (proj2 (Z.eqb_neq _ _)) by lia. rewrite (u64_small (addr + 4)) by lia.
    rewrite (rd_holds _ _ 4 (tag_size t)) by ((destruct Ht; lia) || (eapply holds_at; [exact T2|lia])).
    rewrite read_tag_ok; [|done|eapply holds_at; [exact T3|lia]|lia|lia|done].
    rewrite tag_step_ok by (destruct Ht; lia). replace ((- tag_size t) mod 8) with ((- len (tag_body t)) mod 8) by (rewrite Es; zdiv).
    rewrite u64_small by lia. apply IH; try done; [cbn [length] in Hf; lia| |lia|lia|by apply apply_length].
    eapply holds_at; [exact Hh|lia].
Qed.

(** ** What is handed to the kernel *)

Lemma boot_info_apply c t m :
  boot_info c = mkBoot (take 64 <$> m) 0x100000 0x200000 →
  boot_info (apply_tag c t) = mkBoot (take 64 <$> match t with MemMap _ _ (e :: es) => Some (map entry (e :: es)) | _ => m end) 0x100000 0x200000.
Proof.
  intros Hc. destruct t as [? ? [|e es]|f ty info|ty p]; try exact Hc. unfold boot_info. cbn [apply_tag mmap_count boot_mmap].
  rewrite (proj2 (Z.ltb_lt _ _)) by (unfold len; cbn [length]; lia). cbn [fmap option_fmap option_map].
  do 2 f_equal. unfold overlay. rewrite take_app_le by (rewrite length_take, length_map; unfold len; lia).
  rewrite take_ge; [done|]. rewrite length_take, length_map. unfold len. lia.
Qed.

Lemma foldl_collected ts : ∀ c m,
  boot_info c = mkBoot (take 64 <$> m) 0x100000 0x200000 →
  boot_info (foldl apply_tag c ts) =
    mkBoot (take 64 <$> foldl (λ m t, match t with MemMap _ _ (e :: es) => Some (map entry (e :: es)) | _ => m end) m ts) 0x100000 0x200000 ∧
  screen (foldl apply_tag c ts) = foldl (λ s t, match t with Screen f ty _ => if usable f ty then f else vga_text | _ => s end) (screen c) ts.
Proof.
  induction ts as [|t ts IH]; intros c m Hc; cbn [foldl]; [done|].
  destruct (IH (apply_tag c t) _ (boot_info_apply c t m Hc)) as [H1 H2]. split; [done|]. rewrite H2.
  by destruct t as [? ? [|e es]|f ty info|ty p].
Qed.

(** C31: from a Multiboot2 table in memory, whatever its tags, the size of the entries
    of its memory maps (at least the 24 bytes of the standard), the numbers of their
    types and the colour information of its frame buffers, the kernel gets the first 64
    entries of the last memory map that is not empty, none when there is none.  The
    last frame buffer decides the screen: it is taken if it has an address and is a
    palette or RGB of some width with at least 24 bits, otherwise, or with no frame
    buffer, the screen is text mode.  The walk takes one turn for each tag. *)
Theorem parse_table fuel mem info ts :
  (length ts < fuel)%nat → Forall tag_ok ts → 0 < info → info + len (table_bytes ts) < 2 ^ 64 → len (table_bytes ts) < 2 ^ 32 →
  holds mem info (table_bytes ts) →
  ∃ c, parse_multiboot fuel mem info = Some c ∧
    boot_info c = mkBoot (take 64 <$> last_map ts) 0x100000 0x200000 ∧ screen c = last_screen ts.
Proof.
  intros Hf Hts Hi Hb Hl Hh. exists (foldl apply_tag nothing ts). split.
  - pose proof Hh as Hh'. unfold table_bytes in Hh'. rewrite !holds_app, !len_le in Hh'. destruct Hh' as (T1 & _ & T3).
    unfold parse_multiboot. rewrite (proj2 (Z.eqb_neq _ _)) by lia.
    assert (len (table_bytes ts) = 8 + len (table_body ts)) as El by (unfold table_bytes; rewrite !len_app, !len_le; lia).
    pose proof (len_nonneg (table_body ts)). rewrite (rd_holds _ _ 4 _ T1) by lia. rewrite !u64_small by lia.
    apply walk_ok; try done; [|lia|lia|lia]. eapply holds_at; [exact T3|lia].
  - by apply foldl_collected.
Qed.

(** ** When the walk ends *)

Lemma tag_step_pos n : 0 < n → n + 7 < 2 ^ 32 → 8 ≤ tag_step n.
Proof. intros H0 H1. rewrite tag_step_ok by lia. zdiv. Qed.

Lemma walk_ends mem end_ : ∀ fuel addr c,
  0 ≤ addr → end_ < 2 ^ 64 - 2 ^ 33 → end_ - addr ≤ 8 * (Z.of_nat fuel - 1) → (1 ≤ fuel)%nat →
  (∀ k, 0 ≤ k → addr + 8 * k < end_ → 0 < rd mem 4 (addr + 8 * k + 4) < 2 ^ 32 - 7) →
  is_Some (walk_tags fuel mem addr end_ c).
Proof.
  induction fuel as [|fuel IH]; intros addr c Ha He Hf H1 Hsz; [lia|]. cbn [walk_tags].
  destruct (Z.leb_spec end_ addr) as [Hge|Hlt]; [by eexists|]. destruct (rd mem 4 addr =? 0); [by eexists|].
  rewrite (u64_small (addr + 4)) by lia. pose proof (Hsz 0 ltac:(lia) ltac:(lia)) as Hs. rewrite Z.mul_0_r, Z.add_0_r in Hs.
  pose proof (tag_step_pos _ (proj1 Hs) ltac:(lia)) as Hp. set (n := rd mem 4 (addr + 4)) in *.
  assert (tag_step n mod 8 = 0) as Hm8 by (rewrite tag_step_ok by lia; zdiv).
  assert (tag_step n < 2 ^ 32 + 8) as Hub by (rewrite tag_step_ok by lia; zdiv).
  rewrite u64_small by lia. destruct (decide (end_ ≤ addr + tag_step n)) as [Hend|Hgo].
  - destruct fuel as [|fuel]; [lia|]. cbn [walk_tags]. rewrite (proj2 (Z.leb_le _ _)) by lia. by eexists.
  - apply IH; try lia. intros k Hk Hlk. pose proof (Hsz (tag_step n / 8 + k)) as Hz.
    replace (addr + 8 * (tag_step n / 8 + k)) with (addr + tag_step n + 8 * k) in Hz by zdiv. apply Hz; [|lia]. zdiv.
Qed.

(** On any memory whose possible tags give a size that is not 0, nor within seven
    of 2^32, the walk ends after at most one turn for each eight bytes of the table,
    whatever else the memory holds. *)
Theorem walk_terminates fuel mem info :
  0 < info < 2 ^ 63 → 0 ≤ rd mem 4 info < 2 ^ 32 → rd mem 4 info / 8 < Z.of_nat fuel →
  (∀ k, 1 ≤ k → 8 * k < rd mem 4 info → 0 < rd mem 4 (info + 8 * k + 4) < 2 ^ 32 - 7) →
  is_Some (parse_multiboot fuel mem info).
Proof.
  intros Hi Ht Hf Hsz. unfold parse_multiboot. rewrite (proj2 (Z.eqb_neq _ _)) by lia. rewrite !u64_small by lia.
  apply walk_ends; [lia|lia| | |].
  - zdiv.
  - pose proof (Z.div_pos (rd mem 4 info) 8). lia.
  - intros k Hk Hlk. pose proof (Hsz (k + 1)) as Hz. replace (info + 8 + 8 * k) with (info + 8 * (k + 1)) by lia. apply Hz; lia.
Qed.

(** A tag of size 0 is read for ever. *)
Lemma zero_tag_loops fuel mem addr end_ c :
  0 ≤ addr < end_ → end_ < 2 ^ 64 - 4 → rd mem 4 addr ≠ 0 → rd mem 4 (addr + 4) = 0 → walk_tags fuel mem addr end_ c = None.
Proof.
  intros Ha He Ht Hz. revert c. induction fuel as [|fuel IH]; intros c; cbn [walk_tags]; [done|].
  rewrite (proj2 (Z.leb_gt _ _)) by lia. rewrite (proj2 (Z.eqb_neq _ _)) by done. rewrite (u64_small (addr + 4)) by lia. rewrite Hz.
  change (tag_step 0) with 0. rewrite Z.add_0_r, u64_small by lia. apply IH.
Qed.

(** ** The choice of the console *)

(** From a fresh start the desktop runs exactly on a screen of at least 640 by 480 that
    is not the text mode. *)
Lemma desktop_decision f s : address (fb s) = 0 → runs_desktop f s = wants_graphics f && negb (fi_address f =? 0).
Proof.
  intros H0. unfold runs_desktop, start_graphics. destruct (wants_graphics f) eqn:E; cbn [andb].
  - cbv zeta. cbn [Graphics.init fb address width height]. unfold wants_graphics in E. bool_hyps.
    destruct (fi_address f =? 0) eqn:Ea; unfold is_available; cbn [fb init_back_buffer Graphics.init address width height]; rewrite Ea; [done|].
    cbn [negb andb]. by rewrite (proj2 (Z.ltb_lt _ _)), (proj2 (Z.ltb_lt _ _)) by lia.
  - unfold is_available. by rewrite H0.
Qed.

(** The screen is then ready to be drawn on. *)
Lemma started_screen f s :
  wants_graphics f = true → 0 < fi_address f → fi_bpp f = 32 → fi_width f < 2 ^ 31 → fi_height f < 2 ^ 31 →
  4 * fi_width f ≤ fi_pitch f → fi_height f * fi_pitch f < 2 ^ 32 → fi_address f + fi_height f * fi_pitch f < 2 ^ 64 →
  screen_ok (start_graphics f s).
Proof.
  intros Hw Ha Hb Hx Hy Hp Hr He. unfold start_graphics. rewrite Hw. cbv zeta. cbn [Graphics.init fb address width height].
  rewrite (proj2 (Z.eqb_neq _ _)) by lia. unfold wants_graphics in Hw. bool_hyps.
  split; cbn [init_back_buffer Graphics.init fb address width height bpp pitch bb_width bb_height back]; try lia.
  - rewrite u32_small by nia. rewrite len_zeros; nia.
  - apply Forall_replicate. lia.
Qed.

Module BootExample.

Definition ram : MemoryMapEntry := mkEntry 0x100000 0x7F00000 Available.
Definition rom : MemoryMapEntry := mkEntry 0xF0000 0x10000 Reserved.
Definition vesa : FramebufferInfo := mkFbInfo 0xFD000000 1024 768 4096 32.
Definition table : list Tag := [Other 1 [65; 0]; MemMap 32 0 [mkRaw ram 1 (zeros 12); mkRaw rom 20 (zeros 12)]; Screen vesa 1 [0; 0; 16; 8; 8; 8; 0; 8]].

Definition memory_of (addr : Z) (bs : list Z) (a : Z) : Z := nth (Z.to_nat (a - addr)) bs 0.

Lemma holds_memory addr bs : holds (memory_of addr bs) addr bs.
Proof. intros i Hi. unfold memory_of. f_equal. lia. Qed.

Definition mem0 : Z → Z := memory_of 4096 (table_bytes table).

Lemma table_ok : Forall tag_ok table.
Proof.
  apply Forall_cons; split; [split; [by vm_compute|lia]|]. apply Forall_cons; split; [split; [by vm_compute|split; [lia|]]|].
  - apply Forall_cons; split; [|apply Forall_singleton]; unfold entry_ok; cbn [entry code rest base length_ mem_type ram rom];
      (split; [lia|]); (split; [lia|]); (split; [lia|]); split; reflexivity.
  - apply Forall_singleton. split; [by vm_compute|]. cbn [fi_address fi_width fi_height fi_pitch fi_bpp vesa]. lia.
Qed.

Lemma parse_table_witness :
  ∃ c, parse_multiboot 10 mem0 4096 = Some c ∧ memory_map (boot_info c) = Some [ram; rom] ∧ screen c = vesa.
Proof.
  destruct (parse_table 10 mem0 4096 table) as (c & H1 & H2 & H3); [cbn; lia|exact table_ok|lia|by vm_compute|by vm_compute|apply holds_memory|].
  exists c. split; [exact H1|]. rewrite H2, H3. split; reflexivity.
Defined.

(** An empty table of 16 bytes. *)
Definition empty0 : Z → Z := memory_of 4096 (table_bytes []).

Lemma walk_terminates_witness : rd empty0 4 4096 = 16 ∧ is_Some (parse_multiboot 3 empty0 4096).
Proof.
  split; [by vm_compute|]. apply walk_terminates; [lia|by vm_compute|by vm_compute|].
  intros k Hk H. change (rd empty0 4 4096) with 16 in H. assert (k = 1) as -> by lia. by vm_compute.
Defined.

End BootExample.
