(* ===== verification/Task.v ===== *)
(** * The fetch task: [task.rs]

    A page is fetched on a stack of its own, a slice per frame.  [_ctx_switch] and
    [_ctx_start_net] are the assembly of the source on registers and a memory of
    64-bit words at multiples of eight.  Above them a fetch is the slices it runs
    between two [yield_to_main]; [frame] is what the desktop does with it in a frame
    ([handle_pending_browser_fetch] of [gui/mod.rs]). *)

From stdpp Require Import gmap.
From S2P Require Import Prelude Bytes Html Windows Desktop.

(** ** The switch *)

Module Switch.

(** The registers a function has to preserve, the stack pointer and the place. *)
Record Cpu : Type := mkCpu { rsp : Z; rbp : Z; rbx : Z; r12 : Z; r13 : Z; r14 : Z; r15 : Z; rip : Z }.

Abbreviation Mem := (gmap Z Z).
Definition word (m : Mem) (addr : Z) : Z := default 0 (m !! addr).

Definition State : Type := Cpu * Mem.

Definition set_rsp (v : Z) (c : Cpu) : Cpu := mkCpu v (rbp c) (rbx c) (r12 c) (r13 c) (r14 c) (r15 c) (rip c).
Definition set_rbp (v : Z) (c : Cpu) : Cpu := mkCpu (rsp c) v (rbx c) (r12 c) (r13 c) (r14 c) (r15 c) (rip c).
Definition set_rbx (v : Z) (c : Cpu) : Cpu := mkCpu (rsp c) (rbp c) v (r12 c) (r13 c) (r14 c) (r15 c) (rip c).
Definition set_r12 (v : Z) (c : Cpu) : Cpu := mkCpu (rsp c) (rbp c) (rbx c) v (r13 c) (r14 c) (r15 c) (rip c).
Definition set_r13 (v : Z) (c : Cpu) : Cpu := mkCpu (rsp c) (rbp c) (rbx c) (r12 c) v (r14 c) (r15 c) (rip c).
Definition set_r14 (v : Z) (c : Cpu) : Cpu := mkCpu (rsp c) (rbp c) (rbx c) (r12 c) (r13 c) v (r15 c) (rip c).
Definition set_r15 (v : Z) (c : Cpu) : Cpu := mkCpu (rsp c) (rbp c) (rbx c) (r12 c) (r13 c) (r14 c) v (rip c).
Definition set_rip (v : Z) (c : Cpu) : Cpu := mkCpu (rsp c) (rbp c) (rbx c) (r12 c) (r13 c) (r14 c) (r15 c) v.

Definition push (v : Z) (s : State) : State :=
  let sp := u64 (rsp s.1 - 8) in
  (set_rsp sp s.1, <[sp := v]> s.2).

Definition pop (set : Z → Cpu → Cpu) (s : State) : State :=
  (set (word s.2 (rsp s.1)) (set_rsp (u64 (rsp s.1 + 8)) s.1), s.2).

Definition save_registers (s : State) : State :=
  let s := push (rbp s.1) s in
  let s := push (rbx s.1) s in
  let s := push (r12 s.1) s in
  let s := push (r13 s.1) s in
  let s := push (r14 s.1) s in
  push (r15 s.1) s.

Definition restore_registers (s : State) : State :=
  pop set_rip (pop set_rbp (pop set_rbx (pop set_r12 (pop set_r13 (pop set_r14 (pop set_r15 s)))))).

(** [mov [slot], rsp] *)
Definition store_rsp (slot : Z) (s : State) : State := (s.1, <[slot := rsp s.1]> s.2).

Definition ctx_switch (save load : Z) (s : State) : State :=
  let s := store_rsp save (save_registers s) in
  restore_registers (set_rsp (word s.2 load) s.1, s.2).

Definition ctx_start_net (net_top entry main_save : Z) (s : State) : State :=
  let s := store_rsp main_save (save_registers s) in
  let s := push entry (set_rsp net_top s.1, s.2) in
  let s := push 0 (push 0 (push 0 (push 0 (push 0 (push 0 s))))) in
  restore_registers s.

(** [call]: the return address is pushed. *)
Definition call (ret : Z) (f : State → State) (s : State) : State := f (push ret s).

Definition NET_STACK_SIZE : Z := 131072.

(** The top of the stack at [stack], aligned, then eight bytes less. *)
Definition net_top (stack : Z) : Z := Z.land (stack + NET_STACK_SIZE) (not_w 64 15) - 8.

End Switch.

(** ** The fetch *)

(** What the fetch does when it runs: it yields, or it is finished. *)
Inductive Fetch : Type :=
| Yield (k : Fetch)
| Finished (result : Document + list Z).

(** Where the task stands: never started, stopped at a yield, or behind its last
    switch, where only [halt] follows. *)
Inductive NetTask : Type := NotStarted | Suspended (k : Fetch) | Over.

Record Task : Type := mkTask {
  net_running : bool;
  net_done : bool;
  net_win_id : Z;
  pending : option (list Z);
  fetch_result : option (Document + list Z);
  net : NetTask;
}.

Definition Task_new : Task := mkTask false false 0 None None NotStarted.

(** A slice: up to the next yield, or to the end of [net_task_main]. *)
Definition run_slice (f : Fetch) (t : Task) : Task :=
  match f with
  | Yield k => mkTask (net_running t) (net_done t) (net_win_id t) (pending t) (fetch_result t) (Suspended k)
  | Finished r => mkTask (net_running t) true (net_win_id t) (pending t) (Some r) Over
  end.

Section Fetching.
Context (fetch_and_render : list Z → Fetch).

Definition is_running (t : Task) : bool := net_running t.

(** [net_task_main] up to its first yield. *)
Definition net_task_main (t : Task) : Task :=
  let url := default [] (pending t) in
  run_slice (fetch_and_render url) (mkTask (net_running t) (net_done t) (net_win_id t) None (fetch_result t) (net t)).

Definition start_fetch (url : list Z) (win_id : Z) (t : Task) : Task :=
  if net_running t then t
  else net_task_main (mkTask true false win_id (Some url) (fetch_result t) (net t)).

(** Resume the task; [None] when there is nothing to resume or it only halts. *)
Definition resume (t : Task) : option Task :=
  match net t with Suspended k => Some (run_slice k t) | _ => None end.

Definition tick_network (t : Task) : option (bool * Task) :=
  if net_done t then Some (true, t)
  else if net_running t then t ← resume t; Some (net_done t, t)
  else Some (false, t).

Definition take_result (t : Task) : (Z * option (Document + list Z)) * Task :=
  ((net_win_id t, fetch_result t), mkTask false false (net_win_id t) (pending t) None (net t)).

(** [handle_pending_browser_fetch] *)
Definition frame (s : GuiState * Task) : option (GuiState * Task) :=
  let '(g, t) := s in
  if is_running t then
    '(done, t) ← tick_network t;
    if (done : bool) then
      let '((win_id, result), t) := take_result t in
      Some (match result with Some r => finish_fetch win_id r g | None => g end, t)
    else Some (g, t)
  else
    match take_pending g with
    | (Some (win_id, url), g) => Some (g, start_fetch url win_id t)
    | (None, g) => Some (g, t)
    end.

Fixpoint frames (n : nat) (s : GuiState * Task) : option (GuiState * Task) :=
  match n with O => Some s | S n => s ← frame s; frames n s end.

End Fetching.
