(* ===== verification/TaskSpec.v ===== *)
(** * Two stacks and a page

    A task that switches away gets its registers and its stack back when the other one
    switches to it, whatever the other did with its own memory
    ([context_switch_returns]); a page that is asked for arrives in its window after as
    many frames as the fetch has slices, whatever the desktop does between the frames
    ([fetch_arrives]). *)

From stdpp Require Import gmap.
From S2P Require Import Prelude Bytes Html Windows Desktop DesktopSpec Task.

Import Switch.

Lemma word_insert m a v k : word (<[a := v]> m) k = if decide (k = a) then v else word m k.
Proof.
  unfold word. destruct (decide (k = a)) as [->|Hne]; [by rewrite lookup_insert_eq|by rewrite lookup_insert_ne].
Qed.

(** The registers a task keeps in its frame at [p], with the return address above. *)
Record frame_at (m : Mem) (p : Z) (c : Cpu) (ret : Z) : Prop := {
  fa_r15 : word m p = r15 c;
  fa_r14 : word m (p + 8) = r14 c;
  fa_r13 : word m (p + 16) = r13 c;
  fa_r12 : word m (p + 24) = r12 c;
  fa_rbx : word m (p + 32) = rbx c;
  fa_rbp : word m (p + 40) = rbp c;
  fa_ret : word m (p + 48) = ret;
}.

Lemma frame_at_same m m' p c ret :
  frame_at m p c ret → (∀ a, p ≤ a ≤ p + 48 → word m' a = word m a) → frame_at m' p c ret.
Proof. intros [] H. split; rewrite H by lia; done. Qed.

(** Calling a function that saves the registers leaves a frame below the stack pointer. *)
Lemma save_call ret c m : 56 ≤ rsp c < 2 ^ 64 →
  ∃ m', save_registers (push ret (c, m)) = (set_rsp (rsp c - 56) c, m') ∧ frame_at m' (rsp c - 56) c ret ∧
    ∀ a, ¬ (rsp c - 56 ≤ a < rsp c) → word m' a = word m a.
Proof.
  intros Hc. unfold save_registers, push. cbn [rsp rbp rbx r12 r13 r14 r15 set_rsp fst snd].
  rewrite (u64_small (rsp c - 8)) by lia. rewrite (u64_small (rsp c - 8 - 8)) by lia. rewrite (u64_small (rsp c - 8 - 8 - 8)) by lia.
  rewrite (u64_small (rsp c - 8 - 8 - 8 - 8)) by lia. rewrite (u64_small (rsp c - 8 - 8 - 8 - 8 - 8)) by lia.
  rewrite (u64_small (rsp c - 8 - 8 - 8 - 8 - 8 - 8)) by lia. rewrite (u64_small (rsp c - 8 - 8 - 8 - 8 - 8 - 8 - 8)) by lia.
  eexists. split; [|split].
  - unfold set_rsp. cbn. do 2 f_equal. lia.
  - split; rewrite !word_insert; repeat (destruct (decide _); try lia); done.
  - intros a Ha. rewrite !word_insert. repeat (destruct (decide _); try lia).
Qed.

Lemma restore_frame m p c ret c0 : 0 ≤ p → p + 56 < 2 ^ 64 → frame_at m p c ret →
  restore_registers (set_rsp p c0, m) = (mkCpu (p + 56) (rbp c) (rbx c) (r12 c) (r13 c) (r14 c) (r15 c) ret, m).
Proof.
  intros H0 Hb [F1 F2 F3 F4 F5 F6 F7]. unfold restore_registers, pop.
  cbn [rsp rbp rbx r12 r13 r14 r15 rip set_rsp set_rip set_rbp set_rbx set_r12 set_r13 set_r14 set_r15 fst snd].
  rewrite (u64_small (p + 8)) by lia. rewrite (u64_small (p + 8 + 8)) by lia. rewrite (u64_small (p + 8 + 8 + 8)) by lia.
  rewrite (u64_small (p + 8 + 8 + 8 + 8)) by lia. rewrite (u64_small (p + 8 + 8 + 8 + 8 + 8)) by lia.
  rewrite (u64_small (p + 8 + 8 + 8 + 8 + 8 + 8)) by lia. rewrite (u64_small (p + 8 + 8 + 8 + 8 + 8 + 8 + 8)) by lia.
  replace (p + 8 + 8 + 8 + 8 + 8 + 8 + 8) with (p + 56) by lia. replace (p + 8 + 8 + 8 + 8 + 8 + 8) with (p + 48) by lia.
  replace (p + 8 + 8 + 8 + 8 + 8) with (p + 40) by lia. replace (p + 8 + 8 + 8 + 8) with (p + 32) by lia.
  replace (p + 8 + 8 + 8) with (p + 24) by lia. replace (p + 8 + 8) with (p + 16) by lia.
  by rewrite F1, F2, F3, F4, F5, F6, F7.
Qed.

(** A call of the switch: the caller's frame is saved and the stack pointer kept in
    [save]; nothing else of memory changes, and the other frame is left. *)
Lemma call_switch ret save load c m q :
  56 ≤ rsp c < 2 ^ 64 → ¬ (rsp c - 56 ≤ save < rsp c) → ¬ (rsp c - 56 ≤ load < rsp c) → save ≠ load → word m load = q →
  ∃ m', call ret (ctx_switch save load) (c, m) = restore_registers (set_rsp q c, m') ∧
    word m' save = rsp c - 56 ∧ frame_at m' (rsp c - 56) c ret ∧
    ∀ a, a ≠ save → ¬ (rsp c - 56 ≤ a < rsp c) → word m' a = word m a.
Proof.
  intros Hc Hs Hl Hne Hq. destruct (save_call ret c m Hc) as (m' & E & Hf & Hm). exists (<[save := rsp c - 56]> m').
  unfold call, ctx_switch. rewrite E. unfold store_rsp. cbn [fst snd rsp set_rsp]. split_and!.
  - rewrite word_insert, decide_False by done. rewrite Hm by done. by rewrite Hq.
  - by rewrite word_insert, decide_True.
  - eapply frame_at_same; [done|]. intros a Ha. rewrite word_insert, decide_False; [done|]. intros ->. lia.
  - intros a Ha Hr. rewrite word_insert, decide_False by done. by apply Hm.
Qed.

(** C32: a task that switches away is continued behind its call, with the registers it
    had, when the other task switches back, provided the other one left its saved
    stack pointer and its frame alone; and the other task is saved in turn. *)
Theorem context_switch_returns main net c m ret c2 m2 ret2 :
  let mine a := rsp c - 56 ≤ a < rsp c in
  let theirs a := rsp c2 - 56 ≤ a < rsp c2 in
  56 ≤ rsp c < 2 ^ 64 → 56 ≤ rsp c2 < 2 ^ 64 →
  main ≠ net → ¬ mine main → ¬ mine net → ¬ theirs main → ¬ theirs net → (∀ a, mine a → ¬ theirs a) →
  (∀ a, a = main ∨ mine a → word m2 a = word (call ret (ctx_switch main net) (c, m)).2 a) →
  let s := call ret2 (ctx_switch net main) (c2, m2) in
  s.1 = set_rip ret c ∧ word s.2 net = rsp c2 - 56 ∧ frame_at s.2 (rsp c2 - 56) c2 ret2.
Proof.
  intros mine theirs Hc Hc2 Hne Hm1 Hm2 Ht1 Ht2 Hd Hkeep s.
  destruct (call_switch ret main net c m _ Hc Hm1 Hm2 Hne eq_refl) as (m' & E & Hslot & Hf & _).
  assert ((call ret (ctx_switch main net) (c, m)).2 = m') as Emem by (by rewrite E).
  rewrite Emem in Hkeep. assert (word m2 main = rsp c - 56) as Hmain by (rewrite Hkeep by (by left); done).
  destruct (call_switch ret2 net main c2 m2 _ Hc2 Ht2 Ht1 (not_eq_sym Hne) Hmain) as (m3 & E3 & Hslot3 & Hf3 & Hm3).
  assert (frame_at m3 (rsp c - 56) c ret) as Hframe.
  { eapply frame_at_same; [exact Hf|]. intros a Ha. assert (mine a) as Hmine by (unfold mine; lia).
    rewrite Hm3; [apply Hkeep; by right| |by apply Hd]. intros ->. by apply Hm2. }
  subst s. rewrite E3. rewrite (restore_frame _ _ c ret) by (done || lia). cbn [fst snd]. split_and!; [|done|done].
  unfold set_rip. f_equal. lia.
Qed.

(** The first switch enters [net_task_main] on the empty stack, aligned as after a
    call, with the caller saved. *)
Lemma start_net_spec ret stack entry main c m :
  56 ≤ rsp c < 2 ^ 64 → ¬ (rsp c - 56 ≤ main < rsp c) → 0 ≤ stack → stack + NET_STACK_SIZE < 2 ^ 64 →
  (∀ a, stack ≤ a < stack + NET_STACK_SIZE → a ≠ main ∧ ¬ (rsp c - 56 ≤ a < rsp c)) →
  let s := call ret (ctx_start_net (net_top stack) entry main) (c, m) in
  s.1 = mkCpu (net_top stack) 0 0 0 0 0 0 entry ∧ net_top stack mod 16 = 8 ∧
  stack + NET_STACK_SIZE - 24 < net_top stack < stack + NET_STACK_SIZE ∧
  word s.2 main = rsp c - 56 ∧ frame_at s.2 (rsp c - 56) c ret.
Proof.
  intros Hc Hmain Hs0 Hs1 Hd s.
  assert (net_top stack = (stack + NET_STACK_SIZE) / 16 * 16 - 8) as Et.
  { unfold net_top. f_equal. change (not_w 64 15) with (Z.ones 60 * 16). set (n := stack + NET_STACK_SIZE) in *.
    assert (0 ≤ n < 2 ^ 64) as Hn by (unfold NET_STACK_SIZE in *; lia). clearbody n. change 16 with (2 ^ 4).
    rewrite <- !Z.shiftl_mul_pow2, <- Z.shiftr_div_pow2 by lia. apply Z.bits_inj'. intros i Hi. rewrite Z.land_spec.
    destruct (decide (i < 4)) as [H4|H4].
    - rewrite !Z.shiftl_spec_low by lia. by rewrite andb_false_r.
    - rewrite !Z.shiftl_spec_high by lia. rewrite Z.shiftr_spec by lia. replace (i - 4 + 4) with i by lia.
      destruct (decide (i < 64)) as [H64|H64].
      + rewrite Z.ones_spec_low by lia. by rewrite andb_true_r.
      + rewrite Z.ones_spec_high by lia. rewrite andb_false_r. symmetry. destruct (decide (n = 0)) as [->|]; [by apply Z.bits_0|].
        apply Z.bits_above_log2; [lia|]. apply (Z.lt_le_trans _ 64); [|lia]. apply Z.log2_lt_pow2; lia. }
  assert (stack + NET_STACK_SIZE - 24 < net_top stack < stack + NET_STACK_SIZE) as Hb by (rewrite Et; zdiv).
  assert (net_top stack mod 16 = 8) as Hm16 by (rewrite Et; zdiv).
  destruct (save_call ret c m Hc) as (m' & E & Hf & Hm). unfold NET_STACK_SIZE in *.
  subst s. unfold call, ctx_start_net. rewrite E. set (t := net_top stack) in *. clearbody t.
  set (m1 := <[main := rsp c - 56]> m').
  assert (frame_at m1 (rsp c - 56) c ret ∧ word m1 main = rsp c - 56) as [Hf1 Hw1].
  { split; [|by unfold m1; rewrite word_insert, decide_True]. eapply frame_at_same; [exact Hf|]. intros a Ha.
    unfold m1. rewrite word_insert, decide_False; [done|]. intros ->. lia. }
  unfold push, store_rsp. cbn [fst snd rsp set_rsp rbp rbx r12 r13 r14 r15]. fold m1.
  rewrite (u64_small (t - 8)) by lia. rewrite (u64_small (t - 8 - 8)) by lia. rewrite (u64_small (t - 8 - 8 - 8)) by lia.
  rewrite (u64_small (t - 8 - 8 - 8 - 8)) by lia. rewrite (u64_small (t - 8 - 8 - 8 - 8 - 8)) by lia.
  rewrite (u64_small (t - 8 - 8 - 8 - 8 - 8 - 8)) by lia. rewrite (u64_small (t - 8 - 8 - 8 - 8 - 8 - 8 - 8)) by lia.
  set (m2 := <[_ := 0]> _).
  assert (∀ a, ¬ (t - 56 ≤ a < t) → word m2 a = word m1 a) as Hm2.
  { intros a Ha. unfold m2. rewrite !word_insert. repeat (destruct (decide _); try lia). }
  assert (frame_at m2 (t - 8 - 8 - 8 - 8 - 8 - 8 - 8) (mkCpu 0 0 0 0 0 0 0 0) entry) as Hf2.
  { unfold m2. split; rewrite !word_insert; repeat (destruct (decide _); try lia); done. }
  rewrite (restore_frame m2 (t - 8 - 8 - 8 - 8 - 8 - 8 - 8) _ entry _ ltac:(lia) ltac:(lia) Hf2). cbn [fst snd rbp rbx r12 r13 r14 r15]. split_and!; try done; try lia.
  - f_equal. lia.
  - rewrite Hm2; [done|]. intros Ha. by destruct (Hd main ltac:(lia)).
  - eapply frame_at_same; [exact Hf1|]. intros a Ha. apply Hm2. intros Ht. destruct (Hd a ltac:(lia)) as [_ Hno]. apply Hno. lia.
Qed.

(** ** A fetch *)

(** The number of times a fetch yields, and its result. *)
Fixpoint yields (f : Fetch) : nat := match f with Yield k => S (yields k) | Finished _ => O end.
Fixpoint result_of (f : Fetch) : Document + list Z := match f with Yield k => result_of k | Finished r => r end.

Section Fetched.
Context (fetch_and_render : list Z → Fetch).

(** The task between two frames. *)
Record task_ok (t : Task) : Prop := {
  to_idle : net_running t = false → net_done t = false;
  to_live : net_running t = true → net_done t = false → ∃ k, net t = Suspended k;
  to_done : net_done t = true → ∃ r, fetch_result t = Some r;
}.

Lemma run_slice_ok f t : net_running t = true → net_done t = false → task_ok (run_slice f t).
Proof using Type.
  intros Hr Hd. destruct f as [k|r]; split; cbn; try congruence.
  - intros _ _. by exists k.
  - intros _. by exists r.
Qed.

Lemma taken_ok t : task_ok (take_result t).2.
Proof using Type. by split; cbn; intros ?. Qed.

(** A frame finds something to resume whenever it resumes: the finished task is never
    switched to again. *)
Lemma frame_total g t : task_ok t → ∃ g' t', frame fetch_and_render (g, t) = Some (g', t') ∧ task_ok t'.
Proof using Type.
  intros [H1 H2 H3]. unfold frame, is_running. destruct (net_running t) eqn:Er.
  - unfold tick_network. destruct (net_done t) eqn:Ed; cbn.
    + eexists _, _. split; [done|]. apply (taken_ok t).
    + rewrite Er. destruct (H2 eq_refl eq_refl) as (k & Ek). unfold resume. rewrite Ek. cbn.
      destruct (net_done (run_slice k t)).
      * eexists _, _. split; [reflexivity|]. apply (taken_ok (run_slice k t)).
      * eexists _, _. split; [reflexivity|]. by apply run_slice_ok.
  - destruct (take_pending g) as [[[id url]|] g'].
    + eexists _, _. split; [reflexivity|]. unfold start_fetch. rewrite Er. by apply run_slice_ok.
    + eexists _, _. split; [reflexivity|]. split; rewrite ?Er; done.
Qed.

Lemma frames_S n s : frames fetch_and_render (S n) s = s ← frame fetch_and_render s; frames fetch_and_render n s.
Proof using Type. done. Qed.

(** Frames, each after whatever the events before it do to the desktop. *)
Fixpoint frames_among (changes : list (GuiState → GuiState)) (s : GuiState * Task) : option (GuiState * Task) :=
  match changes with
  | [] => Some s
  | change :: changes => s ← frame fetch_and_render (change s.1, s.2); frames_among changes s
  end.

Definition changed (changes : list (GuiState → GuiState)) (g : GuiState) : GuiState := foldl (λ g change, change g) g changes.

(** The page of a result: the document, or the page with the error. *)
Definition page_of (r : Document + list Z) : Document := match r with inl d => d | inr e => error_page e end.

(** From [g] to [g2] the window [id], when it is still there and a browser, gets the
    document [d], seen from the top and not laid out; nothing else happens to it and to
    the other windows. *)
Definition shows_page (id : Z) (d : Document) (g g2 : GuiState) : Prop :=
  (∀ j w br, windows g !! j = Some w → win_id w = id → win_content w = Windows.Browser br →
    (∀ k w', windows g !! k = Some w' → win_id w' = id → k = j) →
    ∃ br2, windows g2 !! j = Some (set_content (Windows.Browser br2) w) ∧ doc br2 = d ∧ doc_layout br2 = [] ∧ br_scroll br2 = 0) ∧
  (∀ j w, windows g !! j = Some w → win_id w ≠ id → windows g2 !! j = Some w) ∧
  length (windows g2) = length (windows g).

Lemma finish_fetch_shows id r g : shows_page id (page_of r) g (finish_fetch id r g).
Proof using Type.
  unfold finish_fetch. destruct (find_window (λ w, win_id w =? id) (windows g)) as [i|] eqn:E.
  - apply find_window_Some in E as (w0 & Hw0 & Hid%Z.eqb_eq). rewrite Hw0. cbn [fmap option_fmap option_map]. split; [|split].
    + intros j w br Hj Hw Hc Huniq. pose proof (Huniq i w0 Hw0 Hid) as ->. rewrite Hw0 in Hj. injection Hj as ->. rewrite Hc.
      exists (show_result r br). cbn. rewrite list_lookup_alter_eq, Hw0. split; [done|]. destruct r; split_and!; reflexivity.
    + intros j w Hj Hw. destruct (win_content w0); try done. cbn. rewrite list_lookup_alter_ne; [done|]. intros <-. congruence.
    + destruct (win_content w0); try done. cbn. apply length_alter.
  - apply find_window_None in E. split; [|by split]. intros j w br Hj Hw. rewrite Forall_lookup in E. specialize (E j w Hj). cbn in E. lia.
Qed.

(** The frames of a fetch that is under way. *)
Lemma fetch_runs k : ∀ changes g t, net_running t = true → net_done t = false → net t = Suspended k →
  length changes = S (yields k) →
  ∃ t', frames_among changes (g, t) = Some (finish_fetch (net_win_id t) (result_of k) (changed changes g), t') ∧
    net_running t' = false ∧ net_done t' = false.
Proof using Type.
  induction k as [k IH|r]; intros [|c changes] g t Hr Hd Hk Hl; try done; injection Hl as Hl;
    cbn [frames_among fst snd]; unfold frame, is_running, tick_network, resume; rewrite Hr, Hd, Hk; cbn [mbind option_bind].
  - cbn [run_slice net_done]. rewrite Hd. apply (IH changes (c g) (mkTask _ _ _ _ _ _)); done.
  - destruct changes; [|done]. cbn. eexists. split; [done|]. done.
Qed.

Lemma take_pending_top g i w br url :
  windows g !! i = Some w → win_content w = Windows.Browser br → pending_url br = Some url →
  (∀ j w', (i < j)%nat → windows g !! j = Some w' → wants_page w' = false) →
  take_pending g = (Some (win_id w, url), put_content i (Windows.Browser (set_pending None br)) g).
Proof using Type.
  intros Hw Hc Hu Htop. unfold take_pending. assert (wants_page w = true) as Hwant by (unfold wants_page; by rewrite Hc, Hu).
  destruct (top_window wants_page (windows g)) as [j|] eqn:E.
  - apply top_window_Some in E as (w' & Hj & Hp & Hmax). pose proof (Hmax i w Hw Hwant). destruct (decide (i = j)) as [->|Hne].
    + rewrite Hw, Hc, Hu. done.
    + rewrite (Htop j w') in Hp; [done|lia|done].
  - apply top_window_None in E. rewrite Forall_lookup in E. rewrite (E i w Hw) in Hwant. done.
Qed.

(** C33: the page that the topmost asking window asks for is taken at the next frame
    when no fetch is running, and the request is cleared.  After as many more frames as
    the fetch has slices left, at least one, whatever the desktop does before each of
    them, the window - where it is by then, if it is still open - has the document, or
    the page with the error, and no other window changes; then the task is free again. *)
Theorem fetch_arrives g i w br url t changes :
  net_running t = false →
  windows g !! i = Some w → win_content w = Windows.Browser br → pending_url br = Some url →
  (∀ j w', (i < j)%nat → windows g !! j = Some w' → wants_page w' = false) →
  let f := fetch_and_render url in
  length changes = Nat.max 1 (yields f) →
  ∃ g1 t1 g2 t2, frame fetch_and_render (g, t) = Some (g1, t1) ∧
    windows g1 = alter (set_content (Windows.Browser (set_pending None br))) i (windows g) ∧
    frames_among changes (g1, t1) = Some (g2, t2) ∧ net_running t2 = false ∧ net_done t2 = false ∧
    shows_page (win_id w) (page_of (result_of f)) (changed changes g1) g2.
Proof using Type.
  intros Hr Hw Hc Hu Htop f Hl. set (g1 := put_content i (Windows.Browser (set_pending None br)) g).
  exists g1, (start_fetch fetch_and_render url (win_id w) t).
  unfold frame at 1, is_running. rewrite Hr, (take_pending_top g i w br url Hw Hc Hu Htop).
  enough (∃ t2, frames_among changes (g1, start_fetch fetch_and_render url (win_id w) t) =
      Some (finish_fetch (win_id w) (result_of f) (changed changes g1), t2) ∧ net_running t2 = false ∧ net_done t2 = false)
    as (t2 & E & Hr2 & Hd2) by (exists (finish_fetch (win_id w) (result_of f) (changed changes g1)), t2; split_and!; eauto using finish_fetch_shows).
  unfold start_fetch. rewrite Hr. unfold net_task_main. cbn [pending from_option Datatypes.id net_running net_done net_win_id fetch_result net].
  fold f. destruct f as [k|r]; cbn [run_slice yields result_of net_running net_done net_win_id fetch_result net] in *.
  - by apply (fetch_runs k changes g1 (mkTask _ _ _ _ _ _)); [..|lia].
  - destruct changes as [|c [|]]; [done| |done]. cbn. eexists. split; [done|]. done.
Qed.

(** A second request while a page is being fetched waits. *)
Lemma start_while_running url id t : net_running t = true → start_fetch fetch_and_render url id t = t.
Proof using Type. intros H. unfold start_fetch. by rewrite H. Qed.

End Fetched.

Module TaskExample.

Definition gui_cpu : Cpu := mkCpu 0x90000 1 2 3 4 5 6 0x200100.
Definition net_cpu : Cpu := mkCpu 0x70000 7 8 9 10 11 12 0x200500.
Definition after : State := call 0x200200 (ctx_switch 0x1000 0x1008) (gui_cpu, ∅).

Lemma context_switch_returns_witness :
  (call 0x200600 (ctx_switch 0x1008 0x1000) (net_cpu, after.2)).1 = mkCpu 0x90000 1 2 3 4 5 6 0x200200.
Proof.
  destruct (context_switch_returns 0x1000 0x1008 gui_cpu ∅ 0x200200 net_cpu after.2 0x200600) as [H _];
    first [exact H|cbn; lia|done].
Defined.

(** A fetch of two slices for window 7. *)
Definition page : Document := Html.from_text [79; 75].
Definition fetch2 (url : list Z) : Fetch := Yield (Yield (Finished (inl page))).
Definition browser : Window := set_content (Windows.Browser (set_pending (Some [104]) BrowserState_new)) (Window_new 7 [] 0 0 100 100).
Definition asking : GuiState := set_windows [browser] gui_init.

(** The user closes nothing, moves the window and opens another one on top meanwhile. *)
Definition meanwhile : list (GuiState → GuiState) :=
  [λ g, set_windows (map (set_position 40 50) (windows g)) g; λ g, set_windows (windows g ++ [Window_new 8 [] 0 0 10 10]) g].

Lemma fetch_arrives_witness :
  ∃ g1 t1 g2 t2, frame fetch2 (asking, Task_new) = Some (g1, t1) ∧ frames_among fetch2 meanwhile (g1, t1) = Some (g2, t2) ∧
    net_running t2 = false ∧ (∃ w br, windows g2 !! 0%nat = Some w ∧ win_content w = Windows.Browser br ∧ doc br = page) ∧
    windows g2 !! 1%nat = Some (Window_new 8 [] 0 0 10 10).
Proof.
  destruct (fetch_arrives fetch2 asking 0 browser (set_pending (Some [104]) BrowserState_new) [104] Task_new meanwhile)
    as (g1 & t1 & g2 & t2 & Hf & Hg1 & E & Hr & _ & Hs & Ho & _); [reflexivity..| |reflexivity|].
  { intros [|j] w' Hj Hw; [lia|discriminate Hw]. }
  exists g1, t1, g2, t2. split; [exact Hf|]. split; [exact E|]. split; [exact Hr|].
  cbn [changed foldl meanwhile windows set_windows] in Hs, Ho. rewrite Hg1 in Hs, Ho. split.
  - destruct (Hs 0%nat _ _ eq_refl eq_refl eq_refl) as (br2 & Hw & Hd & _).
    + intros [|[|k]] w' Hk Hid; [reflexivity| |discriminate Hk]. injection Hk as <-. discriminate Hid.
    + eexists _, br2. split; [exact Hw|]. split; [reflexivity|exact Hd].
  - apply Ho; [reflexivity|discriminate].
Defined.

End TaskExample.
