(* ===== verification/GuiLoop.v ===== *)
(** * The loop of the desktop: [run] of [gui/mod.rs]

    A turn reads the mouse and at most one key, blinks the cursors, lays out the pages,
    draws a frame and gives the fetch of a page its slice ([turn]).  The handlers are
    those of Desktop.v, the frame is the one of Draw.v and the fetch that of Task.v.
    Between two turns the interrupts of the mouse and the keyboard change their
    states ([reached]); inside a turn they are not modelled. *)

From S2P Require Import Prelude Bytes Str Vfs Files Html Graphics GraphicsSpec Editor Mouse Keyboard Windows Desktop Task DesktopSpec Draw DrawSpec.

(** ** A turn *)

Record World (S I F T : Type) : Type := mkWorld {
  desk : Desk S I F T;
  mouse : MouseState;
  keyboard : Keyboard;
  task : Task;
  gfx : Gfx;
}.
Arguments mkWorld {S I F T} _ _ _ _ _.
Arguments desk {S I F T} _.
Arguments mouse {S I F T} _.
Arguments keyboard {S I F T} _.
Arguments task {S I F T} _.
Arguments gfx {S I F T} _.

Definition clear_redraw (g : GuiState) : GuiState :=
  mkGui (windows g) (next_window_id g) (dock_items g) (mouse_x g) (mouse_y g) (mouse_prev_left g) (mouse_prev_right g)
    (running g) false false (hovered_dock g).

Section Loop.
Context {S I F T : Type} `{!InodeOps S I, !FileSystemOps S I F}.
Context (execute_command : list Z → M (VFS S I F * T) (list Z)) (get_cwd : T → list Z).
Context (fetch_and_render : list Z → Fetch) (facts : Desk S I F T → Facts).

#[local] Abbreviation Act := (M (Desk S I F T)).

(** The key that is read, first as a key, then as a character. *)
Definition handle_key (ev : option KeyEvent) : Act unit :=
  match ev with
  | Some ev =>
      handle_key_event ev;;
      match keyevent_to_char ev with
      | Some c => handle_keyboard execute_command get_cwd [Z.of_N (Ascii.N_of_ascii c)]
      | None => mret tt
      end
  | None => mret tt
  end.

(** What happens before drawing; [None] when the layout of a page does not end. *)
Definition handle_input (mx my : Z) (left right : bool) (delta : Z) (ev : option KeyEvent) : Act (option unit) :=
  handle_mouse mx my left right delta;;
  handle_key ev;;
  on_gui blink_cursors;;
  on_gui clear_redraw;;
  prepare_browser_layouts.

(** The result says whether the loop goes on. *)
Definition turn (w : World S I F T) : option (res (bool * World S I F T)) :=
  let '(mx, my) := get_position (mouse w) in
  let '(left, right, _) := get_buttons (mouse w) in
  let '(delta, mouse) := get_scroll_delta (mouse w) in
  let '(ev, keyboard) := read_key (keyboard w) in
  match handle_input mx my left right delta ev (desk w) with
  | (Ok (Some _), d) =>
      shown ← show_frame (facts d) (gui d) mx my (gfx w);
      match shown with
      | Ok gfx =>
          '(g, task) ← Task.frame fetch_and_render (gui d, task w);
          Some (Ok (running g, mkWorld (set_gui g d) mouse keyboard task gfx))
      | Err e => Some (Err e)
      | Panic => Some Panic
      end
  | (Ok None, _) => None
  | (Err e, _) => Some (Err e)
  | (Panic, _) => Some Panic
  end.

(** The worlds after [n] turns, with interrupts between them. *)
Inductive reached (w0 : World S I F T) : nat → World S I F T → Prop :=
| ReachedStart : reached w0 0 w0
| ReachedTurn n w go w' : reached w0 n w → turn w = Some (Ok (go, w')) → reached w0 (Datatypes.S n) w'
| ReachedInterrupt n w m k : reached w0 n w → reached w0 n (mkWorld (desk w) m k (task w) (gfx w)).

(** ** The invariant of the windows *)

Lemma adds_key_char ev : adds (T := T) 2 (handle_key ev).
Proof using Type.
  destruct ev as [ev|]; cbn [handle_key]; [|by apply adds_ret]. apply (adds_seq 1 1); [lia..| |].
  - apply adds_key.
  - intros _. destruct (keyevent_to_char ev) as [c|]; [apply adds_char|by apply adds_ret].
Qed.

Lemma clear_inv n g : gui_inv n g → gui_inv n (clear_redraw g).
Proof using Type. intros H. by apply (gui_inv_same n g). Qed.

Lemma adds_input mx my left right delta ev : adds 5 (handle_input mx my left right delta ev).
Proof using Type.
  apply (adds_seq 3 2); [lia..|apply adds_mouse|]. intros _. apply (adds_seq 2 0); [lia..|apply adds_key_char|]. intros _.
  apply (adds_seq 0 0); [lia..|apply adds_gui, blink_inv|]. intros _.
  apply (adds_seq 0 0); [lia..|apply adds_gui, clear_inv|]. intros _. apply adds_prepare.
Qed.

Lemma frame_inv n g t g' t' : gui_inv n g → Task.frame fetch_and_render (g, t) = Some (g', t') → gui_inv n g'.
Proof using Type.
  intros H. unfold Task.frame. destruct (is_running t).
  - destruct (tick_network t) as [[[] t1]|]; cbn; [|by intros [= <- <-]|done].
    destruct (fetch_result t1); intros [= <- <-]; [by apply finish_fetch_inv|done].
  - pose proof (take_pending_inv n g H) as H1. destruct (take_pending g) as [[[id url]|] g1]; by intros [= <- <-].
Qed.

(** A turn that ends has drawn the windows it handled. *)
Lemma turn_runs w go w' : turn w = Some (Ok (go, w')) →
  ∃ left right ev d, 
    let '(mx, my) := get_position (mouse w) in
    handle_input mx my left right (get_scroll_delta (mouse w)).1 ev (desk w) = (Ok (Some tt), d) ∧
    show_frame (facts d) (gui d) mx my (gfx w) = Some (Ok (gfx w')) ∧
    Task.frame fetch_and_render (gui d, task w) = Some (gui (desk w'), task w').
Proof using Type.
  unfold turn. destruct (get_position (mouse w)) as [mx my]. destruct (get_buttons (mouse w)) as [[left right] mid].
  destruct (get_scroll_delta (mouse w)) as [delta m']. destruct (read_key (keyboard w)) as [ev k'].
  destruct (handle_input mx my left right delta ev (desk w)) as [[[[]|]|e|] d] eqn:E; try done.
  destruct (show_frame _ _ _ _ _) as [[gfx'|e|]|] eqn:Es; try done. cbn [mbind option_bind].
  destruct (Task.frame _ _) as [[g t]|] eqn:Ef; [|done]. cbn. intros [= <- <-]. exists left, right, ev, d. done.
Qed.

(** From the start of the desktop, whatever the mouse and the keys do, however many
    turns there are: the windows have different identifiers, a window with the focus is
    on top, and the contents are as [content_ok] says. *)
Theorem loop_invariant w0 n w :
  gui (desk w0) = gui_init → reached w0 n w → 5 * Z.of_nat n + 1 < 2 ^ 32 → gui_inv (5 * Z.of_nat n + 1) (gui (desk w)).
Proof using Type.
  intros H0 H. induction H as [|n w go w' H IH Ht|n w m k H IH]; intros Hn.
  - rewrite H0. apply gui_init_inv.
  - specialize (IH ltac:(lia)). destruct (turn_runs w go w' Ht) as (left & right & ev & d & Hturn).
    destruct (get_position (mouse w)) as [mx my]. destruct Hturn as (Hin & _ & Hf).
    apply (frame_inv _ (gui d) (task w) _ (task w')); [|done].
    pose proof (adds_input mx my left right (get_scroll_delta (mouse w)).1 ev (5 * Z.of_nat n + 1) ltac:(lia) ltac:(lia) (desk w) IH) as H1.
    rewrite Hin in H1. by replace (5 * Z.of_nat (Datatypes.S n) + 1) with (5 * Z.of_nat n + 1 + 5) by lia.
  - by apply IH.
Qed.

End Loop.
