(* ===== verification/Shell.v ===== *)
(** * The shell: [shell.rs]

    The commands, behind the terminal of the desktop ([execute_command]) and at the
    console ([run]), on the files of Files.v, the network of NetStack.v and Http.v,
    the frames of Physical.v and the scheduler of Scheduler.v.  The text of a command
    is the list of its bytes.  A command gives a text and no error: an [Err] says
    that it does not return, because the machine stops or because a loop ran out of
    its fuel. *)

From S2P Require Import Prelude Bytes Str Vfs DiskLayout CottonFS NetStack Browser Html Http Files ShellText.
From S2P Require Physical Scheduler.

#[local] Notation "'b' s" := (bytes_of_string s) (at level 9, s at level 9, only parsing).

(** ** State *)

(** The statics of the shell and what its commands ask the kernel for. *)
Record Env (N : Type) : Type := mkEnv {
  cwd : option (list Z);
  has_disk : bool;
  net : Net N;
  frames : Physical.FrameAllocator;
  kernel : Scheduler.Kernel;
}.
Arguments mkEnv {N} _ _ _ _ _.
Arguments cwd {N} _.
Arguments has_disk {N} _.
Arguments net {N} _.
Arguments frames {N} _.
Arguments kernel {N} _.

Definition get_cwd {N} (e : Env N) : list Z := default [slash] (cwd e).
Definition put_cwd {N} (p : list Z) (e : Env N) : Env N := mkEnv (Some p) (has_disk e) (net e) (frames e) (kernel e).
Definition put_disk {N} (d : bool) (e : Env N) : Env N := mkEnv (cwd e) d (net e) (frames e) (kernel e).
Definition put_net {N} (n : Net N) (e : Env N) : Env N := mkEnv (cwd e) (has_disk e) n (frames e) (kernel e).

Definition resolve_path {N} (path : list Z) (e : Env N) : list Z :=
  if has_prefix [slash] path then path else under (get_cwd e) path.

(** [m] as a value that is matched on. *)
Definition m_result {S A} (m : M S A) : M S (A + list Z) := λ s,
  match m s with
  | (Ok a, s) => (Ok (inl a), s)
  | (Err e, s) => (Ok (inr (b e)), s)
  | (Panic, s) => (Panic, s)
  end.

Definition usage {S} (t : string) : M S (list Z) := mret (b t).

(** ** Commands *)

Section Commands.

Context {S I F N C : Type} `{!InodeOps S I, !FileSystemOps S I F, Smoltcp N, !Tls N C}.

(** [hlt]: the time that passes until the next interrupt. *)
Context (hlt : N → N).
(** The card: its address, and its counters of packets and errors received and sent. *)
Context (card_mac : N → list Z) (card_counts : N → Z * Z * Z * Z).
(** The storage that is mounted. *)
Context (get_storage_info : M (VFS S I F) (option StorageInfo)).
Context (fuel : nat).

#[local] Abbreviation Sh := (M (VFS S I F * Env N)).

Definition on_fs {A} (m : M (VFS S I F) A) : Sh A := λ s, let '(r, v) := m s.1 in (r, (v, s.2)).
Definition get_env : Sh (Env N) := λ s, (Ok s.2, s).
Definition set_env (f : Env N → Env N) : Sh unit := m_modify (λ s, (s.1, f s.2)).

Definition on_net {A} (w : Wait N A) : Sh (A + list Z) := λ s,
  match w (net s.2) with
  | Some (Returns a, n) => (Ok (inl a), (s.1, put_net n s.2))
  | Some (Fails e, n) => (Ok (inr e), (s.1, put_net n s.2))
  | Some (Panics, n) => (Panic, (s.1, put_net n s.2))
  | None => (Err "out of fuel", s)
  end.

Definition set_cwd (p : list Z) : Sh unit := set_env (put_cwd p).

(** The path an argument names. *)
Definition path_arg (a : list Z) : Sh (list Z) := e ← get_env; mret (resolve_path a e).

(** *** Network *)

Definition halt_net (n : Net N) : Net N := match stack n with Some s => set_stack (hlt s) n | None => n end.

(** A text, or the error after [prefix]. *)
Definition answer (prefix : string) (r : list Z + list Z) : list Z :=
  match r with inl t => t | inr e => b prefix ++ e end.

(** The four addresses, after [first]. *)
Definition show_config (first : list Z) (c : NetConfig) : list Z :=
  first ++ nl ++ b "  IPv4: " ++ fmt_ipv4 (ip c) ++ nl ++ b "  Netmask: " ++ fmt_ipv4 (netmask c) ++ nl ++
  b "  Gateway: " ++ fmt_ipv4 (gateway c) ++ nl ++ b "  DNS: " ++ fmt_ipv4 (dns c).

Definition exec_net : Sh (list Z) :=
  e ← get_env;
  mret match stack (net e) with
       | None => b "Network: unavailable (RTL8139 not detected)"
       | Some s => show_config (b "Network interface: rtl8139" ++ nl ++ b "  MAC: " ++ fmt_mac (card_mac s)) (config (net e))
       end.

Definition exec_netstats : Sh (list Z) :=
  e ← get_env;
  let '(rx, tx, rx_err, tx_err) := match stack (net e) with Some s => card_counts s | None => (0, 0, 0, 0) end in
  mret (b "Network counters:" ++ nl ++ b "  RX packets: " ++ decimal rx ++ nl ++ b "  TX packets: " ++ decimal tx ++ nl ++
        b "  RX errors:  " ++ decimal rx_err ++ nl ++ b "  TX errors:  " ++ decimal tx_err ++ nl ++
        b "  ICMP echo rx: " ++ decimal (icmp_echo_rx (net e)) ++ nl ++ b "  ICMP echo tx: " ++ decimal (icmp_echo_tx (net e))).

(** [network::arp_entries] has no valid entry. *)
Definition arp_entries : list (list Z * list Z * bool) := replicate 8 (replicate 4 0, replicate 6 0, false).

Definition arp_line (entry : list Z * list Z * bool) : list Z :=
  let '(a, m, _) := entry in nl ++ b "  " ++ pad_right 15 (fmt_ipv4 a) ++ b " -> " ++ fmt_mac m.

Definition exec_arptable : Sh (list Z) :=
  let valid := filter (λ e : list Z * list Z * bool, e.2 = true) arp_entries in
  mret (b "ARP table:" ++ concat (map arp_line valid) ++ (if bool_decide (valid = []) then nl ++ b "  (empty)" else [])).

(** A command on one address. *)
Definition with_ipv4 (how bad : string) (args : list (list Z)) (f : list Z → Sh (list Z)) : Sh (list Z) :=
  match args with
  | [] => usage how
  | a :: _ => match parse_ipv4 a with Some a => f a | None => usage bad end
  end.

Definition exec_arp (args : list (list Z)) : Sh (list Z) :=
  with_ipv4 "arp: usage: arp <ip>" "arp: invalid IPv4 address" args (λ a,
    r ← on_net (w_m [] request_arp);
    mret (answer "arp: " (match r with inl _ => inl (b "ARP request sent for " ++ fmt_ipv4 a) | inr e => inr e end))).

Definition exec_ping (args : list (list Z)) : Sh (list Z) :=
  with_ipv4 "ping: usage: ping <ip>" "ping: invalid IPv4 address" args (λ a,
    r ← on_net (w_m [] (ping a));
    mret (answer "ping: " (match r with inl _ => inl (b "ICMP echo request sent to " ++ fmt_ipv4 a) | inr e => inr e end))).

(** [setip], [setmask], [setgw] and [setdns] *)
Definition exec_set (how bad said : string) (set : list Z → Net N → Net N) (args : list (list Z)) : Sh (list Z) :=
  with_ipv4 how bad args (λ a,
    set_env (λ e, put_net (set a (net e)) e);;
    mret (b said ++ fmt_ipv4 a)).

Definition exec_setip : list (list Z) → Sh (list Z) :=
  exec_set "setip: usage: setip <ipv4>" "setip: invalid IPv4 address" "IP set to " set_ip.
Definition exec_setmask : list (list Z) → Sh (list Z) :=
  exec_set "setmask: usage: setmask <mask>" "setmask: invalid netmask" "Netmask set to " set_netmask.
Definition exec_setgw : list (list Z) → Sh (list Z) :=
  exec_set "setgw: usage: setgw <gateway>" "setgw: invalid gateway" "Gateway set to " set_gateway.
Definition exec_setdns : list (list Z) → Sh (list Z) :=
  exec_set "setdns: usage: setdns <dns>" "setdns: invalid dns" "DNS set to " set_dns.

Definition exec_dhcp : Sh (list Z) :=
  r ← on_net (w_waits [] (dhcp_configure fuel));
  match r with
  | inl _ => e ← get_env; mret (show_config (b "DHCP configured:") (config (net e)))
  | inr e => mret (b "dhcp: " ++ e)
  end.

Definition exec_dns (args : list (list Z)) : Sh (list Z) :=
  match args with
  | [] => usage "dns: usage: dns <hostname>"
  | host :: _ =>
      r ← on_net (w_waits [] (dns_resolve_a fuel host));
      mret (answer "dns: " (match r with inl a => inl (host ++ b " -> " ++ fmt_ipv4 a) | inr e => inr e end))
  end.

(** A failed request for the host is followed by one for the gateway. *)
Definition arp_or_gateway : Wait N unit :=
  r ← w_try (w_m [] request_arp);
  match r with inl _ => mret tt | inr _ => w_ignore (w_m [] request_arp) end.

Definition exec_tcpconnect (args : list (list Z)) : Sh (list Z) :=
  match args with
  | host :: port :: _ =>
      match parse_ipv4 host with
      | None => usage "tcpconnect: invalid IPv4 address"
      | Some a =>
          match parse_port port with
          | None => usage "tcpconnect: invalid port"
          | Some p =>
              r ← on_net (arp_or_gateway;; w_m [] (tcp_connect a p));
              mret (answer "tcpconnect: " (match r with inl _ => inl (b "TCP SYN sent; wait and run tcprecv/netstats") | inr e => inr e end))
          end
      end
  | _ => usage "tcpconnect: usage: tcpconnect <ip> <port>"
  end.

Definition exec_tcpsend (args : list (list Z)) : Sh (list Z) :=
  if bool_decide (args = []) then usage "tcpsend: usage: tcpsend <text>"
  else
    let text := join_with (b " ") args in
    r ← on_net (w_waits [] (tcp_send fuel text));
    mret (answer "tcpsend: " (match r with inl _ => inl (b "Sent " ++ decimal (len text) ++ b " bytes") | inr e => inr e end)).

Definition exec_tcprecv : Sh (list Z) :=
  set_env (λ e, put_net (net_poll (net e)) e);;
  e ← get_env;
  let '(got, n) := tcp_read (net e) in
  set_env (put_net n);;
  mret match got with Some bs => from_utf8_lossy bs | None => b "(no tcp data)" end.

Definition exec_tcpclose : Sh (list Z) :=
  r ← on_net (w_m [] tcp_close);
  mret (answer "tcpclose: " (match r with inl _ => inl (b "TCP connection closed") | inr e => inr e end)).

(** The address of [host], and [path] or the root; for [httpget] and [httpsget]. *)
Definition w_resolve (prefix : string) (host : list Z) : Wait N (list Z) :=
  match parse_ipv4 host with
  | Some a => mret a
  | None => w_waits (b prefix ++ b ": dns resolve failed: ") (dns_resolve_a fuel host)
  end.

Definition path_of_args (args : list (list Z)) : list Z := default [slash] (args !! 1%nat).

Definition w_httpget (host path : list Z) : Wait N (list Z) :=
  a ← w_resolve "httpget" host;
  w_arp;;
  w_m (b "httpget: ") (tcp_connect a 80);;
  w_connected fuel 1 halt_net 1500 (b "httpget: tcp connect timeout");;
  sent ← w_try (w_waits [] (tcp_send fuel (get_request path host (user_agent (b "CottonOS")))));
  match sent with
  | inr e => w_ignore (w_m [] tcp_close);; w_fail (b "httpget send failed: " ++ e)
  | inl _ => w_response fuel halt_net 4000 250 (b "httpget: no response")
  end.

Definition exec_httpget (args : list (list Z)) : Sh (list Z) :=
  match args with
  | [] => usage "httpget: usage: httpget <host-or-ip> [path]"
  | host :: _ => r ← on_net (w_httpget host (path_of_args args)); mret (answer "" r)
  end.

Definition w_httpsget (host path : list Z) : Wait N (list Z) :=
  a ← w_resolve "httpsget" host;
  w_arp;;
  https_get fuel host a path.

Definition exec_httpsget (args : list (list Z)) : Sh (list Z) :=
  match args with
  | [] => usage "httpsget: usage: httpsget <host-or-ip> [path]"
  | host :: _ => r ← on_net (w_httpsget host (path_of_args args)); mret (answer "" r)
  end.

(** The first twenty links, numbered. *)
Definition link_lines (links : list (list Z)) : list Z :=
  concat (imap (λ i l, b "[" ++ decimal (Z.of_nat i + 1) ++ b "] " ++ l ++ nl) (take 20 links)).

Definition show_page (d : Document) : list Z :=
  to_text d ++ (if bool_decide (doc_links d = []) then [] else nl ++ nl ++ b "--- Links ---" ++ nl ++ link_lines (doc_links d)).

Definition exec_browse (args : list (list Z)) : Sh (list Z) :=
  match args with
  | [] => usage "browse: usage: browse <url>"
  | raw_url :: _ =>
      let url := if has_prefix (b "http://") raw_url || has_prefix (b "https://") raw_url then raw_url else b "http://" ++ raw_url in
      r ← on_net (fetch_and_render fuel url);
      mret (answer "browse: " (match r with inl d => inl (show_page d) | inr e => inr e end))
  end.

Definition exec_udpsend (args : list (list Z)) : Sh (list Z) :=
  match args with
  | host :: src :: dst :: _ :: _ =>
      match parse_ipv4 host with
      | None => usage "udpsend: invalid IPv4 address"
      | Some a =>
          match parse_port src, parse_port dst with
          | None, _ => usage "udpsend: invalid src_port"
          | Some _, None => usage "udpsend: invalid dst_port"
          | Some src_port, Some dst_port =>
              let payload := join_with (b " ") (drop 3 args) in
              r ← on_net (w_arp;; w_m [] (udp_send a src_port dst_port payload));
              mret (answer "udpsend: " (match r with
                | inl _ => inl (b "UDP sent (" ++ decimal (len payload) ++ b " bytes) to " ++ fmt_ipv4 a ++ b ":" ++ decimal dst_port)
                | inr e => inr e end))
          end
      end
  | _ => usage "udpsend: usage: udpsend <ip> <src_port> <dst_port> <text>"
  end.

Definition exec_udprecv : Sh (list Z) :=
  e ← get_env;
  let '(got, n) := udp_recv (net_poll (net e)) in
  set_env (put_net n);;
  mret match got with
       | Some (src, src_port, dst_port, payload) =>
           b "UDP " ++ fmt_ipv4 src ++ b ":" ++ decimal src_port ++ b " -> local:" ++ decimal dst_port ++
           b " (" ++ decimal (len payload) ++ b " bytes): " ++ from_utf8_lossy payload
       | None => b "(no udp datagrams)"
       end.

(** *** System *)

Definition box : list Z := b "+--------------------------------------------+".

Definition exec_info : Sh (list Z) :=
  mret (box ++ nl ++ b "|           CottonOS System Info             |" ++ nl ++ box ++ nl ++
        b "|  Kernel Version: 0.1.0                     |" ++ nl ++ b "|  Architecture:   X86_64                  |" ++ nl ++
        b "|  Filesystem:     CottonFS (persistent)    |" ++ nl ++ box).

Definition mem_line (name : string) (n : Z) : list Z :=
  nl ++ b name ++ decimal (n / 1024) ++ b " KB (" ++ decimal (n / (1024 * 1024)) ++ b " MB)".

Definition exec_mem : Sh (list Z) :=
  e ← get_env;
  let '(total, used, free) := Physical.stats (frames e) in
  mret (b "Memory Statistics:" ++ mem_line "  Total:     " total ++ mem_line "  Used:      " used ++ mem_line "  Free:      " free ++
        nl ++ b "  Usage:     " ++ decimal (if 0 <? total then u64 (used * 100) / total else 0) ++ b "%").

Definition rule : list Z := b "+-----------------+-----------+".

(** The table both shells print. *)
Definition df_table (i : StorageInfo) : list Z :=
  rule ++ nl ++
  b "| Total           | " ++ pad_left 9 (format_bytes (si_total_bytes i)) ++ b " |" ++ nl ++
  b "| Used            | " ++ pad_left 9 (format_bytes (si_used_bytes i)) ++ b " |" ++ nl ++
  b "| Free            | " ++ pad_left 9 (format_bytes (si_free_bytes i)) ++ b " |" ++ nl ++
  b "| Usage           | " ++ pad_left 8 (decimal (usage_percent i)) ++ b "% |" ++ nl ++ rule ++ nl ++
  b "| Files (inodes)  | " ++ pad_left 4 (decimal (si_used_inodes i)) ++ b "/" ++ pad_right 4 (decimal (si_total_inodes i)) ++ b " |" ++ nl ++ rule.

Definition exec_df : Sh (list Z) :=
  info ← on_fs get_storage_info;
  mret match info with
       | Some i => b "Filesystem: CottonFS" ++ nl ++ b "Storage Statistics:" ++ nl ++ df_table i
       | None => b "Filesystem: RAM only (no persistent storage)" ++ nl ++ b "No disk statistics available."
       end.

Definition exec_sync : Sh (list Z) := on_fs sync_all;; usage "Filesystem synced to disk.".

Definition exec_ps : Sh (list Z) :=
  e ← get_env;
  let '(queued, running, _) := Scheduler.stats (kernel e) in
  mret (b "Process List:" ++ nl ++ b "  PID  STATE      NAME" ++ nl ++ b "  ---  -----      ----" ++ nl ++
        b "  0    Running    kernel" ++ nl ++ nl ++ b "Total: " ++ decimal queued ++ b " queued, " ++ decimal running ++ b " running").

Definition exec_uptime : Sh (list Z) :=
  e ← get_env;
  let ticks := Scheduler.tick_count (kernel e) in
  let seconds := ticks / 1000 in
  let minutes := seconds / 60 in
  let hours := minutes / 60 in
  mret (b "Uptime: " ++ decimal hours ++ b "h " ++ decimal (minutes mod 60) ++ b "m " ++ decimal (seconds mod 60) ++
        b "s (" ++ decimal ticks ++ b " ticks)").

(** *** Files *)

Definition type_char (t : FileType) : list Z :=
  match t with
  | Directory => b "d" | Regular => b "-" | Symlink => b "l" | CharDevice => b "c" | BlockDeviceType => b "b" | _ => b "?"
  end.

(** The line of an entry; its size is 0 when [stat] fails. *)
Definition ls_line (path : list Z) (entry : DirEntry) : Sh (list Z) :=
  r ← m_result (on_fs (stat (under path (de_name entry))));
  let size := match r with inl st => st_size st | inr _ => 0 end in
  mret (type_char (de_file_type entry) ++ b " " ++ pad_left 8 (decimal size) ++ b " " ++ de_name entry ++ nl).

Fixpoint ls_lines (path : list Z) (entries : list DirEntry) : Sh (list Z) :=
  match entries with
  | [] => mret []
  | e :: entries => l ← ls_line path e; ls ← ls_lines path entries; mret (l ++ ls)
  end.

Definition ls_path (args : list (list Z)) : Sh (list Z) :=
  match args with
  | [] => e ← get_env; mret (get_cwd e)
  | a :: _ => path_arg a
  end.

Definition exec_ls (args : list (list Z)) : Sh (list Z) :=
  path ← ls_path args;
  r ← m_result (on_fs (readdir path));
  match r with
  | inl [] => usage "(empty directory)"
  | inl entries => ls_lines path entries
  | inr e => mret (b "ls: " ++ path ++ b ": " ++ e)
  end.

(** [command: argument: error] *)
Definition complain (command : string) (arg e : list Z) : list Z := b command ++ b ": " ++ arg ++ b ": " ++ e.

Definition exec_cd (args : list (list Z)) : Sh (list Z) :=
  match args with
  | [] => set_cwd [slash];; mret []
  | a :: _ =>
      path ← path_arg a;
      r ← m_result (on_fs (lookup path));
      match r with
      | inl i =>
          t ← on_fs (on_store (inode_file_type i));
          if bool_decide (t = Directory) then set_cwd (normalize_path path);; mret []
          else mret (complain "cd" a (b "Not a directory"))
      | inr e => mret (complain "cd" a e)
      end
  end.

(** What of a file is shown. *)
Definition is_shown (c : Z) : bool := ((0x20 <=? c) && (c <=? 0x7E)) || (c =? 10) || (c =? 13) || (c =? 9).
Definition shown (bs : list Z) : list Z := filter (λ c, is_shown c = true) bs.

(** The text so far, and the error that ended the loop. *)
Fixpoint cat_loop (fuel : nat) (i : I) (offset : Z) (result : list Z) : Sh (list Z * option (list Z)) :=
  match fuel with
  | O => m_fail "out of fuel"
  | Datatypes.S fuel =>
      r ← m_result (on_fs (on_store (inode_read i offset 256)));
      match r with
      | inl [] => mret (result, None)
      | inl bs => cat_loop fuel i (u64 (offset + len bs)) (result ++ shown bs)
      | inr e => mret (result, Some e)
      end
  end.

(** The file to show, or the complaint. *)
Definition cat_file (a : list Z) : Sh (I + list Z) :=
  path ← path_arg a;
  r ← m_result (on_fs (lookup path));
  match r with
  | inl i =>
      t ← on_fs (on_store (inode_file_type i));
      mret (if bool_decide (t = Regular) then inl i else inr (complain "cat" a (b "Not a regular file")))
  | inr e => mret (inr (complain "cat" a e))
  end.

Definition exec_cat (args : list (list Z)) : Sh (list Z) :=
  match args with
  | [] => usage "cat: missing file argument"
  | a :: _ =>
      f ← cat_file a;
      match f with
      | inl i =>
          '(result, e) ← cat_loop fuel i 0 [];
          mret (result ++ match e with Some e => nl ++ b "cat: read error: " ++ e | None => [] end)
      | inr t => mret t
      end
  end.

Definition exec_touch (args : list (list Z)) : Sh (list Z) :=
  match args with
  | [] => usage "touch: missing file argument"
  | a :: _ =>
      path ← path_arg a;
      there ← m_result (on_fs (lookup path));
      match there with
      | inl _ => mret []
      | inr _ =>
          r ← m_result (on_fs (create path));
          mret (match r with inl _ => b "Created: " ++ path | inr e => complain "touch" a e end)
      end
  end.

Definition exec_mkdir (args : list (list Z)) : Sh (list Z) :=
  match args with
  | [] => usage "mkdir: missing directory argument"
  | a :: _ =>
      path ← path_arg a;
      r ← m_result (on_fs (mkdir path));
      mret (match r with inl _ => b "Created directory: " ++ path | inr e => complain "mkdir" a e end)
  end.

Definition exec_rm (args : list (list Z)) : Sh (list Z) :=
  match args with
  | [] => usage "rm: missing file argument"
  | a :: _ =>
      path ← path_arg a;
      r ← m_result (on_fs (remove path));
      mret (match r with inl _ => b "Removed: " ++ path | inr e => complain "rm" a e end)
  end.

(** The file at [path], made when it is not there; it is not emptied. *)
Definition lookup_or_create (path : list Z) : Sh (I + list Z) :=
  r ← m_result (on_fs (lookup path));
  match r with inl i => mret (inl i) | inr _ => m_result (on_fs (create path)) end.

Definition exec_write (args : list (list Z)) : Sh (list Z) :=
  match args with
  | a :: word :: words =>
      path ← path_arg a;
      let text := join_with (b " ") (word :: words) in
      f ← lookup_or_create path;
      match f with
      | inl i =>
          r ← m_result (on_fs (on_store (inode_write i 0 text)));
          mret (match r with
                | inl n => b "Wrote " ++ decimal n ++ b " bytes to " ++ path
                | inr e => complain "write" a e
                end)
      | inr e => mret (b "write: cannot create " ++ a ++ b ": " ++ e)
      end
  | _ => usage "write: usage: write <file> <text>"
  end.

(** *** The terminal of the desktop *)

Definition unknown (cmd : list Z) : list Z := b "Unknown command: '" ++ cmd ++ b "'. Type 'help'.".

(** [reboot] and [halt] do not return. *)
Definition exec_command (c : Command) (args : list (list Z)) : Sh (list Z) :=
  match c with
  | Chelp => mret (exec_help args)
  | Cclear => mret ([27] ++ b "[CLEAR]")
  | Cinfo => exec_info
  | Cmem => exec_mem
  | Cdf => exec_df
  | Csync => exec_sync
  | Cps => exec_ps
  | Cuptime => exec_uptime
  | Cecho => mret (join_with (b " ") args)
  | Cnet => exec_net
  | Cnetstats => exec_netstats
  | Carptable => exec_arptable
  | Carp => exec_arp args
  | Cping => exec_ping args
  | Cdhcp => exec_dhcp
  | Cdns => exec_dns args
  | Csetip => exec_setip args
  | Csetmask => exec_setmask args
  | Csetgw => exec_setgw args
  | Csetdns => exec_setdns args
  | Ctcpconnect => exec_tcpconnect args
  | Ctcpsend => exec_tcpsend args
  | Ctcprecv => exec_tcprecv
  | Ctcpclose => exec_tcpclose
  | Chttpget => exec_httpget args
  | Chttpsget => exec_httpsget args
  | Cbrowse => exec_browse args
  | Cudpsend => exec_udpsend args
  | Cudprecv => exec_udprecv
  | Cpanic => m_panic
  | Creboot => m_fail "stopped"
  | Chalt => m_fail "stopped"
  | Cls => exec_ls args
  | Ccd => exec_cd args
  | Cpwd => e ← get_env; mret (get_cwd e)
  | Ccat => exec_cat args
  | Ctouch => exec_touch args
  | Cmkdir => exec_mkdir args
  | Crm => exec_rm args
  | Cwrite => exec_write args
  end.

Definition execute_command (line : list Z) : Sh (list Z) :=
  match split_whitespace line with
  | [] => mret []
  | cmd :: args =>
      match find_command commands cmd with
      | Some c => exec_command c args
      | None => mret (unknown cmd)
      end
  end.

(** ** The console *)

(** What is written on the console. *)
Definition println (t : list Z) : list Z := t ++ nl.

Definition printed (m : Sh (list Z)) : Sh (list Z) := t ← m; mret (println t).
(** Nothing is printed for an empty answer. *)
Definition printed_some (m : Sh (list Z)) : Sh (list Z) := t ← m; mret (if bool_decide (t = []) then [] else println t).

Definition cmd_help (args : list (list Z)) : list Z :=
  match args with
  | [] => concat (map println (help_lines ++ files_lines))
  | cmd :: _ => println (default (b "Unknown command: " ++ cmd) (find_help console_help_table cmd))
  end.

Definition cmd_df : Sh (list Z) :=
  info ← on_fs get_storage_info;
  mret (println (b "Disk Space Usage (CottonFS):") ++
        println (match info with Some i => df_table i | None => b "  RAM-only filesystem (no persistent storage)" end)).

Definition cmd_sync : Sh (list Z) := on_fs sync_all;; mret [].

(** The lines of the entries end with a newline already. *)
Definition cmd_ls (args : list (list Z)) : Sh (list Z) :=
  path ← ls_path args;
  r ← m_result (on_fs (readdir path));
  match r with
  | inl [] => mret (println (b "(empty directory)"))
  | inl entries => ls_lines path entries
  | inr e => mret (println (b "ls: " ++ path ++ b ": " ++ e))
  end.

Definition cmd_cat (args : list (list Z)) : Sh (list Z) :=
  match args with
  | [] => mret (println (b "cat: missing file argument"))
  | a :: _ =>
      f ← cat_file a;
      match f with
      | inl i =>
          '(result, e) ← cat_loop fuel i 0 [];
          mret (println (result ++ match e with Some e => println (b "cat: read error: " ++ e) | None => [] end))
      | inr t => mret (println t)
      end
  end.

Inductive Output : Type := Print (t : list Z) | ClearScreen.

(** The commands that print what [execute_command] answers: by calling its part, or by
    code that is the same. *)
Definition cmd_info : Sh (list Z) := printed exec_info.
Definition cmd_mem : Sh (list Z) := printed exec_mem.
Definition cmd_ps : Sh (list Z) := printed exec_ps.
Definition cmd_uptime : Sh (list Z) := printed exec_uptime.
Definition cmd_echo (args : list (list Z)) : Sh (list Z) := mret (println (join_with (b " ") args)).
Definition cmd_net : Sh (list Z) := printed exec_net.
Definition cmd_netstats : Sh (list Z) := printed exec_netstats.
Definition cmd_arptable : Sh (list Z) := printed exec_arptable.
Definition cmd_arp (args : list (list Z)) : Sh (list Z) := printed (exec_arp args).
Definition cmd_ping (args : list (list Z)) : Sh (list Z) := printed (exec_ping args).
Definition cmd_dhcp : Sh (list Z) := printed exec_dhcp.
Definition cmd_dns (args : list (list Z)) : Sh (list Z) := printed (exec_dns args).
Definition cmd_setip (args : list (list Z)) : Sh (list Z) := printed (exec_setip args).
Definition cmd_setmask (args : list (list Z)) : Sh (list Z) := printed (exec_setmask args).
Definition cmd_setgw (args : list (list Z)) : Sh (list Z) := printed (exec_setgw args).
Definition cmd_setdns (args : list (list Z)) : Sh (list Z) := printed (exec_setdns args).
Definition cmd_tcpconnect (args : list (list Z)) : Sh (list Z) := printed (exec_tcpconnect args).
Definition cmd_tcpsend (args : list (list Z)) : Sh (list Z) := printed (exec_tcpsend args).
Definition cmd_tcprecv : Sh (list Z) := printed exec_tcprecv.
Definition cmd_tcpclose : Sh (list Z) := printed exec_tcpclose.
Definition cmd_httpget (args : list (list Z)) : Sh (list Z) := printed (exec_httpget args).
Definition cmd_httpsget (args : list (list Z)) : Sh (list Z) := printed (exec_httpsget args).
Definition cmd_udpsend (args : list (list Z)) : Sh (list Z) := printed (exec_udpsend args).
Definition cmd_udprecv : Sh (list Z) := printed exec_udprecv.
Definition cmd_pwd : Sh (list Z) := e ← get_env; mret (println (get_cwd e)).
Definition cmd_mkdir (args : list (list Z)) : Sh (list Z) := printed (exec_mkdir args).
Definition cmd_rm (args : list (list Z)) : Sh (list Z) := printed (exec_rm args).
Definition cmd_write (args : list (list Z)) : Sh (list Z) := printed (exec_write args).

(** These print nothing when there is nothing to say. *)
Definition cmd_cd (args : list (list Z)) : Sh (list Z) := printed_some (exec_cd args).
Definition cmd_touch (args : list (list Z)) : Sh (list Z) := printed_some (exec_touch args).

(** The commands that print; [browse] is not one of the console's. *)
Definition cmd_command (c : Command) (args : list (list Z)) : Sh (list Z) :=
  match c with
  | Chelp => mret (cmd_help args)
  | Cinfo => cmd_info
  | Cmem => cmd_mem
  | Cdf => cmd_df
  | Csync => cmd_sync
  | Cps => cmd_ps
  | Cuptime => cmd_uptime
  | Cecho => cmd_echo args
  | Cnet => cmd_net
  | Cnetstats => cmd_netstats
  | Carptable => cmd_arptable
  | Carp => cmd_arp args
  | Cping => cmd_ping args
  | Cdhcp => cmd_dhcp
  | Cdns => cmd_dns args
  | Csetip => cmd_setip args
  | Csetmask => cmd_setmask args
  | Csetgw => cmd_setgw args
  | Csetdns => cmd_setdns args
  | Ctcpconnect => cmd_tcpconnect args
  | Ctcpsend => cmd_tcpsend args
  | Ctcprecv => cmd_tcprecv
  | Ctcpclose => cmd_tcpclose
  | Chttpget => cmd_httpget args
  | Chttpsget => cmd_httpsget args
  | Cudpsend => cmd_udpsend args
  | Cudprecv => cmd_udprecv
  | Cpanic => m_panic
  | Creboot => m_fail "stopped"
  | Chalt => m_fail "stopped"
  | Cls => cmd_ls args
  | Ccd => cmd_cd args
  | Cpwd => cmd_pwd
  | Ccat => cmd_cat args
  | Ctouch => cmd_touch args
  | Cmkdir => cmd_mkdir args
  | Crm => cmd_rm args
  | Cwrite => cmd_write args
  | Cclear | Cbrowse => mret []
  end.

(** One line of input. *)
Definition run_line (input : list Z) : Sh (list Output) :=
  match split_whitespace (trim input) with
  | [] => mret []
  | cmd :: args =>
      match find_command commands cmd with
      | Some Cclear => mret [ClearScreen]
      | Some Cbrowse | None => mret [Print (println (unknown cmd))]
      | Some c => t ← cmd_command c args; mret [Print t]
      end
  end.

(** The line that the characters type, what it echoes, and the characters after it;
    nothing while there is no end of line. *)
Fixpoint read_line (input buf echo : list Z) : option (list Z * list Z * list Z) :=
  match input with
  | [] => None
  | c :: input =>
      if (c =? 10) || (c =? 13) then Some (buf, println echo, input)
      else if (c =? 8) || (c =? 127) then
        if bool_decide (buf = []) then read_line input buf echo
        else read_line input (take (length buf - 1) buf) (echo ++ [8; 32; 8])
      else if (32 <=? c) && (c <=? 126) then read_line input (buf ++ [c]) (echo ++ [c])
      else read_line input buf echo
  end.

Definition prompt (e : Env N) : list Z := b "cotton:" ++ get_cwd e ++ b "> ".

(** A turn of the loop, for the characters that are there. *)
Definition run_turn (input : list Z) : Sh (option (list Output * list Z)) :=
  e ← get_env;
  match read_line input [] [] with
  | None => mret None
  | Some (line, echo, rest) => out ← run_line line; mret (Some (Print (prompt e ++ echo) :: out, rest))
  end.

(** A turn takes a character at least. *)
Fixpoint run_turns (turns : nat) (input : list Z) : Sh (list Output) :=
  match turns with
  | O => mret []
  | Datatypes.S turns =>
      r ← run_turn input;
      match r with
      | None => mret []
      | Some (out, rest) => outs ← run_turns turns rest; mret (out ++ outs)
      end
  end.

Definition banner : list (list Z) := [
  []; b "+-------------------------------------------+"; b "|     Welcome to CottonOS Shell v0.1.0      |";
  b "|       Type 'help' for commands            |"; b "+-------------------------------------------+"; []].

(** [init_disk], with what [AtaDevice::detect] says. *)
Definition init_disk (detected : bool) : Sh unit := set_env (put_disk detected).

Definition run (detected : bool) (input : list Z) : Sh (list Output) :=
  set_cwd [slash];;
  init_disk detected;;
  outs ← run_turns (length input) input;
  mret (Print (concat (map println banner)) :: outs).

End Commands.
