(* ===== verification/ShellSpec.v ===== *)
(** * The shell: addresses, the working directory, files, and commands that return *)

From S2P Require Import Prelude Bytes Str Vfs NetStack NetStackSpec Browser Html HtmlSpec Http HttpSpec Files FilesSpec ShellText Shell RamFS RamSpec.
From S2P Require Physical Scheduler BrowserSpec.

(** ** Numbers and addresses *)

Lemma digit_value_decimal d : 0 ≤ d < 10 → digit_value (48 + d) = Some d.
Proof. intros Hd. unfold digit_value. repeat (case_match; try lia). f_equal. lia. Qed.

Lemma parse_decimal_digits fuel max : ∀ n, 0 ≤ n ≤ max → n < 10 ^ Z.of_nat fuel →
  parse_digits 10 max 0 (decimal_digits fuel n) = Some n.
Proof.
  induction fuel as [|fuel IH]; intros n Hn Hf; cbn [decimal_digits]; [cbn in *; f_equal; lia|].
  rewrite Nat2Z.inj_succ, Z.pow_succ_r in Hf by lia. pose proof (Z.div_mod n 10 ltac:(lia)) as Hd. pose proof (Z.mod_pos_bound n 10 ltac:(lia)).
  destruct (Z.ltb_spec n 10).
  - cbn. rewrite digit_value_decimal by lia. rewrite (proj2 (Z.ltb_lt n 10)) by lia. rewrite (proj2 (Z.ltb_ge _ _)) by lia. done.
  - rewrite BrowserSpec.parse_digits_app, IH; [|lia|apply Z.div_lt_upper_bound; lia]. cbn.
    rewrite digit_value_decimal by lia. rewrite (proj2 (Z.ltb_lt _ 10)) by lia.
    rewrite (proj2 (Z.ltb_ge _ _)) by lia. f_equal. lia.
Qed.

Lemma decimal_digit fuel : ∀ n, 0 ≤ n → Forall (λ c, 48 ≤ c < 58) (decimal_digits fuel n).
Proof.
  induction fuel as [|fuel IH]; intros n Hn; cbn [decimal_digits]; [done|]. destruct (Z.ltb_spec n 10); [repeat constructor; lia|].
  apply Forall_app. pose proof (Z.mod_pos_bound n 10). split; [apply IH, Z.div_pos; lia|repeat constructor; lia].
Qed.

Lemma decimal_digits_nonempty fuel n : fuel ≠ O → decimal_digits fuel n ≠ [].
Proof. destruct fuel; [done|]. intros _. cbn [decimal_digits]. destruct (n <? 10); [done|]. by intros []%app_nil. Qed.

Lemma from_str_no_plus max c s : c ≠ 43 → from_str_radix 10 max (c :: s) = parse_digits 10 max 0 (c :: s).
Proof. intros. unfold from_str_radix. repeat (case_match; try done). Qed.

(** What is printed reads back. *)
Lemma from_str_decimal max n : 0 ≤ n ≤ max → max < 2 ^ 64 → from_str_radix 10 max (decimal n) = Some n.
Proof.
  intros Hn Hm. pose proof (parse_decimal_digits 20 max n Hn ltac:(cbn; lia)) as Hp.
  pose proof (decimal_digit 20 n ltac:(lia)) as Hd. pose proof (decimal_digits_nonempty 20 n ltac:(done)) as Hne. unfold decimal.
  destruct (decimal_digits 20 n) as [|c s]; [done|]. apply Forall_cons in Hd as [Hc _]. by rewrite from_str_no_plus by lia.
Qed.

Lemma split_join_with c ps : ps ≠ [] → Forall (λ p, c ∉ p) ps → split_byte c (join_with [c] ps) = ps.
Proof.
  intros Hne Hps. induction Hps as [|p ps Hp Hps IH]; [done|]. destruct ps as [|q ps]; [by apply split_byte_word|].
  change (join_with [c] (p :: q :: ps)) with (p ++ c :: join_with [c] (q :: ps)). by rewrite split_byte_sep, IH.
Qed.

Lemma parse_parts_decimal l : Forall (λ v, 0 ≤ v < 256) l → parse_parts (map decimal l) = Some l.
Proof.
  induction 1 as [|v l Hv _ IH]; [done|]. cbn [parse_parts map]. rewrite from_str_decimal by lia.
  cbn [mbind option_bind]. by rewrite IH.
Qed.

(** An address: four bytes. *)
Definition is_ipv4 (a : list Z) : Prop := length a = 4%nat ∧ Forall (λ v, 0 ≤ v < 256) a.

Lemma parse_digits_range max s : ∀ acc v, 0 ≤ acc ≤ max → parse_digits 10 max acc s = Some v → 0 ≤ v ≤ max.
Proof.
  induction s as [|c s IH]; intros acc v Ha; cbn; [by intros [= <-]|]. destruct (digit_value c) as [d|] eqn:Ed; [|done].
  assert (0 ≤ d) by (unfold digit_value in Ed; repeat case_match; simplify_eq; lia).
  destruct (d <? 10); [|done]. destruct (Z.ltb_spec max (acc * 10 + d)); [done|]. apply IH. lia.
Qed.

Lemma from_str_range max s v : 0 ≤ max → from_str_radix 10 max s = Some v → 0 ≤ v ≤ max.
Proof.
  intros Hm. destruct s as [|c s]; [done|]. destruct (decide (c = 43)) as [->|Hc].
  - destruct s; [done|]. by apply parse_digits_range.
  - rewrite from_str_no_plus by done. by apply parse_digits_range.
Qed.

Lemma parse_parts_range ps : ∀ l, parse_parts ps = Some l → length l = length ps ∧ Forall (λ v, 0 ≤ v < 256) l.
Proof.
  induction ps as [|p ps IH]; intros l; cbn; [by intros [= <-]|]. destruct (from_str_radix 10 255 p) as [v|] eqn:E; [|done]. cbn.
  destruct (parse_parts ps) as [l'|]; [|done]. cbn. intros [= <-]. destruct (IH l' eq_refl) as [Hl Hf].
  apply from_str_range in E; [|lia]. split; [cbn; by rewrite Hl|]. constructor; [lia|done].
Qed.

(** Addresses.  What [fmt_ipv4] prints [parse_ipv4] reads back; what it reads is four
    bytes; and it agrees with the parsers of the browser and of the network on every
    text. *)
Theorem parse_fmt_ipv4 :
  (∀ a, is_ipv4 a → parse_ipv4 (fmt_ipv4 a) = Some a) ∧
  ∀ s, (∀ a, parse_ipv4 s = Some a → is_ipv4 a) ∧ parse_ipv4 s = Browser.parse_ipv4 s ∧ parse_ipv4 s = parse_ipv4_literal s.
Proof.
  split.
  - intros a [Hl Ha]. unfold parse_ipv4, fmt_ipv4. change (bytes_of_string ".") with [46].
    rewrite split_join_with.
    + rewrite length_map, Hl. by apply parse_parts_decimal.
    + by destruct a.
    + apply Forall_map. eapply Forall_impl; [exact Ha|]. intros v Hv Hin. cbn beta in Hv. pose proof (decimal_digit 20 v ltac:(lia)) as Hd.
      rewrite Forall_forall in Hd. specialize (Hd 46 Hin). cbn beta in Hd. lia.
  - intros s. split; [|unfold parse_ipv4, Browser.parse_ipv4, parse_ipv4_literal].
    + intros a. unfold parse_ipv4. destruct (Nat.eqb_spec (length (split_byte 46 s)) 4); [|done]. cbn.
      intros [Hl Hf]%parse_parts_range. split; [congruence|done].
    + destruct (split_byte 46 s) as [|p0 [|p1 [|p2 [|p3 [|]]]]]; try done. cbn.
      destruct (from_str_radix 10 255 p0), (from_str_radix 10 255 p1), (from_str_radix 10 255 p2), (from_str_radix 10 255 p3); done.
Qed.

(** ** The working directory *)

(** A name a path keeps. *)
Definition kept (c : list Z) : Prop := word c ∧ c ≠ dot ∧ c ≠ dotdot.

#[export] Instance kept_dec c : Decision (kept c).
Proof. unfold kept. apply _. Defined.

(** Absolute, without empty names, "." and "..". *)
Definition clean (p : list Z) : Prop := ∃ cs, Forall kept cs ∧ p = path_of cs.

(** ".." takes back the name before it. *)
Definition collapse (parts : list (list Z)) : list (list Z) := foldl normalize_part [] parts.

Lemma split_slash_parts s : Forall (λ c, slash ∉ c) (split_slash s).
Proof.
  induction s as [|x s IH]; cbn; [constructor; [apply not_elem_of_nil|done]|]. destruct (Z.eqb_spec x slash).
  - constructor; [apply not_elem_of_nil|done].
  - destruct IH as [|w ws Hw Hws]; repeat constructor; try done; apply not_elem_of_cons; split; try done. apply not_elem_of_nil.
Qed.

Lemma collapse_kept parts : Forall (λ c, slash ∉ c) parts → Forall kept (collapse parts).
Proof.
  intros Hp. unfold collapse. assert (∀ acc, Forall kept acc → Forall kept (foldl normalize_part acc parts)) as H; [|by apply H].
  induction Hp as [|c parts Hc _ IH]; intros acc Ha; [done|]. cbn. apply IH. unfold normalize_part.
  repeat case_bool_decide; cbn; try done; [by apply Forall_take|]. apply Forall_app. by repeat constructor.
Qed.

Lemma join_with_join p ps : [slash] ++ join_with [slash] (p :: ps) = join (p :: ps).
Proof.
  revert p. induction ps as [|q ps IH]; intros p; [unfold join; cbn; by rewrite !app_nil_r|].
  change (join (p :: q :: ps)) with ((slash :: p) ++ join (q :: ps)). rewrite <- IH. done.
Qed.

Lemma normalize_collapse p : normalize_path p = path_of (collapse (split_slash p)).
Proof.
  unfold normalize_path, path_of. fold (collapse (split_slash p)). destruct (collapse (split_slash p)) as [|c cs]; [done|].
  rewrite bool_decide_eq_false_2 by done. rewrite decide_False by done. apply join_with_join.
Qed.

Lemma normalize_clean p : clean (normalize_path p).
Proof. rewrite normalize_collapse. eexists. split; [|done]. apply collapse_kept, split_slash_parts. Qed.

Lemma collapse_same cs : Forall kept cs → collapse cs = cs.
Proof.
  intros Hcs. unfold collapse. assert (∀ acc, foldl normalize_part acc cs = acc ++ cs) as H; [|apply H].
  induction Hcs as [|c cs ((Hne & _) & H1 & H2) _ IH]; intros acc; cbn; [by rewrite app_nil_r|].
  rewrite IH. unfold normalize_part. rewrite !bool_decide_eq_false_2 by done. cbn. by rewrite <- app_assoc.
Qed.

Lemma kept_words cs : Forall kept cs → Forall word cs.
Proof. intros H. eapply Forall_impl; [exact H|]. by intros c []. Qed.

Lemma collapse_path cs : Forall kept cs → collapse (split_slash (path_of cs)) = cs.
Proof.
  intros Hcs. unfold path_of. case_decide as Hn; [by subst|]. rewrite split_join by (by apply kept_words). apply (collapse_same cs Hcs).
Qed.

Lemma under_join cs c : Forall kept cs → under (path_of cs) c = join cs ++ [slash] ++ c.
Proof.
  intros Hcs. unfold under, is_root, path_of. case_decide as Hn; [by subst|]. case_bool_decide as Hr; [|done].
  destruct cs as [|[|x c0] cs]; [done|by apply Forall_cons in Hcs as [[[] _] _]|done].
Qed.

Section Commands.

Context {S I F N C : Type} `{!InodeOps S I, !FileSystemOps S I F, Smoltcp N, !Tls N C}.
Context (hlt : N → N) (card_mac : N → list Z) (card_counts : N → Z * Z * Z * Z).
Context (get_storage_info : M (VFS S I F) (option CottonFS.StorageInfo)) (fuel : nat).

#[local] Abbreviation State := (VFS S I F * Env N)%type.
#[local] Abbreviation Sh := (M (VFS S I F * Env N)).
#[local] Abbreviation exec_command := (exec_command (I:=I) hlt card_mac card_counts get_storage_info fuel).
#[local] Abbreviation execute_command := (execute_command (I:=I) hlt card_mac card_counts get_storage_info fuel).
#[local] Abbreviation run_line := (run_line (I:=I) hlt card_mac card_counts get_storage_info fuel).
#[local] Abbreviation run := (run (I:=I) hlt card_mac card_counts get_storage_info fuel).

(** ** What a computation leaves alone *)

Definition same_cwd {A} (m : Sh A) : Prop := ∀ s, cwd (m s).2.2 = cwd s.2.

Lemma same_ret {A} (a : A) : same_cwd (mret a).
Proof using Type. done. Qed.

Lemma same_stop {A} (r : res A) : same_cwd (λ s, (r, s)).
Proof using Type. done. Qed.

Lemma same_bind {A B} (m : Sh A) (f : A → Sh B) : same_cwd m → (∀ a, same_cwd (f a)) → same_cwd (m ≫= f).
Proof using Type.
  intros Hm Hf s. unfold mbind, M_bind. specialize (Hm s). destruct (m s) as [[a|e|] s']; [|done..]. by rewrite Hf.
Qed.

Lemma same_on_fs {A} (m : M (VFS S I F) A) : same_cwd (on_fs m).
Proof using Type. intros s. unfold on_fs. by destruct (m s.1). Qed.

Lemma same_on_net {A} (w : Wait N A) : same_cwd (on_net w).
Proof using Type. intros s. unfold on_net. by destruct (w (net s.2)) as [[[a|e|] n]|]. Qed.

Lemma same_result {A} (m : Sh A) : same_cwd m → same_cwd (m_result m).
Proof using Type. intros Hm s. specialize (Hm s). unfold m_result. by destruct (m s) as [[a|e|] s']. Qed.

Lemma same_get : same_cwd get_env.
Proof using Type. done. Qed.

Lemma same_set f : (∀ e, cwd (f e) = cwd e) → same_cwd (set_env f).
Proof using Type. intros Hf s. apply Hf. Qed.

Create HintDb shell.
#[local] Hint Resolve same_ret same_on_fs same_on_net same_result same_get : shell.

(** Through the binds and the cases. *)
Ltac same_cwd :=
  repeat first
    [ progress auto with shell
    | apply same_set; done
    | apply same_stop
    | apply same_bind; [|intros ?]
    | case_match ].

Lemma same_ls_lines path entries : same_cwd (ls_lines path entries).
Proof using Type.
  induction entries as [|e entries IH]; cbn [ls_lines]; [done|]. unfold ls_line. same_cwd.
Qed.

Lemma same_cat_loop k i : ∀ off result, same_cwd (cat_loop k i off result).
Proof using Type. induction k as [|k IH]; intros off result; cbn [cat_loop]; [done|]. same_cwd. Qed.

#[local] Hint Resolve same_ls_lines same_cat_loop : shell.

Lemma same_exec c args : c ≠ Ccd → same_cwd (exec_command c args).
Proof using Type.
  intros Hc. destruct c; try done; cbn [Shell.exec_command];
    unfold exec_info, exec_mem, exec_df, exec_sync, exec_ps, exec_uptime, exec_net, exec_netstats, exec_arptable, exec_arp,
      exec_ping, exec_dhcp, exec_dns, exec_setip, exec_setmask, exec_setgw, exec_setdns, exec_set, with_ipv4, exec_tcpconnect,
      exec_tcpsend, exec_tcprecv, exec_tcpclose, exec_httpget, exec_httpsget, exec_browse, exec_udpsend, exec_udprecv, exec_ls,
      ls_path, path_arg, exec_cat, cat_file, exec_touch, exec_mkdir, exec_rm, exec_write, lookup_or_create, m_fail, m_panic, usage; same_cwd.
Qed.

(** ** The working directory stays clean *)

Definition clean_at (s : State) : Prop := clean (get_cwd s.2).
Definition keeps_clean {A} (m : Sh A) : Prop := ∀ s, clean_at s → clean_at (m s).2.

Lemma clean_same {A} (m : Sh A) : same_cwd m → keeps_clean m.
Proof using Type. intros Hm s Hs. unfold clean_at, get_cwd. by rewrite Hm. Qed.

Lemma clean_bind {A B} (m : Sh A) (f : A → Sh B) : keeps_clean m → (∀ a, keeps_clean (f a)) → keeps_clean (m ≫= f).
Proof using Type.
  intros Hm Hf s Hs. unfold mbind, M_bind. specialize (Hm s Hs). destruct (m s) as [[a|e|] s']; [by apply Hf|done..].
Qed.

Lemma clean_set_cwd p : clean p → keeps_clean (set_cwd p).
Proof using Type. by intros Hp s _. Qed.

Lemma clean_cd args : keeps_clean (exec_cd args).
Proof using Type.
  destruct args as [|a args].
  - apply clean_bind; [|intros; by apply clean_same]. apply clean_set_cwd. by exists [].
  - cbn [exec_cd]. apply clean_bind; [apply clean_same; unfold path_arg; same_cwd|]. intros p.
    apply clean_bind; [apply clean_same; auto with shell|]. intros [i|e]; [|by apply clean_same].
    apply clean_bind; [apply clean_same; auto with shell|]. intros t. case_bool_decide; [|by apply clean_same].
    apply clean_bind; [apply clean_set_cwd, normalize_clean|intros; by apply clean_same].
Qed.

Lemma clean_exec c args : keeps_clean (exec_command c args).
Proof using Type. destruct (decide (c = Ccd)) as [->|Hc]; [apply clean_cd|by apply clean_same, same_exec]. Qed.

Lemma clean_execute line : keeps_clean (execute_command line).
Proof using Type.
  unfold Shell.execute_command. destruct (split_whitespace line) as [|cmd args]; [by apply clean_same|].
  destruct (find_command commands cmd) as [c|]; [apply clean_exec|by apply clean_same].
Qed.

Lemma clean_printed (m : Sh (list Z)) : keeps_clean m → keeps_clean (printed m) ∧ keeps_clean (printed_some m).
Proof using Type. intros Hm. split; (apply clean_bind; [done|intros; by apply clean_same]). Qed.

Lemma clean_cmd c args : keeps_clean (cmd_command hlt card_mac card_counts get_storage_info fuel c args).
Proof using Type.
  pose proof (clean_exec c args) as He. destruct c; cbn [cmd_command]; try (by apply clean_printed, He);
    apply clean_same; unfold cmd_echo, cmd_pwd, cmd_df, cmd_sync, cmd_ls, cmd_cat, ls_path, path_arg, cat_file; same_cwd.
Qed.

Lemma clean_run_line input : keeps_clean (run_line input).
Proof using Type.
  unfold Shell.run_line. destruct (split_whitespace (trim input)) as [|cmd args]; [by apply clean_same|].
  destruct (find_command commands cmd) as [[]|]; try (by apply clean_same);
    (apply clean_bind; [apply clean_cmd|intros; by apply clean_same]).
Qed.

Lemma clean_run_turns k : ∀ input, keeps_clean (run_turns hlt card_mac card_counts get_storage_info fuel k input).
Proof using Type.
  induction k as [|k IH]; intros input; cbn [run_turns]; [by apply clean_same|]. apply clean_bind.
  - unfold run_turn. apply clean_bind; [by apply clean_same|]. intros e. destruct (read_line input [] []) as [[[line echo] rest]|];
      [|by apply clean_same]. apply clean_bind; [apply clean_run_line|intros; by apply clean_same].
  - intros [[out rest]|]; [|by apply clean_same]. apply clean_bind; [apply IH|intros; by apply clean_same].
Qed.

Definition session (lines : list (list Z)) (s : State) : State := foldl (λ s line, (execute_command line s).2) s lines.

(** What [a] adds to the names of the working directory. *)
Definition led_to (cs : list (list Z)) (a : list Z) : list (list Z) :=
  collapse ((if has_prefix [slash] a then [] else cs) ++ split_slash a).

Lemma resolve_led_to cs a (e : Env N) : Forall kept cs → get_cwd e = path_of cs → normalize_path (resolve_path a e) = path_of (led_to cs a).
Proof using Type.
  intros Hcs He. rewrite normalize_collapse. f_equal. unfold resolve_path, led_to. destruct (has_prefix [slash] a); [done|].
  rewrite He, under_join by done. cbn [app]. rewrite split_slash_app, split_join by (by apply kept_words). done.
Qed.

(** C36: the working directory.  Whatever lines are executed, by the terminal or at the
    console, and whether they succeed or not, it is an absolute path without empty
    names, "." and ".."; and a [cd] that changes it follows the names of its argument
    one by one, where ".." takes back the last name. *)
Theorem cwd_stays_clean :
  (∀ lines s, clean_at s → clean_at (session lines s)) ∧
  (∀ detected input (s : State), clean_at (run detected input s).2) ∧
  (∀ cs a (s : State), Forall kept cs → get_cwd s.2 = path_of cs →
     get_cwd (exec_cd [a] s).2.2 = path_of cs ∨ get_cwd (exec_cd [a] s).2.2 = path_of (led_to cs a)).
Proof using Type.
  split; [|split].
  - intros lines. induction lines as [|l lines IH]; intros s Hs; [done|]. apply IH. by apply clean_execute.
  - intros detected input s. unfold Shell.run. unfold mbind at 1, M_bind at 1. cbn [set_cwd set_env m_modify].
    match goal with |- clean_at ((?m ?t).2) => assert (keeps_clean m) as Hm; [|apply Hm; by exists []] end.
    apply clean_bind; [apply clean_same; by apply same_set|]. intros _. apply clean_bind; [apply clean_run_turns|intros; by apply clean_same].
  - intros cs a s Hcs He. cbv [exec_cd path_arg mbind M_bind get_env mret M_ret m_result on_fs on_store set_cwd set_env m_modify].
    cbn [fst snd]. destruct (lookup (resolve_path a s.2) s.1) as [[i|e|] v]; [|by left..]. cbn [fst snd].
    destruct (inode_file_type i (store v)) as [[t|e|] s1]; [|by left..]. case_bool_decide; [|by left]. right. by apply resolve_led_to.
Qed.

End Commands.

(** ** Writing and showing files *)

(** A regular file says so. *)
Class RegularLaw (S I : Type) `{!InodeOps S I, !FileView S I} : Prop :=
  regular_law s i d : fl_inv s → content s i = Some d →
    ∃ s', inode_file_type i s = (Ok Regular, s') ∧ same_view s s'.

Lemma write_at_start text d : write_at 0 text d = text ++ drop (length text) d.
Proof.
  unfold write_at, splice. rewrite take_0, Z.add_0_l. change (Z.to_nat 0 + length text)%nat with (length text). cbn [app]. f_equal.
  destruct (Z.ltb_spec (len d) (len text)) as [Hl|Hl]; [|done].
  rewrite !drop_ge; [done|unfold len in *; lia|]. unfold len in *. unfold vec_resize. rewrite length_app, length_take, length_replicate. lia.
Qed.

Section FileCommands.

Context {S I F N : Type} `{!EqDecision I, !InodeOps S I, !FileSystemOps S I F, Smoltcp N}.
Context `{!FileView S I, !FileLaws S I, !RegularLaw S I}.
Context (fuel : nat).

#[local] Abbreviation State := (VFS S I F * Env N)%type.

Lemma result_run {A} (m : M (VFS S I F) A) (s : State) a v : m s.1 = (Ok a, v) → m_result (on_fs m) s = (Ok (inl a), (v, s.2)).
Proof using Type. intros E. unfold m_result, on_fs. by rewrite E. Qed.

Lemma result_err {A} (m : M (VFS S I F) A) (s : State) e v :
  m s.1 = (Err e, v) → m_result (on_fs m) s = (Ok (inr (bytes_of_string e)), (v, s.2)).
Proof using Type. intros E. unfold m_result, on_fs. by rewrite E. Qed.

Lemma on_fs_run {A} (m : M (VFS S I F) A) (s : State) a v : m s.1 = (a, v) → on_fs m s = (a, (v, s.2)).
Proof using Type. intros E. unfold on_fs. by rewrite E. Qed.

Lemma path_arg_run a (s : State) : path_arg a s = (Ok (resolve_path a s.2), s).
Proof using Type. done. Qed.

(** The reads of [cat] show the rest of the file. *)
Lemma cat_loop_ok k i d : ∀ off result (s : State),
  fl_inv (store s.1) → content (store s.1) i = Some d → len d < 2 ^ 63 → 0 ≤ off ≤ len d →
  len d - off ≤ 256 * (Z.of_nat k - 1) →
  ∃ s', cat_loop k i off result s = (Ok (result ++ shown (drop (Z.to_nat off) d), None), (set_store s' s.1, s.2)) ∧
    same_view (store s.1) s'.
Proof using Type*.
  induction k as [|k IH]; intros off result s Hi Hd Hl Ho Hk; [lia|]. cbn [cat_loop].
  destruct (read_law (store s.1) i d off 256 Hi Hd) as (s1 & E1 & Hv1); [lia..|].
  rewrite (M_bind_run _ _ _ _ _ (result_run _ s _ _ (on_store_run _ s.1 _ _ E1))).
  set (bs := slice off (Z.min 256 (len d - off)) d).
  assert (len bs = Z.min 256 (len d - off)) as Hb by (unfold bs; rewrite len_slice; lia).
  destruct (decide (off = len d)) as [->|Hne].
  - assert (bs = []) as -> by (destruct bs; [done|unfold len in Hb; cbn in Hb; lia]). exists s1. split; [|done].
    rewrite drop_ge by (unfold len; lia). by rewrite app_nil_r.
  - destruct bs as [|c bs'] eqn:Eb; [change (len (@nil Z)) with 0 in Hb; lia|]. rewrite u64_small by lia.
    destruct (IH (off + len (c :: bs')) (result ++ shown (c :: bs')) (set_store s1 s.1, s.2)) as (s2 & E2 & Hv2); cbn [fst snd set_store store];
      [apply Hv1|by destruct Hv1 as (_ & -> & _)|done|lia|lia|].
    exists s2. split; [|by eapply same_view_trans]. rewrite E2. cbn [fst snd]. do 2 f_equal. f_equal.
    rewrite <- app_assoc. f_equal. unfold shown. rewrite <- filter_app. f_equal. rewrite <- Eb, Hb at 1. unfold bs, slice.
    rewrite Z2Nat.inj_add by lia. rewrite <- drop_drop. by rewrite take_drop.
Qed.

(** [write] and [cat] at the store [st]: its files changed, the rest of the state is that of [s]. *)
Definition at_store (st : S) (s : State) : State := (set_store st s.1, s.2).

Lemma lookup_or_create_ok (s : State) r cs n i rest p m d :
  mounted s.1 r → Forall component (cs ++ [n]) → start s.1 r (cs ++ [n]) = (i, rest ++ [n]) →
  fl_inv (store s.1) → Forall file_name (rest ++ [n]) → view_walk (store s.1) i rest = Some p →
  names (store s.1) p = Some m → (m !! n = None ∧ d = [] ∨ ∃ f, m !! n = Some f ∧ content (store s.1) f = Some d) →
  ∃ f s1, lookup_or_create (path_of (cs ++ [n])) s = (Ok (inl f), at_store s1 s) ∧ fl_inv s1 ∧ content s1 f = Some d ∧
    view_walk s1 i (rest ++ [n]) = Some f ∧ ∀ g, g ≠ f → content s1 g = content (store s.1) g.
Proof using Type*.
  intros Hv Hcs Hst Hi Hrest Hw Hm Hn. unfold lookup_or_create. destruct Hn as [[Hn ->]|(f & Hn & Hd)].
  - destruct (create_missing s.1 r cs n i rest p m) as (s1 & f & s2 & E1 & E2 & Hs2); [done..|]. exists f, s2. split; [|done].
    rewrite (M_bind_run _ _ _ _ _ (result_err _ s _ _ E1)). by apply (result_run _ (at_store s1 s)).
  - assert (view_walk (store s.1) i (rest ++ [n]) = Some f) as Hwf by (rewrite view_walk_app, Hw; cbn; by rewrite Hm, Hn).
    destruct (lookup_ok s.1 r (cs ++ [n]) i (rest ++ [n]) f) as (s1 & E1 & Hv1); [done..|]. exists f, s1.
    rewrite (M_bind_run _ _ _ _ _ (result_run _ s _ _ E1)). split; [done|]. split; [apply Hv1|].
    split; [by destruct Hv1 as (_ & -> & _)|]. split; [by rewrite (view_walk_same _ _ _ _ Hv1)|]. intros g _. by destruct Hv1 as (_ & -> & _).
Qed.

Lemma cat_ok (s : State) r cs i rest f d a :
  mounted s.1 r → Forall component cs → start s.1 r cs = (i, rest) → fl_inv (store s.1) → Forall file_name rest →
  view_walk (store s.1) i rest = Some f → content (store s.1) f = Some d → len d < 2 ^ 63 → len d ≤ 256 * (Z.of_nat fuel - 1) →
  resolve_path a s.2 = path_of cs →
  ∃ s1, exec_cat fuel [a] s = (Ok (shown d), at_store s1 s) ∧ same_view (store s.1) s1.
Proof using Type*.
  intros Hv Hcs Hst Hi Hrest Hw Hd Hl Hf Ha.
  destruct (lookup_ok s.1 r cs i rest f) as (s1 & E1 & Hv1); [done..|].
  destruct (regular_law s1 f d) as (s2 & E2 & Hv2); [apply Hv1|by destruct Hv1 as (_ & -> & _)|].
  pose proof (same_view_trans _ _ _ Hv1 Hv2) as Hv12.
  destruct (cat_loop_ok fuel f d 0 [] (at_store s2 s)) as (s3 & E3 & Hv3); cbn [at_store fst snd set_store store];
    [apply Hv12|by destruct Hv12 as (_ & -> & _)|done|pose proof (len_nonneg d); lia|lia|].
  exists s3. split; [|by eapply same_view_trans].
  assert (cat_file a s = (Ok (inl f), at_store s2 s)) as Ec.
  { unfold cat_file. rewrite (M_bind_run _ _ _ _ _ (path_arg_run a s)), Ha.
    rewrite (M_bind_run _ _ _ _ _ (result_run _ s _ _ E1)).
    rewrite (M_bind_run _ _ _ _ _ (on_fs_run _ (at_store s1 s) _ _ (on_store_run _ (set_store s1 s.1) _ _ E2))).
    by rewrite bool_decide_eq_true_2. }
  unfold exec_cat. rewrite (M_bind_run _ _ _ _ _ Ec). rewrite (M_bind_run _ _ _ _ _ E3). cbn. by rewrite app_nil_r.
Qed.

(** C35: files from the command line.  When the directory of the path exists and the name
    is free or names a regular file with the data [d], [write] puts the text at the
    start of the file - the tail of longer data stays - and changes no other file,
    and [cat] then shows the printable characters of the result. *)
Theorem write_then_cat (s : State) r cs n i rest p m d a w words :
  mounted s.1 r → Forall component (cs ++ [n]) → start s.1 r (cs ++ [n]) = (i, rest ++ [n]) →
  fl_inv (store s.1) → Forall file_name (rest ++ [n]) → view_walk (store s.1) i rest = Some p →
  names (store s.1) p = Some m → (m !! n = None ∧ d = [] ∨ ∃ f, m !! n = Some f ∧ content (store s.1) f = Some d) →
  resolve_path a s.2 = path_of (cs ++ [n]) →
  let text := join_with (bytes_of_string " ") (w :: words) in
  len text ≤ file_max → len d < 2 ^ 63 → len text ≤ 256 * (Z.of_nat fuel - 1) → len d ≤ 256 * (Z.of_nat fuel - 1) →
  ∃ f s1 s2,
    exec_write (a :: w :: words) s =
      (Ok (bytes_of_string "Wrote " ++ decimal (len text) ++ bytes_of_string " bytes to " ++ path_of (cs ++ [n])), at_store s1 s) ∧
    content s1 f = Some (text ++ drop (length text) d) ∧ (∀ g, g ≠ f → content s1 g = content (store s.1) g) ∧
    exec_cat fuel [a] (at_store s1 s) = (Ok (shown (text ++ drop (length text) d)), at_store s2 s).
Proof using Type*.
  intros Hv Hcs Hst Hi Hrest Hw Hm Hn Ha text Ht Hd Hft Hfd. pose proof file_max_ok as Hmax.
  destruct (lookup_or_create_ok s r cs n i rest p m d) as (f & s1 & E1 & Hi1 & Hc1 & Hw1 & Ho1); [done..|].
  destruct (write_law s1 f d 0 text) as (s2 & E2 & Hv2); [done|done|lia|lia|]. rewrite write_at_start in Hv2.
  destruct Hv2 as (Hi2 & Hc2 & Ho2 & Hn2).
  assert (view_walk s2 i (rest ++ [n]) = Some f) as Hw2.
  { eapply view_walk_mono; [|exact Hw1]. intros j mj Hj. exists mj. by rewrite Hn2. }
  assert (len (text ++ drop (length text) d) ≤ Z.max (len text) (len d)) as Hlen.
  { rewrite len_app. unfold len. rewrite length_drop. lia. }
  destruct (cat_ok (at_store s2 s) r (cs ++ [n]) i (rest ++ [n]) f (text ++ drop (length text) d) a) as (s3 & E3 & _);
    [done..|lia|lia|done|]. exists f, s2, s3. split; [|split; [done|split; [|done]]].
  - unfold exec_write. rewrite (M_bind_run _ _ _ _ _ (path_arg_run a s)), Ha. fold text.
    rewrite (M_bind_run _ _ _ _ _ E1).
    by rewrite (M_bind_run _ _ _ _ _ (result_run _ (at_store s1 s) _ _ (on_store_run _ (set_store s1 s.1) _ _ E2))).
  - intros g Hg. rewrite Ho2 by done. by apply Ho1.
Qed.

End FileCommands.

(** ** Commands return *)

Section Returns.

Context {S I F N C : Type} `{!InodeOps S I, !FileSystemOps S I F}.
Context `{HS : Smoltcp N, !SmoltcpLaws N, !ReceiveLaws N, !Tls N C, !TlsLaws N C}.
Context (hlt : N → N) (card_mac : N → list Z) (card_counts : N → Z * Z * Z * Z).
Context (get_storage_info : M (VFS S I F) (option CottonFS.StorageInfo)) (fuel : nat).

Definition no_error {T A} (m : M T A) : Prop := ∀ s e, (m s).1 ≠ Err e.

(** Time passes while the processor halts. *)
Context (hlt_law : ∀ s, ticks s < ticks (hlt s) ∧ taken (hlt s) = taken s).
Context (info_law : no_error get_storage_info) (type_law : ∀ i, no_error (inode_file_type (S:=S) (I:=I) i)).
Context (Hfuel : 65536 ≤ Z.of_nat fuel).

#[local] Abbreviation Sh := (M (VFS S I F * Env N)).

(** A text, a panic or a stopped machine; and the network stays up. *)
Definition returns {A} (m : Sh A) : Prop := ∀ s, is_up (net s.2) →
  match (m s).1 with Err e => e = "stopped" | _ => True end ∧ is_up (net (m s).2.2).

Lemma returns_ret {A} (a : A) : returns (mret a).
Proof using Type. by intros s Hs. Qed.

Lemma returns_get : returns get_env.
Proof using Type. by intros s Hs. Qed.

Lemma returns_set f : (∀ e, is_up (net e) → is_up (net (f e))) → returns (set_env f).
Proof using Type. intros Hf s Hs. split; [done|by apply Hf]. Qed.

Lemma returns_bind {A B} (m : Sh A) (f : A → Sh B) : returns m → (∀ a, returns (f a)) → returns (m ≫= f).
Proof using Type.
  intros Hm Hf s Hs. unfold mbind, M_bind. specialize (Hm s Hs). destruct (m s) as [[a|e|] s']; [apply Hf, Hm|exact Hm..].
Qed.

(** The state of the network after a command that binds it. *)
Lemma returns_bind_env {B} (f : Env N → Sh B) : (∀ e, is_up (net e) → returns (f e)) → returns (get_env ≫= f).
Proof using Type. intros Hf s Hs. by apply (Hf s.2 Hs). Qed.

Lemma returns_on_fs {A} (m : M (VFS S I F) A) : no_error m → returns (on_fs m).
Proof using Type.
  intros Hm s Hs. unfold on_fs. specialize (Hm s.1). destruct (m s.1) as [[a|e|] v]; try done. by destruct (Hm e).
Qed.

Lemma returns_result {A} (m : M (VFS S I F) A) : returns (m_result (on_fs m)).
Proof using Type. intros s Hs. unfold m_result, on_fs. by destruct (m s.1) as [[a|e|] v]. Qed.

Lemma returns_on_net {A} (w : Wait N A) : runs w → returns (on_net (S:=S) (I:=I) (F:=F) w).
Proof using Type.
  intros Hw s Hs. unfold on_net. destruct (Hw (net s.2) Hs) as (r & n & -> & Hn). by destruct r.
Qed.

Lemma returns_usage t : returns (usage t).
Proof using Type. by intros s Hs. Qed.

(** *** The network commands *)

Lemma halt_rests : rests (halt_net hlt).
Proof using All.
  intros n [s Hs]. destruct (hlt_law s) as [Ht E]. unfold halt_net, clock. rewrite Hs. cbn. split; [|done].
  exists s, (hlt s). rewrite app_nil_r. split; [done|]. split; [done|]. split; [lia|done].
Qed.

Lemma up_ping a : keeps_up (ping (S:=N) a).
Proof using Type.
  apply up_bind; [by intros n Hn|]. intros n. apply up_bind; [by apply up_modify|]. intros _.
  apply up_bind; [apply up_with_stack|]. intros _. apply up_bind; [by apply up_modify|]. intros _. apply up_modify, up_poll.
Qed.

Lemma up_udp_send a p q payload : keeps_up (udp_send (S:=N) a p q payload).
Proof using Type.
  apply up_bind; [apply up_with_stack|]. intros _. apply up_bind.
  { apply up_bind; [by intros n Hn|]. intros n. case_match; [by intros n' Hn'|].
    apply up_bind; [apply up_with_stack|]. intros _. by apply up_modify. }
  intros _. apply up_bind; [apply up_with_stack|]. intros _. apply up_modify, up_poll.
Qed.

Lemma runs_request_arp : runs (S:=N) (w_m [] request_arp).
Proof using Type. apply runs_m. intros n. apply up_arp. Qed.

Lemma runs_dhcp : runs (S:=N) (w_waits [] (dhcp_configure fuel)).
Proof using All.
  apply runs_waits. intros n Hn. unfold dhcp_configure.
  match goal with |- context [with_stack ?f n] => pose proof (up_with_stack f n Hn) as Hw; destruct (with_stack f n) as [r n1] end.
  cbn [snd] in Hw. destruct r as [[]|e|]; [|by eexists _, n1..]. destruct Hw as [s Hs].
  destruct (dhcp_wait_ends (clock n1 + 8000) (dhcp_gen n) fuel n1 s) as (r & n' & E & (s' & Hs' & _) & _);
    [done|unfold clock; rewrite Hs; lia|]. exists r, n'. split; [done|by eexists].
Qed.

Lemma runs_resolve prefix host : runs (w_resolve fuel prefix host).
Proof using All. unfold w_resolve. destruct (parse_ipv4 host); [apply runs_ret|apply runs_dns; lia]. Qed.

Lemma runs_httpget host path : runs (w_httpget hlt fuel host path).
Proof using All.
  unfold w_httpget. apply runs_bind; [apply runs_resolve|]. intros a. apply runs_bind; [apply runs_arp|]. intros _.
  apply runs_bind; [apply runs_m, up_connect|]. intros _. apply runs_bind; [apply runs_connected; [apply halt_rests|lia]|]. intros _.
  apply runs_bind; [apply runs_try, runs_send; lia|]. intros [_|e].
  - apply runs_response; [apply halt_rests|lia].
  - apply runs_bind; [apply runs_close|intros; apply runs_fail].
Qed.

Lemma runs_httpsget host path : runs (w_httpsget (C:=C) fuel host path).
Proof using All.
  unfold w_httpsget. apply runs_bind; [apply runs_resolve|]. intros a. apply runs_bind; [apply runs_arp|]. intros _.
  by apply requests_https.
Qed.

Lemma runs_arp_or_gateway a p : runs (arp_or_gateway (N:=N);; w_m [] (tcp_connect a p)).
Proof using All.
  apply runs_bind; [|intros; apply runs_m, up_connect]. apply runs_bind; [apply runs_try, runs_request_arp|].
  intros []; [apply runs_ret|apply runs_ignore, runs_request_arp].
Qed.

Lemma runs_udp_send a p q payload : runs (w_arp (S:=N);; w_m [] (udp_send a p q payload)).
Proof using All. apply runs_bind; [apply runs_arp|]. intros _. apply runs_m, up_udp_send. Qed.

Lemma runs_fetch url : runs (fetch_and_render (S:=N) fuel url).
Proof using All. by apply fetch_turns_ends. Qed.

Lemma up_reconfigure f n : is_up n → is_up (reconfigure (S:=N) f n).
Proof using Type. intros [s Hs]. unfold reconfigure. cbn. rewrite Hs. by eexists. Qed.

Lemma up_tcp_read n : is_up n → is_up (tcp_read (S:=N) n).2.
Proof using Type. intros Hn. unfold tcp_read. pose proof (up_read 1024 n Hn). by destruct (tcp_read_into 1024 n). Qed.

Lemma up_udp_recv n : is_up n → is_up (udp_recv (S:=N) n).2.
Proof using Type.
  intros Hn. apply up_poll in Hn as [s Hs]. unfold udp_recv. rewrite Hs. destruct (udp_recv_from s) as [[[[]]|] s']; by eexists.
Qed.

Lemma sync_no_error : no_error (sync_all (S:=S) (I:=I) (F:=F)).
Proof using Type.
  assert (∀ ms, no_error (sync_mounts (S:=S) (I:=I) (F:=F) ms)) as H.
  { induction ms as [|m ms IH]; intros st e; [done|]. cbn [sync_mounts]. unfold mbind, M_bind, m_ignore.
    destruct (fs_sync_ (mount_fs m) st) as [[a|e'|] st']; [apply IH..|done]. }
  intros v e. unfold sync_all, mbind, M_bind, m_get, on_store. specialize (H (mounts v) (store v) e). by destruct (sync_mounts _ _).
Qed.

Lemma type_no_error i : no_error (on_store (I:=I) (F:=F) (inode_file_type (S:=S) i)).
Proof using All.
  intros v e. unfold on_store. pose proof (type_law i (store v) e). by destruct (inode_file_type i (store v)).
Qed.

Create HintDb returns.
#[local] Hint Resolve returns_ret returns_get returns_result returns_usage runs_request_arp runs_dhcp runs_httpget runs_httpsget
  runs_arp_or_gateway runs_udp_send runs_fetch up_poll up_reconfigure up_tcp_read up_udp_recv sync_no_error type_no_error : returns.
#[local] Hint Extern 1 (runs (w_waits _ (dns_resolve_a _ _))) => apply runs_dns; lia : returns.
#[local] Hint Extern 1 (runs (w_waits _ (tcp_send _ _))) => apply runs_send; lia : returns.
#[local] Hint Extern 1 (runs (w_m _ (ping _))) => apply runs_m, up_ping : returns.
#[local] Hint Extern 1 (runs (w_m _ tcp_close)) => apply runs_m, up_close : returns.

Ltac returns :=
  repeat first
    [ progress auto with returns
    | apply returns_on_net
    | apply returns_on_fs
    | apply returns_bind_env; intros ??
    | apply returns_set; intros ??
    | apply returns_bind; [|intros ?]
    | case_match ].

Lemma returns_ls_lines path entries : returns (ls_lines path entries).
Proof using All. induction entries as [|e entries IH]; cbn [ls_lines]; [apply returns_ret|]. unfold ls_line. returns. Qed.

#[local] Hint Resolve returns_ls_lines : returns.

Lemma returns_tcprecv : returns exec_tcprecv.
Proof using All.
  apply returns_bind; [apply returns_set; intros e; apply up_poll|]. intros _. apply returns_bind_env. intros e He.
  pose proof (up_tcp_read (net e) He) as Hn. destruct (tcp_read (net e)) as [got n]. returns.
Qed.

Lemma returns_udprecv : returns exec_udprecv.
Proof using All.
  apply returns_bind_env. intros e He. pose proof (up_udp_recv (net_poll (net e)) (up_poll _ He)) as Hn.
  destruct (udp_recv (net_poll (net e))) as [got n]. returns.
Qed.

#[local] Hint Resolve returns_tcprecv returns_udprecv : returns.

Lemma returns_exec c args : c ≠ Ccat → returns (exec_command hlt card_mac card_counts get_storage_info fuel c args).
Proof using All.
  intros Hc. destruct c; try done; cbn [Shell.exec_command];
    unfold exec_info, exec_mem, exec_df, exec_sync, exec_ps, exec_uptime, exec_net, exec_netstats, exec_arptable, exec_arp,
      exec_ping, exec_dhcp, exec_dns, exec_setip, exec_setmask, exec_setgw, exec_setdns, exec_set, with_ipv4, exec_tcpconnect,
      exec_tcpsend, exec_tcpclose, exec_httpget, exec_httpsget, exec_browse, exec_udpsend, exec_ls,
      ls_path, path_arg, exec_cd, set_cwd, exec_touch, exec_mkdir, exec_rm, exec_write, lookup_or_create, set_ip, set_netmask, set_gateway, set_dns;
    returns.
  all: cbn [net put_net]; auto with returns.
Qed.

Lemma find_command_name table cmd c : find_command table cmd = Some c → ∃ name, (name, c) ∈ table ∧ cmd = bytes_of_string name.
Proof using Type.
  induction table as [|[name c'] table IH]; [done|]. cbn [find_command]. case_bool_decide as Hn.
  - intros [= <-]. exists name. split; [constructor|done].
  - intros (name' & Hin & Hc)%IH. exists name'. split; [by constructor|done].
Qed.

Lemma find_command_cat cmd : find_command commands cmd = Some Ccat → cmd = bytes_of_string "cat".
Proof using Type.
  intros (name & Hin & ->)%find_command_name. f_equal.
  assert (Forall (λ p : string * Command, p.2 = Ccat → p.1 = "cat") commands) as Hf by (repeat (constructor; [done|]); constructor).
  rewrite Forall_forall in Hf. by apply (Hf _ Hin).
Qed.

(** C37: commands return.  With the network up, a clock that moves when the code yields or
    halts, TLS operations that return, and inodes that have a type, every command but
    [cat] comes to its end within its deadlines, whatever the peers send: with a text,
    with a panic, or with the machine stopped by [reboot] and [halt]. *)
Theorem commands_return line s :
  is_up (net s.2) → ¬ (∃ args, split_whitespace line = bytes_of_string "cat" :: args) →
  match (execute_command hlt card_mac card_counts get_storage_info fuel line s).1 with
  | Ok _ | Panic => True
  | Err e => e = "stopped"
  end.
Proof using All.
  intros Hs Hcat. assert (returns (execute_command hlt card_mac card_counts get_storage_info fuel line)) as H.
  { unfold Shell.execute_command. destruct (split_whitespace line) as [|cmd args]; [apply returns_ret|].
    destruct (find_command commands cmd) as [c|] eqn:E; [|apply returns_ret]. apply returns_exec. intros ->. apply Hcat. exists args.
    f_equal. eapply find_command_cat, E. }
  specialize (H s Hs). destruct (execute_command _ _ _ _ _ _ _) as [[t|e|] s']; [done|by apply H|done].
Qed.

End Returns.

(** ** A session without a disk *)

Module ShellExample.
Import HttpExample RamExample.

#[export] Instance ram_regular : RegularLaw RamStore Z.
Proof.
  intros s i d Hs Hd. exists s. split; [|by apply same_view_refl]. destruct (ram_content_Some s i d Hd) as (n & Hn & Hdat).
  cbn. rewrite (ram_get_run _ n) by done. destruct Hs as [_ Ht]. specialize (Ht i n Hn). unfold typed in Ht. rewrite Hdat in Ht. by rewrite <- Ht.
Qed.

Definition env0 : Env Peer :=
  mkEnv (Some (bytes_of_string "/tmp")) false (served [[]; [head; bytes_of_string "hi"]]) Physical.new
    (Scheduler.mkKernel (Process.mkWorld (Paging.mkPT ∅ Physical.new) 1 1 1) ∅ Scheduler.Scheduler_new false 3723004 0 0).

Definition state0 : VFS RamStore Z Z * Env Peer := (v0, env0).

Definition peer_hlt (s : Peer) : Peer := mkPeer (p_ticks s + 1) (p_next s) (p_in s) (p_sent s) (p_taken s).

(** A command line of the session, by the terminal. *)
Definition enter (line : string) (s : VFS RamStore Z Z * Env Peer) : res (list Z) * (VFS RamStore Z Z * Env Peer) :=
  execute_command (C:=unit) peer_hlt (λ _, [82; 84; 0; 18; 52; 86]) (λ _, (1, 2, 0, 0)) (mret None) fuel (bytes_of_string line) s.

Definition typed_in (lines : list string) : VFS RamStore Z Z * Env Peer := foldl (λ s l, (enter l s).2) state0 lines.

Definition note_words : list (list Z) := [bytes_of_string "Cotton"; bytes_of_string "OS"].

Lemma write_then_cat_witness :
  ∃ s1 s2, exec_write (bytes_of_string "note" :: note_words) state0 =
      (Ok (bytes_of_string "Wrote 9 bytes to /tmp/note"), at_store s1 state0) ∧
    exec_cat fuel [bytes_of_string "note"] (at_store s1 state0) = (Ok (bytes_of_string "Cotton OS"), at_store s2 state0).
Proof.
  destruct (write_then_cat fuel state0 0 [tmp] note 0 [tmp] 1 ∅ [] (bytes_of_string "note") (bytes_of_string "Cotton") [bytes_of_string "OS"])
    as (f & s1 & s2 & E1 & _ & _ & E2);
    [exact v0_mounted|exact components_ok|by vm_compute|exact s0_inv|exact names_ok|by vm_compute|by vm_compute|by left|
     by vm_compute|by vm_compute|by vm_compute|by vm_compute|by vm_compute|].
  exists s1, s2. split; [exact E1|]. rewrite drop_nil, app_nil_r in E2. exact E2.
Defined.

Lemma cwd_stays_clean_witness :
  clean_at (session (C:=unit) (S:=RamStore) (I:=Z) (F:=Z) peer_hlt (λ _, []) (λ _, (0, 0, 0, 0)) (mret None) fuel
    [bytes_of_string "cd ../.."; bytes_of_string "cd //tmp/./"] state0) ∧
  led_to [tmp] (bytes_of_string "../tmp//note/.") = [tmp; note].
Proof.
  split; [|by vm_compute].
  destruct (cwd_stays_clean (C:=unit) (S:=RamStore) (I:=Z) (F:=Z) peer_hlt (λ _, []) (λ _, (0, 0, 0, 0)) (mret None) fuel) as (H & _).
  apply H. exists [tmp]. split; [apply (bool_decide_unpack _)|]; vm_compute; reflexivity || exact Logic.I.
Defined.

Lemma parse_fmt_ipv4_witness : parse_ipv4 (fmt_ipv4 [10; 0; 2; 15]) = Some [10; 0; 2; 15].
Proof. apply (proj1 parse_fmt_ipv4). split; [done|]. repeat constructor; lia. Defined.

(** Every inode of the RAM file system has a type, or the code panics. *)
Lemma ram_type_law (i : Z) : no_error (inode_file_type (S:=RamStore) i).
Proof. intros s e. cbn. unfold mbind, M_bind, ram_get. by destruct (nodes s !! i). Qed.

Lemma commands_return_witness :
  match (enter "httpget 10.0.2.9" state0).1 with Ok _ | Panic => True | Err e => e = "stopped" end.
Proof.
  apply (commands_return (C:=unit) (S:=RamStore) (I:=Z) (F:=Z) peer_hlt (λ _, [82; 84; 0; 18; 52; 86]) (λ _, (1, 2, 0, 0)) (mret None) fuel).
  - intros s. cbn. split; [lia|done].
  - by intros s e.
  - apply ram_type_law.
  - unfold fuel. lia.
  - by eexists.
  - intros [args Hargs]. by vm_compute in Hargs.
Defined.

Example session_shows :
  (enter "httpget 10.0.2.9" state0).1 = Ok (head ++ bytes_of_string "hi") ∧
  (enter "uptime" state0).1 = Ok (bytes_of_string "Uptime: 1h 2m 3s (3723004 ticks)") ∧
  (enter "ls /" state0).1 = Ok (bytes_of_string "d       32 ." ++ nl ++ bytes_of_string "d        0 .." ++ nl ++ bytes_of_string "d        0 tmp" ++ nl) ∧
  (enter "pwd" (typed_in ["cd //tmp/."])).1 = Ok (bytes_of_string "/tmp") ∧
  (enter "cat note" (typed_in ["write note hello"])).1 = Ok (bytes_of_string "hello") ∧
  (enter "fly" state0).1 = Ok (bytes_of_string "Unknown command: 'fly'. Type 'help'.").
Proof. repeat split; by vm_compute. Qed.

(** A shorter text leaves the tail of the longer one. *)
Example write_keeps_tail :
  (enter "cat note" (typed_in ["write note CottonOS kernel"; "write note short"])).1 = Ok (bytes_of_string "shortnOS kernel").
Proof. by vm_compute. Qed.

(** The request for an address that is said to be sent is a poll. *)
Example arp_sends_nothing :
  (enter "arp 10.9.8.7" state0).1 = Ok (bytes_of_string "ARP request sent for 10.9.8.7") ∧
  stack (net (enter "arp 10.9.8.7" state0).2.2) = stack (net env0) ∧
  (enter "arptable" (typed_in ["arp 10.9.8.7"])).1 = Ok (bytes_of_string "ARP table:" ++ nl ++ bytes_of_string "  (empty)").
Proof. repeat split; by vm_compute. Qed.

(** In a RAM directory there is no way up. *)
Example no_way_up : (enter "cd .." state0).1 = Ok (bytes_of_string "cd: ..: No parent").
Proof. by vm_compute. Qed.

(** What the console prints, with a backspace while typing. *)
Example console_turn :
  match run_turn (C:=unit) peer_hlt (λ _, []) (λ _, (0, 0, 0, 0)) (mret None) fuel (bytes_of_string "pwx" ++ [8] ++ bytes_of_string "d" ++ [13]) state0 with
  | (Ok (Some ([Print echo; Print out], [])), _) =>
      echo = bytes_of_string "cotton:/tmp> pwx" ++ [8; 32; 8] ++ bytes_of_string "d" ++ nl ∧ out = bytes_of_string "/tmp" ++ nl
  | _ => False
  end.
Proof. split; by vm_compute. Qed.

(** Sizes as they are shown. *)
Example sizes :
  map format_bytes [0; 1023; 1024; 1536; 1075; 2 ^ 20; 5 * 2 ^ 30 + 2 ^ 29] =
  map bytes_of_string ["0 B"; "1023 B"; "1.0 KB"; "1.5 KB"; "1.0 KB"; "1.0 MB"; "5.5 GB"].
Proof. by vm_compute. Qed.

End ShellExample.
