(* ===== verification/Userspace.v ===== *)
(** * The userspace library and shell: [src/userspace]

    A program runs over a kernel it reaches by traps ([trap]), and its data lie in a
    memory: a slice that is passed to a call has an address ([place]), and a buffer
    the kernel fills is read back ([contents]).  These three are parameters; a trap
    that does not return is [None].  The instructions of the [syscallN] functions are
    the trap. *)

From S2P Require Import Prelude Bytes Str ShellText.

#[local] Notation "'b' s" := (bytes_of_string s) (at level 9, s at level 9, only parsing).

(** ** Numbers of the system calls *)

Definition SYS_EXIT : Z := 0.
Definition SYS_FORK : Z := 1.
Definition SYS_EXEC : Z := 2.
Definition SYS_WAIT : Z := 3.
Definition SYS_GETPID : Z := 4.
Definition SYS_GETPPID : Z := 5.
Definition SYS_YIELD : Z := 6.
Definition SYS_SLEEP : Z := 7.
Definition SYS_OPEN : Z := 10.
Definition SYS_CLOSE : Z := 11.
Definition SYS_READ : Z := 12.
Definition SYS_WRITE : Z := 13.
Definition SYS_STAT : Z := 15.
Definition SYS_MKDIR : Z := 20.
Definition SYS_RMDIR : Z := 21.
Definition SYS_UNLINK : Z := 22.
Definition SYS_CHDIR : Z := 24.
Definition SYS_GETCWD : Z := 25.
Definition SYS_UNAME : Z := 40.
Definition SYS_TIME : Z := 41.

(** ** Programs *)

(** A program on a machine: it may not end, or panic. *)
Definition Prog (K A : Type) : Type := K → option (res A * K).

#[export] Instance Prog_ret K : MRet (Prog K) := λ _ a k, Some (Ok a, k).
#[export] Instance Prog_bind K : MBind (Prog K) := λ _ _ f m k,
  match m k with
  | Some (Ok a, k) => f a k
  | Some (Err e, k) => Some (Err e, k)
  | Some (Panic, k) => Some (Panic, k)
  | None => None
  end.

Section Userspace.
Context {K : Type}.

(** The number and three arguments, of which a call uses the first ones. *)
Context (trap : Z → Z → Z → Z → Prog K Z).
Context (place : list Z → K → Z * K) (contents : Z → Z → K → list Z).

Definition at_address {A} (bs : list Z) (f : Z → Prog K A) : Prog K A := λ k, let '(p, k) := place bs k in f p k.

Definition syscall0 (num : Z) : Prog K Z := trap num 0 0 0.
Definition syscall1 (num a : Z) : Prog K Z := trap num a 0 0.
Definition syscall2 (num a1 a2 : Z) : Prog K Z := trap num a1 a2 0.
Definition syscall3 (num a1 a2 a3 : Z) : Prog K Z := trap num a1 a2 a3.

Definition hang {A} : Prog K A := λ _, None.

(** Behind the call is an empty loop. *)
Definition exit {A} (status : Z) : Prog K A := _ ← syscall1 SYS_EXIT (u64 status); hang.
Definition fork : Prog K Z := syscall0 SYS_FORK.
Definition getpid : Prog K Z := r ← syscall0 SYS_GETPID; mret (u32 r).
Definition getppid : Prog K Z := r ← syscall0 SYS_GETPPID; mret (u32 r).
Definition yield_now : Prog K unit := _ ← syscall0 SYS_YIELD; mret tt.
Definition sleep (ms : Z) : Prog K unit := _ ← syscall1 SYS_SLEEP ms; mret tt.

Definition write (fd : Z) (buf : list Z) : Prog K Z := at_address buf (λ p, syscall3 SYS_WRITE fd p (len buf)).

(** The result, and what the buffer holds afterwards. *)
Definition with_buffer (p size n : Z) : Prog K (Z * list Z) := λ k, Some (Ok (n, contents p size k), k).

Definition read (fd : Z) (buf : list Z) : Prog K (Z * list Z) :=
  at_address buf (λ p, n ← syscall3 SYS_READ fd p (len buf); with_buffer p (len buf) n).

(** Only the address of the path is passed. *)
Definition open (path : list Z) (flags : Z) : Prog K Z := at_address path (λ p, syscall2 SYS_OPEN p flags).
Definition close (fd : Z) : Prog K Z := syscall1 SYS_CLOSE fd.
Definition mkdir (path : list Z) : Prog K Z := at_address path (syscall1 SYS_MKDIR).
Definition chdir (path : list Z) : Prog K Z := at_address path (syscall1 SYS_CHDIR).
Definition getcwd (buf : list Z) : Prog K (Z * list Z) :=
  at_address buf (λ p, n ← syscall2 SYS_GETCWD p (len buf); with_buffer p (len buf) n).

Definition print (s : list Z) : Prog K unit := _ ← write 1 s; mret tt.
Definition println (s : list Z) : Prog K unit := _ ← print s; print [10].

(** ** The shell *)

Record Shell : Type := mkShell { prompt : list Z; history : list (list Z); cwd : list Z }.

Definition Shell_new : Shell := mkShell (b "cotton$ ") [] (b "/").

(** [byte as char] *)
Definition as_char (byte : Z) : list Z := default [] (char_of_u32 byte).

(** The bytes of a read: the line so far, or [inr] when it is complete. *)
Fixpoint edit_line (bs : list Z) (line : list Z) : Prog K (list Z + list Z) :=
  match bs with
  | [] => mret (inl line)
  | c :: bs =>
      if (c =? 10) || (c =? 13) then _ ← print [10]; mret (inr line)
      else if (c =? 0x7F) || (c =? 8) then
        if bool_decide (line = []) then edit_line bs line
        else _ ← print ([8] ++ b " " ++ [8]); edit_line bs (str_pop line)
      else if 0x20 <=? c then _ ← write 1 [c]; edit_line bs (line ++ as_char c)
      else edit_line bs line
  end.

(** [&buf[..n]] *)
Definition buf_to (n : Z) (buf : list Z) : res (list Z) := if n <=? len buf then Ok (take (Z.to_nat n) buf) else Panic.

Definition lift {A} (r : res A) : Prog K A := λ k, Some (r, k).

Fixpoint read_line_from (fuel : nat) (buf line : list Z) : Prog K (list Z) :=
  match fuel with
  | O => hang
  | S fuel =>
      '(n, buf) ← read 0 buf;
      if n <=? 0 then mret line
      else
        bs ← lift (buf_to n buf);
        r ← edit_line bs line;
        match r with inl line => read_line_from fuel buf line | inr line => mret line end
  end.

Definition read_line (fuel : nat) : Prog K (list Z) := read_line_from fuel (zeros 256) [].

(** *** Commands *)

Definition help_text : list (list Z) :=
  [b "CottonOS Shell Commands:"; b "  help     - Show this help message"; b "  exit     - Exit the shell";
   b "  echo     - Print arguments"; b "  pwd      - Print working directory"; b "  cd       - Change directory";
   b "  ls       - List directory contents"; b "  mkdir    - Create directory"; b "  cat      - Show file contents";
   b "  clear    - Clear screen"; b "  uname    - Show system info"; b "  ps       - Show processes";
   b "  history  - Show command history"; b "  date     - Show current time"; b "  whoami   - Show current user";
   b "  hostname - Show hostname"].

Fixpoint print_lines (ls : list (list Z)) : Prog K unit :=
  match ls with [] => mret tt | l :: ls => _ ← println l; print_lines ls end.

Definition cmd_help : Prog K unit := print_lines help_text.

(** The arguments from number [i] on. *)
Fixpoint echo_from (i : nat) (args : list (list Z)) : Prog K unit :=
  match args with
  | [] => mret tt
  | a :: args => _ ← (if decide (i = O) then mret tt else print (b " ")); _ ← print a; echo_from (S i) args
  end.

Definition cmd_echo (args : list (list Z)) : Prog K unit := _ ← echo_from 0 args; print [10].
Definition cmd_pwd (sh : Shell) : Prog K unit := println (cwd sh).

(** A path of the user, from the working directory. *)
Definition full_path (dir path : list Z) : list Z :=
  if bool_decide (head path = Some 47) then path
  else if bool_decide (dir = [47]) then 47 :: path else dir ++ 47 :: path.

(** One level up. *)
Definition parent_path (dir : list Z) : list Z :=
  if bool_decide (dir = [47]) then [47]
  else
    let parts := take (length (split_byte 47 dir) - 1) (split_byte 47 dir) in
    if bool_decide (parts = []) || bool_decide (parts = [[]]) then [47] else join_with [47] parts.

Definition cd_target (dir path : list Z) : list Z :=
  if bool_decide (head path = Some 47) then path
  else if bool_decide (path = b "..") then parent_path dir
  else full_path dir path.

Definition cmd_cd (args : list (list Z)) (sh : Shell) : Prog K Shell :=
  let path := default (b "/") (head args) in
  let new_path := cd_target (cwd sh) path in
  result ← chdir new_path;
  if 0 <=? result then mret (mkShell (prompt sh) (history sh) new_path)
  else _ ← print (b "cd: "); _ ← print path; _ ← println (b ": No such directory"); mret sh.

Definition cmd_ls (args : list (list Z)) (sh : Shell) : Prog K unit :=
  _ ← print (b "Contents of ");
  _ ← println (default (cwd sh) (head args));
  _ ← println (b "  .  (current directory)");
  println (b "  .. (parent directory)").

Fixpoint make_dirs (dir : list Z) (args : list (list Z)) : Prog K unit :=
  match args with
  | [] => mret tt
  | path :: args =>
      result ← mkdir (full_path dir path);
      _ ← (if result <? 0
           then _ ← print (b "mkdir: cannot create directory '"); _ ← print path; println (b "'")
           else mret tt);
      make_dirs dir args
  end.

Definition cmd_mkdir (args : list (list Z)) (sh : Shell) : Prog K unit :=
  if bool_decide (args = []) then println (b "mkdir: missing operand") else make_dirs (cwd sh) args.

Fixpoint copy_out (fuel : nat) (fd : Z) (buf : list Z) : Prog K unit :=
  match fuel with
  | O => hang
  | S fuel =>
      '(n, buf) ← read (u64 fd) buf;
      if n <=? 0 then mret tt
      else bs ← lift (buf_to n buf); _ ← write 1 bs; copy_out fuel fd buf
  end.

Fixpoint cat_files (fuel : nat) (args : list (list Z)) : Prog K unit :=
  match args with
  | [] => mret tt
  | path :: args =>
      fd ← open path 0;
      _ ← (if fd <? 0 then _ ← print (b "cat: "); _ ← print path; println (b ": No such file")
           else _ ← copy_out fuel fd (zeros 1024); _ ← close (u64 fd); mret tt);
      cat_files fuel args
  end.

Definition cmd_cat (fuel : nat) (args : list (list Z)) : Prog K unit :=
  if bool_decide (args = []) then println (b "cat: missing operand") else cat_files fuel args.

Definition cmd_clear : Prog K unit := print ([27] ++ b "[2J" ++ [27] ++ b "[H").
Definition cmd_uname : Prog K unit := println (b "CottonOS 0.1.0 cotton").

(** The digits in the buffer, the last one first. *)
Fixpoint number_buf (fuel : nat) (n : Z) : list Z :=
  match fuel with O => [] | S fuel => if 0 <? n then (48 + n mod 10) :: number_buf fuel (n / 10) else [] end.

(** They are written from the end of the buffer on. *)
Fixpoint write_each (bs : list Z) : Prog K unit :=
  match bs with [] => mret tt | c :: bs => _ ← write 1 [c]; write_each bs end.

Definition cmd_ps : Prog K unit :=
  _ ← println (b "  PID TTY          TIME CMD");
  pid ← getpid;
  _ ← print (b "    ");
  _ ← (if pid =? 0 then print (b "0") else write_each (reverse (number_buf 10 pid)));
  println (b " tty0     00:00:00 shell").

(** Three digits, as they come out. *)
Definition history_digits (n : Z) : list Z :=
  (if 100 <=? n then [u8 (48 + u8 (n / 100))] else []) ++
  (if 10 <=? n then [u8 (48 + u8 (n / 10 mod 10))] else []) ++
  [u8 (48 + u8 (n mod 10))].

Fixpoint print_history (n : Z) (cmds : list (list Z)) : Prog K unit :=
  match cmds with
  | [] => mret tt
  | cmd :: cmds =>
      _ ← (if n <? 10 then print (b "  ") else if n <? 100 then print (b " ") else mret tt);
      _ ← write_each (history_digits n);
      _ ← print (b "  ");
      _ ← println cmd;
      print_history (n + 1) cmds
  end.

Definition cmd_history (sh : Shell) : Prog K unit := print_history 1 (history sh).

Definition cmd_date : Prog K unit :=
  time ← syscall0 SYS_TIME;
  _ ← print (b "System ticks: ");
  if time =? 0 then println (b "0") else _ ← write_each (reverse (number_buf 20 (u64 time))); print [10].

(** The new state of the shell, and whether it goes on. *)
Definition execute (fuel : nat) (line : list Z) (sh : Shell) : Prog K (bool * Shell) :=
  let stay (m : Prog K unit) : Prog K (bool * Shell) := _ ← m; mret (true, sh) in
  match split_whitespace (trim line) with
  | [] => mret (true, sh)
  | cmd :: args =>
      if bool_decide (cmd = b "help") then stay cmd_help
      else if bool_decide (cmd = b "exit") || bool_decide (cmd = b "quit") then mret (false, sh)
      else if bool_decide (cmd = b "echo") then stay (cmd_echo args)
      else if bool_decide (cmd = b "pwd") then stay (cmd_pwd sh)
      else if bool_decide (cmd = b "cd") then sh ← cmd_cd args sh; mret (true, sh)
      else if bool_decide (cmd = b "ls") then stay (cmd_ls args sh)
      else if bool_decide (cmd = b "mkdir") then stay (cmd_mkdir args sh)
      else if bool_decide (cmd = b "cat") then stay (cmd_cat fuel args)
      else if bool_decide (cmd = b "clear") then stay cmd_clear
      else if bool_decide (cmd = b "uname") then stay cmd_uname
      else if bool_decide (cmd = b "ps") then stay cmd_ps
      else if bool_decide (cmd = b "history") then stay (cmd_history sh)
      else if bool_decide (cmd = b "date") then stay cmd_date
      else if bool_decide (cmd = b "whoami") then stay (println (b "root"))
      else if bool_decide (cmd = b "hostname") then stay (println (b "cotton"))
      else stay (_ ← print (b "Unknown command: "); println cmd)
  end.

(** [n] turns at most of the loop; the fuel of the loops inside is [fuel]. *)
Fixpoint run_loop (n fuel : nat) (sh : Shell) : Prog K Shell :=
  match n with
  | O => hang
  | S n =>
      _ ← print (prompt sh);
      line ← read_line fuel;
      if bool_decide (line = []) then run_loop n fuel sh
      else
        '(go, sh) ← execute fuel line (mkShell (prompt sh) (history sh ++ [line]) (cwd sh));
        if (go : bool) then run_loop n fuel sh else mret sh
  end.

Definition run (n fuel : nat) (sh : Shell) : Prog K Shell :=
  _ ← println (b "Welcome to CottonOS Shell v0.1.0");
  _ ← println (b "Type 'help' for available commands" ++ [10]);
  run_loop n fuel sh.

Definition main (n fuel : nat) : Prog K unit := _ ← run n fuel Shell_new; exit 0.

End Userspace.
