(* ===== verification/UserspaceSpec.v ===== *)
(** * The userspace shell: lines, directories, numbers, and the kernel below

    Typing edits a line as one expects ([edit_line_spec]), the working directory stays
    absolute and "cd .." undoes a step down, numbers come out in decimal, and over the
    kernel of Syscall.v what is printed reaches the console
    ([print_reaches_console]).  That kernel never delivers input ([shell_no_input]) and
    takes for a path what lies behind it in memory. *)

From S2P Require Import Prelude Bytes Str Vfs Files Process Scheduler SchedulerSpec RamFS RamSpec EditorSpec Syscall SyscallSpec ShellText ShellSpec Userspace.

#[local] Notation "'b' s" := (bytes_of_string s) (at level 9, s at level 9, only parsing).

Lemma prog_bind_ok {K A B} (m : Prog K A) (f : A → Prog K B) k a k' : m k = Some (Ok a, k') → (m ≫= f) k = f a k'.
Proof. intros H. unfold mbind, Prog_bind. by rewrite H. Qed.

Lemma prog_bind_inv {K A B} (m : Prog K A) (f : A → Prog K B) k c k' :
  (m ≫= f) k = Some (Ok c, k') → ∃ a k1, m k = Some (Ok a, k1) ∧ f a k1 = Some (Ok c, k').
Proof. unfold mbind, Prog_bind. destruct (m k) as [[[a|e|] k1]|]; try done. eauto. Qed.

(** ** Numbers *)

Lemma number_buf_decimal fuel n : 0 < n → n < 10 ^ Z.of_nat fuel → reverse (number_buf fuel n) = decimal_digits fuel n.
Proof.
  revert n. induction fuel as [|fuel IH]; intros n Hn Hf; [cbn in Hf; lia|]. cbn [number_buf decimal_digits].
  rewrite Nat2Z.inj_succ, Z.pow_succ_r in Hf by lia. rewrite (proj2 (Z.ltb_lt 0 n)) by lia. rewrite reverse_cons.
  destruct (Z.ltb_spec n 10) as [Hlt|Hge].
  - rewrite Z.div_small, Z.mod_small by lia. by destruct fuel.
  - rewrite IH; [done|apply Z.div_str_pos; lia|apply Z.div_lt_upper_bound; lia].
Qed.

Lemma decimal_digits_fuel fuel n : ∀ more, 0 ≤ n → n < 10 ^ Z.of_nat fuel → fuel ≠ O → decimal_digits (fuel + more) n = decimal_digits fuel n.
Proof.
  revert n. induction fuel as [|fuel IH]; intros n more Hn Hf Hne; [done|]. cbn [decimal_digits Nat.add].
  rewrite Nat2Z.inj_succ, Z.pow_succ_r in Hf by lia. destruct (Z.ltb_spec n 10) as [Hlt|Hge]; [done|]. f_equal.
  apply IH; [apply Z.div_pos; lia|apply Z.div_lt_upper_bound; lia|]. intros ->. cbn in Hf. lia.
Qed.

(** The loops of [ps] and [date] print in decimal. *)
Theorem numbers_in_decimal n :
  (0 < n < 2 ^ 32 → reverse (number_buf 10 n) = decimal n) ∧ (0 < n < 2 ^ 64 → reverse (number_buf 20 n) = decimal n).
Proof.
  split; intros Hn.
  - rewrite number_buf_decimal by (cbn; lia). symmetry. by apply (decimal_digits_fuel 10 n 10); cbn; lia.
  - rewrite number_buf_decimal by (cbn; lia). done.
Qed.

(** The numbers of [history] are decimal below 1000. *)
Lemma history_decimal n : 0 ≤ n < 1000 → history_digits n = decimal n.
Proof.
  intros Hn. unfold history_digits, decimal. cbn [decimal_digits]. unfold u8.
  pose proof (Z.mod_pos_bound n 10). pose proof (Z.mod_pos_bound (n / 10) 10). pose proof (Z.div_mod n 10).
  assert (0 ≤ n / 10 < 100) by (split; [apply Z.div_pos; lia|apply Z.div_lt_upper_bound; lia]). 
  assert (0 ≤ n / 100 < 10) by (split; [apply Z.div_pos; lia|apply Z.div_lt_upper_bound; lia]).
  assert (n / 100 = n / 10 / 10) as E by (rewrite Z.div_div by lia; done).
  rewrite !(wrap_small 8 (n mod 10)), !(wrap_small 8 (n / 10 mod 10)), !(wrap_small 8 (n / 100)) by (unfold in_range; lia).
  rewrite !wrap_small by (unfold in_range; lia).
  destruct (Z.ltb_spec n 10) as [Hd|Hd].
  - rewrite (proj2 (Z.leb_gt 100 n)), (proj2 (Z.leb_gt 10 n)), Z.mod_small by lia. done.
  - rewrite (proj2 (Z.leb_le 10 n)) by lia. destruct (Z.ltb_spec (n / 10) 10) as [Hd2|Hd2].
    + rewrite (proj2 (Z.leb_gt 100 n)) by lia. by rewrite (Z.mod_small (n / 10)) by lia.
    + rewrite (proj2 (Z.leb_le 100 n)) by lia. rewrite (proj2 (Z.ltb_lt (n / 10 / 10) 10)) by lia. by rewrite E.
Qed.

(** The thousandth command has the number ":00". *)
Lemma history_thousand : history_digits 1000 = b ":00".
Proof. by vm_compute. Qed.

(** ** Directories *)

(** "/", or names that are not empty and have no slash, each behind a slash. *)
Definition dir_of (names : list (list Z)) : list Z := if bool_decide (names = []) then [47] else concat (map (cons 47) names).
Definition good_name (n : list Z) : Prop := n ≠ [] ∧ 47 ∉ n.

Lemma dir_split names : Forall good_name names → names ≠ [] → split_byte 47 (dir_of names) = [] :: names.
Proof.
  intros H Hne. unfold dir_of. rewrite bool_decide_eq_false_2 by done.
  assert (∀ ns, Forall good_name ns → ns ≠ [] → split_byte 47 (concat (map (cons 47) ns)) = [] :: ns) as Hsp; [|by apply Hsp].
  clear. intros ns H Hne. destruct ns as [|n ns]; [done|]. clear Hne. revert n H. induction ns as [|n' ns IH]; intros n H.
  - apply Forall_cons in H as [[_ Hn] _]. cbn. rewrite app_nil_r, split_byte_word by done. done.
  - apply Forall_cons in H as [[_ Hn] H]. change (concat (map (cons 47) (n :: n' :: ns))) with (47 :: n ++ concat (map (cons 47) (n' :: ns))).
    cbn [split_byte]. rewrite Z.eqb_refl. f_equal. rewrite split_byte_app by done. rewrite IH by done. by rewrite app_nil_r.
Qed.

Lemma join_dir names : names ≠ [] → join_with [47] ([] :: names) = concat (map (cons 47) names).
Proof.
  intros Hne. assert (∀ p ns, join_with [47] (p :: ns) = p ++ concat (map (cons 47) ns)) as H.
  { clear. intros p ns. revert p. induction ns as [|n ns IH]; intros p; [cbn; by rewrite app_nil_r|].
    change (join_with [47] (p :: n :: ns)) with (p ++ [47] ++ join_with [47] (n :: ns)). by rewrite IH. }
  by rewrite H.
Qed.

Lemma dir_of_root names : Forall good_name names → dir_of names = [47] ↔ names = [].
Proof.
  intros H. split; [|by intros ->]. unfold dir_of. case_bool_decide as E; [done|]. destruct names as [|m names]; [done|].
  apply Forall_cons in H as [[Hm _] _]. intros E'%(f_equal length). cbn in E'. rewrite length_app in E'. destruct m; [done|]. cbn in E'. lia.
Qed.

Lemma dir_of_snoc names n : dir_of (names ++ [n]) = concat (map (cons 47) names) ++ 47 :: n.
Proof.
  unfold dir_of. rewrite bool_decide_eq_false_2 by (by destruct names). rewrite map_app, concat_app. cbn. by rewrite app_nil_r.
Qed.

Lemma full_path_dir names n : Forall good_name names → good_name n → full_path (dir_of names) n = dir_of (names ++ [n]).
Proof.
  intros H [Hne Hs]. unfold full_path. rewrite bool_decide_eq_false_2.
  2: { destruct n as [|c n]; [done|]. cbn. intros [= ->]. apply Hs. by left. }
  rewrite dir_of_snoc. case_bool_decide as E.
  - apply dir_of_root in E as ->; done.
  - unfold dir_of in *. case_bool_decide as E2; [done|]. done.
Qed.

Lemma parent_path_dir names n : Forall good_name names → good_name n → parent_path (dir_of (names ++ [n])) = dir_of names.
Proof.
  intros H Hn. unfold parent_path. assert (Forall good_name (names ++ [n])) as Hall by (by apply Forall_app; split; [|constructor]).
  rewrite bool_decide_eq_false_2 by (rewrite dir_of_root by done; by destruct names). rewrite dir_split by (done || by destruct names).
  cbv zeta. replace (length ([] :: names ++ [n]) - 1)%nat with (length ([] :: names)) by (cbn; rewrite length_app; cbn; lia).
  change ([] :: names ++ [n]) with (([] :: names) ++ [n]). rewrite take_app_length. cbn [orb].
  rewrite bool_decide_eq_false_2 by done. unfold dir_of. cbn [orb]. destruct names as [|m names]; [done|].
  rewrite !bool_decide_eq_false_2 by done. by apply join_dir.
Qed.

Section Shells.
Context {K : Type} (trap : Z → Z → Z → Z → Prog K Z) (place : list Z → K → Z * K) (contents : Z → Z → K → list Z).

(** "cd name" and "cd .." lead back, when the kernel accepts both. *)
Theorem cd_up_down names n sh k k1 r1 k2 r2 :
  Forall good_name names → good_name n → n ≠ b ".." → cwd sh = dir_of names →
  chdir trap place (dir_of (names ++ [n])) k = Some (Ok r1, k1) → 0 ≤ r1 → chdir trap place (dir_of names) k1 = Some (Ok r2, k2) → 0 ≤ r2 →
  ∃ sh1 sh2, cmd_cd trap place [n] sh k = Some (Ok sh1, k1) ∧ cwd sh1 = dir_of (names ++ [n]) ∧
    cmd_cd trap place [b ".."] sh1 k1 = Some (Ok sh2, k2) ∧ cwd sh2 = cwd sh.
Proof using Type.
  intros H Hn Hdd Hcwd H1 Hr1 H2 Hr2. exists (mkShell (prompt sh) (history sh) (dir_of (names ++ [n]))), (mkShell (prompt sh) (history sh) (dir_of names)).
  assert (cd_target (cwd sh) n = dir_of (names ++ [n])) as E1.
  { unfold cd_target. rewrite <- (full_path_dir names n) by done. unfold full_path. case_bool_decide; [done|].
    rewrite bool_decide_eq_false_2 by done. by rewrite Hcwd. }
  assert (cd_target (dir_of (names ++ [n])) (b "..") = dir_of names) as E2 by (unfold cd_target; cbn [head]; by rewrite <- (parent_path_dir names n)).
  unfold cmd_cd. cbn [head default from_option id]. split; [|split; [done|split; [|done]]].
  - rewrite E1, (prog_bind_ok _ _ _ _ _ H1), (proj2 (Z.leb_le 0 r1)) by done. done.
  - cbn [cwd prompt history]. rewrite E2, (prog_bind_ok _ _ _ _ _ H2), (proj2 (Z.leb_le 0 r2)) by done. done.
Qed.

(** The directory stays absolute, whatever is executed. *)
Lemma parent_absolute dir : head dir = Some 47 → head (parent_path dir) = Some 47.
Proof using Type.
  intros Hd. unfold parent_path. case_bool_decide; [done|]. cbv zeta. destruct dir as [|c dir]; [done|]. injection Hd as ->.
  cbn [split_byte]. rewrite Z.eqb_refl. pose proof (split_byte_ne 47 dir) as Hne. destruct (split_byte 47 dir) as [|w ws] eqn:E; [done|].
  cbn [length]. replace (Datatypes.S (Datatypes.S (length ws)) - 1)%nat with (Datatypes.S (length ws)) by lia. cbn [take].
  rewrite bool_decide_eq_false_2 by done. cbn [orb]. case_bool_decide as E2; [done|].
  destruct (take (length ws) (w :: ws)) as [|v vs]; [done|]. done.
Qed.

Lemma cd_target_absolute dir path : head dir = Some 47 → head (cd_target dir path) = Some 47.
Proof using Type.
  intros Hd. unfold cd_target, full_path. case_bool_decide; [done|]. case_bool_decide; [by apply parent_absolute|].
  case_bool_decide; [done|]. by destruct dir.
Qed.

Theorem shell_cwd_absolute fuel line sh k go sh' k' :
  head (cwd sh) = Some 47 → execute trap place contents fuel line sh k = Some (Ok (go, sh'), k') → head (cwd sh') = Some 47.
Proof using Type.
  intros Hd. unfold execute. destruct (split_whitespace (trim line)) as [|cmd args]; [by intros [= <- <- <-]|].
  assert (∀ m : Prog K unit, (m ≫= λ _, mret (true, sh)) k = Some (Ok (go, sh'), k') → head (cwd sh') = Some 47) as Hstay.
  { intros m (u & k1 & _ & [= <- <- <-])%prog_bind_inv. done. }
  repeat (case_match; try apply Hstay; try (by intros [= <- <- <-])).
  intros (sh1 & k1 & Hcd & [= <- <- <-])%prog_bind_inv. unfold cmd_cd in Hcd. cbv zeta in Hcd.
  apply prog_bind_inv in Hcd as (r & k2 & _ & Hcd). destruct (0 <=? r).
  - injection Hcd as <- <-. by apply cd_target_absolute.
  - do 3 (apply prog_bind_inv in Hcd as (? & ? & _ & Hcd)). by injection Hcd as <- <-.
Qed.

End Shells.

(** ** Typing a line *)

Definition typed (line : list Z) (c : Z) : list Z :=
  if (c =? 0x7F) || (c =? 8) then take (length line - 1) line else if 0x20 <=? c then line ++ [c] else line.

Lemma chars_fuel_ascii fuel s : (length s ≤ fuel)%nat → Forall ascii s → chars_fuel fuel s = map (λ c, [c]) s.
Proof.
  revert s. induction fuel as [|fuel IH]; intros s Hl Hs; [by destruct s; [|cbn [length] in Hl; lia]|]. destruct s as [|c s]; [done|].
  apply Forall_cons in Hs as [Hc Hs]. unfold ascii in Hc. cbn [chars_fuel map]. unfold utf8_step.
  rewrite (proj2 (Z.ltb_lt c 0x80)) by lia. change (take 1 (c :: s)) with [c]. change (drop 1 (c :: s)) with s. rewrite IH; [done|cbn [length] in Hl; lia|done].
Qed.

Lemma str_pop_ascii s : Forall ascii s → str_pop s = take (length s - 1) s.
Proof.
  intros Hs. unfold str_pop, chars. rewrite chars_fuel_ascii by done. rewrite length_map, firstn_map.
  generalize (take (length s - 1) s). induction l as [|c l IH]; [done|]. cbn. by rewrite IH.
Qed.

Section Typing.
Context {K : Type} (trap : Z → Z → Z → Z → Prog K Z) (place : list Z → K → Z * K).

(** Printing does not fail. *)
Hypothesis writes : ∀ bs k, ∃ r k', write trap place 1 bs k = Some (Ok r, k').

(** Backspace removes the last character, control characters do nothing, and the
    line is complete at its end. *)
Theorem edit_line_spec bs : ∀ line k, Forall ascii line → Forall (λ c, ascii c ∧ c ≠ 10 ∧ c ≠ 13) bs →
  ∃ k', edit_line trap place (bs ++ [10]) line k = Some (Ok (inr (foldl typed line bs)), k').
Proof using All.
  induction bs as [|c bs IH]; intros line k Hl Hbs; cbn [app edit_line foldl].
  - rewrite Z.eqb_refl. cbn [orb]. destruct (writes [10] k) as (r & k' & Hw). exists k'. unfold print.
    erewrite prog_bind_ok; [done|]. by erewrite prog_bind_ok; [|exact Hw].
  - apply Forall_cons in Hbs as [(Hc & H10 & H13) Hbs]. rewrite (proj2 (Z.eqb_neq c 10)), (proj2 (Z.eqb_neq c 13)) by done. cbn [orb].
    unfold typed at 2. destruct ((c =? 0x7F) || (c =? 8)).
    + case_bool_decide as E; [subst line; by apply IH|]. destruct (writes ([8] ++ b " " ++ [8]) k) as (r & k1 & Hw).
      destruct (IH (str_pop line) k1) as (k' & Hk'); [rewrite str_pop_ascii by done; by apply Forall_take|done|]. exists k'.
      rewrite str_pop_ascii in Hk' by done. rewrite <- Hk', <- str_pop_ascii by done.
      erewrite prog_bind_ok; [done|]. unfold print. by erewrite prog_bind_ok; [|exact Hw].
    + destruct (0x20 <=? c); [|by apply IH]. destruct (writes [c] k) as (r & k1 & Hw). unfold ascii in Hc.
      assert (as_char c = [c]) as E.
      { unfold as_char, char_of_u32. rewrite (proj2 (Z.ltb_ge 0x10FFFF c)), (proj2 (Z.leb_gt 0xD800 c)) by lia. cbn [andb orb].
        by rewrite (proj2 (Z.ltb_lt c 0x80)) by lia. }
      destruct (IH (line ++ [c]) k1) as (k' & Hk'); [by apply Forall_app; split; [|constructor]|done|]. exists k'.
      rewrite <- Hk', E. by erewrite prog_bind_ok; [|exact Hw].
Qed.
End Typing.

(** ** Over the kernel *)

Section Kernel.
Context {St I F : Type} `{!InodeOps St I, !FileSystemOps St I F}.
Context (stat_bytes : Stat → list Z) (fuel : nat) (env : nat → Kernel → Kernel).

(** The slices of the program lie at [stack]. *)
Context (stack : Z) (Hstack : 0 < stack).

#[local] Abbreviation System := (@Sys St I F).

Definition kernel_trap (num a1 a2 a3 : Z) : Prog System Z := handle stat_bytes fuel env num a1 a2 a3 0 0.
Definition on_stack (bs : list Z) (s : System) : Z * System := (stack, set_umem (store_bytes (umem s) stack bs) s).
Definition read_memory (p n : Z) (s : System) : list Z := load (umem s) p n.

Lemma load_stored m p bs : load (store_bytes m p bs) p (len bs) = bs.
Proof using Type.
  apply list_eq. intros i. unfold load. rewrite list_lookup_fmap. destruct (decide (i < length bs)%nat) as [Hi|Hi].
  - rewrite lookup_seqZ_lt by (unfold len; lia). cbn. rewrite store_bytes_get, decide_True by (unfold len; lia).
    replace (Z.to_nat (p + (0 + Z.of_nat i) - p)) with i by lia. by destruct (lookup_lt_is_Some_2 bs i Hi) as [x ->].
  - rewrite lookup_seqZ_ge by (unfold len; lia). by rewrite lookup_ge_None_2 by lia.
Qed.

Lemma write_kernel bs s :
  write kernel_trap on_stack 1 bs s =
    Some (Ok (isize (len bs)), mkSyscall (kern s) (files s) (store_bytes (umem s) stack bs) (console s ++ (bs ≫= latin1))).
Proof using Hstack.
  unfold write, at_address, on_stack, syscall3. change (kernel_trap Userspace.SYS_WRITE) with (sys_write (St := St) (I := I) (F := F)).
  unfold sys_write, read_bytes_from_user. change ((1 =? 1) || (1 =? 2)) with true. cbn iota.
  rewrite (proj2 (Z.eqb_neq stack 0)) by lia. change (umem (set_umem (store_bytes (umem s) stack bs) s)) with (store_bytes (umem s) stack bs).
  by rewrite load_stored.
Qed.

(** What is printed reaches the console, when it is ASCII, and only the console and the
    memory of the program change. *)
Theorem print_reaches_console t s : Forall ascii t →
  print kernel_trap on_stack t s = Some (Ok tt, mkSyscall (kern s) (files s) (store_bytes (umem s) stack t) (console s ++ t)).
Proof using Hstack.
  intros Ht. unfold print. erewrite prog_bind_ok; [|apply write_kernel].
  assert (t ≫= latin1 = t) as ->; [|done]. induction Ht as [|c t [H1 H2] Ht IH]; [done|]. cbn. unfold latin1 at 1.
  rewrite (proj2 (Z.ltb_lt c 0x80)) by lia. cbn. f_equal. exact IH.
Qed.

(** Reading is not implemented, so every line is empty and the shell prompts for ever. *)
Lemma shell_no_input n loops sh : ∀ s, run_loop kernel_trap on_stack read_memory n (Datatypes.S loops) sh s = None.
Proof using Hstack.
  induction n as [|n IH]; intros s; cbn [run_loop]; [done|]. unfold print at 1.
  erewrite prog_bind_ok; [|by erewrite prog_bind_ok; [|apply write_kernel]].
  erewrite prog_bind_ok; [cbn [bool_decide]; rewrite bool_decide_eq_true_2 by done; apply IH|].
  unfold read_line. cbn [read_line_from]. by erewrite prog_bind_ok; [|reflexivity].
Qed.

End Kernel.

Module UserspaceExample.

#[local] Notation "'b' s" := (bytes_of_string s) (at level 9, s at level 9, only parsing).

Definition trap0 : Z → Z → Z → Z → Prog (@Sys RamStore Z Z) Z := kernel_trap SyscallExample.no_bytes 0 SyscallExample.no_env.
Definition place0 : list Z → @Sys RamStore Z Z → Z * @Sys RamStore Z Z := on_stack 100.

(** The kernel reads a path up to a zero, which the library does not write: after
    "hello" was printed, [mkdir("/a")] makes "/allo". *)
Lemma path_runs_on :
  match (_ ← print trap0 place0 (b "hello"); mkdir trap0 place0 (b "/a")) SyscallExample.sys0 with
  | Some (Ok 0, s) => (∃ i, (lookup (b "/allo") (files s)).1 = Ok i) ∧ ∃ e, (lookup (b "/a") (files s)).1 = Err e
  | _ => False
  end.
Proof. vm_compute. split; eexists; reflexivity. Qed.

End UserspaceExample.
