(* ===== verification/Startup.v ===== *)
(** * Starting the kernel: [kernel_main] of [main.rs]

    The parts of the kernel with their state before anything runs ([KernelState]), and the
    start: the processor, the memory, the processes, the drivers, the file system, the
    screen, the system calls, and then the desktop or the shell.  The [init] functions
    of [mm/mod.rs], [drivers/mod.rs] and [syscall/mod.rs] are here, the ones they call
    in the files of their parts.  [_rust_start] and [_start64] are the two ways in, and
    the panic handler is the way out.  The text printed on the way on the console and
    the interrupts that arrive meanwhile are left out. *)

From S2P Require Import Prelude Bytes Physical Paging VirtMem Ports.
From S2P Require Process Scheduler Files SystemFS Storage Console Keyboard Mouse Ps2 Graphics Windows Desktop.
From S2P Require Rtl8139 NetStack NetDevice Ata Descriptors Interrupts Machine Boot Str ShellText.

(** ** The state of the kernel

    The devices are one state [devices], shared by the drivers; [card] and [pit] are
    what the drivers keep in memory. *)

Record KernelState (W S D : Type) : Type := mkMachine {
  KERNEL_INITIALIZED : bool;
  devices : W;
  table : arr Descriptors.IdtEntry;
  table_register : option Descriptors.TableRegister;
  interrupts_on : bool;
  pit : Machine.Pit.Pit unit;
  kernel : Scheduler.Kernel;
  mem_stats : MemoryStats;
  heap : Heap;
  kernel_space : option AddressSpace;
  console : Console.Console;
  pointer : Mouse.MouseState;
  drives : list Ata.AtaDevice;
  card : NetDevice.NetCard unit;
  net : NetStack.Net S;
  vfs : SystemFS.SysVFS D;
  gfx : Graphics.Gfx;
  gui : option Windows.GuiState;
}.
Arguments mkMachine {W S D}.
Arguments KERNEL_INITIALIZED {W S D}. Arguments devices {W S D}. Arguments table {W S D}. Arguments table_register {W S D}.
Arguments interrupts_on {W S D}. Arguments pit {W S D}. Arguments kernel {W S D}. Arguments mem_stats {W S D}.
Arguments heap {W S D}. Arguments kernel_space {W S D}. Arguments console {W S D}. Arguments pointer {W S D}.
Arguments drives {W S D}. Arguments card {W S D}. Arguments net {W S D}. Arguments vfs {W S D}. Arguments gfx {W S D}.
Arguments gui {W S D}.

(** The driver's memory with the devices, and without. *)
Definition at_devices {W W' : Type} (w : W') (c : NetDevice.NetCard W) : NetDevice.NetCard W' :=
  let d := NetDevice.card c in
  NetDevice.mkCard (NetDevice.has_card c)
    (Rtl8139.mkNet (Rtl8139.nic d) (Rtl8139.rx_packets d) (Rtl8139.tx_packets d) (Rtl8139.rx_errors d) (Rtl8139.tx_errors d) w).

Definition set_clock {W W' : Type} (w : W') (p : Machine.Pit.Pit W) : Machine.Pit.Pit W' :=
  Machine.Pit.mkPit (Machine.Pit.tick_count p) (Machine.Pit.timer_freq p) w.

Section Setters.
Context {W S D : Type}.
Implicit Types m : KernelState W S D.

Definition set_devices (w : W) m : KernelState W S D :=
  mkMachine (KERNEL_INITIALIZED m) w (table m) (table_register m) (interrupts_on m) (pit m) (kernel m) (mem_stats m) (heap m)
    (kernel_space m) (console m) (pointer m) (drives m) (card m) (net m) (vfs m) (gfx m) (gui m).
Definition set_initialized m : KernelState W S D :=
  mkMachine true (devices m) (table m) (table_register m) (interrupts_on m) (pit m) (kernel m) (mem_stats m) (heap m)
    (kernel_space m) (console m) (pointer m) (drives m) (card m) (net m) (vfs m) (gfx m) (gui m).
Definition set_interrupts (b : bool) m : KernelState W S D :=
  mkMachine (KERNEL_INITIALIZED m) (devices m) (table m) (table_register m) b (pit m) (kernel m) (mem_stats m) (heap m)
    (kernel_space m) (console m) (pointer m) (drives m) (card m) (net m) (vfs m) (gfx m) (gui m).
Definition set_kernel (k : Scheduler.Kernel) m : KernelState W S D :=
  mkMachine (KERNEL_INITIALIZED m) (devices m) (table m) (table_register m) (interrupts_on m) (pit m) k (mem_stats m) (heap m)
    (kernel_space m) (console m) (pointer m) (drives m) (card m) (net m) (vfs m) (gfx m) (gui m).
Definition set_heap (st : MemoryStats) (h : Heap) (a : option AddressSpace) m : KernelState W S D :=
  mkMachine (KERNEL_INITIALIZED m) (devices m) (table m) (table_register m) (interrupts_on m) (pit m) (kernel m) st h
    a (console m) (pointer m) (drives m) (card m) (net m) (vfs m) (gfx m) (gui m).
Definition set_console (c : Console.Console) m : KernelState W S D :=
  mkMachine (KERNEL_INITIALIZED m) (devices m) (table m) (table_register m) (interrupts_on m) (pit m) (kernel m) (mem_stats m)
    (heap m) (kernel_space m) c (pointer m) (drives m) (card m) (net m) (vfs m) (gfx m) (gui m).
Definition put_pointer (p : Mouse.MouseState) m : KernelState W S D :=
  mkMachine (KERNEL_INITIALIZED m) (devices m) (table m) (table_register m) (interrupts_on m) (pit m) (kernel m) (mem_stats m)
    (heap m) (kernel_space m) (console m) p (drives m) (card m) (net m) (vfs m) (gfx m) (gui m).
Definition set_drives (l : list Ata.AtaDevice) m : KernelState W S D :=
  mkMachine (KERNEL_INITIALIZED m) (devices m) (table m) (table_register m) (interrupts_on m) (pit m) (kernel m) (mem_stats m)
    (heap m) (kernel_space m) (console m) (pointer m) l (card m) (net m) (vfs m) (gfx m) (gui m).
Definition replace_net (c : NetDevice.NetCard unit) (n : NetStack.Net S) m : KernelState W S D :=
  mkMachine (KERNEL_INITIALIZED m) (devices m) (table m) (table_register m) (interrupts_on m) (pit m) (kernel m) (mem_stats m)
    (heap m) (kernel_space m) (console m) (pointer m) (drives m) c n (vfs m) (gfx m) (gui m).
Definition put_vfs (v : SystemFS.SysVFS D) m : KernelState W S D :=
  mkMachine (KERNEL_INITIALIZED m) (devices m) (table m) (table_register m) (interrupts_on m) (pit m) (kernel m) (mem_stats m)
    (heap m) (kernel_space m) (console m) (pointer m) (drives m) (card m) (net m) v (gfx m) (gui m).
Definition set_screen (g : Graphics.Gfx) (u : option Windows.GuiState) m : KernelState W S D :=
  mkMachine (KERNEL_INITIALIZED m) (devices m) (table m) (table_register m) (interrupts_on m) (pit m) (kernel m) (mem_stats m)
    (heap m) (kernel_space m) (console m) (pointer m) (drives m) (card m) (net m) (vfs m) g u.

(** The page tables and the frames, which the control blocks of the processes use. *)
Definition pages m : PT FrameAllocator := Process.memory (Scheduler.world (kernel m)).
Definition set_pages (p : PT FrameAllocator) m : KernelState W S D :=
  set_kernel (Scheduler.set_world (Process.set_memory p (Scheduler.world (kernel m))) (kernel m)) m.

Definition to_arch m : Machine.Arch.Arch W :=
  Machine.Arch.mkArch (table m) (table_register m) (mem (pages m)) (set_clock (devices m) (pit m)) (interrupts_on m).

Definition of_arch (a : Machine.Arch.Arch W) m : KernelState W S D :=
  set_pages (mkPT (Machine.Arch.page_memory a) (frames (pages m)))
    (mkMachine (KERNEL_INITIALIZED m) (Machine.Pit.world (Machine.Arch.pit a)) (Machine.Arch.idt a) (Machine.Arch.idtr a) (Machine.Arch.interrupts_on a)
      (set_clock tt (Machine.Arch.pit a)) (kernel m) (mem_stats m) (heap m) (kernel_space m) (console m) (pointer m) (drives m) (card m)
      (net m) (vfs m) (gfx m) (gui m)).

End Setters.

(** ** The steps *)

Section Start.
Context {W S D : Type} `{PortIO W, Rtl8139.Dma W, Machine.RegisterIO W}.
Context `{NetStack.Smoltcp S, NetDevice.SmoltcpNew S, Storage.BlockDevice D}.
Context (fuel : nat) (entry_point : Descriptors.Entry → Z) (at_ : Descriptors.Statics) (L : Layout) (beyond : list Z).

#[local] Abbreviation Mach := (KernelState W S D).

(** [None] when a device is waited for forever. *)
Definition BootStep : Type := Mach → option (res unit * Mach).

Fixpoint run_steps (l : list BootStep) (m : Mach) : option (res unit * Mach) :=
  match l with
  | [] => Some (Ok tt, m)
  | step :: l => '(r, m) ← step m; match r with Ok _ => run_steps l m | _ => Some (r, m) end
  end.

Definition pure_step (f : Mach → Mach) : BootStep := λ m, Some (Ok tt, f m).

(** [early_serial_write], with the line end. *)
Definition serial_line (s : string) : BootStep := λ m,
  w ← Machine.Serial.early_serial_write fuel (bytes_of_string s ++ [13; 10]) (devices m); Some (Ok tt, set_devices w m).

(** [arch::init] *)
Definition init_arch : BootStep := λ m,
  '(r, a) ← Machine.Arch.init fuel entry_point at_ L (to_arch m); Some (r, of_arch a m).

(** [mm::init], which gives the kernel an address space before the heap is there. *)
Definition init_mm (b : BootInfo) : BootStep := pure_step (λ m,
  let st := parse_memory_map b (mem_stats m) in
  let '(fa, st) := FA_init b (frames (pages m)) st in
  let '(space, p) := AddressSpace_new 0 (mkPT (mem (pages m)) fa) in
  set_heap st heap_init space (set_pages p m)).

Definition init_proc : BootStep := λ m,
  Some (match Scheduler.proc_init (kernel m) with
        | Ok k => (Ok tt, set_kernel k m)
        | Err e => (Err e, m)
        | Panic => (Panic, m)
        end).

(** [storage::init]: the drives that answer. *)
Definition init_storage (m : Mach) : Mach := let '(l, w) := Ata.storage_init (devices m) in set_drives l (set_devices w m).

(** [network::init] *)
Definition init_network (m : Mach) : Mach :=
  let '(c, fa, n) := NetDevice.net_init (Scheduler.tick_count (kernel m)) (at_devices (devices m) (card m)) (frames (pages m)) (net m) in
  replace_net (at_devices tt c) n (set_pages (mkPT (mem (pages m)) fa) (set_devices (Rtl8139.net_world (NetDevice.card c)) m)).

Definition init_console (m : Mach) : Mach := set_console (Console.clear (console m)) m.

Definition init_keyboard : BootStep := λ m, w ← Ps2.init_ps2 fuel (devices m); Some (Ok tt, set_devices w m).

(** [drivers::init] *)
Definition init_drivers : BootStep := run_steps [pure_step init_storage; pure_step init_network; pure_step init_console; init_keyboard].

(** [fs::init]: [get_device(0)] is there when a drive answered. *)
Definition init_fs : BootStep := λ m,
  let '(r, v) := SystemFS.sys_init beyond (negb (bool_decide (drives m = []))) (vfs m) in Some (r, put_vfs v m).

(** [drivers::init_graphics] *)
Definition init_graphics (f : Boot.FramebufferInfo) (m : Mach) : Mach :=
  let g := Graphics.init (Boot.fi_address f) (Boot.fi_width f) (Boot.fi_height f) (Boot.fi_pitch f) (Boot.fi_bpp f) (gfx m) in
  let '(p, w) := Ps2.mouse_init (pointer m) (devices m) in
  put_pointer p (set_devices w (set_screen g (gui m) m)).

(** [gui::init] *)
Definition init_gui (m : Mach) : Mach :=
  let f := Graphics.fb (gfx m) in
  if Graphics.address f =? 0 then m
  else
    let m := set_screen (Graphics.init_back_buffer (Graphics.width f) (Graphics.height f) (gfx m)) (Some Desktop.gui_init) m in
    put_pointer (Mouse.set_screen_size (to_signed 32 (Graphics.width f)) (to_signed 32 (Graphics.height f)) (pointer m)) m.

Definition init_screen (f : Boot.FramebufferInfo) : BootStep :=
  pure_step (λ m, if Boot.wants_graphics f then init_gui (init_graphics f m) else m).

(** [syscall::init]: the registers of the SYSCALL instruction.  [entry] is where
    [syscall_entry_x86_64] is. *)
Definition MSR_STAR : Z := 0xC0000081.
Definition MSR_LSTAR : Z := 0xC0000082.
Definition MSR_FMASK : Z := 0xC0000084.

(** The selectors of SYSCALL and SYSRET. *)
Definition star : Z := Z.lor (Z.shiftl 0x08 32) (Z.shiftl 0x1B 48).

Definition init_syscall (entry : Z) : BootStep := pure_step (λ m,
  let w := Machine.wrmsr MSR_STAR star (devices m) in
  let w := Machine.wrmsr MSR_LSTAR entry w in
  set_devices (Machine.wrmsr MSR_FMASK 0x200 w) m).

(** ** [kernel_main] *)

(** It halts when it is entered again; the desktop and the shell run for good, but the
    desktop can be left. *)
Inductive BootOutcome : Type := Halted | RunsDesktop | RunsShell.

(** [scheduler::start] before the shell. *)
Definition start_scheduler (m : Mach) : Mach := set_interrupts true (set_kernel (Scheduler.start (kernel m)) m).

Definition initialize (b : BootInfo) (f : Boot.FramebufferInfo) (entry : Z) : BootStep :=
  run_steps [serial_line "Initializing arch..."; init_arch; init_mm b; init_proc; init_drivers; init_fs; init_screen f; init_syscall entry].

Definition kernel_main (b : BootInfo) (f : Boot.FramebufferInfo) (entry : Z) (m : Mach) : option (res BootOutcome * Mach) :=
  '(_, m) ← serial_line "kernel_main entered" m;
  if KERNEL_INITIALIZED m then
    '(_, m) ← serial_line "PANIC: kernel already initialized!" m; Some (Ok Halted, m)
  else
    '(r, m) ← initialize b f entry (set_initialized m);
    match r with
    | Ok _ => Some (if Graphics.is_available (gfx m) then (Ok RunsDesktop, m) else (Ok RunsShell, start_scheduler m))
    | Err e => Some (Err e, m)
    | Panic => Some (Panic, m)
    end.

(** What follows when the desktop is left. *)
Definition after_desktop (m : Mach) : Mach := start_scheduler m.

(** ** The two entries *)

(** [_start64]; the tags of the boot loader are read as in Boot.v, and its lines are left
    out as there. *)
Definition start64 (mem : Z → Z) (info entry : Z) (m : Mach) : option (res BootOutcome * Mach) :=
  let m := set_devices (Machine.Serial.early_serial_init (devices m)) m in
  c ← Boot.parse_multiboot fuel mem info;
  kernel_main (Boot.boot_info c) (Boot.screen c) entry m.

(** The layout of [MemoryMapEntry] and [BootInfo] in memory; a number that is no
    [MemoryType] is not a value of the type. *)
Definition memory_type_of (n : Z) : option MemoryType :=
  if n <? 1 then None
  else [Available; Reserved; AcpiReclaimable; AcpiNvs; BadMemory; Physical.Kernel; Bootloader; Framebuffer; PageTables] !! Z.to_nat (n - 1).

Definition load_entry (mem : Z → Z) (e : Z) : option MemoryMapEntry :=
  t ← memory_type_of (Boot.rd mem 4 (e + 16)); Some (mkEntry (Boot.rd mem 8 e) (Boot.rd mem 8 (e + 8)) t).

Definition load_boot_info (mem : Z → Z) (p : Z) : option (BootInfo * Boot.FramebufferInfo) :=
  let map_ptr := Boot.rd mem 8 (p + 8) in
  let n := Boot.rd mem 8 (p + 16) in
  es ← (if map_ptr =? 0 then Some None else Some <$> mapM (load_entry mem) (map (λ i, map_ptr + 24 * i) (seqZ 0 n)));
  Some (mkBoot es (Boot.rd mem 8 (p + 56)) (Boot.rd mem 8 (p + 64)),
        Boot.mkFbInfo (Boot.rd mem 8 (p + 24)) (Boot.rd mem 4 (p + 32)) (Boot.rd mem 4 (p + 36)) (Boot.rd mem 4 (p + 40))
          (Boot.rd mem 1 (p + 44))).

(** Without a pointer, a text screen and 128 MB are assumed. *)
Definition default_boot_info : BootInfo := mkBoot None 0x100000 0x200000.

Definition rust_start (mem : Z → Z) (p entry : Z) (m : Mach) : option (res BootOutcome * Mach) :=
  let m := set_devices (Machine.Serial.early_serial_init (devices m)) m in
  '(_, m) ← run_steps [serial_line ""; serial_line "=== CottonOS Boot ==="] m;
  if p =? 0 then
    '(_, m) ← serial_line "Using default boot info" m; kernel_main default_boot_info Boot.vga_text entry m
  else
    '(_, m) ← serial_line "Boot info from bootloader" m;
    '(b, f) ← load_boot_info mem p; kernel_main b f entry m.

(** ** [panic] *)

Definition panic_text (location : option (list Z * Z * Z)) (message : list Z) : list Z :=
  let b := bytes_of_string in
  let line s := s ++ [10] in
  line [] ++ line (b "+==========================================================+")
  ++ line (b "|                    KERNEL PANIC                          |")
  ++ line (b "+==========================================================+")
  ++ match location with
     | Some (file, l, c) => line (b "Location: " ++ file ++ b ":" ++ ShellText.decimal l ++ b ":" ++ ShellText.decimal c)
     | None => []
     end
  ++ line (b "Message: " ++ message) ++ line [] ++ line (b "System halted.").

(** The processor then halts with interrupts off. *)
Definition panic (location : option (list Z * Z * Z)) (message : list Z) (m : Mach) : Mach :=
  let m := set_interrupts false m in
  set_console (Console.write_str (panic_text location message) (console m)) m.

End Start.
