(* ===== verification/StartupSpec.v ===== *)
(** * What the start establishes

    The invariants of the parts hold together when [kernel_main] has run the
    initialisations: [boot_ready].  Each step is followed by what it keeps of the
    others, as a relation of the states before and after ([Along]). *)

From S2P Require Import Prelude Bytes Physical Paging VirtMem Ports Startup.
From S2P Require Process Scheduler SchedulerSpec Files SystemFS Storage Console Mouse Ps2 Graphics Desktop.
From S2P Require NetStackSpec MachineSpec InterruptSpec BootSpec.
From S2P Require Rtl8139 NetStack NetDevice Ata Descriptors Machine Boot.

(** ** Computations along a preorder *)

Definition Along {T A : Type} (R : relation T) (m : M T A) : Prop := ∀ s, R s (m s).2.

Section Along.
Context {T : Type} (R : relation T) `{!PreOrder R}.

Lemma along_ret {A} (a : A) : Along R (mret a).
Proof using All. by intros s. Qed.

Lemma along_get : Along R m_get.
Proof using All. by intros s. Qed.

Lemma along_fail {A} e : Along (A := A) R (m_fail e).
Proof using All. by intros s. Qed.

Lemma along_lift {A} (r : res A) : Along R (m_lift r).
Proof using All. by intros s. Qed.

Lemma along_guard b e : Along R (m_guard b e).
Proof using All. unfold m_guard. destruct b; [apply along_ret|apply along_fail]. Qed.

Lemma along_bind {A B} (m : M T A) (f : A → M T B) : Along R m → (∀ a, Along R (f a)) → Along R (mbind f m).
Proof using All.
  intros Hm Hf s. specialize (Hm s). unfold mbind, M_bind. destruct (m s) as [[a|e|] s1]; [|exact Hm..]. etrans; [exact Hm|apply Hf].
Qed.

Lemma along_ignore {A} (m : M T A) : Along R m → Along R (m_ignore m).
Proof using All. intros Hm s. specialize (Hm s). unfold m_ignore. destruct (m s) as [[a|e|] s1]; exact Hm. Qed.

End Along.

Create HintDb along.
#[local] Hint Resolve along_ret along_get along_fail along_lift along_guard along_ignore : along.
#[local] Hint Extern 1 (PreOrder _) => apply _ : along.

(** A bind is along the relation when its parts are. *)
#[local] Ltac along :=
  repeat match goal with |- Along _ (mbind _ _) => apply along_bind; [apply _| |intros ?] end; eauto with along.

(** ** The file system *)

Section Vfs.
Context {S I F : Type} `{!Vfs.InodeOps S I, !Vfs.FileSystemOps S I F}.
Import Files.

(** The root stays and mounts are only added. *)
Definition mounts_grow (v v' : VFS S I F) : Prop := vfs_root v' = vfs_root v ∧ mounts v `prefix_of` mounts v'.

#[local] Instance mounts_grow_pre : PreOrder mounts_grow.
Proof. split; [done|]. intros a b c [H1 H2] [H3 H4]. split; [congruence|by etrans]. Qed.

Lemma on_store_along {A} (m : M S A) : Along mounts_grow (on_store m).
Proof using Type. intros v. unfold on_store. by destruct (m (store v)). Qed.

#[local] Hint Resolve on_store_along : along.

Lemma lookup_along path : Along mounts_grow (lookup path).
Proof using Type.
  unfold lookup. along. case_bool_decide; [along|].
  destruct (find_mount _ path) as [[start remaining]|]; [case_match; along|along].
Qed.

#[local] Hint Resolve lookup_along : along.

Lemma in_parent_along {A} (op : I → list Z → M S A) path : Along mounts_grow (in_parent op path).
Proof using Type. unfold in_parent. destruct (split_path path). along. Qed.

#[local] Hint Resolve in_parent_along : along.

Lemma ensure_dir_along d : Along mounts_grow (ensure_dir d).
Proof using Type.
  intros v. unfold ensure_dir. pose proof (lookup_along d v) as Hl. destruct (lookup d v) as [[i|e|] v1]; try exact Hl.
  etrans; [exact Hl|]. apply along_ignore, in_parent_along. apply _.
Qed.

Lemma write_file_along p data : Along mounts_grow (write_file p data).
Proof using Type.
  unfold write_file. apply along_bind; [apply _| |intros ?; along].
  intros v. unfold open_or_create. pose proof (lookup_along p v) as Hl. destruct (lookup p v) as [[i|e|] v1]; try exact Hl.
  - etrans; [exact Hl|]. revert v1 Hl. intros v1 _. revert v1. change (Along mounts_grow (m_ignore (on_store (Vfs.inode_truncate i 0));; mret i)). along.
  - etrans; [exact Hl|]. apply in_parent_along.
Qed.

Lemma ensure_file_along p data : Along mounts_grow (ensure_file p data).
Proof using Type.
  intros v. unfold ensure_file. pose proof (lookup_along p v) as Hl. destruct (lookup p v) as [[i|e|] v1]; try exact Hl.
  etrans; [exact Hl|]. apply along_ignore, write_file_along. apply _.
Qed.

Lemma ensure_dirs_along ds : Along mounts_grow (ensure_dirs ds).
Proof using Type. induction ds as [|d ds IH]; cbn; along. apply ensure_dir_along. Qed.

(** After [fs::init] the root file system is the root, and mounted on "/". *)
Lemma fs_init_root rootfs devfs (v v' : VFS S I F) : mounts v = [] → fs_init rootfs devfs v = (Ok tt, v') →
  ∃ r rest, vfs_root v' = Some r ∧ mounts v' = mkMount [slash] rootfs r :: rest.
Proof using Type.
  intros Hm (r & v1 & E1 & E)%M_bind_Ok. apply M_bind_Ok in E as ([] & v2 & [= <-] & E).
  assert (mounts v1 = []) as Hm1.
  { unfold m_expect, on_store in E1. destruct (Vfs.fs_root rootfs (store v)) as [[r0|e|] s]; [|done..]. by injection E1 as <- <-. }
  set (v2 := mkVFS _ _ _) in E.
  match type of E with ?m v2 = _ => assert (Along mounts_grow m) as Ha end.
  { unfold create_directory_structure, create_system_files. along; try apply ensure_dirs_along; try apply ensure_file_along.
    apply along_ignore; [apply _|]. unfold mount. along. intros v3. cbn. split; [done|]. by apply prefix_app_r. }
  specialize (Ha v2). rewrite E in Ha. destruct Ha as [H1 [rest H2]]. exists r, rest. unfold v2 in *. cbn in *. by rewrite Hm1 in H2.
Qed.

End Vfs.

(** ** The frames *)

(** The allocator stays in order and has no new free frames. *)
Definition shrinks (fa fa' : FrameAllocator) : Prop :=
  alloc_inv fa → alloc_inv fa' ∧ ∀ b, fs_avail fa' b → fs_avail fa b.

#[local] Instance shrinks_pre : PreOrder shrinks.
Proof. split; [done|]. intros a b c H1 H2 Ha. destruct (H1 Ha) as [Hb Hs]. destruct (H2 Hb) as [Hc Hs']. auto. Qed.

Lemma alloc_contiguous_shrinks n fa : 1 ≤ n → shrinks fa (alloc_contiguous n fa).2.
Proof.
  intros Hn Hi. split; [by apply alloc_inv_alloc_contiguous|]. destruct Hi as [Hc Hh].
  pose proof (alloc_contiguous_result fa n Hn Hh) as Hr. destruct (alloc_contiguous n fa) as [[a|] fa']; cbn [fst snd] in *.
  - destruct Hr as (s & _ & _ & _ & _ & _ & Hq). intros b (Hb & Hm & Hf). split; [done|]. split; [done|].
    unfold is_free in *. rewrite Hq in Hf by (by apply Z.div_pos). by destruct (bool_decide _).
  - by destruct Hr as [-> _].
Qed.

Lemma alloc_shrinks fa : shrinks fa (alloc fa).2.
Proof.
  intros Hi. split; [by apply alloc_inv_alloc|]. destruct (alloc fa) as [[a|] fa'] eqn:E; cbn [snd].
  - destruct (alloc_frame_effect fa a fa' Hi E) as (Ha & _ & _ & _ & Hb). intros b Hf.
    destruct (decide (b = a)) as [->|]; [done|]. by apply Hb.
  - by destruct (@fs_alloc_none _ _ FrameAllocator_laws fa fa' Hi E) as [-> _].
Qed.

Lemma free_page_shrinks fa fa' q : shrinks fa fa' → alloc_inv fa → 0 ≤ q → is_free fa' q = true → is_free fa q = true.
Proof.
  intros Hs Hi Hq Hf. destruct (Hs Hi) as [_ Hav].
  destruct (decide (q < MAX_PAGES)) as [Hlt|Hlt]; [|by unfold is_free, is_allocated in Hf; rewrite (proj2 (Z.leb_le _ _)) in Hf by lia].
  destruct (Hav (q * PAGE_SIZE)) as (_ & _ & Hfree).
  { cbn. rewrite Z.mod_mul, Z.div_mul by done. split_and!; [unfold PAGE_SIZE; lia|done|done]. }
  by rewrite Z.div_mul in Hfree.
Qed.

Section Nic.
Context {W : Type} `{PortIO W, Rtl8139.Dma W}.

Definition frames_shrink (s s' : W * FrameAllocator) : Prop := shrinks s.2 s'.2.

#[local] Instance frames_shrink_pre : PreOrder frames_shrink.
Proof. unfold frames_shrink. split; [by intros s|]. intros a b c H1 H2. by etrans. Qed.

Lemma on_world_along {A} (m : M W A) : Along frames_shrink (Rtl8139.on_world m).
Proof using Type. intros [w fa]. unfold Rtl8139.on_world. destruct (m w) as [r w']. unfold frames_shrink. done. Qed.

Lemma alloc_ring_along : Along frames_shrink Rtl8139.alloc_ring.
Proof using Type.
  intros [w fa]. unfold Rtl8139.alloc_ring, frames_shrink. pose proof (alloc_contiguous_shrinks 3 fa ltac:(lia)) as Hs.
  by destruct (alloc_contiguous 3 fa).
Qed.

Lemma alloc_tx_along k : Along frames_shrink (Rtl8139.alloc_tx k).
Proof using Type.
  induction k as [|k IH]; [by intros s|]. intros [w fa]. cbn [Rtl8139.alloc_tx]. pose proof (alloc_shrinks fa) as Hs.
  destruct (alloc fa) as [r fa1]. etrans; [exact (Hs : frames_shrink (w, fa) (w, fa1))|].
  match goal with |- frames_shrink _ (?m _).2 => change (frames_shrink (w, fa1) (m (w, fa1)).2); cut (Along frames_shrink m); [intros Hm; apply Hm|] end.
  along.
Qed.

Lemma start_card_along n : Along frames_shrink (Rtl8139.start_card n).
Proof using Type.
  intros [w fa]. unfold Rtl8139.start_card, frames_shrink. destruct (Rtl8139.program true n w) as [n' w']. by destruct (Rtl8139.read_mac _ _).
Qed.

#[local] Hint Resolve on_world_along alloc_ring_along alloc_tx_along start_card_along : along.

Lemma nic_init_along : Along frames_shrink Rtl8139.nic_init.
Proof using Type. unfold Rtl8139.nic_init. along. match goal with |- Along _ (let '(_, _) := ?x in _) => destruct x end. along. Qed.

End Nic.

(** ** The page tables *)

Section Tables.
Variable L : Layout.

(** The tables read the same. *)
Definition same_tables (own : gmap Z (list Z)) (m m' : gmap Z Z) : Prop :=
  ∀ t π i, own !! t = Some π → 0 ≤ i < 512 → rd m' (slot t i) = rd m (slot t i).

Lemma walk_same own (s : PT FrameAllocator) m' n : pt_wf L own s → same_tables own (mem s) m' →
  ∀ t π v, own !! t = Some π → (length π + n = 4)%nat → walk m' n t v = walk (mem s) n t v.
Proof.
  intros W Hs. induction n as [|n IH]; intros t π v Ht Hl; [done|]. cbn [walk].
  pose proof (idx_range (3 - n) v) as Hi. rewrite (Hs t π _ Ht Hi). set (e := rd (mem s) (slot t (idx (3 - n) v))).
  destruct (is_present e) eqn:Ep; [|done]. cbn [negb].
  destruct (bool_decide (n = 0%nat) || bool_decide (n < 3)%nat && is_huge e) eqn:El; [done|].
  apply orb_false_iff in El as [En%bool_decide_eq_false El].
  destruct (wf_entry L own s W t π (idx (3 - n) v) Ht Hi ltac:(lia) Ep) as [[H2 Hh]|[_ Hc]].
  - fold e in Hh. rewrite Hh, bool_decide_true in El by lia. done.
  - fold e in Hc. apply IH with (child π (idx (3 - n) v)); [done|]. rewrite child_length. lia.
Qed.

Lemma translate_same own (s : PT FrameAllocator) m' v : pt_wf L own s → same_tables own (mem s) m' →
  translate L m' v = translate L (mem s) v.
Proof. intros W Hs. rewrite !translate_walk. by rewrite (walk_same own s m' 4 W Hs _ [] v (wf_root _ _ _ W)). Qed.

Lemma pt_wf_shrinks own m fr fr' : pt_wf L own (mkPT m fr) → shrinks fr fr' → pt_wf L own (mkPT m fr').
Proof.
  intros W Hs. destruct (Hs (wf_frames L own _ W)) as [Hi Hav]. split; cbn [mem frames].
  - apply W.
  - intros t π Ht. destruct (wf_table L own _ W t π Ht) as (? & ? & Hn & ?). split_and!; try done; try lia. intros Hb. by apply Hn, Hav.
  - apply W.
  - exact Hi.
Qed.

Lemma pt_wf_same own m m' (fr : FrameAllocator) : pt_wf L own (mkPT m fr) → same_tables own m m' → pt_wf L own (mkPT m' fr).
Proof.
  intros W Hs. split; cbn [mem frames]; try apply W. intros t π i Ht Hi Hl. rewrite (Hs t π i Ht Hi). by apply (wf_entry L own _ W).
Qed.

(** The kernel's address space gets a table of its own. *)
Lemma address_space_tables own p (s : PT FrameAllocator) : pt_wf L own s →
  let '(a, s') := AddressSpace_new p s in
  pt_wf L own s' ∧ same_tables own (mem s) (mem s') ∧ shrinks (frames s) (frames s').
Proof.
  intros W. unfold AddressSpace_new. pose proof (alloc_shrinks (frames s)) as Hs. cbn [fs_alloc FrameAllocator_source].
  destruct (alloc (frames s)) as [[a|] fr] eqn:E; cbn [snd] in Hs; cbn [mem frames].
  - destruct (pt_wf_data L own s a fr W E) as (W' & Hn & _ & _ & _ & Ha & _).
    assert (same_tables own (mem s) (zero_table a (mem s))) as Ht.
    { intros t π i Ht Hi. destruct (wf_table L own s W t π Ht) as (_ & Hm & _).
      apply rd_zero_table_out; [congruence|done|done|done]. }
    split; [by apply pt_wf_same with (mem s)|done].
  - split; [|done]. destruct s as [m f]. by apply pt_wf_shrinks with f.
Qed.

(** A control block takes frames for its stack. *)
Lemma new_kernel_pages name (w : Process.World) : let '(_, w') := Process.new_kernel name w in
  mem (Process.memory w') = mem (Process.memory w) ∧ shrinks (frames (Process.memory w)) (frames (Process.memory w')).
Proof.
  unfold Process.new_kernel, Process.alloc_pid, Process.alloc_frames. cbn [Process.memory].
  pose proof (alloc_contiguous_shrinks 4 (frames (Process.memory w)) ltac:(lia)) as Hs.
  by destruct (alloc_contiguous 4 _) as [[]].
Qed.

Lemma proc_init_pages k k' : Scheduler.proc_init k = Ok k' →
  let p := Process.memory (Scheduler.world k) in let p' := Process.memory (Scheduler.world k') in
  mem p' = mem p ∧ shrinks (frames p) (frames p').
Proof.
  unfold Scheduler.proc_init. pose proof (new_kernel_pages "init" (Scheduler.world k)) as H1.
  destruct (Process.new_kernel "init" (Scheduler.world k)) as [[i|] w1]; [|done]. intros [= <-]. unfold Scheduler.sched_init.
  cbn [Scheduler.world Scheduler.set_world Scheduler.set_processes].
  pose proof (new_kernel_pages "idle" w1) as H2. destruct H1 as [E1 S1].
  destruct (Process.new_kernel "idle" w1) as [[d|] w2]; destruct H2 as [E2 S2];
    (split; [etrans; [exact E2|exact E1]|etrans; [exact S1|exact S2]]).
Qed.

End Tables.

(** ** The steps *)

Section Steps.
Context {W S D : Type} `{PortIO W, HD : Rtl8139.Dma W, Machine.RegisterIO W}.
Context `{NetStack.Smoltcp S, NetDevice.SmoltcpNew S, Storage.BlockDevice D}.
Context (fuel : nat) (entry_point : Descriptors.Entry → Z) (at_ : Descriptors.Statics) (L : Layout) (beyond : list Z).

#[local] Abbreviation Mach := (KernelState W S D).
Implicit Types m : Mach.

Lemma run_steps_cons step l m m' : run_steps (step :: l) m = Some (Ok tt, m') →
  ∃ m1, step m = Some (Ok tt, m1) ∧ run_steps l m1 = Some (Ok tt, m').
Proof using Type.
  cbn [run_steps]. destruct (step m) as [[[[]|e|] m1]|]; cbn; try done. eauto.
Qed.

Lemma pure_step_spec (f : Mach → Mach) m r m' : pure_step f m = Some (r, m') → m' = f m.
Proof using Type. unfold pure_step. by intros [= _ <-]. Qed.

Lemma say_spec s m r m' : serial_line fuel s m = Some (r, m') → ∃ w, m' = set_devices w m ∧ r = Ok tt.
Proof using Type. unfold serial_line. destruct (Machine.Serial.early_serial_write _ _ _) as [w|]; [|done]. intros [= <- <-]. eauto. Qed.

(** [arch::init] sets up the tables and turns interrupts on. *)
Lemma then_ok (a b : Machine.Arch.Step (W := W)) s s' : Machine.Arch.then_ a b s = Some (Ok tt, s') →
  ∃ s1, a s = Some (Ok tt, s1) ∧ b s1 = Some (Ok tt, s').
Proof using Type. unfold Machine.Arch.then_. destruct (a s) as [[[[]|e|] s1]|]; cbn; try done. eauto. Qed.

Lemma on_ports_memory f (s s' : Machine.Arch.Arch W) : Machine.Arch.on_ports f s = Some (Ok tt, s') →
  Machine.Arch.page_memory s' = Machine.Arch.page_memory s ∧ Machine.Arch.interrupts_on s' = Machine.Arch.interrupts_on s.
Proof using Type. unfold Machine.Arch.on_ports. destruct (f _); [|done]. by intros [= <-]. Qed.

Lemma arch_init_ok (s s' : Machine.Arch.Arch W) : Machine.Arch.init fuel entry_point at_ L s = Some (Ok tt, s') →
  Machine.Arch.page_memory s' = paging_init L (Machine.Arch.page_memory s) ∧ Machine.Arch.interrupts_on s' = true.
Proof using Type.
  unfold Machine.Arch.init. intros E.
  repeat match type of E with Machine.Arch.then_ _ _ _ = _ => apply then_ok in E as (? & ? & E) end.
  repeat match goal with
  | X : Machine.Arch.say _ _ _ = _ |- _ => apply on_ports_memory in X as [? ?]
  | X : Machine.Arch.on_ports _ _ = _ |- _ => apply on_ports_memory in X as [? ?]
  | X : Machine.Arch.step_paging _ _ = _ |- _ => injection X as <-
  | X : Machine.Arch.enable_interrupts _ = _ |- _ => injection X as <-
  | X : Machine.Arch.step_idt _ _ _ = _ |- _ => unfold Machine.Arch.step_idt in X; destruct (Interrupts.idt_init _ _ _ _) as [[? ?] ?]; injection X as <-
  | X : Machine.Arch.step_pit _ = _ |- _ =>
      unfold Machine.Arch.step_pit in X; destruct (Machine.Pit.pit_init _ _) as [? ?]; injection X as -> <-
  end.
  cbn in *. split; congruence.
Qed.

(** Before anything has run. *)
Record cold m : Prop := mk_cold {
  cold_flag : KERNEL_INITIALIZED m = false;
  cold_kernel : ∃ memory, kernel m = SchedulerSpec.Kernel_boot (mkPT memory new);
  cold_card : NetDevice.has_card (card m) = false;
  cold_stack : NetStack.stack (net m) = None;
  cold_mounts : Files.mounts (vfs m) = [];
  cold_screen : Graphics.is_available (gfx m) = false;
}.

(** What the first steps leave: the flag, interrupts, memory and processes. *)
Record core_ready b m0 m : Prop := mk_core_ready {
  core_flag : KERNEL_INITIALIZED m = true;
  core_irq : interrupts_on m = true;
  core_heap : heap m = heap_init;
  core_tables : pt_wf L (own_init L) (pages m);
  core_same : same_tables (own_init L) (paging_init L (mem (pages m0))) (mem (pages m));
  core_frames : ∀ p, 0 ≤ p → is_free (frames (pages m)) p = true → boot_available b p = true ∧ boot_reserved b p = false;
  core_sched : SchedulerSpec.sched_inv (kernel m);
}.

(** The rest is as before. *)
Definition rest_same m m' : Prop := card m' = card m ∧ net m' = net m ∧ vfs m' = vfs m ∧ gfx m' = gfx m ∧ gui m' = gui m.

Lemma memory_ready b (pm : gmap Z Z) p1 :
  0 ≤ kernel_start b → layout_ok L → statics_zero L pm → (∀ t, is_static L t → boot_reserved b (t / PAGE_SIZE) = true) →
  let '(fa, st) := FA_init b new p1 in
  let '(space, p) := AddressSpace_new 0 (mkPT (paging_init L pm) fa) in
  pt_wf L (own_init L) p ∧ same_tables (own_init L) (paging_init L pm) (mem p) ∧
  ∀ q, 0 ≤ q → is_free (frames p) q = true → boot_available b q = true ∧ boot_reserved b q = false.
Proof using Type.
  intros Hk HL Hz Hs. pose proof (FA_init_alloc_inv b p1 Hk) as Hi. pose proof (λ q Hq, FA_init_bitmap b p1 q Hq Hk) as Hb.
  destruct (FA_init b new p1) as [fa st]. cbn [fst] in *.
  assert (pt_wf L (own_init L) (mkPT (paging_init L pm) fa)) as W0.
  { apply paging_init_wf; [done|done|exact Hi|]. intros t Ht (? & _ & Hf). rewrite Hb in Hf by (by apply Z.div_pos).
    rewrite (Hs t Ht), andb_false_r in Hf. done. }
  pose proof (address_space_tables L (own_init L) 0 _ W0) as Ha.
  destruct (AddressSpace_new 0 (mkPT (paging_init L pm) fa)) as [space p]. destruct Ha as (W' & Ht & Hsh).
  split; [done|]. split; [done|]. intros q Hq Hf. apply (free_page_shrinks fa _ q Hsh Hi Hq) in Hf.
  rewrite Hb in Hf by done. apply andb_true_iff in Hf as [? ?%negb_true_iff]. done.
Qed.

Lemma arch_step_spec m m' : init_arch fuel entry_point at_ L m = Some (Ok tt, m') →
  ∃ a, m' = of_arch a m ∧ Machine.Arch.page_memory a = paging_init L (mem (pages m)) ∧ Machine.Arch.interrupts_on a = true.
Proof using Type.
  unfold init_arch. destruct (Machine.Arch.init fuel entry_point at_ L (to_arch m)) as [[r a]|] eqn:Ea; [|done].
  intros E. injection E as -> <-. exists a. split; [done|]. exact (arch_init_ok _ _ Ea).
Qed.

(** [mm::init] and [proc::init] on a kernel that has nothing. *)
Lemma mm_proc_spec b m m2 m3 memory : init_mm b m = Some (Ok tt, m2) → init_proc m2 = Some (Ok tt, m3) →
  kernel m = SchedulerSpec.Kernel_boot (mkPT memory new) →
  let '(fa, st) := FA_init b new (parse_memory_map b (mem_stats m)) in
  let '(space, p) := AddressSpace_new 0 (mkPT memory fa) in
  ∃ k, Scheduler.proc_init (SchedulerSpec.Kernel_boot p) = Ok k ∧ m3 = set_kernel k (set_heap st heap_init space (set_pages p m)).
Proof using Type.
  intros E2 E3 Hk. unfold init_mm, pure_step, pages in E2. rewrite Hk in E2.
  change (frames _) with new in E2. change (mem _) with memory in E2.
  destruct (FA_init b new _) as [fa st]. destruct (AddressSpace_new 0 _) as [space p]. injection E2 as <-.
  unfold init_proc in E3.
  match type of E3 with context [Scheduler.proc_init ?k] => assert (k = SchedulerSpec.Kernel_boot p) as Hk4 end.
  { unfold set_heap, set_pages, set_kernel. cbn [kernel]. by rewrite Hk. }
  rewrite Hk4 in E3. destruct (Scheduler.proc_init (SchedulerSpec.Kernel_boot p)) as [k|e|]; [|done..].
  exists k. split; [done|]. by injection E3 as <-.
Qed.

Lemma core_steps b l m m' :
  cold m → 0 ≤ kernel_start b → layout_ok L → statics_zero L (mem (pages m)) →
  (∀ t, is_static L t → boot_reserved b (t / PAGE_SIZE) = true) →
  run_steps (serial_line fuel "Initializing arch..." :: init_arch fuel entry_point at_ L :: init_mm b :: init_proc :: l) (set_initialized m) =
    Some (Ok tt, m') →
  ∃ m4, core_ready b m m4 ∧ rest_same m m4 ∧ run_steps l m4 = Some (Ok tt, m').
Proof using Type.
  intros [Hflag [memory Hkern] _ _ _ _] Hks HL Hz Hst E.
  apply run_steps_cons in E as (m1 & E1 & E). apply say_spec in E1 as (w & -> & _).
  apply run_steps_cons in E as (m2 & E2 & E). apply arch_step_spec in E2 as (a & -> & Hpm & Hirq).
  apply run_steps_cons in E as (m3 & E3 & E). apply run_steps_cons in E as (m4 & E4 & E). exists m4.
  assert (mem (pages m) = memory) as Hmem0 by (unfold pages; by rewrite Hkern).
  assert (pages (set_devices w (set_initialized m)) = mkPT memory new) as Hp1 by (unfold pages; cbn [kernel set_devices set_initialized]; by rewrite Hkern).
  rewrite Hp1 in Hpm. cbn [mem] in Hpm. rewrite Hmem0 in Hz.
  pose proof (mm_proc_spec b _ _ _ (paging_init L memory) E3 E4) as Hmp.
  pose proof (memory_ready b memory (parse_memory_map b (mem_stats m)) Hks HL Hz Hst) as Hm.
  unfold of_arch at 1 in Hmp. rewrite Hp1 in Hmp. cbn [frames] in Hmp. rewrite Hpm in Hmp.
  specialize (Hmp ltac:(unfold set_pages; cbn [kernel set_kernel set_devices set_initialized]; by rewrite Hkern)).
  change (mem_stats _) with (mem_stats m) in Hmp.
  destruct (FA_init b new _) as [fa st]. destruct (AddressSpace_new 0 _) as [space p]. destruct Hm as (W' & Ht & Hf).
  destruct Hmp as (k & Ek & ->).
  pose proof (SchedulerSpec.proc_init_inv p k Ek) as Hinv. destruct (proc_init_pages _ _ Ek) as [Hmem Hsh]. cbn in Hmem, Hsh.
  split; [|split; [by repeat split|exact E]].
  assert (alloc_inv (frames p)) as Hi by apply (wf_frames L _ _ W'). destruct (Hsh Hi) as [Hi' Hav].
  split; unfold pages; cbn.
  - done.
  - done.
  - done.
  - destruct (Process.memory (Scheduler.world k)) as [mk fk]. cbn in *. subst mk. apply pt_wf_shrinks with (frames p); [|done].
    by destruct p.
  - unfold pages in Hmem0. rewrite Hmem, Hmem0. exact Ht.
  - intros q Hq Hfree. apply Hf; [done|]. apply (free_page_shrinks _ _ q Hsh Hi Hq Hfree).
  - done.
Qed.

(** ** The drivers and what follows *)

(** The core stays ready. *)
Record core_keeps m m' : Prop := mk_core_keeps {
  keeps_flag : KERNEL_INITIALIZED m' = KERNEL_INITIALIZED m;
  keeps_irq : interrupts_on m' = interrupts_on m;
  keeps_heap : heap m' = heap m;
  keeps_mem : mem (pages m') = mem (pages m);
  keeps_frames : shrinks (frames (pages m)) (frames (pages m'));
  keeps_sched : SchedulerSpec.sched_inv (kernel m) → SchedulerSpec.sched_inv (kernel m');
}.

Lemma core_keeps_ready b m0 m m' : core_ready b m0 m → core_keeps m m' → core_ready b m0 m'.
Proof using Type.
  intros [Hf Hi Hh Ht Hs Hfr Hsc] [Kf Ki Kh Km Kfr Ks].
  assert (alloc_inv (frames (pages m))) as Hinv by apply (wf_frames L _ _ Ht).
  split; try congruence.
  - destruct (pages m') as [mk fk], (pages m) as [mm fm]. cbn in *. subst. by apply pt_wf_shrinks with fm.
  - by rewrite Km.
  - intros q Hq Hfree. apply Hfr; [done|]. by apply (free_page_shrinks _ _ q Kfr Hinv).
  - auto.
Qed.

Lemma sched_inv_pages p k : SchedulerSpec.sched_inv k →
  SchedulerSpec.sched_inv (Scheduler.set_world (Process.set_memory p (Scheduler.world k)) k).
Proof using Type. intros [[] Hc Hr]. split; [by split|exact Hc|exact Hr]. Qed.

Lemma core_keeps_same m m' : KERNEL_INITIALIZED m' = KERNEL_INITIALIZED m → interrupts_on m' = interrupts_on m →
  heap m' = heap m → kernel m' = kernel m → core_keeps m m'.
Proof using Type. intros Hf Hi Hh Hk. split; try done; unfold pages; by rewrite Hk. Qed.

(** [network::init] takes frames, and the stack comes with the card. *)
Lemma network_init_spec m m' : NetDevice.has_card (card m) = false → NetStack.stack (net m) = None → m' = init_network m →
  core_keeps m m' ∧ NetDevice.consistent (card m') (net m') ∧ vfs m' = vfs m ∧ gfx m' = gfx m ∧ gui m' = gui m.
Proof using HD.
  intros Hc Hs ->. unfold init_network.
  pose proof (NetDevice.net_init_spec (Scheduler.tick_count (kernel m)) (at_devices (devices m) (card m)) (frames (pages m)) (net m) Hc Hs)
    as Hn.
  pose proof (nic_init_along (Rtl8139.net_world (NetDevice.card (at_devices (devices m) (card m))), frames (pages m))) as Hf.
  destruct (NetDevice.net_init _ _ _ _) as [[c fa] n]. destruct Hn as (Hcons & _ & Hr).
  assert (shrinks (frames (pages m)) fa) as Hsh.
  { unfold frames_shrink in Hf. cbn [snd] in Hf. destruct (Rtl8139.nic_init _) as [[dr|e|] [w fa1]]; cbn [snd] in Hf; by destruct Hr as [-> _]. }
  split; [|split; [exact Hcons|done]]. split; [done..| |].
  - unfold pages. cbn. exact Hsh.
  - cbn. apply sched_inv_pages.
Qed.

(** What the steps after the core are to do: the interface comes with the card, the
    root file system is mounted, and the screen is used when it can be. *)
Record rest_ready f m : Prop := mk_rest_ready {
  rest_net : NetDevice.consistent (card m) (net m);
  rest_root : ∃ r fs rest, Files.vfs_root (vfs m) = Some r ∧ Files.mounts (vfs m) = Files.mkMount [Files.slash] fs r :: rest;
  rest_screen : Graphics.is_available (gfx m) = Boot.wants_graphics f && negb (Boot.fi_address f =? 0);
  rest_gui : Graphics.is_available (gfx m) = true → gui m = Some Desktop.gui_init;
}.

Lemma drivers_spec m m' : NetDevice.has_card (card m) = false → NetStack.stack (net m) = None → init_drivers fuel m = Some (Ok tt, m') →
  core_keeps m m' ∧ NetDevice.consistent (card m') (net m') ∧ vfs m' = vfs m ∧ gfx m' = gfx m ∧ gui m' = gui m.
Proof using HD.
  intros Hc Hs E.
  apply run_steps_cons in E as (m1 & E1 & E). apply run_steps_cons in E as (m2 & E2 & E).
  apply run_steps_cons in E as (m3 & E3 & E). apply run_steps_cons in E as (m4 & E4 & E). injection E as <-.
  apply pure_step_spec in E1. assert (∃ l w1, m1 = set_drives l (set_devices w1 m)) as (l & w1 & ->).
  { rewrite E1. unfold init_storage. destruct (Ata.storage_init (devices m)) as [l w1]. eauto. }
  clear E1. apply pure_step_spec in E2, E3.
  destruct (network_init_spec (set_drives l (set_devices w1 m)) m2 Hc Hs E2) as ([Kf Ki Kh Km Kfr Ks] & Hcons & Hrest). clear E2.
  subst m3. unfold init_keyboard in E4. destruct (Ps2.init_ps2 fuel _) as [w|]; [|done]. injection E4 as <-.
  split; [|split; [exact Hcons|exact Hrest]]. split; assumption.
Qed.

Lemma screen_spec f m m' : Graphics.is_available (gfx m) = false → init_screen f m = Some (Ok tt, m') →
  core_keeps m m' ∧ card m' = card m ∧ net m' = net m ∧ vfs m' = vfs m ∧
  Graphics.is_available (gfx m') = Boot.wants_graphics f && negb (Boot.fi_address f =? 0) ∧
  (Graphics.is_available (gfx m') = true → gui m' = Some Desktop.gui_init).
Proof using HD.
  intros Hg ->%pure_step_spec. destruct (Boot.wants_graphics f) eqn:Ew; [|by split_and!; [apply core_keeps_same|..|intros ?; congruence]].
  unfold init_graphics. destruct (Ps2.mouse_init (pointer m) (devices m)) as [p w]. unfold init_gui.
  cbn [gfx put_pointer set_devices set_screen Graphics.init Graphics.fb Graphics.address].
  unfold Boot.wants_graphics in Ew. rewrite !andb_true_iff, !Z.leb_le in Ew. destruct Ew as [[[_ Hw] Hh] _].
  destruct (Z.eqb_spec (Boot.fi_address f) 0) as [E0|E0]; (split; [by apply core_keeps_same|]; do 3 (split; [reflexivity|])).
  - unfold Graphics.is_available. cbn. by rewrite E0.
  - unfold Graphics.is_available. cbn. rewrite (proj2 (Z.eqb_neq _ _) E0), (proj2 (Z.ltb_lt _ _)), (proj2 (Z.ltb_lt _ _)) by lia. done.
Qed.

Lemma rest_steps b f entry m0 m m' : cold m0 → core_ready b m0 m → rest_same m0 m →
  run_steps [init_drivers fuel; init_fs beyond; init_screen f; init_syscall entry] m = Some (Ok tt, m') →
  core_ready b m0 m' ∧ rest_ready f m'.
Proof using HD.
  intros [_ _ Hc Hs Hmt Hav] Hcore (Ec & En & Ev & Eg & Eu) E.
  apply run_steps_cons in E as (m1 & E1 & E). rewrite <- Ec in Hc. rewrite <- En in Hs.
  destruct (drivers_spec m m1 Hc Hs E1) as (K1 & Hcons & V1 & G1 & U1).
  apply run_steps_cons in E as (m2 & E2 & E). unfold init_fs in E2.
  destruct (SystemFS.sys_init _ _ _) as [r v] eqn:Esys. injection E2 as -> <-.
  apply run_steps_cons in E as (m3 & E3 & E).
  assert (Graphics.is_available (gfx (put_vfs v m1)) = false) as Hav1 by (cbn [gfx put_vfs]; by rewrite G1, Eg).
  destruct (screen_spec f (put_vfs v m1) m3 Hav1 E3) as (K3 & C3 & N3 & V3 & A3 & U3).
  apply run_steps_cons in E as (m4 & E4 & E). injection E as <-. apply pure_step_spec in E4 as ->.
  split.
  - apply core_keeps_ready with m3; [|by apply core_keeps_same].
    apply core_keeps_ready with (put_vfs v m1); [|done]. apply core_keeps_ready with m1; [|by apply core_keeps_same].
    by apply core_keeps_ready with m.
  - split; cbn [card net vfs gfx gui set_devices].
    + by rewrite C3, N3.
    + rewrite V3. cbn [vfs put_vfs]. unfold SystemFS.sys_init in Esys. apply M_bind_Ok in Esys as (rootfs & v1 & Ev1 & Efs).
      assert (Files.mounts v1 = []) as Hm1.
      { unfold Files.on_store in Ev1. destruct (SystemFS.choose_rootfs _ _ _) as [r s]. injection Ev1 as -> <-. cbn. by rewrite V1, Ev. }
      destruct (fs_init_root rootfs _ v1 v Hm1 Efs) as (r & rest & Hroot & Hmounts). by exists r, rootfs, rest.
    + done.
    + done.
Qed.

(** ** [kernel_main] *)

Lemma start_scheduler_ready b m0 m : core_ready b m0 m → core_ready b m0 (start_scheduler m).
Proof using Type.
  intros Hc. apply core_keeps_ready with m; [done|]. pose proof (core_irq b m0 m Hc) as Hi. split; try done.
  intros Hs. apply (SchedulerSpec.kstep_inv (kernel m)); [|done]. apply SchedulerSpec.step_start.
Qed.

(** C8: the start of the kernel, from a machine on which nothing has run, on any memory map
    and screen.  When it gets as far as the desktop or the shell, then: interrupts are
    on; the frame allocator keeps its invariant, and every free frame is memory that
    the boot loader reported, outside the low megabyte, the kernel and the heap; the
    page tables keep theirs, and every address translates as after [paging::init], the
    first 4 GB to themselves, whatever has been allocated since; the heap has its first
    size; the run queues, the process table and the numbers given out keep the
    scheduler's invariant; there is a network stack exactly when there is a card; the
    root file system is the root and mounted on "/".  The desktop runs exactly when the
    boot loader's screen can be used, and then has no window yet; otherwise the
    scheduler is on.  Entered again, the kernel changes nothing but what the serial
    port has been sent, and halts. *)
Theorem boot_ready b f entry m o m' :
  cold m → 0 ≤ kernel_start b → layout_ok L → statics_zero L (mem (pages m)) →
  (∀ t, is_static L t → boot_reserved b (t / PAGE_SIZE) = true) →
  kernel_main fuel entry_point at_ L beyond b f entry m = Some (Ok o, m') →
  interrupts_on m' = true ∧
  (alloc_inv (frames (pages m')) ∧
    ∀ p, 0 ≤ p → is_free (frames (pages m')) p = true → boot_available b p = true ∧ boot_reserved b p = false) ∧
  (pt_wf L (own_init L) (pages m') ∧
    ∀ v, translate L (mem (pages m')) v = translate L (paging_init L (mem (pages m))) v) ∧
  heap_ok (heap m') ∧ SchedulerSpec.sched_inv (kernel m') ∧ NetDevice.consistent (card m') (net m') ∧
  (∃ r fs rest, Files.vfs_root (vfs m') = Some r ∧ Files.mounts (vfs m') = Files.mkMount [Files.slash] fs r :: rest) ∧
  match o with
  | RunsDesktop => Boot.wants_graphics f = true ∧ Boot.fi_address f ≠ 0 ∧ gui m' = Some Desktop.gui_init
  | RunsShell => (Boot.wants_graphics f = false ∨ Boot.fi_address f = 0) ∧ Scheduler.enabled (kernel m') = true
  | Halted => False
  end ∧
  ∀ b2 f2 e2 r m2, kernel_main fuel entry_point at_ L beyond b2 f2 e2 m' = Some (r, m2) → r = Ok Halted ∧ ∃ w, m2 = set_devices w m'.
Proof using HD.
  intros Hcold Hks HL Hz Hst E.
  assert (∃ m2, core_ready b m m2 ∧ rest_ready f m2 ∧
    (o, m') = if Graphics.is_available (gfx m2) then (RunsDesktop, m2) else (RunsShell, start_scheduler m2)) as (m2 & Hcore & Hrest & Eo).
  { unfold kernel_main in E. destruct (serial_line fuel "kernel_main entered" m) as [[r0 m0]|] eqn:E0; [|done].
    apply say_spec in E0 as (w & -> & _). cbn [mbind option_bind] in E. rewrite (cold_flag m Hcold : KERNEL_INITIALIZED (set_devices w m) = false) in E.
    destruct (initialize _ _ _ _ _ _ _ _ _) as [[[[]|e|] m2]|] eqn:Ei; [|done..]. cbn [mbind option_bind] in E. exists m2.
    assert (cold (set_devices w m)) as Hcold' by (by destruct Hcold).
    unfold initialize in Ei.
    destruct (core_steps b [init_drivers fuel; init_fs beyond; init_screen f; init_syscall entry] (set_devices w m) m2 Hcold' Hks HL Hz Hst Ei) as (m4 & Hc4 & Hs4 & E4).
    destruct (rest_steps b f entry _ m4 m2 Hcold' Hc4 Hs4 E4) as [Hc2 Hr2]. split; [by destruct Hc2|]. split; [done|].
    destruct (Graphics.is_available (gfx m2)); injection E as <- <-; done. }
  pose proof (rest_screen f m2 Hrest) as Hscreen.
  assert (core_ready b m m' ∧ rest_ready f m') as [Hcore' Hrest'].
  { destruct (Graphics.is_available (gfx m2)) eqn:Ea; injection Eo as -> ->; [done|]. split; [by apply start_scheduler_ready|].
    destruct Hrest. by split. }
  split; [apply Hcore'|]. split; [split; [apply (wf_frames L _ _ (core_tables _ _ _ Hcore'))|apply (core_frames _ _ _ Hcore')]|].
  split; [split; [apply Hcore'|]|].
  { intros v. symmetry. apply (translate_same L (own_init L)); [apply Hcore'|]. intros t π i Ht Hi. symmetry.
    by apply (core_same _ _ _ Hcore' t π i). }
  split; [rewrite (core_heap _ _ _ Hcore'); apply heap_ok_init|].
  split; [apply Hcore'|]. split; [apply Hrest'|]. split; [apply Hrest'|]. split.
  - destruct (Graphics.is_available (gfx m2)) eqn:Ea; injection Eo as -> ->; rewrite ?Ea in Hscreen.
    + symmetry in Hscreen. apply andb_true_iff in Hscreen as [? ?%negb_true_iff%Z.eqb_neq]. split_and!; [done..|].
      by apply (rest_gui f m2 Hrest).
    + split; [|done]. symmetry in Hscreen. apply andb_false_iff in Hscreen as [?|?%negb_false_iff%Z.eqb_eq]; auto.
  - intros b2 f2 e2 r m3 E2. unfold kernel_main in E2. destruct (serial_line fuel "kernel_main entered" m') as [[r0 m0]|] eqn:E0; [|done].
    apply say_spec in E0 as (w & -> & _). cbn [mbind option_bind] in E2.
    rewrite (core_flag _ _ _ Hcore' : KERNEL_INITIALIZED (set_devices w m') = true) in E2.
    destruct (serial_line fuel _ _) as [[r1 m1]|] eqn:E1; [|done]. apply say_spec in E1 as (w1 & -> & _). cbn [mbind option_bind] in E2.
    injection E2 as <- <-. split; [done|]. by exists w1.
Qed.

End Steps.

(** SYSRET to 64-bit code takes its code segment 16 above the upper half of STAR: here
    the selector of the task state segment, not that of user code. *)
Lemma sysret_selector :
  Z.shiftr star 48 = Descriptors.USER_CODE_SELECTOR ∧ Z.shiftr star 48 + 16 = 0x2B ∧ Z.land 0x2B (Z.lnot 7) = 0x28.
Proof. by vm_compute. Qed.

(** ** A machine that starts *)

Module StartupExample.
Import Ps2 Storage.RamDisk NetStackSpec.NetExample.

(** A serial port that is always ready, the controller of the keyboard and the mouse,
    no drive and no card. *)
#[export] Instance board_ports : PortIO Ctl := {
  inb p c :=
    if p =? 0x3FD then (0x60, c)
    else if p =? 0x64 then (if bool_decide (queue c = []) then 0 else 1, c)
    else if p =? 0x60 then match queue c with b :: q => (b, set_queue q c) | [] => (0, c) end
    else (0, c);
  inw _ c := (0, c);
  inl _ c := (0xFFFFFFFF, c);
  outb p v c := if p =? 0x64 then on_command v c else if p =? 0x60 then on_data v c else c;
  outw _ _ c := c; outl _ _ c := c;
}.

#[export] Instance board_dma : Rtl8139.Dma Ctl := { dma_read _ _ := 0; dma_write _ _ c := c }.
#[export] Instance board_registers : Machine.RegisterIO Ctl := {
  mem_read _ c := (0, c); mem_write _ _ c := c; msr_read _ c := ((0, 0), c); msr_write _ _ _ c := c;
}.

#[export] Instance toy_new : NetDevice.SmoltcpNew NetStackSpec.NetExample.Toy := {
  iface_new _ _ := NetStackSpec.NetExample.mkToy 0 []; push_ip_addr _ _ s := s; add_default_route _ s := s; add_tcp _ _ _ s := s;
  add_udp _ _ _ _ s := s; add_dns _ _ s := s; add_dhcp s := s; add_icmp _ _ _ _ _ s := s;
}.

Definition controller0 : Ctl := mkCtl 0x45 [] ToKeyboard [] (mkDev true [100] false 0 false) 0.

Definition net_off : NetStack.Net NetStackSpec.NetExample.Toy := NetStack.mkNetState NetStack.NetConfig_default None 0 0 0 0 1 49152.
Definition nic_off : NetDevice.NetCard unit :=
  NetDevice.mkCard false (Rtl8139.mkNet (Rtl8139.mkNic 0 0 (zeros 6) 0 0 [] 0) 0 0 0 0 tt).

Definition off : KernelState Ctl NetStackSpec.NetExample.Toy Storage.RamDisk.ram_disk :=
  mkMachine false controller0 Descriptors.IDT0 None false (Machine.Pit.mkPit 0 1000 tt) (SchedulerSpec.Kernel_boot (mkPT ∅ new))
    MEMORY_STATS0 (mkHeap 0) None (Console.Console_new (arr_new 2000 0)) Mouse.MouseState_new [] nic_off net_off SystemFS.SystemExample.v0
    (Graphics.mkGfx ∅ (Graphics.mkFramebuffer 0 0 0 0 0 16 8 0) [] 0 0) None.

#[local] Abbreviation power_on f :=
  (kernel_main 8 InterruptSpec.InterruptExample.entry_address MachineSpec.MachineExample.statics0 L0 [] default_boot_info f 0x400000 off).

(** With the text screen the shell runs, with a frame buffer the desktop. *)
Lemma shell_starts : fst <$> power_on Boot.vga_text = Some (Ok RunsShell).
Proof. vm_compute. reflexivity. Qed.

Example desktop_starts :
  match power_on BootSpec.BootExample.vesa with
  | Some (Ok RunsDesktop, m) => gui m = Some Desktop.gui_init ∧ Mouse.get_position (pointer m) = (512, 384) ∧ Mouse.has_scroll_wheel (pointer m) = true
  | _ => False
  end.
Proof. vm_compute. split_and!; reflexivity. Qed.

Lemma off_cold : cold off.
Proof. split; try done. by exists ∅. Qed.

Lemma default_start : 0 ≤ kernel_start default_boot_info.
Proof. by vm_compute. Qed.

Lemma off_zero : statics_zero L0 (mem (pages off)).
Proof. exact L0_zero. Qed.

Lemma L0_reserved t : is_static L0 t → boot_reserved default_boot_info (t / PAGE_SIZE) = true.
Proof.
  intros [-> | [-> | (i & Hi & ->)]]; [by vm_compute..|].
  assert (i = 0 ∨ i = 1 ∨ i = 2 ∨ i = 3) as [-> | [-> | [-> | ->]]] by lia; by vm_compute.
Qed.

Lemma outcome_of {A B} (x : option (A * B)) a : fst <$> x = Some a → ∃ b, x = Some (a, b).
Proof. destruct x as [[? b]|]; [|done]. intros [= ->]. by exists b. Qed.

Lemma boot_ready_witness : ∃ m', power_on Boot.vga_text = Some (Ok RunsShell, m') ∧ interrupts_on m' = true ∧
  alloc_inv (frames (pages m')) ∧ heap_ok (heap m') ∧ SchedulerSpec.sched_inv (kernel m') ∧ Scheduler.enabled (kernel m') = true.
Proof.
  destruct (outcome_of _ _ shell_starts) as [m' Em]. exists m'.
  destruct (boot_ready 8 _ _ _ _ default_boot_info Boot.vga_text _ off RunsShell m' off_cold default_start L0_ok off_zero L0_reserved Em)
    as (H1 & (H2 & _) & _ & H3 & H4 & _ & _ & (_ & H5) & _).
  split; [exact Em|]. split; [exact H1|]. split; [exact H2|]. split; [exact H3|]. split; [exact H4|exact H5].
Defined.

End StartupExample.
